(* ===== verification/_CoqProject ===== *)
-Q . S2P
Prelude.v
Double.v
Memory.v
CString.v
Ctx.v
Profiling.v
Writelog.v
UndoWindow.v
Common.v
Output.v
Rcvry.v
RcvryActions.v
RcvrySignal.v
Windows.v
Recovery.v
RcvryFi.v
Edfi.v
BbTrace.v
Lifecycle.v
Average.v
Fork.v
BufRead.v
ProcMaps.v
ProcScan.v
ProcInfo.v
ProcDiff.v
Shadow.v
Stack.v
CtlServer.v
CtlLiveness.v
Lcg.v
EdfiCtx.v
EdfiPlatforms.v
Bitmap.v
BitmapTree.v
BitmapPlain.v
BitmapByte.v
BitmapTreeByte.v
Policy.v
MinixLog.v
Debug.v
MapFile.v
SiteIds.v
WindowPass.v
StorePass.v
PassRun.v
CondVar.v
CmdSvr.v
UtilStr.v
Shmem.v
Mprotect.v
Softdirty.v
Aop.v
