(* ===== verification/Prelude.v ===== *)
(** * FIRestarter: a verification development

    FIRestarter makes C servers survive crashes.  A compiler pass surrounds library calls
    with recovery windows; inside a window every store is recorded, either by a hardware
    transaction or in a software undo log.  When the program faults in a window, a signal
    handler undoes the library call that opened it, puts an error value in place of its
    result, rolls memory back, and lets the program's own error handling deal with the
    failed call.  The run-time libraries are C code in three parts:

    - [src/llvm/static/ltckpt], checkpointing: the undo log, hardware transactions, bitmaps
      with shadow memory, page protection, soft-dirty pages, forking, and the recovery
      policies of multi-server systems;
    - [src/llvm/static/rcvry], recovery: the actions that undo library calls, the
      dispatcher, the signal handler, and injection of faults at call sites;
    - [src/llvm/static/edfi], the fault injector used in the experiments, which also
      traces the basic blocks a window executes.

    Of the compiler passes (C++, [src/llvm/passes]), those that decide what the libraries see are
    modelled too: the numbers of call sites, the boundaries of windows and the hooks of stores.

    ** Files and what they model

    - [Prelude] (this file): C integers ([u8], [u32], [u64], [s32]), programs as functions
      from a state to an outcome ([Ok] with a result, or [Stop] with the reason control
      does not return: a failed assertion, an exit, a fault, a jump to the saved
      registers), their bind laws, the frame predicate [keeps] with its hints, and shared
      lemmas.
    - [Double]: doubles as the specification of floating-point numbers of the standard library.
    - [Memory], [CString]: byte-addressed memory with little-endian words, compared on a set of
      addresses; C strings, [strtoul], [strtol], [strsep], decimal printing.
    - [Ctx]: the options of a build as the class [Config], and the checkpoint context
      ([ltckpt_ctx.c], [ltckpt_ctx.h], [ltckpt_types.h]).
    - [Profiling], [Average]: the counters of a window and the running average of the size of the
      log ([ltckpt_profiling.h]).
    - [Writelog]: the undo log ([mechanisms/ltckpt_writelog.c]): the state is [ckpt], the log
      lives in the modelled memory at [wl_data], [ltckpt_write_wl] appends and
      [ltckpt_restart_hook_undolog] walks back.
    - [MinixLog]: the undo log of the MINIX build of the same file, with the take-over of the log
      of a crashed server by its successor; the copy of its data, which the system makes, is a
      parameter.
    - [UndoWindow]: an instrumented program as a list of [app_op]s run through the hooks.
    - [Common]: [ltckpt_common.c], the wrappers of the mapping calls over the class [VMem] and
      the set-up of the undo log.
    - [Output]: [include/common/util/output.h] and [safeio.h], the output file of a process, over
      the class [Fds] of descriptors, and [ltckpt_common_late_init].
    - [Stack]: [arch/x64/ltckpt_common.c] and [arch/x86/ltckpt_common.c], the entry of the program:
      a new stack with the arguments moved to it.
    - [Debug]: [ltckpt_debug.c], printing to the log of the MINIX kernel.
    - [Rcvry]: the state [rcvry] of the recovery library and the [world] it shares with the
      checkpointing library, over the class [LibC] of library calls, which may write memory and
      [errno].
    - [RcvryActions]: [rcvry_actions.c], every action, the table of actions, the check for a
      software fault in a child process, delayed deallocation.
    - [RcvrySignal]: [rcvry_dispatch.c] and [rcvry_signal.c], with auto-adaptation.
    - [Windows]: the hooks that open and close windows, for the undo log and for hardware
      transactions ([ltckpt_tsx.c]), over the class [Tsx] of transaction outcomes.
    - [Recovery]: the components together: a window, a fault, and the state afterwards.
    - [RcvryFi]: [rcvry_fi.c] and the counters of [rcvry_util.c].
    - [Edfi]: [edfi/df/edfi_df.c] and the parts of the Unix control server it calls, over
      the class [Platform].
    - [BbTrace]: the tracer, the merge of its traces and the dumps.
    - [Lifecycle]: [ltckpt_signal.c], [ltckpt_fi.c], [ltckpt_overrides.c] and the functions of
      [ltckpt_ctx.c] that call the hooks of a mechanism.
    - [Fork]: [mechanisms/ltckpt_fork.c], over the class [Processes], with the way out of the
      process from [Lifecycle].
    - [BufRead]: [include/common/util/bufread.h], reading a file by lines.
    - [ProcMaps]: [include/common/util/proc_maps.h], reading and filtering the process map,
      over the class [ProcFs]; shared by [Mprotect] and [Softdirty].
    - [ProcScan], [ProcInfo], [ProcDiff]: of the same file, the text of the map with its printing
      and scanning, the areas of a process and the look-ups, and the comparison of two maps with
      the memory of their processes, over the class [ProcMem].
    - [Shadow]: [mechanisms/smmap], [mechanisms/dune] and [ltckpt_baseline.c], the mechanisms that
      leave the copies to the kernel, over what they ask of it.
    - [CtlServer]: [edfi_ctl_server.c] and [edfi_ctl_client.c] of [unix_apps], over the class
      [Sockets]: the requests as bytes, and the server thread and the thread that waits for it
      as a step relation ([ctl_step]) with executable schedules ([run_sched]).
    - [CtlLiveness]: the same threads with clients, as the class [Clients].
    - [Lcg], [EdfiCtx]: the set-up of the injector from the environment ([edfi_ctl_server.c]), its
      clock, children and identifiers of faults; [Lcg] has the period of its random numbers.
    - [EdfiPlatforms]: [edfi/platform/minix_sys] and [edfi/platform/linux_sys].
    - [Bitmap]: [mechanisms/bitmap], the epoch bitmap of the x86-64 build, and
      [ltckpt_stat.c].
    - [BitmapTree]: [bitmap_tree.h], the three levels of bitmaps of the 32-bit build with the
      scheme that synchronises the shadow at a checkpoint.
    - [BitmapPlain], [BitmapByte]: [bitmap_plain.h], a bit for eight bytes with the scheme that
      saves before the first store, and [bitmap_plain_byte.h], a byte for sixteen on protected pages.
    - [BitmapTreeByte]: [bitmap_tree_byte.h], three levels of bytes, and [bitmap_smmap.h].
    - [Policy]: [ltckpt_recover.c], windows and policies of servers, over the class of the
      server platform.
    - [Mprotect]: [mechanisms/mprotect], checkpoints by page protection: the fault handler
      and its list of saved pages, the checkpoint, and the wrappers of system calls.
    - [Softdirty]: [mechanisms/ltckpt_softdirty.c] and [include/common/util/pagemap.h],
      checkpoints of the pages the kernel has marked, over the class [PageMap].
    - [Aop]: [ltckpt_aop.c], the profile of windows by policy and call context.
    - [CondVar], [CmdSvr], [UtilStr], [Shmem]: headers of [include/common/util]: a condition variable
      as a step relation of threads, a server of commands, texts of flags and hashes of stacks, and
      shared segments.
    - [MapFile]: [passes/edfi/MapFile.cpp], the file in which the fault injector writes what it has
      seen of a program; the reader it is read back with is this development's own.
    - [SiteIds]: the numbers of call sites in the metadata of a program ([pass_common.h]), the pass
      [hybprep] and the pass of suicide triggers, over the class [LLVM] with its laws [LLVMLaws].
    - [WindowPass]: [ltCkptPassTsx.cpp] and [instrumentLibCallCkpts] of [ltCkptPass.cpp], the hooks
      around library calls, over the class [PassIR].
    - [StorePass]: [ltCkptPassBasic.cpp], the choice of stores and their hooks, over [StoreIR].
    - [PassRun]: the hooks placed by the passes run on the undo log of [Writelog]; what the other
      instructions do is a parameter, with the laws [memory_laws] of stores and copies.

    ** What the theorems show

    - Rollback.  [Writelog] relates the bytes of the log to an abstract list of entries
      ([log_repr]); appending refines a push and the restart hook refines [undo].  On top of
      these, [UndoWindow] shows that a restart gives back the memory of the top of the
      loop, and which destinations the memcpy hook does not cover; [Recovery] shows the
      same for the whole path through the signal handler, with the return slot and the
      gates.  [Bitmap] shows the corresponding result for shadow memory, with the wrap of
      the epoch, [BitmapPlain] for stores of the 32-bit build, and [Mprotect] for the pages saved by
      the fault handler.  [MinixLog] shows that a server restarted on MINIX has the memory of the
      top of the loop of the one that crashed.
    - Copies.  [BitmapTree] shows that the walk over the tree ends and is the same as copying
      every marked click, so that the shadow is the memory at the last checkpoint until the
      next, and [BitmapTreeByte] the same for the tree of bytes; [BitmapByte] which clicks the bitmap of bytes copies, and when these are all;
      [Softdirty] that a checkpoint saves exactly the tracked pages written since the
      last one; [Fork] that the one child a process has is its last checkpoint, and that none
      is left when it exits.
    - Recovery.  [RcvryActions] gives the contract of every action, with what it leaves to the
      library call it makes; [RcvrySignal] the outcomes of dispatch, the limit
      on repeated faults and the switch of a site; [Windows] that the transaction hook
      decides within its bound; [Policy] that an open window is recoverable, that an injected
      crash in one is recovered from, and that the dispatcher stops the system whenever it
      does not recover.  [Lifecycle] shows that a signal to the library does not disturb a
      window, and that the hook of a mechanism runs once on the way out.
    - Processes.  [Stack] shows that the program starts with its arguments, environment and
      auxiliary vector as they were, on the new stack; [Shadow] that the area handed to the kernel
      holds the data of the program and not the library's own; [ProcScan] that a process map is read
      as it is printed, [ProcInfo] what its areas are, and [ProcDiff] that the comparison of two
      maps finds exactly the mappings that differ; [Output] that the output file does not take a
      descriptor of the program.
    - Threads.  [CtlServer] shows, for every interleaving, that initialisation of the injector
      does not return before the requests it waits for are answered, and [CtlLiveness] that it
      does return under every schedule with enough turns for the server; requests arrive as
      they were sent.
      [CondVar] shows that a thread waiting for a value leaves with it and that a broadcast is
      not lost, [CmdSvr] that a turn of the server counts and closes what it has taken.
    - Passes.  [SiteIds] shows that numbering gives consecutive numbers that are read back, that
      after [hybprep] every library call has its own, and that a suicide trigger is in range of the
      table of [Lifecycle] and fires once; [WindowPass] that the loop that inserts while it iterates
      ends, and where the hooks of windows are; [StorePass] that a store is left out only when it
      goes to the stack, that every other one has its hook before it, and that a store dropped for
      another is dominated by one that is kept.  [PassRun] puts the pass and the undo log together:
      instrumented code in a window can be rolled back.  [MapFile] shows that what is written to the map
      file can be read from it.
    - Bookkeeping.  Counters of windows and checkpoints, fault injection at listed sites,
      spacing of injected faults, the rate of
      faults a probability gives ([EdfiCtx]), accumulation of the statistics file, lossless dumps,
      exact traces, exact profiles of windows.
    - Errors.  Where the code does not do what it means to (the tail of a copy, the last
      delayed pointer, a division by zero, a guard page in the wrong place), the behaviour it
      has is what is stated.

    ** Bounds

    Loops of the code are structural recursions on a bound that comes from the state: the
    restart hook iterates once per entry ([wl_position] divided by the size of an entry), the
    memcpy hooks once per region of the destination, the transaction hook at most
    [LTCKPT_TSX_MAX_TRIES] times, string scans at most the length of the string.  Each is
    shown to finish within its bound, so no result depends on the bound.  The loop over the bits
    of a word has 33 turns, one for each bit and one that finds the word empty.  A system call
    that the code repeats until it succeeds is repeated a bounded number of times in the model
    ([attempts] of [Softdirty], [ProcDiff] and [Debug], a parameter); the theorems ask that the kernel
    succeeds within them.  The walk over a page in [BitmapByte] has three turns, of which two are
    used; numbers of 32 bits are printed in at most eleven ([Debug]).  The loops
    that move the stack have a fuel ([Stack], a parameter) larger than the numbers of arguments and
    environment strings and than the addresses of the strings.  The walks of [StorePass] over values
    have a fuel; each is shown to end when it is larger than the number of phi nodes, or than the
    depth of address computations and casts.  Numbers in the map file have at most ten groups.
    Integers keep their C widths; a theorem that needs a counter not to wrap says so.

    ** What is not modelled

    The kernel, the hardware, libc and LLVM are parameters (classes with the operations the code
    calls).  Saving and restoring registers is the outcome [RestoreRegisters].  Formatted
    debug output (that of a nested fault in the page-protection handler included), the dumps of
    windows and of the shutter board, and the functions that print a stack are left out.  The
    counters of the injector, arrays indexed by block numbers the compiler pass generates, are
    functions on all numbers: an index out of range is not looked at.  Of the compiler passes, those that clone and inline functions, rewire
    the control flow at the gates of recovery, inject faults into the program, sort it into sections
    or slice it ([bbclone], [hybinline], [hybrcvry], [edfi], [sectionify], [slicer]) are sequences of
    calls to LLVM whose meaning is that of the programs they produce; they would need a semantics of
    LLVM code, which is not in the repository.  The casts a pass makes for the arguments of a hook,
    its statistics and the inlining of hooks are left out as well.  The instrumented applications
    ([src/apps]) are third-party programs.

    ** What could be added

    The gates of recovery that [hybrcvry] puts into the control flow, on top of [PassRun], and the walk
    over the tree of bytes in the scheme that saves clicks before the first store. *)
From stdpp Require Import base numbers list gmap fin_maps strings.
From Stdlib Require Import ZArith Lia.

#[global] Open Scope Z_scope.

(** ** Machine integers *)

Module CInt.

(** Reduction of a mathematical integer to an unsigned C type of [w] bits. *)
Definition uwrap (w z : Z) : Z := z mod 2 ^ w.

(** Reduction to a two's complement C type of [w] bits (an implementation-defined
    conversion that gcc and clang define as wrapping). *)
Definition swrap (w z : Z) : Z := (z + 2 ^ (w - 1)) mod 2 ^ w - 2 ^ (w - 1).

Definition u8 : Z → Z := uwrap 8.
Definition u32 : Z → Z := uwrap 32.
Definition u64 : Z → Z := uwrap 64.
Definition s32 : Z → Z := swrap 32.

Lemma uwrap_range w z : 0 <= w → 0 <= uwrap w z < 2 ^ w.
Proof. intros. apply Z.mod_pos_bound. lia. Qed.

Lemma uwrap_small w z : 0 <= z < 2 ^ w → uwrap w z = z.
Proof. apply Z.mod_small. Qed.

Lemma swrap_range w z : 0 < w → - 2 ^ (w - 1) <= swrap w z < 2 ^ (w - 1).
Proof.
  intros. unfold swrap.
  assert (2 ^ w = 2 * 2 ^ (w - 1)) as E by (rewrite <- Z.pow_succ_r by lia; f_equal; lia).
  pose proof (Z.mod_pos_bound (z + 2 ^ (w - 1)) (2 ^ w)). lia.
Qed.

Lemma swrap_small w z : 0 < w → - 2 ^ (w - 1) <= z < 2 ^ (w - 1) → swrap w z = z.
Proof.
  intros ??. unfold swrap.
  assert (2 ^ w = 2 * 2 ^ (w - 1)) as E by (rewrite <- Z.pow_succ_r by lia; f_equal; lia).
  rewrite Z.mod_small; lia.
Qed.

Lemma u32_range z : 0 <= u32 z < 4294967296.
Proof. by apply (uwrap_range 32). Qed.

Lemma u64_range z : 0 <= u64 z < 18446744073709551616.
Proof. by apply (uwrap_range 64). Qed.

Lemma u32_small z : 0 <= z < 4294967296 → u32 z = z.
Proof. apply (uwrap_small 32). Qed.

Lemma u64_small z : 0 <= z < 18446744073709551616 → u64 z = z.
Proof. apply (uwrap_small 64). Qed.

Lemma s32_small z : -2147483648 <= z < 2147483648 → s32 z = z.
Proof. by apply (swrap_small 32). Qed.

(** [x & ~(2^k - 1)] clears the low bits: it rounds [x] down to a multiple of [2^k]. *)
Lemma land_lnot_ones x k : 0 <= k → Z.land x (Z.lnot (Z.ones k)) = x - x mod 2 ^ k.
Proof.
  intros Hk.
  assert (Z.land x (Z.lnot (Z.ones k)) = x / 2 ^ k * 2 ^ k) as ->.
  { rewrite <- Z.ldiff_land, Z.ldiff_ones_r, Z.shiftl_mul_pow2, Z.shiftr_div_pow2 by lia. done. }
  rewrite (Z.div_mod x (2 ^ k)) at 2 by lia. lia.
Qed.

(** A C truth value. *)
Definition truthy (z : Z) : bool := negb (z =? 0).

Lemma truthy_true z : truthy z = true ↔ z ≠ 0.
Proof. unfold truthy. rewrite negb_true_iff. lia. Qed.

Lemma truthy_false z : truthy z = false ↔ z = 0.
Proof. unfold truthy. rewrite negb_false_iff. lia. Qed.

End CInt.
Export CInt.

(** The length of a list as an integer. *)
Abbreviation zlen l := (Z.of_nat (length l)).

(** ** Collecting distinct elements *)

Section Touch.
Context {A : Type} `{EqDecision A}.

(** A list of distinct elements with one more, at the end if it is new. *)
Definition touch (l : list A) (x : A) : list A := if decide (x ∈ l) then l else l ++ [x].

Lemma touch_length l x : zlen l <= zlen (touch l x).
Proof. unfold touch. case_decide; [lia|]. rewrite length_app. lia. Qed.

Lemma touches_length l xs : zlen l <= zlen (foldl touch l xs).
Proof.
  revert l. induction xs as [|x xs IH]; intros l; cbn; [lia|].
  pose proof (touch_length l x). pose proof (IH (touch l x)). lia.
Qed.

Lemma elem_of_touches l xs y : y ∈ foldl touch l xs ↔ y ∈ l ∨ y ∈ xs.
Proof.
  revert l. induction xs as [|x xs IH]; intros l; cbn.
  { rewrite elem_of_nil. tauto. }
  rewrite IH, elem_of_cons. unfold touch. case_decide as Hx.
  - split; [tauto|]. by intros [?|[->|?]]; auto.
  - rewrite elem_of_app, list_elem_of_singleton. tauto.
Qed.

Lemma touches_NoDup l xs : NoDup l → NoDup (foldl touch l xs).
Proof.
  revert l. induction xs as [|x xs IH]; intros l H; cbn; [done|]. apply IH. unfold touch.
  case_decide; [done|]. apply NoDup_app. split_and!; [done| |apply NoDup_singleton].
  intros y Hy ->%list_elem_of_singleton. done.
Qed.

Lemma touches_distinct xs : length (foldl touch [] xs) = length (remove_dups xs).
Proof.
  apply Permutation_length, NoDup_Permutation.
  - apply touches_NoDup, NoDup_nil_2.
  - apply NoDup_remove_dups.
  - intros x. rewrite elem_of_touches, elem_of_remove_dups, elem_of_nil. tauto.
Qed.

End Touch.

(** ** Sums *)

Section Sums.

(** The sum of [g] over the first [n] indices. *)
Definition zsum (g : Z → Z) (n : Z) : Z := foldr (λ i acc, g i + acc) 0 (seqZ 0 n).

Lemma foldr_sum_ext (g h : Z → Z) l :
  (∀ i, i ∈ l → g i = h i) → foldr (λ i acc, g i + acc) 0 l = foldr (λ i acc, h i + acc) 0 l.
Proof.
  induction l as [|i l IH]; intros H; cbn; [done|].
  rewrite (H i) by (by left). f_equal. apply IH. intros j Hj. apply H. by right.
Qed.

Lemma zsum_ext g h n : (∀ i, 0 <= i < n → g i = h i) → zsum g n = zsum h n.
Proof. intros H. apply foldr_sum_ext. intros i Hi%elem_of_seqZ. apply H. lia. Qed.

Lemma foldr_sum_snoc (g : Z → Z) l i :
  foldr (λ i acc, g i + acc) 0 (l ++ [i]) = foldr (λ i acc, g i + acc) 0 l + g i.
Proof. induction l as [|j l IH]; cbn; [lia|]. rewrite IH. lia. Qed.

Lemma zsum_succ g n : 0 <= n → zsum g (n + 1) = zsum g n + g n.
Proof.
  intros Hn. unfold zsum. rewrite seqZ_app by lia. cbn -[foldr]. apply foldr_sum_snoc.
Qed.

Lemma zsum_add g h n i d :
  0 <= i < n → (∀ j, j ≠ i → h j = g j) → h i = g i + d → zsum h n = zsum g n + d.
Proof.
  intros Hi Hne He. replace n with (i + 1 + (n - i - 1)) by lia. unfold zsum.
  rewrite !seqZ_app, !foldr_app by lia.
  assert (∀ l a b, i ∉ l → b = a + d →
    foldr (λ i acc, h i + acc) b l = foldr (λ i acc, g i + acc) a l + d) as Hf.
  { induction l as [|j l IH]; intros a b Hl Hab; cbn; [done|].
    apply not_elem_of_cons in Hl as [Hj Hl]. rewrite (Hne j) by done. rewrite (IH a b); [lia|done..]. }
  apply Hf; [rewrite elem_of_seqZ; lia|].
  rewrite (seqZ_cons (0 + i) 1), (seqZ_nil _ (Z.pred 1)) by lia. cbn -[seqZ].
  rewrite Z.add_0_l, He, (foldr_sum_ext h g); [lia|].
  intros j Hj%elem_of_seqZ. apply Hne. lia.
Qed.

Lemma zsum_nonneg g n : (∀ i, 0 <= g i) → 0 <= zsum g n.
Proof.
  intros Hpos. unfold zsum. induction (seqZ 0 n) as [|j l IH]; cbn; [done|].
  pose proof (Hpos j). lia.
Qed.

Lemma zsum_bound g n i : (∀ i, 0 <= g i) → 0 <= i < n → g i <= zsum g n.
Proof.
  intros Hpos Hi. unfold zsum. assert (i ∈ seqZ 0 n) as Hin by (apply elem_of_seqZ; lia).
  revert Hin. generalize (seqZ 0 n). intros l.
  assert (∀ l, 0 <= foldr (λ i acc, g i + acc) 0 l) as H0.
  { induction l0 as [|j l0 IH]; cbn; [done|]. pose proof (Hpos j). lia. }
  induction l as [|j l IH]; intros Hin; [by apply elem_of_nil in Hin|]. cbn.
  apply elem_of_cons in Hin as [->|Hin]; [pose proof (H0 l); lia|].
  specialize (IH Hin). pose proof (Hpos j). lia.
Qed.

End Sums.

(** ** Arrays

    A C array as a total map from indices; the bounds that the code relies on are
    stated where they matter. *)

Module Arr.

Definition upd {A} (f : Z → A) (i : Z) (v : A) : Z → A := λ j, if j =? i then v else f j.

Lemma upd_eq {A} (f : Z → A) i v : upd f i v i = v.
Proof. unfold upd. by rewrite Z.eqb_refl. Qed.

Lemma upd_ne {A} (f : Z → A) i j v : j ≠ i → upd f i v j = f j.
Proof. unfold upd. intros. by rewrite (proj2 (Z.eqb_neq j i)). Qed.

End Arr.
Export Arr.

(** ** Programs with early termination *)

Module Prog.

(** Why a run of C code stops before it returns to its caller. *)
Inductive stop :=
  | Exit (status : Z)        (** [exit(status)] *)
  | AssertFail               (** a failed [assert] *)
  | Sigsegv                  (** a fault on an invalid pointer, a call through NULL *)
  | Sigfpe                   (** an integer division by zero *)
  | Panic                    (** [ltckpt_panic], which calls [abort] *)
  | Undefined                (** an access outside an array *)
  | RestoreRegisters         (** control goes back to the saved top of the window *)
  | Diverge.                 (** the fuel of a loop ran out *)

#[export] Instance stop_eq_dec : EqDecision stop.
Proof. solve_decision. Defined.

Inductive result (S A : Type) :=
  | Ok (a : A) (s : S)
  | Stop (why : stop) (s : S).
#[global] Arguments Ok {S A} a s.
#[global] Arguments Stop {S A} why s.

Definition prog (S A : Type) : Type := S → result S A.

#[export] Instance prog_ret {S} : MRet (prog S) := λ A a s, Ok a s.
#[export] Instance prog_bind {S} : MBind (prog S) := λ A B f m s,
  match m s with
  | Ok a s' => f a s'
  | Stop w s' => Stop w s'
  end.

Definition gets {S A} (f : S → A) : prog S A := λ s, Ok (f s) s.
Definition modify {S} (f : S → S) : prog S () := λ s, Ok () (f s).
Definition halt {S A} (w : stop) : prog S A := λ s, Stop w s.
Definition skip {S} : prog S () := λ s, Ok () s.
Definition assert {S} (b : bool) : prog S () := if b then skip else halt AssertFail.
Definition when {S} (b : bool) (m : prog S ()) : prog S () := if b then m else skip.

(** The state a run ends in, whichever way it ends. *)
Definition final {S A} (r : result S A) : S :=
  match r with Ok _ s | Stop _ s => s end.

(** The value a run returns, if it does. *)
Definition returned {S A} (r : result S A) : option A :=
  match r with Ok a _ => Some a | Stop _ _ => None end.

Lemma bind_Ok {S A B} (m : prog S A) (f : A → prog S B) s a s' :
  m s = Ok a s' → (m ≫= f) s = f a s'.
Proof. intros H. unfold mbind, prog_bind. by rewrite H. Qed.

Lemma bind_Stop {S A B} (m : prog S A) (f : A → prog S B) s w s' :
  m s = Stop w s' → (m ≫= f) s = Stop w s'.
Proof. intros H. unfold mbind, prog_bind. by rewrite H. Qed.

Lemma bind_ret {S A B} (a : A) (f : A → prog S B) s : (mret a ≫= f) s = f a s.
Proof. done. Qed.

Lemma bind_gets {S A B} (g : S → A) (f : A → prog S B) s : (gets g ≫= f) s = f (g s) s.
Proof. done. Qed.

Lemma bind_modify {S B} (g : S → S) (f : () → prog S B) s : (modify g ≫= f) s = f () (g s).
Proof. done. Qed.

Lemma bind_assert {S B} (b : bool) (f : () → prog S B) s :
  b = true → (assert b ≫= f) s = f () s.
Proof. by intros ->. Qed.

Lemma bind_when_false {S B} (b : bool) (m : prog S ()) (f : () → prog S B) s :
  b = false → (when b m ≫= f) s = f () s.
Proof. by intros ->. Qed.

Lemma bind_assoc {S A B C} (m : prog S A) (f : A → prog S B) (g : B → prog S C) s :
  ((m ≫= f) ≫= g) s = (m ≫= λ a, f a ≫= g) s.
Proof. unfold mbind, prog_bind. by destruct (m s). Qed.

Lemma bind_ext {S A B} (m : prog S A) (f g : A → prog S B) s :
  (∀ a s', f a s' = g a s') → (m ≫= f) s = (m ≫= g) s.
Proof. intros H. unfold mbind, prog_bind. by destruct (m s). Qed.

Lemma bind_inv_Ok {S A B} (m : prog S A) (f : A → prog S B) s b s' :
  (m ≫= f) s = Ok b s' → ∃ a s1, m s = Ok a s1 ∧ f a s1 = Ok b s'.
Proof.
  unfold mbind, prog_bind. destruct (m s) as [a s1|] eqn:E; intros H; [|done].
  by exists a, s1.
Qed.

Lemma assert_inv {S} b (s s' : S) u : assert b s = Ok u s' → b = true ∧ s' = s.
Proof. destruct b; unfold assert, skip, halt; intros; by simplify_eq. Qed.

(** ** Postconditions

    [ok_post p s Q]: if [p] returns from [s], its result and final state satisfy [Q].
    The rules below are used to walk through a program; a claim that a program does
    return is stated with [Ok]. *)
Definition ok_post {S A} (p : prog S A) (s : S) (Q : A → S → Prop) : Prop :=
  match p s with
  | Ok a s' => Q a s'
  | Stop _ _ => True
  end.

Lemma ok_post_inv {S A} (p : prog S A) s a s' Q : ok_post p s Q → p s = Ok a s' → Q a s'.
Proof. unfold ok_post. intros H E. by rewrite E in H. Qed.

Lemma ok_post_mono {S A} (p : prog S A) s (Q R : A → S → Prop) :
  (∀ a s', Q a s' → R a s') → ok_post p s Q → ok_post p s R.
Proof. unfold ok_post. intros H. destruct (p s); eauto. Qed.

Lemma ok_bind {S A B} (m : prog S A) (f : A → prog S B) s Q :
  ok_post m s (λ a s', ok_post (f a) s' Q) → ok_post (m ≫= f) s Q.
Proof. unfold ok_post, mbind, prog_bind. by destruct (m s). Qed.

Lemma ok_ret {S A} (a : A) (s : S) (Q : A → S → Prop) : Q a s → ok_post (mret a) s Q.
Proof. done. Qed.

Lemma ok_gets {S A} (f : S → A) s (Q : A → S → Prop) : Q (f s) s → ok_post (gets f) s Q.
Proof. done. Qed.

Lemma ok_modify {S} (f : S → S) s (Q : () → S → Prop) : Q () (f s) → ok_post (modify f) s Q.
Proof. done. Qed.

Lemma ok_skip {S} (s : S) (Q : () → S → Prop) : Q () s → ok_post skip s Q.
Proof. done. Qed.

Lemma ok_halt {S A} w (s : S) (Q : A → S → Prop) : ok_post (halt w) s Q.
Proof. done. Qed.

Lemma ok_assert {S} b (s : S) (Q : () → S → Prop) :
  (b = true → Q () s) → ok_post (assert b) s Q.
Proof. destruct b; cbn; eauto. Qed.

Lemma ok_when {S} b (m : prog S ()) s (Q : () → S → Prop) :
  (b = true → ok_post m s Q) → (b = false → Q () s) → ok_post (when b m) s Q.
Proof. destruct b; cbn; eauto. Qed.

(** [returns p s Q]: [p] returns from [s], with a result and a final state that satisfy
    [Q]. *)
Definition returns {S A} (p : prog S A) (s : S) (Q : A → S → Prop) : Prop :=
  match p s with
  | Ok a s' => Q a s'
  | Stop _ _ => False
  end.

Lemma returns_elim {S A} (p : prog S A) s Q : returns p s Q → ∃ a s', p s = Ok a s' ∧ Q a s'.
Proof. unfold returns. destruct (p s); naive_solver. Qed.

Lemma returns_mono {S A} (p : prog S A) s (Q R : A → S → Prop) :
  returns p s Q → (∀ a s', Q a s' → R a s') → returns p s R.
Proof. unfold returns. destruct (p s); eauto. Qed.

Lemma returns_bind {S A B} (m : prog S A) (f : A → prog S B) s Q :
  returns m s (λ a s', returns (f a) s' Q) → returns (m ≫= f) s Q.
Proof. unfold returns, mbind, prog_bind. by destruct (m s). Qed.

Lemma returns_assert {S} b (s : S) (Q : () → S → Prop) : b = true → Q () s → returns (assert b) s Q.
Proof. by intros ->. Qed.

(** ** Frames

    [keeps R p]: however [p] ends, its final state is related by [R] to its first. *)
Definition keeps {S A} (R : relation S) (p : prog S A) : Prop := ∀ s, R s (final (p s)).

Section Keeps.
Context {S : Type} (R : relation S) `{!PreOrder R}.

Lemma keeps_bind {A B} (p : prog S A) (f : A → prog S B) :
  keeps R p → (∀ a, keeps R (f a)) → keeps R (p ≫= f).
Proof.
  intros Hp Hf s. specialize (Hp s). unfold mbind, prog_bind.
  destruct (p s) as [a s1|y s1]; [|done]. etransitivity; [exact Hp|apply Hf].
Qed.

Lemma keeps_modify f : (∀ s, R s (f s)) → keeps R (modify f).
Proof. done. Qed.

Lemma keeps_gets {A} (f : S → A) : keeps R (gets f).
Proof. intros s. reflexivity. Qed.

Lemma keeps_ret {A} (a : A) : keeps R (mret a).
Proof. intros s. reflexivity. Qed.

Lemma keeps_halt {A} y : keeps (A := A) R (halt y).
Proof. intros s. reflexivity. Qed.

Lemma keeps_skip : keeps R skip.
Proof. intros s. reflexivity. Qed.

Lemma keeps_assert b : keeps R (assert b).
Proof. intros s. by destruct b. Qed.

Lemma keeps_when b p : keeps R p → keeps R (when b p).
Proof. destruct b; [done|]. intros _. apply keeps_skip. Qed.

Lemma keeps_if {A} (b : bool) (p q : prog S A) :
  keeps R p → keeps R q → keeps R (if b then p else q).
Proof. by destruct b. Qed.

End Keeps.

End Prog.
Export Prog.

Create HintDb keeps discriminated.
#[export] Hint Resolve keeps_gets keeps_ret keeps_halt keeps_skip keeps_assert keeps_when
  keeps_if : keeps.
#[export] Hint Extern 2 (keeps _ (_ ≫= _)) =>
  apply keeps_bind; [typeclasses eauto| |intros ?] : keeps.
#[export] Hint Extern 3 (PreOrder _) => typeclasses eauto : keeps.

(** One step of a walk through a program with [ok_post]. *)
Ltac ok_step :=
  lazymatch goal with
  | |- ok_post (_ ≫= _) _ _ => apply ok_bind
  | |- ok_post (mret _) _ _ => apply ok_ret
  | |- ok_post (gets _) _ _ => apply ok_gets
  | |- ok_post (modify _) _ _ => apply ok_modify
  | |- ok_post skip _ _ => apply ok_skip
  | |- ok_post (halt _) _ _ => apply ok_halt
  | |- ok_post (assert _) _ _ => apply ok_assert; intros ?
  | |- ok_post (when _ _) _ _ => apply ok_when; intros ?
  | |- ok_post (if ?b then _ else _) _ _ => destruct b eqn:?
  | |- ok_post (match ?o with Some _ => _ | None => _ end) _ _ => destruct o eqn:?
  end.
