(* ===== verification/Double.v ===== *)
(** * Double-precision numbers

    The [double] of C on x86: IEEE 754 numbers with 53 digits, rounded to nearest, as
    [SpecFloat] of the core library specifies them, with the conversion of integers and what the
    average of [ltckpt_profiling.h] relies on: integers below 2^53 are exact, division by one
    changes nothing, and a number less itself is zero. *)
From stdpp Require Import base numbers.
From Stdlib Require Import ZArith Lia SpecFloat.
From S2P Require Import Prelude.

Definition double : Type := spec_float.

Definition double0 : double := S754_zero false.
Definition double_inf : double := S754_infinity false.

Definition double_of_Z (z : Z) : double := binary_normalize 53 1024 z 0 false.
Definition dadd (x y : double) : double := SFadd 53 1024 x y.
Definition dsub (x y : double) : double := SFsub 53 1024 x y.
Definition ddiv (x y : double) : double := SFdiv 53 1024 x y.

(** A positive number with all its digits. *)
Definition normal (x : double) : Prop :=
  ∃ m e, x = S754_finite false m e ∧ digits2_pos m = 53%positive ∧ -1000 <= e <= 900.

(** ** Digits *)

Lemma digits_iter_xO m d : digits2_pos (Pos.iter xO m d) = (d + digits2_pos m)%positive.
Proof.
  induction d as [|d IH] using Pos.peano_ind; [cbn; lia|]. rewrite Pos.iter_succ. cbn [digits2_pos]. rewrite IH. lia.
Qed.

Lemma digits_bound (m : positive) : 2 ^ (Z.pos (digits2_pos m) - 1) <= Z.pos m < 2 ^ Z.pos (digits2_pos m).
Proof.
  assert (H2 : ∀ d : positive, 2 ^ Z.pos d = 2 * 2 ^ (Z.pos d - 1)) by (intros d; rewrite <- Z.pow_succ_r; [f_equal|]; lia).
  induction m as [m IH|m IH|]; cbn [digits2_pos]; [| |done]; rewrite Pos2Z.inj_succ, Z.pow_succ_r by lia;
    replace (Z.succ (Z.pos (digits2_pos m)) - 1) with (Z.pos (digits2_pos m)) by lia;
    revert IH; rewrite (H2 (digits2_pos m)); generalize (2 ^ (Z.pos (digits2_pos m) - 1)); lia.
Qed.

Lemma iter_xO m d : Z.pos (Pos.iter xO m d) = Z.pos m * 2 ^ Z.pos d.
Proof.
  induction d as [|d IH] using Pos.peano_ind; [cbn; lia|]. rewrite Pos.iter_succ, Pos2Z.inj_xO, IH, Pos2Z.inj_succ.
  unfold Z.succ. rewrite Z.pow_add_r by lia. lia.
Qed.

(** ** Rounding a number that needs none *)

Lemma round_normal m e :
  digits2_pos m = 53%positive → -1000 <= e <= 900 → binary_round_aux 53 1024 false (Z.pos m) e loc_Exact = S754_finite false m e.
Proof.
  intros Hd He. unfold binary_round_aux, shr_fexp, fexp, emin. cbn [Zdigits2 shr_record_of_loc]. rewrite Hd.
  replace (Z.max (53 + e - 53) (3 - 1024 - 53) - e) with 0 by lia.
  cbn [shr shr_m loc_of_shr_record round_nearest_even shr_record_of_loc shr_r shr_s Zdigits2]. rewrite Hd.
  replace (Z.max (53 + e - 53) (3 - 1024 - 53) - e) with 0 by lia. cbn [shr shr_m].
  rewrite (proj2 (Z.leb_le _ _)); [done|lia].
Qed.

(** Integers below 2^53 are exact. *)
Lemma double_of_Z_small z :
  0 < z < 2 ^ 53 →
  ∃ m e, double_of_Z z = S754_finite false m e ∧ digits2_pos m = 53%positive ∧ -52 <= e <= 0 ∧ Z.pos m = z * 2 ^ (- e).
Proof.
  intros Hz. destruct z as [|p|p]; [lia| |lia]. unfold double_of_Z, binary_normalize, binary_round, shl_align, fexp, emin.
  pose proof (digits_bound p) as Hb.
  assert (Z.pos (digits2_pos p) <= 53) as Hd.
  { destruct (Z_lt_le_dec 53 (Z.pos (digits2_pos p))) as [Hlt|]; [|lia].
    assert (2 ^ 53 <= 2 ^ (Z.pos (digits2_pos p) - 1)) by (apply Z.pow_le_mono_r; lia). lia. }
  replace (Z.max (Z.pos (digits2_pos p) + 0 - 53) (3 - 1024 - 53) - 0) with (Z.pos (digits2_pos p) - 53) by lia.
  replace (Z.max (Z.pos (digits2_pos p) + 0 - 53) (3 - 1024 - 53)) with (Z.pos (digits2_pos p) - 53) by lia.
  destruct (Z.pos (digits2_pos p) - 53) as [|d|d] eqn:E; [|lia|].
  - assert (digits2_pos p = 53%positive) by lia. exists p, 0. split_and!; [by apply round_normal|done|lia|lia|].
    change (2 ^ (- 0)) with 1. lia.
  - assert (digits2_pos (Pos.iter xO p d) = 53%positive) as Hd' by (rewrite digits_iter_xO; lia).
    exists (Pos.iter xO p d), (Z.neg d). split_and!; [apply round_normal; [done|lia]|done|lia|lia|].
    rewrite iter_xO. done.
Qed.

Lemma double_of_Z_normal z : 0 < z < 2 ^ 53 → normal (double_of_Z z).
Proof. intros Hz. destruct (double_of_Z_small z Hz) as (m & e & -> & Hd & He & _). exists m, e. split_and!; [done|done|lia..]. Qed.

(** ** Arithmetic *)

Lemma dsub_zero_r x : normal x → dsub x double0 = x.
Proof. by intros (m & e & -> & _). Qed.

Lemma dadd_zero_l x : normal x → dadd double0 x = x.
Proof. by intros (m & e & -> & _). Qed.

Lemma dadd_zero_r x s : normal x → dadd x (S754_zero s) = x.
Proof. by intros (m & e & -> & _). Qed.

Lemma dsub_diag x : normal x → dsub x x = double0.
Proof. intros (m & e & -> & _). unfold dsub, SFsub. cbv zeta. by rewrite Z.sub_diag. Qed.

Lemma ddiv_one x : normal x → ddiv x (double_of_Z 1) = x.
Proof.
  intros (m & e & -> & Hd & He). change (double_of_Z 1) with (S754_finite false (2 ^ 52) (-52)).
  unfold ddiv, SFdiv, SFdiv_core_binary, fexp, emin. cbn [Zdigits2]. rewrite Hd.
  change (Z.pos (digits2_pos (2 ^ 52))) with 53. cbv zeta.
  replace (Z.min (Z.max (53 + e - (53 + -52) - 53) (3 - 1024 - 53)) (e - -52)) with (e - 1) by lia.
  replace (e - -52 - (e - 1)) with 53 by lia. cbn match.
  assert (Z.div_eucl (Z.shiftl (Z.pos m) 53) (Z.pos (2 ^ 52)) = (Z.pos (xO m), 0)) as ->.
  { pose proof (Z.div_mod (Z.shiftl (Z.pos m) 53) (Z.pos (2 ^ 52)) ltac:(done)) as H.
    rewrite Z.shiftl_mul_pow2 in * by lia. replace (Z.pos m * 2 ^ 53) with (Z.pos (xO m) * Z.pos (2 ^ 52)) in *
      by (rewrite Pos2Z.inj_xO; change (2 ^ 53) with (2 * Z.pos (2 ^ 52)); lia).
    assert ((Z.pos (xO m) * Z.pos (2 ^ 52)) / Z.pos (2 ^ 52) = Z.pos (xO m)) as Hq by (by apply Z.div_mul).
    assert ((Z.pos (xO m) * Z.pos (2 ^ 52)) mod Z.pos (2 ^ 52) = 0) as Hr by (by apply Z.mod_mul).
    unfold Z.div, Z.modulo in Hq, Hr. destruct (Z.div_eucl _ _). by subst. }
  change (new_location (Z.pos (2 ^ 52)) 0) with loc_Exact. cbn [xorb].
  unfold binary_round_aux, shr_fexp, fexp, emin. cbn [Zdigits2 digits2_pos shr_record_of_loc]. rewrite Hd.
  change (Z.pos (Pos.succ 53)) with 54.
  replace (Z.max (54 + (e - 1) - 53) (3 - 1024 - 53) - (e - 1)) with 1 by lia.
  cbn [shr iter_pos shr_1 orb shr_m loc_of_shr_record round_nearest_even shr_record_of_loc Zdigits2]. rewrite Hd.
  replace (e - 1 + 1) with e by lia.
  replace (Z.max (53 + e - 53) (3 - 1024 - 53) - e) with 0 by lia. cbn [shr shr_m].
  rewrite (proj2 (Z.leb_le _ _)); [done|lia].
Qed.

Lemma ddiv_zero_l s n : 0 < n < 2 ^ 53 → ddiv (S754_zero s) (double_of_Z n) = S754_zero s.
Proof. intros Hn. destruct (double_of_Z_small n Hn) as (m & e & -> & _). cbn. by rewrite xorb_false_r. Qed.

Lemma ddiv_by_zero x : normal x → ddiv x (double_of_Z 0) = double_inf.
Proof. by intros (m & e & -> & _). Qed.
