(* ===== verification/Memory.v ===== *)
(** * Byte-addressed memory

    The address space the checkpointing runtime reads and writes: a total map
    from addresses to bytes, with the block operations the C code performs on it
    ([memcpy] of a fixed number of bytes, loads and stores of little-endian
    words).  Two memories are compared address by address ([mem_equiv]), and
    every operation respects that comparison. *)
From stdpp Require Import base numbers list.
From Stdlib Require Import ZArith Lia.
From S2P Require Import Prelude.

Definition mem : Type := Z → Z.

Definition mem_equiv : relation mem := pointwise_relation Z eq.
#[export] Instance mem_Equiv : Equiv mem := mem_equiv.
#[export] Instance mem_equiv_equivalence : Equivalence (≡@{mem}).
Proof.
  split; unfold equiv, mem_Equiv, mem_equiv, pointwise_relation.
  - by intros m a.
  - by intros m1 m2 H a.
  - by intros m1 m2 m3 H1 H2 a; rewrite H1, H2.
Qed.

(** Agreement of two memories on a set of addresses. *)
Definition mem_agree (P : Z → Prop) (m1 m2 : mem) : Prop := ∀ x, P x → m1 x = m2 x.

#[export] Instance mem_agree_equivalence P : Equivalence (mem_agree P).
Proof.
  split.
  - by intros m x.
  - intros m1 m2 H x Hx. symmetry. by apply H.
  - intros m1 m2 m3 H1 H2 x Hx. by rewrite H1, H2.
Qed.

Lemma mem_agree_mono (P Q : Z → Prop) m1 m2 :
  (∀ x, Q x → P x) → mem_agree P m1 m2 → mem_agree Q m1 m2.
Proof. intros HPQ H x Hx. by apply H, HPQ. Qed.

(** ** Blocks of bytes *)

Fixpoint load_bytes (m : mem) (a : Z) (n : nat) : list Z :=
  match n with
  | O => []
  | S n' => m a :: load_bytes m (a + 1) n'
  end.

Fixpoint store_bytes (m : mem) (a : Z) (bs : list Z) : mem :=
  match bs with
  | [] => m
  | b :: bs' => store_bytes (upd m a b) (a + 1) bs'
  end.

(** The addresses of the block of [n] bytes at [a]. *)
Definition in_block (a n x : Z) : Prop := a <= x < a + n.

#[export] Instance in_block_dec a n x : Decision (in_block a n x).
Proof. unfold in_block. apply _. Defined.

Lemma length_load_bytes m a n : length (load_bytes m a n) = n.
Proof. revert a. induction n; intros; cbn; auto. Qed.

Lemma store_bytes_out m a bs x :
  ¬ in_block a (zlen bs) x → store_bytes m a bs x = m x.
Proof.
  unfold in_block. revert m a. induction bs as [|b bs IH]; intros m a H; cbn in *; [done|].
  rewrite IH by lia. apply upd_ne. lia.
Qed.

Lemma store_bytes_in m a bs x :
  in_block a (zlen bs) x → store_bytes m a bs x = nth (Z.to_nat (x - a)) bs 0.
Proof.
  unfold in_block. revert m a. induction bs as [|b bs IH]; intros m a H; cbn in *; [lia|].
  destruct (decide (x = a)) as [->|Hne].
  - rewrite store_bytes_out by (unfold in_block; lia).
    rewrite upd_eq, Z.sub_diag. done.
  - rewrite IH by lia.
    replace (Z.to_nat (x - a)) with (S (Z.to_nat (x - (a + 1)))) by lia. done.
Qed.

Lemma nth_load_bytes m a n i : (i < n)%nat → nth i (load_bytes m a n) 0 = m (a + Z.of_nat i).
Proof.
  revert a i. induction n as [|n IH]; intros a i Hi; [lia|]. destruct i as [|i]; cbn.
  - f_equal. lia.
  - rewrite IH by lia. f_equal. lia.
Qed.

(** A fresh anonymous mapping reads as zero. *)
Definition zero_fill (start size : Z) (m : mem) : mem :=
  λ x, if (start <=? x) && (x <? start + size) then 0 else m x.

Lemma load_bytes_ext m1 m2 a n :
  mem_agree (in_block a (Z.of_nat n)) m1 m2 → load_bytes m1 a n = load_bytes m2 a n.
Proof.
  unfold mem_agree, in_block. revert a. induction n as [|n IH]; intros a H; cbn; [done|].
  f_equal; [apply H; lia|]. apply IH. intros x Hx. apply H. lia.
Qed.

Lemma load_store_bytes m a bs : load_bytes (store_bytes m a bs) a (length bs) = bs.
Proof.
  apply (nth_ext _ _ 0 0); rewrite length_load_bytes; [done|].
  intros i Hi. rewrite nth_load_bytes by done.
  rewrite store_bytes_in by (unfold in_block; lia). f_equal. lia.
Qed.

Lemma load_store_bytes_out m a n b bs :
  (∀ x, in_block a (Z.of_nat n) x → ¬ in_block b (zlen bs) x) →
  load_bytes (store_bytes m b bs) a n = load_bytes m a n.
Proof. intros H. apply load_bytes_ext. intros x Hx. by apply store_bytes_out, H. Qed.

(** Writing back the bytes that are already there changes nothing. *)
Lemma store_load_bytes m a n : store_bytes m a (load_bytes m a n) ≡ m.
Proof.
  intros x. destruct (decide (in_block a (zlen (load_bytes m a n)) x)) as [Hin|Hout].
  - rewrite store_bytes_in by done. rewrite length_load_bytes in Hin.
    unfold in_block in Hin. rewrite nth_load_bytes by lia. f_equal. lia.
  - by rewrite store_bytes_out.
Qed.

(** The bytes of a block after a store do not depend on what was there before. *)
Lemma store_bytes_agree P m1 m2 a bs :
  mem_agree (λ x, P x ∧ ¬ in_block a (zlen bs) x) m1 m2 →
  mem_agree P (store_bytes m1 a bs) (store_bytes m2 a bs).
Proof.
  intros H x Hx. destruct (decide (in_block a (zlen bs) x)).
  - by rewrite !store_bytes_in.
  - rewrite !store_bytes_out by done. by apply H.
Qed.

#[export] Instance store_bytes_proper : Proper ((≡) ==> eq ==> eq ==> (≡)) store_bytes.
Proof.
  intros m1 m2 H a ? <- bs ? <- x.
  by apply (store_bytes_agree (λ _, True)); [intros y _; apply H|].
Qed.

#[export] Instance load_bytes_proper : Proper ((≡) ==> eq ==> eq ==> eq) load_bytes.
Proof. intros m1 m2 H a ? <- n ? <-. apply load_bytes_ext. intros x _. apply H. Qed.

(** ** Little-endian words *)

Fixpoint le_bytes (n : nat) (z : Z) : list Z :=
  match n with
  | O => []
  | S n' => z mod 256 :: le_bytes n' (z / 256)
  end.

Fixpoint le_decode (bs : list Z) : Z :=
  match bs with
  | [] => 0
  | b :: bs' => b + 256 * le_decode bs'
  end.

Lemma length_le_bytes n z : length (le_bytes n z) = n.
Proof. revert z. induction n; intros; cbn; auto. Qed.

Lemma le_decode_le_bytes n z : le_decode (le_bytes n z) = z mod 256 ^ Z.of_nat n.
Proof.
  revert z. induction n as [|n IH]; intros z; [by rewrite Z.mod_1_r|].
  cbn [le_bytes le_decode]. rewrite IH, Nat2Z.inj_succ, Z.pow_succ_r by lia.
  rewrite Z.rem_mul_r by lia. lia.
Qed.

(** Only the low bytes of a number are encoded. *)
Lemma le_bytes_mod n z : le_bytes n (z mod 256 ^ Z.of_nat n) = le_bytes n z.
Proof.
  revert z. induction n as [|n IH]; intros z; [done|]. cbn [le_bytes].
  rewrite Nat2Z.inj_succ, Z.pow_succ_r by lia. f_equal.
  - rewrite Z.rem_mul_r by lia. rewrite Z.mul_comm, Z.mod_add, Z.mod_mod by lia. done.
  - rewrite Z.rem_mul_r, Z.mul_comm, Z.div_add, (Z.div_small (z mod 256)), Z.add_0_l, IH
      by (try apply Z.mod_pos_bound; lia). done.
Qed.

(** Loads and stores of 64-bit and 32-bit words. *)
Definition load_u64 (m : mem) (a : Z) : Z := le_decode (load_bytes m a 8).
Definition store_u64 (m : mem) (a v : Z) : mem := store_bytes m a (le_bytes 8 v).
Definition load_u32 (m : mem) (a : Z) : Z := le_decode (load_bytes m a 4).
Definition store_u32 (m : mem) (a v : Z) : mem := store_bytes m a (le_bytes 4 v).

Lemma load_store_u64 m a v : load_u64 (store_u64 m a v) a = u64 v.
Proof.
  unfold load_u64, store_u64.
  replace 8%nat with (length (le_bytes 8 v)) at 2 by apply length_le_bytes.
  rewrite load_store_bytes, le_decode_le_bytes. done.
Qed.

Lemma load_store_u32 m a v : load_u32 (store_u32 m a v) a = u32 v.
Proof.
  unfold load_u32, store_u32.
  replace 4%nat with (length (le_bytes 4 v)) at 2 by apply length_le_bytes.
  rewrite load_store_bytes, le_decode_le_bytes. done.
Qed.

Lemma store_u64_out m a v x : ¬ in_block a 8 x → store_u64 m a v x = m x.
Proof. intros H. apply store_bytes_out. by rewrite length_le_bytes. Qed.

Lemma store_u32_out m a v x : ¬ in_block a 4 x → store_u32 m a v x = m x.
Proof. intros H. apply store_bytes_out. by rewrite length_le_bytes. Qed.

Lemma load_u64_ext m1 m2 a : mem_agree (in_block a 8) m1 m2 → load_u64 m1 a = load_u64 m2 a.
Proof. intros H. unfold load_u64. f_equal. by apply load_bytes_ext. Qed.

Lemma load_u32_ext m1 m2 a : mem_agree (in_block a 4) m1 m2 → load_u32 m1 a = load_u32 m2 a.
Proof. intros H. unfold load_u32. f_equal. by apply load_bytes_ext. Qed.
