(* ===== verification/CString.v ===== *)
(** * C strings and number parsing

    The parts of [string.h] and [stdlib.h] the libraries read their settings with:
    [strtoul] and [strtol] with base 0, and [strsep].  A C string is the list of its
    characters before the terminator. *)
From stdpp Require Import base numbers list strings sets.
From Stdlib Require Import ZArith Lia Ascii.
From S2P Require Import Prelude.

Definition cstr : Type := list ascii.

(** The characters of a literal. *)
Fixpoint lit (s : string) : cstr :=
  match s with
  | String.EmptyString => []
  | String.String c s' => c :: lit s'
  end.

Definition code (c : ascii) : Z := Z.of_N (N_of_ascii c).

Definition ULONG_MAX : Z := 18446744073709551615.
Definition LONG_MAX : Z := 9223372036854775807.
Definition LONG_MIN : Z := -9223372036854775808.

(** [isspace] in the C locale. *)
Definition isspace (c : ascii) : bool := (code c =? 32) || ((9 <=? code c) && (code c <=? 13)).

(** The value of a digit in any base up to 36. *)
Definition digit_val (c : ascii) : option Z :=
  let n := code c in
  if (48 <=? n) && (n <=? 57) then Some (n - 48)
  else if (97 <=? n) && (n <=? 122) then Some (n - 87)
  else if (65 <=? n) && (n <=? 90) then Some (n - 55)
  else None.

Definition digit_in (base : Z) (c : ascii) : option Z :=
  match digit_val c with
  | Some d => if d <? base then Some d else None
  | None => None
  end.

Fixpoint skip_spaces (s : cstr) : cstr :=
  match s with
  | c :: s' => if isspace c then skip_spaces s' else s
  | [] => []
  end.

(** The longest run of digits, added to [acc], and what follows it. *)
Fixpoint scan_digits (base acc : Z) (s : cstr) : Z * cstr :=
  match s with
  | c :: s' =>
      match digit_in base c with
      | Some d => scan_digits base (acc * base + d) s'
      | None => (acc, s)
      end
  | [] => (acc, [])
  end.

Definition scan_sign (s : cstr) : bool * cstr :=
  match s with
  | c :: s' => if code c =? 45 then (true, s') else if code c =? 43 then (false, s') else (false, s)
  | [] => (false, [])
  end.

(** The base a number announces, and the digits after its prefix. *)
Definition scan_prefix (s : cstr) : Z * cstr :=
  match s with
  | z :: x :: d :: s' =>
      if (code z =? 48) && ((code x =? 120) || (code x =? 88))
         && (match digit_in 16 d with Some _ => true | None => false end)
      then (16, d :: s')
      else if code z =? 48 then (8, s) else (10, s)
  | z :: _ => if code z =? 48 then (8, s) else (10, s)
  | [] => (10, [])
  end.

(** The sign, the value and the rest of a number in base 0; [None] when there is no
    number. *)
Definition scan_number (s : cstr) : option (bool * Z * cstr) :=
  let '(neg, s1) := scan_sign (skip_spaces s) in
  let '(base, s2) := scan_prefix s1 in
  match s2 with
  | c :: _ =>
      match digit_in base c with
      | Some _ => let '(v, s3) := scan_digits base 0 s2 in Some (neg, v, s3)
      | None => None
      end
  | [] => None
  end.

Definition strtoul (s : cstr) : Z :=
  match scan_number s with
  | None => 0
  | Some (neg, v, _) => if ULONG_MAX <? v then ULONG_MAX else if neg : bool then u64 (- v) else v
  end.

(** [strtol], with the tail its second argument receives. *)
Definition strtol (s : cstr) : Z * cstr :=
  match scan_number s with
  | None => (0, s)
  | Some (neg, v, tl) =>
      let v := if neg : bool then - v else v in
      (Z.max LONG_MIN (Z.min LONG_MAX v), tl)
  end.

(** [strncmp(s, p, strlen(p)) == 0]. *)
Fixpoint starts_with (p s : cstr) : bool :=
  match p, s with
  | [], _ => true
  | a :: p', b :: s' => if ascii_dec a b then starts_with p' s' else false
  | _ :: _, [] => false
  end.

(** [strstr(s, p) != NULL]. *)
Fixpoint contains_str (p s : cstr) : bool :=
  starts_with p s || match s with [] => false | _ :: s' => contains_str p s' end.

(** ** Fields of a separated list *)

(** One call of [strsep]: the field before the first separator, and what the
    pointer is left at ([None] for NULL). *)
Fixpoint strsep_field (sep : ascii) (s : cstr) : cstr * option cstr :=
  match s with
  | [] => ([], None)
  | c :: s' =>
      if ascii_dec c sep then ([], Some s')
      else let '(f, r) := strsep_field sep s' in (c :: f, r)
  end.

(** The fields a loop on [strsep] yields from a pointer, NULL included; each call
    consumes a separator, so the length of the string bounds their number. *)
Fixpoint strsep_all (fuel : nat) (sep : ascii) (p : option cstr) : list cstr :=
  match p, fuel with
  | None, _ | _, O => []
  | Some s, S fuel' => let '(f, r) := strsep_field sep s in f :: strsep_all fuel' sep r
  end.

Definition fields (sep : ascii) (p : option cstr) : list cstr :=
  match p with None => [] | Some s => strsep_all (S (length s)) sep (Some s) end.

Definition comma : ascii := ","%char.

(** The text of a list of fields. *)
Fixpoint join (sep : ascii) (fs : list cstr) : cstr :=
  match fs with
  | [] => []
  | [f] => f
  | f :: fs' => f ++ sep :: join sep fs'
  end.

Lemma strsep_field_app sep f s :
  sep ∉ f → strsep_field sep (f ++ sep :: s) = (f, Some s).
Proof.
  induction f as [|c f IH]; intros H; cbn.
  - by destruct (ascii_dec sep sep).
  - destruct (ascii_dec c sep) as [->|]; [set_solver|]. rewrite IH by set_solver. done.
Qed.

Lemma strsep_field_last sep f : sep ∉ f → strsep_field sep f = (f, None).
Proof.
  induction f as [|c f IH]; intros H; cbn; [done|].
  destruct (ascii_dec c sep) as [->|]; [set_solver|]. rewrite IH by set_solver. done.
Qed.

Lemma strsep_all_join sep fs fuel :
  fs ≠ [] → Forall (λ f, sep ∉ f) fs → (length fs <= fuel)%nat →
  strsep_all fuel sep (Some (join sep fs)) = fs.
Proof.
  revert fuel. induction fs as [|f fs IH]; intros fuel Hne Hf Hl; [done|].
  inversion_clear Hf as [|?? Hsep Hfs]. destruct fuel as [|fuel]; [cbn in Hl; lia|].
  destruct fs as [|f' fs].
  - cbn [join strsep_all]. rewrite strsep_field_last by done. by destruct fuel.
  - change (join sep (f :: f' :: fs)) with (f ++ sep :: join sep (f' :: fs)).
    cbn [strsep_all]. rewrite strsep_field_app by done. f_equal.
    apply IH; [done|done|cbn in *; lia].
Qed.

Lemma length_join sep fs : fs ≠ [] → (length fs <= S (length (join sep fs)))%nat.
Proof.
  induction fs as [|f fs IH]; intros H; [done|]. destruct fs as [|f' fs]; [cbn; lia|].
  change (join sep (f :: f' :: fs)) with (f ++ sep :: join sep (f' :: fs)).
  rewrite length_app. cbn [length]. specialize (IH ltac:(done)). cbn [length] in IH. lia.
Qed.

(** Splitting the text of a list of fields gives the fields back. *)
Lemma fields_join sep fs :
  fs ≠ [] → Forall (λ f, sep ∉ f) fs → fields sep (Some (join sep fs)) = fs.
Proof. intros. apply strsep_all_join; [done|done|]. by apply length_join. Qed.

(** ** Printed numbers *)

(** The digit of a value below 16, as [printf] writes it. *)
Definition digit_chr (d : Z) : ascii := ascii_of_N (Z.to_N (if d <? 10 then 48 + d else 87 + d)).

(** The digits of a number, least significant last, with enough fuel. *)
Fixpoint num_digits (base : Z) (fuel : nat) (n : Z) (acc : cstr) : cstr :=
  match fuel with
  | O => acc
  | S fuel' =>
      let acc := digit_chr (n mod base) :: acc in
      if n <? base then acc else num_digits base fuel' (n / base) acc
  end.

Definition dec (n : Z) : cstr := num_digits 10 20 n [].
Definition hex (n : Z) : cstr := num_digits 16 16 n [].

(** A property of all digits, by cases. *)
Lemma digit_cases (P : Z → Prop) :
  P 0 → P 1 → P 2 → P 3 → P 4 → P 5 → P 6 → P 7 → P 8 → P 9 → P 10 → P 11 → P 12 → P 13 →
  P 14 → P 15 → ∀ d, 0 <= d < 16 → P d.
Proof.
  intros. assert (d ∈ [0;1;2;3;4;5;6;7;8;9;10;11;12;13;14;15]) as Hd.
  { rewrite !elem_of_cons, elem_of_nil. lia. }
  rewrite !elem_of_cons, elem_of_nil in Hd. destruct_or! Hd; by subst.
Qed.

Lemma digit_chr_val d : 0 <= d < 16 → digit_val (digit_chr d) = Some d ∧
  isspace (digit_chr d) = false ∧ code (digit_chr d) = (if d <? 10 then 48 + d else 87 + d).
Proof. revert d. apply digit_cases; by vm_compute. Qed.

Lemma digit_in_chr base d : 0 <= d < base → base <= 16 → digit_in base (digit_chr d) = Some d.
Proof.
  intros H Hb. unfold digit_in. rewrite (proj1 (digit_chr_val d ltac:(lia))).
  by rewrite (proj2 (Z.ltb_lt d base)) by lia.
Qed.

(** Scanning the digits of a number reads the number; the first digit of a positive
    number is not 0. *)
Lemma scan_num base fuel n rest :
  2 <= base <= 16 → 0 <= n < base ^ Z.of_nat fuel → (0 < fuel)%nat →
  scan_digits base 0 (num_digits base fuel n rest) = scan_digits base n rest ∧
  ∃ d s, num_digits base fuel n rest = digit_chr d :: s ∧ 0 <= d < base ∧ (0 < n → 0 < d).
Proof.
  intros Hb. revert n rest. induction fuel as [|fuel IH]; intros n rest Hn Hf; [lia|].
  pose proof (Z.mod_pos_bound n base) as Hm. cbn [num_digits].
  destruct (Z.ltb_spec n base) as [Hlt|Hge].
  - rewrite Z.mod_small in * by lia. split.
    + cbn [scan_digits]. by rewrite digit_in_chr by lia.
    + exists n, rest. split; [done|lia].
  - rewrite Nat2Z.inj_succ, Z.pow_succ_r in Hn by lia.
    assert (0 <= n / base < base ^ Z.of_nat fuel) as Hq.
    { split; [apply Z.div_pos; lia|apply Z.div_lt_upper_bound; lia]. }
    assert (0 < n / base) as Hpos by (apply Z.div_str_pos; lia).
    assert (0 < fuel)%nat as Hf' by (destruct fuel; [cbn in Hq; lia|lia]).
    destruct (IH (n / base) (digit_chr (n mod base) :: rest) Hq Hf')
      as [-> (d & s & -> & Hd & Hd0)].
    split.
    + cbn [scan_digits]. rewrite digit_in_chr by lia. f_equal.
      rewrite (Z.div_mod n base) at 3 by lia. lia.
    + exists d, s. split_and!; try done; lia.
Qed.

(** The digits in front of a text. *)
Lemma length_num_digits base fuel n acc : (length (num_digits base fuel n acc) <= fuel + length acc)%nat.
Proof.
  revert n acc. induction fuel as [|fuel IH]; intros n acc; cbn [num_digits]; [lia|].
  destruct (n <? base); [cbn; lia|]. etrans; [apply IH|]. cbn. lia.
Qed.

Lemma num_digits_app base fuel n acc : num_digits base fuel n acc = num_digits base fuel n [] ++ acc.
Proof.
  revert n acc. induction fuel as [|fuel IH]; intros n acc; [done|]. cbn [num_digits].
  destruct (n <? base); [done|]. rewrite IH, (IH _ [_]), <- app_assoc. done.
Qed.

Lemma scan_digits_nil base v : scan_digits base v [] = (v, []).
Proof. done. Qed.

(** A decimal number is scanned whole. *)
Lemma scan_number_dec n : 0 < n <= ULONG_MAX → scan_number (dec n) = Some (false, n, []).
Proof.
  unfold ULONG_MAX. intros Hn.
  destruct (scan_num 10 20 n []) as (Hscan & d & s & Hs & Hd & Hd0); [lia|cbn; lia|lia|].
  specialize (Hd0 ltac:(lia)). rewrite scan_digits_nil in Hscan.
  unfold scan_number, dec. rewrite Hs in *.
  destruct (digit_chr_val d ltac:(lia)) as (Hv & Hsp & Hc).
  rewrite (proj2 (Z.ltb_lt d 10)) in Hc by lia. cbn [skip_spaces]. rewrite Hsp.
  cbn [scan_sign]. rewrite Hc, !(proj2 (Z.eqb_neq _ _)) by lia.
  assert (scan_prefix (digit_chr d :: s) = (10, digit_chr d :: s)) as ->.
  { unfold scan_prefix. rewrite Hc, (proj2 (Z.eqb_neq (48 + d) 48)) by lia.
    by destruct s as [|? [|? ?]]. }
  by rewrite digit_in_chr, Hscan by lia.
Qed.

(** [strtoul] reads back a decimal number that fits [unsigned long]. *)
Lemma strtoul_dec n : 0 <= n <= ULONG_MAX → strtoul (dec n) = n.
Proof.
  intros Hn. destruct (decide (n = 0)) as [->|Hne]; [done|].
  unfold strtoul. rewrite scan_number_dec, (proj2 (Z.ltb_ge _ _)) by lia. done.
Qed.

Lemma strtol_dec n : 0 < n <= LONG_MAX → strtol (dec n) = (n, []).
Proof.
  unfold LONG_MAX. intros Hn. unfold strtol.
  rewrite scan_number_dec by (unfold ULONG_MAX; lia). f_equal. unfold LONG_MIN, LONG_MAX. lia.
Qed.

(** A character that is no digit does not occur among the digits. *)
Lemma num_digits_not_elem base fuel n c :
  2 <= base <= 16 → digit_in 16 c = None → c ∉ num_digits base fuel n [].
Proof.
  intros Hb Hc. revert n. induction fuel as [|fuel IH]; intros n; [apply not_elem_of_nil|].
  cbn [num_digits].
  assert (c ∉ [digit_chr (n mod base)]) as H1.
  { intros ->%list_elem_of_singleton. pose proof (Z.mod_pos_bound n base).
    by rewrite digit_in_chr in Hc by lia. }
  destruct (n <? base); [done|]. rewrite num_digits_app, elem_of_app.
  intros [?|?]; [by eapply IH|done].
Qed.

(** A decimal number contains no separator. *)
Lemma dec_sep n : comma ∉ dec n.
Proof. by apply num_digits_not_elem. Qed.
