(* ===== verification/Ctx.v ===== *)
(** * Build configuration, types and the checkpoint context

    [ltckpt_types.h], [ltckpt_ctx.h], [ltckpt_ctx.c] and the part of
    [ltckpt_common.c] every mechanism shares: the preprocessor options a build
    fixes (as a class, so that a theorem holds for every build unless it says
    otherwise), the checkpoint kinds, the context counters and the decision, at
    each top of the loop, whether a new checkpoint is due. *)
From stdpp Require Import base numbers list strings.
From Stdlib Require Import ZArith Lia.
From S2P Require Import Prelude CString.

(** ** Preprocessor options *)

(** The options the two libraries are compiled with ([llvm/static/ltckpt/Makefile]
    and [llvm/static/rcvry/Makefile]). *)
Class Config := {
  LTCKPT_WINDOW_PROFILING : bool;
  RCVRY_WINDOW_PROFILING : bool;
  RCVRY_DYNAMIC_SWITCH : bool;
  RCVRY_AUTO_ADAPT : bool;
  RCVRY_CKPT_DEFAULT_TO_UNDOLOG : bool;
  RCVRY_CKPT_DONT_REMEMBER : bool;
  RCVRY_CLOSE_GATE_AFTER : bool;
  RCVRY_DELAYED_FREE : bool;
  RCVRY_TSX_NO_SWITCHING : bool;
  LTCKPT_NO_REG_RESTORATION : bool;
  LTCKPT_NO_TSX_FOR_RCVRY_FAIL : bool;
  LTCKPT_LIBCALL_INTERVALS : bool;
  LTCKPT_EMPTY_UNDOLOG_HOOKS : bool;
  LTCKPT_TSX_MAX_TRIES : Z;
}.

(** The options of the hybrid configurations with auto-adaptation under
    [kombiton/configs/overhead/firestarter-with-autoadapt]. *)
Definition config_autoadapt : Config := {|
  LTCKPT_WINDOW_PROFILING := false;
  RCVRY_WINDOW_PROFILING := false;
  RCVRY_DYNAMIC_SWITCH := true;
  RCVRY_AUTO_ADAPT := true;
  RCVRY_CKPT_DEFAULT_TO_UNDOLOG := false;
  RCVRY_CKPT_DONT_REMEMBER := true;
  RCVRY_CLOSE_GATE_AFTER := true;
  RCVRY_DELAYED_FREE := false;
  RCVRY_TSX_NO_SWITCHING := true;
  LTCKPT_NO_REG_RESTORATION := false;
  LTCKPT_NO_TSX_FOR_RCVRY_FAIL := true;
  LTCKPT_LIBCALL_INTERVALS := true;
  LTCKPT_EMPTY_UNDOLOG_HOOKS := false;
  LTCKPT_TSX_MAX_TRIES := 3
|}.

(** The same with profiling of both libraries, no auto-adaptation and a switch to
    the undo log signalled to the recovery library. *)
Definition config_profiling : Config := {|
  LTCKPT_WINDOW_PROFILING := true;
  RCVRY_WINDOW_PROFILING := true;
  RCVRY_DYNAMIC_SWITCH := true;
  RCVRY_AUTO_ADAPT := false;
  RCVRY_CKPT_DEFAULT_TO_UNDOLOG := false;
  RCVRY_CKPT_DONT_REMEMBER := true;
  RCVRY_CLOSE_GATE_AFTER := true;
  RCVRY_DELAYED_FREE := true;
  RCVRY_TSX_NO_SWITCHING := false;
  LTCKPT_NO_REG_RESTORATION := false;
  LTCKPT_NO_TSX_FOR_RCVRY_FAIL := false;
  LTCKPT_LIBCALL_INTERVALS := true;
  LTCKPT_EMPTY_UNDOLOG_HOOKS := false;
  LTCKPT_TSX_MAX_TRIES := 3
|}.

(** ** Checkpoint kinds *)

Inductive ltckpt_type_t :=
  | LTCKPT_TYPE_INVALID
  | LTCKPT_TYPE_UNDOLOG
  | LTCKPT_TYPE_TSX
  | LTCKPT_TYPE_TSX_END.

#[export] Instance ltckpt_type_eq_dec : EqDecision ltckpt_type_t.
Proof. solve_decision. Defined.

(** The value of the enumerator, which is what the gates hold. *)
Definition ltckpt_type_val (t : ltckpt_type_t) : Z :=
  match t with
  | LTCKPT_TYPE_INVALID => 0
  | LTCKPT_TYPE_UNDOLOG => 1
  | LTCKPT_TYPE_TSX => 2
  | LTCKPT_TYPE_TSX_END => 3
  end.

#[export] Instance ltckpt_type_val_inj : Inj (=) (=) ltckpt_type_val.
Proof. intros [] []; done. Qed.

Definition LTCKPT_OK : Z := 0.
Definition LTCKPT_FAIL : Z := -1.
Definition PAGE_SIZE : Z := 4096.

(** ** The context *)

(** [ltckpt_ctx_t] without the output configuration: the [int] settings, the name of
    the mechanism and the [unsigned long] counters. *)
Record ltckpt_ctx := mk_ctx {
  lazy_init : Z;
  skip_mmap : Z;
  initialized : Z;
  atexit_dump : Z;
  exited : Z;
  allow_prctl : Z;
  checkpoint_interval : Z;
  pgfault_nesting_level : Z;
  page_statistic_enabled : Z;
  approach : string;
  errors : Z;
  num_cows : Z;
  num_tols : Z;
  num_checkpoints : Z;
  max_log_size : Z;
  num_aop_funcs : Z;
  num_aop_tols : Z;
}.

Definition set_lazy_init (v : Z) (s : ltckpt_ctx) : ltckpt_ctx :=
  mk_ctx v (skip_mmap s) (initialized s) (atexit_dump s) (exited s) (allow_prctl s)
    (checkpoint_interval s) (pgfault_nesting_level s) (page_statistic_enabled s) (approach s)
    (errors s) (num_cows s) (num_tols s) (num_checkpoints s) (max_log_size s) (num_aop_funcs s)
    (num_aop_tols s).
Definition set_skip_mmap (v : Z) (s : ltckpt_ctx) : ltckpt_ctx :=
  mk_ctx (lazy_init s) v (initialized s) (atexit_dump s) (exited s) (allow_prctl s)
    (checkpoint_interval s) (pgfault_nesting_level s) (page_statistic_enabled s) (approach s)
    (errors s) (num_cows s) (num_tols s) (num_checkpoints s) (max_log_size s) (num_aop_funcs s)
    (num_aop_tols s).
Definition set_initialized (v : Z) (s : ltckpt_ctx) : ltckpt_ctx :=
  mk_ctx (lazy_init s) (skip_mmap s) v (atexit_dump s) (exited s) (allow_prctl s)
    (checkpoint_interval s) (pgfault_nesting_level s) (page_statistic_enabled s) (approach s)
    (errors s) (num_cows s) (num_tols s) (num_checkpoints s) (max_log_size s) (num_aop_funcs s)
    (num_aop_tols s).
Definition set_atexit_dump (v : Z) (s : ltckpt_ctx) : ltckpt_ctx :=
  mk_ctx (lazy_init s) (skip_mmap s) (initialized s) v (exited s) (allow_prctl s)
    (checkpoint_interval s) (pgfault_nesting_level s) (page_statistic_enabled s) (approach s)
    (errors s) (num_cows s) (num_tols s) (num_checkpoints s) (max_log_size s) (num_aop_funcs s)
    (num_aop_tols s).
Definition set_exited (v : Z) (s : ltckpt_ctx) : ltckpt_ctx :=
  mk_ctx (lazy_init s) (skip_mmap s) (initialized s) (atexit_dump s) v (allow_prctl s)
    (checkpoint_interval s) (pgfault_nesting_level s) (page_statistic_enabled s) (approach s)
    (errors s) (num_cows s) (num_tols s) (num_checkpoints s) (max_log_size s) (num_aop_funcs s)
    (num_aop_tols s).
Definition set_allow_prctl (v : Z) (s : ltckpt_ctx) : ltckpt_ctx :=
  mk_ctx (lazy_init s) (skip_mmap s) (initialized s) (atexit_dump s) (exited s) v
    (checkpoint_interval s) (pgfault_nesting_level s) (page_statistic_enabled s) (approach s)
    (errors s) (num_cows s) (num_tols s) (num_checkpoints s) (max_log_size s) (num_aop_funcs s)
    (num_aop_tols s).
Definition set_checkpoint_interval (v : Z) (s : ltckpt_ctx) : ltckpt_ctx :=
  mk_ctx (lazy_init s) (skip_mmap s) (initialized s) (atexit_dump s) (exited s)
    (allow_prctl s) v (pgfault_nesting_level s) (page_statistic_enabled s) (approach s)
    (errors s) (num_cows s) (num_tols s) (num_checkpoints s) (max_log_size s) (num_aop_funcs s)
    (num_aop_tols s).
Definition set_pgfault_nesting_level (v : Z) (s : ltckpt_ctx) : ltckpt_ctx :=
  mk_ctx (lazy_init s) (skip_mmap s) (initialized s) (atexit_dump s) (exited s) (allow_prctl s)
    (checkpoint_interval s) v (page_statistic_enabled s) (approach s) (errors s) (num_cows s)
    (num_tols s) (num_checkpoints s) (max_log_size s) (num_aop_funcs s) (num_aop_tols s).
Definition set_page_statistic_enabled (v : Z) (s : ltckpt_ctx) : ltckpt_ctx :=
  mk_ctx (lazy_init s) (skip_mmap s) (initialized s) (atexit_dump s) (exited s) (allow_prctl s)
    (checkpoint_interval s) (pgfault_nesting_level s) v (approach s) (errors s) (num_cows s)
    (num_tols s) (num_checkpoints s) (max_log_size s) (num_aop_funcs s) (num_aop_tols s).
Definition set_approach (v : string) (s : ltckpt_ctx) : ltckpt_ctx :=
  mk_ctx (lazy_init s) (skip_mmap s) (initialized s) (atexit_dump s) (exited s) (allow_prctl s)
    (checkpoint_interval s) (pgfault_nesting_level s) (page_statistic_enabled s) v (errors s)
    (num_cows s) (num_tols s) (num_checkpoints s) (max_log_size s) (num_aop_funcs s)
    (num_aop_tols s).
Definition set_errors (v : Z) (s : ltckpt_ctx) : ltckpt_ctx :=
  mk_ctx (lazy_init s) (skip_mmap s) (initialized s) (atexit_dump s) (exited s) (allow_prctl s)
    (checkpoint_interval s) (pgfault_nesting_level s) (page_statistic_enabled s) (approach s) v
    (num_cows s) (num_tols s) (num_checkpoints s) (max_log_size s) (num_aop_funcs s)
    (num_aop_tols s).
Definition set_num_cows (v : Z) (s : ltckpt_ctx) : ltckpt_ctx :=
  mk_ctx (lazy_init s) (skip_mmap s) (initialized s) (atexit_dump s) (exited s) (allow_prctl s)
    (checkpoint_interval s) (pgfault_nesting_level s) (page_statistic_enabled s) (approach s)
    (errors s) v (num_tols s) (num_checkpoints s) (max_log_size s) (num_aop_funcs s)
    (num_aop_tols s).
Definition set_num_tols (v : Z) (s : ltckpt_ctx) : ltckpt_ctx :=
  mk_ctx (lazy_init s) (skip_mmap s) (initialized s) (atexit_dump s) (exited s) (allow_prctl s)
    (checkpoint_interval s) (pgfault_nesting_level s) (page_statistic_enabled s) (approach s)
    (errors s) (num_cows s) v (num_checkpoints s) (max_log_size s) (num_aop_funcs s)
    (num_aop_tols s).
Definition set_num_checkpoints (v : Z) (s : ltckpt_ctx) : ltckpt_ctx :=
  mk_ctx (lazy_init s) (skip_mmap s) (initialized s) (atexit_dump s) (exited s) (allow_prctl s)
    (checkpoint_interval s) (pgfault_nesting_level s) (page_statistic_enabled s) (approach s)
    (errors s) (num_cows s) (num_tols s) v (max_log_size s) (num_aop_funcs s) (num_aop_tols s).
Definition set_max_log_size (v : Z) (s : ltckpt_ctx) : ltckpt_ctx :=
  mk_ctx (lazy_init s) (skip_mmap s) (initialized s) (atexit_dump s) (exited s) (allow_prctl s)
    (checkpoint_interval s) (pgfault_nesting_level s) (page_statistic_enabled s) (approach s)
    (errors s) (num_cows s) (num_tols s) (num_checkpoints s) v (num_aop_funcs s)
    (num_aop_tols s).
Definition set_num_aop_funcs (v : Z) (s : ltckpt_ctx) : ltckpt_ctx :=
  mk_ctx (lazy_init s) (skip_mmap s) (initialized s) (atexit_dump s) (exited s) (allow_prctl s)
    (checkpoint_interval s) (pgfault_nesting_level s) (page_statistic_enabled s) (approach s)
    (errors s) (num_cows s) (num_tols s) (num_checkpoints s) (max_log_size s) v
    (num_aop_tols s).
Definition set_num_aop_tols (v : Z) (s : ltckpt_ctx) : ltckpt_ctx :=
  mk_ctx (lazy_init s) (skip_mmap s) (initialized s) (atexit_dump s) (exited s) (allow_prctl s)
    (checkpoint_interval s) (pgfault_nesting_level s) (page_statistic_enabled s) (approach s)
    (errors s) (num_cows s) (num_tols s) (num_checkpoints s) (max_log_size s)
    (num_aop_funcs s) v.

(** The context as the program starts: [ltckpt_ctx_buff] is zeroed. *)
Definition ctx0 : ltckpt_ctx := mk_ctx 0 0 0 0 0 0 0 0 0 EmptyString 0 0 0 0 0 0 0.

(** [util_env_parse_int]: the default when the variable is not set or holds no number. *)
Definition util_env_parse_int (getenv : string → option cstr) (name : string) (default : Z) : Z :=
  match getenv name with
  | None => default
  | Some v =>
      let '(n, tail) := strtol v in
      let env_value := s32 n in
      if (env_value =? 0) && (Nat.eqb (length v) (length tail)) then default else env_value
  end.

(** [ltckpt_ctx_init] on x86-64; [name] is the name of the mechanism. *)
Definition ltckpt_ctx_init (getenv : string → option cstr) (name : string) (c : ltckpt_ctx)
    : ltckpt_ctx :=
  let c := set_lazy_init (util_env_parse_int getenv "CP_LINIT" 1) c in
  let c := set_skip_mmap (util_env_parse_int getenv "CP_NOMMAP" 1) c in
  let c := set_atexit_dump (util_env_parse_int getenv "ATEXIT_DUMP" 0) c in
  let c := set_allow_prctl (util_env_parse_int getenv "CP_PRCTL" 0) c in
  let c := set_checkpoint_interval (util_env_parse_int getenv "CP_INTERVAL" 1) c in
  let c := set_page_statistic_enabled (util_env_parse_int getenv "PAGESTAT" 0) c in
  set_approach name c.

(** [CTX_INC(X)] on an [unsigned long] counter. *)
Definition CTX_INC (get : ltckpt_ctx → Z) (set : Z → ltckpt_ctx → ltckpt_ctx)
    (c : ltckpt_ctx) : ltckpt_ctx := set (u64 (get c + 1)) c.

Definition ltckpt_ctx_clear_default (c : ltckpt_ctx) : ltckpt_ctx :=
  set_num_aop_tols 0 (set_num_aop_funcs 0 (set_num_checkpoints 0
    (set_num_cows 0 (set_errors 0 c)))).

(** The condition of [CTX_NEW_TOL_OR_RETURN]: no checkpoint is taken at this top
    of the loop.  The [int] interval is converted to [unsigned long] by the
    remainder. *)
Definition tol_returns (c : ltckpt_ctx) : bool :=
  negb (truthy (checkpoint_interval c))
  || (0 <? num_tols c mod u64 (checkpoint_interval c)).

(** [CTX_NEW_TOL_OR_RETURN]: the new context and whether the hook goes on. *)
Definition CTX_NEW_TOL_OR_RETURN (c : ltckpt_ctx) : bool * ltckpt_ctx :=
  if tol_returns c
  then (false, CTX_INC num_tols set_num_tols c)
  else (true, CTX_INC num_tols set_num_tols c).

Definition CTX_NEW_CHECKPOINT (c : ltckpt_ctx) : ltckpt_ctx :=
  CTX_INC num_checkpoints set_num_checkpoints c.

Definition CTX_NEW_LOG_SIZE (ls : Z) (c : ltckpt_ctx) : ltckpt_ctx :=
  if max_log_size c <? ls then set_max_log_size ls c else c.

(** ** When checkpoints are taken *)

(** The context part of a top-of-the-loop hook. *)
Definition ctx_tol (c : ltckpt_ctx) : ltckpt_ctx :=
  let '(go, c1) := CTX_NEW_TOL_OR_RETURN c in
  if go then CTX_NEW_CHECKPOINT c1 else c1.

(** The state after [n] tops of the loop. *)
Fixpoint ctx_tols (n : nat) (c : ltckpt_ctx) : ltckpt_ctx :=
  match n with
  | O => c
  | S n' => ctx_tol (ctx_tols n' c)
  end.

Lemma ctx_tol_interval c : checkpoint_interval (ctx_tol c) = checkpoint_interval c.
Proof. unfold ctx_tol, CTX_NEW_TOL_OR_RETURN. by destruct (tol_returns c). Qed.

Lemma ctx_tols_interval n c : checkpoint_interval (ctx_tols n c) = checkpoint_interval c.
Proof.
  induction n as [|n IH]; cbn [ctx_tols]; [done|]. by rewrite ctx_tol_interval, IH.
Qed.

Lemma ceil_div_succ n k :
  0 < k → 0 <= n →
  (n + k) / k = (n + k - 1) / k + (if n mod k =? 0 then 1 else 0).
Proof.
  intros Hk Hn. pose proof (Z.div_mod n k) as E. pose proof (Z.mod_pos_bound n k Hk) as B.
  destruct (Z.eqb_spec (n mod k) 0) as [H0|H0].
  - replace (n + k) with ((n / k + 1) * k) by lia.
    replace ((n / k + 1) * k - 1) with (n / k * k + (k - 1)) by lia.
    rewrite Z.div_mul, Z.div_add_l, (Z.div_small (k - 1)) by lia. lia.
  - replace (n + k) with ((n / k + 1) * k + n mod k) by lia.
    replace ((n / k + 1) * k + n mod k - 1) with ((n / k + 1) * k + (n mod k - 1)) by lia.
    rewrite !Z.div_add_l, (Z.div_small (n mod k)), (Z.div_small (n mod k - 1)) by lia. lia.
Qed.

(** After [n] tops of the loop with checkpoint interval [k], the context has
    counted [n] tops and taken a checkpoint at every multiple of [k]: [n / k] of them,
    rounded up.  The counters are [unsigned long] and the interval an [int]. *)
Theorem checkpoints_follow_interval n c k :
  checkpoint_interval c = k → 0 < k < 2147483648 →
  num_tols c = 0 → num_checkpoints c = 0 → Z.of_nat n < 18446744073709551616 →
  num_tols (ctx_tols n c) = Z.of_nat n ∧
  num_checkpoints (ctx_tols n c) = (Z.of_nat n + k - 1) / k.
Proof.
  intros Hk Hb Ht Hc. induction n as [|n IH]; intros Hn.
  { cbn. rewrite Ht, Hc, Z.div_small by lia. done. }
  destruct IH as [IHt IHc]; [lia|].
  assert ((Z.of_nat n + k - 1) / k <= Z.of_nat n) as Hle.
  { apply Z.lt_succ_r, Z.div_lt_upper_bound; nia. }
  assert (0 <= (Z.of_nat n + k - 1) / k) as Hge by (apply Z.div_pos; lia).
  pose proof (ctx_tols_interval n c) as Hi.
  cbn [ctx_tols].
  unfold ctx_tol, CTX_NEW_TOL_OR_RETURN, tol_returns.
  rewrite Hi, Hk, IHt, (u64_small k) by lia.
  rewrite (proj2 (truthy_true k)) by lia. cbn [negb orb].
  rewrite Nat2Z.inj_succ. unfold Z.succ.
  replace (Z.of_nat n + 1 + k - 1) with (Z.of_nat n + k) by lia.
  rewrite ceil_div_succ by lia.
  pose proof (Z.mod_pos_bound (Z.of_nat n) k).
  destruct (Z.ltb_spec 0 (Z.of_nat n mod k)), (Z.eqb_spec (Z.of_nat n mod k) 0);
    try lia; cbn; unfold CTX_INC; cbn; rewrite ?IHt, ?IHc, !u64_small; lia.
Qed.

Lemma checkpoints_follow_interval_witness :
  num_checkpoints (ctx_tols 7 (set_checkpoint_interval 3 ctx0)) = 3.
Proof.
  refine (proj2 (checkpoints_follow_interval 7 (set_checkpoint_interval 3 ctx0) 3
    eq_refl _ eq_refl eq_refl _)); lia.
Defined.

(** ** Settings from the environment *)

(** The settings of the context are read from the environment: a variable that is
    not set or holds no number leaves the default (a checkpoint at every top of the
    loop), and a variable that holds a decimal number that fits [int] sets it. *)
Theorem ctx_init_interval getenv name c :
  (getenv "CP_INTERVAL"%string = None →
    checkpoint_interval (ltckpt_ctx_init getenv name c) = 1) ∧
  (∀ n, 0 < n < 2147483648 → getenv "CP_INTERVAL"%string = Some (dec n) →
    checkpoint_interval (ltckpt_ctx_init getenv name c) = n).
Proof.
  unfold ltckpt_ctx_init. cbn [checkpoint_interval set_approach set_page_statistic_enabled
    set_checkpoint_interval]. unfold util_env_parse_int.
  split; [by intros ->|]. intros n Hn ->. rewrite strtol_dec by (unfold LONG_MAX; lia).
  rewrite s32_small, (proj2 (Z.eqb_neq n 0)) by lia. done.
Qed.
