(* ===== verification/Profiling.v ===== *)
(** * Per-window profiling

    [ltckpt_profiling.h]: the counters kept for each window when the library is
    built with [LTCKPT_WINDOW_PROFILING], and the macros that update them.  The running
    average of the log size is a [double]; what it is an average of is in [Average]. *)
From stdpp Require Import base numbers list sets.
From Stdlib Require Import ZArith Lia.
From S2P Require Import Prelude Double Ctx.

(** [ltckpt_window_t]: [uint64_t] counters. *)
Record ltckpt_window := mk_window {
  w_type : ltckpt_type_t;
  g_num_hits : Z;
  c_num_retries : Z;
  g_num_retries_max : Z;
  g_num_fails : Z;
  c_num_stores : Z;
  g_num_stores : Z;
  c_memcpy_size : Z;
  g_memcpy_size : Z;
  g_num_stores_max : Z;
  g_memcpy_size_max : Z;
  g_undolog_size_max : Z;
  g_undolog_size_avg : double;
}.

Definition set_w_type (v : ltckpt_type_t) (s : ltckpt_window) : ltckpt_window :=
  mk_window v (g_num_hits s) (c_num_retries s) (g_num_retries_max s) (g_num_fails s)
    (c_num_stores s) (g_num_stores s) (c_memcpy_size s) (g_memcpy_size s) (g_num_stores_max s)
    (g_memcpy_size_max s) (g_undolog_size_max s) (g_undolog_size_avg s).
Definition set_g_num_hits (v : Z) (s : ltckpt_window) : ltckpt_window :=
  mk_window (w_type s) v (c_num_retries s) (g_num_retries_max s) (g_num_fails s) (c_num_stores s)
    (g_num_stores s) (c_memcpy_size s) (g_memcpy_size s) (g_num_stores_max s) (g_memcpy_size_max s)
    (g_undolog_size_max s) (g_undolog_size_avg s).
Definition set_c_num_retries (v : Z) (s : ltckpt_window) : ltckpt_window :=
  mk_window (w_type s) (g_num_hits s) v (g_num_retries_max s) (g_num_fails s) (c_num_stores s)
    (g_num_stores s) (c_memcpy_size s) (g_memcpy_size s) (g_num_stores_max s) (g_memcpy_size_max s)
    (g_undolog_size_max s) (g_undolog_size_avg s).
Definition set_g_num_retries_max (v : Z) (s : ltckpt_window) : ltckpt_window :=
  mk_window (w_type s) (g_num_hits s) (c_num_retries s) v (g_num_fails s) (c_num_stores s)
    (g_num_stores s) (c_memcpy_size s) (g_memcpy_size s) (g_num_stores_max s) (g_memcpy_size_max s)
    (g_undolog_size_max s) (g_undolog_size_avg s).
Definition set_g_num_fails (v : Z) (s : ltckpt_window) : ltckpt_window :=
  mk_window (w_type s) (g_num_hits s) (c_num_retries s) (g_num_retries_max s) v (c_num_stores s)
    (g_num_stores s) (c_memcpy_size s) (g_memcpy_size s) (g_num_stores_max s) (g_memcpy_size_max s)
    (g_undolog_size_max s) (g_undolog_size_avg s).
Definition set_c_num_stores (v : Z) (s : ltckpt_window) : ltckpt_window :=
  mk_window (w_type s) (g_num_hits s) (c_num_retries s) (g_num_retries_max s) (g_num_fails s) v
    (g_num_stores s) (c_memcpy_size s) (g_memcpy_size s) (g_num_stores_max s) (g_memcpy_size_max s)
    (g_undolog_size_max s) (g_undolog_size_avg s).
Definition set_g_num_stores (v : Z) (s : ltckpt_window) : ltckpt_window :=
  mk_window (w_type s) (g_num_hits s) (c_num_retries s) (g_num_retries_max s) (g_num_fails s)
    (c_num_stores s) v (c_memcpy_size s) (g_memcpy_size s) (g_num_stores_max s)
    (g_memcpy_size_max s) (g_undolog_size_max s) (g_undolog_size_avg s).
Definition set_c_memcpy_size (v : Z) (s : ltckpt_window) : ltckpt_window :=
  mk_window (w_type s) (g_num_hits s) (c_num_retries s) (g_num_retries_max s) (g_num_fails s)
    (c_num_stores s) (g_num_stores s) v (g_memcpy_size s) (g_num_stores_max s) (g_memcpy_size_max s)
    (g_undolog_size_max s) (g_undolog_size_avg s).
Definition set_g_memcpy_size (v : Z) (s : ltckpt_window) : ltckpt_window :=
  mk_window (w_type s) (g_num_hits s) (c_num_retries s) (g_num_retries_max s) (g_num_fails s)
    (c_num_stores s) (g_num_stores s) (c_memcpy_size s) v (g_num_stores_max s) (g_memcpy_size_max s)
    (g_undolog_size_max s) (g_undolog_size_avg s).
Definition set_g_num_stores_max (v : Z) (s : ltckpt_window) : ltckpt_window :=
  mk_window (w_type s) (g_num_hits s) (c_num_retries s) (g_num_retries_max s) (g_num_fails s)
    (c_num_stores s) (g_num_stores s) (c_memcpy_size s) (g_memcpy_size s) v (g_memcpy_size_max s)
    (g_undolog_size_max s) (g_undolog_size_avg s).
Definition set_g_memcpy_size_max (v : Z) (s : ltckpt_window) : ltckpt_window :=
  mk_window (w_type s) (g_num_hits s) (c_num_retries s) (g_num_retries_max s) (g_num_fails s)
    (c_num_stores s) (g_num_stores s) (c_memcpy_size s) (g_memcpy_size s) (g_num_stores_max s) v
    (g_undolog_size_max s) (g_undolog_size_avg s).
Definition set_g_undolog_size_max (v : Z) (s : ltckpt_window) : ltckpt_window :=
  mk_window (w_type s) (g_num_hits s) (c_num_retries s) (g_num_retries_max s) (g_num_fails s)
    (c_num_stores s) (g_num_stores s) (c_memcpy_size s) (g_memcpy_size s) (g_num_stores_max s)
    (g_memcpy_size_max s) v (g_undolog_size_avg s).
Definition set_g_undolog_size_avg (v : double) (s : ltckpt_window) : ltckpt_window :=
  mk_window (w_type s) (g_num_hits s) (c_num_retries s) (g_num_retries_max s) (g_num_fails s)
    (c_num_stores s) (g_num_stores s) (c_memcpy_size s) (g_memcpy_size s) (g_num_stores_max s)
    (g_memcpy_size_max s) (g_undolog_size_max s) v.

Definition window0 : ltckpt_window := mk_window LTCKPT_TYPE_INVALID 0 0 0 0 0 0 0 0 0 0 0 double0.

Definition LTCKPT_MAX_PROFILING_WINDOWS : Z := 4096.

Definition PROFILE_TOL (t : ltckpt_type_t) (w : ltckpt_window) : ltckpt_window :=
  let w := set_w_type t w in
  let w := set_g_num_hits (u64 (g_num_hits w + 1)) w in
  let w := set_c_num_stores 0 w in
  let w := set_c_memcpy_size 0 w in
  set_c_num_retries 0 w.

Definition PROFILE_TSX_BEGIN (w : ltckpt_window) : ltckpt_window :=
  let w := set_c_num_retries (u64 (c_num_retries w + 1)) w in
  if g_num_retries_max w <? c_num_retries w
  then set_g_num_retries_max (c_num_retries w) w else w.

Definition PROFILE_TSX_FAIL (w : ltckpt_window) : ltckpt_window :=
  set_g_num_fails (u64 (g_num_fails w + 1)) w.

Definition PROFILE_STORE (w : ltckpt_window) : ltckpt_window :=
  let w := set_c_num_stores (u64 (c_num_stores w + 1)) w in
  let w := set_g_num_stores (u64 (g_num_stores w + 1)) w in
  if g_num_stores_max w <? c_num_stores w
  then set_g_num_stores_max (c_num_stores w) w else w.

Definition PROFILE_MEMCPY (size : Z) (w : ltckpt_window) : ltckpt_window :=
  let w := set_c_memcpy_size (u64 (c_memcpy_size w + size)) w in
  let w := set_g_memcpy_size (u64 (g_memcpy_size w + size)) w in
  if g_memcpy_size_max w <? c_memcpy_size w
  then set_g_memcpy_size_max (c_memcpy_size w) w else w.

(** [avg += (S - avg) / num_hits], in [double]. *)
Definition avg_update (size num_hits : Z) (avg : double) : double :=
  dadd avg (ddiv (dsub (double_of_Z size) avg) (double_of_Z num_hits)).

Definition PROFILE_UNDOLOG_SIZE (size : Z) (w : ltckpt_window) : ltckpt_window :=
  let w := set_g_undolog_size_avg (avg_update size (g_num_hits w) (g_undolog_size_avg w)) w in
  if g_undolog_size_max w <? size then set_g_undolog_size_max size w else w.

(** ** What the counters record *)

Inductive prof_event :=
  | EvTol (t : ltckpt_type_t)
  | EvStore
  | EvMemcpy (size : Z)
  | EvUndologSize (size : Z)
  | EvTsxBegin
  | EvTsxFail.

Definition prof_apply (e : prof_event) (w : ltckpt_window) : ltckpt_window :=
  match e with
  | EvTol t => PROFILE_TOL t w
  | EvStore => PROFILE_STORE w
  | EvMemcpy n => PROFILE_MEMCPY n w
  | EvUndologSize n => PROFILE_UNDOLOG_SIZE n w
  | EvTsxBegin => PROFILE_TSX_BEGIN w
  | EvTsxFail => PROFILE_TSX_FAIL w
  end.

Definition prof_run (es : list prof_event) (w : ltckpt_window) : ltckpt_window :=
  foldl (λ w e, prof_apply e w) w es.

(** The sizes a trace accumulates: the stores (or the bytes copied) of the window
    that is open at its end, the largest over its windows, and the total. *)
Record tally := mk_tally { t_cur : Z; t_max : Z; t_tot : Z }.

Definition tally_step (size : prof_event → option Z) (t : tally) (e : prof_event) : tally :=
  match e, size e with
  | EvTol _, _ => mk_tally 0 (t_max t) (t_tot t)
  | _, Some n => mk_tally (t_cur t + n) (Z.max (t_max t) (t_cur t + n)) (t_tot t + n)
  | _, None => t
  end.

Definition tally_run (size : prof_event → option Z) (es : list prof_event) : tally :=
  foldl (tally_step size) (mk_tally 0 0 0) es.

Definition store_size (e : prof_event) : option Z :=
  match e with EvStore => Some 1 | _ => None end.
Definition memcpy_size (e : prof_event) : option Z :=
  match e with EvMemcpy n => Some n | _ => None end.

Definition event_ok (e : prof_event) : Prop :=
  match e with EvMemcpy n => 0 <= n | _ => True end.

Lemma tally_run_snoc size es e : tally_run size (es ++ [e]) = tally_step size (tally_run size es) e.
Proof. unfold tally_run. by rewrite foldl_app. Qed.

Lemma prof_run_snoc es e w : prof_run (es ++ [e]) w = prof_apply e (prof_run es w).
Proof. unfold prof_run. by rewrite foldl_app. Qed.

Definition tally_wf (t : tally) : Prop := 0 <= t_cur t <= t_max t ∧ t_max t <= t_tot t.

Lemma tally_run_wf size es :
  (∀ e n, e ∈ es → size e = Some n → 0 <= n) → tally_wf (tally_run size es) ∧
  t_cur (tally_run size es) <= t_tot (tally_run size es).
Proof.
  unfold tally_wf. induction es as [|e es IH] using rev_ind; intros H; [cbn; lia|].
  rewrite tally_run_snoc.
  destruct IH as [IH IH']; [intros e' n' ?; apply H; set_solver|].
  specialize (H e). unfold tally_step.
  destruct (tally_run size es) as [c x t]; cbn in *.
  assert (∀ n, size e = Some n → 0 <= n) as Hn by (intros n; apply H; set_solver). clear H.
  destruct e; destruct (size _) as [n|]; cbn; try lia; specialize (Hn n eq_refl); lia.
Qed.

Lemma tally_wf_mono size es e :
  (∀ e' n, e' ∈ es ++ [e] → size e' = Some n → 0 <= n) →
  t_tot (tally_run size es) <= t_tot (tally_run size (es ++ [e])).
Proof.
  intros H. rewrite tally_run_snoc. unfold tally_step. specialize (H e).
  destruct (tally_run size es) as [c x t]; cbn.
  assert (∀ n, size e = Some n → 0 <= n) as Hn by (intros n; apply H; set_solver). clear H.
  destruct e; destruct (size _) as [n|]; cbn; try lia; specialize (Hn n eq_refl); lia.
Qed.

(** The counters of one family agree with the tally of its events. *)
Definition counters_match (w : ltckpt_window) (es : list prof_event) : Prop :=
  tally_run store_size es = mk_tally (c_num_stores w) (g_num_stores_max w) (g_num_stores w) ∧
  tally_run memcpy_size es = mk_tally (c_memcpy_size w) (g_memcpy_size_max w) (g_memcpy_size w).

Lemma max_guard a b : (if a <? b then b else a) = Z.max a b.
Proof. destruct (Z.ltb_spec a b); lia. Qed.

Lemma store_size_ok (es : list prof_event) : ∀ e n, e ∈ es → store_size e = Some n → 0 <= n.
Proof. intros [] n _ H; cbn in H; simplify_eq; lia. Qed.

Lemma memcpy_size_ok es :
  Forall event_ok es → ∀ e n, e ∈ es → memcpy_size e = Some n → 0 <= n.
Proof.
  rewrite Forall_forall. intros Hok [] n Hin H; cbn in H; simplify_eq. apply (Hok _ Hin).
Qed.

Lemma counters_match_run es :
  Forall event_ok es →
  t_tot (tally_run store_size es) < 18446744073709551616 →
  t_tot (tally_run memcpy_size es) < 18446744073709551616 →
  counters_match (prof_run es window0) es.
Proof.
  induction es as [|e es IH] using rev_ind; intros Hok Hs Hm; [done|].
  pose proof (tally_wf_mono store_size es e (store_size_ok _)) as Ms.
  pose proof (tally_wf_mono memcpy_size es e (memcpy_size_ok _ Hok)) as Mm.
  apply Forall_app in Hok as [Hok Hoke]. rewrite Forall_singleton in Hoke.
  destruct (tally_run_wf store_size es (store_size_ok _)) as [Ws Cs].
  destruct (tally_run_wf memcpy_size es (memcpy_size_ok _ Hok)) as [Wm Cm].
  destruct IH as [Is Im]; [done|lia|lia|].
  unfold counters_match, tally_wf in *. rewrite tally_run_snoc in *. rewrite tally_run_snoc in *.
  rewrite prof_run_snoc. rewrite Is, Im in *. destruct (prof_run es window0). cbn in *.
  destruct e; cbn in *; unfold PROFILE_UNDOLOG_SIZE, PROFILE_TSX_BEGIN, PROFILE_STORE,
    PROFILE_MEMCPY; cbn; rewrite ?u64_small by lia; repeat case_match; cbn in *;
    try (split; f_equal; lia); done.
Qed.

(** The profiling counters of a window agree with the events the hooks saw since
    it was created: stores and copied bytes of the open window, the largest number of
    each over all windows, and their totals, as long as the totals fit [uint64_t]. *)
Theorem profiling_counts_events (es : list prof_event) :
  Forall event_ok es →
  t_tot (tally_run store_size es) < 18446744073709551616 →
  t_tot (tally_run memcpy_size es) < 18446744073709551616 →
  let w := prof_run es window0 in
  tally_run store_size es = mk_tally (c_num_stores w) (g_num_stores_max w) (g_num_stores w) ∧
  tally_run memcpy_size es = mk_tally (c_memcpy_size w) (g_memcpy_size_max w) (g_memcpy_size w).
Proof. apply counters_match_run. Qed.

Lemma profiling_counts_events_witness :
  tally_run store_size [EvTol LTCKPT_TYPE_UNDOLOG; EvStore; EvStore; EvTol LTCKPT_TYPE_UNDOLOG;
                        EvMemcpy 24; EvStore] = mk_tally 1 2 3.
Proof.
  refine (eq_trans (proj1 (profiling_counts_events _ _ _ _)) _).
  - repeat constructor; discriminate.
  - reflexivity.
  - reflexivity.
  - reflexivity.
Defined.
