(* ===== verification/Writelog.v ===== *)
(** * The undo log

    [mechanisms/ltckpt_writelog.c] in its Linux x86-64 build: the log of saved
    regions the store hooks append to, and the restart hook that walks it backwards
    and restores memory.

    The log is modelled where the program keeps it, in memory at [wl_data]: each
    entry is a pointer followed by the eight bytes saved from the region it points
    to.  [undo] is the abstract specification of a rollback over a list of entries;
    [log_repr] relates the bytes at [wl_data] to such a list, and the hooks are
    proved to implement pushing an entry and undoing the list. *)
From stdpp Require Import base numbers list sets.
From Stdlib Require Import ZArith Lia.
From S2P Require Import Prelude Memory Ctx Profiling.

(** The state of the checkpointing library for this mechanism: the statics of
    [ltckpt_writelog.c], the context, the profiling windows and the memory of the
    process. *)
Record ckpt := mk_ckpt {
  wl_data : Z;  (** address of the log *)
  wl_position : Z;  (** bytes of the log in use *)
  cmem : mem;  (** the address space *)
  cctx : ltckpt_ctx;
  windows : Z → ltckpt_window;  (** [ltckpt_windows] *)
  ltckpt_current_site_id : Z;
  inside_trusted_compute_base : Z;
}.

Definition set_wl_data (v : Z) (s : ckpt) : ckpt :=
  mk_ckpt v (wl_position s) (cmem s) (cctx s) (windows s) (ltckpt_current_site_id s)
    (inside_trusted_compute_base s).
Definition set_wl_position (v : Z) (s : ckpt) : ckpt :=
  mk_ckpt (wl_data s) v (cmem s) (cctx s) (windows s) (ltckpt_current_site_id s)
    (inside_trusted_compute_base s).
Definition set_cmem (v : mem) (s : ckpt) : ckpt :=
  mk_ckpt (wl_data s) (wl_position s) v (cctx s) (windows s) (ltckpt_current_site_id s)
    (inside_trusted_compute_base s).
Definition set_cctx (v : ltckpt_ctx) (s : ckpt) : ckpt :=
  mk_ckpt (wl_data s) (wl_position s) (cmem s) v (windows s) (ltckpt_current_site_id s)
    (inside_trusted_compute_base s).
Definition set_windows (v : Z → ltckpt_window) (s : ckpt) : ckpt :=
  mk_ckpt (wl_data s) (wl_position s) (cmem s) (cctx s) v (ltckpt_current_site_id s)
    (inside_trusted_compute_base s).
Definition set_ltckpt_current_site_id (v : Z) (s : ckpt) : ckpt :=
  mk_ckpt (wl_data s) (wl_position s) (cmem s) (cctx s) (windows s) v
    (inside_trusted_compute_base s).
Definition set_inside_trusted_compute_base (v : Z) (s : ckpt) : ckpt :=
  mk_ckpt (wl_data s) (wl_position s) (cmem s) (cctx s) (windows s)
    (ltckpt_current_site_id s) v.

(** The statics before the late initialisation; memory is [m]. *)
Definition ckpt_globals (m : mem) : ckpt := mk_ckpt 0 0 m ctx0 (λ _, window0) 0 0.

Definition WRITELOG_GRANULARITY : Z := 8.
Definition WRITELOG_MAXLEN : Z := 1024 * 1024 * 1024 * 4 * 10.
Definition SIZEOF_PTR : Z := 8.
Definition WRITELOG_BYTES : Z := WRITELOG_MAXLEN * (WRITELOG_GRANULARITY + SIZEOF_PTR).
Definition entry_size : Z := SIZEOF_PTR + WRITELOG_GRANULARITY.

(** Round an address down to its region. *)
Definition region_align (a : Z) : Z := Z.land a (Z.lnot (WRITELOG_GRANULARITY - 1)).

Section Writelog.
Context `{cfg : Config}.

(** The addresses of the statics [wl_data] and [wl_position], fixed by the linker. *)
Context (addr_of_wl_data addr_of_wl_position : Z).

(** [lt_panic] outside MINIX: both [lt_printf] and [lt_assert] expand to nothing. *)
Definition lt_panic (s : ckpt) : ckpt := s.

Definition ltckpt_write_wl (addr : Z) (s : ckpt) : ckpt :=
  let addr := region_align addr in
  let wl_data_start := wl_data s in
  let wl_data_end := wl_data s + WRITELOG_BYTES in
  let s := if (wl_data_start <=? addr) && (addr <? wl_data_end) then lt_panic s else s in
  let addr_slot := wl_data s + wl_position s in
  let region := wl_data s + (wl_position s + SIZEOF_PTR) in
  let m := store_u64 (cmem s) addr_slot addr in
  let m := store_bytes m region (load_bytes m addr 8) in
  set_wl_position (u64 (wl_position s + (SIZEOF_PTR + WRITELOG_GRANULARITY))) (set_cmem m s).

Definition profile_window (f : ltckpt_window → ltckpt_window) (i : Z) (s : ckpt) : ckpt :=
  set_windows (upd (windows s) i (f (windows s i))) s.

(** [ltckpt_store_hook_undolog]. *)
Definition ltckpt_store_hook (addr : Z) (s : ckpt) : ckpt :=
  if LTCKPT_EMPTY_UNDOLOG_HOOKS then s else
  let s := ltckpt_write_wl addr s in
  if LTCKPT_WINDOW_PROFILING
  then profile_window PROFILE_STORE (ltckpt_current_site_id s) s else s.

(** The loop of the memcpy hook; [fuel] bounds its iterations. *)
Fixpoint memcpy_hook_loop (fuel : nat) (reg end_ : Z) : prog ckpt () :=
  if reg <? end_ then
    match fuel with
    | O => halt Diverge
    | S fuel' => modify (ltckpt_write_wl reg) ;; memcpy_hook_loop fuel' (reg + 8) end_
    end
  else skip.

Definition memcpy_reg (addr : Z) : Z := Z.land addr (Z.lnot 3).

(** [ltckpt_memcpy_hook_undolog]; one iteration per eight bytes and one more for
    the rounding of the first region. *)
Definition ltckpt_memcpy_hook (addr size : Z) : prog ckpt () :=
  memcpy_hook_loop (Z.to_nat (size / 8 + 2)) (memcpy_reg addr) (addr + size) ;;
  when LTCKPT_WINDOW_PROFILING
    (modify (λ s, profile_window (PROFILE_MEMCPY size) (ltckpt_current_site_id s) s)).

(** ** Restart *)

Definition ltckpt_overlaps (p1 s1 p2 s2 : Z) : bool :=
  ((p1 <=? p2) && (p2 <? p1 + s1)) || ((p2 <=? p1) && (p1 <? p2 + s2)).

Definition ltckpt_can_restore (s : ckpt) (addr : Z) : bool :=
  negb (ltckpt_overlaps addr WRITELOG_GRANULARITY (wl_data s) WRITELOG_BYTES)
  && negb (ltckpt_overlaps addr WRITELOG_GRANULARITY addr_of_wl_data 8)
  && negb (ltckpt_overlaps addr WRITELOG_GRANULARITY addr_of_wl_position 8).

(** [memcpy] returns its destination. *)
Definition memcpy_returns (dest : Z) : Z := dest.

(** One iteration of the restore loop: the entry at the (already decremented)
    position, [i] and [stack_entries] updated.  [datamax] is the address of a local
    less one page; entries above it are taken for the stack.  [None] is the return
    of [LTCKPT_FAIL]. *)
Definition restore_entry (datamax : Z) (cnt : Z * Z) : prog ckpt (option (Z * Z)) := λ s,
  let '(i, stack_entries) := cnt in
  let i := u64 (i + 1) in
  let s := set_wl_position (wl_position s - entry_size) s in
  let addr := load_u64 (cmem s) (wl_data s + wl_position s) in
  if negb (ltckpt_can_restore s addr) then Ok (Some (i, stack_entries)) s else
  let region := wl_data s + (wl_position s + SIZEOF_PTR) in
  let stack := datamax <? addr in
  let stack_entries := if stack then u64 (stack_entries + 1) else stack_entries in
  if stack && negb LTCKPT_LIBCALL_INTERVALS then Ok (Some (i, stack_entries)) s else
  if truthy addr then
    if memcpy_returns addr =? 0 then Ok None s
    else Ok (Some (i, stack_entries))
            (set_cmem (store_bytes (cmem s) addr (load_bytes (cmem s) region 8)) s)
  else Ok (Some (i, stack_entries)) s.

Fixpoint restore_loop (fuel : nat) (datamax : Z) (cnt : Z * Z) : prog ckpt (option (Z * Z)) :=
  λ s,
  if entry_size <=? wl_position s then
    match fuel with
    | O => Stop Diverge s
    | S fuel' =>
        (r ← restore_entry datamax cnt;
         match r with
         | None => mret None
         | Some cnt' => restore_loop fuel' datamax cnt'
         end) s
    end
  else Ok (Some cnt) s.

(** [ltckpt_restart_hook_undolog]; one iteration per entry of the log. *)
Definition ltckpt_restart_hook_undolog (datamax : Z) : prog ckpt Z :=
  pos ← gets wl_position;
  let num_entries := pos / entry_size in
  assert (pos mod entry_size =? 0) ;;
  r ← restore_loop (Z.to_nat num_entries) datamax (0, 0);
  match r with
  | None => mret LTCKPT_FAIL
  | Some (i, stack_entries) =>
      assert (i =? num_entries) ;;
      pos' ← gets wl_position;
      assert (pos' =? 0) ;;
      mret 0
  end.

(** [ltckpt_restart] with this mechanism configured: [restart_hook] is set. *)
Definition ltckpt_restart (datamax : Z) : prog ckpt Z :=
  modify (set_inside_trusted_compute_base 1) ;; ltckpt_restart_hook_undolog datamax.

End Writelog.

(** ** The abstract log *)

Definition entry : Type := Z * list Z.

(** Rolling back a log, oldest entry first in the list: the newest is restored
    first, so that the oldest value of a byte wins. *)
Definition undo (es : list entry) (m : mem) : mem :=
  foldr (λ e m, store_bytes m e.1 e.2) m es.

(** A byte some entry of the log saves. *)
Definition covered (es : list entry) (x : Z) : Prop :=
  ∃ e, e ∈ es ∧ in_block e.1 (zlen e.2) x.

Lemma undo_app es1 es2 m : undo (es1 ++ es2) m = undo es1 (undo es2 m).
Proof. unfold undo. by rewrite foldr_app. Qed.

Lemma covered_app es1 es2 x : covered (es1 ++ es2) x ↔ covered es1 x ∨ covered es2 x.
Proof.
  unfold covered. setoid_rewrite elem_of_app. split.
  - intros (e & [?|?] & ?); eauto.
  - intros [(e & ? & ?)|(e & ? & ?)]; eauto.
Qed.

Lemma undo_uncovered es m x : ¬ covered es x → undo es m x = m x.
Proof.
  induction es as [|e es IH]; intros H; cbn; [done|].
  rewrite store_bytes_out by (intros ?; apply H; exists e; set_solver).
  apply IH. intros (e' & ? & ?). apply H. exists e'. set_solver.
Qed.

(** What a rollback leaves in a byte depends on the byte's current value only
    where the log has not saved it. *)
Lemma undo_agree P es m1 m2 :
  mem_agree (λ x, P x ∧ ¬ covered es x) m1 m2 → mem_agree P (undo es m1) (undo es m2).
Proof.
  revert P. induction es as [|e es IH]; intros P H; cbn.
  - intros x Hx. apply H. split; [done|]. intros (e & He & _). set_solver.
  - apply store_bytes_agree, IH. intros x [[HP He] Hc]. apply H. split; [done|].
    intros (e' & He' & Hb). apply elem_of_cons in He' as [->|]; [done|].
    apply Hc. by exists e'.
Qed.

#[export] Instance undo_proper es : Proper ((≡) ==> (≡)) (undo es).
Proof.
  intros m1 m2 H x. by apply (undo_agree (λ _, True)); [intros y _; apply H|].
Qed.

(** Saving a region and rolling it back is the identity. *)
Lemma undo_saved a n m : undo [(a, load_bytes m a n)] m ≡ m.
Proof. apply store_load_bytes. Qed.

Lemma overlaps_spec p1 s1 p2 s2 :
  0 < s1 → 0 < s2 →
  ltckpt_overlaps p1 s1 p2 s2 = true ↔ ∃ x, in_block p1 s1 x ∧ in_block p2 s2 x.
Proof.
  unfold ltckpt_overlaps, in_block. intros.
  rewrite orb_true_iff, !andb_true_iff. split.
  - intros [?|?]; [exists p2|exists p1]; lia.
  - intros (x & ? & ?). lia.
Qed.

Lemma overlaps_false p1 s1 p2 s2 :
  0 < s1 → 0 < s2 → ltckpt_overlaps p1 s1 p2 s2 = false →
  ∀ x, in_block p1 s1 x → ¬ in_block p2 s2 x.
Proof.
  intros H1 H2 H x ? ?.
  assert (ltckpt_overlaps p1 s1 p2 s2 = true) by (apply overlaps_spec; eauto). congruence.
Qed.

Lemma region_align_spec a : region_align a = a - a mod 8.
Proof. apply (land_lnot_ones a 3). lia. Qed.

Lemma memcpy_reg_spec a : memcpy_reg a = a - a mod 4.
Proof. apply (land_lnot_ones a 2). lia. Qed.

(** ** The log in memory *)

Definition in_log (s : ckpt) (x : Z) : Prop := in_block (wl_data s) WRITELOG_BYTES x.
Definition not_in_log (s : ckpt) (x : Z) : Prop := ¬ in_log s x.

(** Linear arithmetic on the layout of the log. *)
Ltac log_lia :=
  unfold not_in_log, in_log, in_block, entry_size, WRITELOG_BYTES, WRITELOG_MAXLEN,
    SIZEOF_PTR, WRITELOG_GRANULARITY in *;
  cbn [wl_data wl_position cmem set_wl_position set_cmem length] in *; lia.

Definition entry_at (m : mem) (base : Z) (e : entry) : Prop :=
  load_u64 m base = e.1 ∧ load_bytes m (base + SIZEOF_PTR) 8 = e.2.

(** The log holds the entries [es], oldest first. *)
Definition log_repr (s : ckpt) (es : list entry) : Prop :=
  wl_position s = entry_size * zlen es ∧ wl_position s <= WRITELOG_BYTES ∧
  ∀ i e, es !! i = Some e → entry_at (cmem s) (wl_data s + entry_size * Z.of_nat i) e.

Lemma entry_at_agree m1 m2 base e :
  mem_agree (in_block base entry_size) m1 m2 → entry_at m1 base e → entry_at m2 base e.
Proof.
  intros H [H1 H2]. split.
  - rewrite <- H1. symmetry. apply load_u64_ext. intros x ?. apply H.
    log_lia.
  - rewrite <- H2. symmetry. apply load_bytes_ext. intros x ?. apply H.
    log_lia.
Qed.

(** The entries of a log are inside the part of it that is in use. *)
Lemma log_repr_slot s es i e :
  log_repr s es → es !! i = Some e →
  entry_size * (Z.of_nat i + 1) <= wl_position s.
Proof. intros (-> & _ & _) H%lookup_lt_Some. log_lia. Qed.

(** A change of memory outside the part of the log in use keeps its entries. *)
Lemma log_repr_agree s m es :
  mem_agree (in_block (wl_data s) (wl_position s)) (cmem s) m →
  log_repr s es → log_repr (set_cmem m s) es.
Proof.
  intros H Hr. pose proof Hr as (Hp & Hb & He). split_and!; [done|done|].
  intros i e Hi. apply (entry_at_agree (cmem s)); [|by apply He].
  intros x Hx. apply H. pose proof (log_repr_slot _ _ _ _ Hr Hi).
  log_lia.
Qed.

Lemma log_repr_snoc_inv s es e :
  log_repr s (es ++ [e]) →
  entry_at (cmem s) (wl_data s + (wl_position s - entry_size)) e ∧
  log_repr (set_wl_position (wl_position s - entry_size) s) es.
Proof.
  intros (Hp & Hb & He). rewrite length_app in Hp. cbn in Hp.
  unfold log_repr, entry_size, SIZEOF_PTR, WRITELOG_GRANULARITY in *.
  split_and!; cbn; try lia.
  - replace (wl_data s + (wl_position s - (8 + 8)))
      with (wl_data s + (8 + 8) * Z.of_nat (length es)) by lia.
    apply He. by apply list_lookup_middle.
  - intros i e' Hi. apply He. by apply lookup_app_l_Some.
Qed.

(** The entry [ltckpt_write_wl] appends. *)
Definition saved_entry (s : ckpt) (a : Z) : entry :=
  (region_align a, load_bytes (cmem s) (region_align a) 8).

(** An address whose region the log may save: a user-space pointer outside the log. *)
Definition loggable (s : ckpt) (a : Z) : Prop :=
  0 <= a < 18446744073709551616 ∧
  ∀ x, in_block (region_align a) 8 x → not_in_log s x.

(** Outside MINIX the guard against saving the log itself has no effect. *)
Lemma write_wl_eq a s :
  ltckpt_write_wl a s =
  let m := store_u64 (cmem s) (wl_data s + wl_position s) (region_align a) in
  set_wl_position (u64 (wl_position s + entry_size))
    (set_cmem (store_bytes m (wl_data s + (wl_position s + SIZEOF_PTR))
                 (load_bytes m (region_align a) 8)) s).
Proof. unfold ltckpt_write_wl, lt_panic. by case_match. Qed.

Lemma write_wl_mem a s :
  0 <= wl_position s → wl_position s + entry_size <= WRITELOG_BYTES →
  mem_agree (λ x, ¬ in_block (wl_data s + wl_position s) entry_size x)
    (cmem s) (cmem (ltckpt_write_wl a s)).
Proof.
  intros Hp Hb x Hx. rewrite write_wl_eq. cbn [cmem set_cmem set_wl_position].
  rewrite store_bytes_out, store_u64_out; [done|log_lia|].
  rewrite length_load_bytes. log_lia.
Qed.

Lemma write_wl_entry a s :
  loggable s a → 0 <= wl_position s → wl_position s + entry_size <= WRITELOG_BYTES →
  entry_at (cmem (ltckpt_write_wl a s)) (wl_data s + wl_position s) (saved_entry s a).
Proof.
  intros [Ha Hd] Hp Hb. rewrite write_wl_eq. unfold entry_at, saved_entry.
  set (b := wl_data s + wl_position s). cbn [cmem set_cmem set_wl_position fst snd].
  replace (wl_data s + (wl_position s + SIZEOF_PTR)) with (b + SIZEOF_PTR) by lia.
  split.
  - rewrite (load_u64_ext _ (store_u64 (cmem s) b (region_align a))).
    + rewrite load_store_u64. apply u64_small. rewrite region_align_spec.
      pose proof (Z.mod_pos_bound a 8). pose proof (Z.mod_le a 8). lia.
    + intros x Hx. apply store_bytes_out. rewrite length_load_bytes. log_lia.
  - rewrite <- (length_load_bytes (store_u64 (cmem s) b (region_align a)) (region_align a) 8) at 2.
    rewrite load_store_bytes. apply load_bytes_ext. intros x Hx. apply store_u64_out.
    intros Hx'. apply (Hd x Hx). log_lia.
Qed.

Lemma write_wl_position a s :
  0 <= wl_position s → wl_position s + entry_size <= WRITELOG_BYTES →
  wl_position (ltckpt_write_wl a s) = wl_position s + entry_size.
Proof. intros Hp Hb. rewrite write_wl_eq. cbn [wl_position set_wl_position]. rewrite u64_small; log_lia. Qed.

Lemma write_wl_data a s : wl_data (ltckpt_write_wl a s) = wl_data s.
Proof. by rewrite write_wl_eq. Qed.

(** [ltckpt_write_wl] implements appending an entry. *)
Lemma write_wl_repr a s es :
  log_repr s es → loggable s a → entry_size * (zlen es + 1) <= WRITELOG_BYTES →
  log_repr (ltckpt_write_wl a s) (es ++ [saved_entry s a]).
Proof.
  intros Hr Ha Hb. pose proof Hr as (Hp & _ & He).
  assert (0 <= wl_position s) by (rewrite Hp; log_lia).
  assert (wl_position s + entry_size <= WRITELOG_BYTES) by lia.
  unfold log_repr. rewrite write_wl_position, write_wl_data, length_app by done. cbn [length].
  split_and!; [lia|lia|]. intros i e Hi.
  apply lookup_snoc_Some in Hi as [[Hl Hi]|[-> <-]].
  - apply (entry_at_agree (cmem s)); [|by apply He].
    apply (mem_agree_mono (λ x, ¬ in_block (wl_data s + wl_position s) entry_size x));
      [|by apply write_wl_mem].
    intros x. log_lia.
  - rewrite <- Hp. by apply write_wl_entry.
Qed.

(** ** Rollback *)

Section Rollback.
Context `{cfg : Config} (awd awp : Z).

(** The entries a restart writes back. *)
Definition restores (s : ckpt) (datamax : Z) (e : entry) : bool :=
  ltckpt_can_restore awd awp s e.1
  && negb ((datamax <? e.1) && negb LTCKPT_LIBCALL_INTERVALS)
  && truthy e.1.

Definition restored (s : ckpt) (datamax : Z) (es : list entry) : list entry :=
  List.filter (restores s datamax) es.

Lemma can_restore_data s s' a :
  wl_data s' = wl_data s → ltckpt_can_restore awd awp s' a = ltckpt_can_restore awd awp s a.
Proof. unfold ltckpt_can_restore. by intros ->. Qed.

Lemma restored_data s s' datamax es :
  wl_data s' = wl_data s → restored s' datamax es = restored s datamax es.
Proof.
  intros H. apply filter_ext. intros e. unfold restores. by rewrite (can_restore_data s s').
Qed.

Lemma restored_app s datamax es1 es2 :
  restored s datamax (es1 ++ es2) = restored s datamax es1 ++ restored s datamax es2.
Proof. apply List.filter_app. Qed.

(** An entry that can be restored does not overlap the log. *)
Lemma can_restore_not_in_log s a x :
  ltckpt_can_restore awd awp s a = true → in_block a 8 x → not_in_log s x.
Proof.
  unfold ltckpt_can_restore. rewrite !andb_true_iff, !negb_true_iff.
  intros [[H _] _]. by apply overlaps_false.
Qed.

(** One iteration restores the newest entry, if it may be restored, and keeps the
    older ones. *)
Lemma restore_entry_step s es e datamax i st :
  log_repr s (es ++ [e]) → length e.2 = 8%nat →
  ∃ st', restore_entry awd awp datamax (i, st) s =
    Ok (Some (u64 (i + 1), st'))
       (set_cmem (undo (restored s datamax [e]) (cmem s))
          (set_wl_position (wl_position s - entry_size) s)).
Proof.
  intros Hr Hl. apply log_repr_snoc_inv in Hr as [[Ha Hd] _].
  unfold restore_entry. cbn [wl_data wl_position cmem set_wl_position].
  rewrite Ha.
  replace (wl_data s + (wl_position s - entry_size + SIZEOF_PTR))
    with (wl_data s + (wl_position s - entry_size) + SIZEOF_PTR) by lia.
  rewrite Hd. unfold restored. cbn [List.filter]. unfold restores, memcpy_returns.
  rewrite (can_restore_data s) by done.
  destruct (ltckpt_can_restore awd awp s e.1); cbn [negb andb]; [|by eexists].
  destruct ((datamax <? e.1) && negb LTCKPT_LIBCALL_INTERVALS); cbn [negb andb]; [by eexists|].
  unfold truthy. destruct (e.1 =? 0); cbn [negb]; by eexists.
Qed.

Lemma restored_step_repr s es e datamax :
  log_repr s (es ++ [e]) → length e.2 = 8%nat →
  log_repr (set_cmem (undo (restored s datamax [e]) (cmem s))
    (set_wl_position (wl_position s - entry_size) s)) es.
Proof.
  intros Hr Hl. apply log_repr_snoc_inv in Hr as [_ Hr].
  apply log_repr_agree; [|done]. intros x Hx. cbn [cmem set_wl_position].
  symmetry. apply undo_uncovered. intros (e' & He' & Hb).
  unfold restored in He'. cbn in He'. destruct (restores s datamax e) eqn:E; [|set_solver].
  apply list_elem_of_singleton in He' as ->.
  unfold restores in E. rewrite !andb_true_iff in E. destruct E as [[E _] _].
  rewrite Hl in Hb. apply (can_restore_not_in_log _ _ _ E Hb).
  destruct Hr as (_ & ? & _). log_lia.
Qed.

Definition entries_wf (es : list entry) : Prop := Forall (λ e : entry, length e.2 = 8%nat) es.

(** The restore loop implements [undo] on the entries it restores, and it ends with
    one iteration per entry. *)
Lemma restore_loop_undo es s datamax i st :
  log_repr s es → entries_wf es →
  0 <= i → i + zlen es < 18446744073709551616 →
  ∃ st', restore_loop awd awp (length es) datamax (i, st) s =
    Ok (Some (i + zlen es, st'))
       (set_cmem (undo (restored s datamax es) (cmem s)) (set_wl_position 0 s)).
Proof.
  revert s i st. induction es as [|e es IH] using rev_ind; intros s i st Hr Hwf Hi Hb.
  - exists st. destruct Hr as (Hp & _ & _). cbn.
    rewrite (proj2 (Z.leb_gt entry_size (wl_position s))) by log_lia.
    rewrite Z.add_0_r. destruct s; cbn in *. by rewrite Hp.
  - apply Forall_app in Hwf as [Hwf Hl]. rewrite Forall_singleton in Hl.
    destruct (restore_entry_step s es e datamax i st Hr Hl) as [st1 Hstep].
    pose proof (restored_step_repr s es e datamax Hr Hl) as Hr'.
    pose proof Hr as (Hp & _ & _).
    rewrite length_app in *. cbn [length] in *. rewrite Nat.add_1_r. cbn [restore_loop].
    rewrite (proj2 (Z.leb_le entry_size (wl_position s))) by log_lia.
    rewrite (bind_Ok _ _ _ _ _ Hstep), u64_small by lia.
    edestruct (IH _ (i + 1) st1 Hr' Hwf) as [st2 ->]; [lia|lia|].
    exists st2. f_equal; [f_equal; f_equal; lia|].
    unfold set_cmem, set_wl_position. cbn [wl_data wl_position cmem cctx windows
      ltckpt_current_site_id inside_trusted_compute_base].
    f_equal. by rewrite restored_app, undo_app, (restored_data s).
Qed.

(** The restart hook returns 0, empties the log and rolls memory back. *)
Lemma restart_hook_undo s es datamax :
  log_repr s es → entries_wf es →
  ltckpt_restart_hook_undolog awd awp datamax s =
    Ok 0 (set_cmem (undo (restored s datamax es) (cmem s)) (set_wl_position 0 s)).
Proof.
  intros Hr Hwf. pose proof Hr as (Hp & Hb & _).
  assert (wl_position s / entry_size = zlen es) as Hn.
  { rewrite Hp, Z.mul_comm, Z.div_mul; [done|log_lia]. }
  assert (wl_position s mod entry_size = 0) as Hm.
  { rewrite Hp, Z.mul_comm. apply Z.mod_mul. log_lia. }
  destruct (restore_loop_undo es s datamax 0 0 Hr Hwf) as [st Hloop]; [lia|log_lia|].
  unfold ltckpt_restart_hook_undolog. rewrite (bind_Ok _ _ s (wl_position s) s) by done.
  rewrite Hn, Hm, Nat2Z.id. rewrite (bind_Ok _ _ s () s) by done.
  rewrite (bind_Ok _ _ _ _ _ Hloop), Z.add_0_l, Z.eqb_refl. done.
Qed.

End Rollback.

(** ** Theorems *)

(** C6: The restart hook refines the abstract rollback.  From a state in which the
    bytes of the log represent the entries [es], the hook returns 0 after as many
    iterations as there are entries, with the log empty and memory equal to the
    undoing of exactly those entries it is allowed to write back, newest first. *)
Theorem restart_refines_undo `{cfg : Config} (awd awp datamax : Z) (s : ckpt) (es : list entry) :
  log_repr s es → entries_wf es →
  ltckpt_restart_hook_undolog awd awp datamax s =
    Ok 0 (set_cmem (undo (restored awd awp s datamax es) (cmem s)) (set_wl_position 0 s)).
Proof. apply restart_hook_undo. Qed.

(** A log with one entry, for the eight bytes at 64. *)
Definition one_entry_log : ckpt :=
  set_wl_position 16 (set_wl_data 4096
    (ckpt_globals (store_u64 (store_u64 (λ _, 0) 4096 64) 4104 77))).

Lemma restart_refines_undo_witness :
  ∃ s', @ltckpt_restart_hook_undolog config_autoadapt 0 8 1000000 one_entry_log = Ok 0 s' ∧
    load_u64 (cmem s') 64 = 77.
Proof.
  eexists. split.
  - apply (@restart_refines_undo config_autoadapt 0 8 1000000 one_entry_log
      [(64, le_bytes 8 77)]).
    + split; [reflexivity|]. split; [vm_compute; discriminate|].
      intros [|[|i]] e H; [injection H as <-; split; vm_compute; reflexivity|discriminate H..].
    + repeat constructor.
  - vm_compute. reflexivity.
Defined.

(** C12: [ltckpt_write_wl] refines pushing an entry: with room for one more entry, the
    log that represented [es] afterwards represents [es] and the region of the
    address with the bytes it had, and no byte outside the log has changed. *)
Theorem write_wl_refines_push (a : Z) (s : ckpt) (es : list entry) :
  log_repr s es → loggable s a → entry_size * (zlen es + 1) <= WRITELOG_BYTES →
  log_repr (ltckpt_write_wl a s)
    (es ++ [(region_align a, load_bytes (cmem s) (region_align a) 8)]) ∧
  mem_agree (not_in_log s) (cmem s) (cmem (ltckpt_write_wl a s)).
Proof.
  intros Hr Ha Hroom. split; [by apply write_wl_repr|].
  pose proof Hr as (Hp & _ & _). eapply mem_agree_mono; [|apply write_wl_mem; log_lia].
  intros x. log_lia.
Qed.

Lemma write_wl_refines_push_witness :
  wl_position (ltckpt_write_wl 70 one_entry_log) = 32.
Proof.
  destruct (write_wl_refines_push 70 one_entry_log [(64, le_bytes 8 77)]) as [[H _] _].
  - split; [reflexivity|]. split; [vm_compute; discriminate|].
    intros [|[|i]] e H; [injection H as <-; split; vm_compute; reflexivity|discriminate H..].
  - split; [lia|]. intros x. unfold not_in_log, in_log, in_block.
    replace (region_align 70) with 64 by (vm_compute; reflexivity).
    cbn [wl_data one_entry_log set_wl_position set_wl_data]. lia.
  - vm_compute. discriminate.
  - exact H.
Defined.
