(* ===== verification/UndoWindow.v ===== *)
(** * Rollback of an undo-log window

    The store and memcpy hooks of [Writelog] as an instrumented program meets them:
    each store is preceded by its hook.  The file proves which bytes the memcpy
    hook saves, and that a restart gives back the memory of the last top of the
    loop whatever instrumented stores happened since. *)
From stdpp Require Import base numbers list sets.
From Stdlib Require Import ZArith Lia.
From S2P Require Import Prelude Memory Ctx Profiling Writelog.

(** ** The regions the memcpy hook walks *)

Fixpoint memcpy_regs (fuel : nat) (reg end_ : Z) : list Z :=
  match fuel with
  | O => []
  | S fuel' => if reg <? end_ then reg :: memcpy_regs fuel' (reg + 8) end_ else []
  end.

Definition write_all (rs : list Z) (s : ckpt) : ckpt := foldl (λ s r, ltckpt_write_wl r s) s rs.

Lemma memcpy_loop_regs `{cfg : Config} fuel reg end_ s :
  end_ - reg <= 8 * Z.of_nat fuel →
  memcpy_hook_loop fuel reg end_ s = Ok () (write_all (memcpy_regs fuel reg end_) s).
Proof.
  revert reg s. induction fuel as [|fuel IH]; intros reg s H.
  - cbn. destruct (Z.ltb_spec reg end_); [lia|done].
  - cbn [memcpy_hook_loop memcpy_regs]. destruct (Z.ltb_spec reg end_); [|done].
    rewrite (bind_Ok _ _ s () (ltckpt_write_wl reg s)) by done.
    rewrite IH by lia. done.
Qed.

Lemma elem_of_memcpy_regs fuel reg end_ r :
  end_ - reg <= 8 * Z.of_nat fuel →
  r ∈ memcpy_regs fuel reg end_ ↔ reg <= r < end_ ∧ (r - reg) mod 8 = 0.
Proof.
  revert reg. induction fuel as [|fuel IH]; intros reg H; cbn.
  - split; [set_solver|lia].
  - destruct (Z.ltb_spec reg end_) as [Hlt|Hge].
    + rewrite elem_of_cons, IH by lia.
      replace (r - (reg + 8)) with (r - reg + (-1) * 8) by lia. rewrite Z.mod_add by lia.
      split.
      * intros [->|?]; [rewrite Z.sub_diag|]; split; try done; lia.
      * intros [Hr Hm]. destruct (decide (r = reg)); [by left|right].
        split; [|done]. pose proof (Z.div_mod (r - reg) 8). lia.
    + split; [set_solver|lia].
Qed.

Lemma length_memcpy_regs fuel reg end_ : (length (memcpy_regs fuel reg end_) <= fuel)%nat.
Proof.
  revert reg. induction fuel as [|fuel IH]; intros reg; cbn; [done|].
  destruct (reg <? end_); cbn; [|lia]. specialize (IH (reg + 8)). lia.
Qed.

(** The regions [ltckpt_memcpy_hook] passes to [ltckpt_write_wl]. *)
Definition hook_regs (addr size : Z) : list Z :=
  memcpy_regs (Z.to_nat (size / 8 + 2)) (memcpy_reg addr) (addr + size).

Lemma hook_fuel addr size :
  0 <= size → addr + size - memcpy_reg addr <= 8 * Z.of_nat (Z.to_nat (size / 8 + 2)).
Proof.
  intros. rewrite memcpy_reg_spec. pose proof (Z.mod_pos_bound addr 4).
  pose proof (Z.div_mod size 8). pose proof (Z.mod_pos_bound size 8).
  assert (0 <= size / 8) by (apply Z.div_pos; lia). lia.
Qed.

Lemma elem_of_hook_regs addr size r :
  0 <= size →
  r ∈ hook_regs addr size ↔
  memcpy_reg addr <= r < addr + size ∧ (r - memcpy_reg addr) mod 8 = 0.
Proof. intros. apply elem_of_memcpy_regs, hook_fuel; lia. Qed.

(** The bytes the memcpy hook saves. *)
Definition hook_saves (addr size x : Z) : Prop :=
  ∃ r, r ∈ hook_regs addr size ∧ in_block (region_align r) 8 x.

(** When every byte of the destination is saved: the first word of the destination
    is in the lower half of its region, or its last byte in the upper half. *)
Definition memcpy_covered (addr size : Z) : bool :=
  (addr mod 8 <? 4) || (4 <=? (addr + size - 1) mod 8).

Lemma mod8_mod4 a : a mod 4 = a mod 8 - (if 4 <=? a mod 8 then 4 else 0).
Proof.
  pose proof (Z.div_mod a 8). pose proof (Z.mod_pos_bound a 8).
  destruct (Z.leb_spec 4 (a mod 8)).
  - symmetry. apply (Z.mod_unique _ _ (2 * (a / 8) + 1)); lia.
  - symmetry. apply (Z.mod_unique _ _ (2 * (a / 8))); lia.
Qed.

(** The region of [x] among those walked, when the walk starts in a lower half. *)
Lemma hook_saves_low addr size x :
  addr mod 8 < 4 → in_block addr size x → hook_saves addr size x.
Proof.
  unfold in_block. intros Ha Hx. exists (x - x mod 8). rewrite elem_of_hook_regs by lia.
  rewrite memcpy_reg_spec, region_align_spec, mod8_mod4.
  rewrite (proj2 (Z.leb_gt 4 (addr mod 8))) by lia.
  pose proof (Z.div_mod addr 8). pose proof (Z.div_mod x 8).
  pose proof (Z.mod_pos_bound addr 8). pose proof (Z.mod_pos_bound x 8).
  assert ((x - x mod 8) mod 8 = 0) as Hx0 by (symmetry; apply (Z.mod_unique _ _ (x / 8)); lia).
  rewrite Hx0. unfold in_block. split_and!; try lia.
  symmetry. apply (Z.mod_unique _ _ (x / 8 - addr / 8)); lia.
Qed.

(** Started in an upper half, the walk stays in upper halves. *)
Lemma hook_saves_high addr size x :
  4 <= addr mod 8 → 0 < size → in_block addr size x →
  hook_saves addr size x ↔ x - x mod 8 + 4 < addr + size.
Proof.
  unfold in_block. intros Ha Hs Hx. unfold hook_saves.
  pose proof (Z.div_mod addr 8). pose proof (Z.div_mod x 8).
  pose proof (Z.mod_pos_bound addr 8). pose proof (Z.mod_pos_bound x 8).
  assert (memcpy_reg addr = addr - addr mod 8 + 4) as Hreg.
  { rewrite memcpy_reg_spec, mod8_mod4, (proj2 (Z.leb_le 4 (addr mod 8))) by lia. lia. }
  setoid_rewrite elem_of_hook_regs; [|lia]. rewrite Hreg. split.
  - intros (r & [Hr Hm] & Hb). rewrite region_align_spec in Hb.
    pose proof (Z.div_mod (r - (addr - addr mod 8 + 4)) 8).
    assert (r mod 8 = 4) as Hr4.
    { symmetry. apply (Z.mod_unique _ _ ((r - (addr - addr mod 8 + 4)) / 8 + addr / 8)); lia. }
    unfold in_block in Hb. pose proof (Z.div_mod r 8). lia.
  - intros Hlt. exists (x - x mod 8 + 4).
    assert ((x - x mod 8 + 4) mod 8 = 4) as H4.
    { symmetry. apply (Z.mod_unique _ _ (x / 8)); lia. }
    rewrite region_align_spec, H4. unfold in_block. split_and!; try lia.
    symmetry. apply (Z.mod_unique _ _ (x / 8 - addr / 8)); lia.
Qed.

(** The memcpy hook saves every byte of the destination exactly when
    [memcpy_covered] holds. *)
Lemma hook_saves_iff addr size :
  0 < size →
  (∀ x, in_block addr size x → hook_saves addr size x) ↔ memcpy_covered addr size = true.
Proof.
  intros Hs. unfold memcpy_covered.
  pose proof (Z.mod_pos_bound (addr + size - 1) 8).
  pose proof (Z.div_mod (addr + size - 1) 8).
  destruct (Z.ltb_spec (addr mod 8) 4) as [Hlo|Hhi]; cbn [orb].
  { split; [done|]. intros _ x. by apply hook_saves_low. }
  rewrite Z.leb_le. split.
  - intros H'. specialize (H' (addr + size - 1)).
    rewrite hook_saves_high in H' by (unfold in_block in *; lia).
    unfold in_block in H'. lia.
  - intros Hend x Hx. apply hook_saves_high; [done..|].
    pose proof (Z.mod_pos_bound x 8). pose proof (Z.div_mod x 8). unfold in_block in Hx.
    destruct (decide (x / 8 = (addr + size - 1) / 8)); [lia|].
    assert (x / 8 <= (addr + size - 1) / 8) by (apply Z.div_le_mono; lia). lia.
Qed.

(** ** An instrumented program between two tops of the loop *)

(** A store of at most eight bytes, and a library copy of any number of bytes. *)
Inductive app_op :=
  | AStore (a : Z) (bs : list Z)
  | AMemcpy (a : Z) (bs : list Z).

Section Window.
Context `{cfg : Config} (awd awp datamax : Z).

Definition app_write (a : Z) (bs : list Z) (s : ckpt) : ckpt :=
  set_cmem (store_bytes (cmem s) a bs) s.

Definition app_step (op : app_op) : prog ckpt () :=
  match op with
  | AStore a bs => modify (ltckpt_store_hook a) ;; modify (app_write a bs)
  | AMemcpy a bs => ltckpt_memcpy_hook a (zlen bs) ;; modify (app_write a bs)
  end.

Fixpoint app_run (ops : list app_op) : prog ckpt () :=
  match ops with
  | [] => skip
  | op :: ops' => app_step op ;; app_run ops'
  end.

(** A region that the log saves and a restart restores. *)
Definition safe_addr (s : ckpt) (a : Z) : Prop :=
  0 <= a < 18446744073709551616 ∧ restores awd awp s datamax (region_align a, []) = true.

(** The addresses an operation passes to [ltckpt_write_wl]. *)
Definition op_regs (op : app_op) : list Z :=
  match op with
  | AStore a _ => [a]
  | AMemcpy a bs => hook_regs a (zlen bs)
  end.

(** The operations the hooks are meant for: a store does not leave its region, a
    copy starts and ends in the halves the memcpy hook covers, and the regions they
    touch can be saved and restored. *)
Definition op_ok (s : ckpt) (op : app_op) : Prop :=
  Forall (safe_addr s) (op_regs op) ∧
  match op with
  | AStore a bs => a + zlen bs <= region_align a + 8
  | AMemcpy a bs => bs = [] ∨ memcpy_covered a (zlen bs) = true
  end.

(** The entries the operations of a window append to the log. *)
Definition ops_entries (ops : list app_op) : Z :=
  foldr (λ op n, zlen (op_regs op) + n) 0 ops.

(** Since the top of the loop with memory [m0]: the log holds [es], and undoing it
    gives [m0] outside the log. *)
Record window_inv (m0 : mem) (base : Z) (s : ckpt) (es : list entry) : Prop := {
  wi_data : wl_data s = base;
  wi_repr : log_repr s es;
  wi_wf : entries_wf es;
  wi_restores : Forall (λ e, restores awd awp s datamax (e.1, []) = true) es;
  wi_undo : mem_agree (not_in_log s) (undo es (cmem s)) m0;
}.

Lemma restores_fst s e : restores awd awp s datamax e = restores awd awp s datamax (e.1, []).
Proof. done. Qed.

Lemma restores_data s s' e :
  wl_data s' = wl_data s → restores awd awp s' datamax e = restores awd awp s datamax e.
Proof. intros H. unfold restores. by rewrite (can_restore_data awd awp s s'). Qed.

Lemma safe_loggable s a : safe_addr s a → loggable s a.
Proof.
  intros [Ha Hr]. split; [done|]. intros x. unfold restores in Hr.
  rewrite !andb_true_iff in Hr. destruct Hr as [[Hr _] _]. by eapply can_restore_not_in_log.
Qed.

(** Saving a region keeps the invariant. *)
Lemma write_wl_inv m0 base s es a :
  window_inv m0 base s es → safe_addr s a → entry_size * (zlen es + 1) <= WRITELOG_BYTES →
  window_inv m0 base (ltckpt_write_wl a s) (es ++ [saved_entry s a]).
Proof.
  intros [Hd Hr Hw Hc Hu] Ha Hroom. pose proof (safe_loggable _ _ Ha) as Hlog.
  pose proof Hr as (Hp & _ & _). pose proof (write_wl_data a s) as Hdata.
  assert (mem_agree (not_in_log s) (cmem s) (cmem (ltckpt_write_wl a s))) as Hm.
  { eapply mem_agree_mono; [|apply write_wl_mem; log_lia]. intros x. log_lia. }
  split.
  - by rewrite Hdata.
  - by apply write_wl_repr.
  - apply Forall_app. split; [done|]. apply Forall_singleton. cbn. done.
  - apply Forall_app. split.
    + eapply Forall_impl; [exact Hc|]. intros e He. by rewrite (restores_data s).
    + apply Forall_singleton. rewrite (restores_data s) by done. apply Ha.
  - rewrite undo_app. unfold not_in_log, in_log. rewrite Hdata. fold (in_log s) (not_in_log s).
    etransitivity; [|exact Hu]. apply undo_agree.
    intros x [Hx _]. unfold saved_entry. cbn [undo foldr].
    transitivity (store_bytes (cmem s) (region_align a)
                    (load_bytes (cmem s) (region_align a) 8) x).
    + eapply (store_bytes_agree (not_in_log s)); [|exact Hx].
      intros y [Hy _]. symmetry. by apply Hm.
    + apply store_load_bytes.
Qed.

Lemma write_all_inv m0 base rs s es :
  window_inv m0 base s es → Forall (safe_addr s) rs →
  entry_size * (zlen es + zlen rs) <= WRITELOG_BYTES →
  ∃ es', window_inv m0 base (write_all rs s) (es ++ es') ∧ es'.*1 = region_align <$> rs.
Proof.
  revert s es. induction rs as [|r rs IH]; intros s es Hi Hs Hroom.
  { exists []. rewrite app_nil_r. split_and!; done. }
  inversion_clear Hs as [|?? Hr Hrs]. cbn [length] in Hroom.
  pose proof (write_wl_inv _ _ _ _ _ Hi Hr) as Hi'.
  destruct (IH (ltckpt_write_wl r s) (es ++ [saved_entry s r])) as (es' & Hi2 & Hl).
  { apply Hi'. log_lia. }
  { eapply Forall_impl; [exact Hrs|]. intros r' [? ?]. split; [done|].
    by rewrite (restores_data s) by apply write_wl_data. }
  { rewrite length_app. log_lia. }
  exists (saved_entry s r :: es'). rewrite <- app_assoc in Hi2. split; [done|].
  cbn. by rewrite Hl.
Qed.

(** The bytes of the regions a list of addresses is in. *)
Definition in_regions (rs : list Z) (x : Z) : Prop :=
  ∃ r, r ∈ rs ∧ in_block (region_align r) 8 x.

(** A well-formed log covers the regions of its entries. *)
Lemma covered_regions es rs x :
  entries_wf es → es.*1 = region_align <$> rs → covered es x ↔ in_regions rs x.
Proof.
  revert rs. induction es as [|e es IH]; intros [|r rs] Hw Hm; try done.
  { split; intros (? & ? & ?); set_solver. }
  cbn in Hm. injection Hm as He Hm. inversion_clear Hw as [|?? Hl Hw'].
  specialize (IH rs Hw' Hm). unfold covered, in_regions in *. split.
  - intros (e' & Hin & Hb). apply elem_of_cons in Hin as [->|Hin].
    + exists r. rewrite <- He. rewrite Hl in Hb. split; [set_solver|done].
    + destruct (proj1 IH) as (r' & ? & ?); [by exists e'|]. exists r'. set_solver.
  - intros (r' & Hin & Hb). apply elem_of_cons in Hin as [->|Hin].
    + exists e. rewrite He, Hl. split; [set_solver|done].
    + destruct (proj2 IH) as (e' & ? & ?); [by exists r'|]. exists e'. set_solver.
Qed.

(** Writing bytes the log has saved keeps the invariant. *)
Lemma app_write_inv m0 base s es a bs :
  window_inv m0 base s es →
  (∀ x, in_block a (zlen bs) x → covered es x) →
  window_inv m0 base (app_write a bs s) es.
Proof.
  intros [Hd Hr Hw Hc Hu] Hcov. split; [done| |done|done|].
  - apply log_repr_agree; [|done]. intros x Hx. symmetry. apply store_bytes_out.
    intros Hb. destruct (Hcov x Hb) as (e & He & Hin).
    rewrite Forall_forall in Hc. specialize (Hc e He). unfold restores in Hc.
    rewrite !andb_true_iff in Hc. destruct Hc as [[Hc _] _].
    unfold entries_wf in Hw. rewrite Forall_forall in Hw. rewrite (Hw e He) in Hin.
    apply (can_restore_not_in_log _ _ _ _ _ Hc Hin). destruct Hr as (_ & ? & _). log_lia.
  - etransitivity; [|exact Hu]. apply undo_agree. intros x [_ Hx].
    apply store_bytes_out. intros Hb. by apply Hx, Hcov.
Qed.

Lemma profile_window_inv m0 base s es f i :
  window_inv m0 base s es → window_inv m0 base (profile_window f i s) es.
Proof. intros [Hd Hr Hw Hc Hu]. by split. Qed.

Definition hooks_enabled : Prop := LTCKPT_EMPTY_UNDOLOG_HOOKS = false.

Lemma store_step_inv m0 base s es a bs :
  hooks_enabled → window_inv m0 base s es → op_ok s (AStore a bs) →
  entry_size * (zlen es + 1) <= WRITELOG_BYTES →
  ∃ s' es', app_step (AStore a bs) s = Ok () s' ∧ window_inv m0 base s' (es ++ es') ∧
    es'.*1 = region_align <$> op_regs (AStore a bs).
Proof.
  intros Hen Hi [Hs Hb] Hroom. cbn in Hs. inversion_clear Hs as [|?? Ha _].
  pose proof (write_wl_inv _ _ _ _ _ Hi Ha Hroom) as Hi'.
  eexists _, [saved_entry s a]. split_and!; [done| |done].
  apply app_write_inv.
  - unfold ltckpt_store_hook. rewrite Hen. case_match; [by apply profile_window_inv|done].
  - intros x Hx. apply covered_app. right. exists (saved_entry s a). split; [set_solver|].
    cbn. rewrite region_align_spec in *. pose proof (Z.mod_pos_bound a 8). log_lia.
Qed.

Lemma memcpy_step_inv m0 base s es a bs :
  window_inv m0 base s es → op_ok s (AMemcpy a bs) →
  entry_size * (zlen es + zlen (op_regs (AMemcpy a bs))) <= WRITELOG_BYTES →
  ∃ s' es', app_step (AMemcpy a bs) s = Ok () s' ∧ window_inv m0 base s' (es ++ es') ∧
    es'.*1 = region_align <$> op_regs (AMemcpy a bs).
Proof.
  intros Hi [Hs Hb] Hroom. cbn in Hs, Hroom |- *.
  destruct (write_all_inv _ _ _ _ _ Hi Hs Hroom) as (es' & Hi' & Hl).
  assert (∀ x, in_block a (zlen bs) x → covered (es ++ es') x) as Hcov.
  { intros x Hx. apply covered_app. right. destruct Hb as [->|Hb]; [cbn in Hx; log_lia|].
    destruct (decide (bs = [])) as [->|Hne]; [cbn in Hx; log_lia|].
    assert (0 < zlen bs) as Hpos by (destruct bs; [done|cbn; lia]).
    destruct (proj2 (hook_saves_iff a (zlen bs) Hpos) Hb x Hx) as (r & Hr & Hin).
    apply (covered_regions es' (hook_regs a (zlen bs))); [|done|by exists r].
    by apply (Forall_app _ es es'), (wi_wf _ _ _ _ Hi'). }
  unfold ltckpt_memcpy_hook. unfold mbind, prog_bind.
  rewrite memcpy_loop_regs by (apply hook_fuel; lia).
  fold (hook_regs a (zlen bs)). unfold when. destruct LTCKPT_WINDOW_PROFILING; cbn.
  - eexists _, es'. split_and!; [done| |done]. by apply app_write_inv; [apply profile_window_inv|].
  - eexists _, es'. split_and!; [done| |done]. by apply app_write_inv.
Qed.

Lemma app_step_inv m0 base s es op :
  hooks_enabled → window_inv m0 base s es → op_ok s op →
  entry_size * (zlen es + zlen (op_regs op)) <= WRITELOG_BYTES →
  ∃ s' es', app_step op s = Ok () s' ∧ window_inv m0 base s' (es ++ es') ∧
    es'.*1 = region_align <$> op_regs op.
Proof.
  destruct op; intros; [by apply store_step_inv|by apply memcpy_step_inv].
Qed.

Lemma op_ok_data s s' op : wl_data s' = wl_data s → op_ok s op → op_ok s' op.
Proof.
  intros H [Hs Hb]. split; [|done]. eapply Forall_impl; [exact Hs|].
  intros a [? ?]. split; [done|]. by rewrite (restores_data s).
Qed.

Lemma ops_entries_nonneg ops : 0 <= ops_entries ops.
Proof. unfold ops_entries. induction ops; cbn; lia. Qed.

Lemma app_run_inv m0 base ops s es :
  hooks_enabled → window_inv m0 base s es → Forall (op_ok s) ops →
  entry_size * (zlen es + ops_entries ops) <= WRITELOG_BYTES →
  ∃ s' es', app_run ops s = Ok () s' ∧ window_inv m0 base s' (es ++ es') ∧
    es'.*1 = region_align <$> (ops ≫= op_regs).
Proof.
  intros Hen. revert s es. induction ops as [|op ops IH]; intros s es Hi Hok Hroom.
  { exists s, []. by rewrite app_nil_r. }
  inversion_clear Hok as [|?? Hop Hops]. cbn [ops_entries foldr] in Hroom.
  fold (ops_entries ops) in Hroom. pose proof (ops_entries_nonneg ops).
  destruct (app_step_inv m0 base s es op) as (s1 & es1 & Hstep & Hi1 & Hl); [done..|log_lia|].
  destruct (IH s1 (es ++ es1)) as (s2 & es2 & Hrun & Hi2 & Hl2); [done| | |].
  { eapply Forall_impl; [exact Hops|]. intros op'. apply op_ok_data.
    by rewrite (wi_data _ _ _ _ Hi1), (wi_data _ _ _ _ Hi). }
  { apply (f_equal length) in Hl. rewrite !length_fmap in Hl. rewrite length_app. unfold entry in *. log_lia. }
  exists s2, (es1 ++ es2). rewrite app_assoc. split_and!; [|done|].
  - cbn [app_run]. by rewrite (bind_Ok _ _ _ _ _ Hstep).
  - rewrite bind_cons, !fmap_app. by rewrite Hl, Hl2.
Qed.

Lemma restored_all s es :
  Forall (λ e, restores awd awp s datamax (e.1, []) = true) es →
  restored awd awp s datamax es = es.
Proof.
  induction 1 as [|e es He Hes IH]; [done|]. unfold restored in *. cbn.
  by rewrite restores_fst, He, IH.
Qed.

(** A restart from any state of the window gives back [m0]. *)
Lemma restart_inv m0 base s es :
  window_inv m0 base s es →
  ∃ s', ltckpt_restart awd awp datamax s = Ok 0 s' ∧ wl_position s' = 0 ∧
    mem_agree (not_in_log s) (cmem s') m0.
Proof.
  intros [Hd Hr Hw Hc Hu]. set (s1 := set_inside_trusted_compute_base 1 s).
  eexists. split; [|split].
  - unfold ltckpt_restart. rewrite (bind_Ok _ _ s () s1) by done.
    apply (restart_hook_undo awd awp s1 es datamax); done.
  - done.
  - cbn [cmem set_cmem]. rewrite restored_all; [exact Hu|]. eapply Forall_impl; [exact Hc|].
    intros e He. by rewrite (restores_data s).
Qed.

End Window.

(** ** The log after a copy hook *)

(** Saving a list of regions: entries with the bytes the regions have are appended, and memory
    outside the log stays as it is. *)
Lemma write_all_log rs s es :
  log_repr s es → Forall (loggable s) rs → entry_size * (zlen es + zlen rs) <= WRITELOG_BYTES →
  ∃ es', log_repr (write_all rs s) (es ++ es') ∧ es'.*1 = region_align <$> rs ∧
    Forall (λ e, e.2 = load_bytes (cmem s) e.1 8) es' ∧
    mem_agree (not_in_log s) (cmem (write_all rs s)) (cmem s).
Proof.
  revert s es. induction rs as [|r rs IH]; intros s es Hr Hs Hroom.
  { exists []. rewrite app_nil_r. split_and!; done. }
  apply Forall_cons in Hs as [Hl Hs]. cbn [length] in Hroom. set (s1 := ltckpt_write_wl r s).
  assert (log_repr s1 (es ++ [saved_entry s r])) as Hr1 by (apply write_wl_repr; [done|done|log_lia]).
  assert (wl_data s1 = wl_data s) as Hd by apply write_wl_data.
  assert (mem_agree (not_in_log s) (cmem s1) (cmem s)) as Hm1.
  { intros x Hx. symmetry. destruct Hr as (Hp & _). apply (write_wl_mem r s); log_lia. }
  assert (Forall (loggable s1) rs) as Hs1.
  { eapply Forall_impl; [exact Hs|]. intros a [Ha Hn]. split; [done|]. intros x Hx.
    unfold not_in_log, in_log in *. rewrite Hd. by apply Hn. }
  destruct (IH s1 (es ++ [saved_entry s r]) Hr1 Hs1) as (es' & Hr2 & Hf & Hb & Hm2).
  { rewrite length_app. log_lia. }
  exists (saved_entry s r :: es'). rewrite <- app_assoc in Hr2.
  change (write_all (r :: rs) s) with (write_all rs s1). split_and!; [done|by cbn; rewrite Hf| |].
  - constructor; [done|]. apply Forall_forall. intros e He.
    rewrite Forall_forall in Hb. rewrite (Hb e He). apply load_bytes_ext. intros x Hx. apply Hm1.
    assert (e.1 ∈ region_align <$> rs) as Hin by (rewrite <- Hf; apply list_elem_of_fmap; eauto).
    apply list_elem_of_fmap in Hin as (a & Ea & Ha). rewrite Ea in Hx.
    rewrite Forall_forall in Hs. by apply (Hs a Ha).
  - etransitivity; [|exact Hm1]. intros x Hx. apply Hm2. unfold not_in_log, in_log in *. by rewrite Hd.
Qed.

(** The regions of the hook begin within the destination rounded to regions. *)
Lemma hook_regs_loggable s addr size :
  0 < size → 0 <= addr → addr + size <= 18446744073709551608 →
  (∀ x, in_block (region_align addr) (size + 16) x → not_in_log s x) →
  Forall (loggable s) (hook_regs addr size).
Proof.
  intros Hsz Ha Hb Hn. apply Forall_forall. intros r [Hr _]%elem_of_hook_regs; [|lia].
  rewrite memcpy_reg_spec in Hr. pose proof (Z.mod_pos_bound addr 4). pose proof (Z.mod_pos_bound addr 8).
  pose proof (mod8_mod4 addr) as H4. pose proof (Z.mod_pos_bound r 8).
  assert (region_align addr <= region_align r) as Hle.
  { rewrite !region_align_spec. pose proof (Z.div_mod addr 8). pose proof (Z.div_mod r 8).
    assert (addr / 8 <= r / 8); [|lia]. apply Z.div_le_lower_bound; [lia|].
    destruct (Z.leb_spec 4 (addr mod 8)); lia. }
  assert (0 <= addr - addr mod 4) by (pose proof (Z.mod_le addr 4); lia).
  split; [lia|]. intros x Hx. apply Hn. rewrite !region_align_spec in *. unfold in_block in *. lia.
Qed.

(** What the hook leaves out is at the end of the destination. *)
Lemma hook_misses_tail addr size x :
  0 < size → in_block addr size x → ¬ hook_saves addr size x → addr + size - 4 <= x.
Proof.
  intros Hs Hx Hn. destruct (decide (addr mod 8 < 4)) as [Hlo|Hhi].
  - by destruct Hn; apply hook_saves_low.
  - rewrite hook_saves_high in Hn by (done || lia). pose proof (Z.mod_pos_bound x 8). lia.
Qed.

(** ** Theorems *)

(** C2: Rollback of a window.  Whatever instrumented stores and copies the program
    performs after a top of the loop with an empty log (each within what its hook
    covers, and as many as the log has room for), they all run, and a restart then
    returns 0 and gives every byte outside the log the value it had at the top of the
    loop. *)
Theorem restart_restores_window `{cfg : Config} (awd awp datamax : Z) (s : ckpt)
    (ops : list app_op) :
  hooks_enabled → wl_position s = 0 → Forall (op_ok awd awp datamax s) ops →
  entry_size * ops_entries ops <= WRITELOG_BYTES →
  ∃ s1 s2, app_run ops s = Ok () s1 ∧ ltckpt_restart awd awp datamax s1 = Ok 0 s2 ∧
    wl_position s2 = 0 ∧ mem_agree (not_in_log s) (cmem s2) (cmem s).
Proof.
  intros Hen Hp Hok Hroom.
  destruct (app_run_inv awd awp datamax (cmem s) (wl_data s) ops s [] Hen)
    as (s1 & es & Hrun & Hi & _); [|done|done|].
  { split; [done| |constructor|constructor|done]. split_and!; [by rewrite Hp|by rewrite Hp|].
    intros i e Hi. by rewrite lookup_nil in Hi. }
  destruct (restart_inv awd awp datamax _ _ _ _ Hi) as (s2 & Hres & Hpos & Hm).
  exists s1, s2. split_and!; try done. unfold not_in_log, in_log in *.
  by rewrite (wi_data _ _ _ _ _ _ _ Hi) in Hm.
Qed.

(** A process with an empty log and memory that holds each address's low byte. *)
Definition empty_log : ckpt :=
  set_wl_data 1099511627776 (ckpt_globals (λ x, x mod 256)).

Lemma restart_restores_window_witness :
  ∃ s1 s2, @app_run config_autoadapt [AStore 103 [0]; AMemcpy 32 [1; 2; 3]] empty_log = Ok () s1 ∧
    @ltckpt_restart config_autoadapt 16 24 140737488355328 s1 = Ok 0 s2 ∧ cmem s2 103 = 103.
Proof.
  destruct (@restart_restores_window config_autoadapt 16 24 140737488355328 empty_log
    [AStore 103 [0]; AMemcpy 32 [1; 2; 3]]) as (s1 & s2 & Hrun & Hres & _ & Hm).
  - reflexivity.
  - reflexivity.
  - constructor; [|constructor; [|constructor]].
    + split; [|vm_compute; discriminate]. constructor; [|constructor].
      split; [lia|vm_compute; reflexivity].
    + split; [|right; vm_compute; reflexivity].
      replace (op_regs _) with [32] by (vm_compute; reflexivity).
      constructor; [|constructor]. split; [lia|vm_compute; reflexivity].
  - vm_compute. discriminate.
  - exists s1, s2. split; [exact Hrun|]. split; [exact Hres|].
    rewrite (Hm 103); [reflexivity|]. unfold not_in_log, in_log, in_block. cbn. lia.
Defined.

(** C37: What the copy hook saves.  Run before a copy of [size] bytes to [addr], on a log with room
    for the entries and a destination away from the log, the hook returns, changes no memory outside
    the log and appends entries that each hold the eight bytes their region has.  The new entries
    cover every byte of the destination exactly when the destination starts in the lower half of an
    eight-byte region or ends in the upper half of one; a byte of the destination they do not cover
    is one of its last four. *)
Theorem memcpy_hook_saves_exactly `{cfg : Config} (s : ckpt) (es : list entry) (addr size : Z) :
  0 < size → 0 <= addr → addr + size <= 18446744073709551608 → log_repr s es →
  entry_size * (zlen es + (size / 8 + 2)) <= WRITELOG_BYTES →
  (∀ x, in_block (region_align addr) (size + 16) x → not_in_log s x) →
  ∃ s' es', ltckpt_memcpy_hook addr size s = Ok () s' ∧ log_repr s' (es ++ es') ∧
    mem_agree (not_in_log s) (cmem s') (cmem s) ∧
    Forall (λ e, e.2 = load_bytes (cmem s) e.1 8) es' ∧
    ((∀ x, in_block addr size x → covered es' x) ↔ memcpy_covered addr size = true) ∧
    (∀ x, in_block addr size x → ¬ covered es' x → addr + size - 4 <= x).
Proof.
  intros Hs Ha Hb Hr Hroom Hn.
  assert (zlen (hook_regs addr size) <= size / 8 + 2) as Hlen.
  { pose proof (length_memcpy_regs (Z.to_nat (size / 8 + 2)) (memcpy_reg addr) (addr + size)).
    assert (0 <= size / 8) by (apply Z.div_pos; lia). unfold hook_regs. lia. }
  destruct (write_all_log (hook_regs addr size) s es) as (es' & Hr' & Hf & He & Hm);
    [done|by apply hook_regs_loggable|log_lia|].
  assert (entries_wf es') as Hw.
  { unfold entries_wf. eapply Forall_impl; [exact He|]. intros e ->. by rewrite length_load_bytes. }
  assert (∀ x, covered es' x ↔ hook_saves addr size x) as Hc by (intros x; by apply covered_regions).
  unfold ltckpt_memcpy_hook, mbind, prog_bind. rewrite memcpy_loop_regs by (apply hook_fuel; lia).
  fold (hook_regs addr size). unfold when.
  assert (∃ s', (if LTCKPT_WINDOW_PROFILING
      then modify (λ s, profile_window (PROFILE_MEMCPY size) (ltckpt_current_site_id s) s) else skip)
      (write_all (hook_regs addr size) s) = Ok () s' ∧ log_repr s' (es ++ es') ∧
    cmem s' = cmem (write_all (hook_regs addr size) s)) as (s' & E & Hrs & Hms).
  { destruct LTCKPT_WINDOW_PROFILING; by eexists. }
  exists s', es'. rewrite Hms. split_and!; try done.
  - rewrite <- (hook_saves_iff addr size Hs). split; intros H x Hx; by apply Hc, H.
  - intros x Hx. rewrite Hc. by apply hook_misses_tail.
Qed.

Lemma memcpy_hook_saves_exactly_witness :
  ∃ s' es', @ltckpt_memcpy_hook config_autoadapt 1028 8 empty_log = Ok () s' ∧ log_repr s' es' ∧
    ¬ (∀ x, in_block 1028 8 x → covered es' x) ∧ ∀ x, in_block 1028 8 x → ¬ covered es' x → 1032 <= x.
Proof.
  destruct (@memcpy_hook_saves_exactly config_autoadapt empty_log [] 1028 8)
    as (s' & es' & E & Hr & _ & _ & Hc & Ht).
  - lia.
  - lia.
  - lia.
  - split_and!; [reflexivity|vm_compute; discriminate|]. intros i e Hi. by rewrite lookup_nil in Hi.
  - vm_compute. discriminate.
  - intros x. unfold not_in_log, in_log, in_block. replace (region_align 1028) with 1024 by reflexivity.
    cbn. lia.
  - exists s', es'. split; [exact E|]. split; [exact Hr|]. split; [|exact Ht].
    intros H. apply Hc in H. vm_compute in H. discriminate H.
Defined.

(** The consequence of the rounding in the copy hook: after a copy of eight bytes to
    an address that is 4 modulo 8, a restart leaves the last four bytes of the copy in
    place although it reports success. *)
Theorem memcpy_hook_loses_tail :
  let run := @app_run config_autoadapt [AMemcpy 1028 [91; 92; 93; 94; 95; 96; 97; 98]] empty_log in
  let res := @ltckpt_restart config_autoadapt 16 24 140737488355328 (final run) in
  returned run = Some () ∧ returned res = Some 0 ∧
  cmem (final res) 1028 = cmem empty_log 1028 ∧
  cmem (final res) 1032 = 95 ∧ cmem empty_log 1032 = 8.
Proof. split_and!; vm_compute; reflexivity. Qed.
