(* ===== verification/Common.v ===== *)
(** * The library core

    [ltckpt_common.c], the allocation of the context in [ltckpt_ctx.c] and the
    initialisation of the undo log in [mechanisms/ltckpt_writelog.c]: the choice of
    the mechanism, the wrappers of the memory-mapping calls, and which mappings of the
    process are checkpointed. *)
From stdpp Require Import base numbers list strings sets.
From Stdlib Require Import ZArith Lia.
From S2P Require Import Prelude Memory CString Ctx Profiling Writelog.

(** ** Constants *)

Definition LTCKPT_MAP_FIXED : Z := 1.
Definition LTCKPT_MAP_PRIVATE : Z := 2.
Definition LTCKPT_MAP_NORESERVE : Z := 4.
Definition LTCKPT_MAP_STACK : Z := 8.
Definition LTCKPT_MAP_POPULATE : Z := 16.
Definition LTCKPT_PROT_N : Z := 0.
Definition LTCKPT_PROT_R : Z := 1.
Definition LTCKPT_PROT_W : Z := 2.
Definition LTCKPT_PROT_X : Z := 4.
Definition LTCKPT_MAP_FAILED : Z := 18446744073709551615.

(** [sys/mman.h] on Linux x86-64. *)
Definition PROT_NONE : Z := 0.
Definition PROT_READ : Z := 1.
Definition PROT_WRITE : Z := 2.
Definition PROT_EXEC : Z := 4.
Definition MAP_PRIVATE : Z := 2.
Definition MAP_FIXED : Z := 16.
Definition MAP_ANONYMOUS : Z := 32.
Definition MAP_NORESERVE : Z := 16384.
Definition MAP_POPULATE : Z := 32768.
Definition MAP_STACK : Z := 131072.
Definition MAP_FAILED : Z := 18446744073709551615.

(** The memory-mapping calls of the system. *)
Class VMem (os : Type) := {
  mmap : Z → Z → Z → Z → os → Z * os;      (** address, length, protection, flags *)
  munmap : Z → Z → os → Z * os;
  mprotect : Z → Z → Z → os → Z * os;
}.

(** ** Mapping wrappers *)

(** [if (v & bit) acc |= out]. *)
Definition or_if (v bit out acc : Z) : Z := if truthy (Z.land v bit) then Z.lor acc out else acc.

Definition mmap_flags_of (flags : Z) : Z :=
  let f := 0 in
  let f := or_if flags LTCKPT_MAP_FIXED MAP_FIXED f in
  let f := or_if flags LTCKPT_MAP_POPULATE MAP_POPULATE f in
  let f := or_if flags LTCKPT_MAP_PRIVATE MAP_PRIVATE f in
  let f := or_if flags LTCKPT_MAP_NORESERVE MAP_NORESERVE f in
  let f := or_if flags LTCKPT_MAP_STACK MAP_STACK f in
  Z.lor f MAP_ANONYMOUS.

Definition mmap_prot_of (prot : Z) : Z :=
  let p := 0 in
  let p := or_if prot LTCKPT_PROT_R PROT_READ p in
  let p := or_if prot LTCKPT_PROT_W PROT_WRITE p in
  or_if prot LTCKPT_PROT_X PROT_EXEC p.

Section Mapping.
Context {os : Type} `{vmem : VMem os}.

Definition ltckpt_mmap (addr size prot flags : Z) (o : os) : Z * os :=
  let '(mmap_ret, o) := mmap addr size (mmap_prot_of prot) (mmap_flags_of flags) o in
  (if mmap_ret =? MAP_FAILED then LTCKPT_MAP_FAILED else mmap_ret, o).

Definition ltckpt_munmap (start size : Z) (o : os) : Z * os := munmap start size o.

Definition ltckpt_mprotect (start size prot : Z) (o : os) : Z * os :=
  mprotect start size (mmap_prot_of prot) o.

(** [ltckpt_is_mapped]: try to map the page at [addr] and see where it ends up. *)
Definition ltckpt_is_mapped (addr : Z) (o : os) : Z * os :=
  let len := 4096 in
  let '(ret, o) := ltckpt_mmap addr len (Z.lor PROT_WRITE PROT_READ)
                     (Z.lor LTCKPT_MAP_PRIVATE LTCKPT_MAP_NORESERVE) o in
  let is_mapped := if ret =? addr then 0 else 1 in
  if ret =? LTCKPT_MAP_FAILED then (is_mapped, o)
  else let '(_, o) := ltckpt_munmap ret len o in (is_mapped, o).

(** [ltkcpt_ctx_get_buff]; NULL is 0.  The results of the two guard mappings are
    not looked at. *)
Definition ltkcpt_ctx_get_buff (addr len : Z) (o : os) : Z * os :=
  let flags := Z.lor MAP_PRIVATE MAP_ANONYMOUS in
  let flags := if truthy addr then Z.lor flags MAP_FIXED else flags in
  let len := if truthy (len mod PAGE_SIZE) then len - len mod PAGE_SIZE + PAGE_SIZE else len in
  let '(buff, o) := mmap addr (len + 2 * PAGE_SIZE) (Z.lor PROT_READ PROT_WRITE) flags o in
  if buff =? MAP_FAILED then (0, o) else
  let guard := Z.lor (Z.lor MAP_PRIVATE MAP_ANONYMOUS) MAP_FIXED in
  let '(_, o) := mmap buff PAGE_SIZE PROT_NONE guard o in
  let buff := buff + PAGE_SIZE in
  let '(_, o) := mmap (buff + len) PAGE_SIZE PROT_NONE guard o in
  (buff, o).

(** ** Initialisation of the undo log *)

Definition WRITELOG_START : Z := 0.
Definition WRITELOG_FLAGS : Z := 0.

(** Where the guard page of a log at [ret] is asked for. *)
Definition guard_page_addr (ret : Z) : Z := PAGE_SIZE * ((ret + WRITELOG_BYTES) / PAGE_SIZE + 1).

(** [ltckpt_init_writelog] without [LTCKPT_STKCHKLOG]. *)
Definition ltckpt_init_writelog : prog (ckpt * os) () := λ '(s, o),
  let flags := Z.lor (Z.lor LTCKPT_MAP_PRIVATE LTCKPT_MAP_NORESERVE) WRITELOG_FLAGS in
  let '(ret, o) := ltckpt_mmap WRITELOG_START WRITELOG_BYTES
                     (Z.lor LTCKPT_PROT_W LTCKPT_PROT_R) flags o in
  if ret =? LTCKPT_MAP_FAILED then Stop Panic (s, o) else
  let s := set_wl_data ret s in
  let '(ret, o) := ltckpt_mmap (guard_page_addr ret) PAGE_SIZE LTCKPT_PROT_N flags o in
  if ret =? LTCKPT_MAP_FAILED then Stop Panic (s, o) else
  Ok () (s, o).

(** The late initialisation hook: neither a MINIX VM server nor a restart. *)
Definition undolog_late_init_hook : prog (ckpt * os) () := ltckpt_init_writelog.

End Mapping.

(** ** Choice of the mechanism *)

(** The names in [LTKCPT_CHECKPOINT_CONFS_INITIALIZER], in order. *)
Definition ltckpt_confs : list string :=
  ["baseline"; "bitmap"; "fork"; "undolog"; "smmap"; "softdirty"; "mprotect"; "dune"]%string.

(** [ltckpt_conf]: the entry pointed to, or NULL. *)
Definition conf_ptr : Type := option nat.

Fixpoint conf_find (name : string) (i : nat) (l : list string) : conf_ptr :=
  match l with
  | [] => None
  | n :: l' => if String.eqb name n then Some i else conf_find name (S i) l'
  end.

Definition ltckpt_conf_setup_from_hook (name : string) : prog conf_ptr () :=
  modify (λ c, match conf_find name 0 ltckpt_confs with Some i => Some i | None => c end) ;;
  c ← gets id;
  assert (match c with Some _ => true | None => false end).

Definition ltckpt_conf_setup : prog conf_ptr () :=
  c ← gets id;
  match c with
  | None => ltckpt_conf_setup_from_hook "baseline"
  | Some _ => skip
  end.

Definition conf_name (c : conf_ptr) : option string := c ≫= λ i, ltckpt_confs !! i.

Definition ltckpt_mechanism_enabled (c : conf_ptr) : bool :=
  match conf_name c with
  | Some n => negb (String.eqb n "baseline")
  | None => false
  end.

(** [ltckpt_common_early_init]: the static flag and the context. *)
Definition ltckpt_common_early_init (getenv : string → option cstr) (name : string)
    (s : bool * ltckpt_ctx) : bool * ltckpt_ctx :=
  let '(early_init_done, c) := s in
  if early_init_done then s else (true, ltckpt_ctx_init getenv name c).

(** ** Which mappings are checkpointed *)

(** The fields of [util_proc_maps_entry_t] the decision reads. *)
Record vma := mk_vma { vm_start : Z; vm_end : Z; vm_w : Ascii.ascii; vm_name : cstr }.

Definition entry_contains (e : vma) (a : Z) : bool := (vm_start e <=? a) && (a <? vm_end e).

(** The letter of write permission in [/proc/self/maps]. *)
Definition char_w : Ascii.ascii := Ascii.ascii_of_nat 119.

(** [ltcpt_is_checkpointed_vma]; the addresses that identify the thread-local data, the
    heap and the data of the program are arguments. *)
Definition ltcpt_is_checkpointed_vma (tls_addr heap_addr data_addr : Z) (c : ltckpt_ctx) (e : vma)
    : bool :=
  if starts_with (lit "[stack") (vm_name e) || entry_contains e tls_addr
     || negb (Ascii.eqb (vm_w e) char_w) then false else
  if contains_str (lit "libltckpt") (vm_name e) then false else
  if truthy (skip_mmap c)
     && (negb (entry_contains e heap_addr) && negb (entry_contains e data_addr)) then false else
  true.

(** ** Translation of flags and protections *)

Lemma truthy_land_pow2 v k : 0 <= k → truthy (Z.land v (2 ^ k)) = Z.testbit v k.
Proof.
  intros Hk. destruct (Z.testbit v k) eqn:E.
  - apply truthy_true. intros H. assert (Z.testbit (Z.land v (2 ^ k)) k = false) as H0.
    { rewrite H. apply Z.bits_0. }
    rewrite Z.land_spec, E, Z.pow2_bits_true in H0 by lia. done.
  - apply truthy_false. apply Z.bits_inj'. intros n Hn. rewrite Z.land_spec, Z.bits_0.
    destruct (decide (n = k)) as [->|Hne]; [by rewrite E|].
    rewrite (Z.pow2_bits_false k n) by lia. apply andb_false_r.
Qed.

Lemma or_if_testbit v k j acc n :
  0 <= k → 0 <= j →
  Z.testbit (or_if v (2 ^ k) (2 ^ j) acc) n = Z.testbit acc n || (Z.testbit v k && (n =? j)).
Proof.
  intros Hk Hj. unfold or_if. rewrite truthy_land_pow2 by done.
  destruct (Z.testbit v k); [|by rewrite orb_false_r].
  rewrite Z.lor_spec. f_equal. cbn [andb]. destruct (Z.eqb_spec n j) as [->|Hne].
  - by apply Z.pow2_bits_true.
  - apply Z.pow2_bits_false. lia.
Qed.

Lemma mmap_prot_testbit prot n :
  Z.testbit (mmap_prot_of prot) n =
  (Z.testbit prot 0 && (n =? 0)) || (Z.testbit prot 1 && (n =? 1)) || (Z.testbit prot 2 && (n =? 2)).
Proof.
  unfold mmap_prot_of.
  change LTCKPT_PROT_R with (2 ^ 0). change LTCKPT_PROT_W with (2 ^ 1).
  change LTCKPT_PROT_X with (2 ^ 2). change PROT_READ with (2 ^ 0).
  change PROT_WRITE with (2 ^ 1). change PROT_EXEC with (2 ^ 2).
  rewrite !or_if_testbit, Z.bits_0 by lia. done.
Qed.

Lemma mmap_flags_testbit flags n :
  Z.testbit (mmap_flags_of flags) n =
  (Z.testbit flags 0 && (n =? 4)) || (Z.testbit flags 4 && (n =? 15)) ||
  (Z.testbit flags 1 && (n =? 1)) || (Z.testbit flags 2 && (n =? 14)) ||
  (Z.testbit flags 3 && (n =? 17)) || (n =? 5).
Proof.
  unfold mmap_flags_of.
  change LTCKPT_MAP_FIXED with (2 ^ 0). change LTCKPT_MAP_POPULATE with (2 ^ 4).
  change LTCKPT_MAP_PRIVATE with (2 ^ 1). change LTCKPT_MAP_NORESERVE with (2 ^ 2).
  change LTCKPT_MAP_STACK with (2 ^ 3). change MAP_FIXED with (2 ^ 4).
  change MAP_POPULATE with (2 ^ 15). change MAP_PRIVATE with (2 ^ 1).
  change MAP_NORESERVE with (2 ^ 14). change MAP_STACK with (2 ^ 17).
  change MAP_ANONYMOUS with (2 ^ 5).
  rewrite Z.lor_spec, !or_if_testbit, Z.bits_0 by lia. f_equal.
  destruct (Z.eqb_spec n 5) as [->|Hne]; [done|]. apply Z.pow2_bits_false. lia.
Qed.

(** ** Theorems *)

(** The wrappers pass on what was asked.  The protection handed to the system is the
    requested one restricted to read, write and execute; the flags handed to it are
    exactly the translations of the requested ones, with anonymous memory always. *)
Theorem mapping_flags_faithful (prot flags : Z) :
  mmap_prot_of prot = Z.land prot 7 ∧
  ∀ n, Z.testbit (mmap_flags_of flags) n = true ↔
    n = 5 ∨ (n = 4 ∧ truthy (Z.land flags LTCKPT_MAP_FIXED) = true) ∨
    (n = 15 ∧ truthy (Z.land flags LTCKPT_MAP_POPULATE) = true) ∨
    (n = 1 ∧ truthy (Z.land flags LTCKPT_MAP_PRIVATE) = true) ∨
    (n = 14 ∧ truthy (Z.land flags LTCKPT_MAP_NORESERVE) = true) ∨
    (n = 17 ∧ truthy (Z.land flags LTCKPT_MAP_STACK) = true).
Proof.
  split.
  - apply Z.bits_inj'. intros n Hn. rewrite mmap_prot_testbit, Z.land_spec.
    change 7 with (Z.ones 3). destruct (decide (n < 3)) as [Hlt|Hge].
    + rewrite Z.ones_spec_low by lia. rewrite andb_true_r.
      assert (n = 0 ∨ n = 1 ∨ n = 2) as [->|[->| ->]] by lia; cbn;
        rewrite ?andb_true_r, ?andb_false_r, ?orb_false_r; done.
    + rewrite Z.ones_spec_high by lia. rewrite andb_false_r.
      rewrite !(proj2 (Z.eqb_neq n _)), !andb_false_r by lia. done.
  - intros n. rewrite mmap_flags_testbit.
    change LTCKPT_MAP_FIXED with (2 ^ 0). change LTCKPT_MAP_POPULATE with (2 ^ 4).
    change LTCKPT_MAP_PRIVATE with (2 ^ 1). change LTCKPT_MAP_NORESERVE with (2 ^ 2).
    change LTCKPT_MAP_STACK with (2 ^ 3). rewrite !truthy_land_pow2 by lia.
    rewrite !orb_true_iff, !andb_true_iff, !Z.eqb_eq. tauto.
Qed.

(** What the check for a mapped page relies on of [mmap] and [munmap]: without
    [MAP_FIXED] a mapping is never placed over an existing one, and removing a fresh
    mapping restores the set of mapped pages.  [page_mapped] is the kernel's view. *)
Class VMemLaws (os : Type) `{VMem os} (page_mapped : os → Z → bool) := {
  mmap_not_over_existing a prot flags o r o' :
    Z.testbit flags 4 = false → page_mapped o a = true →
    mmap a 4096 prot flags o = (r, o') → r ≠ a;
  mmap_munmap_restores a prot flags o r o1 x o2 :
    Z.testbit flags 4 = false → mmap a 4096 prot flags o = (r, o1) → r ≠ MAP_FAILED →
    munmap r 4096 o1 = (x, o2) → ∀ p, page_mapped o2 p = page_mapped o p;
  mmap_failed_keeps a prot flags o o1 :
    mmap a 4096 prot flags o = (MAP_FAILED, o1) → ∀ p, page_mapped o1 p = page_mapped o p;
}.

(** The probe for a mapped page is sound and leaves no trace: if it reports that the
    page at an address is not mapped, it is not, and whatever it reports, the set of
    mapped pages is the same afterwards. *)
Theorem is_mapped_sound {os : Type} `{vmem : VMem os} (page_mapped : os → Z → bool)
    `{!VMemLaws os page_mapped} (a : Z) (o : os) (r : Z) (o' : os) :
  a ≠ MAP_FAILED → ltckpt_is_mapped a o = (r, o') →
  (r = 0 → page_mapped o a = false) ∧ ∀ p, page_mapped o' p = page_mapped o p.
Proof.
  intros Ha. unfold ltckpt_is_mapped, ltckpt_mmap, ltckpt_munmap.
  set (f := mmap_flags_of _). assert (Z.testbit f 4 = false) as Hf by done.
  destruct (mmap a 4096 _ f o) as [m o1] eqn:Em.
  assert (∀ z : Z, (if m =? MAP_FAILED then LTCKPT_MAP_FAILED else m) = m) as Hm.
  { intros _. destruct (Z.eqb_spec m MAP_FAILED) as [->|]; done. }
  rewrite (Hm 0). clear Hm. destruct (Z.eqb_spec m LTCKPT_MAP_FAILED) as [->|Hne].
  - destruct (Z.eqb_spec LTCKPT_MAP_FAILED a); [done|]. intros [= <- <-]. split; [done|].
    eapply mmap_failed_keeps, Em.
  - destruct (munmap m 4096 o1) as [x o2] eqn:Eu.
    destruct (Z.eqb_spec m a) as [->|]; intros [= <- <-]; (split;
      [|by eapply (mmap_munmap_restores _ _ _ _ _ _ _ _ Hf Em)]); [|done]. intros _.
    destruct (page_mapped o a) eqn:Ep; [|done].
    by destruct (mmap_not_over_existing a _ _ _ _ _ Hf Ep Em).
Qed.

(** A kernel with the pages of a list mapped: a mapping goes where it is asked if the
    page is free, and otherwise to the page above all mapped ones. *)
Definition pages : Type := list Z.
Definition page_in (o : pages) (p : Z) : bool := bool_decide (p ∈ o).
Definition fresh_page (o : pages) : Z := foldr Z.max 0 o + 4096.

#[export] Instance pages_vmem : VMem pages := {|
  mmap a len prot flags o :=
    let r := if page_in o a then fresh_page o else a in
    if r =? MAP_FAILED then (MAP_FAILED, o) else (r, r :: o);
  munmap a len o := (0, match o with [] => [] | p :: o' => if p =? a then o' else o end);
  mprotect a len prot o := (0, o)
|}.

Lemma max_elem_of (o : pages) p : p ∈ o → p <= foldr Z.max 0 o.
Proof.
  induction o as [|q o IH]; intros H; [set_solver|]. cbn.
  apply elem_of_cons in H as [->|H]; [lia|]. specialize (IH H). lia.
Qed.

#[export] Instance pages_laws : VMemLaws pages page_in.
Proof.
  split.
  - intros a prot flags o r o' _ Hp. unfold mmap. cbn. rewrite Hp. unfold page_in in Hp.
    apply bool_decide_eq_true in Hp. apply max_elem_of in Hp.
    case_match; intros [= <- <-]; unfold fresh_page in *; lia.
  - intros a prot flags o r o1 x o2 _. unfold mmap, munmap. cbn.
    case_match; intros [= <- <-]; [done|]. intros _. rewrite Z.eqb_refl. by intros [= <- <-] p.
  - intros a prot flags o o1. unfold mmap. cbn. case_match eqn:E; intros [= H]; [by subst|].
    subst. by rewrite H, Z.eqb_refl in E.
Qed.

Lemma is_mapped_sound_witness :
  page_in [4096; 8192] 12288 = false.
Proof.
  destruct (is_mapped_sound page_in 12288 [4096; 8192] 0 [4096; 8192]) as [H _].
  - discriminate.
  - vm_compute. reflexivity.
  - apply H. reflexivity.
Defined.

(** Setting up the undo log.  If the mapping of the log succeeds at a page boundary and
    the mapping of the guard page succeeds, initialisation returns with the log there;
    the guard page was asked for one page beyond the end of the log, so that the page
    right after the log stays unguarded. *)
Theorem writelog_guard_leaves_gap {os : Type} `{vmem : VMem os} (s : ckpt) (o o1 o2 : os)
    (base g : Z) :
  mmap 0 WRITELOG_BYTES 3 (mmap_flags_of 6) o = (base, o1) →
  base mod PAGE_SIZE = 0 → base ≠ MAP_FAILED →
  mmap (base + WRITELOG_BYTES + PAGE_SIZE) PAGE_SIZE 0 (mmap_flags_of 6) o1 = (g, o2) →
  g ≠ MAP_FAILED →
  ltckpt_init_writelog (s, o) = Ok () (set_wl_data base s, o2).
Proof.
  intros Hm Ha Hb Hg Hgf. unfold ltckpt_init_writelog, ltckpt_mmap.
  change (mmap_prot_of (Z.lor LTCKPT_PROT_W LTCKPT_PROT_R)) with 3.
  change (Z.lor (Z.lor LTCKPT_MAP_PRIVATE LTCKPT_MAP_NORESERVE) WRITELOG_FLAGS) with 6.
  change WRITELOG_START with 0. rewrite Hm. cbv iota beta zeta.
  rewrite (proj2 (Z.eqb_neq base MAP_FAILED)), (proj2 (Z.eqb_neq base LTCKPT_MAP_FAILED)) by done.
  assert (guard_page_addr base = base + WRITELOG_BYTES + PAGE_SIZE) as ->.
  { unfold guard_page_addr. change WRITELOG_BYTES with (167772160 * PAGE_SIZE).
    rewrite Z.div_add by done. pose proof (Z.div_mod base PAGE_SIZE). unfold PAGE_SIZE in *. lia. }
  change (mmap_prot_of LTCKPT_PROT_N) with 0. rewrite Hg. cbv iota beta.
  by rewrite (proj2 (Z.eqb_neq g MAP_FAILED)), (proj2 (Z.eqb_neq g LTCKPT_MAP_FAILED)) by done.
Qed.

Lemma writelog_guard_leaves_gap_witness :
  ∃ o, ltckpt_init_writelog (ckpt_globals (λ _, 0), [8192])
       = Ok () (set_wl_data 0 (ckpt_globals (λ _, 0)), o) ∧ page_in o WRITELOG_BYTES = false.
Proof.
  eexists. split.
  - apply (writelog_guard_leaves_gap (ckpt_globals (λ _, 0)) [8192] [0; 8192]
      [687194771456; 0; 8192] 0 687194771456); vm_compute; congruence.
  - vm_compute. reflexivity.
Defined.
