(* ===== verification/Output.v ===== *)
(** * Output and the start of the library

    [include/common/util/safeio.h] and [output.h] with the functions of [ltckpt_common.c] that use
    them: opening a file on a descriptor above those of the program, the output file of a process,
    its replacement in a forked child, and [ltckpt_common_late_init], the constructor that selects
    the mechanism, initialises the context and the output and calls the mechanism.

    The system's descriptors are the class [Fds], with their documented behaviour in [FdLaws].
    Handlers of [fork] that are registered while those of a fork run do not run in that fork. *)
From stdpp Require Import base numbers list strings gmap.
From Stdlib Require Import ZArith Lia.
From S2P Require Import Prelude Memory CString Ctx Profiling Writelog Common.

(** ** Definitions *)

(** The calls on descriptors; [fd_getfd] gives the flags or -1, [fd_dup] takes the flag
    [FD_CLOEXEC] of the new one and the smallest number allowed, [fd_stream] is [fdopen]. *)
Class Fds (os : Type) := {
  fd_open : cstr → os → Z * os;
  fd_getfd : Z → os → Z;
  fd_dup : bool → Z → Z → os → Z * os;
  fd_close : Z → os → Z * os;
  fd_stream : Z → os → bool * os;
  fd_pid : os → Z;
}.

Definition FD_CLOEXEC : Z := 1.
Definition UTIL_SAFEIO_MIN_FD : Z := 1000.
Definition STDOUT_FILENO : Z := 1.

(** The stream of the configuration: NULL, [stderr], or one on a descriptor. *)
Inductive stream := NoStream | Stderr | OnFd (fd : Z).

(** [util_output_conf_t]. *)
Record output_conf := mk_output {
  o_fp : stream; o_dir : option cstr; o_file : option cstr; o_level : Z; o_fsync : Z; o_id : Z; o_id2 : Z
}.

Definition set_fp (v : stream) (c : output_conf) : output_conf :=
  mk_output v (o_dir c) (o_file c) (o_level c) (o_fsync c) (o_id c) (o_id2 c).
Definition set_names (id : Z) (file : cstr) (level : Z) (c : output_conf) : output_conf :=
  mk_output (o_fp c) (o_dir c) (Some file) level (o_fsync c) id (o_id2 c).

Definition OUTPUT_LEVEL_NONE : Z := 0.
Definition OUTPUT_LEVEL_MAX : Z := 50.
Definition LTCKPT_OUTPUT_BASIC : Z := 1.
Definition OUTPUT_BUFF : nat := 512.

(** [util_env_parse_str]. *)
Definition util_env_parse_str (getenv : string → option cstr) (name : string) (default : cstr) : cstr :=
  match getenv name with None => default | Some v => v end.

(** [util_output_from_env]. *)
Definition util_output_from_env (getenv : string → option cstr) (c : output_conf) : output_conf :=
  let dir := default (lit "/tmp") (o_dir c) in
  let file := default (lit "app.out") (o_file c) in
  let level := if o_level c =? 0 then OUTPUT_LEVEL_MAX else o_level c in
  mk_output (o_fp c)
    (Some (util_env_parse_str getenv "LOGDIR" dir)) (Some (util_env_parse_str getenv "LOGFILE" file))
    (util_env_parse_int getenv "LOGLEVEL" level) (util_env_parse_int getenv "LOGFSYNC" (o_fsync c))
    (o_id c) (o_id2 c).

(** The name of the output file. *)
Definition output_name (c : output_conf) (dir : cstr) : cstr :=
  dir ++ lit "/" ++ default [] (o_file c) ++ lit "." ++ dec (o_id c)
    ++ (if 0 <? o_id2 c then lit "." ++ dec (o_id2 c) else []).

Section Output.
Context {os : Type} `{fds : Fds os}.

Local Abbreviation D := (prog os).

Definition fd_call {A} (f : os → A * os) : D A := λ o, let '(a, o') := f o in Ok a o'.

(** [util_safeio_get_fd_min]. *)
Definition util_safeio_get_fd_min (fd min_fd : Z) (force_new : bool) : D Z :=
  if (fd <? 0) || ((min_fd <=? fd) && negb force_new) then mret fd else
  flags ← gets (fd_getfd fd);
  if flags <? 0 then mret (-1) else
  new_fd ← fd_call (fd_dup (truthy (Z.land flags FD_CLOEXEC)) fd min_fd);
  if new_fd <? 0 then mret (-1) else
  r ← fd_call (fd_close fd);
  if r <? 0 then mret (-1) else
  fd_call (fd_open (lit "/dev/null")) ;;
  mret new_fd.

Definition util_safeio_get_fd (fd : Z) : D Z := util_safeio_get_fd_min fd UTIL_SAFEIO_MIN_FD false.

Definition util_safeio_open (path : cstr) : D Z := fd ← fd_call (fd_open path); util_safeio_get_fd fd.

(** The configuration, the handlers [ltckpt_output_atfork_child] registered for the child of a
    [fork], and the system. *)
Record out_st := mk_out { ou_conf : output_conf; ou_atfork : nat; ou_os : os }.

Local Abbreviation P := (prog out_st).

Definition conf_put (f : output_conf → output_conf) : P () :=
  modify (λ s, mk_out (f (ou_conf s)) (ou_atfork s) (ou_os s)).

Definition on_fds {A} (p : D A) : P A := λ s,
  match p (ou_os s) with
  | Ok a o => Ok a (mk_out (ou_conf s) (ou_atfork s) o)
  | Stop w o => Stop w (mk_out (ou_conf s) (ou_atfork s) o)
  end.

(** [fdopen]: NULL for a negative descriptor. *)
Definition fdopen (fd : Z) : P stream :=
  if fd <? 0 then mret NoStream else
  ok ← on_fds (fd_call (fd_stream fd));
  mret (if ok : bool then OnFd fd else NoStream).

Definition has_stream (c : output_conf) : bool := match o_fp c with NoStream => false | _ => true end.

(** [util_output_init]; the name is formatted into a buffer without a bound. *)
Definition util_output_init : P () :=
  c ← gets ou_conf;
  if o_level c =? OUTPUT_LEVEL_NONE then skip else
  match o_dir c with
  | Some dir =>
      if has_stream c then skip else
      let name := output_name c dir in
      if (OUTPUT_BUFF <=? length name)%nat then halt Undefined else
      fd ← on_fds (util_safeio_open name);
      fp ← fdopen fd;
      conf_put (set_fp fp)
  | None => skip
  end ;;
  c ← gets ou_conf;
  (if has_stream c then skip else
   fd ← on_fds (fd_call (fd_dup false STDOUT_FILENO 0));
   if fd <? 0 then halt (Exit 1) else
   fp ← fdopen fd;
   conf_put (set_fp fp)) ;;
  c ← gets ou_conf;
  if has_stream c then skip else halt Sigsegv.

(** [util_output_close_child]; [fclose] closes the descriptor. *)
Definition util_output_close_child : P () :=
  c ← gets ou_conf;
  if o_level c =? OUTPUT_LEVEL_NONE then skip else
  match o_fp c with
  | NoStream => skip
  | Stderr => conf_put (set_fp NoStream)
  | OnFd fd => on_fds (fd_call (fd_close fd)) ;; conf_put (set_fp NoStream)
  end.

(** [util_output_printf_force]: the stream that is written to. *)
Definition util_output_printf_force : P stream :=
  c ← gets ou_conf;
  (if has_stream c then skip else conf_put (set_fp Stderr)) ;;
  gets (λ s, o_fp (ou_conf s)).

(** [util_output_printf_level]. *)
Definition util_output_printf_level (level : Z) : P (option stream) :=
  c ← gets ou_conf;
  if level <=? o_level c then f ← util_output_printf_force; mret (Some f) else mret None.

Context (getenv : string → option cstr).

(** [ltckpt_output_init]. *)
Definition ltckpt_output_init : P () :=
  pid ← gets (λ s, fd_pid (ou_os s));
  conf_put (set_names pid (lit "ltckpt.out") LTCKPT_OUTPUT_BASIC) ;;
  conf_put (util_output_from_env getenv) ;;
  util_output_init ;;
  modify (λ s, mk_out (ou_conf s) (S (ou_atfork s)) (ou_os s)).

(** [ltckpt_output_atfork_child]. *)
Definition ltckpt_output_atfork_child : P () := util_output_close_child ;; ltckpt_output_init.

(** The handlers of a [fork], in the child. *)
Fixpoint run_handlers (n : nat) : P () :=
  match n with
  | O => skip
  | S n' => ltckpt_output_atfork_child ;; run_handlers n'
  end.

Definition fork_child : P () := n ← gets ou_atfork; run_handlers n.

(** The library before [main]: the configuration, the context with its flag, and the output. *)
Record lib_st := mk_lib { lb_conf : conf_ptr; lb_init : bool * ltckpt_ctx; lb_out : out_st }.

(** [ltckpt_common_late_init]; [late_init_hook] is that of a mechanism, if it has one. *)
Definition ltckpt_common_late_init (late_init_hook : string → option (prog lib_st ())) : prog lib_st () :=
  (λ s, match ltckpt_conf_setup (lb_conf s) with
        | Ok a c => Ok a (mk_lib c (lb_init s) (lb_out s))
        | Stop w c => Stop w (mk_lib c (lb_init s) (lb_out s))
        end) ;;
  name ← gets (λ s, conf_name (lb_conf s));
  match name with
  | None => halt Sigsegv
  | Some name =>
      modify (λ s, mk_lib (lb_conf s) (ltckpt_common_early_init getenv name (lb_init s)) (lb_out s)) ;;
      (λ s, match ltckpt_output_init (lb_out s) with
            | Ok a o => Ok a (mk_lib (lb_conf s) (lb_init s) o)
            | Stop w o => Stop w (mk_lib (lb_conf s) (lb_init s) o)
            end) ;;
      match late_init_hook name with Some hook => hook | None => skip end
  end.

End Output.

Arguments mk_out {os}.
Arguments ou_conf {os}.
Arguments ou_atfork {os}.
Arguments ou_os {os}.
Arguments mk_lib {os}.

(** ** Descriptors *)

(** The table of open files of a process, by descriptor. *)
Class FdLaws (os : Type) `{fds : Fds os} (files : os → gmap Z cstr) := {
  open_lowest p o fd o' :
    fd_open p o = (fd, o') →
    (fd < 0 ∧ files o' = files o) ∨
    (0 <= fd ∧ files o !! fd = None ∧ (∀ f, 0 <= f < fd → is_Some (files o !! f)) ∧ files o' = <[fd := p]> (files o));
  getfd_open fd o : is_Some (files o !! fd) → 0 <= fd_getfd fd o;
  dup_above c fd min o p n o' :
    files o !! fd = Some p → fd_dup c fd min o = (n, o') →
    (n < 0 ∧ files o' = files o) ∨ (min <= n ∧ files o !! n = None ∧ files o' = <[n := p]> (files o));
  close_open fd o r o' :
    is_Some (files o !! fd) → fd_close fd o = (r, o') → r = 0 ∧ files o' = delete fd (files o);
}.

Section Descriptors.
Context {os : Type} `{fds : Fds os} (files : os → gmap Z cstr) `{!FdLaws os files}.

(** The new descriptor is above those of the program; the file is on no other, and the place it
    was opened at is taken by [/dev/null], unless that cannot be opened; all other descriptors are
    as before. *)
Theorem safeio_open_safe path o r o' :
  util_safeio_open path o = Ok r o' → 0 <= r →
  UTIL_SAFEIO_MIN_FD <= r ∧ files o' !! r = Some path ∧ files o !! r = None ∧
  ∀ f, f ≠ r →
    files o' !! f = files o !! f ∨
    (files o !! f = None ∧ files o' !! f = Some (lit "/dev/null") ∧ ∀ g, 0 <= g < f → is_Some (files o !! g)).
Proof.
  unfold util_safeio_open, fd_call, mbind, prog_bind. destruct (fd_open path o) as [fd o1] eqn:Eo.
  unfold util_safeio_get_fd, util_safeio_get_fd_min. cbn [negb]. rewrite andb_true_r.
  destruct (open_lowest _ _ _ _ Eo) as [[Hneg Hf1]|(Hpos & Hfree & Hlow & Hf1)].
  { rewrite (proj2 (Z.ltb_lt _ _)) by done. cbn [orb]. intros [= <- <-]. lia. }
  rewrite (proj2 (Z.ltb_ge _ _)) by done. cbn [orb]. destruct (Z.leb_spec UTIL_SAFEIO_MIN_FD fd) as [Hge|Hlt].
  { intros [= <- <-] _. rewrite Hf1, lookup_insert_eq. split_and!; [done..|]. intros f Hne. left. by apply lookup_insert_ne. }
  assert (files o1 !! fd = Some path) as H1 by (rewrite Hf1; apply lookup_insert_eq).
  unfold mbind, prog_bind, gets, fd_call. pose proof (getfd_open fd o1 ltac:(by eexists)).
  rewrite (proj2 (Z.ltb_ge _ _)) by done.
  destruct (fd_dup _ fd UTIL_SAFEIO_MIN_FD o1) as [n o2] eqn:Ed.
  destruct (dup_above _ _ _ _ _ _ _ H1 Ed) as [[Hneg Hf2]|(Hmin & Hn & Hf2)].
  { rewrite (proj2 (Z.ltb_lt _ _)) by done. intros [= <- <-]. lia. }
  assert (n ≠ fd) as Hnf by (unfold UTIL_SAFEIO_MIN_FD in *; lia).
  rewrite (proj2 (Z.ltb_ge n 0)) by (unfold UTIL_SAFEIO_MIN_FD in *; lia).
  destruct (fd_close fd o2) as [x o3] eqn:Ec.
  destruct (close_open fd o2 x o3) as [-> Hf3]; [rewrite Hf2, lookup_insert_ne by done; by eexists|done|].
  change (0 <? 0) with false. cbv beta iota. destruct (fd_open (lit "/dev/null") o3) as [nf o4] eqn:En.
  intros [= <- <-] _. rewrite Hf1, lookup_insert_ne in Hn by done.
  assert (Hf3' : ∀ f, files o3 !! f = if decide (f = n) then Some path else files o !! f).
  { intros f. rewrite Hf3, Hf2, Hf1. case_decide as E; [subst f; rewrite lookup_delete_ne by done; apply lookup_insert_eq|].
    destruct (decide (f = fd)) as [->|Hne]; [by rewrite lookup_delete_eq|].
    by rewrite lookup_delete_ne, !lookup_insert_ne by done. }
  destruct (open_lowest _ _ _ _ En) as [[_ Hf4]|(Hp4 & Hfree4 & Hlow4 & Hf4)].
  - split_and!; [done|rewrite Hf4, Hf3'; by rewrite decide_True|done|].
    intros f Hne. left. rewrite Hf4, Hf3'. by rewrite decide_False.
  - assert (nf ≠ n) as Hne by (intros ->; rewrite Hf3', decide_True in Hfree4; done).
    rewrite Hf3', decide_False in Hfree4 by done.
    split_and!; [done|rewrite Hf4, lookup_insert_ne, Hf3' by done; by rewrite decide_True|done|].
    intros f Hfn. rewrite Hf4. destruct (decide (f = nf)) as [->|Hfnf].
    + right. rewrite lookup_insert_eq. split_and!; [done|done|]. intros g Hg. pose proof Hlow4 as Hlow0. specialize (Hlow4 g Hg). rewrite Hf3' in Hlow4.
      rewrite decide_False in Hlow4; [done|]. intros ->. assert (nf <= fd) as Hle; [|unfold UTIL_SAFEIO_MIN_FD in *; lia].
      destruct (decide (fd < nf)); [|lia]. assert (is_Some (files o3 !! fd)) as [y Hy] by (apply Hlow0; lia).
      rewrite Hf3', decide_False, Hfree in Hy by done. done.
    + left. rewrite lookup_insert_ne, Hf3' by done. by rewrite decide_False.
Qed.

(** When no descriptor that high is allowed, the file that was opened stays open on its low
    descriptor, and the caller is told that it failed. *)
Lemma safeio_leaks path o fd o1 o2 n :
  fd_open path o = (fd, o1) → 0 <= fd < UTIL_SAFEIO_MIN_FD → n < 0 →
  (∀ c, fd_dup c fd UTIL_SAFEIO_MIN_FD o1 = (n, o2)) →
  util_safeio_open path o = Ok (-1) o2 ∧ files o2 !! fd = Some path.
Proof.
  intros Eo Hfd Hn Ed. destruct (open_lowest _ _ _ _ Eo) as [[? _]|(_ & _ & _ & Hf1)]; [lia|].
  assert (files o1 !! fd = Some path) as H1 by (rewrite Hf1; apply lookup_insert_eq).
  split.
  - unfold util_safeio_open, util_safeio_get_fd, util_safeio_get_fd_min.
    rewrite (bind_Ok _ _ _ fd o1) by (unfold fd_call; by rewrite Eo).
    rewrite (proj2 (Z.ltb_ge fd 0)), (proj2 (Z.leb_gt _ fd)) by lia. cbn [orb andb]. rewrite bind_gets.
    rewrite (proj2 (Z.ltb_ge _ _)) by (apply getfd_open; by eexists).
    rewrite (bind_Ok _ _ _ n o2) by (unfold fd_call; by rewrite Ed). by rewrite (proj2 (Z.ltb_lt _ _)).
  - destruct (dup_above _ _ _ _ _ _ _ H1 (Ed true)) as [[_ ->]|[? _]]; [done|unfold UTIL_SAFEIO_MIN_FD in *; lia].
Qed.

End Descriptors.

(** ** Forked children *)

Section Fork.
Context {os : Type} `{fds : Fds os} (getenv : string → option cstr).

(** Only [ltckpt_output_init] registers handlers. *)
Definition same_handlers : relation out_st := λ s s', ou_atfork (os := os) s' = ou_atfork s.

#[local] Instance same_handlers_preorder : PreOrder same_handlers.
Proof. split; [by intros s|]. intros s1 s2 s3 H1 H2. unfold same_handlers in *. congruence. Qed.

Lemma keeps_on_fds {A} (p : prog os A) : keeps same_handlers (on_fds p).
Proof. intros s. unfold on_fds. by destruct (p (ou_os s)). Qed.

Lemma keeps_conf_put f : keeps same_handlers (conf_put f).
Proof. by intros s. Qed.

Hint Resolve keeps_on_fds keeps_conf_put : keeps.

Lemma keeps_fdopen fd : keeps same_handlers (fdopen fd).
Proof. unfold fdopen. auto with keeps. Qed.

Hint Resolve keeps_fdopen : keeps.

Lemma keeps_output_init : keeps same_handlers util_output_init.
Proof.
  unfold util_output_init. apply keeps_bind; [apply _|auto with keeps|]. intros c. apply keeps_if; [auto with keeps|].
  apply keeps_bind; [apply _| |auto 10 with keeps]. destruct (o_dir c); auto 10 with keeps.
Qed.

Lemma keeps_close_child : keeps same_handlers util_output_close_child.
Proof.
  unfold util_output_close_child. apply keeps_bind; [apply _|auto with keeps|]. intros c.
  apply keeps_if; [auto with keeps|]. destruct (o_fp c); auto with keeps.
Qed.

Lemma output_init_handlers s s' : ltckpt_output_init getenv s = Ok () s' → ou_atfork s' = S (ou_atfork s).
Proof.
  unfold ltckpt_output_init. rewrite bind_gets. unfold conf_put. rewrite !bind_modify.
  intros (u & s1 & H1 & H2)%bind_inv_Ok. injection H2 as <-. cbn [ou_atfork].
  match type of H1 with util_output_init ?s0 = _ => pose proof (keeps_output_init s0) as H end.
  unfold same_handlers in H. rewrite H1 in H. cbn [final ou_atfork] in H. by rewrite H.
Qed.

(** The handler registers itself again in the child: every generation of processes has twice as
    many handlers, and closes and opens its output as often. *)
Theorem fork_handlers_double (s s' : out_st) :
  fork_child getenv s = Ok () s' → ou_atfork s' = (2 * ou_atfork s)%nat.
Proof.
  unfold fork_child. rewrite bind_gets.
  assert (∀ n s1, run_handlers getenv n s1 = Ok () s' → ou_atfork s' = (n + ou_atfork s1)%nat) as H;
    [|intros E; apply H in E; lia].
  induction n as [|n IH]; intros s1; cbn [run_handlers]; [by intros [= <-]|].
  intros (u & s2 & H1 & H2)%bind_inv_Ok. apply IH in H2. unfold ltckpt_output_atfork_child in H1.
  apply bind_inv_Ok in H1 as (u' & s3 & H3 & H4). destruct u. apply output_init_handlers in H4.
  pose proof (keeps_close_child s1) as Hk. unfold same_handlers in Hk. rewrite H3 in Hk. cbn [final] in Hk. lia.
Qed.

(** The constructor: the mechanism selected before, or the baseline, has its context initialised
    unless the entry of the program did that, then the output, and then its own hook. *)
Theorem late_init_runs (hook : string → option (prog lib_st ())) c init out name out' :
  conf_name (Some (default 0%nat c)) = Some name →
  ltckpt_output_init getenv out = Ok () out' →
  ltckpt_common_late_init getenv hook (mk_lib c init out)
  = default skip (hook name)
      (mk_lib (Some (default 0%nat c)) (ltckpt_common_early_init getenv name init) out').
Proof.
  intros Hn Ho. unfold ltckpt_common_late_init.
  rewrite (bind_Ok _ _ _ () (mk_lib (Some (default 0%nat c)) init out)).
  2:{ cbn [lb_conf lb_init lb_out]. destruct c as [i|]; cbn [default]; [done|].
      unfold ltckpt_conf_setup, ltckpt_conf_setup_from_hook. rewrite bind_gets. done. }
  rewrite bind_gets. cbn [lb_conf]. rewrite Hn. rewrite bind_modify. cbn [lb_conf lb_init lb_out].
  erewrite bind_Ok; [|cbn [lb_conf lb_init lb_out]; by rewrite Ho]. by destruct (hook name).
Qed.

End Fork.

(** ** An example *)

Module Example.

(** A table of descriptors below a limit. *)
Definition LIMIT : nat := 4096.

Fixpoint find_free (n : nat) (from : Z) (t : gmap Z cstr) : Z :=
  match n with
  | O => -1
  | S n' => match t !! from with None => from | Some _ => find_free n' (from + 1) t end
  end.

Lemma find_free_spec n from t :
  0 <= from →
  find_free n from t = -1 ∨
  (from <= find_free n from t ∧ t !! find_free n from t = None ∧
   ∀ f, from <= f < find_free n from t → is_Some (t !! f)).
Proof.
  revert from. induction n as [|n IH]; intros from Hf; cbn [find_free]; [by left|].
  destruct (t !! from) eqn:E; [|right; split_and!; [lia|done|lia]].
  destruct (IH (from + 1) ltac:(lia)) as [H|(H1 & H2 & H3)]; [by left|right]. split_and!; [lia|done|].
  intros f Hf'. destruct (decide (f = from)) as [->|]; [by eexists|apply H3; lia].
Qed.

Definition place (fd : Z) (p : cstr) (t : gmap Z cstr) : Z * gmap Z cstr :=
  if fd <? 0 then (-1, t) else (fd, <[fd := p]> t).

#[local] Instance ex_fds : Fds (gmap Z cstr) := {|
  fd_open p t := place (find_free LIMIT 0 t) p t;
  fd_getfd fd t := match t !! fd with Some _ => 1 | None => -1 end;
  fd_dup _ fd min t :=
    match t !! fd with
    | Some p => if min <? 0 then (-1, t) else place (find_free LIMIT min t) p t
    | None => (-1, t)
    end;
  fd_close fd t := match t !! fd with Some _ => (0, delete fd t) | None => (-1, t) end;
  fd_stream _ t := (true, t);
  fd_pid _ := 7;
|}.

#[local] Instance ex_fd_laws : FdLaws (gmap Z cstr) id.
Proof.
  split; unfold id; cbn [fd_open fd_getfd fd_dup fd_close ex_fds]; generalize LIMIT as lim; intros lim.
  - intros p t fd t' H. unfold place in H.
    destruct (find_free_spec lim 0 t ltac:(lia)) as [E|(H1 & H2 & H3)].
    + rewrite E in H. injection H as <- <-. by left.
    + rewrite (proj2 (Z.ltb_ge _ _)) in H by done. injection H as <- <-. by right.
  - intros fd t [p ->]. lia.
  - intros c fd min t p n t' Hp H. rewrite Hp in H. destruct (Z.ltb_spec min 0).
    + injection H as <- <-. left. split; [lia|done].
    + unfold place in H. destruct (find_free_spec lim min t ltac:(lia)) as [E|(H1 & H2 & H3)].
      * rewrite E in H. injection H as <- <-. left. split; [lia|done].
      * rewrite (proj2 (Z.ltb_ge _ _)) in H by lia. injection H as <- <-. by right.
  - intros fd t r t' [p Hp] H. rewrite Hp in H. by injection H as <- <-.
Qed.

(** A daemon that has closed its standard descriptors. *)
Definition ex_env (name : string) : option cstr := None.
Definition ex_out : out_st := mk_out (mk_output NoStream None None 0 0 0 0) 0 (∅ : gmap Z cstr).

Lemma ex_output :
  match ltckpt_output_init ex_env ex_out with
  | Ok _ s => o_fp (ou_conf s) = OnFd 1000 ∧ ou_os s !! 1000 = Some (lit "/tmp/ltckpt.out.7") ∧
      ou_os s !! 0 = Some (lit "/dev/null") ∧ ou_atfork s = 1%nat
  | _ => False
  end.
Proof. vm_compute. split_and!; reflexivity. Qed.

Lemma safeio_open_safe_witness :
  match util_safeio_open (lit "/tmp/x") (∅ : gmap Z cstr) with
  | Ok r t => UTIL_SAFEIO_MIN_FD <= r ∧ t !! r = Some (lit "/tmp/x")
  | Stop _ _ => False
  end.
Proof.
  assert (returned (util_safeio_open (lit "/tmp/x") (∅ : gmap Z cstr)) = Some 1000) as R by (vm_compute; reflexivity).
  destruct (util_safeio_open (lit "/tmp/x") ∅) as [r t|] eqn:E; [|discriminate R]. injection R as ->.
  destruct (safeio_open_safe id _ _ _ _ E) as (H1 & H2 & _ & _); [lia|]. split; [exact H1|exact H2].
Defined.

End Example.
