(* ===== verification/Rcvry.v ===== *)
(** * State of the recovery library

    [rcvry_dispatch.h], [rcvry_common.h], [rcvry_util.h] and the globals of
    [rcvry_dispatch.c], [rcvry_actions.c] and [rcvry_signal.c]: per-site recovery
    information, the libcall gates, the transaction type in force, the profiling and
    auto-adaptation counters, and the libc interface recovery actions call. *)
From stdpp Require Import base numbers list functions.
From Stdlib Require Import ZArith Lia.
From S2P Require Import Prelude Memory CString Ctx Profiling Writelog.

(** ** Constants *)

Definition RCVRY_E_FAIL : Z := -1.
Definition RCVRY_E_OK : Z := 0.
Definition RCVRY_TSX_RA_SW_FAULT : Z := 1.
Definition RCVRY_TSX_RA_SW_OK : Z := 2.

Definition RCVRY_MAX_LIBCALL_SITES : Z := 18196.
Definition RCVRY_LIBCALL_GATE_OPEN : Z := 1.
Definition RCVRY_LIBCALL_GATE_CLOSE : Z := 0.
Definition RCVRY_ACTIONS_MAX_ARGS : Z := 6.

Definition SIGSEGV : Z := 11.
Definition SIGUSR1 : Z := 10.
Definition EACCES : Z := 13.
Definition ENOMEM : Z := 12.

(** ** Recovery types *)

Inductive rcvry_type_t :=
  | RCVRY_TYPE_INVALID
  | RCVRY_TYPE_DEFAULT
  | RCVRY_TYPE_NOOP
  | RCVRY_TYPE_SET_RET_ERRNO
  | RCVRY_TYPE_SET_RET_ERRNO_EACCES
  | RCVRY_TYPE_SET_RET_ERRNO_ENOMEM
  | RCVRY_TYPE_SET_RET_ERRNO_ENOSPC
  | RCVRY_TYPE_SET_RET_ERRNO_EBADF
  | RCVRY_TYPE_SET_RET_ERRNO_EINVAL
  | RCVRY_TYPE_SET_RET_ERRNO_EFAULT
  | RCVRY_TYPE_SET_RET_ERRNO_EMFILE
  | RCVRY_TYPE_SET_RET_ERRNO_ZSTREAM_ERROR
  | RCVRY_TYPE_SET_RET_NULL_ERRNO
  | RCVRY_TYPE_SET_RET_NULL_ERRNO_ENOMEM
  | RCVRY_TYPE_SET_RET_NULL_ERRNO_EBADF
  | RCVRY_TYPE_HW_TSX
  | RCVRY_TYPE_UNDO_MALLOC
  | RCVRY_TYPE_UNDO_MEMALIGN
  | RCVRY_TYPE_UNDO_REALLOC
  | RCVRY_TYPE_UNDO_SETLOCALE
  | RCVRY_TYPE_CLOSE_SOCKET
  | RCVRY_TYPE_CLOSE_RET_NULL
  | RCVRY_TYPE_CLOSE
  | RCVRY_TYPE_DLCLOSE
  | RCVRY_TYPE_UNDO_FORK
  | RCVRY_TYPE_UNDO_ADDRINFO
  | RCVRY_TYPE_UNDO_MKDIR
  | RCVRY_TYPE_UNDO_MMAP
  | RCVRY_TYPE_UNDO_PTHRDMUTX_INIT
  | RCVRY_TYPE_UNDO_PTHRDMUTX_LOCK
  | RCVRY_TYPE_CKPT_BUFF_PREAD
  | RCVRY_TYPE_FAIL.

#[export] Instance rcvry_type_eq_dec : EqDecision rcvry_type_t.
Proof. solve_decision. Defined.

(** The functions [rcvry_map_actions] installs. *)
Inductive rcvry_action :=
  | rcvry_ra_fail
  | rcvry_ra_noop
  | rcvry_ra_set_ret_errno
  | rcvry_ra_undo_malloc
  | rcvry_ra_undo_memalign
  | rcvry_ra_undo_realloc
  | rcvry_ra_close_socket
  | rcvry_ra_close
  | rcvry_ra_dlclose
  | rcvry_ra_undo_fork
  | rcvry_ra_undo_addrinfo
  | rcvry_ra_undo_mkdir
  | rcvry_ra_undo_mmap
  | rcvry_ra_undo_pthread_mutex_init
  | rcvry_ra_undo_pthread_mutex_lock.

Inductive rcvry_child_state_t :=
  | RCVRY_CHILD_EXIT_OK
  | RCVRY_CHILD_ERROR
  | RCVRY_CHILD_STARTED
  | RCVRY_CHILD_EXIT_FAULTY
  | RCVRY_CHILD_INVALID.

#[export] Instance rcvry_child_state_eq_dec : EqDecision rcvry_child_state_t.
Proof. solve_decision. Defined.

Definition rcvry_child_state_val (c : rcvry_child_state_t) : Z :=
  match c with
  | RCVRY_CHILD_EXIT_OK => 0
  | RCVRY_CHILD_ERROR => 1
  | RCVRY_CHILD_STARTED => 2
  | RCVRY_CHILD_EXIT_FAULTY => 3
  | RCVRY_CHILD_INVALID => 4
  end.

(** ** Profiling counters *)

(** The [uint32_t] fields of [rcvry_prof_t]; a profile maps each to its value. *)
Inductive prof_counter :=
  | num_hits
  | num_hits_tsx
  | num_hits_ckpt
  | num_rcvry_success__switchtxtype
  | num_rcvry_success__errpath
  | num_rcvry_successes
  | num_hits_rcvry_branch
  | libcalls__protected
  | libcalls__skipped_nonfaultable
  | libcalls__skipped_nousers
  | num_rcvry_ra__noop
  | num_rcvry_ra__fail
  | num_rcvry_ra__set_ret_errno
  | num_rcvry_ra__undo_malloc
  | num_rcvry_ra__undo_memalign
  | num_rcvry_ra__undo_realloc
  | num_rcvry_ra__close_socket
  | num_rcvry_ra__close
  | num_rcvry_ra__dlclose
  | num_rcvry_ra__undo_fork
  | num_rcvry_ra__undo_addrinfo
  | num_rcvry_ra__undo_mkdir
  | num_rcvry_ra__undo_mmap
  | num_rcvry_ra__undo_pthreadmtx_init
  | num_rcvry_ra__undo_pthreadmtx_lock
  | num_rcvry_ra__delayed_free.

#[export] Instance prof_counter_eq_dec : EqDecision prof_counter.
Proof. solve_decision. Defined.

Definition rcvry_prof_t : Type := prof_counter → Z.

Definition prof_inc (c : prof_counter) (p : rcvry_prof_t) : rcvry_prof_t :=
  λ c', if decide (c' = c) then u32 (p c + 1) else p c'.

(** ** Per-site information *)

(** [rcvry_info_t], with the fields of [rcvry_fi_t] inlined. *)
Record rcvry_info_t := mk_info {
  ltckpt_type : ltckpt_type_t;
  rcvry_type : rcvry_type_t;
  argc : Z;
  argv : list Z;  (** at most [RCVRY_ACTIONS_MAX_ARGS] pointers *)
  rcvry_prof : rcvry_prof_t;
  fault_probability : Z;
  fi_num_hits : Z;
  sample_count : Z;
  num_tsx_hits : Z;
  num_tsx_fails : Z;
}.

Definition set_ltckpt_type (v : ltckpt_type_t) (s : rcvry_info_t) : rcvry_info_t :=
  mk_info v (rcvry_type s) (argc s) (argv s) (rcvry_prof s) (fault_probability s)
    (fi_num_hits s) (sample_count s) (num_tsx_hits s) (num_tsx_fails s).
Definition set_rcvry_type (v : rcvry_type_t) (s : rcvry_info_t) : rcvry_info_t :=
  mk_info (ltckpt_type s) v (argc s) (argv s) (rcvry_prof s) (fault_probability s)
    (fi_num_hits s) (sample_count s) (num_tsx_hits s) (num_tsx_fails s).
Definition set_argc (v : Z) (s : rcvry_info_t) : rcvry_info_t :=
  mk_info (ltckpt_type s) (rcvry_type s) v (argv s) (rcvry_prof s) (fault_probability s)
    (fi_num_hits s) (sample_count s) (num_tsx_hits s) (num_tsx_fails s).
Definition set_argv (v : list Z) (s : rcvry_info_t) : rcvry_info_t :=
  mk_info (ltckpt_type s) (rcvry_type s) (argc s) v (rcvry_prof s) (fault_probability s)
    (fi_num_hits s) (sample_count s) (num_tsx_hits s) (num_tsx_fails s).
Definition set_rcvry_prof (v : rcvry_prof_t) (s : rcvry_info_t) : rcvry_info_t :=
  mk_info (ltckpt_type s) (rcvry_type s) (argc s) (argv s) v (fault_probability s)
    (fi_num_hits s) (sample_count s) (num_tsx_hits s) (num_tsx_fails s).
Definition set_fault_probability (v : Z) (s : rcvry_info_t) : rcvry_info_t :=
  mk_info (ltckpt_type s) (rcvry_type s) (argc s) (argv s) (rcvry_prof s) v (fi_num_hits s)
    (sample_count s) (num_tsx_hits s) (num_tsx_fails s).
Definition set_fi_num_hits (v : Z) (s : rcvry_info_t) : rcvry_info_t :=
  mk_info (ltckpt_type s) (rcvry_type s) (argc s) (argv s) (rcvry_prof s)
    (fault_probability s) v (sample_count s) (num_tsx_hits s) (num_tsx_fails s).
Definition set_sample_count (v : Z) (s : rcvry_info_t) : rcvry_info_t :=
  mk_info (ltckpt_type s) (rcvry_type s) (argc s) (argv s) (rcvry_prof s) (fault_probability s)
    (fi_num_hits s) v (num_tsx_hits s) (num_tsx_fails s).
Definition set_num_tsx_hits (v : Z) (s : rcvry_info_t) : rcvry_info_t :=
  mk_info (ltckpt_type s) (rcvry_type s) (argc s) (argv s) (rcvry_prof s) (fault_probability s)
    (fi_num_hits s) (sample_count s) v (num_tsx_fails s).
Definition set_num_tsx_fails (v : Z) (s : rcvry_info_t) : rcvry_info_t :=
  mk_info (ltckpt_type s) (rcvry_type s) (argc s) (argv s) (rcvry_prof s) (fault_probability s)
    (fi_num_hits s) (sample_count s) (num_tsx_hits s) v.

Definition info0 : rcvry_info_t :=
  mk_info LTCKPT_TYPE_INVALID RCVRY_TYPE_INVALID 0 [] (λ _, 0) 0 0 0 0 0.

(** The globals and statics of the library. *)
Record rcvry := mk_rcvry {
  gates : Z → Z;  (** [rcvry_libcall_gates] *)
  info : Z → rcvry_info_t;  (** [rcvry_info] *)
  max_site_id : Z;  (** [rcvry_libcall_max_site_id] *)
  current_site_id : Z;  (** [rcvry_current_site_id] *)
  current_tx_type : Z;  (** [rcvry_current_tx_type] *)
  just_noop_for_tsx : Z;
  dispatched_action : rcvry_type_t;  (** [rcvry_dispatched_action] *)
  actions_map : rcvry_type_t → option rcvry_action;  (** NULL as [None] *)
  return_value : Z;  (** [rcvry_return_value] *)
  return_addr : Z;  (** [rcvry_return_addr] *)
  child_state : rcvry_child_state_t;
  freeList : Z → Z;
  freeListPos : Z;
  num_delayed_free_calls : Z;
  auto_adapt_sample_size : Z;
  auto_adapt_threshold : Z;
  auto_adapt_scale : Z;
  prev_site_id : Z;  (** static of [rcvry_signal_action] *)
  repeat_count : Z;  (** static of [rcvry_signal_action] *)
}.

Definition set_gates (v : Z → Z) (s : rcvry) : rcvry :=
  mk_rcvry v (info s) (max_site_id s) (current_site_id s) (current_tx_type s)
    (just_noop_for_tsx s) (dispatched_action s) (actions_map s) (return_value s) (return_addr s)
    (child_state s) (freeList s) (freeListPos s) (num_delayed_free_calls s)
    (auto_adapt_sample_size s) (auto_adapt_threshold s) (auto_adapt_scale s) (prev_site_id s)
    (repeat_count s).
Definition set_info (v : Z → rcvry_info_t) (s : rcvry) : rcvry :=
  mk_rcvry (gates s) v (max_site_id s) (current_site_id s) (current_tx_type s)
    (just_noop_for_tsx s) (dispatched_action s) (actions_map s) (return_value s) (return_addr s)
    (child_state s) (freeList s) (freeListPos s) (num_delayed_free_calls s)
    (auto_adapt_sample_size s) (auto_adapt_threshold s) (auto_adapt_scale s) (prev_site_id s)
    (repeat_count s).
Definition set_max_site_id (v : Z) (s : rcvry) : rcvry :=
  mk_rcvry (gates s) (info s) v (current_site_id s) (current_tx_type s) (just_noop_for_tsx s)
    (dispatched_action s) (actions_map s) (return_value s) (return_addr s) (child_state s)
    (freeList s) (freeListPos s) (num_delayed_free_calls s) (auto_adapt_sample_size s)
    (auto_adapt_threshold s) (auto_adapt_scale s) (prev_site_id s) (repeat_count s).
Definition set_current_site_id (v : Z) (s : rcvry) : rcvry :=
  mk_rcvry (gates s) (info s) (max_site_id s) v (current_tx_type s) (just_noop_for_tsx s)
    (dispatched_action s) (actions_map s) (return_value s) (return_addr s) (child_state s)
    (freeList s) (freeListPos s) (num_delayed_free_calls s) (auto_adapt_sample_size s)
    (auto_adapt_threshold s) (auto_adapt_scale s) (prev_site_id s) (repeat_count s).
Definition set_current_tx_type (v : Z) (s : rcvry) : rcvry :=
  mk_rcvry (gates s) (info s) (max_site_id s) (current_site_id s) v (just_noop_for_tsx s)
    (dispatched_action s) (actions_map s) (return_value s) (return_addr s) (child_state s)
    (freeList s) (freeListPos s) (num_delayed_free_calls s) (auto_adapt_sample_size s)
    (auto_adapt_threshold s) (auto_adapt_scale s) (prev_site_id s) (repeat_count s).
Definition set_just_noop_for_tsx (v : Z) (s : rcvry) : rcvry :=
  mk_rcvry (gates s) (info s) (max_site_id s) (current_site_id s) (current_tx_type s) v
    (dispatched_action s) (actions_map s) (return_value s) (return_addr s) (child_state s)
    (freeList s) (freeListPos s) (num_delayed_free_calls s) (auto_adapt_sample_size s)
    (auto_adapt_threshold s) (auto_adapt_scale s) (prev_site_id s) (repeat_count s).
Definition set_dispatched_action (v : rcvry_type_t) (s : rcvry) : rcvry :=
  mk_rcvry (gates s) (info s) (max_site_id s) (current_site_id s) (current_tx_type s)
    (just_noop_for_tsx s) v (actions_map s) (return_value s) (return_addr s) (child_state s)
    (freeList s) (freeListPos s) (num_delayed_free_calls s) (auto_adapt_sample_size s)
    (auto_adapt_threshold s) (auto_adapt_scale s) (prev_site_id s) (repeat_count s).
Definition set_actions_map (v : rcvry_type_t → option rcvry_action) (s : rcvry) : rcvry :=
  mk_rcvry (gates s) (info s) (max_site_id s) (current_site_id s) (current_tx_type s)
    (just_noop_for_tsx s) (dispatched_action s) v (return_value s) (return_addr s)
    (child_state s) (freeList s) (freeListPos s) (num_delayed_free_calls s)
    (auto_adapt_sample_size s) (auto_adapt_threshold s) (auto_adapt_scale s) (prev_site_id s)
    (repeat_count s).
Definition set_return_value (v : Z) (s : rcvry) : rcvry :=
  mk_rcvry (gates s) (info s) (max_site_id s) (current_site_id s) (current_tx_type s)
    (just_noop_for_tsx s) (dispatched_action s) (actions_map s) v (return_addr s)
    (child_state s) (freeList s) (freeListPos s) (num_delayed_free_calls s)
    (auto_adapt_sample_size s) (auto_adapt_threshold s) (auto_adapt_scale s) (prev_site_id s)
    (repeat_count s).
Definition set_return_addr (v : Z) (s : rcvry) : rcvry :=
  mk_rcvry (gates s) (info s) (max_site_id s) (current_site_id s) (current_tx_type s)
    (just_noop_for_tsx s) (dispatched_action s) (actions_map s) (return_value s) v
    (child_state s) (freeList s) (freeListPos s) (num_delayed_free_calls s)
    (auto_adapt_sample_size s) (auto_adapt_threshold s) (auto_adapt_scale s) (prev_site_id s)
    (repeat_count s).
Definition set_child_state (v : rcvry_child_state_t) (s : rcvry) : rcvry :=
  mk_rcvry (gates s) (info s) (max_site_id s) (current_site_id s) (current_tx_type s)
    (just_noop_for_tsx s) (dispatched_action s) (actions_map s) (return_value s)
    (return_addr s) v (freeList s) (freeListPos s) (num_delayed_free_calls s)
    (auto_adapt_sample_size s) (auto_adapt_threshold s) (auto_adapt_scale s) (prev_site_id s)
    (repeat_count s).
Definition set_freeList (v : Z → Z) (s : rcvry) : rcvry :=
  mk_rcvry (gates s) (info s) (max_site_id s) (current_site_id s) (current_tx_type s)
    (just_noop_for_tsx s) (dispatched_action s) (actions_map s) (return_value s) (return_addr s)
    (child_state s) v (freeListPos s) (num_delayed_free_calls s) (auto_adapt_sample_size s)
    (auto_adapt_threshold s) (auto_adapt_scale s) (prev_site_id s) (repeat_count s).
Definition set_freeListPos (v : Z) (s : rcvry) : rcvry :=
  mk_rcvry (gates s) (info s) (max_site_id s) (current_site_id s) (current_tx_type s)
    (just_noop_for_tsx s) (dispatched_action s) (actions_map s) (return_value s) (return_addr s)
    (child_state s) (freeList s) v (num_delayed_free_calls s) (auto_adapt_sample_size s)
    (auto_adapt_threshold s) (auto_adapt_scale s) (prev_site_id s) (repeat_count s).
Definition set_num_delayed_free_calls (v : Z) (s : rcvry) : rcvry :=
  mk_rcvry (gates s) (info s) (max_site_id s) (current_site_id s) (current_tx_type s)
    (just_noop_for_tsx s) (dispatched_action s) (actions_map s) (return_value s) (return_addr s)
    (child_state s) (freeList s) (freeListPos s) v (auto_adapt_sample_size s)
    (auto_adapt_threshold s) (auto_adapt_scale s) (prev_site_id s) (repeat_count s).
Definition set_auto_adapt_sample_size (v : Z) (s : rcvry) : rcvry :=
  mk_rcvry (gates s) (info s) (max_site_id s) (current_site_id s) (current_tx_type s)
    (just_noop_for_tsx s) (dispatched_action s) (actions_map s) (return_value s) (return_addr s)
    (child_state s) (freeList s) (freeListPos s) (num_delayed_free_calls s) v
    (auto_adapt_threshold s) (auto_adapt_scale s) (prev_site_id s) (repeat_count s).
Definition set_auto_adapt_threshold (v : Z) (s : rcvry) : rcvry :=
  mk_rcvry (gates s) (info s) (max_site_id s) (current_site_id s) (current_tx_type s)
    (just_noop_for_tsx s) (dispatched_action s) (actions_map s) (return_value s) (return_addr s)
    (child_state s) (freeList s) (freeListPos s) (num_delayed_free_calls s)
    (auto_adapt_sample_size s) v (auto_adapt_scale s) (prev_site_id s) (repeat_count s).
Definition set_auto_adapt_scale (v : Z) (s : rcvry) : rcvry :=
  mk_rcvry (gates s) (info s) (max_site_id s) (current_site_id s) (current_tx_type s)
    (just_noop_for_tsx s) (dispatched_action s) (actions_map s) (return_value s) (return_addr s)
    (child_state s) (freeList s) (freeListPos s) (num_delayed_free_calls s)
    (auto_adapt_sample_size s) (auto_adapt_threshold s) v (prev_site_id s) (repeat_count s).
Definition set_prev_site_id (v : Z) (s : rcvry) : rcvry :=
  mk_rcvry (gates s) (info s) (max_site_id s) (current_site_id s) (current_tx_type s)
    (just_noop_for_tsx s) (dispatched_action s) (actions_map s) (return_value s) (return_addr s)
    (child_state s) (freeList s) (freeListPos s) (num_delayed_free_calls s)
    (auto_adapt_sample_size s) (auto_adapt_threshold s) (auto_adapt_scale s) v (repeat_count s).
Definition set_repeat_count (v : Z) (s : rcvry) : rcvry :=
  mk_rcvry (gates s) (info s) (max_site_id s) (current_site_id s) (current_tx_type s)
    (just_noop_for_tsx s) (dispatched_action s) (actions_map s) (return_value s) (return_addr s)
    (child_state s) (freeList s) (freeListPos s) (num_delayed_free_calls s)
    (auto_adapt_sample_size s) (auto_adapt_threshold s) (auto_adapt_scale s) (prev_site_id s) v.

(** The globals before the constructors run.  The initialiser of the gates gives the
    first one only. *)
Definition rcvry_globals `{cfg : Config} : rcvry :=
  mk_rcvry (λ i, if i =? 0 then ltckpt_type_val LTCKPT_TYPE_TSX else 0) (λ _, info0) 0 0
    (ltckpt_type_val (if RCVRY_CKPT_DEFAULT_TO_UNDOLOG then LTCKPT_TYPE_UNDOLOG
                      else LTCKPT_TYPE_TSX))
    0 RCVRY_TYPE_INVALID (λ _, None) 0 0 RCVRY_CHILD_INVALID (λ _, 0) (-1) 0 0 0 1 0 0.

(** ** The process *)

(** A process linked with both libraries. *)
Record world (os : Type) := mk_world {
  wck : ckpt;  (** the checkpointing library and memory *)
  wrc : rcvry;  (** the recovery library *)
  werrno : Z;
  wos : os;  (** the kernel and the allocator *)
}.
#[global] Arguments mk_world {os}.
#[global] Arguments wck {os}.
#[global] Arguments wrc {os}.
#[global] Arguments werrno {os}.
#[global] Arguments wos {os}.

Section World.
Context {os : Type}.

Definition set_wck (v : ckpt) (s : world os) : world os :=
  mk_world v (wrc s) (werrno s) (wos s).
Definition set_wrc (v : rcvry) (s : world os) : world os :=
  mk_world (wck s) v (werrno s) (wos s).
Definition set_werrno (v : Z) (s : world os) : world os :=
  mk_world (wck s) (wrc s) v (wos s).
Definition set_wos (v : os) (s : world os) : world os :=
  mk_world (wck s) (wrc s) (werrno s) v.

Definition on_rc (f : rcvry → rcvry) (w : world os) : world os := set_wrc (f (wrc w)) w.
Definition on_ck (f : ckpt → ckpt) (w : world os) : world os := set_wck (f (wck w)) w.

(** A program of the checkpointing library run by the process. *)
Definition lift_ck {A} (p : prog ckpt A) : prog (world os) A := λ w,
  match p (wck w) with
  | Ok a c => Ok a (set_wck c w)
  | Stop y c => Stop y (set_wck c w)
  end.

(** The memory of the process. *)
Definition wmem (w : world os) : mem := cmem (wck w).
Definition set_wmem (m : mem) (w : world os) : world os := on_ck (set_cmem m) w.

Definition site (w : world os) : Z := current_site_id (wrc w).

End World.

(** ** Updates of the current site *)

Definition cur_info (r : rcvry) : rcvry_info_t := info r (current_site_id r).

Definition upd_info_at (i : Z) (f : rcvry_info_t → rcvry_info_t) (r : rcvry) : rcvry :=
  set_info (upd (info r) i (f (info r i))) r.

Definition upd_cur_info (f : rcvry_info_t → rcvry_info_t) (r : rcvry) : rcvry :=
  upd_info_at (current_site_id r) f r.

(** [rcvry_libcall_gates[rcvry_current_site_id] = v]. *)
Definition set_cur_gate (v : Z) (r : rcvry) : rcvry :=
  set_gates (upd (gates r) (current_site_id r) v) r.

Definition prof_inc_at (i : Z) (c : prof_counter) (r : rcvry) : rcvry :=
  upd_info_at i (λ x, set_rcvry_prof (prof_inc c (rcvry_prof x)) x) r.

Section Counters.
Context `{cfg : Config}.

(** [rcvry_info[rcvry_current_site_id].rcvry_prof.c++] under
    [#ifdef RCVRY_WINDOW_PROFILING]. *)
Definition prof_count (c : prof_counter) (r : rcvry) : rcvry :=
  if RCVRY_WINDOW_PROFILING then prof_inc_at (current_site_id r) c r else r.

(** [RCVRY_CURR_TX_TYPE = t] where [rinfo] is the current site. *)
Definition set_curr_tx_type (t : ltckpt_type_t) (r : rcvry) : rcvry :=
  if RCVRY_DYNAMIC_SWITCH then set_current_tx_type (ltckpt_type_val t) r
  else upd_cur_info (set_ltckpt_type t) r.

(** The value of [RCVRY_CURR_TX_TYPE]. *)
Definition curr_tx_type (r : rcvry) : Z :=
  if RCVRY_DYNAMIC_SWITCH then current_tx_type r
  else ltckpt_type_val (ltckpt_type (cur_info r)).

End Counters.

(** ** The libc interface *)

(** The calls recovery actions make, with their arguments. *)
Inductive libcall :=
  | C_free (p : Z)
  | C_close (fd : Z)
  | C_dlclose (h : Z)
  | C_waitpid (pid options : Z)
  | C_freeaddrinfo (p : Z)
  | C_rmdir (path : Z)
  | C_munmap (a len : Z)
  | C_pthread_mutex_destroy (m : Z)
  | C_pthread_mutex_unlock (m : Z)
  | C_clone
  | C_sigprocmask_unblock (set : Z).  (** signal [n] is bit [n - 1] *)

(** What the library needs of the system: each call yields its return value, the
    memory of the process after it (the calls that release blocks, mappings and
    mutexes write to it) and the error number it leaves; [waitpid] yields the status
    of the child.  Nothing is assumed of any of them. *)
Class LibC (os : Type) := {
  libc_call : libcall → mem → os → Z * os;
  libc_mem : libcall → mem → os → mem;
  libc_errno : libcall → mem → os → Z → Z;
  libc_wait_status : os → Z;
}.

(** What the hooks need of the processor: the status of an attempt to begin a
    hardware transaction ([_XBEGIN_STARTED], or the reason of an abort, at once or
    after the code that follows ran and was undone), whether a transaction is open,
    and its end. *)
Class Tsx (os : Type) := {
  xbegin : os → Z * os;
  xtest : os → bool;
  xend : os → os;
}.

(** A system that records the calls it gets and lets them all succeed except those
    listed (which leave EINVAL); a block that is released is linked to the list of free
    blocks, the pid of a clone is fixed, and attempts to begin a transaction get the
    listed statuses in turn. *)
Record trace_os := mk_trace_os {
  calls : list libcall;
  failing : list libcall;
  wstatus : Z;
  xstatus : list Z;
  in_tx : bool;
}.

#[export] Instance libcall_eq_dec : EqDecision libcall.
Proof. solve_decision. Defined.

#[export] Instance trace_libc : LibC trace_os := {|
  libc_call c _ o :=
    let o' := mk_trace_os (calls o ++ [c]) (failing o) (wstatus o) (xstatus o) (in_tx o) in
    if bool_decide (c ∈ failing o) then (-1, o')
    else (match c with C_clone => 4242 | C_waitpid p _ => p | _ => 0 end, o');
  libc_mem c m _ :=
    match c with
    | C_free p => store_u64 m p 4096
    | C_freeaddrinfo p => store_u64 m p 4096
    | C_pthread_mutex_destroy p => store_u32 m p (2 ^ 32 - 1)
    | C_pthread_mutex_unlock p => store_u32 m p 0
    | _ => m
    end;
  libc_errno c _ o e := if bool_decide (c ∈ failing o) then 22 else e;
  libc_wait_status := wstatus
|}.

#[export] Instance trace_tsx : Tsx trace_os := {|
  xbegin o :=
    match xstatus o with
    | [] => (-1, mk_trace_os (calls o) (failing o) (wstatus o) [] true)
    | s :: ss => (s, mk_trace_os (calls o) (failing o) (wstatus o) ss (s =? -1))
    end;
  xtest := in_tx;
  xend o := mk_trace_os (calls o) (failing o) (wstatus o) (xstatus o) false
|}.

(** The state after a call. *)
Definition called {os} `{LibC os} (c : libcall) (w : world os) : world os :=
  set_wos (libc_call c (wmem w) (wos w)).2
    (set_werrno (libc_errno c (wmem w) (wos w) (werrno w))
      (set_wmem (libc_mem c (wmem w) (wos w)) w)).

Definition libc {os} `{LibC os} (c : libcall) : prog (world os) Z := λ w,
  Ok (libc_call c (wmem w) (wos w)).1 (called c w).
