(* ===== verification/RcvryActions.v ===== *)
(** * Recovery actions

    [rcvry_actions.c]: what is done to undo a library call and to make it appear to
    have failed, the table that maps recovery types to these actions, the check for
    a software fault, and delayed deallocation. *)
From stdpp Require Import base numbers list functions relations.
From Stdlib Require Import ZArith Lia.
From S2P Require Import Prelude Memory Ctx Profiling Writelog Rcvry.

Section Actions.
Context `{cfg : Config} {os : Type} `{libc_os : LibC os}.

Abbreviation P := (prog (world os)).

(** ** Prologue and epilogue *)

Definition operate_libcall_gate (r : rcvry) : rcvry :=
  if RCVRY_CLOSE_GATE_AFTER then set_cur_gate RCVRY_LIBCALL_GATE_CLOSE r
  else set_cur_gate (current_tx_type r) r.

(** [RCVRY_RA_PROLOGUE]: the argument vector, once its length is checked. *)
Definition RCVRY_RA_PROLOGUE (n : Z) : P (list Z) :=
  i ← gets (λ w, cur_info (wrc w));
  assert (argc i =? n) ;;
  mret (argv i).

(** [argv[i]]; an index the vector does not have is outside the array. *)
Definition arg (args : list Z) (i : nat) : P Z :=
  match args !! i with
  | Some v => mret v
  | None => halt Undefined
  end.

(** A pointer read through [p]. *)
Definition deref_ptr (p : Z) : P Z :=
  if p =? 0 then halt Sigsegv else gets (λ w, load_u64 (wmem w) p).

(** An [int] read through [p]. *)
Definition deref_int (p : Z) : P Z :=
  if p =? 0 then halt Sigsegv else gets (λ w, s32 (load_u32 (wmem w) p)).

(** [RCVRY_RA_EPILOGUE]: the value the library call is to return is left in
    [rcvry_return_value] and at [rcvry_return_addr]. *)
Definition RCVRY_RA_EPILOGUE (ret : Z) : P Z :=
  modify (on_rc (set_return_value (u64 ret))) ;;
  modify (on_rc operate_libcall_gate) ;;
  p ← gets (λ w, return_addr (wrc w));
  (if p =? 0 then halt Sigsegv
   else modify (λ w, set_wmem (store_u32 (wmem w) p (return_value (wrc w))) w)) ;;
  mret RCVRY_E_OK.

Definition RCVRY_RA_EPILOGUE_ERRNO (ret err : Z) : P Z :=
  modify (set_werrno err) ;; RCVRY_RA_EPILOGUE ret.

Definition count (c : prof_counter) : P () := modify (on_rc (prof_count c)).

(** ** Actions *)

Definition run_ra_noop : P Z :=
  count num_rcvry_ra__noop ;;
  modify (on_rc operate_libcall_gate) ;;
  RCVRY_RA_EPILOGUE (-1).

Definition run_ra_fail : P Z :=
  count num_rcvry_ra__fail ;;
  modify (on_rc operate_libcall_gate) ;;
  mret RCVRY_E_FAIL.

Definition run_ra_set_ret_errno : P Z :=
  count num_rcvry_ra__set_ret_errno ;;
  args ← RCVRY_RA_PROLOGUE 2;
  a0 ← arg args 0;
  RCVRY_RA_EPILOGUE_ERRNO (s32 a0) EACCES.

(** The deallocation both allocation actions perform on [argv[0]]. *)
Definition free_through (a0 : Z) : P () :=
  if a0 =? 0 then skip else
  p ← deref_ptr a0;
  if p =? 0 then skip else libc (C_free p) ;; skip.

Definition run_ra_undo_malloc : P Z :=
  count num_rcvry_ra__undo_malloc ;;
  args ← RCVRY_RA_PROLOGUE 1;
  a0 ← arg args 0;
  free_through a0 ;;
  RCVRY_RA_EPILOGUE_ERRNO 0 ENOMEM.

Definition run_ra_undo_memalign : P Z :=
  count num_rcvry_ra__undo_memalign ;;
  args ← RCVRY_RA_PROLOGUE 1;
  a0 ← arg args 0;
  free_through a0 ;;
  RCVRY_RA_EPILOGUE ENOMEM.

(** Only a local is assigned before the epilogue. *)
Definition run_ra_undo_realloc : P Z :=
  count num_rcvry_ra__undo_memalign ;;
  args ← RCVRY_RA_PROLOGUE 2;
  a0 ← arg args 0;
  a1 ← arg args 1;
  RCVRY_RA_EPILOGUE 0.

Definition run_ra_close_socket : P Z :=
  count num_rcvry_ra__close_socket ;;
  args ← RCVRY_RA_PROLOGUE 3;
  a0 ← arg args 0;
  a1 ← arg args 1;
  let fd := s32 a0 in
  let set_errno := s32 a1 in
  assert (0 <? fd) ;;
  r ← libc (C_close fd);
  if r =? -1 then mret RCVRY_E_FAIL
  else RCVRY_RA_EPILOGUE_ERRNO (-1) set_errno.

Definition run_ra_close : P Z :=
  count num_rcvry_ra__close ;;
  args ← RCVRY_RA_PROLOGUE 3;
  a0 ← arg args 0;
  fd ← deref_int a0;
  a1 ← arg args 1;
  a2 ← arg args 2;
  let set_retval := s32 a1 in
  let set_errno := s32 a2 in
  r ← (if 0 <? fd then libc (C_close fd) else mret 0);
  if (0 <? fd) && (r =? -1) then mret RCVRY_E_FAIL
  else RCVRY_RA_EPILOGUE_ERRNO set_retval set_errno.

Definition run_ra_dlclose : P Z :=
  count num_rcvry_ra__dlclose ;;
  args ← RCVRY_RA_PROLOGUE 1;
  a0 ← arg args 0;
  assert (negb (a0 =? 0)) ;;
  h ← deref_ptr a0;
  r ← libc (C_dlclose h);
  if negb (r =? 0) then mret RCVRY_E_FAIL
  else RCVRY_RA_EPILOGUE (-1).

Definition run_ra_undo_fork : P Z :=
  count num_rcvry_ra__undo_fork ;;
  args ← RCVRY_RA_PROLOGUE 1;
  a0 ← arg args 0;
  ret ← deref_int a0;
  if ret =? 0 then halt (Exit 0)
  else if 0 <? ret then
    c_id ← libc (C_waitpid ret 0);
    if c_id =? -1 then mret RCVRY_E_FAIL
    else RCVRY_RA_EPILOGUE_ERRNO (-1) ENOMEM
  else mret RCVRY_E_FAIL.

Definition run_ra_undo_addrinfo : P Z :=
  count num_rcvry_ra__undo_addrinfo ;;
  args ← RCVRY_RA_PROLOGUE 2;
  res ← arg args 0;
  a1 ← arg args 1;
  (if res =? 0 then skip
   else p ← deref_ptr res; libc (C_freeaddrinfo p) ;; skip) ;;
  RCVRY_RA_EPILOGUE (s32 a1).

Definition run_ra_undo_mkdir : P Z :=
  count num_rcvry_ra__undo_mkdir ;;
  args ← RCVRY_RA_PROLOGUE 2;
  path ← arg args 0;
  a1 ← arg args 1;
  r ← libc (C_rmdir path);
  if negb (r =? 0) then mret RCVRY_E_FAIL
  else RCVRY_RA_EPILOGUE_ERRNO (-1) (s32 a1).

Definition run_ra_undo_mmap : P Z :=
  count num_rcvry_ra__undo_mmap ;;
  args ← RCVRY_RA_PROLOGUE 3;
  a0 ← arg args 0;
  a1 ← arg args 1;
  a2 ← arg args 2;
  let len := s32 a1 in
  r ← libc (C_munmap a0 (u64 len));
  if r =? -1 then mret RCVRY_E_FAIL
  else RCVRY_RA_EPILOGUE_ERRNO (-1) (s32 a2).

Definition run_ra_undo_pthread_mutex_init : P Z :=
  count num_rcvry_ra__undo_pthreadmtx_init ;;
  args ← RCVRY_RA_PROLOGUE 2;
  mutex ← arg args 0;
  a1 ← arg args 1;
  r ← libc (C_pthread_mutex_destroy mutex);
  if r =? -1 then mret RCVRY_E_FAIL
  else RCVRY_RA_EPILOGUE (s32 a1).

Definition run_ra_undo_pthread_mutex_lock : P Z :=
  count num_rcvry_ra__undo_pthreadmtx_lock ;;
  args ← RCVRY_RA_PROLOGUE 2;
  mutex ← arg args 0;
  a1 ← arg args 1;
  r ← libc (C_pthread_mutex_unlock mutex);
  if r =? -1 then mret RCVRY_E_FAIL
  else RCVRY_RA_EPILOGUE (s32 a1).

(** Calling through an entry of [rcvry_actions_map]. *)
Definition run_action (a : rcvry_action) : P Z :=
  match a with
  | rcvry_ra_fail => run_ra_fail
  | rcvry_ra_noop => run_ra_noop
  | rcvry_ra_set_ret_errno => run_ra_set_ret_errno
  | rcvry_ra_undo_malloc => run_ra_undo_malloc
  | rcvry_ra_undo_memalign => run_ra_undo_memalign
  | rcvry_ra_undo_realloc => run_ra_undo_realloc
  | rcvry_ra_close_socket => run_ra_close_socket
  | rcvry_ra_close => run_ra_close
  | rcvry_ra_dlclose => run_ra_dlclose
  | rcvry_ra_undo_fork => run_ra_undo_fork
  | rcvry_ra_undo_addrinfo => run_ra_undo_addrinfo
  | rcvry_ra_undo_mkdir => run_ra_undo_mkdir
  | rcvry_ra_undo_mmap => run_ra_undo_mmap
  | rcvry_ra_undo_pthread_mutex_init => run_ra_undo_pthread_mutex_init
  | rcvry_ra_undo_pthread_mutex_lock => run_ra_undo_pthread_mutex_lock
  end.

(** ** The table of actions *)

(** The gate a site starts with. *)
Definition initial_gate (i : rcvry_info_t) : Z :=
  if decide (ltckpt_type i = LTCKPT_TYPE_INVALID)
  then ltckpt_type_val (if RCVRY_CKPT_DEFAULT_TO_UNDOLOG then LTCKPT_TYPE_UNDOLOG else LTCKPT_TYPE_TSX)
  else ltckpt_type_val (ltckpt_type i).

(** [rcvry_map_actions], run before [main]: open the gates, then fill the table. *)
Definition rcvry_map_actions (r : rcvry) : rcvry :=
  let r := set_gates (λ i, if (0 <=? i) && (i <? RCVRY_MAX_LIBCALL_SITES)
                           then initial_gate (info r i) else gates r i) r in
  let install t a (m : rcvry_type_t → option rcvry_action) := <[t := Some a]> m in
  let m := actions_map r in
  let m := install RCVRY_TYPE_DEFAULT rcvry_ra_fail m in
  let m := install RCVRY_TYPE_NOOP rcvry_ra_noop m in
  let m := install RCVRY_TYPE_FAIL rcvry_ra_fail m in
  let m := install RCVRY_TYPE_SET_RET_ERRNO rcvry_ra_set_ret_errno m in
  let m := install RCVRY_TYPE_SET_RET_ERRNO_EACCES rcvry_ra_set_ret_errno m in
  let m := install RCVRY_TYPE_SET_RET_ERRNO_ENOMEM rcvry_ra_set_ret_errno m in
  let m := install RCVRY_TYPE_SET_RET_ERRNO_ENOSPC rcvry_ra_set_ret_errno m in
  let m := install RCVRY_TYPE_SET_RET_ERRNO_EBADF rcvry_ra_set_ret_errno m in
  let m := install RCVRY_TYPE_SET_RET_ERRNO_EINVAL rcvry_ra_set_ret_errno m in
  let m := install RCVRY_TYPE_SET_RET_ERRNO_EFAULT rcvry_ra_set_ret_errno m in
  let m := install RCVRY_TYPE_SET_RET_ERRNO_EMFILE rcvry_ra_set_ret_errno m in
  let m := install RCVRY_TYPE_SET_RET_ERRNO_ZSTREAM_ERROR rcvry_ra_set_ret_errno m in
  let m := install RCVRY_TYPE_SET_RET_NULL_ERRNO_ENOMEM rcvry_ra_set_ret_errno m in
  let m := install RCVRY_TYPE_SET_RET_NULL_ERRNO_EBADF rcvry_ra_set_ret_errno m in
  let m := install RCVRY_TYPE_HW_TSX rcvry_ra_noop m in
  let m := install RCVRY_TYPE_UNDO_MALLOC rcvry_ra_undo_malloc m in
  let m := install RCVRY_TYPE_UNDO_MEMALIGN rcvry_ra_undo_memalign m in
  let m := install RCVRY_TYPE_UNDO_REALLOC rcvry_ra_fail m in
  let m := install RCVRY_TYPE_UNDO_SETLOCALE rcvry_ra_set_ret_errno m in
  let m := install RCVRY_TYPE_CLOSE_SOCKET rcvry_ra_close_socket m in
  let m := install RCVRY_TYPE_CLOSE_RET_NULL rcvry_ra_close m in
  let m := install RCVRY_TYPE_CLOSE rcvry_ra_close m in
  let m := install RCVRY_TYPE_DLCLOSE rcvry_ra_dlclose m in
  let m := install RCVRY_TYPE_UNDO_FORK rcvry_ra_undo_fork m in
  let m := install RCVRY_TYPE_UNDO_ADDRINFO rcvry_ra_undo_addrinfo m in
  let m := install RCVRY_TYPE_UNDO_MKDIR rcvry_ra_undo_mkdir m in
  let m := install RCVRY_TYPE_UNDO_MMAP rcvry_ra_undo_mmap m in
  let m := install RCVRY_TYPE_UNDO_PTHRDMUTX_INIT rcvry_ra_undo_pthread_mutex_init m in
  let m := install RCVRY_TYPE_UNDO_PTHRDMUTX_LOCK rcvry_ra_undo_pthread_mutex_lock m in
  set_actions_map m r.

(** ** Looking for a software fault *)

(** [rcvry_fork]: a raw [clone]. *)
Definition rcvry_fork : P Z := libc C_clone.

Definition WIFSIGNALED (status : Z) : bool :=
  let sig := Z.land status 127 in negb (sig =? 0) && negb (sig =? 127).
Definition WIFEXITED (status : Z) : bool := Z.land status 127 =? 0.
Definition WEXITSTATUS (status : Z) : Z := Z.shiftr (Z.land status 65280) 8.

Definition __WCLONE : Z := 2147483648.

Definition rcvry_check_swfault_exists : P Z :=
  st ← gets (λ w, child_state (wrc w));
  if decide (st = RCVRY_CHILD_STARTED)
  then halt (Exit (rcvry_child_state_val RCVRY_CHILD_ERROR)) else
  modify (on_rc (set_child_state RCVRY_CHILD_INVALID)) ;;
  c_pid ← rcvry_fork;
  if c_pid =? 0 then
    modify (on_rc (set_child_state RCVRY_CHILD_STARTED)) ;; mret RCVRY_TSX_RA_SW_OK
  else if 0 <? c_pid then
    r ← libc (C_waitpid c_pid __WCLONE);
    if r =? -1 then mret RCVRY_E_FAIL else
    c_status ← gets (λ w, libc_wait_status (wos w));
    if WIFSIGNALED c_status then mret RCVRY_TSX_RA_SW_FAULT
    else if WIFEXITED c_status then
      if WEXITSTATUS c_status =? rcvry_child_state_val RCVRY_CHILD_EXIT_OK
      then mret RCVRY_TSX_RA_SW_OK
      else mret RCVRY_TSX_RA_SW_FAULT
    else mret RCVRY_TSX_RA_SW_FAULT
  else mret RCVRY_E_FAIL.

(** ** Delayed deallocation *)

Definition RCVRY_FREE_LIST_SIZE : Z := 16384.

(** The increment is part of the asserted expression. *)
Definition rcvry_ra_delayed_free (ptr : Z) : P () :=
  modify (on_rc (λ r, set_freeListPos (s32 (freeListPos r + 1)) r)) ;;
  pos ← gets (λ w, freeListPos (wrc w));
  assert (pos <? RCVRY_FREE_LIST_SIZE) ;;
  modify (on_rc (λ r, set_freeList (upd (freeList r) pos ptr) r)) ;;
  modify (on_rc (λ r, set_num_delayed_free_calls (u32 (num_delayed_free_calls r + 1)) r)).

Fixpoint free_loop (n : nat) (i pos : Z) : P () :=
  match n with
  | O => if i <? pos then halt Diverge else skip
  | S n' =>
      if i <? pos then
        p ← gets (λ w, freeList (wrc w) i);
        libc (C_free p) ;; free_loop n' (i + 1) pos
      else skip
  end.

Definition rcvry_ra_free_freelist : P () :=
  pos ← gets (λ w, freeListPos (wrc w));
  free_loop (Z.to_nat pos) 0 pos ;;
  modify (on_rc (set_freeListPos (-1))).

End Actions.

(** ** What every action leaves alone *)

(** The parts of a site's information that recovery reads. *)
Definition same_site_info (i j : rcvry_info_t) : Prop :=
  ltckpt_type i = ltckpt_type j ∧ rcvry_type i = rcvry_type j ∧
  argc i = argc j ∧ argv i = argv j.

(** [r'] differs from [r] in the gate of the current site, the return value and
    profiling counters at most. *)
Record rc_frame (r r' : rcvry) : Prop := {
  fr_site : current_site_id r' = current_site_id r;
  fr_raddr : return_addr r' = return_addr r;
  fr_tx : current_tx_type r' = current_tx_type r;
  fr_max : max_site_id r' = max_site_id r;
  fr_map : actions_map r' = actions_map r;
  fr_prev : prev_site_id r' = prev_site_id r;
  fr_repeat : repeat_count r' = repeat_count r;
  fr_gates : ∀ i, i ≠ current_site_id r → gates r' i = gates r i;
  fr_info : ∀ i, same_site_info (info r' i) (info r i);
}.

#[export] Instance rc_frame_preorder : PreOrder rc_frame.
Proof.
  split.
  - intros r. by split.
  - intros r1 r2 r3 [] []. split; try congruence.
    + intros i Hi. rewrite fr_gates1, fr_gates0; [done|done|congruence].
    + intros i. destruct (fr_info0 i) as (?&?&?&?), (fr_info1 i) as (?&?&?&?).
      unfold same_site_info. split_and!; congruence.
Qed.

Section ActionFrames.
Context `{cfg : Config} {os : Type} `{libc_os : LibC os}.
Implicit Types w : world os.

Lemma rc_frame_prof_count c r : rc_frame r (prof_count c r).
Proof.
  unfold prof_count. case_match; [|done]. split; try done.
  intros i. unfold prof_inc_at, upd_info_at, same_site_info, upd. cbn.
  destruct (Z.eqb_spec i (current_site_id r)); by subst.
Qed.

Lemma rc_frame_gate r : rc_frame r (operate_libcall_gate r).
Proof.
  unfold operate_libcall_gate. case_match; split; try done;
    intros i Hi; unfold set_cur_gate; cbn; by rewrite upd_ne.
Qed.

Lemma rc_frame_return_value v r : rc_frame r (set_return_value v r).
Proof. by split. Qed.

(** The gate after [operate_libcall_gate]. *)
Definition gate_after (r : rcvry) : Z :=
  if RCVRY_CLOSE_GATE_AFTER then RCVRY_LIBCALL_GATE_CLOSE else current_tx_type r.

Lemma operate_gate_cur r :
  gates (operate_libcall_gate r) (current_site_id r) = gate_after r.
Proof. unfold operate_libcall_gate, gate_after. case_match; apply upd_eq. Qed.

Lemma operate_gate_raddr r : return_addr (operate_libcall_gate r) = return_addr r.
Proof. apply (fr_raddr _ _ (rc_frame_gate r)). Qed.

Lemma operate_gate_rv r : return_value (operate_libcall_gate r) = return_value r.
Proof. unfold operate_libcall_gate. by case_match. Qed.

(** What calls of the C library may do to memory. *)
Definition lib_writes : relation mem := rtc (λ m m', ∃ c o, m' = libc_mem c m o).

(** Before its epilogue an action has not touched the log, and memory only by the
    calls it makes. *)
Definition before_epilogue w w' : Prop :=
  lib_writes (wmem w) (wmem w') ∧ wck w' = set_cmem (wmem w') (wck w) ∧
  rc_frame (wrc w) (wrc w').

Lemma set_cmem_set m m' c : set_cmem m (set_cmem m' c) = set_cmem m c.
Proof. done. Qed.

Lemma set_cmem_id c : set_cmem (cmem c) c = c.
Proof. by destruct c. Qed.

#[export] Instance before_epilogue_preorder : PreOrder before_epilogue.
Proof.
  split.
  - intros w. split_and!; [apply rtc_refl|symmetry; apply set_cmem_id|done].
  - intros w1 w2 w3 (Hm1 & Hc1 & Hf1) (Hm2 & Hc2 & Hf2). split_and!.
    + by etransitivity.
    + by rewrite Hc2, Hc1, set_cmem_set.
    + by etransitivity.
Qed.

Lemma before_same w w' : wck w' = wck w → rc_frame (wrc w) (wrc w') → before_epilogue w w'.
Proof.
  intros Hc Hf. unfold before_epilogue, wmem. rewrite Hc, set_cmem_id.
  split_and!; [apply rtc_refl|done|done].
Qed.

(** After its epilogue: the value at the return address is [v], the gate of the
    site is set, the log is as it was. *)
Definition after_epilogue w w' : Prop :=
  rc_frame (wrc w) (wrc w') ∧
  return_addr (wrc w) ≠ 0 ∧
  gates (wrc w') (site w) = gate_after (wrc w) ∧
  wck w' = set_cmem (store_u32 (wmem w) (return_addr (wrc w)) (return_value (wrc w'))) (wck w).

Lemma epilogue_post ret w (Q : Z → world os → Prop) :
  (∀ w', after_epilogue w w' → return_value (wrc w') = u64 ret → werrno w' = werrno w →
    wos w' = wos w → Q RCVRY_E_OK w') →
  ok_post (RCVRY_RA_EPILOGUE ret) w Q.
Proof.
  intros HQ. unfold RCVRY_RA_EPILOGUE. repeat ok_step. apply HQ; try done.
  split_and!.
  - cbn. etransitivity; [apply rc_frame_return_value|apply rc_frame_gate].
  - cbn in *. rewrite operate_gate_raddr in *. cbn in *. lia.
  - cbn. apply (operate_gate_cur (set_return_value (u64 ret) (wrc w))).
  - cbn. unfold on_ck, wmem. cbn. by rewrite operate_gate_raddr.
  - cbn. apply operate_gate_rv.
Qed.

(** What a caller of an action may rely on, whichever way it returns. *)
Definition action_contract w (r : Z) w' : Prop :=
  (r = RCVRY_E_OK ∧ ∃ w1, before_epilogue w w1 ∧ after_epilogue w1 w') ∨
  (r = RCVRY_E_FAIL ∧ before_epilogue w w').

Lemma before_count c w : before_epilogue w (on_rc (prof_count c) w).
Proof. apply before_same; [done|apply rc_frame_prof_count]. Qed.

Lemma before_gate w : before_epilogue w (on_rc operate_libcall_gate w).
Proof. apply before_same; [done|apply rc_frame_gate]. Qed.

Lemma before_called c w : before_epilogue w (called c w).
Proof. split_and!; [|done|done]. apply rtc_once. by exists c, (wos w). Qed.

Lemma before_errno w e : before_epilogue w (set_werrno e w).
Proof. by apply before_same. Qed.

Lemma after_same w w1 w2 :
  wck w1 = wck w → rc_frame (wrc w) (wrc w1) → after_epilogue w1 w2 → after_epilogue w w2.
Proof.
  intros Hck Hf (Hf2 & Hr & Hg & Hm). unfold after_epilogue, wmem, site, gate_after in *.
  rewrite <- (fr_site _ _ Hf), <- (fr_raddr _ _ Hf), <- (fr_tx _ _ Hf), <- Hck.
  split_and!; try done. by etransitivity.
Qed.

(** The programs actions are made of: each step keeps [before_epilogue] from the
    start, and the last one establishes the contract. *)
Definition in_action w (p : prog (world os) Z) : Prop :=
  ∀ w1, before_epilogue w w1 → ok_post p w1 (action_contract w).

Definition action_part {A} (p : prog (world os) A) : Prop :=
  ∀ w, ok_post p w (λ _ w', before_epilogue w w').

Lemma in_action_bind {A} w (p : prog (world os) A) f :
  action_part p → (∀ a, in_action w (f a)) → in_action w (p ≫= f).
Proof.
  intros Hp Hf w1 H1. apply ok_bind. eapply ok_post_mono; [|apply Hp].
  intros a w2 H2. apply Hf. by etransitivity.
Qed.

Lemma in_action_if w (b : bool) p q : in_action w p → in_action w q →
  in_action w (if b then p else q).
Proof. by destruct b. Qed.

Lemma in_action_fail w : in_action w (mret RCVRY_E_FAIL).
Proof. intros w1 ?. right. done. Qed.

Lemma in_action_halt w y : in_action w (halt y).
Proof. done. Qed.

Lemma in_action_epilogue w v : in_action w (RCVRY_RA_EPILOGUE v).
Proof.
  intros w1 H1. apply epilogue_post. intros w2 H2 _ _ _. left. split; [done|]. by exists w1.
Qed.

Lemma in_action_epilogue_errno w v e : in_action w (RCVRY_RA_EPILOGUE_ERRNO v e).
Proof. apply in_action_bind; [intros ?; apply before_errno|intros _; apply in_action_epilogue]. Qed.

Lemma part_bind {A B} (p : prog (world os) A) (f : A → prog (world os) B) :
  action_part p → (∀ a, action_part (f a)) → action_part (p ≫= f).
Proof.
  intros Hp Hf w. apply ok_bind. eapply ok_post_mono; [|apply Hp].
  intros a w1 H1. eapply ok_post_mono; [|apply Hf]. intros b w2 H2. cbn in *. by transitivity w1.
Qed.

Lemma part_if {A} (b : bool) (p q : prog (world os) A) :
  action_part p → action_part q → action_part (if b then p else q).
Proof. by destruct b. Qed.

Lemma part_count c : action_part (count c).
Proof. intros w. apply before_count. Qed.

Lemma part_gate : action_part (modify (on_rc operate_libcall_gate)).
Proof. intros w. apply before_gate. Qed.

Lemma part_libc c : action_part (libc c).
Proof. intros w. apply before_called. Qed.

Lemma part_pure {A} (p : prog (world os) A) :
  (∀ w, ok_post p w (λ _ w', w' = w)) → action_part p.
Proof. intros H w. eapply ok_post_mono; [|apply H]. by intros a w' ->. Qed.

Lemma part_prologue n : action_part (RCVRY_RA_PROLOGUE n).
Proof. apply part_pure. intros w. unfold RCVRY_RA_PROLOGUE. repeat ok_step; done. Qed.

Lemma part_arg args i : action_part (arg args i).
Proof. apply part_pure. intros w. unfold arg. repeat ok_step; done. Qed.

Lemma part_deref_ptr p : action_part (deref_ptr p).
Proof. apply part_pure. intros w. unfold deref_ptr. repeat ok_step; done. Qed.

Lemma part_deref_int p : action_part (deref_int p).
Proof. apply part_pure. intros w. unfold deref_int. repeat ok_step; done. Qed.

Lemma part_assert b : action_part (assert b).
Proof. apply part_pure. intros w. ok_step; done. Qed.

Lemma part_skip : action_part skip.
Proof. by apply part_pure. Qed.

Lemma part_ret {A} (a : A) : action_part (mret a).
Proof. by apply part_pure. Qed.

End ActionFrames.

Create HintDb action discriminated.
#[export] Hint Resolve in_action_fail in_action_halt in_action_epilogue
  in_action_epilogue_errno in_action_if part_if part_count part_gate part_libc
  part_prologue part_arg part_deref_ptr part_deref_int part_assert part_skip part_ret : action.
#[export] Hint Extern 2 (in_action _ (_ ≫= _)) => apply in_action_bind; [|intros ?] : action.
#[export] Hint Extern 2 (action_part (_ ≫= _)) => apply part_bind; [|intros ?] : action.

Section ActionContract.
Context `{cfg : Config} {os : Type} `{libc_os : LibC os}.
Implicit Types w : world os.

Lemma free_through_part a : action_part (free_through (os := os) a).
Proof. unfold free_through. auto 10 with action. Qed.
#[local] Hint Resolve free_through_part : action.

Lemma run_action_contract a w : ok_post (run_action a) w (action_contract w).
Proof.
  assert (in_action w (run_action a)) as H; [|by apply H].
  destruct a; cbn [run_action];
    unfold run_ra_fail, run_ra_noop, run_ra_set_ret_errno, run_ra_undo_malloc,
      run_ra_undo_memalign, run_ra_undo_realloc, run_ra_close_socket, run_ra_close,
      run_ra_dlclose, run_ra_undo_fork, run_ra_undo_addrinfo, run_ra_undo_mkdir,
      run_ra_undo_mmap, run_ra_undo_pthread_mutex_init, run_ra_undo_pthread_mutex_lock;
    auto 30 with action.
Qed.

(** ** What each action does *)

(** The number of arguments an action insists on, if it does. *)
Definition action_arity (a : rcvry_action) : option nat :=
  match a with
  | rcvry_ra_fail | rcvry_ra_noop => None
  | rcvry_ra_undo_malloc | rcvry_ra_undo_memalign | rcvry_ra_dlclose | rcvry_ra_undo_fork => Some 1%nat
  | rcvry_ra_set_ret_errno | rcvry_ra_undo_realloc | rcvry_ra_undo_addrinfo
  | rcvry_ra_undo_mkdir | rcvry_ra_undo_pthread_mutex_init
  | rcvry_ra_undo_pthread_mutex_lock => Some 2%nat
  | rcvry_ra_close_socket | rcvry_ra_close | rcvry_ra_undo_mmap => Some 3%nat
  end.

(** The arguments an action can work with in memory [m]. *)
Definition action_ready (a : rcvry_action) (m : mem) (args : list Z) : bool :=
  let a0 := nth 0 args 0 in
  match a with
  | rcvry_ra_close_socket => 0 <? s32 a0
  | rcvry_ra_close | rcvry_ra_dlclose => negb (a0 =? 0)
  | rcvry_ra_undo_fork => negb (a0 =? 0) && (0 <? s32 (load_u32 m a0))
  | _ => true
  end.

(** The call that releases what the library call acquired. *)
Definition undo_call (a : rcvry_action) (m : mem) (args : list Z) : option libcall :=
  let a0 := nth 0 args 0 in
  match a with
  | rcvry_ra_undo_malloc | rcvry_ra_undo_memalign =>
      if (a0 =? 0) || (load_u64 m a0 =? 0) then None else Some (C_free (load_u64 m a0))
  | rcvry_ra_close_socket => Some (C_close (s32 a0))
  | rcvry_ra_close =>
      let fd := s32 (load_u32 m a0) in if 0 <? fd then Some (C_close fd) else None
  | rcvry_ra_dlclose => Some (C_dlclose (load_u64 m a0))
  | rcvry_ra_undo_fork => Some (C_waitpid (s32 (load_u32 m a0)) 0)
  | rcvry_ra_undo_addrinfo =>
      if a0 =? 0 then None else Some (C_freeaddrinfo (load_u64 m a0))
  | rcvry_ra_undo_mkdir => Some (C_rmdir a0)
  | rcvry_ra_undo_mmap => Some (C_munmap a0 (u64 (s32 (nth 1 args 0))))
  | rcvry_ra_undo_pthread_mutex_init => Some (C_pthread_mutex_destroy a0)
  | rcvry_ra_undo_pthread_mutex_lock => Some (C_pthread_mutex_unlock a0)
  | rcvry_ra_fail | rcvry_ra_noop | rcvry_ra_set_ret_errno | rcvry_ra_undo_realloc => None
  end.

(** The results of that call an action takes for a failure. *)
Definition undo_failed (a : rcvry_action) (r : Z) : bool :=
  match a with
  | rcvry_ra_undo_malloc | rcvry_ra_undo_memalign | rcvry_ra_undo_addrinfo => false
  | rcvry_ra_dlclose | rcvry_ra_undo_mkdir => negb (r =? 0)
  | _ => r =? -1
  end.

(** The value the library call appears to return, and the error number. *)
Definition error_value (a : rcvry_action) (args : list Z) : Z :=
  match a with
  | rcvry_ra_undo_malloc | rcvry_ra_undo_realloc => 0
  | rcvry_ra_undo_memalign => ENOMEM
  | rcvry_ra_set_ret_errno => s32 (nth 0 args 0)
  | rcvry_ra_close | rcvry_ra_undo_addrinfo | rcvry_ra_undo_pthread_mutex_init
  | rcvry_ra_undo_pthread_mutex_lock => s32 (nth 1 args 0)
  | _ => -1
  end.

Definition error_errno (a : rcvry_action) (args : list Z) (old : Z) : Z :=
  match a with
  | rcvry_ra_set_ret_errno => EACCES
  | rcvry_ra_undo_malloc | rcvry_ra_undo_fork => ENOMEM
  | rcvry_ra_close_socket | rcvry_ra_undo_mkdir => s32 (nth 1 args 0)
  | rcvry_ra_close | rcvry_ra_undo_mmap => s32 (nth 2 args 0)
  | _ => old
  end.

(** A site whose recorded arguments fit the action. *)
Definition site_fits (a : rcvry_action) w : Prop :=
  (∀ n, action_arity a = Some n →
    argc (cur_info (wrc w)) = Z.of_nat n ∧ length (argv (cur_info (wrc w))) = n) ∧
  action_ready a (wmem w) (argv (cur_info (wrc w))) = true ∧
  return_addr (wrc w) ≠ 0.

(** The state after the call of an action, if it makes one. *)
Definition after_call (oc : option libcall) w : world os := from_option (λ c, called c w) w oc.

(** A successful run with the call [oc]: the error value is in place. *)
Definition reports_error (a : rcvry_action) (oc : option libcall) w w' : Prop :=
  after_epilogue (after_call oc w) w' ∧
  return_value (wrc w') = u64 (error_value a (argv (cur_info (wrc w)))) ∧
  werrno w' = error_errno a (argv (cur_info (wrc w))) (werrno (after_call oc w)) ∧
  wos w' = wos (after_call oc w).

(** A run that gives up after the call [c]: it has done nothing else. *)
Definition gives_up (c : libcall) w w' : Prop :=
  wck w' = wck (called c w) ∧ rc_frame (wrc w) (wrc w') ∧ wos w' = wos (called c w).

(** Bookkeeping steps: no effect outside counters and gates. *)
Definition bookkeeping w w1 : Prop :=
  wck w1 = wck w ∧ rc_frame (wrc w) (wrc w1) ∧ wos w1 = wos w ∧ werrno w1 = werrno w.

Lemma action_start {A} c n w (k : list Z → prog (world os) A) :
  argc (cur_info (wrc w)) = n →
  ∃ w1, (count c ;; args ← RCVRY_RA_PROLOGUE n; k args) w = k (argv (cur_info (wrc w))) w1 ∧
    bookkeeping w w1.
Proof.
  intros Hn. exists (on_rc (prof_count c) w). split; [|by split_and!; [|apply rc_frame_prof_count| |]].
  pose proof (rc_frame_prof_count c (wrc w)) as Hf.
  assert (same_site_info (cur_info (prof_count c (wrc w))) (cur_info (wrc w)))
    as (_ & _ & Hc & Hv).
  { unfold cur_info. rewrite (fr_site _ _ Hf). apply (fr_info _ _ Hf). }
  unfold RCVRY_RA_PROLOGUE, mbind, prog_bind, count, modify, gets. cbn. rewrite Hc, Hn, Z.eqb_refl.
  cbn. by rewrite Hv.
Qed.

Lemma epilogue_run v w :
  return_addr (wrc w) ≠ 0 →
  ∃ w', RCVRY_RA_EPILOGUE v w = Ok RCVRY_E_OK w' ∧ after_epilogue w w' ∧
    return_value (wrc w') = u64 v ∧ werrno w' = werrno w ∧ wos w' = wos w.
Proof.
  intros Hr.
  destruct (RCVRY_RA_EPILOGUE v w) as [r w'|y w'] eqn:E.
  - pose proof (epilogue_post v w (λ r w', r = RCVRY_E_OK ∧ after_epilogue w w' ∧
      return_value (wrc w') = u64 v ∧ werrno w' = werrno w ∧ wos w' = wos w)) as H.
    unfold ok_post in H. rewrite E in H. exists w'.
    destruct H as (-> & ?); [|done]. intros; split_and!; done.
  - exfalso. revert E. unfold RCVRY_RA_EPILOGUE, mbind, prog_bind, modify, gets. cbn.
    rewrite operate_gate_raddr. cbn. by rewrite (proj2 (Z.eqb_neq _ _) Hr).
Qed.

(** The same call after bookkeeping. *)
Lemma bookkeeping_call oc w w1 :
  bookkeeping w w1 → bookkeeping (after_call oc w) (after_call oc w1).
Proof.
  intros (Hck & Hf & Ho & He). destruct oc as [c|]; [|by split_and!]. cbn.
  unfold bookkeeping, called, set_wmem, on_ck, wmem. cbn. by rewrite Hck, Ho, He.
Qed.

Lemma after_call_rc oc w : wrc (after_call oc w) = wrc w.
Proof. by destruct oc. Qed.

(** Ending an action after some bookkeeping and the call. *)
Lemma epilogue_reports a v (e : option Z) oc w w1 :
  bookkeeping w w1 → return_addr (wrc w) ≠ 0 →
  v = error_value a (argv (cur_info (wrc w))) →
  (∀ old, default old e = error_errno a (argv (cur_info (wrc w))) old) →
  ∃ w', match e with
        | Some e => RCVRY_RA_EPILOGUE_ERRNO v e
        | None => RCVRY_RA_EPILOGUE v
        end (after_call oc w1) = Ok RCVRY_E_OK w' ∧ reports_error a oc w w'.
Proof.
  intros Hbk Hr -> Herr. apply (bookkeeping_call oc) in Hbk as (Hck & Hf & Ho & He).
  pose proof (fr_raddr _ _ Hf) as Hra. rewrite (after_call_rc oc w) in Hra.
  set (w2 := match e with Some e => set_werrno e (after_call oc w1) | None => after_call oc w1 end).
  destruct (epilogue_run (error_value a (argv (cur_info (wrc w)))) w2)
    as (w' & Hrun & Haft & Hv & Hen & Hos).
  { rewrite <- Hra in Hr. by destruct e. }
  exists w'. split; [by destruct e|]. unfold reports_error. rewrite Hv, Hen, Hos. split_and!.
  - eapply after_same; [| |exact Haft]; by destruct e.
  - done.
  - rewrite <- Herr. by destruct e.
  - by destruct e.
Qed.

(** The outcome of an action, given what its releasing call does. *)
Definition action_outcome (a : rcvry_action) w (res : result (world os) Z) : Prop :=
  match undo_call a (wmem w) (argv (cur_info (wrc w))) with
  | None => ∃ w', res = Ok RCVRY_E_OK w' ∧ reports_error a None w w'
  | Some c =>
      if undo_failed a (libc_call c (wmem w) (wos w)).1
      then ∃ w', res = Ok RCVRY_E_FAIL w' ∧ gives_up c w w'
      else ∃ w', res = Ok RCVRY_E_OK w' ∧ reports_error a (Some c) w w'
  end.

Lemma bookkeeping_mem w w1 : bookkeeping w w1 → wmem w1 = wmem w.
Proof. unfold wmem. by intros [-> _]. Qed.

Lemma bookkeeping_gives_up w w1 c : bookkeeping w w1 → gives_up c w (called c w1).
Proof.
  intros H. apply (bookkeeping_call (Some c)) in H as (? & ? & ? & _). by split_and!.
Qed.

Lemma libc_run {A} c w (k : Z → prog (world os) A) :
  (libc c ≫= k) w = k (libc_call c (wmem w) (wos w)).1 (called c w).
Proof. done. Qed.

Lemma ret_run {A B} (a : A) w (k : A → prog (world os) B) : (mret a ≫= k) w = k a w.
Proof. done. Qed.

Lemma skip_run {B} w (k : () → prog (world os) B) : (skip ≫= k) w = k () w.
Proof. done. Qed.

Lemma assert_run {B} (b : bool) w (k : () → prog (world os) B) :
  b = true → (assert b ≫= k) w = k () w.
Proof. by intros ->. Qed.

Lemma deref_ptr_run {B} p w (k : Z → prog (world os) B) :
  p ≠ 0 → (deref_ptr p ≫= k) w = k (load_u64 (wmem w) p) w.
Proof. intros H. unfold deref_ptr. by rewrite (proj2 (Z.eqb_neq _ _) H). Qed.

Lemma deref_int_run {B} p w (k : Z → prog (world os) B) :
  p ≠ 0 → (deref_int p ≫= k) w = k (s32 (load_u32 (wmem w) p)) w.
Proof. intros H. unfold deref_int. by rewrite (proj2 (Z.eqb_neq _ _) H). Qed.

End ActionContract.

(** Run the common start of an action on a site that fits it: the argument vector
    becomes a list of the right length and [w1] the state after the prologue. *)
Ltac action_begin Hfit w1 Hav :=
  let Hb := fresh "Hb" in
  destruct Hfit as (Hn & Hready & Hret);
  destruct (Hn _ eq_refl) as [Hargc Hlen]; clear Hn;
  lazymatch goal with
  | |- context [mbind (λ _, mbind ?k (RCVRY_RA_PROLOGUE ?n)) (count ?c) ?w] =>
      destruct (action_start c n w k Hargc) as (w1 & Hrun & Hb); rewrite Hrun; clear Hrun
  end;
  pose proof (bookkeeping_mem _ _ Hb) as Hmem;
  pose proof (proj1 (proj2 (proj2 Hb))) as Hos;
  unfold action_outcome;
  let av := fresh "av" in
  remember (argv (cur_info _)) as av eqn:Hav in *;
  repeat (destruct av as [|? av]; try discriminate Hlen);
  cbn [arg lookup list_lookup nth action_ready] in *.

(** The end of an action: the releasing call, then giving up or the epilogue. *)
Ltac action_end w1 Hav :=
  cbn [undo_call undo_failed nth];
  rewrite ?libc_run, ?skip_run;
  repeat match goal with
  | H : wos w1 = _ |- context [libc_call ?c (wmem w1) (wos w1)] => rewrite H
  | H : wmem w1 = _ |- context [libc_call ?c (wmem w1) _] => rewrite H
  end;
  repeat case_match;
  lazymatch goal with
  | |- ∃ w', mret _ (called _ _) = _ ∧ _ =>
      eexists; split; [reflexivity|by apply bookkeeping_gives_up]
  | |- ∃ w', RCVRY_RA_EPILOGUE_ERRNO ?v ?e _ = _ ∧ reports_error ?a ?oc _ _ =>
      apply (epilogue_reports a v (Some e) oc); (first [done | cbn; rewrite <- ?Hav; done])
  | |- ∃ w', RCVRY_RA_EPILOGUE ?v _ = _ ∧ reports_error ?a ?oc _ _ =>
      apply (epilogue_reports a v None oc); (first [done | cbn; rewrite <- ?Hav; done])
  | _ => idtac
  end.

Section ActionOutcomes.
Context `{cfg : Config} {os : Type} `{libc_os : LibC os}.
Implicit Types w : world os.

Lemma ra_set_ret_errno_outcome w :
  site_fits rcvry_ra_set_ret_errno w →
  action_outcome rcvry_ra_set_ret_errno w (run_ra_set_ret_errno w).
Proof.
  intros Hfit. unfold run_ra_set_ret_errno. action_begin Hfit w1 Hav. rewrite !ret_run.
  action_end w1 Hav.
Qed.

Lemma ra_undo_realloc_outcome w :
  site_fits rcvry_ra_undo_realloc w →
  action_outcome rcvry_ra_undo_realloc w (run_ra_undo_realloc w).
Proof.
  intros Hfit. unfold run_ra_undo_realloc. action_begin Hfit w1 Hav. rewrite !ret_run.
  action_end w1 Hav.
Qed.

Lemma ra_undo_mkdir_outcome w :
  site_fits rcvry_ra_undo_mkdir w → action_outcome rcvry_ra_undo_mkdir w (run_ra_undo_mkdir w).
Proof.
  intros Hfit. unfold run_ra_undo_mkdir. action_begin Hfit w1 Hav. rewrite !ret_run.
  action_end w1 Hav.
Qed.

Lemma ra_undo_mmap_outcome w :
  site_fits rcvry_ra_undo_mmap w → action_outcome rcvry_ra_undo_mmap w (run_ra_undo_mmap w).
Proof.
  intros Hfit. unfold run_ra_undo_mmap. action_begin Hfit w1 Hav. rewrite !ret_run.
  action_end w1 Hav.
Qed.

Lemma ra_undo_pthread_mutex_init_outcome w :
  site_fits rcvry_ra_undo_pthread_mutex_init w →
  action_outcome rcvry_ra_undo_pthread_mutex_init w (run_ra_undo_pthread_mutex_init w).
Proof.
  intros Hfit. unfold run_ra_undo_pthread_mutex_init. action_begin Hfit w1 Hav.
  rewrite !ret_run. action_end w1 Hav.
Qed.

Lemma ra_undo_pthread_mutex_lock_outcome w :
  site_fits rcvry_ra_undo_pthread_mutex_lock w →
  action_outcome rcvry_ra_undo_pthread_mutex_lock w (run_ra_undo_pthread_mutex_lock w).
Proof.
  intros Hfit. unfold run_ra_undo_pthread_mutex_lock. action_begin Hfit w1 Hav.
  rewrite !ret_run. action_end w1 Hav.
Qed.

Lemma ra_close_socket_outcome w :
  site_fits rcvry_ra_close_socket w →
  action_outcome rcvry_ra_close_socket w (run_ra_close_socket w).
Proof.
  intros Hfit. unfold run_ra_close_socket. action_begin Hfit w1 Hav.
  rewrite !ret_run, assert_run by done. action_end w1 Hav.
Qed.

Lemma ra_close_outcome w :
  site_fits rcvry_ra_close w → action_outcome rcvry_ra_close w (run_ra_close w).
Proof.
  intros Hfit. unfold run_ra_close. action_begin Hfit w1 Hav.
  rewrite !ret_run, deref_int_run, !ret_run, Hmem by (apply truthy_true; done).
  cbn [undo_call nth].
  destruct (0 <? s32 (load_u32 (wmem w) _)); rewrite ?ret_run; cbn [andb]; action_end w1 Hav.
Qed.

Lemma ra_dlclose_outcome w :
  site_fits rcvry_ra_dlclose w → action_outcome rcvry_ra_dlclose w (run_ra_dlclose w).
Proof.
  intros Hfit. unfold run_ra_dlclose. action_begin Hfit w1 Hav.
  rewrite !ret_run, assert_run, deref_ptr_run, Hmem by (done || (apply truthy_true; done)).
  action_end w1 Hav.
Qed.

Lemma ra_undo_fork_outcome w :
  site_fits rcvry_ra_undo_fork w → action_outcome rcvry_ra_undo_fork w (run_ra_undo_fork w).
Proof.
  intros Hfit. unfold run_ra_undo_fork. action_begin Hfit w1 Hav.
  apply andb_true_iff in Hready as [Hnz Hpid].
  rewrite !ret_run, deref_int_run, Hmem by (apply truthy_true; done). rewrite Hpid.
  destruct (Z.eqb_spec (s32 (load_u32 (wmem w) z)) 0) as [Hz|_]; [by rewrite Hz in Hpid|].
  action_end w1 Hav.
Qed.

Lemma ra_undo_addrinfo_outcome w :
  site_fits rcvry_ra_undo_addrinfo w →
  action_outcome rcvry_ra_undo_addrinfo w (run_ra_undo_addrinfo w).
Proof.
  intros Hfit. unfold run_ra_undo_addrinfo. action_begin Hfit w1 Hav.
  rewrite !ret_run. cbn [undo_call nth].
  destruct (Z.eqb_spec z 0); [action_end w1 Hav|]. cbv iota.
  rewrite bind_assoc, deref_ptr_run, Hmem by done. cbv beta. rewrite bind_assoc.
  action_end w1 Hav.
Qed.

(** The deallocation of the two allocation actions. *)
Lemma free_through_run {A} a0 w (k : () → prog (world os) A) :
  (free_through a0 ≫= k) w =
  match undo_call rcvry_ra_undo_malloc (wmem w) [a0] with
  | None => k () w
  | Some c => k () (called c w)
  end.
Proof.
  unfold free_through. cbn [undo_call nth]. destruct (Z.eqb_spec a0 0); cbn [orb]; cbv iota; [done|].
  rewrite bind_assoc, deref_ptr_run by done. cbv beta. case_match; [done|].
  by rewrite bind_assoc, libc_run.
Qed.

Lemma ra_undo_malloc_outcome w :
  site_fits rcvry_ra_undo_malloc w → action_outcome rcvry_ra_undo_malloc w (run_ra_undo_malloc w).
Proof.
  intros Hfit. unfold run_ra_undo_malloc. action_begin Hfit w1 Hav.
  rewrite !ret_run, free_through_run, Hmem.
  destruct (undo_call rcvry_ra_undo_malloc (wmem w) [z]); action_end w1 Hav.
Qed.

Lemma ra_undo_memalign_outcome w :
  site_fits rcvry_ra_undo_memalign w →
  action_outcome rcvry_ra_undo_memalign w (run_ra_undo_memalign w).
Proof.
  intros Hfit. unfold run_ra_undo_memalign. action_begin Hfit w1 Hav.
  rewrite !ret_run, free_through_run, Hmem.
  change (undo_call rcvry_ra_undo_memalign) with (undo_call rcvry_ra_undo_malloc).
  destruct (undo_call rcvry_ra_undo_malloc (wmem w) [z]); action_end w1 Hav.
Qed.

Lemma ra_noop_outcome w :
  site_fits rcvry_ra_noop w → action_outcome rcvry_ra_noop w (run_ra_noop w).
Proof.
  intros (_ & _ & Hret).
  apply (epilogue_reports rcvry_ra_noop (-1) None None w
    (on_rc operate_libcall_gate (on_rc (prof_count num_rcvry_ra__noop) w))); try done.
  split_and!; try done. etransitivity; [apply rc_frame_prof_count|apply rc_frame_gate].
Qed.

Lemma run_action_outcome a w :
  a ≠ rcvry_ra_fail → site_fits a w → action_outcome a w (run_action a w).
Proof.
  intros Ha Hf. destruct a; [done|..].
  - by apply ra_noop_outcome.
  - by apply ra_set_ret_errno_outcome.
  - by apply ra_undo_malloc_outcome.
  - by apply ra_undo_memalign_outcome.
  - by apply ra_undo_realloc_outcome.
  - by apply ra_close_socket_outcome.
  - by apply ra_close_outcome.
  - by apply ra_dlclose_outcome.
  - by apply ra_undo_fork_outcome.
  - by apply ra_undo_addrinfo_outcome.
  - by apply ra_undo_mkdir_outcome.
  - by apply ra_undo_mmap_outcome.
  - by apply ra_undo_pthread_mutex_init_outcome.
  - by apply ra_undo_pthread_mutex_lock_outcome.
Qed.

End ActionOutcomes.

(** ** The table and the gates *)

Section Table.
Context `{cfg : Config}.

(** The recovery types no action is installed for. *)
Definition unmapped_type (t : rcvry_type_t) : bool :=
  match t with
  | RCVRY_TYPE_INVALID | RCVRY_TYPE_SET_RET_NULL_ERRNO | RCVRY_TYPE_CKPT_BUFF_PREAD => true
  | _ => false
  end.

(** The table of actions is complete but for three types: once
    [rcvry_map_actions] has run on an empty table, a recovery type has no action
    exactly when it is [RCVRY_TYPE_INVALID], [RCVRY_TYPE_SET_RET_NULL_ERRNO] or
    [RCVRY_TYPE_CKPT_BUFF_PREAD]; a dispatch of one of these calls through NULL. *)
Theorem map_actions_total r t :
  (∀ t, actions_map r t = None) →
  actions_map (rcvry_map_actions r) t = None ↔ unmapped_type t = true.
Proof.
  intros Hr. destruct r. cbn in Hr. destruct t; vm_compute; rewrite ?Hr; done.
Qed.

(** [rcvry_map_actions] opens the gate of every site: with the checkpoint type
    recorded for the site, or the default type of the build if none is recorded. *)
Theorem map_actions_opens_gates r i :
  0 <= i < RCVRY_MAX_LIBCALL_SITES →
  gates (rcvry_map_actions r) i = initial_gate (info r i) ∧
  gates (rcvry_map_actions r) i ≠ RCVRY_LIBCALL_GATE_CLOSE.
Proof.
  intros Hi. cbn [rcvry_map_actions gates set_actions_map set_gates].
  rewrite (proj2 (Z.leb_le 0 i)), (proj2 (Z.ltb_lt i _)) by lia. cbn [andb]. split; [done|].
  unfold initial_gate, RCVRY_LIBCALL_GATE_CLOSE.
  destruct (ltckpt_type (info r i)) eqn:E; cbn; try done. by destruct RCVRY_CKPT_DEFAULT_TO_UNDOLOG.
Qed.

End Table.

(** ** The check for a software fault *)

Section SwFault.
Context `{cfg : Config} {os : Type} `{libc_os : LibC os}.
Implicit Types w : world os.

(** The verdict of the parent on the status of the child. *)
Definition child_verdict (status : Z) : Z :=
  if WIFEXITED status && (WEXITSTATUS status =? 0) then RCVRY_TSX_RA_SW_OK
  else RCVRY_TSX_RA_SW_FAULT.

Lemma exited_not_signaled status : WIFEXITED status = true → WIFSIGNALED status = false.
Proof. unfold WIFEXITED, WIFSIGNALED. by intros ->. Qed.

(** The check for a software fault in a process that is not itself a child: in the
    child it reports no fault and marks the process as a started child; the parent
    reports no fault exactly when the child exited with status 0, a fault when it
    exited otherwise or was killed, and failure when the child could not be created
    or waited for. *)
Theorem check_swfault_verdict w :
  child_state (wrc w) ≠ RCVRY_CHILD_STARTED →
  let pid := (libc_call C_clone (wmem w) (wos w)).1 in
  let wp := called C_clone w in
  let wt := called (C_waitpid pid __WCLONE) wp in
  ∃ w', rcvry_check_swfault_exists w =
    Ok (if pid =? 0 then RCVRY_TSX_RA_SW_OK
        else if 0 <? pid then
          if (libc_call (C_waitpid pid __WCLONE) (wmem wp) (wos wp)).1 =? -1 then RCVRY_E_FAIL
          else child_verdict (libc_wait_status (wos wt))
        else RCVRY_E_FAIL) w' ∧
    child_state (wrc w') = (if pid =? 0 then RCVRY_CHILD_STARTED else RCVRY_CHILD_INVALID).
Proof.
  intros Hst. cbn zeta.
  unfold rcvry_check_swfault_exists, rcvry_fork, mbind, prog_bind, gets, modify, libc.
  rewrite decide_False by done. cbn [wrc].
  set (pid := (libc_call C_clone _ _).1) in *.
  change (libc_call C_clone _ _).1 with pid.
  destruct (pid =? 0); [by eexists|]. destruct (0 <? pid); [|by eexists].
  change (libc_call (C_waitpid pid __WCLONE) _ _) with
    (libc_call (C_waitpid pid __WCLONE) (wmem (called C_clone w)) (wos (called C_clone w))).
  destruct (_ =? -1); [by eexists|]. unfold child_verdict.
  change (wos (called (C_waitpid pid __WCLONE) _)) with
    (wos (called (C_waitpid pid __WCLONE) (called C_clone w))).
  set (st := libc_wait_status _).
  destruct (WIFEXITED st) eqn:Ex.
  - rewrite (exited_not_signaled _ Ex). cbn. destruct (WEXITSTATUS _ =? 0); by eexists.
  - cbn. destruct (WIFSIGNALED st); by eexists.
Qed.

(** ** Delayed deallocation *)

Definition delayed_frees (ps : list Z) : prog (world os) () :=
  foldr (λ p k, rcvry_ra_delayed_free p ;; k) skip ps.

(** The list holds [ps] from its start. *)
Definition holds_frees (ps : list Z) w : Prop :=
  freeListPos (wrc w) = zlen ps - 1 ∧
  ∀ i p, ps !! i = Some p → freeList (wrc w) (Z.of_nat i) = p.

Lemma delayed_free_holds ps p w :
  holds_frees ps w → zlen ps < RCVRY_FREE_LIST_SIZE →
  ∃ w', rcvry_ra_delayed_free p w = Ok () w' ∧ holds_frees (ps ++ [p]) w' ∧ wos w' = wos w ∧
    wck w' = wck w.
Proof.
  intros [Hpos Hl] Hsz. unfold RCVRY_FREE_LIST_SIZE in *.
  unfold rcvry_ra_delayed_free, mbind, prog_bind, gets, modify.
  cbn [on_rc set_wrc wrc set_freeListPos freeListPos].
  rewrite Hpos, s32_small by lia. replace (zlen ps - 1 + 1) with (zlen ps) by lia.
  rewrite (proj2 (Z.ltb_lt _ _)) by done. cbn. eexists. split; [done|]. split; [|done].
  split; cbn.
  - rewrite Hpos, s32_small, length_app by lia. cbn. lia.
  - intros i q Hi. apply lookup_snoc_Some in Hi as [[Hlt Hi]|[-> ->]].
    + rewrite upd_ne by lia. by apply Hl.
    + apply upd_eq.
Qed.

Lemma delayed_frees_hold ps qs w :
  holds_frees qs w → zlen (qs ++ ps) <= RCVRY_FREE_LIST_SIZE →
  ∃ w', delayed_frees ps w = Ok () w' ∧ holds_frees (qs ++ ps) w' ∧ wos w' = wos w ∧
    wck w' = wck w.
Proof.
  revert qs w. induction ps as [|p ps IH]; intros qs w Hh Hsz.
  { exists w. by rewrite app_nil_r. }
  rewrite length_app in Hsz. cbn [length] in Hsz.
  destruct (delayed_free_holds qs p w Hh) as (w1 & H1 & Hh1 & Ho1 & Hc1); [lia|].
  destruct (IH (qs ++ [p]) w1 Hh1) as (w2 & H2 & Hh2 & Ho2 & Hc2).
  { rewrite !length_app. cbn. lia. }
  exists w2. cbn. rewrite (bind_Ok _ _ _ _ _ H1). split; [done|].
  split_and!; [by rewrite cons_middle, app_assoc|congruence|congruence].
Qed.

(** The state after a list of pointers is released. *)
Definition free_all (ps : list Z) w : world os := foldl (λ w p, called (C_free p) w) w ps.

Lemma free_all_same ps w w1 :
  wos w1 = wos w → wck w1 = wck w →
  wos (free_all ps w1) = wos (free_all ps w) ∧ wck (free_all ps w1) = wck (free_all ps w).
Proof.
  unfold free_all. revert w w1. induction ps as [|p ps IH]; intros w w1 Ho Hc; [done|]. cbn.
  apply IH; unfold called, set_wmem, on_ck, wmem; cbn; by rewrite Ho, Hc.
Qed.

Lemma free_loop_run ps i w :
  (∀ j p, ps !! j = Some p → freeList (wrc w) (i + Z.of_nat j) = p) →
  free_loop (length ps) i (i + zlen ps) w = Ok () (free_all ps w).
Proof.
  revert i w. induction ps as [|p ps IH]; intros i w Hl.
  - cbn. by rewrite (proj2 (Z.ltb_ge i _)) by lia.
  - cbn [length free_loop]. rewrite (proj2 (Z.ltb_lt i _)) by lia.
    rewrite (bind_Ok _ _ w p w) by (unfold gets; f_equal; rewrite <- (Z.add_0_r i); by apply (Hl 0%nat)).
    rewrite libc_run.
    replace (i + Z.of_nat (S (length ps))) with (i + 1 + zlen ps) by lia.
    rewrite IH; [done|]. intros j q Hj. cbn. rewrite <- (Hl (S j) q Hj). f_equal. lia.
Qed.

Lemma free_freelist_run ps p w :
  holds_frees (ps ++ [p]) w →
  ∃ w', rcvry_ra_free_freelist w = Ok () w' ∧ holds_frees [] w' ∧
    wos w' = wos (free_all ps w) ∧ wck w' = wck (free_all ps w).
Proof.
  intros [Hpos Hl]. rewrite length_app in Hpos. cbn in Hpos.
  unfold rcvry_ra_free_freelist. rewrite (bind_Ok _ _ w (zlen ps) w) by (unfold gets; f_equal; lia).
  rewrite Nat2Z.id. pose proof (free_loop_run ps 0 w) as Hrun. rewrite Z.add_0_l in Hrun.
  unfold mbind, prog_bind. rewrite Hrun.
  - eexists. split; [done|]. split; [|done]. by split.
  - intros j q Hj. apply Hl. by apply lookup_app_l_Some.
Qed.

End SwFault.

(** A process with one protected call of [malloc], whose result is stored at
    [0x5000] and whose error value goes to [0x6000]. *)
Definition demo_info : rcvry_info_t :=
  set_argv [20480] (set_argc 1 (set_rcvry_type RCVRY_TYPE_UNDO_MALLOC info0)).

Definition demo_rcvry `{cfg : Config} : rcvry :=
  let r := rcvry_map_actions (set_info (upd (λ _, info0) 7 demo_info) rcvry_globals) in
  set_return_addr 24576 (set_max_site_id 10 (set_current_site_id 7
    (set_current_tx_type (ltckpt_type_val LTCKPT_TYPE_UNDOLOG) r))).

Definition demo_ckpt : ckpt :=
  set_wl_data 1099511627776 (set_cctx (set_checkpoint_interval 1 ctx0)
    (ckpt_globals (store_u64 (λ _, 0) 20480 30000))).

Definition demo_world `{cfg : Config} : world trace_os :=
  mk_world demo_ckpt demo_rcvry 0 (mk_trace_os [] [] 0 [] false).

(** ** Theorems *)



Lemma demo_fits `{cfg : Config} : site_fits rcvry_ra_undo_malloc demo_world.
Proof.
  split_and!; [|reflexivity|discriminate]. intros n Hn. injection Hn as <-. split; reflexivity.
Defined.

Lemma map_actions_total_witness :
  actions_map (@rcvry_map_actions config_autoadapt (@rcvry_globals config_autoadapt))
    RCVRY_TYPE_CKPT_BUFF_PREAD = None.
Proof.
  apply (@map_actions_total config_autoadapt (@rcvry_globals config_autoadapt)
    RCVRY_TYPE_CKPT_BUFF_PREAD); [intros t; reflexivity|reflexivity].
Defined.

Lemma map_actions_opens_gates_witness :
  gates (@rcvry_map_actions config_autoadapt (@rcvry_globals config_autoadapt)) 5 = 2.
Proof.
  apply (@map_actions_opens_gates config_autoadapt (@rcvry_globals config_autoadapt) 5).
  unfold RCVRY_MAX_LIBCALL_SITES. lia.
Defined.

Lemma check_swfault_verdict_witness :
  returned (@rcvry_check_swfault_exists trace_os trace_libc
    (set_wos (mk_trace_os [] [] 11 [] false) (@demo_world config_autoadapt)))
  = Some RCVRY_TSX_RA_SW_FAULT.
Proof.
  pose proof (@check_swfault_verdict trace_os trace_libc
    (set_wos (mk_trace_os [] [] 11 [] false) (@demo_world config_autoadapt))) as H.
  destruct H as (w' & Hrun & _); [discriminate|]. rewrite Hrun. reflexivity.
Defined.

(** Delayed deallocation.  Starting from an empty list, any number of delayed calls
    of [free] up to the capacity of the list returns, and the release of the list then
    frees every pointer but the last, in order, and empties the list: the loop stops
    one entry early, so the last pointer of each window is leaked. *)
Theorem freelist_frees_all_but_last {os : Type} `{libc_os : LibC os} (ps : list Z) (p : Z)
    (w : world os) :
  freeListPos (wrc w) = -1 → zlen (ps ++ [p]) <= RCVRY_FREE_LIST_SIZE →
  ∃ w1 w2, delayed_frees (ps ++ [p]) w = Ok () w1 ∧ rcvry_ra_free_freelist w1 = Ok () w2 ∧
    wos w2 = wos (free_all ps w) ∧ wck w2 = wck (free_all ps w) ∧ freeListPos (wrc w2) = -1.
Proof.
  intros Hpos Hsz. destruct (delayed_frees_hold (ps ++ [p]) [] w) as (w1 & H1 & Hh & Ho & Hc).
  { split; [by rewrite Hpos|]. intros i q Hi. by rewrite lookup_nil in Hi. }
  { done. }
  destruct (free_freelist_run ps p w1 Hh) as (w2 & H2 & [He _] & Ho2 & Hc2).
  destruct (free_all_same ps w w1 Ho Hc) as [Ho3 Hc3].
  exists w1, w2. rewrite Ho2, Ho3, Hc2, Hc3. done.
Qed.

Lemma freelist_frees_all_but_last_witness :
  ∃ w1 w2, delayed_frees [100; 200; 300] (@demo_world config_autoadapt) = Ok () w1 ∧
    rcvry_ra_free_freelist w1 = Ok () w2 ∧ calls (wos w2) = [C_free 100; C_free 200].
Proof.
  destruct (freelist_frees_all_but_last [100; 200] 300 (@demo_world config_autoadapt))
    as (w1 & w2 & H1 & H2 & Ho & _); [reflexivity|vm_compute; discriminate|].
  exists w1, w2. split; [exact H1|]. split; [exact H2|]. rewrite Ho. reflexivity.
Defined.
