(* ===== verification/RcvrySignal.v ===== *)
(** * Dispatch and the signal handler

    [rcvry_dispatch.c] and [rcvry_signal.c]: running the action recorded for the
    current site, the handler of the signals that report a fault ([SIGSEGV]) or an
    aborted hardware transaction ([SIGUSR1]), its limit on repeated recoveries, and
    the registration of the handler. *)
From stdpp Require Import base numbers list functions strings relations.
From Stdlib Require Import ZArith Lia.
From S2P Require Import Prelude Memory CString Ctx Profiling Writelog Rcvry RcvryActions.

Section Signal.
Context `{cfg : Config} {os : Type} `{libc_os : LibC os}.

(** The addresses of the two statics of the log and the stack limit of the restart
    hook. *)
Context (awd awp datamax : Z).

Abbreviation P := (prog (world os)).

(** ** Dispatch *)

(** [rcvry_dispatch]; the log it prints is not modelled. *)
Definition rcvry_dispatch : P Z :=
  r ← gets wrc;
  assert (current_site_id r <=? max_site_id r) ;;
  let rinfo := cur_info r in
  modify (on_rc (set_dispatched_action (rcvry_type rinfo))) ;;
  match actions_map r (rcvry_type rinfo) with
  | None => halt Sigsegv
  | Some a =>
      e ← run_action a;
      if negb (e =? RCVRY_E_OK) then halt (Exit 1) else mret RCVRY_E_OK
  end.

(** ** The handler *)

Definition is_expected_signal (signo : Z) : bool := (SIGUSR1 =? signo) || (SIGSEGV =? signo).

Definition is_in_child_process (r : rcvry) : bool :=
  bool_decide (child_state r = RCVRY_CHILD_STARTED).

Definition just_return_after_special_handling (signo : Z) : P Z :=
  if SIGUSR1 =? signo then modify (on_rc (set_just_noop_for_tsx 0)) ;; mret 1 else mret 0.

Definition invoke_stm_recovery : P Z :=
  r_ckpt ← lift_ck (ltckpt_restart awd awp datamax);
  if RCVRY_E_FAIL =? r_ckpt then mret r_ckpt else mret r_ckpt.

(** Signal sets as bit masks. *)
Definition sigfillset : Z := Z.ones 64.
Definition sigaddset (set signo : Z) : Z := Z.lor set (Z.shiftl 1 (signo - 1)).

Definition unblock_sig (signo : Z) : P () :=
  libc (C_sigprocmask_unblock (sigaddset sigfillset signo)) ;; skip.

(** The check for recoveries that go round in circles. *)
Definition limit_repeats : P () :=
  r ← gets wrc;
  (if prev_site_id r =? current_site_id r then
     modify (on_rc (λ r, set_repeat_count (u32 (repeat_count r + 1)) r)) ;;
     n ← gets (λ w, repeat_count (wrc w));
     when (64 <? n) (halt (Exit 2))
   else modify (on_rc (set_repeat_count 0))) ;;
  modify (on_rc (λ r, set_prev_site_id (current_site_id r) r)).

(** The branch of the handler for [SIGSEGV]. *)
Definition recover_from_fault : P () :=
  limit_repeats ;;
  modify (on_rc (set_cur_gate RCVRY_LIBCALL_GATE_CLOSE)) ;;
  count num_rcvry_success__errpath ;;
  e ← rcvry_dispatch;
  when (RCVRY_E_FAIL =? e) (halt (Exit 1)) ;;
  tx ← gets (λ w, curr_tx_type (wrc w));
  when (tx =? ltckpt_type_val LTCKPT_TYPE_UNDOLOG) (invoke_stm_recovery ;; skip) ;;
  unblock_sig SIGSEGV.

(** The branch for [SIGUSR1]. *)
Definition switch_to_undolog : P () :=
  modify (on_rc (set_curr_tx_type LTCKPT_TYPE_UNDOLOG)) ;;
  modify (on_rc (set_cur_gate (ltckpt_type_val LTCKPT_TYPE_UNDOLOG))) ;;
  count num_rcvry_success__switchtxtype.

(** [rcvry_signal_action]: control leaves it through [ltckpt_asm_restore_registers],
    at the top of the window, or ends the process. *)
Definition rcvry_signal_action (signo : Z) : P () :=
  when (negb (is_expected_signal signo)) (halt (Exit 1)) ;;
  count num_hits ;;
  (if signo =? SIGUSR1 then switch_to_undolog
   else when (signo =? SIGSEGV) recover_from_fault) ;;
  count num_rcvry_successes ;;
  halt RestoreRegisters.

(** [rcvry_signal_register_handler]: the results of the two [sigaction] calls decide
    whether the process starts; the handlers table maps a signal to whether ours is
    installed. *)
Definition rcvry_signal_register_handler (sigaction : Z → Z) (handlers : Z → bool)
    : stop + (Z → bool) :=
  if sigaction SIGSEGV <? 0 then inl (Exit 1) else
  let handlers := upd handlers SIGSEGV true in
  if sigaction SIGUSR1 <? 0 then inl (Exit 1) else
  inr (upd handlers SIGUSR1 true).

(** ** Auto-adaptation *)

(** [RCVRY_AUTO_ADAPT_CHECK_AND_SWITCH]; the products are taken in [uint32_t]. *)
Definition RCVRY_AUTO_ADAPT_CHECK_AND_SWITCH (r : rcvry) : rcvry :=
  if gates r (current_site_id r) =? ltckpt_type_val LTCKPT_TYPE_UNDOLOG then r else
  if negb (0 <? num_tsx_hits (cur_info r)) then r else
  if negb (sample_count (cur_info r) =? 0) then r else
  let r :=
    if auto_adapt_threshold r <=?
       u32 (u32 (num_tsx_fails (cur_info r) * 100) * auto_adapt_scale r)
         / num_tsx_hits (cur_info r)
    then set_cur_gate (ltckpt_type_val LTCKPT_TYPE_UNDOLOG)
           (set_curr_tx_type LTCKPT_TYPE_UNDOLOG r)
    else r in
  upd_cur_info (λ i, set_num_tsx_fails 0 (set_num_tsx_hits 0 i)) r.

(** [rcvry_auto_adapt_init]; [getenv] yields the value of an environment variable,
    if it is set. *)
Definition rcvry_auto_adapt_init (getenv : string → option cstr) (r : rcvry) : rcvry :=
  let from name set r := from_option (λ v, set (u32 (strtoul v)) r) r (getenv name) in
  let r := from "RCVRY_AUTO_ADAPT__SAMPLE_SZ"%string set_auto_adapt_sample_size r in
  let r := from "RCVRY_AUTO_ADAPT__THRESHOLD"%string set_auto_adapt_threshold r in
  let r := from "RCVRY_AUTO_ADAPT__SCALE"%string set_auto_adapt_scale r in
  set_info (λ i, if (0 <=? i) && (i <? RCVRY_MAX_LIBCALL_SITES)
                 then set_num_tsx_fails 0 (set_num_tsx_hits 0 (set_sample_count 0 (info r i)))
                 else info r i) r.

End Signal.

(** ** What the handler's own statics see *)

Section Frames.
Context `{cfg : Config} {os : Type} `{libc_os : LibC os} (awd awp datamax : Z).
Implicit Types w : world os.

(** The site and the two statics of the handler. *)
Definition limiter_state w : Z * Z * Z :=
  (current_site_id (wrc w), prev_site_id (wrc w), repeat_count (wrc w)).

Definition same_limiter : relation (world os) := λ w w', limiter_state w' = limiter_state w.

#[export] Instance same_limiter_preorder : PreOrder same_limiter.
Proof. split; [done|]. intros w1 w2 w3 H1 H2. unfold same_limiter in *. congruence. Qed.

Lemma limiter_rc_frame (f : rcvry → rcvry) :
  (∀ r, rc_frame r (f r)) → keeps same_limiter (modify (on_rc f)).
Proof.
  intros H w. specialize (H (wrc w)). unfold same_limiter, limiter_state. cbn.
  by rewrite (fr_site _ _ H), (fr_prev _ _ H), (fr_repeat _ _ H).
Qed.

Lemma keeps_count c : keeps same_limiter (count c).
Proof. apply limiter_rc_frame. intros r. apply rc_frame_prof_count. Qed.

Lemma keeps_gate : keeps same_limiter (modify (on_rc operate_libcall_gate)).
Proof. apply limiter_rc_frame. intros r. apply rc_frame_gate. Qed.

Lemma keeps_libc c : keeps same_limiter (libc c).
Proof. done. Qed.

Lemma keeps_lift {A} (p : prog ckpt A) : keeps same_limiter (lift_ck p).
Proof. intros w. unfold lift_ck. by destruct (p (wck w)). Qed.

Lemma keeps_on (f : world os → world os) :
  (∀ w, limiter_state (f w) = limiter_state w) → keeps same_limiter (modify f).
Proof. done. Qed.

#[local] Hint Resolve keeps_count keeps_gate keeps_libc keeps_lift : keeps.
#[local] Hint Extern 3 (keeps _ (modify _)) => (apply keeps_on; by intros ?) : keeps.

Lemma keeps_arg args i : keeps same_limiter (arg args i).
Proof. unfold arg. case_match; auto with keeps. Qed.

Lemma keeps_deref_ptr p : keeps same_limiter (deref_ptr p).
Proof. unfold deref_ptr. auto with keeps. Qed.

Lemma keeps_deref_int p : keeps same_limiter (deref_int p).
Proof. unfold deref_int. auto with keeps. Qed.

Lemma keeps_prologue n : keeps same_limiter (RCVRY_RA_PROLOGUE n).
Proof. unfold RCVRY_RA_PROLOGUE. auto with keeps. Qed.

Lemma keeps_epilogue v : keeps same_limiter (RCVRY_RA_EPILOGUE v).
Proof. unfold RCVRY_RA_EPILOGUE. auto 10 with keeps. Qed.

Lemma keeps_epilogue_errno v e : keeps same_limiter (RCVRY_RA_EPILOGUE_ERRNO v e).
Proof. unfold RCVRY_RA_EPILOGUE_ERRNO. auto using keeps_epilogue with keeps. Qed.

#[local] Hint Resolve keeps_arg keeps_deref_ptr keeps_deref_int keeps_prologue keeps_epilogue
  keeps_epilogue_errno : keeps.

Lemma keeps_free_through a : keeps same_limiter (free_through a).
Proof. unfold free_through. auto 10 with keeps. Qed.
#[local] Hint Resolve keeps_free_through : keeps.

Lemma keeps_action a : keeps same_limiter (run_action a).
Proof.
  destruct a; cbn [run_action];
    unfold run_ra_fail, run_ra_noop, run_ra_set_ret_errno, run_ra_undo_malloc,
      run_ra_undo_memalign, run_ra_undo_realloc, run_ra_close_socket, run_ra_close,
      run_ra_dlclose, run_ra_undo_fork, run_ra_undo_addrinfo, run_ra_undo_mkdir,
      run_ra_undo_mmap, run_ra_undo_pthread_mutex_init, run_ra_undo_pthread_mutex_lock;
    auto 30 with keeps.
Qed.
#[local] Hint Resolve keeps_action : keeps.

Lemma keeps_dispatch : keeps same_limiter rcvry_dispatch.
Proof.
  unfold rcvry_dispatch. apply keeps_bind; [typeclasses eauto|auto with keeps|].
  intros r. apply keeps_bind; [typeclasses eauto|auto with keeps|]. intros _.
  apply keeps_bind; [typeclasses eauto|auto with keeps|]. intros _.
  case_match; auto with keeps.
Qed.
#[local] Hint Resolve keeps_dispatch : keeps.

(** The rest of the handler once the limit is checked. *)
Definition after_limit : prog (world os) () :=
  modify (on_rc (set_cur_gate RCVRY_LIBCALL_GATE_CLOSE)) ;;
  count num_rcvry_success__errpath ;;
  e ← rcvry_dispatch;
  when (RCVRY_E_FAIL =? e) (halt (Exit 1)) ;;
  tx ← gets (λ w, curr_tx_type (wrc w));
  when (tx =? ltckpt_type_val LTCKPT_TYPE_UNDOLOG) (invoke_stm_recovery awd awp datamax ;; skip) ;;
  unblock_sig SIGSEGV.

Lemma keeps_after_limit : keeps same_limiter after_limit.
Proof. unfold after_limit, invoke_stm_recovery, unblock_sig. auto 20 with keeps. Qed.

End Frames.

(** ** The limit on repeated recoveries *)

Section Limiter.
Context `{cfg : Config} {os : Type} `{libc_os : LibC os} (awd awp datamax : Z).
Implicit Types w : world os.

(** The handler for [SIGSEGV], as the check of the limit and the rest. *)
Lemma signal_action_segv w :
  rcvry_signal_action awd awp datamax SIGSEGV w =
  (count num_hits ;; limit_repeats ;; after_limit awd awp datamax ;;
   count num_rcvry_successes ;; halt RestoreRegisters) w.
Proof.
  transitivity ((count num_hits ;; (limit_repeats ;; after_limit awd awp datamax) ;;
   count num_rcvry_successes ;; halt (A := ()) RestoreRegisters) w); [done|].
  apply bind_ext. intros _ w1. apply bind_assoc.
Qed.

(** What the check does to its statics. *)
Definition limit_passed w w1 : Prop :=
  current_site_id (wrc w1) = current_site_id (wrc w) ∧
  prev_site_id (wrc w1) = current_site_id (wrc w) ∧
  if prev_site_id (wrc w) =? current_site_id (wrc w)
  then repeat_count (wrc w1) = u32 (repeat_count (wrc w) + 1) ∧ repeat_count (wrc w1) <= 64
  else repeat_count (wrc w1) = 0.

Lemma limit_repeats_cases w :
  (∃ w1, limit_repeats w = Ok () w1 ∧ limit_passed w w1) ∨
  (∃ w1, limit_repeats w = Stop (Exit 2) w1 ∧
     prev_site_id (wrc w) = current_site_id (wrc w) ∧ 64 < u32 (repeat_count (wrc w) + 1)).
Proof.
  unfold limit_repeats, limit_passed, mbind, prog_bind, gets, modify.
  destruct (Z.eqb_spec (prev_site_id (wrc w)) (current_site_id (wrc w))) as [E|E]; cbn.
  - destruct (Z.ltb_spec 64 (u32 (repeat_count (wrc w) + 1))); cbn; [right|left]; eauto 10.
  - left. eauto 10.
Qed.

(** A delivery of [SIGSEGV] that does not end the process, after which the program
    faults again in the same window: it may have changed anything but the statics of
    the handler. *)
Definition refault w w' : Prop :=
  ∃ y w1, rcvry_signal_action awd awp datamax SIGSEGV w = Stop y w1 ∧ y ≠ Exit 2 ∧
    same_limiter w1 w'.

Lemma refault_limit w w' : refault w w' → limit_passed w w'.
Proof.
  intros (y & w1 & Hrun & Hy & Hs). rewrite signal_action_segv in Hrun.
  pose proof (keeps_count num_hits w) as Hc.
  unfold mbind at 1, prog_bind at 1 in Hrun.
  destruct (count num_hits w) as [u wa|y' wa] eqn:Ec; [|done]. cbn [final] in Hc.
  destruct (limit_repeats_cases wa) as [(wb & Hb & Hp)|(wb & Hb & _)];
    [rewrite (bind_Ok _ _ _ _ _ Hb) in Hrun|
     rewrite (bind_Stop _ _ _ _ _ Hb) in Hrun; by simplify_eq].
  assert (same_limiter wb w1) as Hk.
  { assert (keeps same_limiter (after_limit awd awp datamax ;;
      count num_rcvry_successes ;; halt (A := ()) RestoreRegisters)) as Hall
      by auto 10 using keeps_after_limit, keeps_count with keeps.
    specialize (Hall wb). by rewrite Hrun in Hall. }
  unfold same_limiter, limiter_state, limit_passed in *.
  injection Hc as <- <- <-. injection Hk as E1 E2 E3. injection Hs as F1 F2 F3.
  by rewrite F1, F2, F3, E1, E2, E3.
Qed.

(** After [n] such deliveries at one site the count is at least [n - 1], and it never
    passes 64. *)
Lemma refault_count n w w' :
  0 <= repeat_count (wrc w) <= 64 → nsteps refault n w w' →
  0 <= repeat_count (wrc w') <= 64 ∧
  (n = 0%nat ∨ prev_site_id (wrc w') = current_site_id (wrc w') ∧
    Z.of_nat n - 1 <= repeat_count (wrc w')).
Proof.
  intros H0. revert w'. induction n as [|n IH]; intros w' H.
  { inversion H; subst. auto. }
  apply nsteps_inv_r in H as (w1 & H & Hr).
  apply refault_limit in Hr as (Hs & Hp & Hc). destruct (IH w1 H) as [H1 Hn].
  destruct (Z.eqb_spec (prev_site_id (wrc w1)) (current_site_id (wrc w1))) as [E|E].
  - destruct Hc as [Hc Hle]. rewrite u32_small in Hc by lia.
    split; [lia|right]. split; [congruence|]. destruct Hn as [->|[_ ?]]; lia.
  - destruct Hn as [->|[? _]]; [|done]. split; [lia|right]. split; [congruence|lia].
Qed.

(** C10: Recovery does not go round in circles.  If a process keeps faulting in the same
    window, at most 65 deliveries of [SIGSEGV] in a row get past the handler without
    ending the process, whatever the program, the recovery actions and the system do
    in between. *)
Theorem repeated_faults_bounded n w w' :
  0 <= repeat_count (wrc w) <= 64 → nsteps refault n w w' → (n <= 65)%nat.
Proof. intros H0 H. destruct (refault_count n w w' H0 H) as [? [->|[_ ?]]]; lia. Qed.

(** The fault that reaches the limit ends the process: with the previous fault at the
    same site and 64 repetitions counted, the handler exits with status 2. *)
Theorem repeat_limit_exits w :
  prev_site_id (wrc w) = current_site_id (wrc w) → repeat_count (wrc w) = 64 →
  ∃ w', rcvry_signal_action awd awp datamax SIGSEGV w = Stop (Exit 2) w'.
Proof.
  intros Hp Hc. rewrite signal_action_segv. pose proof (keeps_count num_hits w) as Hk.
  rewrite (bind_Ok _ _ w () (on_rc (prof_count num_hits) w)) by done. cbn [final] in Hk.
  unfold same_limiter, limiter_state in Hk. cbn in Hk.
  injection Hk as E1 E2 E3. destruct (limit_repeats_cases (on_rc (prof_count num_hits) w))
    as [(w1 & _ & _ & _ & Hl)|(w1 & H1 & _)].
  - cbn in Hl. exfalso. revert Hl. rewrite (proj2 (Z.eqb_eq _ _)) by congruence. rewrite E3. intros [Hl ?].
    rewrite (u32_small (_ + 1)) in Hl by lia. lia.
  - exists w1. by rewrite (bind_Stop _ _ _ _ _ H1).
Qed.

End Limiter.

(** ** The other branches *)

Section Branches.
Context `{cfg : Config} {os : Type} `{libc_os : LibC os} (awd awp datamax : Z).
Implicit Types w : world os.

Lemma prof_count_gates c r : gates (prof_count c r) = gates r.
Proof. unfold prof_count. by case_match. Qed.

Lemma prof_count_site c r : current_site_id (prof_count c r) = current_site_id r.
Proof. unfold prof_count. by case_match. Qed.

Lemma prof_count_tx_type c r : curr_tx_type (prof_count c r) = curr_tx_type r.
Proof.
  unfold curr_tx_type. pose proof (rc_frame_prof_count c r) as Hf. case_match.
  - apply (fr_tx _ _ Hf).
  - unfold cur_info. rewrite (fr_site _ _ Hf). f_equal. apply (fr_info _ _ Hf).
Qed.

Lemma set_curr_tx_type_spec t r : curr_tx_type (set_curr_tx_type t r) = ltckpt_type_val t.
Proof.
  unfold curr_tx_type, set_curr_tx_type, cur_info, upd_cur_info, upd_info_at.
  case_match; cbn; [done|]. by rewrite upd_eq.
Qed.

Lemma set_curr_tx_type_site t r : current_site_id (set_curr_tx_type t r) = current_site_id r.
Proof. unfold set_curr_tx_type. by case_match. Qed.

Lemma set_curr_tx_type_gates t r : gates (set_curr_tx_type t r) = gates r.
Proof. unfold set_curr_tx_type. by case_match. Qed.

Lemma curr_tx_type_gate v r : curr_tx_type (set_cur_gate v r) = curr_tx_type r.
Proof. done. Qed.

(** The site uses the undo log from now on. *)
Definition uses_undolog (r : rcvry) : Prop :=
  curr_tx_type r = ltckpt_type_val LTCKPT_TYPE_UNDOLOG ∧
  gates r (current_site_id r) = ltckpt_type_val LTCKPT_TYPE_UNDOLOG.

Lemma uses_undolog_count c r : uses_undolog r → uses_undolog (prof_count c r).
Proof.
  unfold uses_undolog. by rewrite prof_count_tx_type, prof_count_gates, prof_count_site.
Qed.

Lemma uses_undolog_set r :
  uses_undolog (set_cur_gate (ltckpt_type_val LTCKPT_TYPE_UNDOLOG)
    (set_curr_tx_type LTCKPT_TYPE_UNDOLOG r)).
Proof.
  split; [apply set_curr_tx_type_spec|]. cbn. apply upd_eq.
Qed.

Lemma other_gates_set t v r i :
  i ≠ current_site_id r → gates (set_cur_gate v (set_curr_tx_type t r)) i = gates r i.
Proof.
  intros. cbn. rewrite set_curr_tx_type_site, set_curr_tx_type_gates. by apply upd_ne.
Qed.

(** A delivery of [SIGUSR1]. *)
Lemma signal_usr1_run w :
  ∃ w', rcvry_signal_action awd awp datamax SIGUSR1 w = Stop RestoreRegisters w' ∧
    uses_undolog (wrc w') ∧ site w' = site w ∧ wck w' = wck w ∧ wos w' = wos w ∧
    ∀ i, i ≠ site w → gates (wrc w') i = gates (wrc w) i.
Proof.
  eexists. split; [reflexivity|]. cbn [on_rc set_wrc wrc wck wos site].
  split_and!; try done.
  - apply uses_undolog_count, uses_undolog_count, uses_undolog_set.
  - unfold site. cbn. rewrite !prof_count_site. cbn. rewrite set_curr_tx_type_site.
    by rewrite prof_count_site.
  - intros i Hi. rewrite !prof_count_gates, other_gates_set, prof_count_gates; [done|].
    by rewrite prof_count_site.
Qed.

Lemma unexpected_signal_exits signo w :
  signo ≠ SIGUSR1 → signo ≠ SIGSEGV →
  rcvry_signal_action awd awp datamax signo w = Stop (Exit 1) w.
Proof.
  intros H1 H2. unfold rcvry_signal_action, is_expected_signal.
  by rewrite (proj2 (Z.eqb_neq SIGUSR1 signo)), (proj2 (Z.eqb_neq SIGSEGV signo)) by done.
Qed.

(** ** Dispatch *)

Definition dispatching w : world os := on_rc (set_dispatched_action (rcvry_type (cur_info (wrc w)))) w.

Lemma dispatch_run w a :
  site w <= max_site_id (wrc w) → actions_map (wrc w) (rcvry_type (cur_info (wrc w))) = Some a →
  rcvry_dispatch w =
  match run_action a (dispatching w) with
  | Ok e w' => if e =? RCVRY_E_OK then Ok RCVRY_E_OK w' else Stop (Exit 1) w'
  | Stop y w' => Stop y w'
  end.
Proof.
  intros Hs Ha. unfold rcvry_dispatch, mbind, prog_bind, gets, modify.
  rewrite (proj2 (Z.leb_le _ _)) by done. cbn. rewrite Ha. cbn.
  fold (dispatching w). destruct (run_action a (dispatching w)) as [e w'|]; [|done].
  by destruct (e =? RCVRY_E_OK).
Qed.

(** Dispatch only ever returns success: every failure ends the process. *)
Lemma dispatch_returns_ok w : ok_post rcvry_dispatch w (λ e _, e = RCVRY_E_OK).
Proof.
  unfold rcvry_dispatch. repeat ok_step.
  eapply ok_post_mono; [|apply run_action_contract]. intros e w' _. repeat ok_step; done.
Qed.

Lemma dispatch_unmapped w :
  site w <= max_site_id (wrc w) → actions_map (wrc w) (rcvry_type (cur_info (wrc w))) = None →
  rcvry_dispatch w = Stop Sigsegv (dispatching w).
Proof.
  intros Hs Ha. unfold rcvry_dispatch, mbind, prog_bind, gets, modify.
  rewrite (proj2 (Z.leb_le _ _)) by done. cbn. by rewrite Ha.
Qed.

(** ** Auto-adaptation *)

(** A sample is complete and the site still uses transactions. *)
Definition sample_due (r : rcvry) : Prop :=
  gates r (current_site_id r) ≠ ltckpt_type_val LTCKPT_TYPE_UNDOLOG ∧
  0 < num_tsx_hits (cur_info r) ∧ sample_count (cur_info r) = 0.

Lemma adapt_not_due r : ¬ sample_due r → RCVRY_AUTO_ADAPT_CHECK_AND_SWITCH r = r.
Proof.
  unfold sample_due, RCVRY_AUTO_ADAPT_CHECK_AND_SWITCH. intros H.
  destruct (Z.eqb_spec (gates r (current_site_id r)) (ltckpt_type_val LTCKPT_TYPE_UNDOLOG)); [done|].
  destruct (Z.ltb_spec 0 (num_tsx_hits (cur_info r))); cbn [negb]; [|done].
  destruct (Z.eqb_spec (sample_count (cur_info r)) 0); cbn [negb]; [|done].
  exfalso. auto.
Qed.

Lemma upd_cur_info_cur f r : cur_info (upd_cur_info f r) = f (cur_info r).
Proof. unfold cur_info. cbn. apply upd_eq. Qed.

Lemma upd_cur_info_uses f r :
  (∀ i, ltckpt_type (f i) = ltckpt_type i) → uses_undolog (upd_cur_info f r) ↔ uses_undolog r.
Proof.
  intros Hf. unfold uses_undolog, curr_tx_type. rewrite upd_cur_info_cur, Hf. done.
Qed.

(** Auto-adaptation.  When a sample of a site that still uses transactions is
    complete, the site switches to the undo log exactly when the scaled percentage of
    failed transactions reaches the threshold, and the counters start again; this
    holds as long as the products fit [uint32_t]. *)
Theorem auto_adapt_switches_at_threshold r :
  sample_due r →
  0 <= num_tsx_fails (cur_info r) → 0 <= auto_adapt_scale r →
  num_tsx_fails (cur_info r) * 100 < 4294967296 →
  num_tsx_fails (cur_info r) * 100 * auto_adapt_scale r < 4294967296 →
  let r' := RCVRY_AUTO_ADAPT_CHECK_AND_SWITCH r in
  (uses_undolog r' ↔ auto_adapt_threshold r * num_tsx_hits (cur_info r)
       <= num_tsx_fails (cur_info r) * 100 * auto_adapt_scale r) ∧
  num_tsx_hits (cur_info r') = 0 ∧ num_tsx_fails (cur_info r') = 0.
Proof.
  intros (Hg & Hh & Hc) Hf Hs Ho1 Ho2. cbn zeta.
  unfold RCVRY_AUTO_ADAPT_CHECK_AND_SWITCH.
  rewrite (proj2 (Z.eqb_neq _ _) Hg), (proj2 (Z.ltb_lt _ _) Hh), (proj2 (Z.eqb_eq _ _) Hc).
  cbn [negb]. rewrite (u32_small (_ * 100)), (u32_small (_ * _ * _)) by nia.
  set (v := num_tsx_fails (cur_info r) * 100 * auto_adapt_scale r).
  assert (auto_adapt_threshold r <= v / num_tsx_hits (cur_info r) ↔
          auto_adapt_threshold r * num_tsx_hits (cur_info r) <= v) as Hdiv.
  { split; [|intros; apply Z.div_le_lower_bound; lia].
    intros H. pose proof (Z.mul_div_le v (num_tsx_hits (cur_info r)) Hh). nia. }
  split; [|by rewrite upd_cur_info_cur]. rewrite upd_cur_info_uses by done.
  destruct (Z.leb_spec (auto_adapt_threshold r) (v / num_tsx_hits (cur_info r))) as [Hle|Hlt].
  - split; [by intros _; apply Hdiv|]. intros _. apply uses_undolog_set.
  - split; [by intros [_ ?]|]. intros H. apply Hdiv in H. lia.
Qed.

End Branches.

(** ** Theorems *)

(** Dispatch returns only success.  If [rcvry_dispatch] returns at all, it returns
    [RCVRY_E_OK] after an action that succeeded; an action that fails ends the process
    with status 1, and a type without an action faults on the call through NULL.  The
    branch of the handler for a failed dispatch is therefore never taken. *)
Theorem dispatch_outcomes `{cfg : Config} {os : Type} `{libc_os : LibC os} (w : world os) :
  site w <= max_site_id (wrc w) →
  match actions_map (wrc w) (rcvry_type (cur_info (wrc w))) with
  | None => rcvry_dispatch w = Stop Sigsegv (dispatching w)
  | Some a =>
      match run_action a (dispatching w) with
      | Ok e w' => (e = RCVRY_E_OK ∧ rcvry_dispatch w = Ok RCVRY_E_OK w') ∨
                   (e = RCVRY_E_FAIL ∧ rcvry_dispatch w = Stop (Exit 1) w')
      | Stop y w' => rcvry_dispatch w = Stop y w'
      end
  end.
Proof.
  intros Hs. destruct (actions_map _ _) as [a|] eqn:Ha; [|by apply dispatch_unmapped].
  rewrite (dispatch_run w a Hs Ha). pose proof (run_action_contract a (dispatching w)) as Hc.
  unfold ok_post in Hc. destruct (run_action a (dispatching w)) as [e w'|y w']; [|done].
  destruct Hc as [[-> _]|[-> _]]; [by left|by right].
Qed.

Lemma dispatch_outcomes_witness :
  returned (@rcvry_dispatch config_autoadapt trace_os trace_libc (@demo_world config_autoadapt))
  = Some RCVRY_E_OK.
Proof.
  pose proof (@dispatch_outcomes config_autoadapt trace_os trace_libc
    (@demo_world config_autoadapt)) as H.
  assert (actions_map (wrc (@demo_world config_autoadapt))
    (rcvry_type (cur_info (wrc (@demo_world config_autoadapt)))) = Some rcvry_ra_undo_malloc) as Ha
    by (vm_compute; reflexivity).
  rewrite Ha in H. clear Ha.
  assert (returned (@run_action config_autoadapt trace_os trace_libc rcvry_ra_undo_malloc
    (dispatching (@demo_world config_autoadapt))) = Some RCVRY_E_OK) as Hr
    by (vm_compute; reflexivity).
  destruct (@run_action config_autoadapt trace_os trace_libc rcvry_ra_undo_malloc
    (dispatching (@demo_world config_autoadapt))) as [e w'|]; [|discriminate Hr].
  injection Hr as ->. destruct H as [[_ H]|[H _]]; [vm_compute; discriminate| |discriminate H].
  rewrite H. reflexivity.
Defined.

(** The signals of the handler.  A signal other than [SIGSEGV] and [SIGUSR1] ends the
    process with status 1.  [SIGUSR1] moves the current site to the undo log, in the
    transaction type and in the gate, resumes at the top of the window, and leaves
    memory, the log and every other gate alone. *)
Theorem signal_switches_site `{cfg : Config} {os : Type} `{libc_os : LibC os}
    (awd awp datamax : Z) (w : world os) :
  (∀ signo, signo ≠ SIGUSR1 → signo ≠ SIGSEGV →
    rcvry_signal_action awd awp datamax signo w = Stop (Exit 1) w) ∧
  ∃ w', rcvry_signal_action awd awp datamax SIGUSR1 w = Stop RestoreRegisters w' ∧
    uses_undolog (wrc w') ∧ site w' = site w ∧ wck w' = wck w ∧
    ∀ i, i ≠ site w → gates (wrc w') i = gates (wrc w) i.
Proof.
  split; [intros; by apply unexpected_signal_exits|].
  destruct (signal_usr1_run awd awp datamax w) as (w' & ? & ? & ? & ? & _ & ?). by exists w'.
Qed.

Lemma repeated_faults_bounded_witness :
  ∃ w', nsteps (@refault config_autoadapt trace_os trace_libc 256 264 0) 1
          (@demo_world config_autoadapt) w' ∧ (1 <= 65)%nat.
Proof.
  set (w := @demo_world config_autoadapt).
  assert (match @rcvry_signal_action config_autoadapt trace_os trace_libc 256 264 0 SIGSEGV w with
          | Stop RestoreRegisters _ => true | _ => false end = true) as Hs
    by (vm_compute; reflexivity).
  destruct (@rcvry_signal_action config_autoadapt trace_os trace_libc 256 264 0 SIGSEGV w)
    as [u w'|y w'] eqn:E; [discriminate Hs|].
  assert (nsteps (@refault config_autoadapt trace_os trace_libc 256 264 0) 1 w w') as Hn.
  { apply nsteps_once. exists y, w'. split; [exact E|]. split; [|reflexivity].
    intros ->. discriminate Hs. }
  exists w'. split; [exact Hn|]. eapply (@repeated_faults_bounded config_autoadapt); [|exact Hn].
  vm_compute. split; discriminate.
Defined.

Lemma repeat_limit_exits_witness :
  ∃ w', @rcvry_signal_action config_autoadapt trace_os trace_libc 256 264 0 SIGSEGV
          (on_rc (λ r, set_repeat_count 64 (set_prev_site_id 7 r)) (@demo_world config_autoadapt))
        = Stop (Exit 2) w'.
Proof.
  apply (@repeat_limit_exits config_autoadapt trace_os trace_libc 256 264 0); reflexivity.
Defined.

(** A site with 10 transactions, [n] of which failed, and a threshold of 30%. *)
Definition sampled_site (n : Z) : rcvry :=
  set_auto_adapt_threshold 30 (upd_cur_info (λ i, set_num_tsx_fails n (set_num_tsx_hits 10 i))
    (@demo_rcvry config_autoadapt)).

Lemma auto_adapt_switches_at_threshold_witness :
  @uses_undolog config_autoadapt
    (@RCVRY_AUTO_ADAPT_CHECK_AND_SWITCH config_autoadapt (sampled_site 3)).
Proof.
  apply (@auto_adapt_switches_at_threshold config_autoadapt (sampled_site 3));
    try (vm_compute; congruence).
  split; [vm_compute; discriminate|]. split; reflexivity.
Defined.

(** The percentage of auto-adaptation is computed in [uint32_t]: a site all of whose
    42949673 transactions failed is not switched at a threshold of 30%, because the
    product by 100 wraps to 4. *)
Theorem auto_adapt_wraps :
  let r := set_auto_adapt_threshold 30
             (upd_cur_info (λ i, set_num_tsx_fails 42949673 (set_num_tsx_hits 42949673 i))
               (@demo_rcvry config_autoadapt)) in
  gates (@RCVRY_AUTO_ADAPT_CHECK_AND_SWITCH config_autoadapt r) 7
    = ltckpt_type_val LTCKPT_TYPE_TSX ∧
  auto_adapt_threshold r * num_tsx_hits (cur_info r) <= num_tsx_fails (cur_info r) * 100.
Proof. split; vm_compute; [reflexivity|discriminate]. Qed.
