(* ===== verification/Windows.v ===== *)
(** * Windows

    The hooks that open and close a recovery window: the top-of-the-loop and
    end-of-window hooks of the undo log ([mechanisms/ltckpt_writelog.c]) and of
    hardware transactions ([mechanisms/ltckpt_tsx.c]), the retries of a transaction,
    and the switch of a site from one to the other. *)
From stdpp Require Import base numbers list functions.
From Stdlib Require Import ZArith Lia.
From S2P Require Import Prelude Memory CString Ctx Profiling Writelog Rcvry RcvryActions.
From S2P Require Import RcvrySignal.

Definition XBEGIN_STARTED : Z := -1.

Section Windows.
Context `{cfg : Config} {os : Type} `{libc_os : LibC os} `{tsx_os : Tsx os}.
Context (awd awp datamax : Z).

Abbreviation P := (prog (world os)).

(** ** The undo log *)

(** The top-of-the-loop hook; [site_id] is its argument in a profiling build. *)
Definition undolog_top_of_the_loop (site_id : Z) : P () :=
  if LTCKPT_EMPTY_UNDOLOG_HOOKS then skip else
  modify (on_ck (λ s, set_cctx (CTX_NEW_LOG_SIZE (wl_position s) (cctx s)) s)) ;;
  go ← gets (λ w, (CTX_NEW_TOL_OR_RETURN (cctx (wck w))).1);
  modify (on_ck (λ s, set_cctx (CTX_NEW_TOL_OR_RETURN (cctx s)).2 s)) ;;
  if negb go then skip else
  when LTCKPT_WINDOW_PROFILING
    (modify (on_ck (λ s, if 0 <? wl_position s
       then profile_window (PROFILE_UNDOLOG_SIZE (wl_position s)) (ltckpt_current_site_id s) s
       else s))) ;;
  modify (on_ck (set_wl_position 0)) ;;
  modify (on_ck (λ s, set_cctx (CTX_NEW_CHECKPOINT (cctx s)) s)) ;;
  when LTCKPT_WINDOW_PROFILING
    (modify (on_ck (λ s, profile_window (PROFILE_TOL LTCKPT_TYPE_UNDOLOG) site_id
                           (set_ltckpt_current_site_id site_id s)))) ;;
  count num_hits_ckpt.

(** The transaction type a site goes back to. *)
Definition default_tx : ltckpt_type_t :=
  if RCVRY_CKPT_DEFAULT_TO_UNDOLOG then LTCKPT_TYPE_UNDOLOG else LTCKPT_TYPE_TSX.

(** Under [RCVRY_CKPT_DONT_REMEMBER] a site without a fixed type is reset at the
    end of its window. *)
Definition forget_switch (r : rcvry) : rcvry :=
  if decide (ltckpt_type (cur_info r) = LTCKPT_TYPE_INVALID)
  then set_cur_gate (ltckpt_type_val default_tx) (set_curr_tx_type default_tx r)
  else r.

Definition undolog_end_of_window : P () :=
  when RCVRY_CKPT_DONT_REMEMBER (modify (on_rc forget_switch)) ;;
  when RCVRY_AUTO_ADAPT (modify (on_rc RCVRY_AUTO_ADAPT_CHECK_AND_SWITCH)) ;;
  when RCVRY_DELAYED_FREE rcvry_ra_free_freelist.

(** ** Hardware transactions *)

Definition ltckpt_switch_to_undolog : P () :=
  if RCVRY_WINDOW_PROFILING then rcvry_signal_action awd awp datamax SIGUSR1
  else
    modify (on_rc (set_curr_tx_type LTCKPT_TYPE_UNDOLOG)) ;;
    modify (on_rc (set_cur_gate (ltckpt_type_val LTCKPT_TYPE_UNDOLOG))) ;;
    halt RestoreRegisters.

Definition profile_site (f : ltckpt_window → ltckpt_window) (site_id : Z) : P () :=
  when LTCKPT_WINDOW_PROFILING (modify (on_ck (profile_window f site_id))).

(** The counters of [RCVRY_AUTO_ADAPT] when a transaction fails; the remainder by a
    sample size of 0 faults. *)
Definition adapt_tsx_fail : P () :=
  modify (on_rc (upd_cur_info (λ i, set_num_tsx_fails (u32 (num_tsx_fails i + 1)) i))) ;;
  n ← gets (λ w, auto_adapt_sample_size (wrc w));
  if n =? 0 then halt Sigfpe else
  modify (on_rc (upd_cur_info (λ i, set_sample_count (u32 (sample_count i + 1) mod n) i))).

(** What the hook does once the retries are used up. *)
Definition tsx_give_up (site_id : Z) : P () :=
  profile_site PROFILE_TSX_FAIL site_id ;;
  when RCVRY_AUTO_ADAPT adapt_tsx_fail ;;
  if RCVRY_TSX_NO_SWITCHING then ltckpt_switch_to_undolog
  else if LTCKPT_NO_REG_RESTORATION then skip
  else rcvry_signal_action awd awp datamax SIGUSR1.

Definition do_xbegin : P Z := λ w, let '(s, o) := xbegin (wos w) in Ok s (set_wos o w).

(** The [while (1)] loop. *)
Fixpoint tsx_loop (fuel : nat) (site_id tries : Z) : P () :=
  match fuel with
  | O => halt Diverge
  | S fuel' =>
      status ← do_xbegin;
      if status =? XBEGIN_STARTED then profile_site PROFILE_TSX_BEGIN site_id
      else if tries - 1 <=? 0 then tsx_give_up site_id
      else tsx_loop fuel' site_id (tries - 1)
  end.

(** The number of attempts the loop makes at most. *)
Definition tsx_attempts : nat := Z.to_nat (Z.max 1 LTCKPT_TSX_MAX_TRIES).

Definition skips_tsx (r : rcvry) : bool :=
  LTCKPT_NO_TSX_FOR_RCVRY_FAIL && bool_decide (rcvry_type (cur_info r) = RCVRY_TYPE_FAIL).

Definition tsx_top_of_the_loop (site_id : Z) : P () :=
  profile_site (PROFILE_TOL LTCKPT_TYPE_TSX) site_id ;;
  r ← gets wrc;
  if skips_tsx r then skip else
  when RCVRY_AUTO_ADAPT
    (modify (on_rc (upd_cur_info (λ i, set_num_tsx_hits (u32 (num_tsx_hits i + 1)) i)))) ;;
  tsx_loop tsx_attempts site_id LTCKPT_TSX_MAX_TRIES ;;
  count num_hits_tsx.

(** The end-of-window hook; [PROFILE_TSX_END] has an empty body. *)
Definition tsx_end_of_window (site_id : Z) : P () :=
  r ← gets wrc;
  if skips_tsx r then skip else
  t ← gets (λ w, xtest (wos w));
  when t (modify (λ w, set_wos (xend (wos w)) w)) ;;
  profile_site (PROFILE_TOL LTCKPT_TYPE_TSX_END) site_id ;;
  when (negb RCVRY_AUTO_ADAPT && RCVRY_CKPT_DONT_REMEMBER) (modify (on_rc forget_switch)) ;;
  when RCVRY_DELAYED_FREE rcvry_ra_free_freelist.

End Windows.

(** ** Retries *)

Section Retries.
Context `{cfg : Config} {os : Type} `{libc_os : LibC os} `{tsx_os : Tsx os}.
Context (awd awp datamax : Z).
Implicit Types w : world os.

(** All of the next [n] attempts are aborted; the system afterwards. *)
Fixpoint all_aborted (n : nat) (o : os) : option os :=
  match n with
  | O => Some o
  | S n' => let '(s, o') := xbegin o in
            if s =? XBEGIN_STARTED then None else all_aborted n' o'
  end.

(** One of the next [n] attempts starts; the system after the first that does. *)
Fixpoint some_started (n : nat) (o : os) : option os :=
  match n with
  | O => None
  | S n' => let '(s, o') := xbegin o in
            if s =? XBEGIN_STARTED then Some o' else some_started n' o'
  end.

Lemma aborted_or_started n o :
  (∃ o', all_aborted n o = Some o') ∨ (∃ o', some_started n o = Some o').
Proof.
  revert o. induction n as [|n IH]; intros o; cbn; [eauto|].
  destruct (xbegin o) as [s o']. destruct (s =? XBEGIN_STARTED); eauto.
Qed.

(** The loop makes [n] attempts when it starts with [n] tries (one with none). *)
Lemma tsx_loop_run n site_id tries w :
  n = Z.to_nat (Z.max 1 tries) →
  tsx_loop awd awp datamax n site_id tries w =
  match all_aborted n (wos w) with
  | Some o => tsx_give_up awd awp datamax site_id (set_wos o w)
  | None =>
      match some_started n (wos w) with
      | Some o => profile_site PROFILE_TSX_BEGIN site_id (set_wos o w)
      | None => Stop Diverge w
      end
  end.
Proof.
  revert tries w. induction n as [|n IH]; intros tries w Hn; [lia|].
  cbn [tsx_loop all_aborted some_started]. unfold mbind, prog_bind, do_xbegin.
  destruct (xbegin (wos w)) as [s o']. destruct (s =? XBEGIN_STARTED); [done|].
  destruct (Z.leb_spec (tries - 1) 0).
  - assert (n = 0%nat) as -> by lia. done.
  - rewrite IH by lia. cbn. destruct (aborted_or_started n o') as [[o ->]|[o Ho]]; [done|].
    rewrite Ho. by case_match.
Qed.

(** Begin with a profiling step: it changes the profiling windows only. *)
Lemma profile_site_run f site_id w :
  ∃ w1, profile_site f site_id w = Ok () w1 ∧ wrc w1 = wrc w ∧ wos w1 = wos w ∧
    werrno w1 = werrno w ∧ wmem w1 = wmem w ∧ wl_position (wck w1) = wl_position (wck w).
Proof. unfold profile_site. destruct LTCKPT_WINDOW_PROFILING; by eexists. Qed.

(** The switch to the undo log, whether through the handler or directly. *)
Lemma switch_run w :
  ∃ w', ltckpt_switch_to_undolog awd awp datamax w = Stop RestoreRegisters w' ∧
    uses_undolog (wrc w') ∧ site w' = site w ∧ wck w' = wck w ∧ wos w' = wos w ∧
    ∀ i, i ≠ site w → gates (wrc w') i = gates (wrc w) i.
Proof.
  unfold ltckpt_switch_to_undolog. case_match; [apply signal_usr1_run|].
  eexists. split; [reflexivity|]. cbn [on_rc set_wrc wrc wck wos].
  split_and!; try done; [apply uses_undolog_set|apply set_curr_tx_type_site|].
  intros i Hi. by apply other_gates_set.
Qed.

(** The builds in which a failed transaction leads to the undo log. *)
Definition switches_on_failure : Prop :=
  RCVRY_TSX_NO_SWITCHING = true ∨ LTCKPT_NO_REG_RESTORATION = false.

(** The counters of auto-adaptation, when the build has it, can be updated. *)
Definition adapt_ready (r : rcvry) : Prop :=
  RCVRY_AUTO_ADAPT = true → auto_adapt_sample_size r ≠ 0.

Lemma adapt_fail_run w :
  adapt_ready (wrc w) →
  ∃ w1, when RCVRY_AUTO_ADAPT adapt_tsx_fail w = Ok () w1 ∧ site w1 = site w ∧
    gates (wrc w1) = gates (wrc w) ∧ wck w1 = wck w ∧ wos w1 = wos w.
Proof.
  intros Ha. unfold adapt_ready in Ha. destruct RCVRY_AUTO_ADAPT; [|by exists w].
  unfold when, adapt_tsx_fail, mbind, prog_bind, gets, modify. cbn.
  rewrite (proj2 (Z.eqb_neq _ _)) by auto. by eexists.
Qed.

Lemma give_up_run site_id w :
  switches_on_failure → adapt_ready (wrc w) →
  ∃ w', tsx_give_up awd awp datamax site_id w = Stop RestoreRegisters w' ∧
    uses_undolog (wrc w') ∧ site w' = site w ∧ wmem w' = wmem w ∧ wos w' = wos w ∧
    wl_position (wck w') = wl_position (wck w) ∧
    ∀ i, i ≠ site w → gates (wrc w') i = gates (wrc w) i.
Proof.
  intros Hb Ha. destruct (profile_site_run PROFILE_TSX_FAIL site_id w)
    as (w1 & H1 & Hrc1 & Hos1 & _ & Hm1 & Hp1).
  destruct (adapt_fail_run w1) as (w2 & H2 & Hs2 & Hg2 & Hck2 & Hos2).
  { unfold adapt_ready in *. by rewrite Hrc1. }
  assert (site w1 = site w) as Hs1 by (unfold site; by rewrite Hrc1).
  unfold tsx_give_up. rewrite (bind_Ok _ _ _ _ _ H1), (bind_Ok _ _ _ _ _ H2).
  assert (∃ w', (if RCVRY_TSX_NO_SWITCHING then ltckpt_switch_to_undolog awd awp datamax
     else if LTCKPT_NO_REG_RESTORATION then skip
     else rcvry_signal_action awd awp datamax SIGUSR1) w2 = Stop RestoreRegisters w' ∧
    uses_undolog (wrc w') ∧ site w' = site w2 ∧ wck w' = wck w2 ∧ wos w' = wos w2 ∧
    ∀ i, i ≠ site w2 → gates (wrc w') i = gates (wrc w2) i)
    as (w' & -> & Hu & Hs & Hck & Hos & Hg).
  { destruct RCVRY_TSX_NO_SWITCHING eqn:E; [apply switch_run|].
    destruct Hb as [?| ->]; [congruence|]. apply signal_usr1_run. }
  exists w'. unfold wmem in *. rewrite Hck, Hck2. split_and!; try done; try congruence.
  intros i Hi. rewrite Hg, Hg2, Hrc1; [done|congruence].
Qed.

End Retries.

(** ** The hook of hardware transactions *)

Section TsxHook.
Context `{cfg : Config} {os : Type} `{libc_os : LibC os} `{tsx_os : Tsx os}.
Context (awd awp datamax : Z).
Implicit Types w : world os.

(** Up to the loop the hook only counts. *)
Lemma tsx_hook_start site_id w :
  skips_tsx (wrc w) = false →
  ∃ w1, tsx_top_of_the_loop awd awp datamax site_id w =
      (tsx_loop awd awp datamax tsx_attempts site_id LTCKPT_TSX_MAX_TRIES ;;
       count num_hits_tsx) w1 ∧
    site w1 = site w ∧ gates (wrc w1) = gates (wrc w) ∧ wmem w1 = wmem w ∧ wos w1 = wos w ∧
    auto_adapt_sample_size (wrc w1) = auto_adapt_sample_size (wrc w) ∧
    wl_position (wck w1) = wl_position (wck w).
Proof.
  intros Hskip. destruct (profile_site_run (PROFILE_TOL LTCKPT_TYPE_TSX) site_id w)
    as (w1 & H1 & Hrc & Hos & _ & Hm & Hp).
  unfold tsx_top_of_the_loop. rewrite (bind_Ok _ _ _ _ _ H1).
  rewrite (bind_Ok _ _ w1 (wrc w1) w1), Hrc, Hskip by done.
  unfold site. destruct RCVRY_AUTO_ADAPT.
  - eexists. split; [reflexivity|]. cbn. rewrite Hrc. done.
  - exists w1. rewrite Hrc. done.
Qed.

Lemma tsx_hook_aborted site_id w o :
  skips_tsx (wrc w) = false → switches_on_failure → adapt_ready (wrc w) →
  all_aborted tsx_attempts (wos w) = Some o →
  ∃ w', tsx_top_of_the_loop awd awp datamax site_id w = Stop RestoreRegisters w' ∧
    uses_undolog (wrc w') ∧ site w' = site w ∧ wmem w' = wmem w ∧ wos w' = o ∧
    ∀ i, i ≠ site w → gates (wrc w') i = gates (wrc w) i.
Proof.
  intros Hskip Hb Ha Ho.
  destruct (tsx_hook_start site_id w Hskip) as (w1 & -> & Hs & Hg & Hm & Hos & Hn & _).
  destruct (give_up_run awd awp datamax site_id (set_wos o w1))
    as (w' & Hrun & Hu & Hs' & Hm' & Hos' & _ & Hg'); [done| |].
  { unfold adapt_ready in *. cbn. by rewrite Hn. }
  exists w'. unfold mbind, prog_bind. rewrite tsx_loop_run by done. rewrite Hos, Ho, Hrun.
  split_and!; try done; try congruence.
  - by rewrite Hs', <- Hs.
  - by rewrite Hm', <- Hm.
  - intros i Hi. rewrite Hg'; [by rewrite <- Hg|]. unfold site in *. cbn. congruence.
Qed.

Lemma tsx_hook_started site_id w o :
  skips_tsx (wrc w) = false → some_started tsx_attempts (wos w) = Some o →
  all_aborted tsx_attempts (wos w) = None →
  ∃ w', tsx_top_of_the_loop awd awp datamax site_id w = Ok () w' ∧
    gates (wrc w') = gates (wrc w) ∧ wmem w' = wmem w ∧ wos w' = o.
Proof.
  intros Hskip Ho Hna.
  destruct (tsx_hook_start site_id w Hskip) as (w1 & -> & Hs & Hg & Hm & Hos & _ & _).
  destruct (profile_site_run PROFILE_TSX_BEGIN site_id (set_wos o w1))
    as (w2 & H2 & Hrc2 & Hos2 & _ & Hm2 & _).
  unfold mbind, prog_bind. rewrite tsx_loop_run by done. rewrite Hos, Ho, Hna, H2.
  eexists. split; [reflexivity|]. cbn. rewrite prof_count_gates, Hrc2. cbn.
  split_and!; try done. unfold wmem in *. cbn. by rewrite Hm2, <- Hm.
Qed.

End TsxHook.

(** ** Theorems *)

(** C11: The hook of hardware transactions decides within the configured number of tries. Consider
    a site the hook does not skip (it skips the sites of type [RCVRY_TYPE_FAIL] in builds with
    [LTCKPT_NO_TSX_FOR_RCVRY_FAIL]), in a build in which a failed transaction leads to the undo
    log (with [RCVRY_TSX_NO_SWITCHING] or with the restoration of registers), with a sample size
    other than 0 for auto-adaptation if that is built in ([adapt_ready]; the sample size is 0
    unless the environment sets it, and the hook then divides by zero,
    [tsx_failure_divides_by_zero]). If one of the first [LTCKPT_TSX_MAX_TRIES] attempts (at least
    one) to begin a transaction starts, the hook returns inside that transaction, with memory and
    gates as they were; if all are aborted, the site is moved to the undo log and control goes
    back to the top of the window, with memory and all other gates as they were. The loop never
    runs out of its bound. *)
Theorem tsx_hook_decides `{cfg : Config} {os : Type} `{libc_os : LibC os} `{tsx_os : Tsx os}
    (awd awp datamax site_id : Z) (w : world os) :
  skips_tsx (wrc w) = false → switches_on_failure → adapt_ready (wrc w) →
  match all_aborted tsx_attempts (wos w) with
  | Some o =>
      ∃ w', tsx_top_of_the_loop awd awp datamax site_id w = Stop RestoreRegisters w' ∧
        uses_undolog (wrc w') ∧ site w' = site w ∧ wmem w' = wmem w ∧ wos w' = o ∧
        ∀ i, i ≠ site w → gates (wrc w') i = gates (wrc w) i
  | None =>
      ∃ o w', some_started tsx_attempts (wos w) = Some o ∧
        tsx_top_of_the_loop awd awp datamax site_id w = Ok () w' ∧
        gates (wrc w') = gates (wrc w) ∧ wmem w' = wmem w ∧ wos w' = o
  end.
Proof.
  intros Hs Hb Ha. destruct (all_aborted tsx_attempts (wos w)) as [o|] eqn:E.
  - by apply tsx_hook_aborted.
  - destruct (aborted_or_started tsx_attempts (wos w)) as [[o Ho]|[o Ho]]; [congruence|].
    destruct (tsx_hook_started awd awp datamax site_id w o Hs Ho E) as (w' & ? & ? & ? & ?).
    by exists o, w'.
Qed.

(** A process whose next three transactions are aborted, the fourth would start. *)
Definition aborting_world : world trace_os :=
  set_wos (mk_trace_os [] [] 0 [1; 2; 6; -1] false)
    (on_rc (set_auto_adapt_sample_size 4) (@demo_world config_autoadapt)).

Lemma tsx_hook_decides_witness :
  ∃ w', @tsx_top_of_the_loop config_autoadapt trace_os trace_libc trace_tsx 0 0 0 3 aborting_world
        = Stop RestoreRegisters w' ∧ xstatus (wos w') = [-1].
Proof.
  pose proof (@tsx_hook_decides config_autoadapt trace_os trace_libc trace_tsx 0 0 0 3
    aborting_world) as H.
  assert (all_aborted (@tsx_attempts config_autoadapt) (wos aborting_world)
    = Some (mk_trace_os [] [] 0 [-1] false)) as Ha by (vm_compute; reflexivity).
  rewrite Ha in H. destruct H as (w' & Hrun & _ & _ & _ & Ho & _).
  - vm_compute. reflexivity.
  - left. reflexivity.
  - intros _. vm_compute. discriminate.
  - exists w'. split; [exact Hrun|]. rewrite Ho. reflexivity.
Defined.

(** With auto-adaptation built in and its sample size left at the default of 0, the
    first failed transaction faults on the division instead of switching to the undo
    log. *)
Theorem tsx_failure_divides_by_zero `{cfg : Config} {os : Type} `{libc_os : LibC os}
    `{tsx_os : Tsx os} (awd awp datamax site_id : Z) (w : world os) (o : os) :
  RCVRY_AUTO_ADAPT = true → auto_adapt_sample_size (wrc w) = 0 →
  skips_tsx (wrc w) = false → all_aborted tsx_attempts (wos w) = Some o →
  ∃ w', tsx_top_of_the_loop awd awp datamax site_id w = Stop Sigfpe w'.
Proof.
  intros Hb Hz Hs Ho.
  destruct (tsx_hook_start awd awp datamax site_id w Hs) as (w1 & -> & _ & _ & _ & Hos & Hn & _).
  destruct (profile_site_run PROFILE_TSX_FAIL site_id (set_wos o w1)) as (w2 & H2 & Hrc & _).
  unfold mbind at 1, prog_bind at 1. rewrite tsx_loop_run, Hos, Ho by done.
  unfold tsx_give_up. rewrite (bind_Ok _ _ _ _ _ H2), Hb.
  unfold when, adapt_tsx_fail, mbind, prog_bind, modify, gets. cbn.
  rewrite Hrc. cbn. rewrite Hn, Hz. by eexists.
Qed.

Lemma tsx_failure_divides_by_zero_witness :
  ∃ w', @tsx_top_of_the_loop config_autoadapt trace_os trace_libc trace_tsx 0 0 0 3
          (on_rc (set_auto_adapt_sample_size 0) aborting_world) = Stop Sigfpe w'.
Proof.
  apply (@tsx_failure_divides_by_zero config_autoadapt trace_os trace_libc trace_tsx 0 0 0 3
    (on_rc (set_auto_adapt_sample_size 0) aborting_world) (mk_trace_os [] [] 0 [-1] false));
    vm_compute; reflexivity.
Defined.
