(* ===== verification/Recovery.v ===== *)
(** * Recovery from a fault

    The components put together: a program runs instrumented in an undo-log window,
    faults, and the signal handler runs the recovery action of the library call that
    opened the window and rolls memory back.  The program then resumes at the top of
    the window with the memory it had there, the library call reporting an error and
    the gate of the site in its new position. *)
From stdpp Require Import base numbers list functions sets.
From Stdlib Require Import ZArith Lia.
From S2P Require Import Prelude Memory CString Ctx Profiling Writelog UndoWindow Rcvry.
From S2P Require Import RcvryActions RcvrySignal Windows.

Section Recovery.
Context `{cfg : Config} {os : Type} `{libc_os : LibC os}.
Context (awd awp datamax : Z).
Implicit Types w : world os.

(** ** Up to the action *)

(** Between the delivery of the signal and the action, only counters, gates and the
    statics of the handler change. *)
Record prep w w' : Prop := {
  pr_ck : wck w' = wck w;
  pr_os : wos w' = wos w;
  pr_errno : werrno w' = werrno w;
  pr_site : site w' = site w;
  pr_raddr : return_addr (wrc w') = return_addr (wrc w);
  pr_tx : current_tx_type (wrc w') = current_tx_type (wrc w);
  pr_max : max_site_id (wrc w') = max_site_id (wrc w);
  pr_map : actions_map (wrc w') = actions_map (wrc w);
  pr_info : ∀ i, same_site_info (info (wrc w') i) (info (wrc w) i);
  pr_gates : ∀ i, i ≠ site w → gates (wrc w') i = gates (wrc w) i;
}.

#[local] Instance prep_preorder : PreOrder prep.
Proof.
  split.
  - intros w. by split.
  - intros w1 w2 w3 [] []. split; try congruence.
    + intros i. destruct (pr_info0 i) as (?&?&?&?), (pr_info1 i) as (?&?&?&?).
      unfold same_site_info. split_and!; congruence.
    + intros i Hi. rewrite pr_gates1, pr_gates0; [done|done|congruence].
Qed.

Lemma prep_cur w w' : prep w w' → same_site_info (cur_info (wrc w')) (cur_info (wrc w)).
Proof.
  intros H. unfold cur_info. change (current_site_id (wrc w')) with (site w').
  rewrite (pr_site _ _ H). apply (pr_info _ _ H).
Qed.

Lemma prep_mem w w' : prep w w' → wmem w' = wmem w.
Proof. intros H. unfold wmem. by rewrite (pr_ck _ _ H). Qed.

Lemma prep_tx w w' : prep w w' → curr_tx_type (wrc w') = curr_tx_type (wrc w).
Proof.
  intros H. unfold curr_tx_type. case_match; [apply (pr_tx _ _ H)|].
  by rewrite (proj1 (prep_cur _ _ H)).
Qed.

Lemma prep_fits a w w' : prep w w' → site_fits a w → site_fits a w'.
Proof.
  intros H (Hn & Hr & Ha). destruct (prep_cur _ _ H) as (_ & _ & Hc & Hv).
  unfold site_fits. rewrite Hc, Hv, (prep_mem _ _ H), (pr_raddr _ _ H). done.
Qed.

Lemma prep_rc_frame f w : (∀ r, rc_frame r (f r)) → prep w (on_rc f w).
Proof. intros H. destruct (H (wrc w)). by split. Qed.

Lemma prep_count c w : prep w (on_rc (prof_count c) w).
Proof. apply prep_rc_frame. intros r. apply rc_frame_prof_count. Qed.

Lemma prep_close w : prep w (on_rc (set_cur_gate RCVRY_LIBCALL_GATE_CLOSE) w).
Proof. split; try done. intros i Hi. cbn. by apply upd_ne. Qed.

Lemma prep_dispatching w : prep w (dispatching w).
Proof. by split. Qed.

(** The limit on repeated recoveries is not reached. *)
Definition below_limit (r : rcvry) : Prop :=
  prev_site_id r ≠ current_site_id r ∨ 0 <= repeat_count r < 64.

Lemma limit_run w :
  below_limit (wrc w) → ∃ w1, limit_repeats w = Ok () w1 ∧ prep w w1.
Proof.
  intros Hl. unfold limit_repeats, mbind, prog_bind, gets, modify.
  destruct (Z.eqb_spec (prev_site_id (wrc w)) (current_site_id (wrc w))) as [E|E]; cbn.
  - destruct Hl as [Hl|Hl]; [done|].
    rewrite u32_small, (proj2 (Z.ltb_ge _ _)) by lia. cbn. eexists. split; [done|]. by split.
  - eexists. split; [done|]. by split.
Qed.

Lemma below_limit_count c r : below_limit r → below_limit (prof_count c r).
Proof.
  unfold below_limit. pose proof (rc_frame_prof_count c r) as Hf.
  by rewrite (fr_prev _ _ Hf), (fr_site _ _ Hf), (fr_repeat _ _ Hf).
Qed.

(** ** Recoverable faults *)

(** The call action [a] makes to release what the library call acquired, and the
    memory it leaves. *)
Definition release a w : option libcall := undo_call a (wmem w) (argv (cur_info (wrc w))).

Definition released a w : mem := wmem (after_call (release a w) w).

(** A fault in the window of a library call that action [a] can undo: the call that
    releases succeeds and does not write into the log (it may write anywhere else),
    and unblocking a signal writes no memory. *)
Record recoverable (a : rcvry_action) w : Prop := {
  rv_tx : curr_tx_type (wrc w) = ltckpt_type_val LTCKPT_TYPE_UNDOLOG;
  rv_site : site w <= max_site_id (wrc w);
  rv_map : actions_map (wrc w) (rcvry_type (cur_info (wrc w))) = Some a;
  rv_fail : a ≠ rcvry_ra_fail;
  rv_fits : site_fits a w;
  rv_limit : below_limit (wrc w);
  rv_undo : ∀ c, release a w = Some c →
    undo_failed a (libc_call c (wmem w) (wos w)).1 = false;
  rv_log : ∀ x, in_log (wck w) x → released a w x = wmem w x;
  rv_mask : ∀ set m o, libc_mem (C_sigprocmask_unblock set) m o = m;
  rv_slot : ∀ x, in_block (return_addr (wrc w)) 4 x → not_in_log (wck w) x;
}.

Lemma action_recovers a w :
  a ≠ rcvry_ra_fail → site_fits a w →
  (∀ c, release a w = Some c → undo_failed a (libc_call c (wmem w) (wos w)).1 = false) →
  ∃ w', run_action a w = Ok RCVRY_E_OK w' ∧ reports_error a (release a w) w w'.
Proof.
  intros Ha Hf Hu. pose proof (run_action_outcome a w Ha Hf) as Ho.
  unfold action_outcome in Ho. fold (release a w) in Ho.
  destruct (release a w) as [c|]; [|done]. by rewrite (Hu c eq_refl) in Ho.
Qed.

(** ** Rollback after the action *)

#[local] Instance covered_dec es x : Decision (covered es x).
Proof.
  refine (cast_if (decide (Exists (λ e : entry, in_block e.1 (zlen e.2) x) es)));
    unfold covered; by rewrite <- Exists_exists.
Defined.

(** A restart of a window whose memory outside the log has been changed behind the
    hooks: what the window saved is rolled back all the same, the rest is left. *)
Lemma restart_from m0 base s es m :
  window_inv awd awp datamax m0 base s es → (∀ x, in_log s x → m x = cmem s x) →
  ∃ s', ltckpt_restart awd awp datamax (set_cmem m s) = Ok 0 s' ∧ wl_position s' = 0 ∧
    ∀ x, not_in_log s x →
      (covered es x → cmem s' x = m0 x) ∧
      (¬ covered es x → cmem s' x = m x ∧ cmem s x = m0 x).
Proof.
  intros [Hd Hr Hw Hc Hu] Hp. set (s1 := set_cmem m s).
  assert (window_inv awd awp datamax (undo es (cmem s1)) base s1 es) as Hi.
  { split; [done| |done|done|done]. apply log_repr_agree; [|done]. intros x Hx. symmetry.
    apply Hp. destruct Hr as (_ & ? & _). log_lia. }
  destruct (restart_inv awd awp datamax _ _ _ _ Hi) as (s' & Hrun & Hpos & Hm).
  exists s'. split_and!; [done|done|]. intros x Hx. rewrite (Hm x Hx). split; intros Hcov.
  - rewrite <- (Hu x Hx). apply (undo_agree (λ y, y = x)); [|done]. intros y [-> Hy]. done.
  - rewrite undo_uncovered by done. rewrite <- (Hu x Hx), undo_uncovered by done. done.
Qed.

Lemma prep_release a w w' : prep w w' → release a w' = release a w.
Proof.
  intros H. destruct (prep_cur _ _ H) as (_ & _ & _ & Hav). unfold release.
  by rewrite Hav, (prep_mem _ _ H).
Qed.

Lemma prep_released a w w' : prep w w' → released a w' = released a w.
Proof.
  intros H. unfold released. rewrite (prep_release a _ _ H).
  destruct (release a w) as [c|]; cbn; by rewrite ?(prep_mem _ _ H), ?(pr_os _ _ H).
Qed.

(** ** The handler *)

(** Up to and including dispatch. *)
Lemma recover_prefix a w (k : Z → prog (world os) ()) :
  recoverable a w →
  ∃ w1 w2, prep w w1 ∧ reports_error a (release a w) w1 w2 ∧
    (limit_repeats ;; modify (on_rc (set_cur_gate RCVRY_LIBCALL_GATE_CLOSE)) ;;
     count num_rcvry_success__errpath ;; e ← rcvry_dispatch; k e) w = k RCVRY_E_OK w2.
Proof.
  intros [Htx Hsite Hmap Hfail Hfits Hlim Hundo _ _ _].
  destruct (limit_run w Hlim) as (wa & Ha & Hpa).
  set (wb := on_rc (prof_count num_rcvry_success__errpath)
    (on_rc (set_cur_gate RCVRY_LIBCALL_GATE_CLOSE) wa)).
  assert (prep w wb) as Hpb.
  { etransitivity; [exact Hpa|]. etransitivity; [apply prep_close|apply prep_count]. }
  set (w1 := dispatching wb).
  assert (prep w w1) as Hp1 by (etransitivity; [exact Hpb|apply prep_dispatching]).
  destruct (prep_cur _ _ Hpb) as (_ & Hty & _ & _).
  pose proof (prep_release a _ _ Hp1) as Hos.
  destruct (action_recovers a w1) as (w2 & Hrun & Hrep).
  { done. }
  { by eapply prep_fits. }
  { intros c. rewrite Hos, (prep_mem _ _ Hp1), (pr_os _ _ Hp1). apply Hundo. }
  exists w1, w2. rewrite Hos in Hrep. split_and!; [done|done|].
  rewrite (bind_Ok _ _ _ _ _ Ha). rewrite (bind_Ok _ _ wa () (on_rc (set_cur_gate RCVRY_LIBCALL_GATE_CLOSE) wa)) by done.
  rewrite (bind_Ok _ _ _ () wb) by done.
  rewrite (bind_Ok _ _ wb RCVRY_E_OK w2); [done|].
  rewrite (dispatch_run wb a); [fold w1; by rewrite Hrun| |].
  - by rewrite (pr_site _ _ Hpb), (pr_max _ _ Hpb).
  - by rewrite Hty, (pr_map _ _ Hpb).
Qed.

(** What the program finds when it resumes at the top of the window, which started
    with memory [m0]: bytes that were saved, and bytes that neither the slot of the
    return value nor the releasing call touched, are as they were; the slot holds the
    error value, unless it was saved; the rest is as the releasing call left it. *)
Record recovered (m0 : mem) (es : list entry) (a : rcvry_action) w w' : Prop := {
  rd_mem : ∀ x, not_in_log (wck w) x →
    covered es x ∨ (¬ in_block (return_addr (wrc w)) 4 x ∧ released a w x = wmem w x) →
    wmem w' x = m0 x;
  rd_slot : ∀ x, not_in_log (wck w) x → ¬ covered es x →
    wmem w' x = store_u32 (released a w) (return_addr (wrc w))
                  (error_value a (argv (cur_info (wrc w)))) x;
  rd_log : wl_position (wck w') = 0;
  rd_gate : gates (wrc w') (site w) = gate_after (wrc w);
  rd_gates : ∀ i, i ≠ site w → gates (wrc w') i = gates (wrc w) i;
  rd_site : site w' = site w;
}.

Lemma store_u32_u64 m p v : store_u32 m p (u64 v) = store_u32 m p v.
Proof.
  unfold store_u32. f_equal. rewrite <- (le_bytes_mod 4 v), <- (le_bytes_mod 4 (u64 v)).
  f_equal. unfold u64, uwrap. change (256 ^ Z.of_nat 4) with 4294967296.
  change (2 ^ 64) with (4294967296 * 4294967296). rewrite Z.rem_mul_r by lia.
  rewrite Z.mul_comm, Z.mod_add, Z.mod_mod by lia. done.
Qed.

Lemma frame_tx r r' : rc_frame r r' → curr_tx_type r' = curr_tx_type r.
Proof.
  intros H. unfold curr_tx_type. case_match; [apply (fr_tx _ _ H)|].
  unfold cur_info. rewrite (fr_site _ _ H). f_equal. apply (fr_info _ _ H).
Qed.

(** The rollback and the end of the branch for [SIGSEGV]. *)
Lemma recover_suffix m0 base es m w1 w2 :
  window_inv awd awp datamax m0 base (wck w1) es →
  (∀ x, in_log (wck w1) x → m x = wmem w1 x) →
  (∀ set m o, libc_mem (C_sigprocmask_unblock set) m o = m) →
  wck w2 = set_cmem m (wck w1) →
  curr_tx_type (wrc w2) = ltckpt_type_val LTCKPT_TYPE_UNDOLOG →
  ∃ w3, (when (RCVRY_E_FAIL =? RCVRY_E_OK) (halt (Exit 1)) ;;
         tx ← gets (λ w, curr_tx_type (wrc w));
         when (tx =? ltckpt_type_val LTCKPT_TYPE_UNDOLOG)
           (invoke_stm_recovery awd awp datamax ;; skip) ;;
         unblock_sig SIGSEGV) w2 = Ok () w3 ∧
    wrc w3 = wrc w2 ∧ wl_position (wck w3) = 0 ∧
    ∀ x, not_in_log (wck w1) x →
      (covered es x → wmem w3 x = m0 x) ∧
      (¬ covered es x → wmem w3 x = m x ∧ wmem w1 x = m0 x).
Proof.
  intros Hi Hp Hmask Hck Htx. destruct (restart_from _ _ _ _ m Hi Hp) as (s' & Hrun & Hpos & Hm).
  unfold when, mbind, prog_bind, gets. cbn [Z.eqb RCVRY_E_FAIL RCVRY_E_OK]. cbn [skip].
  rewrite Htx, Z.eqb_refl. unfold invoke_stm_recovery, mbind, prog_bind, lift_ck.
  rewrite Hck, Hrun. cbn [Z.eqb]. eexists. split; [reflexivity|]. cbn.
  unfold wmem, called, set_wmem, on_ck. cbn. by rewrite Hmask.
Qed.

(** Counting and closing the gate leave a fault recoverable. *)
Lemma recoverable_count c a w : recoverable a w → recoverable a (on_rc (prof_count c) w).
Proof.
  intros [Htx Hsite Hmap Hfail Hfits Hlim Hundo Hlog Hmask Hslot].
  pose proof (prep_count c w) as Hp. destruct (prep_cur _ _ Hp) as (_ & Hty & _ & Hav).
  split.
  - by rewrite (prep_tx _ _ Hp).
  - by rewrite (pr_site _ _ Hp), (pr_max _ _ Hp).
  - by rewrite Hty, (pr_map _ _ Hp).
  - done.
  - by eapply prep_fits.
  - by apply below_limit_count.
  - intros c'. rewrite (prep_release _ _ _ Hp). apply Hundo.
  - rewrite (prep_released _ _ _ Hp). apply Hlog.
  - done.
  - rewrite (pr_raddr _ _ Hp). apply Hslot.
Qed.

Lemma after_call_ck oc w : wck (after_call oc w) = set_cmem (wmem (after_call oc w)) (wck w).
Proof. destruct oc; [done|]. symmetry. apply set_cmem_id. Qed.

Lemma recover_from_fault_run m0 base es a w :
  window_inv awd awp datamax m0 base (wck w) es → recoverable a w →
  ∃ w', recover_from_fault awd awp datamax w = Ok () w' ∧ recovered m0 es a w w'.
Proof.
  intros Hi Hrv. unfold recover_from_fault.
  edestruct (recover_prefix a w) as (w1 & w2 & Hp & (Haft & Hv & _ & _) & Hrun); [done|].
  rewrite Hrun. clear Hrun. destruct Haft as (Hf & _ & Hg & Hck).
  rewrite <- (prep_release _ _ _ Hp), after_call_ck, set_cmem_set in Hck.
  fold (released a w1) in Hck. unfold site in Hg.
  rewrite after_call_rc in Hf, Hg, Hck. rewrite (prep_released _ _ _ Hp) in Hck.
  destruct (prep_cur _ _ Hp) as (_ & _ & _ & Hav).
  destruct (recover_suffix m0 base es
    (store_u32 (released a w) (return_addr (wrc w)) (return_value (wrc w2))) w1 w2)
    as (w3 & Hrun & Hrc & Hpos & Hm).
  - by rewrite (pr_ck _ _ Hp).
  - rewrite (pr_ck _ _ Hp), (prep_mem _ _ Hp). intros x Hx. rewrite <- (rv_log _ _ Hrv x Hx).
    apply store_u32_out. intros Hb. by apply (rv_slot _ _ Hrv x Hb).
  - apply (rv_mask _ _ Hrv).
  - rewrite Hck. by rewrite (pr_raddr _ _ Hp).
  - by rewrite (frame_tx _ _ Hf), (prep_tx _ _ Hp), (rv_tx _ _ Hrv).
  - exists w3. split; [exact Hrun|]. rewrite (pr_ck _ _ Hp), (prep_mem _ _ Hp) in Hm. split.
    + intros x Hx Hc. destruct (decide (covered es x)) as [Hcov|Hcov]; [by apply Hm|].
      destruct Hc as [Hc|[Hns Hlib]]; [done|]. destruct (proj2 (Hm x Hx) Hcov) as [-> <-].
      by rewrite store_u32_out.
    + intros x Hx Hc. rewrite (proj1 (proj2 (Hm x Hx) Hc)), Hv, store_u32_u64. by rewrite Hav.
    + done.
    + rewrite Hrc, <- (pr_site _ _ Hp). unfold site. rewrite Hg. unfold gate_after.
      by rewrite (pr_tx _ _ Hp).
    + intros i Hi'. rewrite Hrc, (fr_gates _ _ Hf); [by apply (pr_gates _ _ Hp)|].
      change (current_site_id (wrc w1)) with (site w1). by rewrite (pr_site _ _ Hp).
    + unfold site. rewrite Hrc, (fr_site _ _ Hf). apply (pr_site _ _ Hp).
Qed.

Lemma recovery_run m0 base es a w :
  window_inv awd awp datamax m0 base (wck w) es → recoverable a w →
  ∃ w', rcvry_signal_action awd awp datamax SIGSEGV w = Stop RestoreRegisters w' ∧
    recovered m0 es a w w'.
Proof.
  intros Hi Hrv. set (w0 := on_rc (prof_count num_hits) w).
  assert (prep w w0) as Hp by apply prep_count.
  destruct (prep_cur _ _ Hp) as (_ & _ & _ & Hav).
  destruct (recover_from_fault_run m0 base es a w0) as (w1 & Hrun & [Hm Hs Hl Hg Hgs Hst]).
  { done. }
  { by apply recoverable_count. }
  exists (on_rc (prof_count num_rcvry_successes) w1). split.
  - transitivity ((recover_from_fault awd awp datamax ;;
      count num_rcvry_successes ;; halt (A := ()) RestoreRegisters) w0); [done|].
    by rewrite (bind_Ok _ _ _ _ _ Hrun).
  - rewrite (pr_raddr _ _ Hp) in Hm, Hs. rewrite (pr_site _ _ Hp) in Hg, Hgs, Hst.
    rewrite Hav in Hs. rewrite (prep_released _ _ _ Hp) in Hm, Hs. rewrite (prep_mem _ _ Hp) in Hm.
    split; cbn [wck wrc on_rc set_wrc werrno]; try done.
    + by rewrite prof_count_gates, Hg; unfold gate_after; rewrite (pr_tx _ _ Hp).
    + intros i Hi'. rewrite prof_count_gates, Hgs by done. by apply (pr_gates _ _ Hp).
    + unfold site in *. cbn. by rewrite prof_count_site.
Qed.

(** ** A window from its top to a fault *)

(** The context takes a checkpoint at the next top of the loop. *)
Definition checkpoint_due w : Prop := tol_returns (cctx (wck w)) = false.

Lemma tol_returns_log_size ls c : tol_returns (CTX_NEW_LOG_SIZE ls c) = tol_returns c.
Proof. unfold CTX_NEW_LOG_SIZE. by case_match. Qed.

Lemma undolog_tol_run site_id w :
  hooks_enabled → checkpoint_due w →
  ∃ w1, undolog_top_of_the_loop site_id w = Ok () w1 ∧
    wl_position (wck w1) = 0 ∧ wl_data (wck w1) = wl_data (wck w) ∧ wmem w1 = wmem w ∧
    num_checkpoints (cctx (wck w1)) = u64 (num_checkpoints (cctx (wck w)) + 1).
Proof.
  intros Hen Hdue. unfold undolog_top_of_the_loop. rewrite Hen.
  unfold mbind, prog_bind, modify, gets. cbn [on_ck set_wck wck cctx set_cctx].
  unfold CTX_NEW_TOL_OR_RETURN. rewrite tol_returns_log_size, Hdue. cbn [fst snd negb].
  unfold when, CTX_NEW_LOG_SIZE.
  destruct LTCKPT_WINDOW_PROFILING; cbn; eexists; (split; [reflexivity|]); cbn;
    repeat case_match; done.
Qed.

(** A window in which the log is empty. *)
Lemma fresh_window s : wl_position s = 0 → window_inv awd awp datamax (cmem s) (wl_data s) s [].
Proof.
  intros Hp. split; [done| |constructor|constructor|done].
  split_and!; [by rewrite Hp|by rewrite Hp|]. intros i e Hi. by rewrite lookup_nil in Hi.
Qed.

End Recovery.

(** ** Theorems *)

(** C1: Recovery from a fault in an undo-log window.  Let a window be opened by the
    top-of-the-loop hook, let the program run any instrumented stores and copies the
    hooks cover and the log has room for, and let it then fault at a site whose
    recovery action can run ([recoverable]: the arguments recorded for the site fit
    the action, fewer than 64 repetitions were counted, the call that releases what
    the library call acquired succeeds, and the log and the return slot are disjoint).
    That call may write any memory outside the log, as free and the mutex calls do.
    The signal handler gives control back at the top of the window.  Every byte
    outside the log that the window saved is what it was at the top of the window,
    even where the releasing call wrote it (the rollback runs after the call); so is
    every other byte that is neither in the return slot nor written by the releasing
    call.  The return slot holds the error value of the action unless the window had
    saved it, and the bytes the releasing call alone wrote keep what it wrote.  The
    log is empty, the gate of the site is in the position the build chooses and no
    other gate has moved. *)
Theorem fault_recovery_restores_window `{cfg : Config} {os : Type} `{libc_os : LibC os}
    (awd awp datamax site_id : Z) (a : rcvry_action) (ops : list app_op) (w : world os) :
  hooks_enabled → checkpoint_due w →
  Forall (op_ok awd awp datamax (wck w)) ops →
  entry_size * ops_entries ops <= WRITELOG_BYTES →
  let w1 := final (undolog_top_of_the_loop site_id w) in
  let c2 := final (app_run ops (wck w1)) in
  let w2 := set_wck c2 w1 in
  let saved := in_regions (ops ≫= op_regs) in
  let slot := in_block (return_addr (wrc w2)) 4 in
  recoverable a w2 →
  undolog_top_of_the_loop site_id w = Ok () w1 ∧ app_run ops (wck w1) = Ok () c2 ∧
  ∃ w3, rcvry_signal_action awd awp datamax SIGSEGV w2 = Stop RestoreRegisters w3 ∧
    (∀ x, not_in_log (wck w) x →
      saved x ∨ (¬ slot x ∧ released a w2 x = wmem w2 x) → wmem w3 x = wmem w x) ∧
    (∀ x, not_in_log (wck w) x → ¬ saved x →
      wmem w3 x = store_u32 (released a w2) (return_addr (wrc w2))
                    (error_value a (argv (cur_info (wrc w2)))) x) ∧
    wl_position (wck w3) = 0 ∧
    gates (wrc w3) (site w2) = gate_after (wrc w2) ∧
    (∀ i, i ≠ site w2 → gates (wrc w3) i = gates (wrc w2) i).
Proof.
  intros Hen Hdue Hok Hroom. cbn zeta.
  destruct (undolog_tol_run site_id w Hen Hdue) as (w1 & Htol & Hpos & Hdata & Hmem & _).
  rewrite Htol. cbn [final].
  pose proof (fresh_window awd awp datamax (wck w1) Hpos) as Hw.
  destruct (app_run_inv awd awp datamax _ _ ops (wck w1) [] Hen Hw)
    as (c2 & es & Hrun & Hi & Hes).
  { eapply Forall_impl; [exact Hok|]. intros op. by apply op_ok_data. }
  { done. }
  rewrite Hrun. cbn [final app] in *. intros Hrv.
  destruct (recovery_run awd awp datamax _ _ es a (set_wck c2 w1) Hi Hrv)
    as (w3 & Hsig & [Hm Hs Hl Hg Hgs _]).
  assert (wl_data c2 = wl_data (wck w)) as Hd by (rewrite (wi_data _ _ _ _ _ _ _ Hi); done).
  change (cmem (wck w1)) with (wmem w1) in *. rewrite Hmem in *.
  assert (∀ x, covered es x ↔ in_regions (ops ≫= op_regs) x) as Hcov.
  { intros x. apply covered_regions; [apply (wi_wf _ _ _ _ _ _ _ Hi)|done]. }
  split; [done|]. split; [done|]. exists w3. split; [done|].
  split_and!; try done; intros x Hx; rewrite <- Hcov; intros Hc;
    [apply Hm|apply Hs]; try done; unfold not_in_log, in_log in *; cbn; by rewrite Hd.
Qed.

Definition demo_ops : list app_op :=
  [AStore 28672 [1; 2; 3; 4]; AMemcpy 28680 [5; 6; 7; 8; 9; 10; 11; 12; 13]].

Lemma fault_recovery_restores_window_witness :
  let w := @demo_world config_autoadapt in
  ∃ w3, @rcvry_signal_action config_autoadapt trace_os trace_libc 256 264 140737488355328 SIGSEGV
          (set_wck (final (@app_run config_autoadapt demo_ops
             (wck (final (@undolog_top_of_the_loop config_autoadapt trace_os 3 w)))))
             (final (@undolog_top_of_the_loop config_autoadapt trace_os 3 w)))
        = Stop RestoreRegisters w3 ∧ wmem w3 28672 = wmem w 28672 ∧
    wmem w3 30001 = 16.
Proof.
  assert (Hd : Forall (@op_ok config_autoadapt 256 264 140737488355328 (wck (@demo_world config_autoadapt))) demo_ops).
  { constructor; [|constructor; [|constructor]].
    - split; [|vm_compute; intuition congruence].
      constructor; [|constructor]. split; [lia|vm_compute; reflexivity].
    - split; [|right; vm_compute; reflexivity].
      replace (op_regs _) with [28680; 28688] by (vm_compute; reflexivity).
      repeat (constructor; [split; [lia|vm_compute; reflexivity]|]). constructor. }
  destruct (@fault_recovery_restores_window config_autoadapt trace_os trace_libc 256 264
    140737488355328 3 rcvry_ra_undo_malloc demo_ops (@demo_world config_autoadapt))
    as (_ & _ & w3 & Hrun & Hm & Hs & _).
  - reflexivity.
  - reflexivity.
  - exact Hd.
  - vm_compute. intuition congruence.
  - split.
    + reflexivity.
    + vm_compute. intuition congruence.
    + vm_compute. reflexivity.
    + discriminate.
    + split_and!; [intros n Hn; injection Hn as <-; split; vm_compute; reflexivity|vm_compute; reflexivity|vm_compute; discriminate].
    + left. vm_compute. discriminate.
    + intros c Hc. vm_compute in Hc. injection Hc as <-. reflexivity.
    + intros x Hx. unfold in_log, in_block in Hx.
      replace (wl_data _) with 1099511627776 in Hx by (vm_compute; reflexivity).
      unfold released. replace (release _ _) with (Some (C_free 30000)) by (vm_compute; reflexivity).
      apply store_u64_out. unfold in_block. lia.
    + reflexivity.
    + intros x. unfold not_in_log, in_log, in_block.
      replace (return_addr _) with 24576 by (vm_compute; reflexivity).
      replace (wl_data _) with 1099511627776 by (vm_compute; reflexivity). lia.
  - exists w3. split; [exact Hrun|]. split.
    + apply Hm; [unfold not_in_log, in_log, in_block; cbn; lia|]. left. exists 28672.
      split; [vm_compute; left|vm_compute; intuition congruence].
    + rewrite Hs; [vm_compute; reflexivity|unfold not_in_log, in_log, in_block; cbn; lia|].
      intros (r & Hr & Hb).
      replace (_ ≫= _) with [28672; 28680; 28688] in Hr by (vm_compute; reflexivity).
      rewrite !elem_of_cons in Hr. destruct Hr as [->|[->|[->|Hr]]]; [..|by apply elem_of_nil in Hr];
        vm_compute in Hb; intuition congruence.
Defined.
