(* ===== verification/RcvryFi.v ===== *)
(** * Fault injection at library-call sites

    [rcvry_fi.c]: which sites inject a fault, from the environment, and the injection
    itself, which each site performs at most once.  Also the counters of
    [rcvry_util.c] the instrumentation calls. *)
From stdpp Require Import base numbers list strings sets.
From Stdlib Require Import ZArith Lia.
From S2P Require Import Prelude Memory CString Ctx Profiling Writelog Rcvry.

Definition set_fault (p i : Z) (r : rcvry) : rcvry := upd_info_at i (set_fault_probability p) r.

(** The sites that are skipped when no list is given. *)
Definition skip_sites : list Z :=
  [46; 47; 396; 394; 568; 507; 215; 276; 278; 397; 351; 281; 110; 219; 221;
   177; 179; 432; 186; 194; 203; 355; 454; 476; 489; 492; 495; 497; 499; 0].

Definition set_faults (p : Z) (sites : list Z) (r : rcvry) : rcvry :=
  foldl (λ r i, set_fault p i r) r sites.

(** The sites a list in the environment names; [site_id] is [uint32_t]. *)
Definition listed_sites (v : option cstr) : list Z :=
  (λ f, u32 (strtoul f)) <$> fields comma v.

(** [strncmp("", s, strlen(s))] is 0 for the empty string only: with no characters to
    compare the strings are equal, and otherwise the first characters differ. *)
Definition empty_string (s : cstr) : bool := match s with [] => true | _ => false end.

(** [rcvry_fi_init]. *)
Definition rcvry_fi_init (getenv : string → option cstr) (r : rcvry) : rcvry :=
  let strFISites := getenv "RCVRY_FI_SITES"%string in
  let strNonFISites := getenv "RCVRY_NON_FI_SITES"%string in
  let r :=
    match strFISites with
    | Some (_ :: _) => set_faults 100 (listed_sites strFISites) r
    | _ =>
        let r := set_info (λ i, if (0 <=? i) && (i <? RCVRY_MAX_LIBCALL_SITES)
                                then set_fault_probability 100 (info r i) else info r i) r in
        set_faults 0 skip_sites r
    end in
  set_faults 0 (listed_sites strNonFISites) r.

Definition rcvry_fi_enabled (site_id : Z) (r : rcvry) : bool :=
  fault_probability (info r site_id) =? 100.

(** [rcvry_fi_fatal_fault]: the write through NULL. *)
Definition rcvry_fi_fatal_fault (site_id : Z) : prog rcvry () :=
  e ← gets (rcvry_fi_enabled site_id);
  when e (modify (set_fault 0 site_id) ;; halt Sigsegv).

(** The counters of [rcvry_util.c], each on an explicit site. *)
Definition rcvry_prof_count_rcvry_branch_hits (site_id : Z) : rcvry → rcvry :=
  prof_inc_at site_id num_hits_rcvry_branch.
Definition rcvry_prof_count_libcalls__skipped_nonfaultable (site_id : Z) : rcvry → rcvry :=
  prof_inc_at site_id libcalls__skipped_nonfaultable.
Definition rcvry_prof_count_libcalls__skipped_nousers (site_id : Z) : rcvry → rcvry :=
  prof_inc_at site_id libcalls__skipped_nousers.
Definition rcvry_prof_count_libcalls__protected (site_id : Z) : rcvry → rcvry :=
  prof_inc_at site_id libcalls__protected.

(** ** Which sites inject *)

Lemma set_fault_info p i j r :
  fault_probability (info (set_fault p i r) j) = if j =? i then p else fault_probability (info r j).
Proof. unfold set_fault. cbn. unfold upd. by destruct (j =? i). Qed.

Lemma set_faults_info p sites j r :
  fault_probability (info (set_faults p sites r) j) =
  if decide (j ∈ sites) then p else fault_probability (info r j).
Proof.
  revert r. induction sites as [|i sites IH]; intros r.
  { by rewrite decide_False by set_solver. }
  cbn [set_faults foldl]. fold (set_faults p sites (set_fault p i r)).
  rewrite IH, set_fault_info. destruct (decide (j ∈ sites)) as [Hin|Hout].
  - by rewrite decide_True by set_solver.
  - destruct (Z.eqb_spec j i) as [->|Hne].
    + by rewrite decide_True by set_solver.
    + by rewrite decide_False by set_solver.
Qed.

(** The text of a list of sites is read back as the list. *)
Lemma listed_sites_join sites :
  sites ≠ [] → Forall (λ i, 0 <= i < 4294967296) sites →
  listed_sites (Some (join comma (dec <$> sites))) = sites.
Proof.
  intros Hne His. unfold listed_sites. rewrite fields_join.
  - rewrite <- list_fmap_compose. rewrite <- (list_fmap_id sites) at 2.
    apply Forall_fmap_ext. eapply Forall_impl; [exact His|]. intros i Hi. unfold compose, id. cbv beta in *.
    rewrite strtoul_dec by (unfold ULONG_MAX; lia). by rewrite u32_small.
  - by destruct sites.
  - apply Forall_fmap, Forall_true. intros i. apply dec_sep.
Qed.

Lemma dec_nonempty n : 0 <= n <= ULONG_MAX → dec n ≠ [].
Proof.
  unfold ULONG_MAX. intros Hn. destruct (decide (n = 0)) as [->|Hne]; [done|].
  destruct (scan_num 10 20 n []) as (_ & d & s & Hs & _); [lia|cbn; lia|lia|].
  unfold dec. by rewrite Hs.
Qed.

Lemma join_nonempty n ns :
  0 <= n < 4294967296 → ∃ c s, join comma (dec <$> (n :: ns)) = c :: s.
Proof.
  intros Hn. pose proof (dec_nonempty n) as Hd. unfold ULONG_MAX in Hd.
  cbn [fmap list_fmap]. destruct (dec n) as [|c s]; [exfalso; by apply Hd; [lia|]|].
  destruct (dec <$> ns); cbn; eauto.
Qed.

(** ** Theorems *)

(** The lists of sites in the environment are parsed faithfully.  If
    [RCVRY_FI_SITES] is the decimal text of a non-empty list of sites, then on a table
    without faults exactly the listed sites inject, less those [RCVRY_NON_FI_SITES]
    lists. *)
Theorem fi_init_enables_listed (getenv : string → option cstr) (sites ns : list Z) (r : rcvry)
    (j : Z) :
  sites ≠ [] → Forall (λ i, 0 <= i < 4294967296) sites →
  getenv "RCVRY_FI_SITES"%string = Some (join comma (dec <$> sites)) →
  listed_sites (getenv "RCVRY_NON_FI_SITES"%string) = ns →
  (∀ i, rcvry_fi_enabled i r = false) →
  rcvry_fi_enabled j (rcvry_fi_init getenv r) = true ↔ j ∈ sites ∧ j ∉ ns.
Proof.
  intros Hne His Hfi Hns Hr. unfold rcvry_fi_enabled, rcvry_fi_init. rewrite Hfi, Hns.
  destruct sites as [|i sites]; [done|].
  destruct (join_nonempty i sites) as (c & s & Hj); [by inversion_clear His|].
  pose proof (listed_sites_join (i :: sites) Hne His) as Hl. rewrite Hj in Hl |- *. cbv iota.
  rewrite Hl, set_faults_info. destruct (decide (j ∈ ns)) as [Hin|Hout].
  { split; [done|]. by intros [_ ?]. }
  rewrite set_faults_info. destruct (decide (j ∈ i :: sites)); [done|].
  specialize (Hr j). unfold rcvry_fi_enabled in Hr. rewrite Hr. split; [done|]. by intros [? _].
Qed.

Lemma fi_init_enables_listed_witness :
  rcvry_fi_enabled 46 (rcvry_fi_init
    (λ n, if String.eqb n "RCVRY_FI_SITES" then Some (lit "12,46") else None)
    (@rcvry_globals config_autoadapt)) = true.
Proof.
  apply (fi_init_enables_listed _ [12; 46] [] (@rcvry_globals config_autoadapt) 46);
    try reflexivity; try discriminate.
  - repeat constructor; vm_compute; discriminate.
  - split; [right; left|]. intros H. inversion H.
Defined.

(** A site injects its fault at most once.  Where injection is enabled the first call
    faults, with injection disabled at that site and unchanged at every other; where
    it is disabled the call returns and changes nothing. *)
Theorem fi_fault_is_one_shot (i : Z) (r : rcvry) :
  if rcvry_fi_enabled i r
  then ∃ r', rcvry_fi_fatal_fault i r = Stop Sigsegv r' ∧ rcvry_fi_enabled i r' = false ∧
         rcvry_fi_fatal_fault i r' = Ok () r' ∧
         ∀ j, j ≠ i → rcvry_fi_enabled j r' = rcvry_fi_enabled j r
  else rcvry_fi_fatal_fault i r = Ok () r.
Proof.
  unfold rcvry_fi_fatal_fault, mbind, prog_bind, gets.
  destruct (rcvry_fi_enabled i r) eqn:E; [|done]. cbn. eexists. split; [reflexivity|].
  assert (rcvry_fi_enabled i (set_fault 0 i r) = false) as H0.
  { unfold rcvry_fi_enabled. by rewrite set_fault_info, Z.eqb_refl. }
  split; [done|]. split; [by rewrite H0|]. intros j Hj. unfold rcvry_fi_enabled.
  by rewrite set_fault_info, (proj2 (Z.eqb_neq j i)).
Qed.
