(* ===== verification/Edfi.v ===== *)
(** * The fault injector

    [edfi/df/edfi_df.c] and the parts of [edfi/platform/unix_apps/ctl/server/edfi_ctl_server.c]
    it calls: the decision whether a fault is injected at a fault decision point, the
    commands that start, stop and reconfigure injection, the random numbers, the
    statistics and the file they are accumulated in, and the wrappers that overrun
    their buffers. *)
From stdpp Require Import base numbers list strings.
From Stdlib Require Import ZArith Lia.
From S2P Require Import Prelude Memory CString.

(** ** State *)

(** [edfi_context_conf_t], without the floating-point probability, which is only printed. *)
Record edfi_conf := mk_conf {
  fault_prob_randmax : Z;  (** [unsigned long] *)
  min_fdp_interval : Z;  (** [int] *)
  faulty_bb_index : Z;  (** [int] *)
  min_fault_time_interval : Z;  (** [unsigned int] *)
  max_time : Z;  (** [unsigned int] *)
  max_faults : Z;  (** [unsigned long long] *)
  rand_seed : Z;  (** [unsigned int] *)
  dflib_path : cstr;
}.

Definition set_fault_prob_randmax (v : Z) (s : edfi_conf) : edfi_conf :=
  mk_conf v (min_fdp_interval s) (faulty_bb_index s) (min_fault_time_interval s) (max_time s)
    (max_faults s) (rand_seed s) (dflib_path s).
Definition set_min_fdp_interval (v : Z) (s : edfi_conf) : edfi_conf :=
  mk_conf (fault_prob_randmax s) v (faulty_bb_index s) (min_fault_time_interval s) (max_time s)
    (max_faults s) (rand_seed s) (dflib_path s).
Definition set_faulty_bb_index (v : Z) (s : edfi_conf) : edfi_conf :=
  mk_conf (fault_prob_randmax s) (min_fdp_interval s) v (min_fault_time_interval s) (max_time s)
    (max_faults s) (rand_seed s) (dflib_path s).
Definition set_min_fault_time_interval (v : Z) (s : edfi_conf) : edfi_conf :=
  mk_conf (fault_prob_randmax s) (min_fdp_interval s) (faulty_bb_index s) v (max_time s)
    (max_faults s) (rand_seed s) (dflib_path s).
Definition set_max_time (v : Z) (s : edfi_conf) : edfi_conf :=
  mk_conf (fault_prob_randmax s) (min_fdp_interval s) (faulty_bb_index s)
    (min_fault_time_interval s) v (max_faults s) (rand_seed s) (dflib_path s).
Definition set_max_faults (v : Z) (s : edfi_conf) : edfi_conf :=
  mk_conf (fault_prob_randmax s) (min_fdp_interval s) (faulty_bb_index s)
    (min_fault_time_interval s) (max_time s) v (rand_seed s) (dflib_path s).
Definition set_rand_seed (v : Z) (s : edfi_conf) : edfi_conf :=
  mk_conf (fault_prob_randmax s) (min_fdp_interval s) (faulty_bb_index s)
    (min_fault_time_interval s) (max_time s) (max_faults s) v (dflib_path s).
Definition set_dflib_path (v : cstr) (s : edfi_conf) : edfi_conf :=
  mk_conf (fault_prob_randmax s) (min_fdp_interval s) (faulty_bb_index s)
    (min_fault_time_interval s) (max_time s) (max_faults s) (rand_seed s) v.

(** [fault_type_stats]. *)
Record fault_type_stats := mk_fault_type {
  ft_name : cstr;
  bb_num_injected : list Z;
  bb_num_candidates : list Z;
}.

(** The handlers a fault-injection library may replace. *)
Inductive handler :=
  | Default
  | Loaded (p : Z).

(** The globals of the injector and its context. *)
Record edfi := mk_edfi {
  enabled : Z;  (** [edfi_faultinjection_enabled] *)
  enabled_version : Z;  (** [edfi_faultinjection_enabled_version] *)
  onfdp_count : Z;  (** [edfi_onfdp_count] *)
  last_fault_time : Z;  (** [edfi_last_fault_time] *)
  rand_next : Z;  (** [edfi_rand_next] *)
  onstart_p : handler;
  onfdp_p : handler;
  onfault_p : handler;
  onstop_p : handler;
  dflib : Z;  (** [edfi_dflib], 0 for NULL *)
  fault_fdp_count : Z;  (** [int], as the rest of [edfi_context_t] *)
  fault_time : Z;  (** [unsigned long long] *)
  start_time : Z;
  total_faults : Z;
  fault_types : list fault_type_stats;  (** [fault_type_stats], of length [num_fault_types] *)
  bb_num_executions : Z → Z;  (** [unsigned long long], canaries at 0 and [num_bbs + 1] *)
  bb_num_faults : Z → Z;  (** [int] *)
  num_bbs : Z;  (** [unsigned int] *)
  econf : edfi_conf;  (** [edfi_context->c] *)
}.

Definition set_enabled (v : Z) (s : edfi) : edfi :=
  mk_edfi v (enabled_version s) (onfdp_count s) (last_fault_time s) (rand_next s) (onstart_p s)
    (onfdp_p s) (onfault_p s) (onstop_p s) (dflib s) (fault_fdp_count s) (fault_time s)
    (start_time s) (total_faults s) (fault_types s) (bb_num_executions s) (bb_num_faults s)
    (num_bbs s) (econf s).
Definition set_enabled_version (v : Z) (s : edfi) : edfi :=
  mk_edfi (enabled s) v (onfdp_count s) (last_fault_time s) (rand_next s) (onstart_p s)
    (onfdp_p s) (onfault_p s) (onstop_p s) (dflib s) (fault_fdp_count s) (fault_time s)
    (start_time s) (total_faults s) (fault_types s) (bb_num_executions s) (bb_num_faults s)
    (num_bbs s) (econf s).
Definition set_onfdp_count (v : Z) (s : edfi) : edfi :=
  mk_edfi (enabled s) (enabled_version s) v (last_fault_time s) (rand_next s) (onstart_p s)
    (onfdp_p s) (onfault_p s) (onstop_p s) (dflib s) (fault_fdp_count s) (fault_time s)
    (start_time s) (total_faults s) (fault_types s) (bb_num_executions s) (bb_num_faults s)
    (num_bbs s) (econf s).
Definition set_last_fault_time (v : Z) (s : edfi) : edfi :=
  mk_edfi (enabled s) (enabled_version s) (onfdp_count s) v (rand_next s) (onstart_p s)
    (onfdp_p s) (onfault_p s) (onstop_p s) (dflib s) (fault_fdp_count s) (fault_time s)
    (start_time s) (total_faults s) (fault_types s) (bb_num_executions s) (bb_num_faults s)
    (num_bbs s) (econf s).
Definition set_rand_next (v : Z) (s : edfi) : edfi :=
  mk_edfi (enabled s) (enabled_version s) (onfdp_count s) (last_fault_time s) v (onstart_p s)
    (onfdp_p s) (onfault_p s) (onstop_p s) (dflib s) (fault_fdp_count s) (fault_time s)
    (start_time s) (total_faults s) (fault_types s) (bb_num_executions s) (bb_num_faults s)
    (num_bbs s) (econf s).
Definition set_onstart_p (v : handler) (s : edfi) : edfi :=
  mk_edfi (enabled s) (enabled_version s) (onfdp_count s) (last_fault_time s) (rand_next s) v
    (onfdp_p s) (onfault_p s) (onstop_p s) (dflib s) (fault_fdp_count s) (fault_time s)
    (start_time s) (total_faults s) (fault_types s) (bb_num_executions s) (bb_num_faults s)
    (num_bbs s) (econf s).
Definition set_onfdp_p (v : handler) (s : edfi) : edfi :=
  mk_edfi (enabled s) (enabled_version s) (onfdp_count s) (last_fault_time s) (rand_next s)
    (onstart_p s) v (onfault_p s) (onstop_p s) (dflib s) (fault_fdp_count s) (fault_time s)
    (start_time s) (total_faults s) (fault_types s) (bb_num_executions s) (bb_num_faults s)
    (num_bbs s) (econf s).
Definition set_onfault_p (v : handler) (s : edfi) : edfi :=
  mk_edfi (enabled s) (enabled_version s) (onfdp_count s) (last_fault_time s) (rand_next s)
    (onstart_p s) (onfdp_p s) v (onstop_p s) (dflib s) (fault_fdp_count s) (fault_time s)
    (start_time s) (total_faults s) (fault_types s) (bb_num_executions s) (bb_num_faults s)
    (num_bbs s) (econf s).
Definition set_onstop_p (v : handler) (s : edfi) : edfi :=
  mk_edfi (enabled s) (enabled_version s) (onfdp_count s) (last_fault_time s) (rand_next s)
    (onstart_p s) (onfdp_p s) (onfault_p s) v (dflib s) (fault_fdp_count s) (fault_time s)
    (start_time s) (total_faults s) (fault_types s) (bb_num_executions s) (bb_num_faults s)
    (num_bbs s) (econf s).
Definition set_dflib (v : Z) (s : edfi) : edfi :=
  mk_edfi (enabled s) (enabled_version s) (onfdp_count s) (last_fault_time s) (rand_next s)
    (onstart_p s) (onfdp_p s) (onfault_p s) (onstop_p s) v (fault_fdp_count s) (fault_time s)
    (start_time s) (total_faults s) (fault_types s) (bb_num_executions s) (bb_num_faults s)
    (num_bbs s) (econf s).
Definition set_fault_fdp_count (v : Z) (s : edfi) : edfi :=
  mk_edfi (enabled s) (enabled_version s) (onfdp_count s) (last_fault_time s) (rand_next s)
    (onstart_p s) (onfdp_p s) (onfault_p s) (onstop_p s) (dflib s) v (fault_time s)
    (start_time s) (total_faults s) (fault_types s) (bb_num_executions s) (bb_num_faults s)
    (num_bbs s) (econf s).
Definition set_fault_time (v : Z) (s : edfi) : edfi :=
  mk_edfi (enabled s) (enabled_version s) (onfdp_count s) (last_fault_time s) (rand_next s)
    (onstart_p s) (onfdp_p s) (onfault_p s) (onstop_p s) (dflib s) (fault_fdp_count s) v
    (start_time s) (total_faults s) (fault_types s) (bb_num_executions s) (bb_num_faults s)
    (num_bbs s) (econf s).
Definition set_start_time (v : Z) (s : edfi) : edfi :=
  mk_edfi (enabled s) (enabled_version s) (onfdp_count s) (last_fault_time s) (rand_next s)
    (onstart_p s) (onfdp_p s) (onfault_p s) (onstop_p s) (dflib s) (fault_fdp_count s)
    (fault_time s) v (total_faults s) (fault_types s) (bb_num_executions s) (bb_num_faults s)
    (num_bbs s) (econf s).
Definition set_total_faults (v : Z) (s : edfi) : edfi :=
  mk_edfi (enabled s) (enabled_version s) (onfdp_count s) (last_fault_time s) (rand_next s)
    (onstart_p s) (onfdp_p s) (onfault_p s) (onstop_p s) (dflib s) (fault_fdp_count s)
    (fault_time s) (start_time s) v (fault_types s) (bb_num_executions s) (bb_num_faults s)
    (num_bbs s) (econf s).
Definition set_fault_types (v : list fault_type_stats) (s : edfi) : edfi :=
  mk_edfi (enabled s) (enabled_version s) (onfdp_count s) (last_fault_time s) (rand_next s)
    (onstart_p s) (onfdp_p s) (onfault_p s) (onstop_p s) (dflib s) (fault_fdp_count s)
    (fault_time s) (start_time s) (total_faults s) v (bb_num_executions s) (bb_num_faults s)
    (num_bbs s) (econf s).
Definition set_bb_num_executions (v : Z → Z) (s : edfi) : edfi :=
  mk_edfi (enabled s) (enabled_version s) (onfdp_count s) (last_fault_time s) (rand_next s)
    (onstart_p s) (onfdp_p s) (onfault_p s) (onstop_p s) (dflib s) (fault_fdp_count s)
    (fault_time s) (start_time s) (total_faults s) (fault_types s) v (bb_num_faults s)
    (num_bbs s) (econf s).
Definition set_bb_num_faults (v : Z → Z) (s : edfi) : edfi :=
  mk_edfi (enabled s) (enabled_version s) (onfdp_count s) (last_fault_time s) (rand_next s)
    (onstart_p s) (onfdp_p s) (onfault_p s) (onstop_p s) (dflib s) (fault_fdp_count s)
    (fault_time s) (start_time s) (total_faults s) (fault_types s) (bb_num_executions s) v
    (num_bbs s) (econf s).
Definition set_num_bbs (v : Z) (s : edfi) : edfi :=
  mk_edfi (enabled s) (enabled_version s) (onfdp_count s) (last_fault_time s) (rand_next s)
    (onstart_p s) (onfdp_p s) (onfault_p s) (onstop_p s) (dflib s) (fault_fdp_count s)
    (fault_time s) (start_time s) (total_faults s) (fault_types s) (bb_num_executions s)
    (bb_num_faults s) v (econf s).
Definition set_econf (v : edfi_conf) (s : edfi) : edfi :=
  mk_edfi (enabled s) (enabled_version s) (onfdp_count s) (last_fault_time s) (rand_next s)
    (onstart_p s) (onfdp_p s) (onfault_p s) (onstop_p s) (dflib s) (fault_fdp_count s)
    (fault_time s) (start_time s) (total_faults s) (fault_types s) (bb_num_executions s)
    (bb_num_faults s) (num_bbs s) v.

Definition EDFI_CANARY_VALUE : Z := 4278845457.
Definition EDFI_RAND_MAX : Z := 32767.

(** What the injector needs of the system: the time-stamp counter in nanoseconds, the
    dynamic loader, and the handlers of a loaded library. *)
Class Platform (os : Type) := {
  getcurrtime_ns : os → Z * os;
  dlopen : cstr → os → Z * os;
  dlclose : Z → os → os;
  dlsym : Z → string → os → Z;
  ext_onstart : Z → os → os;
  ext_onstop : Z → os → os;
}.

Section Edfi.
Context {os : Type} `{platform : Platform os}.

(** Whether the injector is built to count all blocks. *)
Context (EDFI_COUNT_ALL_BLOCKS : bool).

Abbreviation P := (prog (edfi * os)).

Definition get {A} (f : edfi → A) : P A := gets (λ s, f s.1).
Definition conf {A} (f : edfi_conf → A) : P A := gets (λ s, f (econf s.1)).
Definition put (f : edfi → edfi) : P () := modify (λ s, (f s.1, s.2)).

Definition edfi_getcurrtime_ns : P Z := λ s, let '(t, o) := getcurrtime_ns s.2 in Ok t (s.1, o).

(** ** Random numbers *)

Definition edfi_srand (seed : Z) : P () := put (set_rand_next (u32 seed)).

Definition next_rand (n : Z) : Z := u64 (n * 1103515245 + 12345).
Definition rand_of (n : Z) : Z := u32 (n / 65536) mod 32768.

Definition edfi_rand : P Z :=
  put (λ e, set_rand_next (next_rand (rand_next e)) e) ;;
  get (λ e, rand_of (rand_next e)).

(** ** Handlers *)

Definition edfi_onstart_default : P () :=
  put (λ e, set_fault_fdp_count (min_fdp_interval (econf e)) e) ;;
  t ← edfi_getcurrtime_ns;
  put (set_start_time t).

(** The statistics [edfi_onstop_default] prints change nothing. *)
Definition edfi_onstop_default : P () := skip.

Definition run_onstart : P () :=
  h ← get onstart_p;
  match h with
  | Default => edfi_onstart_default
  | Loaded p => modify (λ s, (s.1, ext_onstart p s.2))
  end.

Definition run_onstop : P () :=
  h ← get onstop_p;
  match h with
  | Default => edfi_onstop_default
  | Loaded p => modify (λ s, (s.1, ext_onstop p s.2))
  end.

Definition edfi_stop : P () :=
  put (set_enabled 0) ;;
  put (λ e, set_enabled_version (s32 (enabled_version e + 1)) e) ;;
  run_onstop.

Definition add_onfdp_count (n : Z) : P () := put (λ e, set_onfdp_count (u64 (onfdp_count e + n)) e).

(** ** The conditions of a fault decision point *)

Definition edfi_onfdp_min_fdp_interval : P bool :=
  k ← conf min_fdp_interval;
  n ← get fault_fdp_count;
  if (0 <? k) && (n <? k) then
    put (λ e, set_fault_fdp_count (fault_fdp_count e + 1) e) ;; mret false
  else add_onfdp_count k ;; mret true.

Definition edfi_onfdp_min_fault_time_interval : P bool :=
  put (set_last_fault_time 0) ;;
  k ← conf min_fault_time_interval;
  t ← get fault_time;
  early ←
    (if (0 <? k) && negb (t =? 0) then
       now ← edfi_getcurrtime_ns;
       put (set_last_fault_time now) ;;
       mret (u64 (t + k) <? now)
     else mret false);
  if early : bool then mret false else add_onfdp_count k ;; mret true.

Definition edfi_onfdp_fault_prob : P bool :=
  k ← conf fault_prob_randmax;
  if k =? 0 then mret true else
  r ← edfi_rand;
  if k <=? r then mret false else add_onfdp_count 1 ;; mret true.

Definition edfi_onfdp_dyn_fault_prob : P bool :=
  en ← get enabled;
  k ← conf fault_prob_randmax;
  if (en =? 0) || (k =? 0) then mret false else
  r ← edfi_rand;
  mret (negb (k <=? r)).

Definition edfi_onfdp_bb_index (bb_index : Z) : P bool :=
  en ← get enabled;
  if en =? 0 then mret false else
  f ← conf faulty_bb_index;
  if negb (bb_index =? f) && (0 <? f) then mret false else
  when (0 <? f) (put (set_onfdp_count 1)) ;; mret true.

Definition edfi_onfdp_min_fdp_interval_update : P () := put (set_fault_fdp_count 1).

Definition edfi_onfdp_min_fault_time_interval_update : P () :=
  k ← conf min_fault_time_interval;
  if 0 <? k then
    l ← get last_fault_time;
    if truthy l then put (set_fault_time l)
    else t ← edfi_getcurrtime_ns; put (set_fault_time t)
  else skip.

Definition edfi_onfdp_max_time : P bool :=
  k ← conf max_time;
  over ←
    (if 0 <? k then
       s ← get start_time;
       now ← edfi_getcurrtime_ns;
       mret (now <=? u64 (s + k))
     else mret false);
  if over : bool then edfi_stop ;; mret false else add_onfdp_count k ;; mret true.

Definition edfi_onfdp_max_faults : P bool :=
  k ← conf max_faults;
  n ← get total_faults;
  if (0 <? k) && (k <? n) then mret false else add_onfdp_count k ;; mret true.

Definition count_execution (bb_index : Z) (e : edfi) : edfi :=
  set_bb_num_executions (upd (bb_num_executions e) bb_index
    (u64 (bb_num_executions e bb_index + 1))) e.

(** Go on if the condition holds, else decide against a fault. *)
Definition guard (c : P bool) (k : P bool) : P bool := b ← c; if b : bool then k else mret false.

Definition edfi_onfdp_default (bb_index : Z) : P bool :=
  when EDFI_COUNT_ALL_BLOCKS (put (count_execution bb_index)) ;;
  en ← get enabled;
  if en =? 0 then mret false else
  put (set_onfdp_count 0) ;;
  guard edfi_onfdp_min_fdp_interval (
  guard edfi_onfdp_min_fault_time_interval (
  guard edfi_onfdp_fault_prob (
  guard (edfi_onfdp_bb_index bb_index) (
  guard edfi_onfdp_max_time (
  guard edfi_onfdp_max_faults (
  n ← get onfdp_count;
  if n =? 0 then mret false else
  edfi_onfdp_min_fdp_interval_update ;;
  edfi_onfdp_min_fault_time_interval_update ;;
  mret true)))))).

(** [edfi_onfault_default]; [bb_index] is 1-based. *)
Definition edfi_onfault_default (bb_index : Z) : P () :=
  when (negb EDFI_COUNT_ALL_BLOCKS) (put (count_execution bb_index)) ;;
  put (λ e, set_total_faults (u64 (total_faults e + bb_num_faults e (bb_index - 1))) e).

(** ** Commands *)

(** [edfi_load_dflib]: all four symbols must be there before any handler changes. *)
Definition edfi_load_dflib (path : cstr) : P Z := λ s,
  let '(e, o) := s in
  let '(h, o) := dlopen path o in
  if h =? 0 then Ok (-1) (e, o) else
  let onstart := dlsym h "edfi_onstart" o in
  if onstart =? 0 then Ok (-2) (e, o) else
  let onfdp := dlsym h "edfi_onfdp" o in
  if onfdp =? 0 then Ok (-3) (e, o) else
  let onfault := dlsym h "edfi_onfault" o in
  if onfault =? 0 then Ok (-4) (e, o) else
  let onstop := dlsym h "edfi_onstop" o in
  if onstop =? 0 then Ok (-5) (e, o) else
  let e := set_onstop_p (Loaded onstop) (set_onfault_p (Loaded onfault)
             (set_onfdp_p (Loaded onfdp) (set_onstart_p (Loaded onstart) e))) in
  let o := if truthy (dflib e) then dlclose (dflib e) o else o in
  Ok 0 (set_dflib h e, o).

(** [edfi_update_context]; [None] is NULL. *)
Definition edfi_update_context (new : option edfi_conf) : P Z :=
  match new with
  | None => mret 0
  | Some c =>
      edfi_srand (rand_seed c) ;;
      ret ← match dflib_path c with [] => mret 0 | p => edfi_load_dflib p end;
      if ret <? 0 then mret ret else put (set_econf c) ;; mret 0
  end.

Definition edfi_start (context : option edfi_conf) : P Z :=
  ret ← edfi_update_context context;
  if ret <? 0 then mret ret else
  put (set_enabled 1) ;;
  put (λ e, set_enabled_version (s32 (enabled_version e + 1)) e) ;;
  run_onstart ;;
  mret 0.

Definition edfi_stat (context : option edfi_conf) : P Z := edfi_update_context context.

Definition EDFI_CTL_CMD_STOP : Z := 0.
Definition EDFI_CTL_CMD_START : Z := 1.
Definition EDFI_CTL_CMD_TEST : Z := 2.
Definition EDFI_CTL_CMD_STAT : Z := 3.
Definition EDFI_CTL_CMD_UPDATE : Z := 4.

(** [edfi_process_cmd]; the status of a [STAT] command is not passed on. *)
Definition edfi_process_cmd (cmd : Z) (context : option edfi_conf) : P Z :=
  if cmd =? EDFI_CTL_CMD_STOP then edfi_stop ;; mret 0
  else if cmd =? EDFI_CTL_CMD_START then edfi_start context
  else if cmd =? EDFI_CTL_CMD_TEST then mret 0
  else if cmd =? EDFI_CTL_CMD_STAT then edfi_stat context ;; mret 0
  else if cmd =? EDFI_CTL_CMD_UPDATE then edfi_update_context context
  else mret (-1).

(** The counters of executions in [edfi_ctl_init], with a canary at each end. *)
Definition init_executions (e : edfi) : edfi :=
  set_bb_num_executions (λ i,
    if (i =? 0) || (i =? num_bbs e + 1) then EDFI_CANARY_VALUE
    else if (1 <=? i) && (i <=? num_bbs e) then 0 else bb_num_executions e i) e.

(** ** Wrappers *)

(** [Nto2N] without dynamic probabilities: a length between [n + 1] and [2 n]. *)
Definition Nto2N (n : Z) : P Z :=
  r ← edfi_rand;
  if n =? 0 then halt Sigfpe else mret (u64 (n + 1 + r mod n)).

(** The lengths the copying wrappers pass on, and that of [edfi_malloc_wrapper]. *)
Definition edfi_memcpy_wrapper (n : Z) : P Z := Nto2N n.
Definition edfi_strcpy_wrapper (dest_len : Z) : P Z := Nto2N (dest_len + 1).
Definition edfi_malloc_wrapper (size : Z) : P Z :=
  r ← edfi_rand; if size =? 0 then halt Sigfpe else mret (r mod size).

End Edfi.

(** ** Statistics *)

(** The two sums of [edfi_print_stats_section] for one fault type: [unsigned long long]. *)
Definition weighted_executions (counts : list Z) (e : edfi) : Z :=
  snd (foldl (λ acc c, (acc.1 + 1, u64 (acc.2 + u64 (c * bb_num_executions e (acc.1 + 1)))))
         (0, 0) (take (Z.to_nat (num_bbs e)) counts)).

Definition num_injected_executed (f : fault_type_stats) (e : edfi) : Z :=
  weighted_executions (bb_num_injected f) e.
Definition num_candidates_executed (f : fault_type_stats) (e : edfi) : Z :=
  weighted_executions (bb_num_candidates f) e.

(** The executions of the blocks, in order. *)
Definition executions (e : edfi) : list Z :=
  (λ i, bb_num_executions e (Z.of_nat i)) <$> seq 1 (Z.to_nat (num_bbs e)).

Definition edfi_stats_available (e : edfi) : bool := existsb (λ n, 0 <? n) (executions e).

(** [edfi_print_hypermemlike_stats]: the loop over the executions; each item printed is
    a count and its number of repetitions ([1] prints without a factor). *)
Fixpoint hypermem_loop (cs : list Z) (countrep repeats : Z) : list (Z * Z) :=
  match cs with
  | [] => if repeats =? 0 then [] else [(countrep, repeats)]
  | count :: cs' =>
      if countrep =? count then hypermem_loop cs' countrep (repeats + 1)
      else (if repeats =? 0 then [] else [(countrep, repeats)]) ++ hypermem_loop cs' count 1
  end.

Definition edfi_print_hypermemlike_stats (e : edfi) : list (Z * Z) :=
  hypermem_loop (executions e) 0 0.

(** [edfi_stats_per_bb_add_data]: mix a byte into the 64-bit identifier. *)
Definition mix_byte (acc : Z * Z) (b : Z) : Z * Z :=
  let '(result, index) := acc in
  let result := Z.lxor result (Z.shiftl b (8 * index)) in
  let index := index + 1 in
  if 8 <=? index then (u64 (result * 3), 0) else (result, index).

Definition edfi_stats_per_bb_add_data (data : list Z) (acc : Z * Z) : Z * Z :=
  foldl mix_byte acc data.

(** The bytes of an array of [int]. *)
Definition int_bytes (l : list Z) : list Z := l ≫= le_bytes 4.

Definition edfi_stats_per_bb_get_id (e : edfi) : Z :=
  let acc := (0, 0) in
  let acc := edfi_stats_per_bb_add_data (le_bytes 4 (num_bbs e)) acc in
  let acc := edfi_stats_per_bb_add_data (le_bytes 4 (zlen (fault_types e))) acc in
  let acc := foldl (λ acc f, edfi_stats_per_bb_add_data (int_bytes (bb_num_candidates f)) acc)
               acc (fault_types e) in
  Z.lxor acc.1 acc.2.

(** ** The statistics file *)

Definition EDFI_STATS_MAGIC : Z := 1951622213.
Definition EDFI_STATS_FAULT_NAME_LEN : nat := 64.

Definition char_bytes (s : cstr) : list Z := code <$> s.

(** [strncpy] into a zeroed field. *)
Definition name_field (s : cstr) : list Z :=
  take EDFI_STATS_FAULT_NAME_LEN (char_bytes s ++ replicate EDFI_STATS_FAULT_NAME_LEN 0).

(** [strncmp(a, b, n) == 0] on bytes; the end of a list is a terminator. *)
Fixpoint strncmp_eq (n : nat) (a b : list Z) : bool :=
  match n with
  | O => true
  | S n' =>
      let x := hd 0 a in
      let y := hd 0 b in
      if negb (x =? y) then false else if x =? 0 then true else strncmp_eq n' (tl a) (tl b)
  end.

Definition stats_header (e : edfi) : list Z :=
  le_bytes 4 EDFI_STATS_MAGIC ++ le_bytes 4 (num_bbs e) ++ le_bytes 4 (zlen (fault_types e)) ++
  le_bytes 4 (Z.of_nat EDFI_STATS_FAULT_NAME_LEN).

Definition header_size : nat := 16.
Definition names_size (e : edfi) : nat := EDFI_STATS_FAULT_NAME_LEN * length (fault_types e).
Definition executions_size (e : edfi) : nat := 8 * Z.to_nat (num_bbs e).
Definition candidates_row (e : edfi) : nat := 4 * Z.to_nat (num_bbs e).
Definition stats_datasize (e : edfi) : nat :=
  header_size + names_size e + executions_size e + candidates_row e * length (fault_types e).

(** The file [edfi_stats_per_bb_add_with_fd] builds when there is none. *)
Definition new_stats (e : edfi) : list Z :=
  stats_header e ++ (fault_types e ≫= (λ f, name_field (ft_name f))) ++
  replicate (executions_size e) 0 ++
  (fault_types e ≫= (λ f, int_bytes (take (Z.to_nat (num_bbs e)) (bb_num_candidates f)))).

(** The checks of an existing file. *)
Fixpoint names_match (fs : list fault_type_stats) (names : list Z) : bool :=
  match fs with
  | [] => true
  | f :: fs' =>
      strncmp_eq EDFI_STATS_FAULT_NAME_LEN (take EDFI_STATS_FAULT_NAME_LEN names)
        (char_bytes (ft_name f))
      && names_match fs' (drop EDFI_STATS_FAULT_NAME_LEN names)
  end.

Fixpoint candidates_match (row : nat) (fs : list fault_type_stats) (cands : list Z) : bool :=
  match fs with
  | [] => true
  | f :: fs' =>
      bool_decide (take row cands = take row (int_bytes (bb_num_candidates f)))
      && candidates_match row fs' (drop row cands)
  end.

Definition stats_match (e : edfi) (data : list Z) : bool :=
  bool_decide (take header_size data = stats_header e)
  && names_match (fault_types e) (drop header_size data)
  && candidates_match (candidates_row e) (fault_types e)
       (drop (header_size + names_size e + executions_size e) data).

(** Adding the executions of this run to the 64-bit counters of the file. *)
Fixpoint add_counts (xs : list Z) (bs : list Z) : list Z :=
  match xs with
  | [] => bs
  | x :: xs' => le_bytes 8 (le_decode (take 8 bs) + x) ++ add_counts xs' (drop 8 bs)
  end.

Definition add_executions (e : edfi) (data : list Z) : list Z :=
  take (header_size + names_size e) data ++
  add_counts (executions e) (drop (header_size + names_size e) data).

(** [edfi_stats_per_bb_add_with_fd] on the contents of the file; [None] for the error
    paths, on which the file is left as it is.  A read gets at most the expected
    number of bytes, and a write replaces as many. *)
Definition edfi_stats_per_bb_add_with_fd (e : edfi) (file : list Z) : option (list Z) :=
  let data := take (stats_datasize e) file in
  let rest := drop (stats_datasize e) file in
  if decide (data = []) then Some (add_executions e (new_stats e) ++ rest)
  else if decide (length data = stats_datasize e) then
    if stats_match e data then Some (add_executions e data ++ rest) else None
  else None.

(** ** Random numbers and wrappers *)

Lemma rand_of_range n : 0 <= rand_of n <= EDFI_RAND_MAX.
Proof. unfold rand_of, EDFI_RAND_MAX. pose proof (Z.mod_pos_bound (u32 (n / 65536)) 32768). lia. Qed.

Section EdfiProps.
Context {os : Type} `{platform : Platform os} (all_blocks : bool).

Lemma edfi_rand_run s :
  ∃ s', edfi_rand (os := os) s = Ok (rand_of (next_rand (rand_next s.1))) s' ∧ s'.2 = s.2 ∧
    s'.1 = set_rand_next (next_rand (rand_next s.1)) s.1.
Proof. by eexists. Qed.

(** The random numbers of the injector are in range, so that a fault probability of 1
    (a threshold of at least 32768) always passes and a threshold of 0 is treated as
    no condition; whatever the draw, only the generator changes. *)
Theorem fault_prob_bounds (s : edfi * os) :
  (32768 <= fault_prob_randmax (econf s.1) →
    ∃ s', edfi_onfdp_fault_prob s = Ok true s' ∧
      onfdp_count s'.1 = u64 (onfdp_count s.1 + 1)) ∧
  (fault_prob_randmax (econf s.1) = 0 → edfi_onfdp_fault_prob s = Ok true s) ∧
  ∃ r s', edfi_rand s = Ok r s' ∧ 0 <= r <= EDFI_RAND_MAX ∧ s'.2 = s.2.
Proof.
  pose proof (rand_of_range (next_rand (rand_next s.1))) as Hr. split_and!.
  - intros Hk. unfold edfi_onfdp_fault_prob.
    rewrite (bind_Ok _ _ s (fault_prob_randmax (econf s.1)) s) by done.
    rewrite (proj2 (Z.eqb_neq _ 0)) by lia.
    destruct (edfi_rand_run s) as (s' & Hrun & Ho & He). rewrite (bind_Ok _ _ _ _ _ Hrun).
    unfold EDFI_RAND_MAX in Hr. rewrite (proj2 (Z.leb_gt _ _)) by lia.
    eexists. split; [reflexivity|]. cbn. by rewrite He.
  - intros Hk. unfold edfi_onfdp_fault_prob, mbind, prog_bind, conf, gets. by rewrite Hk.
  - destruct (edfi_rand_run s) as (s' & H & Ho & _). by eexists _, s'.
Qed.

(** The wrappers of the copying functions overrun their buffers: for a positive length
    that leaves room to double, the length passed on is more than the requested one and
    at most twice it; for a length of 0 the wrapper faults on the division. *)
Theorem wrapper_overruns (n : Z) (s : edfi * os) :
  (0 < n < 4611686018427387904 →
    ∃ m s', edfi_memcpy_wrapper n s = Ok m s' ∧ n < m <= 2 * n) ∧
  (n = 0 → ∃ s', edfi_memcpy_wrapper n s = Stop Sigfpe s').
Proof.
  unfold edfi_memcpy_wrapper, Nto2N, mbind, prog_bind.
  destruct (edfi_rand_run s) as (s' & -> & _). split.
  - intros Hn. rewrite (proj2 (Z.eqb_neq n 0)) by lia.
    pose proof (Z.mod_pos_bound (rand_of (next_rand (rand_next s.1))) n).
    eexists _, _. split; [reflexivity|]. rewrite u64_small; lia.
  - intros ->. by eexists.
Qed.

(** ** Spacing of faults *)

(** Only the minimum number of decision points between faults is configured. *)
Definition only_interval (k : Z) (e : edfi) : Prop :=
  enabled e ≠ 0 ∧ min_fdp_interval (econf e) = k ∧ fault_prob_randmax (econf e) = 0 ∧
  min_fault_time_interval (econf e) = 0 ∧ faulty_bb_index (econf e) <= 0 ∧
  max_time (econf e) = 0 ∧ max_faults (econf e) = 0.

Lemma guard_true (c k : prog (edfi * os) bool) s s1 : c s = Ok true s1 → guard c k s = k s1.
Proof. intros H. unfold guard. by rewrite (bind_Ok _ _ _ _ _ H). Qed.

Lemma guard_false (c k : prog (edfi * os) bool) s s1 :
  c s = Ok false s1 → guard c k s = Ok false s1.
Proof. intros H. unfold guard. by rewrite (bind_Ok _ _ _ _ _ H). Qed.

Definition counted (n : Z) (s : edfi * os) : edfi * os :=
  (set_onfdp_count (u64 (onfdp_count s.1 + n)) s.1, s.2).

Lemma interval_run (s : edfi * os) :
  let k := min_fdp_interval (econf s.1) in
  edfi_onfdp_min_fdp_interval s =
  if (0 <? k) && (fault_fdp_count s.1 <? k)
  then Ok false (set_fault_fdp_count (fault_fdp_count s.1 + 1) s.1, s.2)
  else Ok true (counted k s).
Proof.
  unfold edfi_onfdp_min_fdp_interval, mbind, prog_bind, conf, get, gets.
  by destruct (_ && _).
Qed.

Lemma time_interval_off (s : edfi * os) :
  min_fault_time_interval (econf s.1) = 0 →
  edfi_onfdp_min_fault_time_interval s = Ok true (counted 0 (set_last_fault_time 0 s.1, s.2)).
Proof.
  intros H. unfold edfi_onfdp_min_fault_time_interval, mbind, prog_bind, conf, get, put, gets,
    modify. cbn. by rewrite H.
Qed.

Lemma bb_index_off bb (s : edfi * os) :
  enabled s.1 ≠ 0 → faulty_bb_index (econf s.1) <= 0 → edfi_onfdp_bb_index bb s = Ok true s.
Proof.
  intros He Hf. unfold edfi_onfdp_bb_index, mbind, prog_bind, conf, get, gets.
  rewrite (proj2 (Z.eqb_neq _ _) He), (proj2 (Z.ltb_ge _ _) Hf), andb_false_r. done.
Qed.

Lemma max_time_off (s : edfi * os) :
  max_time (econf s.1) = 0 → edfi_onfdp_max_time s = Ok true (counted 0 s).
Proof.
  intros H. unfold edfi_onfdp_max_time, mbind, prog_bind, conf, get, gets. by rewrite H.
Qed.

Lemma max_faults_off (s : edfi * os) :
  max_faults (econf s.1) = 0 → edfi_onfdp_max_faults s = Ok true (counted 0 s).
Proof.
  intros H. unfold edfi_onfdp_max_faults, mbind, prog_bind, conf, get, gets. by rewrite H.
Qed.

Lemma u64_add_0 n : u64 (u64 n + 0) = u64 n.
Proof. rewrite Z.add_0_r. apply u64_small, u64_range. Qed.

Lemma onfdp_interval_step k bb (s : edfi * os) :
  0 < k < 2147483648 → only_interval k s.1 →
  ∃ s', edfi_onfdp_default all_blocks bb s = Ok (negb (fault_fdp_count s.1 <? k)) s' ∧
    only_interval k s'.1 ∧
    fault_fdp_count s'.1 = if fault_fdp_count s.1 <? k then fault_fdp_count s.1 + 1 else 1.
Proof.
  intros Hk Ho. pose proof Ho as (Hen & Hi & Hp & Ht & Hf & Hm & Hx).
  set (s0 := (set_onfdp_count 0 (if all_blocks then count_execution bb s.1 else s.1), s.2)).
  assert (econf s0.1 = econf s.1 ∧ fault_fdp_count s0.1 = fault_fdp_count s.1 ∧
    enabled s0.1 = enabled s.1) as (Hc0 & Hf0 & He0) by (unfold s0; by destruct all_blocks).
  unfold edfi_onfdp_default.
  rewrite (bind_Ok _ _ s () (if all_blocks then count_execution bb s.1 else s.1, s.2))
    by (destruct s, all_blocks; done).
  rewrite (bind_Ok _ _ _ (enabled s.1) (if all_blocks then count_execution bb s.1 else s.1, s.2))
    by (destruct all_blocks; done).
  rewrite (proj2 (Z.eqb_neq _ _) Hen). rewrite (bind_Ok _ _ _ () s0) by done.
  pose proof (interval_run s0) as Hint. cbn zeta in Hint. rewrite Hc0, Hf0, Hi in Hint.
  rewrite (proj2 (Z.ltb_lt 0 k)) in Hint by lia. cbn [andb] in Hint.
  destruct (fault_fdp_count s.1 <? k) eqn:E.
  - rewrite (guard_false _ _ _ _ Hint). eexists. split; [reflexivity|].
    unfold only_interval. cbn [fst econf enabled set_fault_fdp_count fault_fdp_count].
    by rewrite Hc0, He0.
  - rewrite (guard_true _ _ _ _ Hint).
    rewrite (guard_true _ _ _ _ (time_interval_off (counted k s0) (eq_trans (f_equal _ Hc0) Ht))).
    set (s1 := counted 0 _).
    assert (econf s1.1 = econf s.1 ∧ enabled s1.1 = enabled s.1 ∧ onfdp_count s1.1 = k)
      as (Hc1 & He1 & Hn1).
    { unfold s1, counted. cbn [fst econf enabled onfdp_count set_onfdp_count set_last_fault_time].
      change (onfdp_count s0.1) with 0. rewrite u64_add_0, Z.add_0_l, u64_small by lia. done. }
    rewrite (guard_true _ _ s1 s1) by
      (unfold edfi_onfdp_fault_prob, mbind, prog_bind, conf, gets; by rewrite Hc1, Hp).
    rewrite (guard_true _ _ _ _ (bb_index_off bb s1 ltac:(by rewrite He1) ltac:(by rewrite Hc1))).
    rewrite (guard_true _ _ _ _ (max_time_off s1 ltac:(by rewrite Hc1))).
    rewrite (guard_true _ _ _ _ (max_faults_off (counted 0 s1) (eq_trans (f_equal _ Hc1) Hx))).
    set (s2 := counted 0 (counted 0 s1)).
    assert (econf s2.1 = econf s.1 ∧ enabled s2.1 = enabled s.1 ∧ onfdp_count s2.1 = k)
      as (Hc2 & He2 & Hn2).
    { unfold s2, counted. cbn [fst econf enabled onfdp_count set_onfdp_count].
      rewrite u64_add_0, Hn1, Z.add_0_r, u64_small by lia. done. }
    rewrite (bind_Ok _ _ s2 k s2) by (unfold get, gets; by rewrite Hn2).
    rewrite (proj2 (Z.eqb_neq k 0)) by lia.
    exists (set_fault_fdp_count 1 s2.1, s2.2). split.
    + unfold edfi_onfdp_min_fdp_interval_update, edfi_onfdp_min_fault_time_interval_update,
        mbind, prog_bind, conf, put, gets, modify. cbn [fst econf set_fault_fdp_count].
      by rewrite Hc2, Ht.
    + unfold only_interval. cbn [fst econf enabled set_fault_fdp_count fault_fdp_count].
      by rewrite Hc2, He2.
Qed.

(** The decisions at a sequence of fault decision points. *)
Fixpoint decisions (bbs : list Z) : prog (edfi * os) (list bool) :=
  match bbs with
  | [] => mret []
  | bb :: bbs' =>
      b ← edfi_onfdp_default all_blocks bb;
      bs ← decisions bbs';
      mret (b :: bs)
  end.

(** A fault at every [k]-th point, the first one [d] points away. *)
Definition every_kth (k d : Z) (n : nat) : list bool :=
  (λ i, (Z.of_nat i - d) mod k =? 0) <$> seq 0 n.

Lemma every_kth_cons k d n :
  every_kth k d (S n) = ((- d) mod k =? 0) :: every_kth k (d - 1) n.
Proof.
  unfold every_kth. cbn [seq fmap list_fmap]. f_equal.
  rewrite <- fmap_S_seq, <- list_fmap_compose. apply list_fmap_ext. intros i x _. cbn.
  f_equal. f_equal. lia.
Qed.

Lemma every_kth_period k d n : k ≠ 0 → every_kth k (d + k) n = every_kth k d n.
Proof.
  intros Hk. apply list_fmap_ext. intros i x _.
  replace (Z.of_nat x - (d + k)) with (Z.of_nat x - d + (-1) * k) by lia.
  by rewrite Z.mod_add.
Qed.

Lemma decisions_interval k bbs (s : edfi * os) :
  0 < k < 2147483648 → only_interval k s.1 → 1 <= fault_fdp_count s.1 <= k →
  ∃ s', decisions bbs s = Ok (every_kth k (k - fault_fdp_count s.1) (length bbs)) s'.
Proof.
  intros Hk. revert s. induction bbs as [|bb bbs IH]; intros s Ho Hc; [by eexists|].
  cbn [decisions length].
  destruct (onfdp_interval_step k bb s Hk Ho) as (s1 & H1 & Ho1 & Hc1).
  rewrite (bind_Ok _ _ _ _ _ H1), every_kth_cons.
  assert (1 <= fault_fdp_count s1.1 <= k) as Hr by (destruct (Z.ltb_spec (fault_fdp_count s.1) k); lia).
  destruct (IH s1 Ho1 Hr) as (s2 & H2). rewrite (bind_Ok _ _ _ _ _ H2). exists s2. unfold mret, prog_ret.
  f_equal. destruct (Z.ltb_spec (fault_fdp_count s.1) k) as [Hlt|Hge]; cbn [negb].
  - f_equal; [|f_equal; lia]. symmetry. apply Z.eqb_neq.
    rewrite Z_mod_nz_opp_full by (rewrite Z.mod_small; lia). rewrite Z.mod_small; lia.
  - replace (fault_fdp_count s.1) with k by lia. rewrite Z.sub_diag, Hc1.
    change (- 0) with 0. rewrite Z.mod_0_l by lia. f_equal. rewrite <- (every_kth_period k (0 - 1)) by lia. f_equal; lia.
Qed.

(** C35: With only the interval [k] between decision points configured, a START command
    succeeds and then, of any sequence of decision points, exactly those whose index is
    a multiple of [k] inject a fault: the first one, and then every [k]-th. *)
Theorem faults_are_spaced (k : Z) (c : edfi_conf) (bbs : list Z) (s : edfi * os) :
  0 < k < 2147483648 → min_fdp_interval c = k → fault_prob_randmax c = 0 →
  min_fault_time_interval c = 0 → faulty_bb_index c <= 0 → max_time c = 0 → max_faults c = 0 →
  dflib_path c = [] → onstart_p s.1 = Default →
  ∃ s1 s2, edfi_process_cmd EDFI_CTL_CMD_START (Some c) s = Ok 0 s1 ∧
    decisions bbs s1 = Ok (every_kth k 0 (length bbs)) s2.
Proof.
  intros Hk Hi Hp Ht Hf Hm Hx Hd Hon.
  assert (∃ s1, edfi_process_cmd EDFI_CTL_CMD_START (Some c) s = Ok 0 s1 ∧
    only_interval k s1.1 ∧ fault_fdp_count s1.1 = k) as (s1 & H1 & Ho & Hc).
  { cbn -[u32]. unfold edfi_start, edfi_update_context, mbind, prog_bind, edfi_srand, put, modify.
    rewrite Hd. cbn. unfold run_onstart, edfi_onstart_default, mbind, prog_bind, get, put, gets, modify.
    cbn. rewrite Hon. unfold edfi_getcurrtime_ns. cbn.
    destruct (getcurrtime_ns s.2) as [t o]. eexists. split; [reflexivity|]. cbn.
    unfold only_interval; cbn. by rewrite Hi. }
  destruct (decisions_interval k bbs s1 Hk Ho ltac:(lia)) as (s2 & H2).
  exists s1, s2. split; [done|]. by rewrite H2, Hc, Z.sub_diag.
Qed.

End EdfiProps.

(** A machine whose time-stamp counter advances by one at each reading. *)
#[local] Instance tick : Platform Z := {
  getcurrtime_ns t := (t, t + 1);
  dlopen _ t := (0, t);
  dlclose _ t := t;
  dlsym _ _ _ := 0;
  ext_onstart _ t := t;
  ext_onstop _ t := t;
}.

Definition demo_conf : edfi_conf := mk_conf 0 3 0 0 0 0 7 [].
Definition demo_edfi : edfi :=
  mk_edfi 0 0 0 0 0 Default Default Default Default 0 0 0 0 0 [] (λ _, 0) (λ _, 0) 5 demo_conf.

Lemma faults_are_spaced_witness :
  ∃ s1 s2, edfi_process_cmd EDFI_CTL_CMD_START (Some demo_conf) (demo_edfi, 100) = Ok 0 s1 ∧
    decisions false [1; 2; 3; 4; 5] s1 = Ok [true; false; false; true; false] s2.
Proof. by apply (faults_are_spaced false 3 demo_conf [1; 2; 3; 4; 5] (demo_edfi, 100)). Defined.

(** ** The statistics file accumulates *)

(** The layout of a statistics file with the counts [xs]. *)
Definition stats_file (e : edfi) (xs : list Z) : list Z :=
  (stats_header e ++ (fault_types e ≫= (λ f, name_field (ft_name f)))) ++
  (xs ≫= le_bytes 8) ++
  (fault_types e ≫= (λ f, int_bytes (take (Z.to_nat (num_bbs e)) (bb_num_candidates f)))).

(** Names are C strings (no terminator inside) and there is a count of candidates per block. *)
Definition stats_wf (e : edfi) : Prop :=
  Forall (λ f, Forall (λ c, code c ≠ 0) (ft_name f) ∧
    length (bb_num_candidates f) = Z.to_nat (num_bbs e)) (fault_types e).

Lemma length_name_field s : length (name_field s) = EDFI_STATS_FAULT_NAME_LEN.
Proof. unfold name_field. rewrite length_take, length_app, length_replicate. lia. Qed.

Lemma length_int_bytes l : length (int_bytes l) = (4 * length l)%nat.
Proof.
  unfold int_bytes. induction l as [|x l IH]; [done|].
  rewrite bind_cons, length_app, length_le_bytes, IH. cbn. lia.
Qed.

Lemma length_counts l : length (l ≫= le_bytes 8) = (8 * length l)%nat.
Proof.
  induction l as [|x l IH]; [done|].
  rewrite bind_cons, length_app, length_le_bytes, IH. cbn. lia.
Qed.

Lemma length_names fs :
  length (fs ≫= (λ f, name_field (ft_name f))) = (EDFI_STATS_FAULT_NAME_LEN * length fs)%nat.
Proof.
  induction fs as [|f fs IH]; [done|]. rewrite bind_cons, length_app, length_name_field, IH.
  cbn [length]. lia.
Qed.

Lemma length_stats_header e : length (stats_header e) = header_size.
Proof. unfold stats_header. by rewrite !length_app, !length_le_bytes. Qed.

Lemma length_executions e : length (executions e) = Z.to_nat (num_bbs e).
Proof. unfold executions. by rewrite length_fmap, length_seq. Qed.

Lemma length_candidates n fs :
  Forall (λ f, length (bb_num_candidates f) = n) fs →
  length (fs ≫= (λ f, int_bytes (take n (bb_num_candidates f)))) = (4 * n * length fs)%nat.
Proof.
  induction 1 as [|f fs Hf _ IH]; [cbn; lia|]. rewrite bind_cons, length_app, length_int_bytes, length_take, IH, Hf.
  cbn [length]. lia.
Qed.

Lemma strncmp_eq_pad n (a : list Z) m :
  Forall (λ x, x ≠ 0) a → strncmp_eq n (take n (a ++ replicate m 0)) a = true.
Proof.
  revert a. induction n as [|n IH]; intros a Ha; [done|]. destruct a as [|x a].
  - by destruct m.
  - inversion_clear Ha. cbn. rewrite Z.eqb_refl. cbn. rewrite (proj2 (Z.eqb_neq x 0)) by done.
    by apply IH.
Qed.

Lemma names_match_self fs rest :
  Forall (λ f, Forall (λ c, code c ≠ 0) (ft_name f)) fs →
  names_match fs ((fs ≫= (λ f, name_field (ft_name f))) ++ rest) = true.
Proof.
  induction 1 as [|f fs Hf _ IH]; [done|]. rewrite bind_cons, <- app_assoc. cbn [names_match].
  rewrite take_app_length' by (symmetry; apply length_name_field).
  rewrite drop_app_length' by (symmetry; apply length_name_field).
  unfold name_field at 1. rewrite strncmp_eq_pad; [apply IH|]. by apply Forall_fmap.
Qed.

Lemma candidates_match_self n fs :
  Forall (λ f, length (bb_num_candidates f) = n) fs →
  candidates_match (4 * n) fs (fs ≫= (λ f, int_bytes (take n (bb_num_candidates f)))) = true.
Proof.
  induction 1 as [|f fs Hf _ IH]; [done|]. rewrite bind_cons. cbn [candidates_match].
  rewrite (take_ge (bb_num_candidates f)) by lia.
  assert (length (int_bytes (bb_num_candidates f)) = (4 * n)%nat) as Hl
    by (rewrite length_int_bytes; lia).
  rewrite take_app_length', drop_app_length' by done. rewrite take_ge by lia.
  rewrite bool_decide_true by done. apply IH.
Qed.

Lemma add_counts_spec xs ys rest :
  length xs = length ys →
  add_counts ys ((xs ≫= le_bytes 8) ++ rest) =
  (zip_with (λ x y, u64 (x + y)) xs ys ≫= le_bytes 8) ++ rest.
Proof.
  revert ys. induction xs as [|x xs IH]; intros [|y ys]; try done. intros [= Hl].
  rewrite bind_cons, <- app_assoc. cbn [add_counts zip_with].
  rewrite take_app_length', drop_app_length' by (symmetry; apply length_le_bytes).
  rewrite IH by done. rewrite bind_cons, <- app_assoc. f_equal.
  rewrite le_decode_le_bytes, <- (le_bytes_mod 8), <- (le_bytes_mod 8 (u64 _)). f_equal.
  unfold u64, uwrap. change (256 ^ Z.of_nat 8) with (2 ^ 64).
  by rewrite Z.add_mod_idemp_l, Z.mod_mod by done.
Qed.

Lemma stats_wf_candidates e :
  stats_wf e → Forall (λ f, length (bb_num_candidates f) = Z.to_nat (num_bbs e)) (fault_types e).
Proof. intros H. eapply Forall_impl; [exact H|]. by intros f [_ ?]. Qed.

Lemma stats_wf_names e :
  stats_wf e → Forall (λ f, Forall (λ c, code c ≠ 0) (ft_name f)) (fault_types e).
Proof. intros H. eapply Forall_impl; [exact H|]. by intros f [? _]. Qed.

Lemma length_stats_prefix e :
  length (stats_header e ++ (fault_types e ≫= (λ f, name_field (ft_name f)))) =
  (header_size + names_size e)%nat.
Proof. by rewrite length_app, length_stats_header, length_names. Qed.

Lemma length_stats_file e xs :
  stats_wf e → length xs = Z.to_nat (num_bbs e) → length (stats_file e xs) = stats_datasize e.
Proof.
  intros Hwf Hl. unfold stats_file, stats_datasize, executions_size, candidates_row.
  rewrite length_app, length_stats_prefix, length_app, length_counts, length_candidates
    by by apply stats_wf_candidates. lia.
Qed.

Lemma stats_match_self e xs :
  stats_wf e → length xs = Z.to_nat (num_bbs e) → stats_match e (stats_file e xs) = true.
Proof.
  intros Hwf Hl. unfold stats_match, stats_file. rewrite !andb_true_iff. split_and!.
  - apply bool_decide_eq_true. rewrite <- !app_assoc.
    by rewrite take_app_length' by (symmetry; apply length_stats_header).
  - rewrite <- !app_assoc. rewrite drop_app_length' by (symmetry; apply length_stats_header).
    by apply names_match_self, stats_wf_names.
  - rewrite app_assoc. rewrite drop_app_length'.
    + by apply candidates_match_self, stats_wf_candidates.
    + rewrite length_app, length_stats_prefix, length_counts. unfold executions_size. lia.
Qed.

Lemma add_executions_spec e xs :
  length xs = Z.to_nat (num_bbs e) →
  add_executions e (stats_file e xs) = stats_file e (zip_with (λ x y, u64 (x + y)) xs (executions e)).
Proof.
  intros Hl. unfold add_executions, stats_file.
  rewrite take_app_length', drop_app_length' by (symmetry; apply length_stats_prefix).
  rewrite add_counts_spec by (rewrite length_executions; done). done.
Qed.

Lemma new_stats_file e : new_stats e = stats_file e (replicate (Z.to_nat (num_bbs e)) 0).
Proof.
  unfold new_stats, stats_file. rewrite <- app_assoc. do 3 f_equal.
  unfold executions_size. induction (Z.to_nat (num_bbs e)) as [|n IH]; [done|].
  replace (8 * S n)%nat with (8 + 8 * n)%nat by lia. rewrite replicate_add, IH. done.
Qed.

Lemma stats_add_new e :
  edfi_stats_per_bb_add_with_fd e [] = Some (stats_file e (u64 <$> executions e)).
Proof.
  unfold edfi_stats_per_bb_add_with_fd. rewrite take_nil, drop_nil, app_nil_r. cbn [decide].
  rewrite decide_True by done. f_equal. rewrite new_stats_file, add_executions_spec
    by apply length_replicate. f_equal.
  rewrite zip_with_replicate_l by (by rewrite length_executions).
  apply list_fmap_ext. by intros.
Qed.

Lemma stats_add_existing e xs :
  stats_wf e → length xs = Z.to_nat (num_bbs e) →
  edfi_stats_per_bb_add_with_fd e (stats_file e xs) =
  Some (stats_file e (zip_with (λ x y, u64 (x + y)) xs (executions e))).
Proof.
  intros Hwf Hl. pose proof (length_stats_file e xs Hwf Hl) as Hlen.
  unfold edfi_stats_per_bb_add_with_fd. rewrite take_ge, drop_ge, !app_nil_r by lia.
  rewrite decide_False.
  - rewrite decide_True by done. rewrite stats_match_self, add_executions_spec by done. done.
  - intros E. rewrite E in Hlen. cbn in Hlen. unfold stats_datasize, header_size in Hlen. lia.
Qed.

(** Runs of the same program, each with its own counts, adding to one file. *)
Definition add_runs (e : edfi) (runs : list (Z → Z)) (file : list Z) : option (list Z) :=
  foldl (λ acc f, acc ≫= edfi_stats_per_bb_add_with_fd (set_bb_num_executions f e))
    (Some file) runs.

Definition total_counts (e : edfi) (runs : list (Z → Z)) : list Z :=
  (λ i, u64 (foldr Z.add 0 ((λ f, f (Z.of_nat i)) <$> runs))) <$> seq 1 (Z.to_nat (num_bbs e)).

Lemma stats_file_run e f xs : stats_file (set_bb_num_executions f e) xs = stats_file e xs.
Proof. done. Qed.

Lemma foldr_add_snoc l x : foldr Z.add 0 (l ++ [x]) = foldr Z.add 0 l + x.
Proof. induction l as [|y l IH]; cbn; lia. Qed.

Lemma total_counts_snoc e runs f :
  zip_with (λ x y, u64 (x + y)) (total_counts e runs) (executions (set_bb_num_executions f e)) =
  total_counts e (runs ++ [f]).
Proof.
  unfold total_counts, executions. cbn [num_bbs bb_num_executions set_bb_num_executions].
  rewrite zip_with_fmap_l, zip_with_fmap_r, zip_with_diag. apply list_fmap_ext. intros j i _.
  rewrite fmap_app. cbn [fmap list_fmap]. rewrite foldr_add_snoc.
  unfold u64, uwrap. by rewrite Z.add_mod_idemp_l.
Qed.

(** C34: The statistics file accumulates over runs, when reading and writing it succeed. Let the
    names of the fault types have no zero characters and each fault type a number of candidates
    for every block. Starting without a file, any runs of one program, at least one, all succeed
    in adding to it, and in the end it has the program's header, names and candidates and, for
    each block, the sum of the executions in all runs modulo [2^64]; a file that is neither empty
    nor complete is refused. *)
Theorem stats_file_accumulates (e : edfi) (runs : list (Z → Z)) :
  stats_wf e → runs ≠ [] →
  add_runs e runs [] = Some (stats_file e (total_counts e runs)) ∧
  ∀ file, (0 < length file < stats_datasize e)%nat → edfi_stats_per_bb_add_with_fd e file = None.
Proof.
  intros Hwf Hne. split.
  - induction runs as [|f runs IH] using rev_ind; [done|].
    unfold add_runs in *. rewrite foldl_app. cbn [foldl]. destruct runs as [|g runs].
    + cbn [app foldl mbind option_bind]. rewrite stats_add_new, stats_file_run. do 2 f_equal. unfold executions, total_counts.
      rewrite <- list_fmap_compose. apply list_fmap_ext. intros j i _. cbn. by rewrite Z.add_0_r.
    + rewrite IH by done. cbn [mbind option_bind]. rewrite <- (stats_file_run e f).
      rewrite stats_add_existing; [by rewrite total_counts_snoc|done|].
      unfold total_counts. by rewrite length_fmap, length_seq.
  - intros file Hf. unfold edfi_stats_per_bb_add_with_fd. rewrite take_ge by lia.
    rewrite decide_False by (intros ->; cbn in Hf; lia). by rewrite decide_False by lia.
Qed.

Definition demo_stats : edfi :=
  set_fault_types [mk_fault_type (lit "off-by-one") [1; 0] [2; 3]] (set_num_bbs 2 demo_edfi).

Lemma stats_file_accumulates_witness :
  add_runs demo_stats [λ i, i; λ i, 10 * i] [] = Some (stats_file demo_stats [11; 22]).
Proof.
  apply (stats_file_accumulates demo_stats [λ i, i; λ i, 10 * i]).
  - repeat constructor; try (vm_compute; congruence).
  - done.
Defined.

(** ** The compact dump *)

(** What a reader of the dump makes of it: each count as often as it is repeated. *)
Definition expand (l : list (Z * Z)) : list Z := l ≫= (λ p, replicate (Z.to_nat p.2) p.1).

(** No repetition count is 0, and neighbours differ. *)
Definition rle_head (l : list (Z * Z)) : option Z := fst <$> head l.

Fixpoint rle_minimal (l : list (Z * Z)) : Prop :=
  match l with
  | [] => True
  | (c, n) :: l' => 0 < n ∧ rle_head l' ≠ Some c ∧ rle_minimal l'
  end.

Lemma hypermem_loop_spec cs c n :
  0 <= n →
  expand (hypermem_loop cs c n) = replicate (Z.to_nat n) c ++ cs ∧
  (0 < n → rle_head (hypermem_loop cs c n) = Some c) ∧ rle_minimal (hypermem_loop cs c n).
Proof.
  unfold expand. revert c n. induction cs as [|x cs IH]; intros c n Hn; cbn [hypermem_loop].
  - destruct (Z.eqb_spec n 0) as [->|Hz]; cbn; [done|]. split_and!; try done. lia.
  - destruct (Z.eqb_spec c x) as [->|Hne].
    + destruct (IH x (n + 1) ltac:(lia)) as (H1 & H2 & H3). rewrite H1. split_and!.
      * rewrite Z2Nat.inj_add, replicate_add, <- app_assoc by lia. done.
      * intros. apply H2. lia.
      * done.
    + destruct (IH x 1 ltac:(lia)) as (H1 & H2 & H3). rewrite bind_app, H1.
      destruct (Z.eqb_spec n 0) as [->|Hz]; cbn [app mbind list_bind fst snd rle_minimal].
      * split_and!; [done|lia|done].
      * rewrite app_nil_r. split_and!; try done; [lia|]. rewrite (H2 ltac:(lia)). congruence.
Qed.

(** The compact dump of the execution counts is lossless and minimal: expanding its items
    gives the counts of all blocks in order, every item stands for at least one block, and
    neighbouring items have different counts. *)
Theorem hypermem_dump_lossless (e : edfi) :
  expand (edfi_print_hypermemlike_stats e) = executions e ∧
  rle_minimal (edfi_print_hypermemlike_stats e).
Proof.
  destruct (hypermem_loop_spec (executions e) 0 0 ltac:(lia)) as (H1 & _ & H3). by split.
Qed.

(** ** Canaries and handlers *)

Section EdfiSafety.
Context {os : Type} `{platform : Platform os}.

(** Loading a fault-injection library is all or nothing: it returns 0 and then all four
    handlers are those of the library, or it returns a negative status and no state of the
    injector has changed; a failed UPDATE command keeps the configuration in force. *)
Theorem load_dflib_all_or_nothing (path : cstr) (c : edfi_conf) (s : edfi * os) :
  (∃ r s', edfi_load_dflib path s = Ok r s' ∧
    ((r = 0 ∧ ∃ a b f z, onstart_p s'.1 = Loaded a ∧ onfdp_p s'.1 = Loaded b ∧
        onfault_p s'.1 = Loaded f ∧ onstop_p s'.1 = Loaded z ∧
        a ≠ 0 ∧ b ≠ 0 ∧ f ≠ 0 ∧ z ≠ 0 ∧ econf s'.1 = econf s.1) ∨
     (r < 0 ∧ s'.1 = s.1))) ∧
  ∃ r s', edfi_process_cmd EDFI_CTL_CMD_UPDATE (Some c) s = Ok r s' ∧
    ((r = 0 ∧ econf s'.1 = c) ∨
     (r < 0 ∧ econf s'.1 = econf s.1 ∧ onfdp_p s'.1 = onfdp_p s.1 ∧ enabled s'.1 = enabled s.1)).
Proof.
  assert (∀ path s, ∃ r s', edfi_load_dflib (os := os) path s = Ok r s' ∧
    ((r = 0 ∧ ∃ a b f z, onstart_p s'.1 = Loaded a ∧ onfdp_p s'.1 = Loaded b ∧
        onfault_p s'.1 = Loaded f ∧ onstop_p s'.1 = Loaded z ∧
        a ≠ 0 ∧ b ≠ 0 ∧ f ≠ 0 ∧ z ≠ 0 ∧ econf s'.1 = econf s.1) ∨
     (r < 0 ∧ s'.1 = s.1))) as Hl.
  { clear. intros path [e o]. unfold edfi_load_dflib. destruct (dlopen path o) as [h o1].
    repeat match goal with |- context [?x =? 0] => destruct (Z.eqb_spec x 0) end;
      eexists _, _; (split; [reflexivity|]); auto with lia.
    left. split; [done|]. cbn. by eexists _, _, _, _. }
  split; [apply Hl|]. cbn -[edfi_load_dflib u32]. unfold edfi_update_context.
  rewrite (bind_Ok _ _ s () (set_rand_next (u32 (rand_seed c)) s.1, s.2)) by done.
  destruct (dflib_path c) as [|x p] eqn:Ep.
  { cbn. eexists _, _. split; [reflexivity|]. by left. }
  destruct (Hl (x :: p) (set_rand_next (u32 (rand_seed c)) s.1, s.2)) as (r & s' & Hrun & Hr).
  rewrite (bind_Ok _ _ _ _ _ Hrun). destruct Hr as [[-> _]|[Hneg Hs]].
  - cbn. eexists _, _. split; [reflexivity|]. by left.
  - rewrite (proj2 (Z.ltb_lt _ _)) by done. eexists _, _. split; [reflexivity|]. right.
    by rewrite Hs.
Qed.

(** The canaries around the counters are intact. *)
Definition canaries_ok (e : edfi) : Prop :=
  bb_num_executions e 0 = EDFI_CANARY_VALUE ∧
  bb_num_executions e (num_bbs e + 1) = EDFI_CANARY_VALUE.

(** What decision points and faults may do to the counters of executions. *)
Definition only_counts (bb : Z) (s s' : edfi * os) : Prop :=
  num_bbs s'.1 = num_bbs s.1 ∧
  ∀ i, i ≠ bb → bb_num_executions s'.1 i = bb_num_executions s.1 i.

#[local] Instance only_counts_preorder bb : PreOrder (only_counts bb).
Proof.
  split; [by intros s|]. intros s1 s2 s3 [H1 H2] [H3 H4].
  split; [congruence|]. intros i Hi. by rewrite H4, H2.
Qed.

Lemma keeps_put bb f :
  (∀ e, num_bbs (f e) = num_bbs e ∧
    ∀ i, i ≠ bb → bb_num_executions (f e) i = bb_num_executions e i) →
  keeps (only_counts bb) (put (os := os) f).
Proof. intros H s. apply H. Qed.

Lemma keeps_counter bb : keeps (only_counts bb) (put (os := os) (count_execution bb)).
Proof. apply keeps_put. intros e. split; [done|]. intros i Hi. by apply upd_ne. Qed.

Lemma keeps_time bb : keeps (only_counts bb) (edfi_getcurrtime_ns (os := os)).
Proof. intros s. unfold edfi_getcurrtime_ns. by destruct (getcurrtime_ns s.2). Qed.

Lemma keeps_get bb {A} (f : edfi → A) : keeps (only_counts bb) (get (os := os) f).
Proof. apply keeps_gets, _. Qed.

Lemma keeps_conf bb {A} (f : edfi_conf → A) : keeps (only_counts bb) (conf (os := os) f).
Proof. apply keeps_gets, _. Qed.

Lemma keeps_onstop bb : keeps (only_counts bb) (run_onstop (os := os)).
Proof. apply (keeps_bind _); [apply keeps_get|]. intros [|p]; by intros s. Qed.

#[local] Hint Resolve keeps_counter keeps_time keeps_get keeps_conf keeps_onstop : keeps.
#[local] Hint Extern 1 (keeps _ (put _)) => by (apply keeps_put; intros ?; done) : keeps.

Ltac counts_kept := eauto 20 with keeps.

Lemma keeps_guard bb c k :
  keeps (only_counts bb) c → keeps (only_counts bb) k → keeps (only_counts bb) (guard (os := os) c k).
Proof. intros Hc Hk. apply (keeps_bind _); [done|]. by intros [|]. Qed.

Lemma keeps_conditions bb :
  keeps (only_counts bb) (edfi_onfdp_min_fdp_interval (os := os)) ∧
  keeps (only_counts bb) (edfi_onfdp_min_fault_time_interval (os := os)) ∧
  keeps (only_counts bb) (edfi_onfdp_fault_prob (os := os)) ∧
  keeps (only_counts bb) (edfi_onfdp_bb_index (os := os) bb) ∧
  keeps (only_counts bb) (edfi_onfdp_max_time (os := os)) ∧
  keeps (only_counts bb) (edfi_onfdp_max_faults (os := os)) ∧
  keeps (only_counts bb) (edfi_onfdp_min_fault_time_interval_update (os := os)).
Proof.
  unfold edfi_onfdp_min_fdp_interval, edfi_onfdp_min_fault_time_interval, edfi_onfdp_fault_prob,
    edfi_onfdp_bb_index, edfi_onfdp_max_time, edfi_onfdp_max_faults,
    edfi_onfdp_min_fault_time_interval_update, edfi_rand, edfi_stop, add_onfdp_count.
  split_and!; counts_kept.
Qed.

Lemma keeps_onfdp_default all bb : keeps (only_counts bb) (edfi_onfdp_default (os := os) all bb).
Proof.
  destruct (keeps_conditions bb) as (? & ? & ? & ? & ? & ? & ?).
  unfold edfi_onfdp_default, edfi_onfdp_min_fdp_interval_update.
  eauto 40 using keeps_guard with keeps.
Qed.

Lemma keeps_onfault_default all bb : keeps (only_counts bb) (edfi_onfault_default (os := os) all bb).
Proof. unfold edfi_onfault_default. counts_kept. Qed.

(** The canaries of the execution counters survive injection: set by initialisation, they
    are still there after any sequence of decision points and faults at blocks of the
    program (numbered from 1), whatever the configuration decides. *)
Theorem canaries_survive (all : bool) (events : list (Z * bool)) (s : edfi * os) :
  Forall (λ ev, 1 <= ev.1 <= num_bbs s.1) events →
  canaries_ok (init_executions s.1) ∧
  canaries_ok (foldl (λ s ev, final
    ((b ← edfi_onfdp_default all ev.1; when (b && ev.2) (edfi_onfault_default all ev.1)) s))
    (init_executions s.1, s.2) events).1.
Proof.
  intros Hev.
  assert (canaries_ok (init_executions s.1)) as Hi.
  { unfold canaries_ok, init_executions. cbn. by rewrite Z.eqb_refl, orb_true_r. }
  split; [done|].
  change (num_bbs s.1) with (num_bbs (init_executions s.1, s.2).1) in Hev.
  change (canaries_ok (init_executions s.1, s.2).1) in Hi.
  generalize dependent (init_executions s.1, s.2). clear s.
  induction events as [|[bb inj] events IH]; intros s Hev Hi; [done|].
  inversion_clear Hev as [|?? Hbb Hrest]. cbn [foldl fst snd] in *.
  set (p := b ← edfi_onfdp_default all bb; _).
  assert (keeps (only_counts bb) p) as Hk.
  { apply (keeps_bind _); [apply keeps_onfdp_default|]. intros b.
    apply (keeps_when _), keeps_onfault_default. }
  destruct (Hk s) as [Hn Hx]. apply IH.
  - by rewrite Hn.
  - destruct Hi as [H0 H1]. split; [by rewrite Hx by lia|]. rewrite Hn, Hx by lia. done.
Qed.

End EdfiSafety.

Lemma canaries_survive_witness :
  canaries_ok (init_executions demo_edfi) ∧
  canaries_ok (foldl (λ s ev, final
    ((b ← edfi_onfdp_default true ev.1; when (b && ev.2) (edfi_onfault_default true ev.1)) s))
    (init_executions demo_edfi, 100) [(1, true); (5, false)]).1.
Proof.
  apply (canaries_survive true [(1, true); (5, false)] (demo_edfi, 100)).
  repeat constructor; cbn; lia.
Defined.
