(* ===== verification/BbTrace.v ===== *)
(** * Tracing the basic blocks of recovery windows

    The tracer of [edfi/df/edfi_df.c] ([edfi_trace_init], [edfi_trace_bb]), the merge of a
    window's trace into the profile of its site ([rcvry/rcvry_util.c]) and the dumps of the
    profiles and the traces ([rcvry/rcvry_dispatch.c]). *)
From stdpp Require Import base numbers list gmap sets sorting strings.
From Stdlib Require Import ZArith Lia Ascii.
From S2P Require Import Prelude CString Ctx Rcvry.

Definition EDFI_BB_TRACING_HASHLIST_SIZE : Z := 409600.
Definition EDFI_BB_TRACING_HISTORY_SIZE : Z := 16384.
Definition RCVRY_BBTRACING_MAXSIZE : Z := 16384.

(** The state of the tracer.  Only the first [edfi_bbtrace_next_index] entries of the
    history and the first [num_bbs] entries of a site's array are ever read: they are
    the lists. *)
Record bbt := mk_bbt {
  hashlist : Z → Z;  (** [edfi_bbtrace_hashlist] *)
  history : list Z;  (** [edfi_bbtrace_history], of length [edfi_bbtrace_next_index] *)
  startuplist : Z → Z;  (** [edfi_bbtrace_startuplist] *)
  is_startup : Z;
  disable_tracing : Z;
  trace_num_bbs : Z;  (** [edfi_bbtrace_num_bbs] and [edfi_context->num_bbs] *)
  trace_site : Z;  (** [rcvry_current_site_id] *)
  bbs : Z → list Z;  (** [rcvry_info[i].rcvry_prof.bbs], of length [num_bbs] *)
}.

Definition set_hashlist (v : Z → Z) (s : bbt) : bbt :=
  mk_bbt v (history s) (startuplist s) (is_startup s) (disable_tracing s) (trace_num_bbs s)
    (trace_site s) (bbs s).
Definition set_history (v : list Z) (s : bbt) : bbt :=
  mk_bbt (hashlist s) v (startuplist s) (is_startup s) (disable_tracing s) (trace_num_bbs s)
    (trace_site s) (bbs s).
Definition set_startuplist (v : Z → Z) (s : bbt) : bbt :=
  mk_bbt (hashlist s) (history s) v (is_startup s) (disable_tracing s) (trace_num_bbs s)
    (trace_site s) (bbs s).
Definition set_is_startup (v : Z) (s : bbt) : bbt :=
  mk_bbt (hashlist s) (history s) (startuplist s) v (disable_tracing s) (trace_num_bbs s)
    (trace_site s) (bbs s).
Definition set_disable_tracing (v : Z) (s : bbt) : bbt :=
  mk_bbt (hashlist s) (history s) (startuplist s) (is_startup s) v (trace_num_bbs s)
    (trace_site s) (bbs s).
Definition set_trace_num_bbs (v : Z) (s : bbt) : bbt :=
  mk_bbt (hashlist s) (history s) (startuplist s) (is_startup s) (disable_tracing s) v
    (trace_site s) (bbs s).
Definition set_bbs (v : Z → list Z) (s : bbt) : bbt :=
  mk_bbt (hashlist s) (history s) (startuplist s) (is_startup s) (disable_tracing s)
    (trace_num_bbs s) (trace_site s) v.

(** ** The tracer *)

(** [memset(&edfi_bbtrace_hashlist[0], 0, n * sizeof(unsigned))]. *)
Definition clear_hashlist (n : Z) (s : bbt) : bbt :=
  set_hashlist (λ i, if (0 <=? i) && (i <? n) then 0 else hashlist s i) s.

Definition edfi_trace_init (getenv : string → option cstr) (num_bbs : Z) : prog bbt () :=
  assert (num_bbs <? EDFI_BB_TRACING_HASHLIST_SIZE) ;;
  modify (clear_hashlist num_bbs) ;;
  modify (set_history []) ;;
  modify (set_trace_num_bbs num_bbs) ;;
  modify (set_is_startup 1) ;;
  modify (λ s, set_startuplist (λ i,
    if (0 <=? i) && (i <? EDFI_BB_TRACING_HASHLIST_SIZE) then 0 else startuplist s i) s) ;;
  match getenv "DISABLE_BBTRACE_DUMP" with
  | Some v => modify (set_disable_tracing (if strtoul v =? 1 then 1 else 0))
  | None => skip
  end.

Definition edfi_trace_bb (bb_id : Z) : prog bbt () :=
  d ← gets disable_tracing;
  if truthy d then skip else
  n ← gets trace_num_bbs;
  assert (bb_id <? n) ;;
  h ← gets (λ s, hashlist s bb_id);
  (if 0 =? h then
     modify (λ s, set_hashlist (upd (hashlist s) bb_id bb_id) s) ;;
     modify (λ s, set_history (history s ++ [bb_id]) s) ;;
     len ← gets (λ s, zlen (history s));
     assert (len <? EDFI_BB_TRACING_HISTORY_SIZE)
   else skip) ;;
  st ← gets is_startup;
  when (truthy st) (modify (λ s, set_startuplist (upd (startuplist s) bb_id bb_id) s)).

(** ** Merging a window into its site *)

(** The difference of two [unsigned], converted to [int]. *)
Definition _qcmp (a b : Z) : Z := s32 (u32 (a - b)).

(** [qsort] with [_qcmp]; the C library leaves the algorithm open, and equal keys cannot
    be told apart. *)
Fixpoint qinsert (x : Z) (l : list Z) : list Z :=
  match l with
  | [] => [x]
  | y :: l' => if _qcmp x y <=? 0 then x :: l else y :: qinsert x l'
  end.
Definition qsort (l : list Z) : list Z := foldr qinsert [] l.

(** The inner and the outer loop that mark what is already known, counting. *)
Fixpoint mark_one (x : Z) (list2 : list Z) : list Z * Z :=
  match list2 with
  | [] => ([], 0)
  | y :: l =>
      let '(l', d) := mark_one x l in
      if y =? x then (0 :: l', d + 1) else (y :: l', d)
  end.

Fixpoint mark_all (list1 list2 : list Z) : list Z * Z :=
  match list1 with
  | [] => (list2, 0)
  | x :: l =>
      let '(list2', d) := mark_one x list2 in
      let '(list2'', d') := mark_all l list2' in
      (list2'', d + d')
  end.

Definition _merge (list1 list2 : list Z) (maxsize : Z) : prog bbt (list Z) :=
  let list2 := qsort list2 in
  let '(list2, duplicates_found) := mark_all list1 list2 in
  assert (u32 (zlen list1 + zlen list2 - duplicates_found) <=? maxsize) ;;
  mret (qsort (list1 ++ filter (λ x, x ≠ 0) list2)).

Definition rcvry_prof_bbtrace_flush : prog bbt () :=
  d ← gets disable_tracing;
  if negb (d =? 0) then skip else
  i ← gets trace_site;
  (if negb (0 =? i) then
     l1 ← gets (λ s, bbs s i);
     l2 ← gets history;
     l ← _merge l1 l2 RCVRY_BBTRACING_MAXSIZE;
     modify (λ s, set_bbs (upd (bbs s) i l) s)
   else skip) ;;
  modify (set_history []) ;;
  n ← gets trace_num_bbs;
  modify (clear_hashlist n).

(** A window: the blocks it executes, then the flush at its end. *)
Fixpoint trace_bbs (l : list Z) : prog bbt () :=
  match l with
  | [] => skip
  | b :: l' => edfi_trace_bb b ;; trace_bbs l'
  end.

Definition trace_window (l : list Z) : prog bbt () := trace_bbs l ;; rcvry_prof_bbtrace_flush.

(** ** Dumps *)

Section Dumps.
(** Whether blocks of the startup are left out of the dump. *)
Context (RCVRY_BBTRACE_EXCLUDE_STARTUP : bool).

(** The loop over the blocks of a site, from [prev]. *)
Fixpoint dump_bbs (startup : Z → Z) (prev : Z) (l : list Z) : cstr :=
  match l with
  | [] => []
  | b :: l' =>
      let last := match l' with [] => true | _ => false end in
      if RCVRY_BBTRACE_EXCLUDE_STARTUP && negb (startup b =? 0) then
        (if last then dec prev else []) ++ dump_bbs startup prev l'
      else dec b ++ (if last then [] else [comma]) ++ dump_bbs startup b l'
  end.

Definition quote : ascii := ascii_of_N 34.

Definition site_entry (s : bbt) (i : Z) : cstr :=
  [quote] ++ dec i ++ [quote] ++ lit ":[" ++ dump_bbs (startuplist s) 0 (bbs s i) ++ lit "]".

(** The loop over the sites: a comma before every entry but the first. *)
Fixpoint dump_sites (r : rcvry) (s : bbt) (isFirst : bool) (sites : list Z) : cstr :=
  match sites with
  | [] => []
  | i :: sites' =>
      if rcvry_prof (info r i) num_hits_rcvry_branch =? 0 then dump_sites r s isFirst sites'
      else (if isFirst then [] else [comma]) ++ site_entry s i ++ dump_sites r s false sites'
  end.

Definition all_sites : list Z := Z.of_nat <$> seq 0 (Z.to_nat RCVRY_MAX_LIBCALL_SITES).

(** The loop over the startup list. *)
Fixpoint dump_startup (s : bbt) (isFirst : bool) (l : list Z) : cstr :=
  match l with
  | [] => []
  | i :: l' =>
      if startuplist s i =? 0 then dump_startup s isFirst l'
      else (if isFirst then [] else lit ", ") ++ dec (startuplist s i) ++ dump_startup s false l'
  end.

(** [rcvry_prof_bbtrace_dump]: what is written to the two files, unless disabled. *)
Definition rcvry_prof_bbtrace_dump (getenv : string → option cstr) (r : rcvry) (s : bbt) :
    option (cstr * cstr) :=
  let disable_dump := match getenv "DISABLE_BBTRACE_DUMP" with
                      | Some v => s32 (strtoul v) | None => 0 end in
  if negb (disable_dump =? 0) then None
  else Some (lit "{" ++ dump_sites r s true all_sites ++ lit "}",
             lit "[" ++ dump_startup s true
               (Z.of_nat <$> seq 0 (Z.to_nat EDFI_BB_TRACING_HASHLIST_SIZE)) ++ lit "]").
End Dumps.

(** A number right-justified in a field of [w] characters. *)
Definition pad (w : nat) (n : Z) : cstr :=
  replicate (w - length (dec n)) " "%char ++ dec n.

(** A row of [rcvry_prof_dump]: [%4d] and ten times [%8u]. *)
Definition prof_columns : list prof_counter :=
  [num_hits_tsx; num_hits_ckpt; num_rcvry_success__switchtxtype; num_hits;
   num_rcvry_successes; num_rcvry_success__errpath; num_hits_rcvry_branch;
   libcalls__protected; libcalls__skipped_nonfaultable; libcalls__skipped_nousers].

Definition prof_row (r : rcvry) (i : Z) : cstr :=
  join comma (pad 4 i :: (pad 8 <$> (rcvry_prof (info r i) <$> prof_columns))).

(** The sites [rcvry_prof_dump] prints. *)
Definition prof_printed (r : rcvry) (i : Z) : bool :=
  negb (rcvry_prof (info r i) num_hits_rcvry_branch =? 0)
  || negb (rcvry_prof (info r i) libcalls__skipped_nonfaultable =? 0)
  || negb (rcvry_prof (info r i) libcalls__skipped_nousers =? 0).

(** The rows of [rcvry_prof_dump], between its header and its last line. *)
Definition rcvry_prof_dump (r : rcvry) : list cstr :=
  prof_row r <$> filter (λ i, prof_printed r i = true) all_sites.

(** ** Sorting *)

(** Block numbers small enough for [_qcmp] to be an order. *)
Definition small_id (x : Z) : Prop := 0 <= x < 2147483648.

Lemma qcmp_le a b : small_id a → small_id b → (_qcmp a b <=? 0) = (a <=? b).
Proof.
  unfold small_id, _qcmp. intros Ha Hb. destruct (Z.leb_spec a b) as [Hle|Hgt].
  - apply Z.leb_le. destruct (decide (a = b)) as [->|]; [by rewrite Z.sub_diag|].
    unfold u32, uwrap, s32, swrap.
    rewrite <- (Z.mod_unique (a - b) (2 ^ 32) (-1) (a - b + 2 ^ 32)) by (change (2 ^ 32) with 4294967296; lia).
    change (2 ^ (32 - 1)) with 2147483648. change (2 ^ 32) with 4294967296.
    rewrite <- (Z.mod_unique (a - b + 4294967296 + 2147483648) 4294967296 1
      (a - b + 2147483648)) by lia. lia.
  - apply Z.leb_gt. rewrite u32_small, s32_small by lia. lia.
Qed.

Lemma qinsert_perm x l : qinsert x l ≡ₚ x :: l.
Proof.
  induction l as [|y l IH]; [done|]. cbn. destruct (_ <=? 0); [done|].
  rewrite IH. apply Permutation_swap.
Qed.

Lemma qsort_perm l : qsort l ≡ₚ l.
Proof. induction l as [|x l IH]; [done|]. cbn. by rewrite qinsert_perm, IH. Qed.

Lemma qinsert_sorted x l :
  small_id x → Forall small_id l → StronglySorted Z.le l → StronglySorted Z.le (qinsert x l).
Proof.
  intros Hx Hl. induction 1 as [|y l Hs IH Hy]; [repeat constructor|]. cbn.
  inversion_clear Hl as [|?? Hy' Hl']. rewrite qcmp_le by done.
  destruct (Z.leb_spec x y) as [Hle|Hgt].
  - constructor; [by constructor|]. constructor; [done|].
    eapply Forall_impl; [exact Hy|]. intros; lia.
  - constructor; [by apply IH|]. rewrite qinsert_perm. constructor; [lia|done].
Qed.

Lemma qsort_sorted l : Forall small_id l → StronglySorted Z.le (qsort l).
Proof.
  induction 1 as [|x l Hx Hl IH]; [constructor|]. apply qinsert_sorted; [done| |done].
  by rewrite qsort_perm.
Qed.

(** ** Marking *)

Lemma mark_one_spec x l l' d :
  mark_one x l = (l', d) →
  l' = (λ y, if y =? x then 0 else y) <$> l ∧ d = zlen (filter (λ y, y = x) l).
Proof.
  revert l' d. induction l as [|y l IH]; intros l' d; [intros [= <- <-]; done|].
  cbn [mark_one fmap list_fmap].
  destruct (mark_one x l) as [l1 d1]. destruct (IH l1 d1 eq_refl) as [-> ->].
  rewrite filter_cons. destruct (Z.eqb_spec y x); intros [= <- <-].
  - rewrite decide_True by done. cbn. split; [done|lia].
  - rewrite decide_False by done. done.
Qed.

(** What is left of the second list: its entries not in the first; and the count of the
    entries marked, provided the first list has no invalid and no repeated entry. *)
Lemma mark_all_spec list1 list2 l d :
  mark_all list1 list2 = (l, d) → NoDup list1 → 0 ∉ list1 →
  filter (λ x, x ≠ 0) l = filter (λ x, x ≠ 0 ∧ x ∉ list1) list2 ∧
  length l = length list2 ∧ d = zlen (filter (λ x, x ∈ list1) list2).
Proof.
  revert list2 l d. induction list1 as [|x list1 IH]; intros list2 l d; cbn [mark_all].
  - intros [= <- <-] _ _. split_and!; [|done|].
    + apply list_filter_iff. intros x. rewrite elem_of_nil. tauto.
    + clear. induction list2 as [|y l IH]; [done|].
      by rewrite filter_cons, decide_False by apply not_elem_of_nil.
  - destruct (mark_one x list2) as [l1 d1] eqn:E1. destruct (mark_all list1 l1) as [l2 d2] eqn:E2.
    intros [= <- <-] Hnd H0. apply NoDup_cons in Hnd as [Hx Hnd].
    destruct (mark_one_spec _ _ _ _ E1) as [-> ->].
    destruct (IH _ _ _ E2 Hnd ltac:(set_solver)) as (Hf & Hl & ->).
    rewrite Hf, Hl, length_fmap. clear -Hx H0. split_and!; [|done|].
    + induction list2 as [|y l IH]; [done|]. cbn [fmap list_fmap]. rewrite !filter_cons, IH.
      destruct (Z.eqb_spec y x) as [->|].
      * rewrite decide_False by tauto. rewrite decide_False by set_solver. done.
      * by rewrite (decide_ext (y ≠ 0 ∧ y ∉ list1) (y ≠ 0 ∧ y ∉ x :: list1)) by set_solver.
    + induction list2 as [|y l IH]; [done|]. cbn [fmap list_fmap]. rewrite !filter_cons.
      destruct (Z.eqb_spec y x) as [->|].
      * rewrite (decide_True (P := x = x)), (decide_True (P := x ∈ _)) by set_solver.
        rewrite decide_False by set_solver. cbn. lia.
      * rewrite (decide_False (P := y = x)) by done.
        destruct (decide (y ∈ list1)); [rewrite decide_True by set_solver; cbn; lia|].
        rewrite decide_False by set_solver. lia.
Qed.

(** ** Windows *)

(** The blocks that enter the history: each at its first visit, block 0 at every one. *)
Definition visit1 (h : list Z) (b : Z) : list Z :=
  if decide (b ≠ 0 ∧ b ∈ h) then h else h ++ [b].
Definition visit (h l : list Z) : list Z := foldl visit1 h l.
Definition first_visits (l : list Z) : list Z := visit [] l.

Lemma visit_grows h l : (length h <= length (visit h l))%nat.
Proof.
  revert h. induction l as [|b l IH]; intros h; cbn; [done|].
  specialize (IH (visit1 h b)). unfold visit, visit1 in *. case_decide; [done|].
  rewrite length_app in IH. lia.
Qed.

Lemma elem_of_visit h l x : x ∈ visit h l ↔ x ∈ h ∨ x ∈ l.
Proof.
  unfold visit. revert h. induction l as [|b l IH]; intros h; cbn; [set_solver|].
  rewrite IH. unfold visit1. case_decide; set_solver.
Qed.

Lemma visit_NoDup h l :
  NoDup (filter (λ x, x ≠ 0) h) → NoDup (filter (λ x, x ≠ 0) (visit h l)).
Proof.
  unfold visit. revert h. induction l as [|b l IH]; intros h Hh; cbn [foldl]; [done|].
  apply IH. unfold visit1. case_decide as Hc; [done|].
  rewrite filter_app, filter_cons, filter_nil. case_decide; [|by rewrite app_nil_r].
  apply NoDup_app. split_and!; [done| |apply NoDup_singleton].
  intros x [_ Hx]%list_elem_of_filter ->%list_elem_of_singleton. tauto.
Qed.

(** A trace between windows. *)
Record trace_wf (s : bbt) : Prop := {
  wf_num : 0 <= trace_num_bbs s < EDFI_BB_TRACING_HASHLIST_SIZE;
  wf_history : history s = [];
  wf_hash : ∀ i, 0 <= i < trace_num_bbs s → hashlist s i = 0;
  wf_sorted : ∀ i, StronglySorted Z.le (bbs s i) ∧ NoDup (bbs s i);
  wf_ids : ∀ i, Forall (λ x, 0 < x < trace_num_bbs s) (bbs s i);
}.

(** A trace within a window. *)
Definition tracing (s0 : bbt) (h : list Z) (s : bbt) : Prop :=
  history s = h ∧ (∀ i, 0 <= i < trace_num_bbs s0 → hashlist s i = if decide (i ∈ h) then i else 0) ∧
  bbs s = bbs s0 ∧ trace_num_bbs s = trace_num_bbs s0 ∧ trace_site s = trace_site s0 ∧
  disable_tracing s = 0.

Lemma trace_bb_run s0 h s b :
  tracing s0 h s → 0 <= b < trace_num_bbs s0 →
  zlen (visit1 h b) < EDFI_BB_TRACING_HISTORY_SIZE →
  ∃ s', edfi_trace_bb b s = Ok () s' ∧
    tracing s0 (visit1 h b) s'.
Proof.
  intros (Hh & Hl & Hb & Hn & Hs & Hd) Hr Hlen. unfold edfi_trace_bb.
  rewrite bind_gets, Hd. change (truthy 0) with false. cbn iota.
  rewrite bind_gets, Hn, bind_assert by (apply Z.ltb_lt; lia).
  rewrite bind_gets, (Hl b Hr).
  set (p := if 0 =? _ then _ else _).
  assert (∃ s1, p s = Ok () s1 ∧
    tracing s0 (visit1 h b) s1) as (s1 & Hp & Ht).
  { subst p. revert Hlen. unfold visit1. case_decide as Hc; intros Hlen.
    - rewrite decide_True by tauto. rewrite (proj2 (Z.eqb_neq 0 b)) by lia. by exists s.
    - assert ((if decide (b ∈ h) then b else 0) = 0) as ->
        by (destruct (decide (b ∈ h)), (decide (b = 0)); tauto).
      rewrite (Z.eqb_refl 0), !bind_modify, bind_gets.
      cbn [history set_history set_hashlist]. rewrite Hh.
      rewrite (proj2 (Z.ltb_lt _ _) Hlen).
      eexists. split; [reflexivity|]. unfold tracing. cbn. split_and!; try done.
      intros i Hi. unfold upd. destruct (Z.eqb_spec i b) as [->|].
      + by rewrite decide_True by set_solver.
      + rewrite Hl by done. by rewrite (decide_ext (i ∈ h) (i ∈ h ++ [b])) by set_solver. }
  rewrite (bind_Ok _ _ _ _ _ Hp), bind_gets.
  destruct (truthy (is_startup s1)); eexists; (split; [reflexivity|]); done.
Qed.

Lemma trace_bbs_run s0 l h s :
  tracing s0 h s → Forall (λ b, 0 <= b < trace_num_bbs s0) l →
  zlen (visit h l) < EDFI_BB_TRACING_HISTORY_SIZE →
  ∃ s', trace_bbs l s = Ok () s' ∧ tracing s0 (visit h l) s'.
Proof.
  revert h s. induction l as [|b l IH]; intros h s Ht Hl Hlen; [by exists s|].
  inversion_clear Hl as [|?? Hb Hl'].
  change (visit h (b :: l)) with (visit (visit1 h b) l) in *. cbn [trace_bbs].
  pose proof (visit_grows (visit1 h b) l).
  destruct (trace_bb_run s0 h s b Ht Hb ltac:(lia)) as (s1 & H1 & Ht1).
  rewrite (bind_Ok _ _ _ _ _ H1). by apply IH.
Qed.

Lemma merge_run n l1 l2 maxsize (s : bbt) :
  n < 2147483648 → maxsize < 2147483648 →
  NoDup l1 → Forall (λ x, 0 < x < n) l1 → Forall (λ x, 0 <= x < n) l2 →
  NoDup (filter (λ x, x ≠ 0) l2) →
  zlen l1 + zlen l2 <= maxsize →
  ∃ l, _merge l1 l2 maxsize s = Ok l s ∧ StronglySorted Z.le l ∧ NoDup l ∧
    Forall (λ x, 0 < x < n) l ∧ ∀ x, x ∈ l ↔ x ∈ l1 ∨ (x ≠ 0 ∧ x ∈ l2).
Proof.
  intros Hn Hm Hnd Hl1 Hl2 Hone Hlen. unfold _merge.
  destruct (mark_all l1 (qsort l2)) as [l3 d] eqn:E.
  assert (0 ∉ l1) as H0. { intros Hin. rewrite Forall_forall in Hl1. specialize (Hl1 _ Hin). lia. }
  destruct (mark_all_spec _ _ _ _ E Hnd H0) as (Hf & Hlen3 & Hd).
  assert (length (filter (λ x, x ∈ l1) (qsort l2)) <= length (qsort l2))%nat
    by apply length_filter.
  rewrite (Permutation_length (qsort_perm l2)) in *.
  rewrite bind_assert by (rewrite Hlen3, u32_small by lia; apply Z.leb_le; lia).
  eexists. split; [reflexivity|]. rewrite Hf.
  set (l := l1 ++ filter (λ x, x ≠ 0 ∧ x ∉ l1) (qsort l2)).
  assert (∀ x, x ∈ l ↔ x ∈ l1 ∨ (x ≠ 0 ∧ x ∈ l2)) as Hel.
  { intros x. unfold l. rewrite elem_of_app, list_elem_of_filter, qsort_perm.
    destruct (decide (x ∈ l1)); tauto. }
  assert (Forall (λ x, 0 < x < n) l) as Hids.
  { rewrite Forall_forall in *. intros x [Hx|[Hx Hx2]]%Hel; [by apply Hl1|].
    specialize (Hl2 x Hx2). lia. }
  split_and!.
  - apply qsort_sorted. eapply Forall_impl; [exact Hids|]. unfold small_id. intros; lia.
  - rewrite qsort_perm. unfold l. apply NoDup_app. split_and!; [done| |].
    + intros x Hx. rewrite list_elem_of_filter. tauto.
    + rewrite qsort_perm, (list_filter_iff _ (λ x, x ∉ l1 ∧ x ≠ 0)) by tauto.
      rewrite <- list_filter_filter. by apply NoDup_filter.
  - by rewrite qsort_perm.
  - intros x. by rewrite qsort_perm.
Qed.

Lemma flush_run s0 h s :
  tracing s0 h s → trace_wf s0 → trace_site s0 ≠ 0 → Forall (λ x, 0 <= x < trace_num_bbs s0) h →
  NoDup (filter (λ x, x ≠ 0) h) →
  zlen (bbs s0 (trace_site s0)) + zlen h <= RCVRY_BBTRACING_MAXSIZE →
  ∃ s', rcvry_prof_bbtrace_flush s = Ok () s' ∧ trace_wf s' ∧
    (∀ x, x ∈ bbs s' (trace_site s0) ↔ x ∈ bbs s0 (trace_site s0) ∨ (x ≠ 0 ∧ x ∈ h)) ∧
    (∀ j, j ≠ trace_site s0 → bbs s' j = bbs s0 j).
Proof.
  intros (Hh & Hl & Hb & Hn & Hs & Hd) [Hnum _ _ Hsort Hids] Hne Hr Hnd Hlen.
  destruct (merge_run (trace_num_bbs s0) (bbs s0 (trace_site s0)) h RCVRY_BBTRACING_MAXSIZE s)
    as (l & Hm & Hls & Hlnd & Hlids & Hel);
    [unfold EDFI_BB_TRACING_HASHLIST_SIZE in *; lia|done|apply Hsort|apply Hids|done..|].
  unfold rcvry_prof_bbtrace_flush. rewrite bind_gets, Hd. change (negb (0 =? 0)) with false. cbn iota.
  rewrite bind_gets, Hs, (proj2 (Z.eqb_neq 0 _)) by done. cbn [negb].
  rewrite (bind_Ok _ _ s () (set_bbs (upd (bbs s) (trace_site s0) l) s))
    by (rewrite <- Hb, <- Hh in Hm; rewrite !bind_gets; by rewrite (bind_Ok _ _ _ _ _ Hm)).
  rewrite bind_modify, bind_gets. eexists. split; [reflexivity|]. cbn. rewrite Hn, Hb.
  split_and!.
  - split; cbn; rewrite ?Hn; [done|done| | |].
    + intros i Hi. by rewrite (proj2 (Z.leb_le 0 i)), (proj2 (Z.ltb_lt i _)) by lia.
    + intros i. unfold upd. destruct (i =? _); [done|apply Hsort].
    + intros i. unfold upd. destruct (i =? _); [done|apply Hids].
  - intros x. by rewrite upd_eq.
  - intros j Hj. by apply upd_ne.
Qed.

(** C33: The trace of a window is merged exactly: after a window of a site the profile of the
    site lists, sorted and without repetition, the blocks it had and the blocks the window
    executed other than block 0, the other sites are as before, and the tracer is ready for the
    next window, provided the blocks fit the site's array. *)
Theorem window_trace_exact (l : list Z) (s : bbt) :
  trace_wf s → disable_tracing s = 0 → trace_site s ≠ 0 →
  Forall (λ b, 0 <= b < trace_num_bbs s) l →
  zlen (bbs s (trace_site s)) + zlen (first_visits l) < RCVRY_BBTRACING_MAXSIZE →
  ∃ s', trace_window l s = Ok () s' ∧ trace_wf s' ∧
    (∀ x, x ∈ bbs s' (trace_site s) ↔ x ∈ bbs s (trace_site s) ∨ (x ≠ 0 ∧ x ∈ l)) ∧
    (∀ j, j ≠ trace_site s → bbs s' j = bbs s j).
Proof.
  intros Hwf Hd Hne Hl Hlen. pose proof Hwf as [Hnum Hh Hhash Hsort Hids].
  assert (tracing s [] s) as Ht.
  { unfold tracing. split_and!; done. }
  destruct (trace_bbs_run s l [] s Ht Hl) as (s1 & H1 & Ht1).
  { unfold first_visits, EDFI_BB_TRACING_HISTORY_SIZE, RCVRY_BBTRACING_MAXSIZE in *. lia. }
  destruct (flush_run s _ s1 Ht1 Hwf Hne) as (s2 & H2 & Hwf2 & Hel & Ho).
  - rewrite Forall_forall in *. intros x [Hx|Hx]%elem_of_visit; [set_solver|by apply Hl].
  - apply visit_NoDup, NoDup_nil_2.
  - unfold first_visits in Hlen. lia.
  - exists s2. unfold trace_window. rewrite (bind_Ok _ _ _ _ _ H1). split_and!; [done|done| |done].
    intros x. rewrite Hel, elem_of_visit. set_solver.
Qed.

(** The tracer after initialisation, in the window of site 3. *)
Definition demo_bbt : bbt := mk_bbt (λ _, 0) [] (λ _, 0) 1 0 100 3 (upd (λ _, []) 3 [7]).

Lemma window_trace_exact_witness :
  ∃ s', trace_window [9; 0; 5; 9; 7] demo_bbt = Ok () s' ∧ trace_wf s' ∧
    (∀ x, x ∈ bbs s' 3 ↔ x ∈ [7] ∨ (x ≠ 0 ∧ x ∈ [9; 0; 5; 9; 7])) ∧
    (∀ j, j ≠ 3 → bbs s' j = bbs demo_bbt j).
Proof.
  apply (window_trace_exact [9; 0; 5; 9; 7] demo_bbt); [|done..| |].
  - split; cbn; [unfold EDFI_BB_TRACING_HASHLIST_SIZE; lia|done|done| |];
      intros i; unfold upd; destruct (i =? 3); repeat constructor; set_solver || lia.
  - repeat constructor; cbn; lia.
  - vm_compute. done.
Defined.

(** ** What the dumps say *)

Section DumpProps.
Context (excl : bool).

(** The numbers listed for a site: its blocks without the excluded ones, where a list that
    ends in an excluded block repeats the last number before it (0 at the start). *)
Fixpoint dumped (startup : Z → Z) (prev : Z) (l : list Z) : list Z :=
  match l with
  | [] => []
  | b :: l' =>
      if excl && negb (startup b =? 0)
      then match l' with [] => [prev] | _ => dumped startup prev l' end
      else b :: dumped startup b l'
  end.

Lemma dumped_nonempty startup prev l : l ≠ [] → dumped startup prev l ≠ [].
Proof.
  revert prev. induction l as [|b l IH]; intros prev Hne; [done|]. cbn.
  destruct (excl && _); [|done]. destruct l; [done|]. by apply IH.
Qed.

Lemma dump_bbs_join startup prev l :
  dump_bbs excl startup prev l = join comma (dec <$> dumped startup prev l).
Proof.
  revert prev. induction l as [|b l IH]; intros prev; [done|].
  cbn [dump_bbs dumped]. rewrite !IH. destruct l as [|b' l'].
  - destruct (excl && _); cbn; by rewrite app_nil_r.
  - destruct (excl && _); [done|]. cbn [app fmap list_fmap].
    pose proof (dumped_nonempty startup b (b' :: l') ltac:(done)) as Hne.
    by destruct (dumped startup b (b' :: l')) as [|x ns].
Qed.

(** The list of blocks printed for a site can be read back: split at its commas, it gives
    decimal numbers; without exclusion they are the blocks of the site, and with it they are
    all blocks of the site, the ones outside the startup list among them, or 0. *)
Theorem dumped_blocks_readable (startup : Z → Z) (l : list Z) :
  l ≠ [] → Forall (λ b, 0 <= b < 4294967296) l →
  ∃ ns, strtoul <$> fields comma (Some (dump_bbs excl startup 0 l)) = ns ∧
    (excl = false → ns = l) ∧ (∀ x, x ∈ ns → x ∈ l ∨ x = 0) ∧
    (∀ x, x ∈ l → startup x = 0 → x ∈ ns).
Proof.
  intros Hne Hl. rewrite dump_bbs_join.
  assert (∀ prev x, x ∈ dumped startup prev l → x ∈ l ∨ x = prev) as Hin.
  { clear. induction l as [|b l IH]; intros prev x Hx; [by apply elem_of_nil in Hx|].
    cbn in Hx. destruct (excl && _).
    - destruct l as [|b' l]; [set_solver|]. destruct (IH prev x Hx); set_solver.
    - apply elem_of_cons in Hx as [->|Hx]; [set_solver|]. destruct (IH b x Hx); set_solver. }
  assert (∀ prev x, x ∈ l → startup x = 0 → x ∈ dumped startup prev l) as Hall.
  { clear. induction l as [|b l IH]; intros prev x Hx Hs; [set_solver|]. cbn.
    apply elem_of_cons in Hx as [->|Hx].
    - rewrite Hs, andb_false_r. set_solver.
    - specialize (IH (if excl && negb (startup b =? 0) then prev else b) x Hx Hs).
      revert IH. destruct (excl && _); intros IH; [|set_solver].
      destruct l; [by apply elem_of_nil in IH|done]. }
  rewrite fields_join.
  - eexists. split; [reflexivity|].
    assert (strtoul <$> (dec <$> dumped startup 0 l) = dumped startup 0 l) as ->.
    { rewrite <- list_fmap_compose. rewrite <- (list_fmap_id (dumped startup 0 l)) at 2.
      apply list_fmap_ext. intros i x Hx%list_elem_of_lookup_2. cbn.
      apply strtoul_dec. unfold ULONG_MAX. rewrite Forall_forall in Hl.
      destruct (Hin 0 x Hx) as [H|H]; [specialize (Hl x H)|]; lia. }
    split_and!; [|apply Hin|apply Hall].
    intros He. clear -He. generalize 0. induction l as [|b l IH]; intros p; [done|].
    cbn [dumped]. rewrite He. cbn. by rewrite IH.
  - intros E%fmap_nil_inv. by eapply dumped_nonempty.
  - apply Forall_fmap, Forall_true. intros x. apply dec_sep.
Qed.
End DumpProps.

Lemma dumped_blocks_readable_witness :
  ∃ ns, strtoul <$> fields comma (Some (dump_bbs false (λ _, 1) 0 [3; 14; 15])) = ns ∧
    (false = false → ns = [3; 14; 15]) ∧ (∀ x, x ∈ ns → x ∈ [3; 14; 15] ∨ x = 0) ∧
    (∀ x, x ∈ [3; 14; 15] → 1 = 0 → x ∈ ns).
Proof.
  apply (dumped_blocks_readable false (λ _, 1) [3; 14; 15]); [done|].
  repeat constructor; lia.
Defined.

Lemma skip_spaces_pad k s : skip_spaces (replicate k " "%char ++ s) = skip_spaces s.
Proof. by induction k. Qed.

Lemma strtoul_pad w n : 0 <= n <= ULONG_MAX → strtoul (pad w n) = n.
Proof.
  intros Hn. rewrite <- (strtoul_dec n Hn) at 2. unfold strtoul, scan_number, pad.
  by rewrite skip_spaces_pad.
Qed.

Lemma pad_sep w n : comma ∉ pad w n.
Proof.
  unfold pad. rewrite elem_of_app, elem_of_replicate. intros [[H _]|H]; [done|].
  by apply (dec_sep n).
Qed.

(** A row of the profile dump reads back: split at its commas it gives the number of the
    site and its ten counters, in the order of the header, whatever padding they need. *)
Theorem prof_row_readable (r : rcvry) (i : Z) :
  0 <= i < RCVRY_MAX_LIBCALL_SITES → (∀ c, 0 <= rcvry_prof (info r i) c < 4294967296) →
  strtoul <$> fields comma (Some (prof_row r i)) = i :: (rcvry_prof (info r i) <$> prof_columns).
Proof.
  unfold RCVRY_MAX_LIBCALL_SITES. intros Hi Hc. unfold prof_row. rewrite fields_join; [|done|].
  - cbn [fmap list_fmap prof_columns]. rewrite !strtoul_pad; [done|unfold ULONG_MAX..].
    all: first [lia|match goal with |- context [rcvry_prof _ ?c] => specialize (Hc c); lia end].
  - constructor; [apply pad_sep|]. apply Forall_fmap, Forall_true. intros x. apply pad_sep.
Qed.

Lemma prof_row_readable_witness :
  let r := @rcvry_globals config_profiling in
  strtoul <$> fields comma (Some (prof_row r 7)) = 7 :: (rcvry_prof (info r 7) <$> prof_columns).
Proof. by apply (prof_row_readable (@rcvry_globals config_profiling) 7). Defined.
