(* ===== verification/Lifecycle.v ===== *)
(** * Signals, suicide triggers and the end of the process

    [ltckpt_signal.c], the signals an operator sends to dump and reset the profiles or to arm
    the suicide triggers; [ltckpt_fi.c], the triggers; [ltckpt_overrides.c] and the functions of
    [ltckpt_ctx.c] that call the hooks of a mechanism, the way out of the process.

    [X] is the state of the mechanism and the system beside the library's. *)
From stdpp Require Import base numbers list strings.
From Stdlib Require Import ZArith Lia.
From S2P Require Import Prelude Memory CString Ctx Profiling Writelog Common Rcvry BbTrace.

(** What is written to the log and the dump files. *)
Inductive dump :=
  | WindowsDump (w : Z → ltckpt_window)  (** [ltckpt_windows_dump] *)
  | ProfDump (rows : list cstr)  (** [rcvry_prof_dump] *)
  | TraceDump (files : option (cstr * cstr))  (** [rcvry_prof_bbtrace_dump] *)
  | ContextDump (c : ltckpt_ctx).  (** [ltckpt_ctx_print_default] *)

(** The globals of the two libraries, and what has been written, latest first. *)
Record lc := mk_lc {
  lc_ckpt : ckpt;
  lc_rcvry : rcvry;
  lc_bbt : bbt;
  ltckpt_suicide_enabled : Z;
  ltckpt_suicide_board : Z → Z;
  ltckpt_suicide_last_site_id : Z;
  ltckpt_tsx_disabled : Z;
  lc_dumps : list dump;
}.

Definition set_lc_ckpt (v : ckpt) (s : lc) : lc :=
  mk_lc v (lc_rcvry s) (lc_bbt s) (ltckpt_suicide_enabled s) (ltckpt_suicide_board s)
    (ltckpt_suicide_last_site_id s) (ltckpt_tsx_disabled s) (lc_dumps s).
Definition set_lc_rcvry (v : rcvry) (s : lc) : lc :=
  mk_lc (lc_ckpt s) v (lc_bbt s) (ltckpt_suicide_enabled s) (ltckpt_suicide_board s)
    (ltckpt_suicide_last_site_id s) (ltckpt_tsx_disabled s) (lc_dumps s).
Definition set_lc_bbt (v : bbt) (s : lc) : lc :=
  mk_lc (lc_ckpt s) (lc_rcvry s) v (ltckpt_suicide_enabled s) (ltckpt_suicide_board s)
    (ltckpt_suicide_last_site_id s) (ltckpt_tsx_disabled s) (lc_dumps s).
Definition set_suicide_enabled (v : Z) (s : lc) : lc :=
  mk_lc (lc_ckpt s) (lc_rcvry s) (lc_bbt s) v (ltckpt_suicide_board s)
    (ltckpt_suicide_last_site_id s) (ltckpt_tsx_disabled s) (lc_dumps s).
Definition set_suicide_board (v : Z → Z) (s : lc) : lc :=
  mk_lc (lc_ckpt s) (lc_rcvry s) (lc_bbt s) (ltckpt_suicide_enabled s) v
    (ltckpt_suicide_last_site_id s) (ltckpt_tsx_disabled s) (lc_dumps s).
Definition set_tsx_disabled (v : Z) (s : lc) : lc :=
  mk_lc (lc_ckpt s) (lc_rcvry s) (lc_bbt s) (ltckpt_suicide_enabled s) (ltckpt_suicide_board s)
    (ltckpt_suicide_last_site_id s) v (lc_dumps s).
Definition add_dump (d : dump) (s : lc) : lc :=
  mk_lc (lc_ckpt s) (lc_rcvry s) (lc_bbt s) (ltckpt_suicide_enabled s) (ltckpt_suicide_board s)
    (ltckpt_suicide_last_site_id s) (ltckpt_tsx_disabled s) (d :: lc_dumps s).

Definition lc_ctx (s : lc) : ltckpt_ctx := cctx (lc_ckpt s).
Definition set_lc_ctx (c : ltckpt_ctx) (s : lc) : lc := set_lc_ckpt (set_cctx c (lc_ckpt s)) s.

(** ** Suicide triggers *)

Definition LTCKPT_MAX_SUICIDE_SITES : Z := 4096.

(** [ltckpt_fi_suicide]: an access through NULL. *)
Definition ltckpt_fi_suicide : prog lc () := halt Sigsegv.

(** [ltckpt_fi_suicide_per_site]. *)
Definition ltckpt_fi_suicide_per_site (site_id only_once : Z) : prog lc Z :=
  e ← gets ltckpt_suicide_enabled;
  if negb (truthy e) then mret 0 else
  assert (negb (0 =? site_id)) ;;
  last ← gets ltckpt_suicide_last_site_id;
  assert (site_id <=? last) ;;
  if LTCKPT_MAX_SUICIDE_SITES <=? site_id then halt Undefined else
  b ← gets (λ s, ltckpt_suicide_board s site_id);
  if truthy b then
    when (truthy only_once) (modify (λ s, set_suicide_board (upd (ltckpt_suicide_board s) site_id 0) s)) ;;
    ltckpt_fi_suicide ;;
    mret (-1)
  else mret 0.

(** ** The signal handler *)

Definition SIGSTKFLT : Z := 16.
Definition SIGTSTP : Z := 20.
Definition SIGTTIN : Z := 21.
Definition SIGTTOU : Z := 22.
Definition SIGURG : Z := 23.
Definition SIGPROF : Z := 27.
Definition SIGWINCH : Z := 28.

Section Signals.
Context `{Config}.
(** The options [LTCKPT_NOP_UNTIL_SIGNALLED], [RCVRY_WINDOW_PROFILING_BBTRACING] and
    [LTCKPT_NO_WINCH]. *)
Context (nop_until_signalled bbtracing no_winch : bool).
(** The environment, and whether trace dumps leave out the blocks of the startup. *)
Context (getenv : string → option cstr) (exclude_startup : bool).

(** [SIGPROF], [SIGTTIN], [SIGTSTP]: dump the profiles, or toggle the triggers. *)
Definition dump_profiles : prog lc () :=
  when nop_until_signalled (modify (set_tsx_disabled 0)) ;;
  when LTCKPT_WINDOW_PROFILING (modify (λ s, add_dump (WindowsDump (windows (lc_ckpt s))) s)) ;;
  when RCVRY_WINDOW_PROFILING (modify (λ s, add_dump (ProfDump (rcvry_prof_dump (lc_rcvry s))) s)) ;;
  when bbtracing (modify (λ s, add_dump (TraceDump (rcvry_prof_bbtrace_dump exclude_startup getenv (lc_rcvry s) (lc_bbt s))) s)) ;;
  when (negb LTCKPT_WINDOW_PROFILING && negb RCVRY_WINDOW_PROFILING)
    (modify (λ s, set_suicide_enabled (if truthy (ltckpt_suicide_enabled s) then 0 else 1) s)).

(** [memset] of [ltckpt_windows], and of the counters of every site. *)
Definition zero_windows (s : ckpt) : ckpt :=
  set_windows (λ i, if (0 <=? i) && (i <? LTCKPT_MAX_PROFILING_WINDOWS) then window0 else windows s i) s.
Definition zero_profs (r : rcvry) : rcvry :=
  set_info (λ i, if (0 <=? i) && (i <? RCVRY_MAX_LIBCALL_SITES)
                 then set_rcvry_prof (λ _, 0) (info r i) else info r i) r.

(** [SIGWINCH], [SIGTTOU], [SIGURG]: reset the profiles. *)
Definition reset_profiles : prog lc () :=
  when LTCKPT_WINDOW_PROFILING (modify (λ s, set_lc_ckpt (zero_windows (lc_ckpt s)) s)) ;;
  when RCVRY_WINDOW_PROFILING
    (modify (λ s, set_lc_rcvry (zero_profs (lc_rcvry s)) s) ;;
     when bbtracing (modify (λ s, set_lc_bbt (set_is_startup (if truthy (is_startup (lc_bbt s)) then 0 else 1) (lc_bbt s)) s))).

Definition ltckpt_signal_action (signo : Z) : prog lc () :=
  if negb (signo =? SIGTTIN) && negb (signo =? SIGTTOU) && negb (signo =? SIGPROF) && negb (signo =? SIGWINCH)
     && negb (signo =? SIGTSTP) && negb (signo =? SIGSTKFLT) && negb (signo =? SIGURG) then skip
  else if (signo =? SIGPROF) || (signo =? SIGTTIN) || (signo =? SIGTSTP) then dump_profiles
  else if (signo =? SIGWINCH) || (signo =? SIGTTOU) || (signo =? SIGURG) then reset_profiles
  else skip.

(** [ltckpt_signal_register_handler], with [sigaction] as a parameter. *)
Definition registered_signals : list Z :=
  [SIGTTIN; SIGPROF] ++ (if no_winch then [] else [SIGWINCH]) ++ [SIGURG; SIGTTOU; SIGTSTP; SIGSTKFLT].

Fixpoint register_all {os} (sigaction : Z → os → Z * os) (l : list Z) : prog os () :=
  match l with
  | [] => skip
  | signo :: l' => λ o,
      let '(r, o) := sigaction signo o in
      if r <? 0 then Stop (Exit 1) o else register_all sigaction l' o
  end.

Definition ltckpt_signal_register_handler {os} (sigaction : Z → os → Z * os) : prog os () :=
  register_all sigaction registered_signals.

End Signals.

(** ** The end of the process *)

Section Exit.
Context {X : Type}.
(** The hooks of the mechanism; [None] where it has none. *)
Context (ctx_clear_hook ctx_print_hook : option (prog (lc * X) ())).
Context (before_exit_hook : option (Z → prog (lc * X) ())).

Local Abbreviation P := (prog (lc * X)).

Definition getl {A} (f : lc → A) : P A := gets (λ s, f s.1).
Definition putl (f : lc → lc) : P () := modify (λ s, (f s.1, s.2)).

Definition ltckpt_ctx_clear : P () :=
  match ctx_clear_hook with
  | Some hook => hook
  | None => putl (λ s, set_lc_ctx (ltckpt_ctx_clear_default (lc_ctx s)) s)
  end.

Definition ltckpt_ctx_print : P () :=
  match ctx_print_hook with
  | Some hook => hook
  | None => putl (λ s, add_dump (ContextDump (lc_ctx s)) s)
  end.

Definition ltckpt_before_exit (status : Z) : P () :=
  e ← getl (λ s, exited (lc_ctx s));
  if truthy e then skip else
  d ← getl (λ s, atexit_dump (lc_ctx s));
  when (truthy d) ltckpt_ctx_print ;;
  (match before_exit_hook with Some hook => hook status | None => skip end) ;;
  putl (λ s, set_lc_ctx (set_exited 1 (lc_ctx s)) s).

(** The wrapper of [exit]: the C library runs the handler registered with [atexit] and ends
    the process; those of [_exit] and [_Exit], which run no handler. *)
Definition exit_wrapper (status : Z) : P () :=
  ltckpt_before_exit status ;; ltckpt_before_exit 0 ;; halt (Exit status).
Definition _exit_wrapper (status : Z) : P () :=
  ltckpt_before_exit status ;; halt (Exit status).

End Exit.

(** ** Triggers fire once *)

(** A trigger in range of the table, when suicide is enabled. *)
Lemma suicide_run site_id once s :
  ltckpt_suicide_enabled s ≠ 0 → 0 < site_id <= ltckpt_suicide_last_site_id s →
  site_id < LTCKPT_MAX_SUICIDE_SITES →
  ltckpt_fi_suicide_per_site site_id once s =
  if truthy (ltckpt_suicide_board s site_id)
  then Stop Sigsegv (if truthy once then set_suicide_board (upd (ltckpt_suicide_board s) site_id 0) s else s)
  else Ok 0 s.
Proof.
  intros He Hs Hm. unfold ltckpt_fi_suicide_per_site. rewrite bind_gets, (proj2 (truthy_true _) He). cbn [negb].
  rewrite bind_assert by (rewrite (proj2 (Z.eqb_neq 0 site_id)) by lia; done). rewrite bind_gets.
  rewrite bind_assert by (apply Z.leb_le; lia).
  rewrite (proj2 (Z.leb_gt LTCKPT_MAX_SUICIDE_SITES site_id)) by lia.
  rewrite bind_gets. destruct (truthy (ltckpt_suicide_board s site_id)); [|done]. by destruct (truthy once).
Qed.

(** A trigger that is to fire once: armed, it ends the run and is disarmed, so that the same
    call, made again after recovery, goes on; the other sites are as before. *)
Theorem suicide_is_one_shot (site_id : Z) (s : lc) :
  ltckpt_suicide_enabled s ≠ 0 → 0 < site_id <= ltckpt_suicide_last_site_id s →
  site_id < LTCKPT_MAX_SUICIDE_SITES →
  let r := ltckpt_fi_suicide_per_site site_id 1 s in
  (r = if truthy (ltckpt_suicide_board s site_id)
       then Stop Sigsegv (set_suicide_board (upd (ltckpt_suicide_board s) site_id 0) s) else Ok 0 s) ∧
  ltckpt_fi_suicide_per_site site_id 1 (final r) = Ok 0 (final r).
Proof.
  intros He Hs Hm r. split; [by apply (suicide_run site_id 1)|]. unfold r.
  rewrite (suicide_run site_id 1 s) by done. change (truthy 1) with true.
  destruct (truthy (ltckpt_suicide_board s site_id)) eqn:Eb; cbn [final];
    rewrite (suicide_run site_id 1) by done; cbn [ltckpt_suicide_board set_suicide_board].
  - by rewrite upd_eq.
  - by rewrite Eb.
Qed.

(** ** Signals spare the recovery *)

(** The same but for the counters. *)
Definition same_recovery (r r' : rcvry) : Prop :=
  set_info (info r) r' = r ∧ ∀ i, set_rcvry_prof (rcvry_prof (info r i)) (info r' i) = info r i.

Lemma same_recovery_refl r : same_recovery r r.
Proof. split; [by destruct r|]. intros i. by destruct (info r i). Qed.

Lemma zero_profs_same r : same_recovery r (zero_profs r).
Proof.
  split; [by destruct r|]. intros i. unfold zero_profs. cbn. destruct (_ && _); by destruct (info r i).
Qed.

(** A signal in the middle of a window: the handler returns; memory, undo log and context are as
    they were, and so is the recovery library but for its counters, so that a rollback and a
    recovery go as they would without it. *)
Theorem signals_spare_recovery `{Config} (nop bbtracing exclude : bool) (getenv : string → option cstr)
    (signo : Z) (s : lc) :
  ∃ s', ltckpt_signal_action nop bbtracing getenv exclude signo s = Ok () s' ∧
    set_windows (windows (lc_ckpt s)) (lc_ckpt s') = lc_ckpt s ∧ same_recovery (lc_rcvry s) (lc_rcvry s').
Proof.
  assert (∀ t, set_windows (windows (lc_ckpt t)) (lc_ckpt t) = lc_ckpt t) as Hw by (intros t; by destruct (lc_ckpt t)).
  pose proof (same_recovery_refl (lc_rcvry s)) as Hr. pose proof (zero_profs_same (lc_rcvry s)) as Hz.
  unfold ltckpt_signal_action, dump_profiles, reset_profiles.
  destruct (_ && negb (signo =? SIGURG)); [by exists s|].
  destruct (_ || (signo =? SIGTSTP)).
  - destruct nop, LTCKPT_WINDOW_PROFILING, RCVRY_WINDOW_PROFILING, bbtracing;
      (eexists; split; [reflexivity|]; split; [exact (Hw s)|exact Hr]).
  - destruct (_ || (signo =? SIGURG)); [|by exists s].
    destruct LTCKPT_WINDOW_PROFILING, RCVRY_WINDOW_PROFILING, bbtracing;
      (eexists; split; [reflexivity|]; split; [first [exact (Hw s)|cbn; by destruct (lc_ckpt s)]|first [exact Hr|exact Hz]]).
Qed.

(** ** The hook runs once *)

Section ExitProps.
Context {X : Type} (ctx_print_hook : option (prog (lc * X) ())) (before_exit_hook : option (Z → prog (lc * X) ())).

(** What the way out does: the dump, if asked for, and the hook. *)
Definition last_actions (status : Z) : prog (lc * X) () :=
  d ← getl (λ s, atexit_dump (lc_ctx s));
  when (truthy d) (ltckpt_ctx_print ctx_print_hook) ;;
  match before_exit_hook with Some hook => hook status | None => skip end.

Lemma before_exit_first status s :
  exited (lc_ctx s.1) = 0 →
  ltckpt_before_exit ctx_print_hook before_exit_hook status s =
    (last_actions status ;; putl (λ s, set_lc_ctx (set_exited 1 (lc_ctx s)) s)) s.
Proof.
  intros E. unfold ltckpt_before_exit, last_actions, getl.
  rewrite bind_gets, (proj2 (truthy_false _) E), bind_gets, bind_assoc, bind_gets. by rewrite bind_assoc.
Qed.

Lemma before_exit_again status s :
  exited (lc_ctx s.1) ≠ 0 → ltckpt_before_exit ctx_print_hook before_exit_hook status s = Ok () s.
Proof. intros H. unfold ltckpt_before_exit, getl. by rewrite bind_gets, (proj2 (truthy_true _) H). Qed.

(** The hook of the mechanism runs exactly once on the way out of the process: [exit] runs
    the dump and the hook with its status and ends the process, although its wrapper and the
    handler of [atexit] both come by; if the hook itself stops the process, so it ends; and a
    process that has run it before only ends. *)
Theorem exit_runs_hook_once (status : Z) (s : lc * X) :
  exit_wrapper ctx_print_hook before_exit_hook status s =
    if truthy (exited (lc_ctx s.1)) then Stop (Exit status) s
    else match last_actions status s with
         | Ok _ s' => Stop (Exit status) (set_lc_ctx (set_exited 1 (lc_ctx s'.1)) s'.1, s'.2)
         | Stop why s' => Stop why s'
         end.
Proof.
  unfold exit_wrapper. destruct (truthy (exited (lc_ctx s.1))) eqn:E.
  - apply truthy_true in E. by rewrite !(bind_Ok _ _ _ _ _ (before_exit_again _ s E)).
  - apply truthy_false in E. pose proof (before_exit_first status s E) as Eb.
    destruct (last_actions status s) as [[] s'|why s'] eqn:El.
    + rewrite (bind_Ok _ _ _ _ _ El) in Eb. rewrite (bind_Ok _ _ _ _ _ Eb).
      erewrite bind_Ok; [reflexivity|]. by apply before_exit_again.
    + rewrite (bind_Stop _ _ _ _ _ El) in Eb. by rewrite (bind_Stop _ _ _ _ _ Eb).
Qed.

End ExitProps.
