(* ===== verification/Average.v ===== *)
(** * The average size of the undo log

    What the field [g_undolog_size_avg] of a window profile ([ltckpt_profiling.h]) is: at each
    top of the loop the size of the log of the last window is added to the profile of its site,
    with the number of windows of the site so far.  With exact numbers and no empty window that
    is the mean of the sizes ([exact_average_is_mean]); in [double] it is exact for windows of
    one size ([average_constant]).  A size that comes before the first window of a site, as after
    the profiles were reset in an open window, makes the average not a number for good
    ([reset_spoils_average]). *)
From stdpp Require Import base numbers list.
From Stdlib Require Import ZArith QArith Lia.
From S2P Require Import Prelude Double Memory Ctx Profiling Writelog Lifecycle.

Local Open Scope Z_scope.

(** The windows of a site: the top of the loop opens one, the next top of the loop adds the size
    of its log if it is not empty. *)
Definition window_events (sizes : list Z) : list prof_event :=
  sizes ≫= λ s, EvTol LTCKPT_TYPE_UNDOLOG :: (if 0 <? s then [EvUndologSize s] else []).

Definition site_profile (sizes : list Z) : ltckpt_window := prof_run (window_events sizes) window0.

(** ** Exact numbers *)

(** The update with rationals instead of [double]. *)
Definition exact_update (size num_hits : Z) (avg : Q) : Q := (avg + (inject_Z size - avg) / inject_Z num_hits)%Q.

(** The number of windows and the average. *)
Definition exact_step (st : Z * Q) (s : Z) : Z * Q :=
  let n := st.1 + 1 in (n, if 0 <? s then exact_update s n st.2 else st.2).
Definition exact_average (sizes : list Z) : Z * Q := foldl exact_step (0, 0%Q) sizes.

Definition total (sizes : list Z) : Z := foldr Z.add 0 sizes.

Lemma total_snoc sizes s : total (sizes ++ [s]) = total sizes + s.
Proof. induction sizes as [|x l IH]; cbn; [lia|]. unfold total in *. lia. Qed.

Lemma exact_average_snoc sizes s : exact_average (sizes ++ [s]) = exact_step (exact_average sizes) s.
Proof. unfold exact_average. by rewrite foldl_app. Qed.

Lemma exact_count sizes : (exact_average sizes).1 = zlen sizes.
Proof.
  induction sizes as [|s l IH] using rev_ind; [done|]. rewrite exact_average_snoc, length_app. cbn. rewrite IH. lia.
Qed.

(** When no window leaves its log empty the average is the mean of the sizes. *)
Lemma exact_average_is_mean sizes :
  Forall (λ s, 0 < s) sizes → ((exact_average sizes).2 * inject_Z (zlen sizes) == inject_Z (total sizes))%Q.
Proof.
  induction sizes as [|s l IH] using rev_ind; intros Hs; [reflexivity|].
  apply Forall_app in Hs as [Hl Hs]. apply Forall_cons in Hs as [Hs _]. specialize (IH Hl).
  rewrite exact_average_snoc, total_snoc, length_app. unfold exact_step, exact_update. cbn [snd length].
  rewrite exact_count, (proj2 (Z.ltb_lt 0 s)) by exact Hs. rewrite Nat2Z.inj_add. change (Z.of_nat 1) with 1.
  rewrite !inject_Z_plus, <- IH. set (n := inject_Z (zlen l)). change (inject_Z 1) with 1%Q.
  assert (~ n + 1 == 0)%Q. { subst n. unfold inject_Z, Qeq. cbn. lia. }
  field. done.
Qed.

(** An empty window counts in the number of windows but not in the sizes: the average is then
    neither the mean of the windows nor that of those that are not empty. *)
Lemma empty_windows_skew :
  ((exact_average [6; 0; 12]%Z).2 == 8)%Q ∧ total [6; 0; 12] = 6 * 3 ∧ total [6; 12] = 9 * 2.
Proof. split; [reflexivity|done]. Qed.

(** ** Double precision *)

Lemma avg_update_first s : 0 < s < 2 ^ 53 → avg_update s 1 double0 = double_of_Z s.
Proof.
  intros Hs. unfold avg_update. pose proof (double_of_Z_normal s Hs) as Hn.
  by rewrite dsub_zero_r, ddiv_one, dadd_zero_l.
Qed.

Lemma avg_update_same s n : 0 < s < 2 ^ 53 → 0 < n < 2 ^ 53 → avg_update s n (double_of_Z s) = double_of_Z s.
Proof.
  intros Hs Hn. unfold avg_update. pose proof (double_of_Z_normal s Hs) as Hd.
  rewrite dsub_diag by done. unfold double0. rewrite ddiv_zero_l by done. by apply dadd_zero_r.
Qed.

Lemma site_profile_snoc sizes s :
  site_profile (sizes ++ [s]) =
  let w := PROFILE_TOL LTCKPT_TYPE_UNDOLOG (site_profile sizes) in
  if 0 <? s then PROFILE_UNDOLOG_SIZE s w else w.
Proof.
  unfold site_profile, window_events. rewrite bind_app. unfold prof_run. rewrite foldl_app. cbn.
  by destruct (0 <? s).
Qed.

Lemma undolog_size_avg s w :
  g_undolog_size_avg (PROFILE_UNDOLOG_SIZE s w) = avg_update s (g_num_hits w) (g_undolog_size_avg w) ∧
  g_num_hits (PROFILE_UNDOLOG_SIZE s w) = g_num_hits w.
Proof. unfold PROFILE_UNDOLOG_SIZE. by destruct (_ <? s). Qed.

(** Windows that all leave a log of one size have that average, exactly. *)
Lemma average_constant n s :
  0 < s < 2 ^ 53 → Z.of_nat (S n) < 2 ^ 53 →
  g_undolog_size_avg (site_profile (replicate (S n) s)) = double_of_Z s ∧
  g_num_hits (site_profile (replicate (S n) s)) = Z.of_nat (S n).
Proof.
  intros Hs. induction n as [|n IH]; intros Hn.
  - change (replicate 1 s) with ([] ++ [s]). rewrite site_profile_snoc. cbv zeta.
    rewrite (proj2 (Z.ltb_lt 0 s)) by lia. destruct (undolog_size_avg s (PROFILE_TOL LTCKPT_TYPE_UNDOLOG (site_profile []))) as [-> ->].
    split; [by apply avg_update_first|done].
  - destruct IH as [Ea Eh]; [lia|]. change (replicate (S (S n)) s) with (s :: replicate (S n) s).
    rewrite replicate_cons_app, site_profile_snoc. cbv zeta. rewrite (proj2 (Z.ltb_lt 0 s)) by lia.
    destruct (undolog_size_avg s (PROFILE_TOL LTCKPT_TYPE_UNDOLOG (site_profile (replicate (S n) s)))) as [-> ->].
    cbn [g_num_hits g_undolog_size_avg PROFILE_TOL set_w_type set_g_num_hits set_c_num_stores set_c_memcpy_size set_c_num_retries].
    rewrite Ea, Eh. rewrite u64_small by (change (2 ^ 53) with 9007199254740992 in Hn; lia).
    split; [apply avg_update_same; lia|lia].
Qed.

(** Not a number stays so. *)
Lemma average_nan es w :
  g_undolog_size_avg w = SpecFloat.S754_nan → g_undolog_size_avg (prof_run es w) = SpecFloat.S754_nan.
Proof.
  revert w. induction es as [|e es IH]; intros w Hw; [done|]. cbn. apply IH.
  destruct e; cbn; try done.
  - unfold PROFILE_STORE. by destruct (_ <? _).
  - unfold PROFILE_MEMCPY. by destruct (_ <? _).
  - rewrite (proj1 (undolog_size_avg _ _)), Hw. done.
  - unfold PROFILE_TSX_BEGIN. by destruct (_ <? _).
Qed.

(** A size before the first window makes the average infinite, the next not a number. *)
Lemma early_size_spoils s1 s2 t es :
  0 < s1 < 2 ^ 53 → 0 < s2 < 2 ^ 53 →
  g_undolog_size_avg (prof_run [EvUndologSize s1] window0) = double_inf ∧
  g_undolog_size_avg (prof_run ([EvUndologSize s1; EvTol t; EvUndologSize s2] ++ es) window0) = SpecFloat.S754_nan.
Proof.
  intros H1 H2. assert (E1 : g_undolog_size_avg (PROFILE_UNDOLOG_SIZE s1 window0) = double_inf).
  { rewrite (proj1 (undolog_size_avg _ _)). unfold avg_update. pose proof (double_of_Z_normal s1 H1).
    cbn [g_undolog_size_avg window0 g_num_hits]. by rewrite dsub_zero_r, ddiv_by_zero. }
  split; [exact E1|]. unfold prof_run. rewrite foldl_app. apply average_nan. cbn [foldl prof_apply].
  rewrite (proj1 (undolog_size_avg _ _)). cbn [g_undolog_size_avg PROFILE_TOL set_w_type set_g_num_hits set_c_num_stores set_c_memcpy_size set_c_num_retries g_num_hits].
  rewrite E1, (proj2 (undolog_size_avg _ _)). cbn [g_num_hits window0]. unfold avg_update.
  destruct (double_of_Z_normal s2 H2) as (m & e & -> & _). reflexivity.
Qed.

(** The profiles are reset by a signal while a window of site [i] is open: the size of its log,
    added at the next top of the loop, makes the average of the site infinite, and it is not a
    number from the next window on, whatever follows. *)
Lemma reset_spoils_average (s : ckpt) i s1 s2 t es :
  0 <= i < LTCKPT_MAX_PROFILING_WINDOWS → 0 < s1 < 2 ^ 53 → 0 < s2 < 2 ^ 53 →
  let s' := profile_window (PROFILE_UNDOLOG_SIZE s1) i (zero_windows s) in
  g_undolog_size_avg (windows s' i) = double_inf ∧
  g_undolog_size_avg (prof_run ([EvTol t; EvUndologSize s2] ++ es) (windows s' i)) = SpecFloat.S754_nan.
Proof.
  intros Hi H1 H2. cbv zeta. assert (windows (profile_window (PROFILE_UNDOLOG_SIZE s1) i (zero_windows s)) i
    = prof_run [EvUndologSize s1] window0) as ->.
  { unfold profile_window, zero_windows. cbn [windows set_windows]. rewrite upd_eq. cbn [prof_run foldl prof_apply].
    by rewrite (proj2 (andb_true_iff _ _)) by (rewrite Z.leb_le, Z.ltb_lt; lia). }
  destruct (early_size_spoils s1 s2 t es H1 H2) as [E1 E2]. split; [done|]. rewrite <- E2.
  unfold prof_run. by rewrite !foldl_app.
Qed.
