(* ===== verification/Fork.v ===== *)
(** * Checkpointing by forking

    [ltckpt/mechanisms/ltckpt_fork.c]: a checkpoint is a child of the process that sleeps; the
    next checkpoint, and the end of the process, kill it and collect it.

    The calls on processes are the class [Processes], what they promise the class
    [ProcessLaws]. *)
From stdpp Require Import base numbers list sets.
From Stdlib Require Import ZArith Lia.
From S2P Require Import Prelude Memory Ctx Writelog Rcvry BbTrace Lifecycle.

Definition STACKSIZE : Z := 4 * 1024 * 1024.
Definition SIGKILL : Z := 9.

(** [clone] without [CLONE_VM] copies the memory of the process. *)
Class Processes (os : Type) := {
  sys_kill : Z → Z → os → Z * os;
  sys_waitpid : Z → os → Z * os;  (** with [__WCLONE] *)
  sys_clone : mem → os → Z * os;
  sys_malloc : Z → os → Z * os;
}.

(** The globals of the mechanism, beside those of the library. *)
Record forked (os : Type) := mk_forked {
  fk_pid : Z;
  ltckpt_fork_child_stack : Z;
  fk_os : os;
}.
#[global] Arguments mk_forked {os}.
#[global] Arguments fk_pid {os}.
#[global] Arguments ltckpt_fork_child_stack {os}.
#[global] Arguments fk_os {os}.

Section Fork.
Context {os : Type} `{processes : Processes os}.

Local Abbreviation P := (prog (lc * forked os)).

Definition getf {A} (f : forked os → A) : P A := gets (λ s, f s.2).
Definition set_pid (v : Z) : P () :=
  modify (λ s, (s.1, mk_forked v (ltckpt_fork_child_stack s.2) (fk_os s.2))).
Definition set_stack (v : Z) : P () := modify (λ s, (s.1, mk_forked (fk_pid s.2) v (fk_os s.2))).
Definition sysf {A} (f : os → A * os) : P A := λ s,
  let '(a, o) := f (fk_os s.2) in Ok a (s.1, mk_forked (fk_pid s.2) (ltckpt_fork_child_stack s.2) o).

(** [ltckpt_fork]; the child pauses. *)
Definition ltckpt_fork : P Z := λ s, sysf (sys_clone (cmem (lc_ckpt s.1))) s.

(** The top-of-the-loop hook. *)
Definition fork_top_of_the_loop : P () := λ s,
  let '(go, c) := CTX_NEW_TOL_OR_RETURN (lc_ctx s.1) in
  (putl (set_lc_ctx c) ;;
   if negb go then skip else
   pid ← getf fk_pid;
   (if truthy pid then
      ret ← sysf (sys_kill pid SIGKILL);
      if negb (ret =? 0) then halt Panic else
      sysf (sys_waitpid pid) ;; skip
    else
      stack ← sysf (sys_malloc STACKSIZE);
      set_stack stack ;;
      if stack =? 0 then halt Panic else skip) ;;
   pid ← ltckpt_fork;
   set_pid pid ;;
   if pid <=? 0 then halt Panic else
   putl (λ l, set_lc_ctx (CTX_NEW_CHECKPOINT (lc_ctx l)) l)) s.

Definition fork_before_exit_hook (status : Z) : P () :=
  pid ← getf fk_pid;
  when (truthy pid) (sysf (sys_kill pid SIGKILL) ;; sysf (sys_waitpid pid) ;; skip).

(** The program between two tops of the loop: [fork] hooks no stores. *)
Definition app_writes (l : list (Z * list Z)) : P () :=
  modify (λ s, (set_lc_ckpt (set_cmem (foldl (λ m ab, store_bytes m ab.1 ab.2) (cmem (lc_ckpt s.1)) l)
                               (lc_ckpt s.1)) s.1, s.2)).

Fixpoint fork_windows (ws : list (list (Z * list Z))) : P () :=
  match ws with
  | [] => skip
  | l :: ws' => app_writes l ;; fork_top_of_the_loop ;; fork_windows ws'
  end.

(** The process exits with this mechanism. *)
Definition fork_exit (status : Z) : P () := exit_wrapper None (Some fork_before_exit_hook) status.

End Fork.

(** ** One child, the last checkpoint *)

(** [children o] are the children that have not been collected, with their memory, and [killed o]
    those a deadly signal was sent to.  While memory and process numbers last, [malloc] succeeds and
    [clone] makes a new child, which has not been killed; a child can be killed; a wait for a child
    that was killed, if no signal interrupts it, collects it.  Nothing is said of a wait for
    another child. *)
Class ProcessLaws (os : Type) `{processes : Processes os} (children : os → list (Z * mem))
    (killed : os → list Z) := {
  pl_clone m o : let '(pid, o') := sys_clone m o in
    0 < pid ∧ pid ∉ (children o).*1 ∧ children o' = (pid, m) :: children o ∧ pid ∉ killed o';
  pl_kill pid o : pid ∈ (children o).*1 →
    let '(r, o') := sys_kill pid SIGKILL o in
    r = 0 ∧ children o' = children o ∧ killed o' = pid :: killed o;
  pl_waitpid pid o : pid ∈ (children o).*1 → pid ∈ killed o →
    let '(r, o') := sys_waitpid pid o in
    r = pid ∧ children o' = filter (λ c, c.1 ≠ pid) (children o);
  pl_malloc n o : let '(p, o') := sys_malloc n o in p ≠ 0 ∧ children o' = children o;
}.

Section ForkProps.
Context {os : Type} `{processes : Processes os} (children : os → list (Z * mem)) (killed : os → list Z)
  `{laws : !ProcessLaws os children killed}.

(** The memory at the last checkpoint, [last] before the windows. *)
Fixpoint last_checkpoint (ws : list (list (Z * list Z))) (c : ltckpt_ctx) (m : mem) (last : option mem) : option mem :=
  match ws with
  | [] => last
  | l :: ws' =>
      let m := foldl (λ m ab, store_bytes m ab.1 ab.2) m l in
      let '(go, c) := CTX_NEW_TOL_OR_RETURN c in
      if go : bool then last_checkpoint ws' (CTX_NEW_CHECKPOINT c) m (Some m)
      else last_checkpoint ws' c m last
  end.

(** The child is the checkpoint. *)
Definition one_child (last : option mem) (f : forked os) : Prop :=
  match last with
  | None => fk_pid f = 0 ∧ children (fk_os f) = []
  | Some m => 0 < fk_pid f ∧ children (fk_os f) = [(fk_pid f, m)]
  end.

Lemma bind_sysf {A B} (g : os → A * os) (k : A → prog (lc * forked os) B) s a o :
  g (fk_os s.2) = (a, o) →
  (sysf g ≫= k) s = k a (s.1, mk_forked (fk_pid s.2) (ltckpt_fork_child_stack s.2) o).
Proof. intros E. unfold mbind, prog_bind, sysf. by rewrite E. Qed.

(** Killing and collecting the child. *)
Lemma kill_child m (f : forked os) :
  one_child (Some m) f →
  ∃ o1 o2 r, sys_kill (fk_pid f) SIGKILL (fk_os f) = (0, o1) ∧ sys_waitpid (fk_pid f) o1 = (r, o2) ∧ children o2 = [].
Proof.
  intros [Hp Hc]. pose proof (pl_kill (fk_pid f) (fk_os f)) as Hk. rewrite Hc in Hk.
  destruct (sys_kill (fk_pid f) SIGKILL (fk_os f)) as [r o1].
  destruct Hk as (-> & Hk & Hd); [by apply list_elem_of_singleton|].
  pose proof (pl_waitpid (fk_pid f) o1) as Hw. rewrite Hk, Hd in Hw.
  destruct (sys_waitpid (fk_pid f) o1) as [r o2] eqn:Ew.
  destruct Hw as [_ Hw]; [by apply list_elem_of_singleton|left|].
  exists o1, o2, r. split; [done|]. split; [done|]. rewrite Hw.
  by rewrite filter_cons_False by (cbn; tauto).
Qed.

(** The hook when a checkpoint is due. *)
Lemma take_checkpoint last l f c :
  CTX_NEW_TOL_OR_RETURN (lc_ctx l) = (true, c) → one_child last f →
  ∃ f', fork_top_of_the_loop (l, f) = Ok () (set_lc_ctx (CTX_NEW_CHECKPOINT c) (set_lc_ctx c l), f') ∧
    one_child (Some (cmem (lc_ckpt l))) f'.
Proof.
  intros Ec Ho. unfold fork_top_of_the_loop. cbn [fst snd]. rewrite Ec.
  rewrite (bind_Ok (putl (set_lc_ctx c)) _ (l, f) () (set_lc_ctx c l, f) eq_refl). cbn [negb].
  rewrite (bind_Ok (getf fk_pid) _ (set_lc_ctx c l, f) (fk_pid f) (set_lc_ctx c l, f) eq_refl).
  assert (∃ st o, (if truthy (fk_pid f) then
      ret ← sysf (sys_kill (fk_pid f) SIGKILL);
      if negb (ret =? 0) then halt Panic else sysf (sys_waitpid (fk_pid f)) ;; skip
    else stack ← sysf (sys_malloc STACKSIZE); set_stack stack ;; if stack =? 0 then halt Panic else skip)
      (set_lc_ctx c l, f) = Ok () (set_lc_ctx c l, mk_forked (fk_pid f) st o) ∧ children o = []) as (st & o & E & Hc).
  { destruct last as [m|].
    - destruct (kill_child m f Ho) as (o1 & o2 & r & Ek & Ew & Hc).
      rewrite (proj2 (truthy_true (fk_pid f))) by (destruct Ho; lia).
      erewrite bind_sysf by exact Ek. cbn [Z.eqb negb]. erewrite bind_sysf by exact Ew. by eexists _, _.
    - destruct Ho as [Hp Hc]. rewrite (proj2 (truthy_false (fk_pid f)) Hp).
      pose proof (pl_malloc STACKSIZE (fk_os f)) as Hm. destruct (sys_malloc STACKSIZE (fk_os f)) as [p o] eqn:Em.
      destruct Hm as [Hne Hm]. erewrite bind_sysf by exact Em. unfold set_stack. rewrite bind_modify.
      rewrite (proj2 (Z.eqb_neq p 0) Hne). eexists p, o. split; [done|]. by rewrite Hm. }
  rewrite (bind_Ok _ _ _ _ _ E). pose proof (pl_clone (cmem (lc_ckpt l)) o) as Hcl.
  destruct (sys_clone (cmem (lc_ckpt l)) o) as [pid o'] eqn:Ecl. destruct Hcl as (Hpos & _ & Hch & _).
  assert (ltckpt_fork (set_lc_ctx c l, mk_forked (fk_pid f) st o)
    = Ok pid (set_lc_ctx c l, mk_forked (fk_pid f) st o')) as Ef.
  { unfold ltckpt_fork, sysf. cbn [fst snd fk_os]. change (cmem (lc_ckpt (set_lc_ctx c l))) with (cmem (lc_ckpt l)).
    by rewrite Ecl. }
  rewrite (bind_Ok _ _ _ _ _ Ef). unfold set_pid. rewrite bind_modify. rewrite (proj2 (Z.leb_gt pid 0) Hpos).
  eexists. split; [reflexivity|]. cbn. by rewrite Hch, Hc.
Qed.

(** The windows, one after the other. *)
Lemma windows_one_child ws : ∀ last l f,
  one_child last f →
  ∃ l' f', fork_windows ws (l, f) = Ok () (l', f') ∧
    one_child (last_checkpoint ws (lc_ctx l) (cmem (lc_ckpt l)) last) f' ∧
    exited (lc_ctx l') = exited (lc_ctx l).
Proof.
  induction ws as [|w ws IH]; intros last l f Ho; [by exists l, f|]. cbn [fork_windows last_checkpoint].
  unfold app_writes. rewrite bind_modify. cbn [fst snd].
  set (m := foldl _ _ w). set (l1 := set_lc_ckpt (set_cmem m (lc_ckpt l)) l).
  change (lc_ctx l) with (lc_ctx l1). destruct (CTX_NEW_TOL_OR_RETURN (lc_ctx l1)) as [go c] eqn:Ec.
  assert (exited c = exited (lc_ctx l1)) as Ex
    by (unfold CTX_NEW_TOL_OR_RETURN in Ec; destruct (tol_returns _); by injection Ec as _ <-).
  destruct go.
  - destruct (take_checkpoint last l1 f c Ec Ho) as (f1 & E & Ho1). rewrite (bind_Ok _ _ _ _ _ E).
    destruct (IH _ (set_lc_ctx (CTX_NEW_CHECKPOINT c) (set_lc_ctx c l1)) f1 Ho1) as (l' & f' & E' & Ho' & Ex').
    exists l', f'. split; [done|]. split; [exact Ho'|]. rewrite Ex'. exact Ex.
  - assert (fork_top_of_the_loop (l1, f) = Ok () (set_lc_ctx c l1, f)) as E
      by (unfold fork_top_of_the_loop; cbn [fst]; by rewrite Ec).
    rewrite (bind_Ok _ _ _ _ _ E). destruct (IH last (set_lc_ctx c l1) f Ho) as (l' & f' & E' & Ho' & Ex').
    exists l', f'. split; [done|]. split; [exact Ho'|]. rewrite Ex'. exact Ex.
Qed.

(** The hook at the end of the process. *)
Lemma hook_kills last status f :
  one_child last f →
  ∃ f2, children (fk_os f2) = [] ∧ ∀ l, fork_before_exit_hook status (l, f) = Ok () (l, f2).
Proof.
  intros Ho. unfold fork_before_exit_hook. destruct last as [m|].
  - destruct (kill_child m f Ho) as (o1 & o2 & r & Ek & Ew & Hc).
    exists (mk_forked (fk_pid f) (ltckpt_fork_child_stack f) o2). split; [done|]. intros l.
    unfold getf. rewrite bind_gets. cbn [snd]. rewrite (proj2 (truthy_true (fk_pid f))) by (destruct Ho; lia).
    cbn [when]. erewrite bind_sysf by exact Ek. by erewrite bind_sysf by exact Ew.
  - destruct Ho as [Hp Hc]. exists f. split; [done|]. intros l. unfold getf. rewrite bind_gets. cbn [snd].
    by rewrite (proj2 (truthy_false (fk_pid f)) Hp).
Qed.

(** C30: A process has one checkpoint at a time.  Assume what [ProcessLaws] states: allocating the
    stack and [clone] succeed, and a wait for a child that was killed is not interrupted and collects
    it.  Whatever the process writes between the tops of its loop: while there has been no
    checkpoint it has no child; after that it has exactly one, whose memory is the process's at the
    last checkpoint, the earlier ones having been killed and collected; and when the process exits
    no child is left. *)
Theorem fork_keeps_one_child (ws : list (list (Z * list Z))) (l : lc) (f : forked os) (status : Z) :
  fk_pid f = 0 → children (fk_os f) = [] → exited (lc_ctx l) = 0 →
  ∃ l' f', fork_windows ws (l, f) = Ok () (l', f') ∧
    children (fk_os f') = (match last_checkpoint ws (lc_ctx l) (cmem (lc_ckpt l)) None with
                           | None => [] | Some m => [(fk_pid f', m)] end) ∧
    ∃ l2 f2, fork_exit status (l', f') = Stop (Exit status) (l2, f2) ∧ children (fk_os f2) = [].
Proof.
  intros Hp Hc Hx. destruct (windows_one_child ws None l f) as (l' & f' & E & Ho & Ex); [done|].
  exists l', f'. split; [done|]. set (last := last_checkpoint _ _ _ _) in *.
  split; [by destruct last; destruct Ho|].
  destruct (hook_kills last status f' Ho) as (f2 & Hc2 & Eh).
  assert (∃ d, last_actions None (Some fork_before_exit_hook) status (l', f') = Ok () (d, f2)) as (d & El).
  { unfold last_actions, getl. rewrite bind_gets. cbn [fst]. destruct (truthy (atexit_dump (lc_ctx l'))); cbn [when].
    - unfold ltckpt_ctx_print, putl. rewrite bind_modify. cbn [fst snd]. rewrite Eh. by eexists.
    - eexists. apply Eh. }
  pose proof (before_exit_first None (Some fork_before_exit_hook) status (l', f')) as Eb.
  rewrite (bind_Ok _ _ _ _ _ El) in Eb. specialize (Eb ltac:(cbn; by rewrite Ex)).
  exists (set_lc_ctx (set_exited 1 (lc_ctx d)) d), f2. split; [|done].
  unfold fork_exit, exit_wrapper. rewrite (bind_Ok _ _ _ _ _ Eb). erewrite bind_Ok; [reflexivity|].
  by apply before_exit_again.
Qed.

End ForkProps.

(** ** An example *)

(** Processes as the list of the children and of those that were killed; a wait for a child that was
    not killed does not collect it. *)
Definition proctab : Type := list (Z * mem) * list Z.

#[local] Instance proctab_processes : Processes proctab := {
  sys_kill pid _ o := (0, (o.1, pid :: o.2));
  sys_waitpid pid o := if decide (pid ∈ o.2) then (pid, (filter (λ c, c.1 ≠ pid) o.1, filter (λ p, p ≠ pid) o.2)) else (-1, o);
  sys_clone m o := let pid := foldr Z.max 0 (o.1.*1 ++ o.2) + 1 in (pid, ((pid, m) :: o.1, o.2));
  sys_malloc _ o := (4096, o);
}.

Lemma foldr_max_ge (l : list Z) x : x ∈ l → x <= foldr Z.max 0 l.
Proof. induction 1 as [|? ? ? _ IH]; cbn; lia. Qed.

Lemma foldr_max_nonneg (l : list Z) : 0 <= foldr Z.max 0 l.
Proof. induction l; cbn; lia. Qed.

#[local] Instance proctab_laws : ProcessLaws proctab fst snd.
Proof.
  split; cbn; try done.
  - intros m o. pose proof (foldr_max_nonneg (o.1.*1 ++ o.2)).
    assert (∀ l, l ⊆ o.1.*1 ++ o.2 → foldr Z.max 0 (o.1.*1 ++ o.2) + 1 ∉ l) as Hn.
    { intros l Hl Hin%Hl%foldr_max_ge. lia. }
    split_and!; [lia|apply Hn; set_solver|done|apply Hn; set_solver].
  - intros pid o _ Hk. by rewrite decide_True.
Qed.

Definition demo_lc : lc :=
  mk_lc (set_cctx (set_checkpoint_interval 2 ctx0) (ckpt_globals (λ _, 0))) (@rcvry_globals config_profiling) demo_bbt 0 (λ _, 0) 0 0 [].

Definition three_windows : list (list (Z * list Z)) := [[(10, [1])]; [(10, [2])]; [(10, [3])]].

Lemma fork_keeps_one_child_witness :
  ∃ l' f', fork_windows three_windows (demo_lc, mk_forked 0 0 (([], []) : proctab)) = Ok () (l', f') ∧
    (fk_os f').1 = (match last_checkpoint three_windows (lc_ctx demo_lc) (cmem (lc_ckpt demo_lc)) None with
                | None => [] | Some m => [(fk_pid f', m)] end) ∧
    ∃ l2 f2, fork_exit 0 (l', f') = Stop (Exit 0) (l2, f2) ∧ (fk_os f2).1 = [].
Proof. by apply (fork_keeps_one_child (os := proctab) fst snd three_windows demo_lc (mk_forked 0 0 ([], [])) 0). Defined.
