(* ===== verification/BufRead.v ===== *)
(** * Buffered reading

    [include/common/util/bufread.h]: the reader of text files the library uses in place of
    [fgets].  A descriptor is the text left in its file together with what the next calls
    of [read] do: be interrupted, fail, or return part of what was asked for.

    The reader implements a stream of lines ([bufread_next_line]): whatever the lengths of
    the reads, each call appends the next line of the file to its destination and returns
    its length.  It does not terminate the line; what the destination held behind it stays
    there ([overwrite]). *)
From stdpp Require Import base numbers list strings.
From Stdlib Require Import ZArith Lia Ascii.
From S2P Require Import Prelude CString.

Definition NUL : ascii := ascii_of_N 0.
Definition LF : ascii := ascii_of_N 10.

(** ** The descriptor *)

(** What a call of [read] does: [EINTR], another error, or at most [S k] bytes. *)
Inductive read_event := RdEintr | RdFail | RdBytes (k : nat).

Record fdesc := mk_fdesc { fd_rest : cstr; fd_events : list read_event }.

Inductive read_result := ReadIntr | ReadErr | ReadBytes (bs : cstr).

(** [read] of [n] bytes; without a planned event it returns all that is there. *)
Definition read (n : nat) (f : fdesc) : read_result * fdesc :=
  match fd_events f with
  | [] => (ReadBytes (take n (fd_rest f)), mk_fdesc (drop n (fd_rest f)) [])
  | RdEintr :: ev => (ReadIntr, mk_fdesc (fd_rest f) ev)
  | RdFail :: ev => (ReadErr, mk_fdesc (fd_rest f) ev)
  | RdBytes k :: ev =>
      let m := Nat.min n (S k) in
      (ReadBytes (take m (fd_rest f)), mk_fdesc (drop m (fd_rest f)) ev)
  end.

(** ** The reader *)

(** [read_buffer_t]: the bytes from [start] to [end], which a terminator follows, and the
    offset of [ptr] from [start]. *)
Record read_buffer := mk_rb { rb_data : cstr; rb_ptr : nat }.

Definition rb_end (b : read_buffer) : nat := length (rb_data b).
Definition byte_at (b : read_buffer) (i : nat) : ascii := nth i (rb_data b) NUL.

(** The characters before the first line feed or terminator, [strchrnul] of a line feed. *)
Fixpoint line_span (s : cstr) : nat :=
  match s with
  | [] => O
  | c :: s' => if ascii_dec c LF then O else if ascii_dec c NUL then O else S (line_span s')
  end.

(** [strncpy]: at most [n] characters, padded with terminators. *)
Fixpoint strncpy (n : nat) (s : cstr) : cstr :=
  match n with
  | O => []
  | S n' =>
      match s with
      | [] => replicate n NUL
      | c :: s' => if ascii_dec c NUL then replicate n NUL else c :: strncpy n' s'
      end
  end.

(** Bytes [bs] written at offset [i] of an array. *)
Definition overwrite (i : nat) (bs dst : cstr) : cstr :=
  take i dst ++ bs ++ drop (i + length bs) dst.

(** The loop that fills the buffer: [None] when [fuel] is not enough, [inl] of the bytes
    read before the end of the file or of the buffer, [inr] of those read before an error. *)
Fixpoint fill (fuel to_read : nat) (acc : cstr) (f : fdesc) : option ((cstr + cstr) * fdesc) :=
  match fuel with
  | O => None
  | S fuel' =>
      if Nat.eqb to_read 0 then Some (inl acc, f)
      else match read to_read f with
           | (ReadIntr, f') => fill fuel' to_read acc f'
           | (ReadErr, f') => Some (inr acc, f')
           | (ReadBytes [], f') => Some (inl acc, f')
           | (ReadBytes bs, f') => fill fuel' (to_read - length bs) (acc ++ bs) f'
           end
  end.

(** The state of the loop of [bufread]. *)
Record bufread_st := mk_st { st_ret : nat; st_dst : cstr; st_buf : read_buffer; st_fd : fdesc }.

(** The part of the loop's body before the refill: the state, and whether it breaks. *)
Definition bufread_copy (dstsize : nat) (s : bufread_st) : bufread_st * bool :=
  let '(mk_st ret dst b f) := s in
  let ptr := rb_ptr b in
  if negb (Nat.eqb ptr (rb_end b)) && (if ascii_dec (byte_at b ptr) NUL then true else false)
  then (mk_st ret dst (mk_rb (rb_data b) (S ptr)) f, true)
  else if negb (Nat.eqb ptr (rb_end b)) then
    let p := (ptr + line_span (drop ptr (rb_data b)))%nat in
    let p := if ascii_dec (byte_at b p) LF then S p else p in
    let len := (p - ptr)%nat in
    let len := if Nat.leb (dstsize - 1) (ret + len) then (dstsize - ret - 1)%nat else len in
    let dst' := overwrite ret (strncpy len (drop ptr (rb_data b))) dst in
    let ret' := (ret + len)%nat in
    (mk_st ret' dst' (mk_rb (rb_data b) p) f,
     Nat.eqb ret' (dstsize - 1) || (if ascii_dec (byte_at b (p - 1)) LF then true else false))
  else (s, false).

Fixpoint bufread_loop (fuel dstsize : nat) (s : bufread_st) : option (Z * bufread_st) :=
  match fuel with
  | O => None
  | S fuel' =>
      let '(s1, brk) := bufread_copy dstsize s in
      if brk then Some (Z.of_nat (st_ret s1), s1)
      else if Nat.eqb (rb_ptr (st_buf s1)) (rb_end (st_buf s1)) then
        let size := rb_end (st_buf s1) in
        let filled bs := bs ++ replicate (size - length bs) NUL in
        match fill (S (S (length (fd_events (st_fd s1))))) size [] (st_fd s1) with
        | None => None
        | Some (inr bs, f') => Some (-1, mk_st (st_ret s1) (st_dst s1) (mk_rb (filled bs) size) f')
        | Some (inl bs, f') =>
            bufread_loop fuel' dstsize
              (mk_st (st_ret s1) (st_dst s1) (mk_rb (filled bs) 0) f')
        end
      else Some (Z.of_nat (st_ret s1), s1)
  end.

(** A call: the status, the destination, the buffer and the descriptor after it.  Each
    refill but the last consumes part of the file. *)
Definition bufread (dstsize : nat) (dst : cstr) (b : read_buffer) (f : fdesc)
    : option (Z * bufread_st) :=
  if Nat.leb (rb_ptr b) 0 || Nat.ltb (rb_end b) (rb_ptr b) then Some (-1, mk_st 0 dst b f)
  else bufread_loop (S (S (rb_end b + length (fd_rest f)))) dstsize (mk_st 0 dst b f).

(** ** The stream of lines *)

(** The first line of a text with its line feed, and the text behind it. *)
Fixpoint next_line (s : cstr) : cstr * cstr :=
  match s with
  | [] => ([], [])
  | c :: s' => if ascii_dec c LF then ([c], s') else let '(l, r) := next_line s' in (c :: l, r)
  end.

Definition no_nul (s : cstr) : Prop := Forall (λ c, c ≠ NUL) s.
Definition no_fail (ev : list read_event) : Prop := Forall (λ e, e ≠ RdFail) ev.

(** The buffer and the descriptor hold the text [s], in [live] and behind it: the buffer is
    filled up with terminators only at the end of the file. *)
Record rb_inv (b : read_buffer) (f : fdesc) (s : cstr) : Prop := {
  inv_size : (0 < rb_end b)%nat;
  inv_nul : no_nul s;
  inv_fail : no_fail (fd_events f);
  inv_ptr : (rb_ptr b <= rb_end b)%nat;
  inv_stream : ∃ live k, drop (rb_ptr b) (rb_data b) = live ++ replicate k NUL ∧
    s = live ++ fd_rest f ∧ ((0 < k)%nat → fd_rest f = []);
}.

Lemma fill_step fuel n acc f :
  fill (S fuel) n acc f =
  if Nat.eqb n 0 then Some (inl acc, f)
  else match read n f with
       | (ReadIntr, f') => fill fuel n acc f'
       | (ReadErr, f') => Some (inr acc, f')
       | (ReadBytes [], f') => Some (inl acc, f')
       | (ReadBytes bs, f') => fill fuel (n - length bs) (acc ++ bs) f'
       end.
Proof. done. Qed.

Lemma take_nil_inv {A} n (l : list A) : (0 < n)%nat → take n l = [] → l = [].
Proof. destruct n, l; cbn; [lia|lia|done|done]. Qed.

(** Nothing is left to read. *)
Lemma fill_eof fuel n acc ev :
  no_fail ev → (length ev < fuel)%nat →
  ∃ ev', fill fuel n acc (mk_fdesc [] ev) = Some (inl acc, mk_fdesc [] ev') ∧ no_fail ev'.
Proof.
  revert fuel. induction ev as [|e ev IH]; intros fuel Hev Hf; (destruct fuel as [|fuel]; [lia|]);
    rewrite fill_step; destruct (Nat.eqb n 0); try (eexists; by split).
  - unfold read. cbn. rewrite take_nil, drop_nil. eexists; by split.
  - apply Forall_cons in Hev as [He Hev]. destruct e; [|done|].
    + apply IH; [done|cbn in Hf; lia].
    + unfold read. cbn [fd_events fd_rest]. rewrite take_nil, drop_nil. eexists; by split.
Qed.

(** The bytes read do not depend on how [read] divides them. *)
Lemma fill_ok fuel n acc f :
  no_fail (fd_events f) → (S (length (fd_events f)) < fuel)%nat →
  ∃ ev', fill fuel n acc f
    = Some (inl (acc ++ take n (fd_rest f)), mk_fdesc (drop n (fd_rest f)) ev') ∧ no_fail ev'.
Proof.
  destruct f as [rest ev]. cbn [fd_events fd_rest]. revert fuel n acc rest.
  induction ev as [|e ev IH]; intros fuel n acc rest Hev Hf; (destruct fuel as [|fuel]; [lia|]);
    rewrite fill_step; destruct (Nat.eqb_spec n 0) as [->|Hn];
    try (rewrite take_0, drop_0, app_nil_r; eexists; by split).
  - unfold read. cbn [fd_events fd_rest]. destruct (take n rest) as [|c bs] eqn:E.
    + rewrite app_nil_r. eexists; by split.
    + rewrite <- E. destruct fuel as [|fuel]; [cbn in Hf; lia|].
      assert (take n rest = rest ∧ drop n rest = [] ∨ (n - length (take n rest) = 0)%nat) as [[H1 H2]|H].
      { rewrite length_take. destruct (decide (length rest <= n)%nat); [left|right; lia].
        by rewrite take_ge, drop_ge by lia. }
      * rewrite H2. destruct (fill_eof (S fuel) (n - length (take n rest)) (acc ++ take n rest) [])
          as (ev' & -> & ?); [done|cbn; lia|]. eexists; by split.
      * rewrite H, fill_step. cbn [Nat.eqb]. eexists; by split.
  - apply Forall_cons in Hev as [He Hev]. cbn in Hf. destruct e; [|done|].
    + apply IH; [done|lia].
    + unfold read. cbn [fd_events fd_rest]. set (m := Nat.min n (S k)).
      assert (0 < m <= n)%nat as Hm by lia.
      destruct (take m rest) as [|c bs] eqn:E.
      * apply take_nil_inv in E; [|lia]. subst rest. rewrite take_nil, !drop_nil, app_nil_r.
        eexists; by split.
      * rewrite <- E, length_take.
        destruct (IH fuel (n - Nat.min m (length rest))%nat (acc ++ take m rest) (drop m rest))
          as (ev' & -> & ?); [done|lia|].
        exists ev'. split; [|done]. f_equal. destruct (decide (length rest <= m)%nat).
        { by rewrite (drop_ge rest m), (drop_ge rest n), !(take_ge rest), take_nil, app_nil_r, drop_nil
            by lia. }
        rewrite Nat.min_l, drop_drop, <- app_assoc, take_take_drop by lia.
        by replace (m + (n - m))%nat with n by lia.
Qed.

(** ** One pass of the copy *)

Definition plain (s : cstr) : Prop := Forall (λ c, c ≠ LF ∧ c ≠ NUL) s.

Lemma byte_at_drop b i : byte_at b (rb_ptr b + i) = nth i (drop (rb_ptr b) (rb_data b)) NUL.
Proof. unfold byte_at. by rewrite !nth_lookup, lookup_drop. Qed.

Lemma byte_at_drop0 b : byte_at b (rb_ptr b) = nth 0 (drop (rb_ptr b) (rb_data b)) NUL.
Proof. rewrite <- byte_at_drop. by rewrite Nat.add_0_r. Qed.

Lemma rb_ptr_end b c t : drop (rb_ptr b) (rb_data b) = c :: t → Nat.eqb (rb_ptr b) (rb_end b) = false.
Proof.
  intros H. apply Nat.eqb_neq. intros E. unfold rb_end in E.
  rewrite drop_ge in H by lia. done.
Qed.

Lemma line_span_plain a t : plain a → line_span (a ++ t) = (length a + line_span t)%nat.
Proof.
  induction 1 as [|c a [H1 H2] _ IH]; [done|]. cbn. do 2 (destruct ascii_dec; [done|]). by rewrite IH.
Qed.

Lemma line_span_nul k : line_span (replicate k NUL) = 0%nat.
Proof. by destruct k. Qed.

Lemma strncpy_no_nul a t : no_nul a → strncpy (length a) (a ++ t) = a.
Proof.
  induction 1 as [|c a H _ IH]; [done|]. cbn. destruct ascii_dec; [done|]. by rewrite IH.
Qed.

Lemma plain_no_nul a : plain a → no_nul a.
Proof. intros H. eapply Forall_impl; [exact H|]. by intros ? []. Qed.

Lemma nth_app_len {A} (a t : list A) d : nth (length a) (a ++ t) d = nth 0 t d.
Proof. by rewrite app_nth2, Nat.sub_diag by lia. Qed.

Lemma nth_last_app {A} (a t : list A) d i :
  (i < length a)%nat → nth i (a ++ t) d = nth i a d.
Proof. apply app_nth1. Qed.

Section Copy.
Context (dstsize ret : nat) (dst : cstr) (b : read_buffer) (f : fdesc).

Lemma copy_end : rb_ptr b = rb_end b → bufread_copy dstsize (mk_st ret dst b f) = (mk_st ret dst b f, false).
Proof. intros H. unfold bufread_copy. by rewrite H, Nat.eqb_refl. Qed.

Lemma copy_nul k :
  drop (rb_ptr b) (rb_data b) = replicate (S k) NUL →
  bufread_copy dstsize (mk_st ret dst b f) = (mk_st ret dst (mk_rb (rb_data b) (S (rb_ptr b))) f, true).
Proof.
  intros H. unfold bufread_copy. by rewrite byte_at_drop0, (rb_ptr_end b NUL (replicate k NUL)), H.
Qed.

(** The copy when the first [n > 0] characters are to be copied: [x] is the text up to
    them and [t] what follows. *)
Lemma copy_text x t p :
  drop (rb_ptr b) (rb_data b) = x ++ t → x ≠ [] → no_nul x →
  (if ascii_dec (byte_at b (rb_ptr b + line_span (x ++ t))) LF
   then S (rb_ptr b + line_span (x ++ t)) else rb_ptr b + line_span (x ++ t))%nat = p →
  p = (rb_ptr b + length x)%nat → (ret + length x <= dstsize - 1)%nat → (ret < dstsize - 1)%nat →
  bufread_copy dstsize (mk_st ret dst b f)
  = (mk_st (ret + length x) (overwrite ret x dst) (mk_rb (rb_data b) p) f,
     Nat.eqb (ret + length x) (dstsize - 1)
     || (if ascii_dec (nth (length x - 1) x NUL) LF then true else false)).
Proof.
  intros Hd Hx Hn Hp Hpe Hr Hlt. destruct x as [|c x]; [done|].
  unfold bufread_copy. rewrite byte_at_drop0, Hd, (rb_ptr_end b c (x ++ t)) by done.
  cbn [negb andb]. change (nth 0 ((c :: x) ++ t) NUL) with c. destruct (ascii_dec c NUL) as [->|_]; [by apply Forall_cons in Hn as [??]|].
  cbv zeta. rewrite Hp. clear Hp. subst p.
  replace (rb_ptr b + length (c :: x) - rb_ptr b)%nat with (length (c :: x)) by lia.
  replace (if Nat.leb (dstsize - 1) (ret + length (c :: x)) then (dstsize - ret - 1)%nat
    else length (c :: x)) with (length (c :: x)) by (destruct (Nat.leb_spec (dstsize - 1) (ret + length (c :: x))); lia).
  rewrite strncpy_no_nul by done.
  replace (byte_at b (rb_ptr b + length (c :: x) - 1)) with (nth (length (c :: x) - 1) (c :: x) NUL); [done|].
  replace (rb_ptr b + length (c :: x) - 1)%nat with (rb_ptr b + (length (c :: x) - 1))%nat by (cbn; lia).
  rewrite byte_at_drop, Hd, nth_last_app; [done|cbn; lia].
Qed.

Lemma copy_line a t :
  drop (rb_ptr b) (rb_data b) = a ++ LF :: t → plain a → (ret + S (length a) <= dstsize - 1)%nat →
  bufread_copy dstsize (mk_st ret dst b f)
  = (mk_st (ret + S (length a)) (overwrite ret (a ++ [LF]) dst)
       (mk_rb (rb_data b) (rb_ptr b + S (length a))) f, true).
Proof.
  intros Hd Ha Hr.
  assert (Hd' : drop (rb_ptr b) (rb_data b) = (a ++ [LF]) ++ t) by by rewrite <- app_assoc.
  assert (Hl : length (a ++ [LF]) = S (length a)) by (rewrite length_app; cbn; lia).
  rewrite (copy_text _ t (rb_ptr b + S (length a)) Hd'); rewrite ?Hl; try lia.
  - f_equal. replace (S (length a) - 1)%nat with (length a) by lia. rewrite nth_app_len. cbn.
    by rewrite orb_true_r.
  - by destruct a.
  - apply Forall_app. split; [by apply plain_no_nul|]. by repeat constructor.
  - rewrite <- app_assoc, line_span_plain by done. cbn [app line_span].
    destruct (ascii_dec LF LF); [|done]. rewrite Nat.add_0_r, byte_at_drop, Hd, nth_app_len. cbn.
    lia.
Qed.

Lemma copy_part x k :
  drop (rb_ptr b) (rb_data b) = x ++ replicate k NUL → x ≠ [] → plain x →
  (ret + length x <= dstsize - 1)%nat →
  bufread_copy dstsize (mk_st ret dst b f)
  = (mk_st (ret + length x) (overwrite ret x dst) (mk_rb (rb_data b) (rb_ptr b + length x)) f,
     Nat.eqb (ret + length x) (dstsize - 1)).
Proof.
  intros Hd Hx Hp Hr.
  assert (0 < length x)%nat as Hlen by (destruct x; [done|cbn; lia]).
  rewrite (copy_text _ _ (rb_ptr b + length x) Hd); try lia; try done.
  - assert (nth (length x - 1) x NUL ≠ LF) as Hne.
    { rewrite nth_lookup. destruct (lookup_lt_is_Some_2 x (length x - 1)) as [c E]; [lia|].
      rewrite E. cbn. by apply (Forall_lookup_1 _ _ _ _ Hp E). }
    destruct ascii_dec; [done|]. by rewrite orb_false_r.
  - by apply plain_no_nul.
  - rewrite line_span_plain, line_span_nul, Nat.add_0_r, byte_at_drop, Hd, nth_app_len by done.
    by destruct k.
Qed.

End Copy.

(** ** The loop *)

Lemma split_lf s : no_nul s → plain s ∨ ∃ a t, s = a ++ LF :: t ∧ plain a.
Proof.
  induction 1 as [|c s Hc _ IH]; [left; constructor|].
  destruct (ascii_dec c LF) as [->|Hne]; [right; exists [], s; split; [done|constructor]|].
  destruct IH as [IH|(a & t & -> & Ha)]; [left; by constructor|].
  right. exists (c :: a), t. split; [done|]. by constructor.
Qed.

Lemma next_line_lf a t : plain a → next_line (a ++ LF :: t) = (a ++ [LF], t).
Proof.
  induction 1 as [|c a [H1 H2] _ IH]; [done|]. cbn [app next_line]. destruct ascii_dec; [done|]. by rewrite IH.
Qed.

Lemma next_line_plain a t :
  plain a → next_line (a ++ t) = (a ++ (next_line t).1, (next_line t).2).
Proof.
  induction 1 as [|c a [H1 H2] _ IH]; [cbn [app]; by rewrite <- surjective_pairing|].
  cbn [app next_line]. destruct ascii_dec; [done|]. by rewrite IH.
Qed.

Lemma next_line_app s l r : next_line s = (l, r) → s = l ++ r.
Proof.
  revert l r. induction s as [|c s IH]; intros l r; cbn; [by intros [= <- <-]|].
  destruct ascii_dec; [by intros [= <- <-]|].
  destruct (next_line s) as [l' r'] eqn:E. intros [= <- <-]. cbn. by rewrite <- (IH l' r').
Qed.

Lemma next_line_nil s : (next_line s).1 = [] → s = [].
Proof. destruct s as [|c s]; [done|]. cbn. destruct ascii_dec; [done|]. destruct (next_line s); intros [=]. Qed.

Lemma length_overwrite i x dst :
  (i + length x <= length dst)%nat → length (overwrite i x dst) = length dst.
Proof. intros H. unfold overwrite. rewrite !length_app, length_take, length_drop. lia. Qed.

Lemma overwrite_nil i dst : overwrite i [] dst = dst.
Proof. unfold overwrite. cbn. by rewrite Nat.add_0_r, take_drop. Qed.

Lemma overwrite_overwrite i x y dst :
  (i + length x <= length dst)%nat →
  overwrite (i + length x) y (overwrite i x dst) = overwrite i (x ++ y) dst.
Proof.
  intros H. unfold overwrite.
  assert (length (take i dst) = i) as Hi by (rewrite length_take; lia).
  assert (length (take i dst ++ x) = (i + length x)%nat) as Hix by (rewrite length_app, Hi; lia).
  rewrite !(app_assoc (take i dst) x), take_app_length' by done.
  rewrite drop_app_ge, drop_drop, Hix, length_app by lia. rewrite <- !app_assoc.
  do 4 f_equal. lia.
Qed.

Lemma drop_add_app {A} n (l x t : list A) : drop n l = x ++ t → drop (n + length x) l = t.
Proof. intros H. by rewrite <- drop_drop, H, drop_app_length. Qed.

Lemma ptr_le_end b x t :
  drop (rb_ptr b) (rb_data b) = x ++ t → (rb_ptr b <= rb_end b)%nat →
  (rb_ptr b + length x <= rb_end b)%nat.
Proof.
  intros H Hp. assert (length (drop (rb_ptr b) (rb_data b)) = length (x ++ t)) as E by by rewrite H.
  rewrite length_drop, length_app in E. unfold rb_end in *. lia.
Qed.

(** The invariant after a refill. *)
Lemma filled_inv size rest ev :
  (0 < size)%nat → no_nul rest → no_fail ev →
  rb_inv (mk_rb (take size rest ++ replicate (size - length (take size rest)) NUL) 0)
    (mk_fdesc (drop size rest) ev) rest ∧
  rb_end (mk_rb (take size rest ++ replicate (size - length (take size rest)) NUL) 0) = size.
Proof.
  intros Hs Hn Hev.
  assert (rb_end (mk_rb (take size rest ++ replicate (size - length (take size rest)) NUL) 0) = size)
    as He by (unfold rb_end; cbn; rewrite length_app, length_replicate, length_take; lia).
  split; [|done]. constructor; rewrite ?He; cbn [rb_ptr rb_data fd_rest fd_events]; try done; [lia|].
  exists (take size rest), (size - length (take size rest))%nat. rewrite drop_0.
  split_and!; [done|by rewrite take_drop|]. rewrite length_take. intros ?. apply drop_ge. lia.
Qed.

Section Loop.
Context (dstsize : nat).

(** The result of the loop when the text before it is [s] and its first line [l]. *)
Definition loop_post (size ret : nat) (dst l r : cstr) (o : option (Z * bufread_st)) : Prop :=
  ∃ b f, o = Some (Z.of_nat (ret + length l),
      mk_st (ret + length l) (overwrite ret l dst) b f) ∧
    rb_inv b f r ∧ rb_end b = size ∧ (0 < rb_ptr b)%nat.

Lemma loop_step fuel s :
  bufread_loop (S fuel) dstsize s =
  let '(s1, brk) := bufread_copy dstsize s in
  if brk then Some (Z.of_nat (st_ret s1), s1)
  else if Nat.eqb (rb_ptr (st_buf s1)) (rb_end (st_buf s1)) then
    let size := rb_end (st_buf s1) in
    let filled bs := bs ++ replicate (size - length bs) NUL in
    match fill (S (S (length (fd_events (st_fd s1))))) size [] (st_fd s1) with
    | None => None
    | Some (inr bs, f') => Some (-1, mk_st (st_ret s1) (st_dst s1) (mk_rb (filled bs) size) f')
    | Some (inl bs, f') =>
        bufread_loop fuel dstsize (mk_st (st_ret s1) (st_dst s1) (mk_rb (filled bs) 0) f')
    end
  else Some (Z.of_nat (st_ret s1), s1).
Proof. done. Qed.

(** The cases of a pass of the loop: the buffer is used up, its text is used up and with it
    the file, its text ends within a line, or a line ends in it. *)
Section Pass.
Context (fuel ret : nat) (dst : cstr) (b : read_buffer) (f : fdesc).
Hypothesis Hsz : (0 < rb_end b)%nat.
Hypothesis Hev : no_fail (fd_events f).
Hypothesis Hp : (rb_ptr b <= rb_end b)%nat.
Hypothesis Hnr : no_nul (fd_rest f).
Hypothesis IH : ∀ ret dst b f s,
  rb_inv b f s → (ret + length (next_line s).1 <= dstsize - 1)%nat → (ret < dstsize - 1)%nat →
  length dst = dstsize →
  (length s + (if Nat.eqb (rb_ptr b) (rb_end b) then 2 else 1) <= fuel)%nat →
  loop_post (rb_end b) ret dst (next_line s).1 (next_line s).2
    (bufread_loop fuel dstsize (mk_st ret dst b f)).

Local Abbreviation loop := (bufread_loop (S fuel) dstsize (mk_st ret dst b f)).

(** A refill hands the rest of the file to the next pass. *)
Lemma refill_ok ret' dst' b1 :
  rb_end b1 = rb_end b → (ret' + length (next_line (fd_rest f)).1 <= dstsize - 1)%nat →
  (ret' < dstsize - 1)%nat → length dst' = dstsize → (length (fd_rest f) < fuel)%nat →
  loop_post (rb_end b) ret' dst' (next_line (fd_rest f)).1 (next_line (fd_rest f)).2
    (let size := rb_end b1 in
     let filled bs := bs ++ replicate (size - length bs) NUL in
     match fill (S (S (length (fd_events f)))) size [] f with
     | None => None
     | Some (inr bs, f') => Some (-1, mk_st ret' dst' (mk_rb (filled bs) size) f')
     | Some (inl bs, f') => bufread_loop fuel dstsize (mk_st ret' dst' (mk_rb (filled bs) 0) f')
     end).
Proof.
  intros -> Hr Hlt Hd Hf. cbv zeta.
  destruct (fill_ok (S (S (length (fd_events f)))) (rb_end b) [] f Hev) as (ev' & -> & Hev'); [lia|].
  destruct (filled_inv (rb_end b) (fd_rest f) ev' Hsz Hnr Hev') as [Hinv Hend].
  cbn [app]. rewrite <- Hend at 1. apply IH; try done. rewrite Hend. cbn [rb_ptr].
  destruct (Nat.eqb_spec 0 (rb_end b)); lia.
Qed.

Lemma pass_end :
  rb_ptr b = rb_end b → (ret + length (next_line (fd_rest f)).1 <= dstsize - 1)%nat →
  (ret < dstsize - 1)%nat → length dst = dstsize → (length (fd_rest f) < fuel)%nat →
  loop_post (rb_end b) ret dst (next_line (fd_rest f)).1 (next_line (fd_rest f)).2 loop.
Proof.
  intros He Hr Hlt Hd Hf. rewrite loop_step, copy_end by done. cbn [st_buf st_fd st_ret st_dst].
  rewrite He, Nat.eqb_refl. by apply refill_ok.
Qed.

Lemma pass_nul k :
  drop (rb_ptr b) (rb_data b) = replicate (S k) NUL → fd_rest f = [] → loop_post (rb_end b) ret dst [] [] loop.
Proof.
  intros Hdr Hf. rewrite loop_step, (copy_nul _ _ _ _ _ k) by done. cbv zeta iota.
  eexists _, f. cbn [length]. rewrite Nat.add_0_r, overwrite_nil.
  split_and!; [done| |done|cbn; lia].
  pose proof (ptr_le_end b [NUL] (replicate k NUL) Hdr Hp) as Hle. rewrite Nat.add_1_r in Hle.
  constructor; try done; [constructor|].
  exists [], k. cbn [rb_ptr rb_data]. rewrite Hf. split_and!; [|done|done].
  rewrite <- Nat.add_1_r. by apply (drop_add_app _ _ [NUL]).
Qed.

Lemma pass_line a t k :
  drop (rb_ptr b) (rb_data b) = a ++ LF :: t ++ replicate k NUL → ((0 < k)%nat → fd_rest f = []) →
  plain a → no_nul t → (ret + S (length a) <= dstsize - 1)%nat →
  loop_post (rb_end b) ret dst (a ++ [LF]) (t ++ fd_rest f) loop.
Proof.
  intros Hdr Hk Ha Ht Hr. rewrite loop_step, (copy_line _ _ _ _ _ a (t ++ replicate k NUL)) by done.
  cbv zeta iota. cbn [st_ret].
  assert (Hl : length (a ++ [LF]) = S (length a)) by (rewrite length_app; cbn; lia).
  assert (Hdr' : drop (rb_ptr b) (rb_data b) = (a ++ [LF]) ++ (t ++ replicate k NUL))
    by (rewrite Hdr; by rewrite <- app_assoc).
  pose proof (ptr_le_end b _ _ Hdr' Hp) as Hle. pose proof (drop_add_app _ _ _ _ Hdr') as Hdd.
  eexists _, f. rewrite Hl in *. split_and!; [done| |done|cbn; lia].
  constructor; try done; [by apply Forall_app|]. exists t, k. by split_and!.
Qed.

Lemma pass_part x k :
  drop (rb_ptr b) (rb_data b) = x ++ replicate k NUL → ((0 < k)%nat → fd_rest f = []) →
  x ≠ [] → plain x → (ret + length x + length (next_line (fd_rest f)).1 <= dstsize - 1)%nat →
  length dst = dstsize → (length (fd_rest f) < fuel)%nat →
  loop_post (rb_end b) ret dst (x ++ (next_line (fd_rest f)).1) (next_line (fd_rest f)).2 loop.
Proof.
  intros Hdr Hk Hx Hpl Hr Hd Hf. assert (0 < length x)%nat by (destruct x; [done|cbn; lia]).
  rewrite loop_step, (copy_part _ _ _ _ _ x k) by (done || lia). cbn [st_buf st_fd st_ret st_dst].
  pose proof (ptr_le_end b x _ Hdr Hp) as Hle. cbn [rb_ptr].
  change (rb_end (mk_rb (rb_data b) (rb_ptr b + length x))) with (rb_end b).
  assert (Hstop : (next_line (fd_rest f)).1 = [] →
    loop_post (rb_end b) ret dst (x ++ (next_line (fd_rest f)).1) (next_line (fd_rest f)).2
      (Some (Z.of_nat (ret + length x), mk_st (ret + length x) (overwrite ret x dst)
        (mk_rb (rb_data b) (rb_ptr b + length x)) f))).
  { intros E%next_line_nil. rewrite E in *. cbn [next_line fst snd].
    rewrite app_nil_r. eexists _, f. split_and!; [done| |done|cbn; lia].
    constructor; try done. exists [], k. rewrite E. split_and!; [by apply drop_add_app|done|done]. }
  destruct (Nat.eqb_spec (ret + length x) (dstsize - 1)) as [E|E].
  { apply Hstop. destruct (next_line (fd_rest f)).1; [done|cbn in Hr; lia]. }
  destruct (Nat.eqb_spec (rb_ptr b + length x) (rb_end b)) as [E2|E2].
  - destruct (refill_ok (ret + length x) (overwrite ret x dst) (mk_rb (rb_data b) (rb_ptr b + length x)))
      as (b' & f' & E' & Hb'); try (done || lia); [rewrite length_overwrite; [done|lia]|].
    exists b', f'. rewrite length_app, Nat.add_assoc, <- overwrite_overwrite by lia. by split.
  - apply Hstop. rewrite Hk; [done|]. destruct k; [|lia].
    apply (f_equal length) in Hdr. rewrite app_nil_r, length_drop in Hdr. unfold rb_end in *. lia.
Qed.

End Pass.

Lemma loop_ok fuel ret dst b f s :
  rb_inv b f s → (ret + length (next_line s).1 <= dstsize - 1)%nat → (ret < dstsize - 1)%nat →
  length dst = dstsize →
  (length s + (if Nat.eqb (rb_ptr b) (rb_end b) then 2 else 1) <= fuel)%nat →
  loop_post (rb_end b) ret dst (next_line s).1 (next_line s).2
    (bufread_loop fuel dstsize (mk_st ret dst b f)).
Proof.
  revert ret dst b f s.
  induction fuel as [|fuel IH]; intros ret dst b f s [Hsz Hn Hev Hp Hst] Hr Hlt Hd Hf.
  { destruct (Nat.eqb _ _); lia. }
  destruct Hst as (live & k & Hdr & -> & Hk). apply Forall_app in Hn as [Hnl Hnr].
  rewrite length_app in Hf.
  destruct (split_lf live Hnl) as [Hpl|(a & t & -> & Ha)].
  - destruct live as [|c live]; [destruct k as [|k]|].
    + assert (rb_ptr b = rb_end b) as He.
      { apply (f_equal length) in Hdr. rewrite length_drop in Hdr. unfold rb_end in *. cbn in Hdr. lia. }
      rewrite He, Nat.eqb_refl in Hf. apply pass_end; try done. cbn in Hf. lia.
    + rewrite Hk by lia. apply (pass_nul fuel ret dst b f Hsz Hev Hp k Hdr). apply Hk. lia.
    + rewrite next_line_plain in Hr |- * by done. cbn [fst snd] in Hr |- *. rewrite length_app in Hr.
      apply (pass_part fuel ret dst b f Hsz Hev Hp Hnr IH _ k); try done; [lia|].
      cbn in Hf. destruct (Nat.eqb _ _) in Hf; lia.
  - apply Forall_app in Hnl as [_ Hnl]. apply Forall_cons in Hnl as [_ Ht].
    rewrite <- !app_assoc in Hr, Hdr |- *. cbn [app] in *.
    rewrite next_line_lf in Hr |- * by done. cbn [fst snd] in Hr |- *.
    rewrite length_app in Hr. cbn [length] in Hr.
    apply (pass_line fuel ret dst b f Hsz Hev Hp Hnr a t k); try done. lia.
Qed.

End Loop.

(** A call on a text returns its first line, whatever the reads return. *)
Lemma bufread_line dstsize dst b f s :
  rb_inv b f s → (0 < rb_ptr b)%nat → length dst = dstsize → (1 < dstsize)%nat →
  (length (next_line s).1 <= dstsize - 1)%nat →
  loop_post (rb_end b) 0 dst (next_line s).1 (next_line s).2 (bufread dstsize dst b f).
Proof.
  intros Hi Hp Hd Hds Hl. unfold bufread. pose proof Hi as [_ _ _ Hpe (live & k & Hdr & -> & _)].
  rewrite (proj2 (Nat.leb_gt _ _)), (proj2 (Nat.ltb_ge _ _)) by lia. cbn [orb].
  apply loop_ok; try done; [lia|].
  apply (f_equal length) in Hdr. rewrite length_drop, !length_app in *. unfold rb_end in *.
  destruct (Nat.eqb _ _); lia.
Qed.
