(* ===== verification/ProcMaps.v ===== *)
(** * The process map

    [include/common/util/proc_maps.h]: the parser of [/proc/self/maps], with the callback
    that chooses entries and the removal of stale ones.  The mechanisms driven by pages
    ([Mprotect], [Softdirty]) use it to find the mappings to checkpoint.

    The kernel is the class [ProcFs]; a program over the state of a mechanism and the
    kernel is [prog (S * os)]. *)
From stdpp Require Import base numbers list sets strings.
From Stdlib Require Import ZArith Lia.
From S2P Require Import Prelude Memory CString Ctx Profiling Writelog Common.

Definition MIN_MMAP_ADDR : Z := PAGE_SIZE * 100.

(** [util_proc_maps_entry_t]: the fields of [vma] and the character [s] of shared or
    private mappings, which the page-protection mechanism also uses as a mark. *)
Record map_entry := mk_entry { e_vma : vma; e_s : Z }.

(** The process map as the code meets it. *)
Class ProcFs (os : Type) := {
  (** the lines of [/proc/self/maps] as [sscanf] reads them, [None] for a line with fewer
      than ten fields; [None] if the file cannot be opened *)
  maps_lines : os → option (list (option map_entry));
  (** the error number of [mincore] with a NULL vector, 0 if it succeeds *)
  mincore_errno : Z → os → Z;
}.

Definition ENOMEM : Z := 12.
Definition EFAULT : Z := 14.
Definition EINVAL : Z := 22.
Definition ENOENT : Z := 2.

(** [util_proc_maps_parse_ret_t]. *)
Inductive parse_ret :=
  | UTIL_PROC_MAPS_RET_SAVE
  | UTIL_PROC_MAPS_RET_SAVE_AND_STOP
  | UTIL_PROC_MAPS_RET_CONTINUE
  | UTIL_PROC_MAPS_RET_STOP
  | UTIL_PROC_MAPS_RET_ERR.

(** What the parser reads of an entry: the address it starts at. *)
Class HasStart (E : Type) := entry_start : E → Z.
#[export] Instance map_entry_start : HasStart map_entry := λ e, vm_start (e_vma e).

Section Parse.
Context {S os E : Type} `{procfs : ProcFs os} `{HasStart E}.

Local Abbreviation P := (prog (S * os)).

Definition util_proc_maps_entry_mapped (e : E) : P bool :=
  err ← gets (λ s, mincore_errno (entry_start e) s.2);
  assert (negb (err =? 0)) ;;
  if err =? ENOMEM then mret false else
  assert (err =? EFAULT) ;;
  mret true.

Fixpoint util_proc_maps_remove_unmapped (l : list E) : P (list E) :=
  match l with
  | [] => mret []
  | e :: l' =>
      b ← util_proc_maps_entry_mapped e;
      l'' ← util_proc_maps_remove_unmapped l';
      mret (if b : bool then e :: l'' else l'')
  end.

(** The loop over the lines: the status and the entries saved so far. *)
Fixpoint parse_lines (cb : E → parse_ret) (lines : list (option E)) (entries : list E)
    : Z * list E :=
  match lines with
  | [] => (0, entries)
  | None :: _ => (- EINVAL, entries)
  | Some e :: lines' =>
      match cb e with
      | UTIL_PROC_MAPS_RET_SAVE => parse_lines cb lines' (entries ++ [e])
      | UTIL_PROC_MAPS_RET_SAVE_AND_STOP => (0, entries ++ [e])
      | UTIL_PROC_MAPS_RET_CONTINUE => parse_lines cb lines' entries
      | UTIL_PROC_MAPS_RET_STOP => (0, entries)
      | UTIL_PROC_MAPS_RET_ERR => (- ENOENT, entries)
      end
  end.

(** [util_proc_maps_parse_filter], on the lines of the file. *)
Definition parse_filter (file : os → option (list (option E))) (cb : E → parse_ret)
    : P (Z * list E) :=
  f ← gets (λ s, file s.2);
  match f with
  | None => mret (- ENOENT, [])
  | Some lines =>
      let '(ret, entries) := parse_lines cb lines [] in
      if negb (ret =? 0) then mret (ret, [])
      else entries' ← util_proc_maps_remove_unmapped entries; mret (0, entries')
  end.

End Parse.

Definition util_proc_maps_parse_filter {S os : Type} `{procfs : ProcFs os} (cb : map_entry → parse_ret)
    : prog (S * os) (Z * list map_entry) := parse_filter maps_lines cb.

(** The callback with which a mechanism keeps the checkpointed mappings other than its own
    buffer ([ltckpt_init_mpr_cb], [ltckpt_init_softdirty_cb]); [tls_addr], [heap_addr] and
    [data_addr] are the addresses [ltcpt_is_checkpointed_vma] compares with. *)
Definition init_cb (tls_addr heap_addr data_addr own : Z) (c : ltckpt_ctx) (entry : map_entry)
    : parse_ret :=
  if vm_start (e_vma entry) =? own then UTIL_PROC_MAPS_RET_CONTINUE else
  if negb (ltcpt_is_checkpointed_vma tls_addr heap_addr data_addr c (e_vma entry))
  then UTIL_PROC_MAPS_RET_CONTINUE
  else UTIL_PROC_MAPS_RET_SAVE.

(** ** What the parser returns *)

Definition entry_aligned (e : map_entry) : Prop :=
  vm_start (e_vma e) mod PAGE_SIZE = 0 ∧ vm_end (e_vma e) mod PAGE_SIZE = 0 ∧
  vm_start (e_vma e) <= vm_end (e_vma e).

(** What the mechanisms rely on of the process map: the file can be read and is well
    formed, its mappings consist of whole pages and do not overlap a buffer just mapped
    other than in the buffer's own entry, and [mincore] with a NULL vector fails one way or
    the other. *)
Class ProcFsLaws (os : Type) `{vmem : VMem os} `{procfs : ProcFs os} := {
  maps_readable (o : os) : ∃ l, maps_lines o = Some (Some <$> l) ∧ Forall entry_aligned l;
  maps_apart a n (o : os) b o' l e x :
    ltkcpt_ctx_get_buff a n o = (b, o') → b ≠ 0 → maps_lines o' = Some (Some <$> l) → e ∈ l →
    vm_start (e_vma e) ≠ b → in_block b n x → ¬ (vm_start (e_vma e) <= x < vm_end (e_vma e));
  mincore_fails a (o : os) : mincore_errno a o = ENOMEM ∨ mincore_errno a o = EFAULT;
}.

Section Laws.
Context {S os : Type} `{vmem : VMem os} `{procfs : ProcFs os} `{!ProcFsLaws os}.
Context (tls_addr heap_addr data_addr : Z).

Lemma remove_unmapped_run {E} `{HasStart E} (l : list E) (s : S) (o : os) :
  util_proc_maps_remove_unmapped l (s, o)
  = Ok (filter (λ e, mincore_errno (entry_start e) o = EFAULT) l) (s, o).
Proof.
  induction l as [|e l IH]; [done|]. cbn [util_proc_maps_remove_unmapped].
  rewrite filter_cons. unfold util_proc_maps_entry_mapped. rewrite bind_assoc, bind_gets.
  cbn [snd]. destruct (mincore_fails (entry_start e) o) as [Em|Em]; rewrite Em.
  - rewrite bind_assoc, bind_assert by done. change (ENOMEM =? ENOMEM) with true. cbv iota.
    rewrite bind_ret, (bind_Ok _ _ _ _ _ IH). by rewrite decide_False by done.
  - rewrite bind_assoc, bind_assert by done. change (EFAULT =? ENOMEM) with false. cbv iota.
    rewrite bind_assoc, bind_assert, bind_ret, (bind_Ok _ _ _ _ _ IH) by done.
    by rewrite decide_True.
Qed.

(** The callback keeps the checkpointed mappings other than the mechanism's own. *)
Definition kept_vma (b : Z) (c : ltckpt_ctx) (e : map_entry) : Prop :=
  vm_start (e_vma e) ≠ b ∧
  ltcpt_is_checkpointed_vma tls_addr heap_addr data_addr c (e_vma e) = true.
#[export] Instance kept_vma_dec b c e : Decision (kept_vma b c e).
Proof. unfold kept_vma. apply _. Defined.

Lemma parse_lines_run b c l acc :
  parse_lines (init_cb tls_addr heap_addr data_addr b c) (Some <$> l) acc
  = (0, acc ++ filter (kept_vma b c) l).
Proof.
  revert acc. induction l as [|e l IH]; intros acc; cbn [fmap list_fmap parse_lines].
  { by rewrite app_nil_r. }
  rewrite filter_cons. unfold init_cb at 1.
  destruct (decide (kept_vma b c e)) as [[Hb Hc]|Hk].
  - rewrite (proj2 (Z.eqb_neq _ _)), Hc by done. cbn [negb]. rewrite IH. by rewrite <- app_assoc.
  - destruct (Z.eqb_spec (vm_start (e_vma e)) b) as [Eb|Eb]; [apply IH|].
    rewrite (not_true_is_false (ltcpt_is_checkpointed_vma _ _ _ _ _)); [apply IH|].
    intros ?. by apply Hk.
Qed.

(** The entries the parser returns, from the lines [l]. *)
Definition kept_entries (b : Z) (c : ltckpt_ctx) (o : os) (l : list map_entry) : list map_entry :=
  filter (λ e, mincore_errno (vm_start (e_vma e)) o = EFAULT) (filter (kept_vma b c) l).

Lemma elem_of_kept_entries b c o l e :
  e ∈ kept_entries b c o l ↔
  e ∈ l ∧ kept_vma b c e ∧ mincore_errno (vm_start (e_vma e)) o = EFAULT.
Proof. unfold kept_entries. rewrite !list_elem_of_filter. tauto. Qed.

Lemma kept_entries_aligned b c o l : Forall entry_aligned l → Forall entry_aligned (kept_entries b c o l).
Proof.
  rewrite !Forall_forall. intros H e (He & _)%elem_of_kept_entries. by apply H.
Qed.

(** The kept mappings do not meet the mechanism's buffer of [n] bytes. *)
Lemma kept_entries_apart c a n (o : os) b o1 l e x :
  ltkcpt_ctx_get_buff a n o = (b, o1) → b ≠ 0 → maps_lines o1 = Some (Some <$> l) →
  e ∈ kept_entries b c o1 l → in_block b n x → ¬ (vm_start (e_vma e) <= x < vm_end (e_vma e)).
Proof.
  intros Hb Hne Hl (He & [Hs _] & _)%elem_of_kept_entries Hx.
  by apply (maps_apart a n o b o1 l e x).
Qed.

Lemma parse_filter_run b c (s : S) (o : os) l :
  maps_lines o = Some (Some <$> l) →
  util_proc_maps_parse_filter (init_cb tls_addr heap_addr data_addr b c) (s, o)
  = Ok (0, kept_entries b c o l) (s, o).
Proof.
  intros Hl. unfold util_proc_maps_parse_filter, parse_filter. rewrite bind_gets. cbn [snd]. rewrite Hl.
  rewrite parse_lines_run. cbn [negb Z.eqb]. rewrite app_nil_l.
  by rewrite (bind_Ok _ _ _ _ _ (remove_unmapped_run _ _ _)).
Qed.

End Laws.

(** ** Pages *)

Definition page_of (a : Z) : Z := a / PAGE_SIZE.

(** Arithmetic on pages. *)
Ltac page_lia := unfold page_of in *; unfold PAGE_SIZE in *; Z.to_euclidean_division_equations; lia.

Lemma page_of_base p : page_of (p * PAGE_SIZE) = p.
Proof. unfold page_of. by rewrite Z.div_mul. Qed.

Lemma page_base a : a - a mod PAGE_SIZE = page_of a * PAGE_SIZE.
Proof. page_lia. Qed.

(** The program's stores without checkpointing. *)
Definition plain_stores (l : list (Z * Z)) (m : mem) : mem := foldl (λ m ab, upd m ab.1 ab.2) m l.

Lemma plain_stores_agree P l m1 m2 :
  mem_agree P m1 m2 → mem_agree P (plain_stores l m1) (plain_stores l m2).
Proof.
  revert m1 m2. induction l as [|[a b] l IH]; intros m1 m2 H; [done|]. cbn. apply IH.
  intros x Hx. unfold upd. destruct (x =? a); [done|by apply H].
Qed.
