(* ===== verification/ProcScan.v ===== *)
(** * The text of the process map

    [include/common/util/proc_maps.h]: the entry of the map, the line [sscanf] reads it from
    and the line [util_proc_maps_entry_print] writes, and the loop that reads the file
    through [bufread].  [text_procfs] discharges the interface [ProcFs] of [ProcMaps] with
    a file in this format.

    A printed entry is read back ([scan_print]); the text does not depend on how the kernel
    divides the reads ([read_lines_ok]).  The reader does not terminate a line, so that the
    name of an anonymous mapping is the word an earlier, longer line left behind it. *)
From stdpp Require Import base numbers list strings option.
From Stdlib Require Import ZArith Lia Ascii.
From S2P Require Import Prelude Memory CString Ctx Profiling Writelog Common BufRead ProcMaps.

(** The buffer an entry's memory is copied to: NULL, the value of a failed [mmap], or its
    bytes. *)
Inductive ebuff := BuffNull | BuffFailed | Buff (bs : list Z).

(** [util_proc_maps_entry_t]; of the owner only its [pid] is read. *)
Record proc_entry := mk_pe {
  pe_start : Z; pe_end : Z;
  pe_r : ascii; pe_w : ascii; pe_x : ascii; pe_s : ascii;
  pe_pgoff : Z; pe_major : Z; pe_minor : Z; pe_ino : Z;
  pe_name : cstr; pe_pid : Z; pe_buff : ebuff
}.

(** ** [sscanf] *)

(** An unsigned number in a base; [0x] may precede it in base 16. *)
Definition scan_0x (base : Z) (s : cstr) : cstr :=
  match s with
  | z :: x :: s' =>
      if (base =? 16) && (code z =? 48) && ((code x =? 120) || (code x =? 88)) then s' else s
  | _ => s
  end.

Definition scan_ulong (base : Z) (s : cstr) : option (Z * cstr) :=
  let '(neg, s1) := scan_sign (skip_spaces s) in
  let s2 := scan_0x base s1 in
  match s2 with
  | c :: _ =>
      match digit_in base c with
      | Some _ =>
          let '(v, s3) := scan_digits base 0 s2 in
          Some (if ULONG_MAX <? v then ULONG_MAX else if neg : bool then u64 (- v) else v, s3)
      | None => None
      end
  | [] => None
  end.

(** An ordinary character of the format, and [%c]. *)
Definition scan_lit (c : ascii) (s : cstr) : option cstr :=
  match s with c' :: s' => if ascii_dec c c' then Some s' else None | [] => None end.

Definition scan_chr (s : cstr) : option (ascii * cstr) :=
  match s with c :: s' => Some (c, s') | [] => None end.

Fixpoint word_prefix (s : cstr) : cstr :=
  match s with c :: s' => if isspace c then [] else c :: word_prefix s' | [] => [] end.

(** [%s] preceded by white space: the first word of a text, empty if there is none. *)
Definition first_word (s : cstr) : cstr := word_prefix (skip_spaces s).

(** The size of the array [name] of an entry. *)
Definition NAME_SIZE : nat := 128.

(** [sscanf(buf, "%lx-%lx %c%c%c%c %llx %x:%x %lu %s", ...)] on an entry whose name is
    empty; [None] if fewer than ten conversions are made. *)
Definition scan_fields (pid : Z) (s : cstr) : option proc_entry :=
  '(vs, s) ← scan_ulong 16 s;
  s ← scan_lit "-" s;
  '(ve, s) ← scan_ulong 16 s;
  '(r, s) ← scan_chr (skip_spaces s);
  '(w, s) ← scan_chr s;
  '(x, s) ← scan_chr s;
  '(sh, s) ← scan_chr s;
  '(off, s) ← scan_ulong 16 s;
  '(maj, s) ← scan_ulong 16 s;
  s ← scan_lit ":" s;
  '(mnr, s) ← scan_ulong 16 s;
  '(ino, s) ← scan_ulong 10 s;
  Some (mk_pe vs ve r w x sh off (s32 maj) (s32 mnr) ino (first_word s) pid BuffNull).

(** The same into the array of the entry: [None] if the name, with the zero behind it, overruns
    the array, which is undefined behaviour. *)
Definition scan_entry (pid : Z) (s : cstr) : option (option proc_entry) :=
  match scan_fields pid s with
  | Some e => if (length (pe_name e) <? NAME_SIZE)%nat then Some (Some e) else None
  | None => Some None
  end.

(** ** [printf] *)

Definition SP : ascii := ascii_of_N 32.

Definition pad0 (w : nat) (s : cstr) : cstr := replicate (w - length s) (digit_chr 0) ++ s.
Definition ljust (w : nat) (s : cstr) : cstr := s ++ replicate (w - length s) SP.

(** [util_proc_maps_entry_print]: the text it prints. *)
Definition util_proc_maps_entry_print (e : proc_entry) : cstr :=
  pad0 8 (hex (pe_start e)) ++ "-"%char :: pad0 8 (hex (pe_end e)) ++
  SP :: pe_r e :: pe_w e :: pe_x e :: pe_s e ::
  SP :: pad0 8 (hex (pe_pgoff e)) ++
  SP :: pad0 2 (hex (u32 (pe_major e))) ++ ":"%char :: pad0 2 (hex (u32 (pe_minor e))) ++
  SP :: ljust 10 (dec (pe_ino e)) ++ SP :: pe_name e.

(** [util_proc_maps_print]. *)
Definition util_proc_maps_print (es : list proc_entry) : cstr :=
  mjoin ((λ e, util_proc_maps_entry_print e ++ [LF]) <$> es).

(** ** The loop over the file *)

(** The string in a buffer. *)
Fixpoint cstring (buf : cstr) : cstr :=
  match buf with c :: buf' => if ascii_dec c NUL then [] else c :: cstring buf' | [] => [] end.

Definition BUF_SIZE : nat := 5000.

(** What the loop of [util_proc_maps_parse_filter] scans, line by line, until [bufread]
    returns 0 or fails: every line but the last is at least one character of the file.  [None] if
    a name overruns its array. *)
Fixpoint read_lines (fuel : nat) (pid : Z) (buf : cstr) (b : read_buffer) (f : fdesc)
    : option (list (option proc_entry)) :=
  match fuel with
  | O => None
  | S fuel' =>
      '(n, s) ← bufread BUF_SIZE buf b f;
      if n <=? 0 then Some []
      else e ← scan_entry pid (cstring (st_dst s));
           l ← read_lines fuel' pid (st_dst s) (st_buf s) (st_fd s);
           Some (e :: l)
  end.

(** The file read from its start: [buf] and [iobuf] are the arrays on the stack, the I/O
    buffer empty. *)
Definition read_maps (pid : Z) (buf iobuf : cstr) (f : fdesc) : option (list (option proc_entry)) :=
  read_lines (S (length (fd_rest f))) pid buf (mk_rb iobuf (length iobuf)) f.

(** A system whose process map is the text of a file. *)
Record text_os := mk_text_os {
  to_pid : Z; to_file : option fdesc; to_buf : cstr; to_iobuf : cstr; to_mincore : Z → Z
}.

Definition vma_of (e : proc_entry) : vma := mk_vma (pe_start e) (pe_end e) (pe_w e) (pe_name e).
Definition map_entry_of (e : proc_entry) : map_entry := mk_entry (vma_of e) (code (pe_s e)).

Definition text_lines (o : text_os) : option (list (option map_entry)) :=
  match to_file o with
  | None => None
  | Some f => option_map (map (option_map map_entry_of)) (read_maps (to_pid o) (to_buf o) (to_iobuf o) f)
  end.

#[export] Instance text_procfs : ProcFs text_os := {
  maps_lines := text_lines;
  mincore_errno a o := to_mincore o a;
}.

(** ** Reading printed numbers *)

Definition hex_text (s : cstr) : Prop := Forall (λ c, is_Some (digit_in 16 c)) s.

Lemma hex_digit_facts c d :
  digit_in 16 c = Some d →
  isspace c = false ∧ code c ≠ 45 ∧ code c ≠ 43 ∧ code c ≠ 120 ∧ code c ≠ 88.
Proof.
  unfold digit_in, digit_val, isspace. set (n := code c).
  destruct (Z.leb_spec 48 n), (Z.leb_spec n 57), (Z.leb_spec 97 n), (Z.leb_spec n 122),
    (Z.leb_spec 65 n), (Z.leb_spec n 90); cbn [andb]; try discriminate; intros H';
    try (destruct (Z.ltb_spec (n - 87) 16); [|discriminate]);
    try (destruct (Z.ltb_spec (n - 55) 16); [|discriminate]);
    rewrite (proj2 (Z.eqb_neq n 32)) by lia;
    rewrite (proj2 (Z.leb_gt n 13)), andb_false_r by lia; cbn; lia.
Qed.

Lemma num_digits_hex base fuel n : 2 <= base <= 16 → hex_text (num_digits base fuel n []).
Proof.
  intros Hb. revert n. induction fuel as [|fuel IH]; intros n; [constructor|]. cbn [num_digits].
  assert (hex_text [digit_chr (n mod base)]) as H1.
  { constructor; [|constructor]. pose proof (Z.mod_pos_bound n base).
    rewrite digit_in_chr by lia. by eexists. }
  destruct (n <? base); [done|]. rewrite num_digits_app.
  apply Forall_app. split; [apply IH|done].
Qed.

Lemma pad0_hex w s : hex_text s → hex_text (pad0 w s).
Proof.
  intros H. apply Forall_app. split; [|done]. apply Forall_replicate. by exists 0.
Qed.

Lemma scan_digits_pad0 base w s t :
  2 <= base <= 16 → scan_digits base 0 (pad0 w s ++ t) = scan_digits base 0 (s ++ t).
Proof.
  intros Hb. unfold pad0. rewrite <- app_assoc. induction (w - length s)%nat as [|k IH]; [done|].
  cbn [replicate app scan_digits]. rewrite digit_in_chr by lia. exact IH.
Qed.

(** A text of at least [k] hexadecimal digits is no sign, no space and no prefix. *)
Lemma scan_ulong_digits base ds v c t :
  (base = 16 ∧ (2 <= length ds)%nat ∨ base = 10 ∧ ds ≠ []) → hex_text ds →
  (∀ d, head ds = Some d → is_Some (digit_in base d)) →
  scan_digits base 0 (ds ++ c :: t) = (v, c :: t) → v <= ULONG_MAX →
  scan_ulong base (ds ++ c :: t) = Some (v, c :: t).
Proof.
  intros Hb Hds Hhd Hs Hv. destruct ds as [|d ds]; [destruct Hb as [[_ Hl]|[_ ?]]; [cbn in Hl; lia|done]|].
  destruct (Forall_cons_1 _ _ _ Hds) as [[dv Hdv] Hds']. destruct (hex_digit_facts d dv Hdv) as (Hsp & H1 & H2 & _).
  unfold scan_ulong. cbn [app skip_spaces]. rewrite Hsp. cbn [scan_sign].
  rewrite (proj2 (Z.eqb_neq _ _) H1), (proj2 (Z.eqb_neq _ _) H2).
  assert (scan_0x base (d :: ds ++ c :: t) = d :: ds ++ c :: t) as ->.
  { destruct Hb as [[-> Hl]|[-> _]].
    - destruct ds as [|d2 ds]; [cbn in Hl; lia|]. destruct (Forall_cons_1 _ _ _ Hds') as [[dv2 Hdv2] _].
      destruct (hex_digit_facts d2 dv2 Hdv2) as (_ & _ & _ & H3 & H4).
      cbn [app scan_0x]. by rewrite (proj2 (Z.eqb_neq _ _) H3), (proj2 (Z.eqb_neq _ _) H4), andb_false_r.
    - cbn [scan_0x]. by destruct (ds ++ c :: t). }
  destruct (Hhd d eq_refl) as [dv' ->]. cbn [app] in Hs. rewrite Hs.
  by rewrite (proj2 (Z.ltb_ge _ _)).
Qed.

Lemma scan_digits_stop base v c t : digit_in base c = None → scan_digits base v (c :: t) = (v, c :: t).
Proof. intros H. cbn. by rewrite H. Qed.

Lemma length_pad0 w s : (w <= length (pad0 w s))%nat.
Proof. unfold pad0. rewrite length_app, length_replicate. lia. Qed.

Lemma scan_hex_digits w n c t :
  (2 <= w)%nat → 0 <= n <= ULONG_MAX → digit_in 16 c = None →
  scan_ulong 16 (pad0 w (hex n) ++ c :: t) = Some (n, c :: t).
Proof.
  intros Hw Hn Hc. unfold ULONG_MAX in Hn. pose proof (length_pad0 w (hex n)) as Hl.
  pose proof (pad0_hex w _ (num_digits_hex 16 16 n ltac:(lia))) as Hh. fold (hex n) in Hh.
  apply scan_ulong_digits; [left; split; [done|lia]|done| | |unfold ULONG_MAX; lia].
  - intros d Hd. destruct (pad0 w (hex n)); [done|]. cbn in Hd. injection Hd as ->.
    apply (Forall_cons_1 _ _ _ Hh).
  - rewrite scan_digits_pad0 by lia. unfold hex. rewrite <- num_digits_app.
    destruct (scan_num 16 16 n (c :: t)) as [-> _]; [lia|cbn; lia|lia|]. by apply scan_digits_stop.
Qed.

Lemma scan_udec n c t :
  0 <= n <= ULONG_MAX → digit_in 10 c = None →
  scan_ulong 10 (dec n ++ c :: t) = Some (n, c :: t).
Proof.
  intros Hn Hc. unfold ULONG_MAX in Hn.
  destruct (scan_num 10 20 n []) as (_ & d & s & Hs & Hd & _); [lia|cbn; lia|lia|].
  apply scan_ulong_digits; [right; split; [done|]|by apply num_digits_hex| | |unfold ULONG_MAX; lia].
  - unfold dec. by rewrite Hs.
  - unfold dec. rewrite Hs. intros ? [= <-]. rewrite digit_in_chr by lia. by eexists.
  - unfold dec. rewrite <- num_digits_app.
    destruct (scan_num 10 20 n (c :: t)) as [-> _]; [lia|cbn; lia|lia|]. by apply scan_digits_stop.
Qed.

(** ** The round trip of an entry *)

(** The entries the kernel writes: numbers that fit their types, a permission letter, a name
    without white space, and no copy of the memory. *)
Record entry_ok (e : proc_entry) : Prop := {
  ok_start : 0 <= pe_start e <= ULONG_MAX;
  ok_end : 0 <= pe_end e <= ULONG_MAX;
  ok_r : isspace (pe_r e) = false;
  ok_pgoff : 0 <= pe_pgoff e <= ULONG_MAX;
  ok_major : -2147483648 <= pe_major e < 2147483648;
  ok_minor : -2147483648 <= pe_minor e < 2147483648;
  ok_ino : 0 <= pe_ino e <= ULONG_MAX;
  ok_name : Forall (λ c, isspace c = false) (pe_name e);
  ok_buff : pe_buff e = BuffNull;
}.

Lemma skip_spaces_nonspace c s : isspace c = false → skip_spaces (c :: s) = c :: s.
Proof. intros H. cbn. by rewrite H. Qed.

Lemma word_prefix_app a c t :
  Forall (λ c, isspace c = false) a → isspace c = true → word_prefix (a ++ c :: t) = a.
Proof.
  intros Ha Hc. induction Ha as [|c' a H _ IH]; cbn; [by rewrite Hc|]. by rewrite H, IH.
Qed.

Lemma scan_ulong_sp base s : scan_ulong base (SP :: s) = scan_ulong base s.
Proof. done. Qed.

Lemma skip_pad k s : skip_spaces (replicate k SP ++ s) = skip_spaces s.
Proof. induction k as [|k IH]; [done|]. exact IH. Qed.

(** The name read behind the entry's own text. *)
Lemma first_word_name k name left :
  Forall (λ c, isspace c = false) name →
  first_word (replicate k SP ++ SP :: name ++ LF :: left)
  = if decide (name = []) then first_word left else name.
Proof.
  intros Hn. unfold first_word. rewrite skip_pad. destruct name as [|c name]; [done|].
  rewrite decide_False by done.
  destruct (Forall_cons_1 _ _ _ Hn) as [Hc _]. change (skip_spaces (SP :: (c :: name) ++ LF :: left))
    with (skip_spaces (c :: name ++ LF :: left)).
  rewrite skip_spaces_nonspace by done. change (c :: name ++ LF :: left) with ((c :: name) ++ LF :: left).
  by apply word_prefix_app.
Qed.

Definition set_name (n : cstr) (e : proc_entry) : proc_entry :=
  mk_pe (pe_start e) (pe_end e) (pe_r e) (pe_w e) (pe_x e) (pe_s e) (pe_pgoff e) (pe_major e)
    (pe_minor e) (pe_ino e) n (pe_pid e) (pe_buff e).

Lemma scan_lit_eq c s : scan_lit c (c :: s) = Some s.
Proof. cbn. by destruct ascii_dec. Qed.

Lemma s32_u32_id z : -2147483648 <= z < 2147483648 → s32 (u32 z) = z.
Proof.
  intros H. rewrite <- (s32_small z H) at 2. unfold s32, u32, swrap, uwrap. f_equal.
  by rewrite Z.add_mod_idemp_l.
Qed.

(** Scanning a printed entry, followed by the end of the line and the text [left] that the
    buffer holds behind it, returns the entry; if its name is empty, with the first word of
    [left] as its name. *)
Lemma scan_print e left :
  entry_ok e →
  scan_fields (pe_pid e) (util_proc_maps_entry_print e ++ LF :: left)
  = Some (set_name (if decide (pe_name e = []) then first_word left else pe_name e) e).
Proof.
  intros []. unfold util_proc_maps_entry_print, scan_fields.
  repeat (rewrite <- ?app_assoc; cbn [app]).
  pose proof (Z.mod_pos_bound (pe_major e) (2 ^ 32) ltac:(lia)) as Hmaj.
  pose proof (Z.mod_pos_bound (pe_minor e) (2 ^ 32) ltac:(lia)) as Hmin.
  assert (0 <= u32 (pe_major e) <= ULONG_MAX ∧ 0 <= u32 (pe_minor e) <= ULONG_MAX) as [Hm1 Hm2]
    by (unfold u32, uwrap, ULONG_MAX; lia).
  rewrite scan_hex_digits by (done || lia). cbn [mbind option_bind]. rewrite scan_lit_eq. cbn [mbind option_bind].
  rewrite scan_hex_digits by (done || lia). cbn [mbind option_bind].
  change (skip_spaces (SP :: ?x)) with (skip_spaces x).
  rewrite skip_spaces_nonspace by done. cbn [scan_chr mbind option_bind].
  rewrite scan_ulong_sp, scan_hex_digits by (done || lia). cbn [mbind option_bind].
  rewrite scan_ulong_sp, scan_hex_digits by (done || lia). cbn [mbind option_bind].
  rewrite scan_lit_eq. cbn [mbind option_bind].
  rewrite scan_hex_digits by (done || lia). cbn [mbind option_bind].
  rewrite scan_ulong_sp. unfold ljust. rewrite <- app_assoc.
  assert (∃ t, replicate (10 - length (dec (pe_ino e))) SP ++ SP :: pe_name e ++ LF :: left = SP :: t) as [t Et].
  { destruct (10 - length (dec (pe_ino e)))%nat; by eexists. }
  rewrite Et, scan_udec by done. cbn [mbind option_bind]. rewrite <- Et, first_word_name by done.
  rewrite !s32_u32_id by done. unfold set_name. by rewrite ok_buff0.
Qed.

(** ** Reading a file *)

(** A line the buffer has room for. *)
Definition line_ok (l : cstr) : Prop := ∃ a, l = a ++ [LF] ∧ plain a ∧ (length l < BUF_SIZE)%nat.

(** What is scanned of the lines [ls], each written over the previous one in [buf]. *)
Fixpoint scan_buf (pid : Z) (buf : cstr) (ls : list cstr) : option (list (option proc_entry)) :=
  match ls with
  | [] => Some []
  | l :: ls' =>
      let buf' := overwrite 0 l buf in
      e ← scan_entry pid (cstring buf'); es ← scan_buf pid buf' ls'; Some (e :: es)
  end.

Lemma next_line_join l ls : line_ok l → next_line (mjoin (l :: ls)) = (l, mjoin ls).
Proof.
  intros (a & -> & Ha & _). cbn [mjoin list_join]. rewrite <- app_assoc. by apply next_line_lf.
Qed.

(** The loop over a file of lines scans them in order, however the reads are divided. *)
Lemma read_lines_ok fuel pid buf b f ls :
  rb_inv b f (mjoin ls) → (0 < rb_ptr b)%nat → length buf = BUF_SIZE → Forall line_ok ls →
  (length ls < fuel)%nat →
  read_lines fuel pid buf b f = scan_buf pid buf ls.
Proof.
  revert buf b f ls. induction fuel as [|fuel IH]; intros buf b f ls Hi Hp Hb Hls Hf; [lia|].
  assert (length (next_line (mjoin ls)).1 < BUF_SIZE)%nat as Hlen.
  { destruct Hls as [|l ls Hl Hls]; [cbn; unfold BUF_SIZE; lia|].
    rewrite next_line_join by done. by destruct Hl as (? & _ & _ & ?). }
  destruct (bufread_line BUF_SIZE buf b f (mjoin ls)) as (b' & f' & E & Hi' & _ & Hp');
    [done|done|done|unfold BUF_SIZE; lia|lia|].
  cbn [read_lines]. rewrite E. cbn [mbind option_bind].
  destruct Hls as [|l ls Hl Hls].
  { by rewrite (proj2 (Z.leb_le _ _)) by (cbn; lia). }
  rewrite next_line_join in * by done. cbn [fst snd] in *.
  assert (0 < length l)%nat as Hl0 by (destruct Hl as (a & -> & _); rewrite length_app; cbn; lia).
  rewrite (proj2 (Z.leb_gt _ _)) by (cbn; lia). cbn [st_dst st_buf st_fd].
  rewrite (IH _ _ _ ls); [done|done|done| |done|cbn in Hf; lia].
  by rewrite length_overwrite by lia.
Qed.

Lemma line_ok_join ls : Forall line_ok ls → no_nul (mjoin ls) ∧ (length ls <= length (mjoin ls))%nat.
Proof.
  induction 1 as [|l ls (a & -> & Ha & _) _ [IH1 IH2]]; [split; [constructor|cbn; lia]|].
  change (mjoin ((a ++ [LF]) :: ls)) with ((a ++ [LF]) ++ mjoin ls).
  rewrite !length_app. split; [|cbn [length]; lia].
  apply Forall_app; split; [|done]. apply Forall_app; split; [by apply plain_no_nul|].
  by repeat constructor.
Qed.

Lemma read_maps_ok pid buf iobuf ev ls :
  length buf = BUF_SIZE → iobuf ≠ [] → no_fail ev → Forall line_ok ls →
  read_maps pid buf iobuf (mk_fdesc (mjoin ls) ev) = scan_buf pid buf ls.
Proof.
  intros Hb Hio Hev Hls. destruct (line_ok_join ls Hls) as [Hn Hl].
  assert (0 < length iobuf)%nat as H0 by (destruct iobuf; [done|cbn; lia]).
  apply read_lines_ok; [|done|done|done|by apply Nat.lt_succ_r].
  constructor; try done. exists [], 0%nat. cbn [rb_ptr rb_data fd_rest].
  split_and!; [by rewrite drop_all|done|lia].
Qed.

(** ** Files of printed entries *)

Definition print_line (e : proc_entry) : cstr := util_proc_maps_entry_print e ++ [LF].

(** Scanning the line of an entry into its array. *)
Lemma scan_line e left :
  entry_ok e →
  let n := if decide (pe_name e = []) then first_word left else pe_name e in
  scan_entry (pe_pid e) (print_line e ++ left)
  = if (length n <? NAME_SIZE)%nat then Some (Some (set_name n e)) else None.
Proof.
  intros He n. unfold print_line, scan_entry. rewrite <- app_assoc. cbn [app].
  by rewrite scan_print.
Qed.

(** An entry whose line [bufread] can return. *)
Definition entry_line_ok (e : proc_entry) : Prop := entry_ok e ∧ line_ok (print_line e).

(** An entry whose name fits its array. *)
Definition name_fits (e : proc_entry) : Prop := (length (pe_name e) < NAME_SIZE)%nat.

(** What is read of a file of printed entries. *)
Fixpoint parsed (buf : cstr) (es : list proc_entry) : list proc_entry :=
  match es with
  | [] => []
  | e :: es' =>
      set_name (if decide (pe_name e = [])
                then first_word (cstring (drop (length (print_line e)) buf)) else pe_name e) e
      :: parsed (overwrite 0 (print_line e) buf) es'
  end.

Lemma cstring_no_nul a t : no_nul a → cstring (a ++ t) = a ++ cstring t.
Proof. induction 1 as [|c a H _ IH]; [done|]. cbn. destruct ascii_dec; [done|]. by rewrite IH. Qed.

Lemma overwrite_0 l buf : overwrite 0 l buf = l ++ drop (length l) buf.
Proof. done. Qed.

Lemma scan_buf_printed pid buf es :
  Forall entry_line_ok es → Forall (λ e, pe_pid e = pid) es → Forall name_fits (parsed buf es) →
  scan_buf pid buf (print_line <$> es) = Some (Some <$> parsed buf es).
Proof.
  intros Hes Hpid. revert buf. induction Hes as [|e es [He Hl] _ IH]; intros buf Hfit; [done|].
  apply Forall_cons_1 in Hpid as [Hp Hpid]. apply Forall_cons_1 in Hfit as [Hf Hfit].
  cbn [fmap list_fmap scan_buf parsed].
  rewrite overwrite_0, cstring_no_nul.
  - subst pid. rewrite scan_line by done. rewrite (proj2 (Nat.ltb_lt _ _)) by exact Hf.
    cbn [mbind option_bind]. rewrite <- overwrite_0. by rewrite IH.
  - destruct Hl as (a & -> & Ha & _). apply Forall_app. split; [by apply plain_no_nul|].
    by repeat constructor.
Qed.

Lemma print_lines es : util_proc_maps_print es = mjoin (print_line <$> es).
Proof. done. Qed.

(** The map read from the text of printed entries. *)
Lemma read_printed pid buf iobuf ev es :
  length buf = BUF_SIZE → iobuf ≠ [] → no_fail ev → Forall entry_line_ok es →
  Forall (λ e, pe_pid e = pid) es → Forall name_fits (parsed buf es) →
  read_maps pid buf iobuf (mk_fdesc (util_proc_maps_print es) ev) = Some (Some <$> parsed buf es).
Proof.
  intros Hb Hio Hev Hes Hpid Hfit. rewrite print_lines, read_maps_ok, scan_buf_printed; try done.
  apply Forall_fmap, Forall_forall. intros e He. by apply (proj1 (Forall_forall _ _) Hes e He).
Qed.

Lemma set_name_id e : set_name (pe_name e) e = e.
Proof. by destruct e. Qed.

Lemma parsed_named buf es : Forall (λ e, pe_name e ≠ []) es → parsed buf es = es.
Proof.
  intros H. revert buf. induction H as [|e es He _ IH]; intros buf; [done|]. cbn [parsed].
  by rewrite decide_False, set_name_id, IH.
Qed.

(** C26: printing a process map and reading it back gives the map.  For entries whose numbers
    fit their types and whose names are words of 1 to 127 characters (a longer name overruns the
    array it is read into), on lines shorter than the buffer, the reader run on the printed text returns
    the same entries in the same order, whatever the arrays held before, however [read]
    divides the file into pieces and however often it is interrupted. *)
Theorem maps_print_read_roundtrip pid buf iobuf ev es :
  length buf = BUF_SIZE → iobuf ≠ [] → no_fail ev →
  Forall entry_line_ok es → Forall (λ e, pe_pid e = pid) es → Forall (λ e, pe_name e ≠ []) es →
  Forall name_fits es →
  read_maps pid buf iobuf (mk_fdesc (util_proc_maps_print es) ev) = Some (Some <$> es).
Proof. intros. by rewrite read_printed, parsed_named; [..|rewrite parsed_named]. Qed.

(** A printed entry with a longer name is not read: the name overruns its array. *)
Theorem long_name_overruns pid buf iobuf ev e es :
  length buf = BUF_SIZE → iobuf ≠ [] → no_fail ev → Forall entry_line_ok (e :: es) →
  pe_pid e = pid → (NAME_SIZE <= length (pe_name e))%nat →
  read_maps pid buf iobuf (mk_fdesc (util_proc_maps_print (e :: es)) ev) = None.
Proof.
  intros Hb Hio Hev Hes Hp Hlen. rewrite print_lines, read_maps_ok; try done.
  - apply Forall_cons_1 in Hes as [[He (a & Ea & Ha & _)] _]. cbn [fmap list_fmap scan_buf].
    rewrite overwrite_0, cstring_no_nul.
    + subst pid. rewrite scan_line by done. rewrite decide_False by (intros E; rewrite E in Hlen; cbn in Hlen; unfold NAME_SIZE in Hlen; lia).
      by rewrite (proj2 (Nat.ltb_ge _ _)).
    + rewrite Ea. apply Forall_app. split; [by apply plain_no_nul|]. by repeat constructor.
  - apply Forall_fmap, Forall_forall. intros e' He'. by apply (proj1 (Forall_forall _ _) Hes e' He').
Qed.

(** An anonymous mapping gets the name an earlier line left in the buffer.  If a mapping
    with a name is followed by one without whose line is not longer, the second is read
    with the first word of what its line does not cover of the first's as its name. *)
Theorem maps_anonymous_stale_name pid buf iobuf ev e1 e2 :
  length buf = BUF_SIZE → iobuf ≠ [] → no_fail ev →
  Forall entry_line_ok [e1; e2] → Forall (λ e, pe_pid e = pid) [e1; e2] →
  pe_name e1 ≠ [] → pe_name e2 = [] → (length (print_line e2) <= length (print_line e1))%nat →
  name_fits e1 →
  (length (first_word (drop (length (print_line e2)) (print_line e1)
                       ++ cstring (drop (length (print_line e1)) buf))) < NAME_SIZE)%nat →
  read_maps pid buf iobuf (mk_fdesc (util_proc_maps_print [e1; e2]) ev)
  = Some [Some e1;
          Some (set_name (first_word (drop (length (print_line e2)) (print_line e1)
                                      ++ cstring (drop (length (print_line e1)) buf))) e2)].
Proof.
  intros Hb Hio Hev Hes Hpid H1 H2 Hl Hf1 Hf2.
  set (w := first_word _) in *.
  assert (parsed buf [e1; e2] = [e1; set_name w e2]) as Hp.
  { cbn [parsed]. rewrite decide_False, set_name_id, decide_True by done. do 3 f_equal.
    rewrite overwrite_0, drop_app_le by done. unfold w. f_equal. apply cstring_no_nul.
    apply Forall_drop. apply Forall_cons_1 in Hes as [[_ (a & -> & Ha & _)] _].
    apply Forall_app. split; [by apply plain_no_nul|]. by repeat constructor. }
  rewrite read_printed; try done; rewrite Hp; [done|]. constructor; [done|]. by constructor; [|constructor].
Qed.

(** ** Examples *)

Definition plainb (s : cstr) : bool :=
  forallb (λ c, negb (Ascii.eqb c LF) && negb (Ascii.eqb c NUL)) s.

Lemma plainb_plain s : plainb s = true → plain s.
Proof.
  intros H.
  apply Forall_forall. intros c Hc. unfold plainb in H.
  rewrite List.forallb_forall in H. specialize (H c Hc).
  apply andb_prop in H as [H1%negb_true_iff H2%negb_true_iff].
  split; by apply Ascii.eqb_neq.
Qed.

Lemma print_line_ok e :
  plainb (util_proc_maps_entry_print e) = true → (length (print_line e) < BUF_SIZE)%nat →
  line_ok (print_line e).
Proof. intros H ?. exists (util_proc_maps_entry_print e). split_and!; [done|by apply plainb_plain|done]. Qed.

Definition ex_lib : proc_entry :=
  mk_pe 0x7f5c8a1d3000 0x7f5c8a1d4000 "r" "w" "-" "p" 0x1000 8 1 1234567 (lit "/lib/libc.so") 42 BuffNull.
Definition ex_anon : proc_entry :=
  mk_pe 0x7f5c8a1d4000 0x7f5c8a1e0000 "r" "w" "-" "p" 0 0 0 0 [] 42 BuffNull.

Lemma ex_lib_ok : entry_line_ok ex_lib.
Proof.
  split; [|apply print_line_ok; [by vm_compute|vm_compute; lia]].
  constructor; try done; cbn; unfold ULONG_MAX; (lia || by repeat constructor).
Qed.

Lemma ex_anon_ok : entry_line_ok ex_anon.
Proof.
  split; [|apply print_line_ok; [by vm_compute|vm_compute; lia]].
  constructor; try done; cbn; unfold ULONG_MAX; (lia || by repeat constructor).
Qed.

Definition ex_buf : cstr := replicate BUF_SIZE NUL.
Definition ex_iobuf : cstr := replicate 4999 NUL.

Lemma ex_buf_len : length ex_buf = BUF_SIZE.
Proof. apply length_replicate. Qed.

Lemma maps_print_read_roundtrip_witness :
  read_maps 42 ex_buf ex_iobuf
    (mk_fdesc (util_proc_maps_print [ex_lib; ex_lib]) [RdEintr; RdBytes 9; RdBytes 60])
  = Some [Some ex_lib; Some ex_lib].
Proof.
  apply (maps_print_read_roundtrip 42 ex_buf ex_iobuf _ [ex_lib; ex_lib]).
  - apply ex_buf_len.
  - discriminate.
  - by repeat constructor.
  - repeat constructor; apply ex_lib_ok.
  - by repeat constructor.
  - by repeat constructor.
  - repeat constructor; vm_compute; lia.
Defined.

Lemma maps_anonymous_stale_name_witness :
  read_maps 42 ex_buf ex_iobuf (mk_fdesc (util_proc_maps_print [ex_lib; ex_anon]) [])
  = Some [Some ex_lib; Some (set_name (lit "lib/libc.so") ex_anon)].
Proof.
  rewrite (maps_anonymous_stale_name 42 ex_buf ex_iobuf [] ex_lib ex_anon).
  - reflexivity.
  - apply ex_buf_len.
  - discriminate.
  - constructor.
  - constructor; [apply ex_lib_ok|]. constructor; [apply ex_anon_ok|constructor].
  - by repeat constructor.
  - discriminate.
  - reflexivity.
  - vm_compute. lia.
  - vm_compute. lia.
  - vm_compute. lia.
Defined.

(** A map in the kernel's format: a thread's stack, and an anonymous mapping behind it. *)
Definition ex_os : text_os :=
  mk_text_os 42
    (Some (mk_fdesc (lit "7f5c8a1d3000-7f5c8a1d4000 rw-p 00000000 00:00 0                          [stack:4242]
7f5c8a1d4000-7f5c8a1e0000 rw-p 00000000 00:00 0 
") [])) ex_buf ex_iobuf (λ _, EFAULT).

Definition ex_stack_vma : vma :=
  mk_vma 0x7f5c8a1d3000 0x7f5c8a1d4000 "w" (lit "[stack:4242]").
Definition ex_anon_vma (name : cstr) : vma := mk_vma 0x7f5c8a1d4000 0x7f5c8a1e0000 "w" name.

(** The anonymous mapping is taken for a stack: it is left out of the checkpoint, which its
    own, empty name would not make it. *)
Theorem stale_name_not_checkpointed :
  text_lines ex_os
  = Some [Some (mk_entry ex_stack_vma 112); Some (mk_entry (ex_anon_vma (lit "[stack:4242]")) 112)] ∧
  ltcpt_is_checkpointed_vma 0 0 0 ctx0 (ex_anon_vma (lit "[stack:4242]")) = false ∧
  ltcpt_is_checkpointed_vma 0 0 0 ctx0 (ex_anon_vma []) = true.
Proof. split_and!; by vm_compute. Qed.

(** A read that fails ends the map as the end of the file would: the parser reports
    success on what it has. *)
Theorem read_error_is_eof pid buf iobuf s ev :
  (1 < length iobuf)%nat → read_maps pid buf iobuf (mk_fdesc s (RdFail :: ev)) = Some [].
Proof.
  intros H. unfold read_maps. cbn [read_lines fd_rest]. unfold bufread. cbn [rb_ptr].
  change (rb_end (mk_rb iobuf (length iobuf))) with (length iobuf).
  rewrite (proj2 (Nat.leb_gt _ _)), (proj2 (Nat.ltb_ge _ _)) by lia. cbn [orb].
  rewrite loop_step, copy_end by done. cbn [st_buf rb_ptr st_fd fd_events fill].
  change (rb_end (mk_rb iobuf (length iobuf))) with (length iobuf).
  rewrite Nat.eqb_refl, (proj2 (Nat.eqb_neq (length iobuf) 0)) by lia. done.
Qed.
