(* ===== verification/ProcInfo.v ===== *)
(** * Areas of the process map

    [include/common/util/proc_maps.h]: the predicates on entries, the removal of entries,
    the look-ups, and [util_proc_maps_get_info], which sorts the mappings of a process into
    the program, its heap, its libraries and the rest.  [Shadow] uses the areas.

    The array of entries is a list, a pointer into it an index.  [util_proc_maps_get_info]
    returns [None] where the code would read outside the array or fail its assertion. *)
From stdpp Require Import base numbers list strings option.
From Stdlib Require Import ZArith Lia Ascii.
From S2P Require Import Prelude Memory CString Ctx Profiling Writelog Common BufRead ProcMaps ProcScan.

(** ** Predicates *)

(** [UTIL_PROC_MAPS_ENTRY_CONTAINS_ADDR], [..._OVERLAPS] and the comparisons of entries. *)
Definition CONTAINS_ADDR (e : proc_entry) (a : Z) : bool := (pe_start e <=? a) && (a <? pe_end e).

Definition OVERLAPS (e e2 : proc_entry) : bool :=
  CONTAINS_ADDR e (pe_start e2) || CONTAINS_ADDR e (u64 (pe_end e2 - 1))
  || CONTAINS_ADDR e2 (pe_start e) || CONTAINS_ADDR e2 (u64 (pe_end e - 1)).

Definition RANGE_EQUALS (e e2 : proc_entry) : bool :=
  (pe_start e =? pe_start e2) && (pe_end e =? pe_end e2).

Definition PROT_EQUALS (e e2 : proc_entry) : bool :=
  Ascii.eqb (pe_r e) (pe_r e2) && Ascii.eqb (pe_w e) (pe_w e2) && Ascii.eqb (pe_x e) (pe_x e2).

Definition SHARED_EQUALS (e e2 : proc_entry) : bool := Ascii.eqb (pe_s e) (pe_s e2).

Definition NAME_EQUALS_STR (e : proc_entry) (n : cstr) : bool := bool_decide (pe_name e = n).
Definition NAME_EQUALS (e e2 : proc_entry) : bool := NAME_EQUALS_STR e (pe_name e2).
Definition NAME_STARTS (e : proc_entry) (n : cstr) : bool := starts_with n (pe_name e).

Definition ENTRY_SIZE (e : proc_entry) : Z := u64 (pe_end e - pe_start e).

Definition IS_ANON (e : proc_entry) : bool := NAME_EQUALS_STR e [].
Definition IS_STACK (e : proc_entry) : bool := NAME_STARTS e (lit "[stack").
Definition IS_VDSO (e : proc_entry) : bool := NAME_EQUALS_STR e (lit "[vdso]").
Definition IS_VSYSCALL (e : proc_entry) : bool := NAME_EQUALS_STR e (lit "[vsyscall]").
Definition IS_LIB (e : proc_entry) : bool :=
  NAME_STARTS e (lit "/lib/") || NAME_STARTS e (lit "/usr/lib/").
Definition IS_MMAP (e : proc_entry) : bool := IS_ANON e || IS_LIB e.

(** ** Look-ups *)

(** The first index from [i] on at which a predicate holds. *)
Fixpoint find_from (p : proc_entry → bool) (i : nat) (es : list proc_entry) : option nat :=
  match es with
  | [] => None
  | e :: es' => if p e then Some i else find_from p (S i) es'
  end.

Definition util_proc_maps_lookup_by_name (es : list proc_entry) (name : cstr) : option nat :=
  find_from (λ e, NAME_EQUALS_STR e name) 0 es.

Definition util_proc_maps_lookup_by_addr (es : list proc_entry) (addr : Z) : option nat :=
  find_from (λ e, CONTAINS_ADDR e addr) 0 es.

(** The entry whose predecessor is at index [prev]: the loop from index [i] over the last
    [k] entries. *)
Fixpoint prev_loop (k i prev : nat) : option nat :=
  match k with
  | O => None
  | S k' => if Nat.eqb (i - 1) prev then Some i else prev_loop k' (S i) prev
  end.

Definition util_proc_maps_lookup_by_prev (es : list proc_entry) (prev : nat) : option nat :=
  prev_loop (length es - 1) 1 prev.

(** ** Removal *)

(** [util_proc_maps_entry_remove]; [None] if its assertion fails. *)
Definition util_proc_maps_entry_remove (es : list proc_entry) (i : nat) : option (list proc_entry) :=
  if Nat.ltb i (length es) then Some (take i es ++ drop (S i) es) else None.

(** The loop of [util_proc_maps_remove_unmapped] as it is written, over indices: [mapped] is
    the answer of [util_proc_maps_entry_mapped]; [fuel] bounds the passes. *)
Fixpoint remove_loop (mapped : proc_entry → bool) (fuel i : nat) (es : list proc_entry)
    : option (list proc_entry) :=
  if Nat.ltb i (length es) then
    match fuel, es !! i with
    | S fuel', Some e =>
        if mapped e then remove_loop mapped fuel' (S i) es
        else es' ← util_proc_maps_entry_remove es i; remove_loop mapped fuel' i es'
    | _, _ => None
    end
  else Some es.

(** ** The areas *)

(** The entries the loop of [util_proc_maps_get_info] finds, by index, and their number. *)
Record scan := mk_scan {
  first_lib : option nat; last_lib : option nat; first_mmap : option nat; last_mmap : option nat;
  prog_text : option nat; prog_ro : option nat; prog_data : option nat; heap : option nat;
  stack : option nat; vdso : option nat; vsyscall : option nat; found : nat
}.

(** [util_proc_maps_info_t]. *)
Record proc_info := mk_info {
  i_vm : proc_entry; i_prog : proc_entry; i_mmap : proc_entry; i_libs : proc_entry;
  i_scan : scan; i_entries : list proc_entry
}.

Definition is_none {A} (o : option A) : bool := match o with None => true | Some _ => false end.

(** An area of the map: [SET_PROT(.., "rwx")] and [SET_SHARED]. *)
Definition area (pid : Z) (name : cstr) (vs ve : Z) (shared : bool) : proc_entry :=
  mk_pe vs ve "r" "w" "x" (if shared then "s" else "p")%char 0 0 0 0 name pid BuffNull.

Section GetInfo.

(** The addresses of [main], of [__data_start] and of a block of the heap. *)
Context (main_addr data_addr heap_addr : Z).

Definition PROG_RO_ADDR : Z := u64 (data_addr / PAGE_SIZE * PAGE_SIZE - 1).

Definition IS_PROG_TEXT (e : proc_entry) : bool := CONTAINS_ADDR e main_addr.
Definition IS_PROG_RO (e : proc_entry) : bool := CONTAINS_ADDR e PROG_RO_ADDR.
Definition IS_PROG_DATA (e : proc_entry) : bool := CONTAINS_ADDR e data_addr.
Definition IS_HEAP (e : proc_entry) : bool := CONTAINS_ADDR e heap_addr.

(** One pass of the loop, at index [i]. *)
Definition scan_step (i : nat) (e : proc_entry) (s : scan) : scan :=
  let '(mk_scan fl ll fm lm pt pr pd h st vd vs n) := s in
  let '(fl, ll, skip) :=
    if IS_LIB e then (if is_none fl then Some i else fl, Some i, true) else (fl, ll, false) in
  let '(fm, lm, skip) :=
    if IS_MMAP e then (if is_none fm then Some i else fm, lm, true)
    else (fm, if negb (is_none fm) && is_none lm then Some (i - 1)%nat else lm, skip) in
  if skip : bool then mk_scan fl ll fm lm pt pr pd h st vd vs n
  else if is_none pt && IS_PROG_TEXT e then mk_scan fl ll fm lm (Some i) pr pd h st vd vs (S n)
  else if is_none pr && IS_PROG_RO e then mk_scan fl ll fm lm pt (Some i) pd h st vd vs (S n)
  else if is_none pd && IS_PROG_DATA e then mk_scan fl ll fm lm pt pr (Some i) h st vd vs (S n)
  else if is_none h && IS_HEAP e then mk_scan fl ll fm lm pt pr pd (Some i) st vd vs (S n)
  else if is_none st && IS_STACK e then mk_scan fl ll fm lm pt pr pd h (Some i) vd vs (S n)
  else if is_none vd && IS_VDSO e then mk_scan fl ll fm lm pt pr pd h st (Some i) vs (S n)
  else if is_none vs && IS_VSYSCALL e then mk_scan fl ll fm lm pt pr pd h st vd (Some i) (S n)
  else mk_scan fl ll fm lm pt pr pd h st vd vs n.

Fixpoint scan_loop (i : nat) (es : list proc_entry) (s : scan) : scan :=
  match es with
  | [] => s
  | e :: es' => scan_loop (S i) es' (scan_step i e s)
  end.

Definition scan0 : scan := mk_scan None None None None None None None None None None None 4.

(** [p ? p->field : 0]. *)
Definition field_or_0 (es : list proc_entry) (p : option nat) (fld : proc_entry → Z) : Z :=
  match p with
  | Some i => match es !! i with Some e => fld e | None => 0 end
  | None => 0
  end.

(** The end of the [libs] area: the end of the last library, or of the anonymous entry right
    behind it; [None] if that entry is outside the array. *)
Definition libs_end (es : list proc_entry) (vm_last : Z) (ll : option nat) : option Z :=
  let e := field_or_0 es ll pe_end in
  if truthy e && (e <? vm_last) then
    match ll with
    | Some i =>
        match es !! S i with
        | Some nxt =>
            if pe_start nxt =? e then Some (if IS_ANON nxt then pe_end nxt else e) else Some e
        | None => None
        end
    | None => Some e
    end
  else Some e.

Definition util_proc_maps_get_info (pid : Z) (es : list proc_entry) : option proc_info :=
  let s := scan_loop 0 es scan0 in
  efirst ← es !! 0%nat;
  elast ← es !! (length es - 1)%nat;
  let vm := area pid (lit "[vm]") (pe_start efirst) (pe_end elast) false in
  let prog := area pid (lit "[prog]") (field_or_0 es (prog_text s) pe_start)
                (field_or_0 es (prog_data s) pe_end) false in
  let mmap := area pid (lit "[mmap]") (field_or_0 es (first_mmap s) pe_start)
                (field_or_0 es (last_mmap s) pe_end) false in
  le ← libs_end es (pe_end vm) (last_lib s);
  let libs := area pid (lit "[libs]") (field_or_0 es (first_lib s) pe_start) le true in
  let entries := [vm; prog; mmap; libs] ++
    omap (λ p, p ≫= λ i, es !! i)
      [prog_text s; prog_ro s; prog_data s; heap s; stack s; vdso s; vsyscall s] in
  if Nat.eqb (length entries) (found s) then Some (mk_info vm prog mmap libs s entries) else None.

End GetInfo.

(** ** Look-ups and removal *)

Lemma find_from_Some p k es j :
  find_from p k es = Some j ↔
  (k <= j)%nat ∧ (∃ e, es !! (j - k)%nat = Some e ∧ p e = true) ∧
  ∀ i e, (i < j - k)%nat → es !! i = Some e → p e = false.
Proof.
  revert k. induction es as [|e es IH]; intros k; cbn [find_from].
  - split; [done|]. intros (_ & (e & He & _) & _). by rewrite lookup_nil in He.
  - destruct (p e) eqn:E.
    + split.
      * intros [= <-]. rewrite Nat.sub_diag. split_and!; [lia|by exists e|lia].
      * intros (Hk & _ & Hf). destruct (decide (j = k)) as [->|Hne]; [done|].
        specialize (Hf 0%nat e ltac:(lia) eq_refl). congruence.
    + rewrite IH. split.
      * intros (Hk & (e' & He' & Hp) & Hf). split; [lia|].
        replace (j - k)%nat with (S (j - S k)) by lia. split; [by exists e'|].
        intros [|i] e'' Hi Hl; [by simplify_eq/=|]. apply (Hf i); [lia|done].
      * intros (Hk & (e' & He' & Hp) & Hf).
        assert (j ≠ k). { intros ->. rewrite Nat.sub_diag in He'. simplify_eq/=. congruence. }
        replace (j - k)%nat with (S (j - S k)) in He', Hf by lia. split_and!; [lia|by exists e'|].
        intros i e'' Hi Hl. apply (Hf (S i)); [lia|done].
Qed.

Lemma find_from_None p k es : find_from p k es = None ↔ Forall (λ e, p e = false) es.
Proof.
  revert k. induction es as [|e es IH]; intros k; cbn [find_from]; [done|].
  rewrite Forall_cons_iff. destruct (p e); [split; [done|by intros [? _]]|]. rewrite IH. tauto.
Qed.

Lemma prev_loop_spec k i prev :
  (0 < i)%nat →
  prev_loop k i prev = if Nat.leb i (S prev) && Nat.ltb (S prev) (i + k) then Some (S prev) else None.
Proof.
  revert i. induction k as [|k IH]; intros i Hi; cbn [prev_loop].
  - destruct (Nat.leb_spec i (S prev)), (Nat.ltb_spec (S prev) (i + 0)); cbn; (done || lia).
  - rewrite IH by lia. destruct (Nat.eqb_spec (i - 1) prev), (Nat.leb_spec i (S prev)),
      (Nat.leb_spec (S i) (S prev)), (Nat.ltb_spec (S prev) (S i + k)),
      (Nat.ltb_spec (S prev) (i + S k)); cbn; (lia || (f_equal; lia) || done).
Qed.

(** The look-ups return the first matching entry, and NULL exactly if there is none; the
    look-up by predecessor returns the next entry of the array, NULL for the last. *)
Theorem lookups_exact es name addr prev :
  (∀ j, util_proc_maps_lookup_by_name es name = Some j ↔
    (∃ e, es !! j = Some e ∧ pe_name e = name) ∧
    ∀ i e, (i < j)%nat → es !! i = Some e → pe_name e ≠ name) ∧
  (∀ j, util_proc_maps_lookup_by_addr es addr = Some j ↔
    (∃ e, es !! j = Some e ∧ pe_start e <= addr < pe_end e) ∧
    ∀ i e, (i < j)%nat → es !! i = Some e → ¬ pe_start e <= addr < pe_end e) ∧
  util_proc_maps_lookup_by_prev es prev
  = if Nat.ltb (S prev) (length es) then Some (S prev) else None.
Proof.
  assert (Hc : ∀ e, CONTAINS_ADDR e addr = true ↔ pe_start e <= addr < pe_end e)
    by (intros e; unfold CONTAINS_ADDR; rewrite andb_true_iff, Z.leb_le, Z.ltb_lt; done).
  split_and!.
  - intros j. unfold util_proc_maps_lookup_by_name. rewrite find_from_Some, Nat.sub_0_r.
    unfold NAME_EQUALS_STR. setoid_rewrite bool_decide_eq_true. setoid_rewrite bool_decide_eq_false.
    split; [tauto|]. intros ?. split; [lia|done].
  - intros j. unfold util_proc_maps_lookup_by_addr. rewrite find_from_Some, Nat.sub_0_r.
    setoid_rewrite <- not_true_iff_false. setoid_rewrite Hc.
    split; [tauto|]. intros ?. split; [lia|done].
  - unfold util_proc_maps_lookup_by_prev. rewrite prev_loop_spec by lia. cbn [Nat.leb andb].
    destruct (Nat.ltb_spec (S prev) (1 + (length es - 1))), (Nat.ltb_spec (S prev) (length es));
      (done || lia).
Qed.

Lemma remove_loop_ok mapped fuel i es :
  (length es - i <= fuel)%nat →
  remove_loop mapped fuel i es = Some (take i es ++ List.filter mapped (drop i es)).
Proof.
  revert i es. induction fuel as [|fuel IH]; intros i es Hf.
  - cbn [remove_loop]. rewrite (proj2 (Nat.ltb_ge i (length es))) by lia.
    by rewrite take_ge, drop_ge, app_nil_r by lia.
  - cbn [remove_loop]. destruct (Nat.ltb_spec i (length es)) as [Hi|Hi].
    + destruct (lookup_lt_is_Some_2 es i Hi) as [e He]. rewrite He.
      rewrite (drop_S _ _ _ He). cbn [List.filter]. destruct (mapped e) eqn:E.
      * rewrite IH by lia. rewrite (take_S_r _ _ _ He). by rewrite <- app_assoc.
      * unfold util_proc_maps_entry_remove. rewrite (proj2 (Nat.ltb_lt _ _)) by done.
        cbn [mbind option_bind]. rewrite IH by (rewrite length_app, length_take, length_drop; lia).
        assert (length (take i es) = i) as Hl by (rewrite length_take; lia).
        by rewrite take_app_length', drop_app_length' by done.
    + by rewrite take_ge, drop_ge, app_nil_r by lia.
Qed.

(** Removing the stale entries in place, one by one, with the index set back after each
    removal, keeps exactly the mapped entries in their order, in as many passes as there
    are entries. *)
Theorem remove_loop_is_filter mapped es :
  remove_loop mapped (length es) 0 es = Some (List.filter mapped es).
Proof. by rewrite remove_loop_ok by lia. Qed.

(** ** The loop of [util_proc_maps_get_info] *)

(** What an entry can be claimed as, in the order of the tests. *)
Fixpoint claim (i : nat) (bs : list bool) (fs : list (option nat)) : list (option nat) * bool :=
  match bs, fs with
  | b :: bs', f :: fs' =>
      if is_none f && b then (Some i :: fs', true)
      else let '(r, t) := claim i bs' fs' in (f :: r, t)
  | _, _ => (fs, false)
  end.

Lemma claim_lookup i bs fs n f :
  fs !! n = Some f →
  (claim i bs fs).1 !! n = Some f ∨
  f = None ∧ (claim i bs fs).1 !! n = Some (Some i) ∧ bs !! n = Some true.
Proof.
  revert bs n. induction fs as [|g fs IH]; intros [|b bs] n Hn; try (by left).
  cbn [claim]. destruct (is_none g && b) eqn:E.
  - destruct n as [|n]; [|by left]. right. apply andb_prop in E as [E ->]. destruct g; [done|].
    by simplify_eq/=.
  - specialize (IH bs). destruct (claim i bs fs) as [r t]. destruct n as [|n]; [by left|].
    by apply (IH n).
Qed.

Lemma claim_complete i bs fs n :
  bs !! n = Some true → (∀ m, (m < n)%nat → bs !! m = Some false) → (claim i bs fs).1 !! n ≠ Some None.
Proof.
  revert bs n. induction fs as [|g fs IH]; intros [|b bs] n Hn Hlt; try done.
  cbn [claim]. destruct n as [|n].
  - simplify_eq/=. rewrite andb_true_r. destruct g; [|done]. cbn. by destruct (claim i bs fs).
  - assert (b = false) as -> by (specialize (Hlt 0%nat ltac:(lia)); by simplify_eq/=).
    rewrite andb_false_r. specialize (IH bs n Hn).
    destruct (claim i bs fs) as [r t]. cbn. apply IH. intros m Hm. apply (Hlt (S m)). lia.
Qed.

Lemma claim_count i bs fs :
  length (omap id (claim i bs fs).1) = (length (omap id fs) + if (claim i bs fs).2 then 1 else 0)%nat.
Proof.
  revert bs. induction fs as [|g fs IH]; intros [|b bs]; try (symmetry; apply Nat.add_0_r).
  cbn [claim]. specialize (IH bs). destruct (claim i bs fs) as [r t]. cbn [fst snd] in IH.
  destruct g as [k|]; [|destruct b]; cbn [is_none andb fst snd].
  - change (omap id (Some k :: ?l)) with (k :: omap id l). cbn [length]. lia.
  - change (omap id (Some i :: fs)) with (i :: omap id fs).
    change (omap id (None :: fs)) with (omap id fs). cbn [length]. lia.
  - exact IH.
Qed.

Lemma claim_length i bs fs : length (claim i bs fs).1 = length fs.
Proof.
  revert bs. induction fs as [|g fs IH]; intros [|b bs]; try done. cbn [claim].
  destruct (is_none g && b); [done|]. specialize (IH bs). destruct (claim i bs fs). cbn in *. lia.
Qed.

Lemma claim_one i bs fs n m :
  (∀ k, fs !! k ≠ Some (Some i)) →
  (claim i bs fs).1 !! n = Some (Some i) → (claim i bs fs).1 !! m = Some (Some i) → n = m.
Proof.
  revert bs n m. induction fs as [|g fs IH]; intros [|b bs] n m Hno; try (by intros ?%Hno).
  assert (Hno' : ∀ k, fs !! k ≠ Some (Some i)) by (intros k; apply (Hno (S k))).
  cbn [claim]. destruct (is_none g && b) eqn:E.
  - destruct n, m; cbn; try done; intros; exfalso; by eapply Hno'.
  - specialize (IH bs). destruct (claim i bs fs) as [r t]. destruct n as [|n], m as [|m]; cbn; try done.
    + intros [= ->]. by destruct (Hno 0%nat).
    + intros _ [= ->]. by destruct (Hno 0%nat).
    + intros. f_equal. by apply IH.
Qed.

Section Scan.
Context (main_addr data_addr heap_addr : Z).
Local Abbreviation step := (scan_step main_addr data_addr heap_addr).
Local Abbreviation loop := (scan_loop main_addr data_addr heap_addr).

(** The tests, in order, and the fields they set. *)
Definition tests : list (proc_entry → bool) :=
  [IS_PROG_TEXT main_addr; IS_PROG_RO data_addr; IS_PROG_DATA data_addr; IS_HEAP heap_addr;
   IS_STACK; IS_VDSO; IS_VSYSCALL].
Definition fields (s : scan) : list (option nat) :=
  [prog_text s; prog_ro s; prog_data s; heap s; stack s; vdso s; vsyscall s].

Lemma step_fields i e s :
  fields (step i e s) =
    (if IS_MMAP e then fields s else (claim i ((λ p, p e) <$> tests) (fields s)).1) ∧
  found (step i e s) =
    (found s + if IS_MMAP e then 0
               else if (claim i ((λ p, p e) <$> tests) (fields s)).2 then 1 else 0)%nat.
Proof.
  destruct s as [fl ll fm lm pt pr pd h st vd vs n]. unfold scan_step, fields, tests.
  destruct (IS_MMAP e) eqn:Em.
  - destruct (IS_LIB e); cbn; split; (done || lia).
  - assert (IS_LIB e = false) as ->.
    { unfold IS_MMAP in Em. by apply orb_false_elim in Em as [_ ?]. }
    cbn [fmap list_fmap claim prog_text prog_ro prog_data heap stack vdso vsyscall found].
    repeat match goal with |- context [if ?b && ?c then mk_scan _ _ _ _ _ _ _ _ _ _ _ _ else _] =>
      destruct (b && c) end; cbn; split; (done || lia).
Qed.

Lemma step_libs i e s :
  first_lib (step i e s) = (if IS_LIB e && is_none (first_lib s) then Some i else first_lib s) ∧
  last_lib (step i e s) = (if IS_LIB e then Some i else last_lib s) ∧
  first_mmap (step i e s) = (if IS_MMAP e && is_none (first_mmap s) then Some i else first_mmap s) ∧
  last_mmap (step i e s) =
    (if negb (IS_MMAP e) && negb (is_none (first_mmap s)) && is_none (last_mmap s)
     then Some (i - 1)%nat else last_mmap s).
Proof.
  destruct s as [fl ll fm lm pt pr pd h st vd vs n]. unfold scan_step.
  destruct (IS_MMAP e) eqn:Em.
  - destruct (IS_LIB e); cbn; by split_and!.
  - assert (IS_LIB e = false) as ->.
    { unfold IS_MMAP in Em. by apply orb_false_elim in Em as [_ ?]. }
    repeat match goal with |- context [if ?b && ?c then mk_scan _ _ _ _ _ _ _ _ _ _ _ _ else _] =>
      destruct (b && c) end; cbn; by split_and!.
Qed.

(** Induction over the entries the loop has passed. *)
Lemma scan_loop_ind (Inv : list proc_entry → scan → Prop) es :
  Inv [] scan0 → (∀ pre e s, Inv pre s → Inv (pre ++ [e]) (step (length pre) e s)) →
  Inv es (loop 0 es scan0).
Proof.
  intros H0 Hs.
  assert (∀ es pre s, Inv pre s → Inv (pre ++ es) (loop (length pre) es s)) as H.
  { clear es. intros es. induction es as [|e es IH]; intros pre s Hp; cbn [scan_loop].
    - by rewrite app_nil_r.
    - replace (S (length pre)) with (length (pre ++ [e])) by (rewrite length_app; cbn; lia).
      rewrite cons_middle, app_assoc. by apply IH, Hs. }
  by apply (H es [] scan0).
Qed.

(** A field points to an entry that is no library or anonymous mapping and passes its
    test, and is set as soon as an entry passes its test and none before it. *)
Definition fields_sound (es : list proc_entry) (s : scan) : Prop :=
  ∀ n p k, tests !! n = Some p → fields s !! n = Some (Some k) →
    ∃ e, es !! k = Some e ∧ IS_MMAP e = false ∧ p e = true.
Definition fields_complete (es : list proc_entry) (s : scan) : Prop :=
  ∀ n p j e, tests !! n = Some p → es !! j = Some e → IS_MMAP e = false → p e = true →
    (∀ m q, (m < n)%nat → tests !! m = Some q → q e = false) → fields s !! n ≠ Some None.

Lemma lookup_snoc_Some {A} (l : list A) x j y :
  (l ++ [x]) !! j = Some y → l !! j = Some y ∨ j = length l ∧ y = x.
Proof.
  intros H. apply lookup_app_Some in H as [?|[Hl H]]; [by left|right].
  apply list_lookup_singleton_Some in H as [? ->]. split; [lia|done].
Qed.

Lemma fields_lookup s n p : tests !! n = Some p → ∃ f, fields s !! n = Some f.
Proof. intros Hp%lookup_lt_Some. by apply lookup_lt_is_Some_2. Qed.

Lemma fields_sound_step pre e s :
  fields_sound pre s → fields_sound (pre ++ [e]) (step (length pre) e s).
Proof.
  intros Hsnd n p k Hp. destruct (step_fields (length pre) e s) as [-> _].
  set (bs := (λ p : proc_entry → bool, p e) <$> tests).
  assert (Hold : fields s !! n = Some (Some k) →
    ∃ e', (pre ++ [e]) !! k = Some e' ∧ IS_MMAP e' = false ∧ p e' = true).
  { intros Hk. destruct (Hsnd n p k Hp Hk) as (e' & He' & ?).
    exists e'. split; [by apply lookup_app_l_Some|done]. }
  destruct (IS_MMAP e) eqn:Em; [done|]. destruct (fields_lookup s n p Hp) as [f Hfn].
  destruct (claim_lookup (length pre) bs (fields s) n f Hfn) as [->|(-> & -> & Hb)].
  - intros [= ->]. by apply Hold.
  - intros [= <-]. exists e. rewrite list_lookup_middle by done. split_and!; [done|done|].
    unfold bs in Hb. rewrite list_lookup_fmap, Hp in Hb. by simplify_eq/=.
Qed.

Lemma fields_complete_step pre e s :
  fields_complete pre s → fields_complete (pre ++ [e]) (step (length pre) e s).
Proof.
  intros Hcmp n p j e' Hp Hj Hm Hpe Hlt. destruct (step_fields (length pre) e s) as [-> _].
  set (bs := (λ p : proc_entry → bool, p e) <$> tests).
  apply lookup_snoc_Some in Hj as [Hj|[-> ->]].
  - specialize (Hcmp n p j e' Hp Hj Hm Hpe Hlt). destruct (IS_MMAP e); [done|].
    destruct (fields_lookup s n p Hp) as [f Hfn].
    destruct (claim_lookup (length pre) bs (fields s) n f Hfn) as [->|(-> & _)]; congruence.
  - rewrite Hm. apply claim_complete.
    + unfold bs. by rewrite list_lookup_fmap, Hp, <- Hpe.
    + intros m Hmn. assert (is_Some (tests !! m)) as [q Hq].
      { apply lookup_lt_is_Some_2. apply lookup_lt_Some in Hp. lia. }
      unfold bs. rewrite list_lookup_fmap, Hq. cbn. by rewrite (Hlt m q).
Qed.

Lemma fields_ok es :
  let s := loop 0 es scan0 in
  fields_sound es s ∧ fields_complete es s ∧ found s = (4 + length (omap id (fields s)))%nat.
Proof.
  apply (scan_loop_ind (λ es s, fields_sound es s ∧ fields_complete es s ∧
    found s = (4 + length (omap id (fields s)))%nat)).
  { split_and!.
    - intros n p k _ H. do 7 (destruct n as [|n]; [done|]). done.
    - intros n p j e _ H. by rewrite lookup_nil in H.
    - done. }
  intros pre e s (Hsnd & Hcmp & Hn).
  split_and!; [by apply fields_sound_step|by apply fields_complete_step|].
  destruct (step_fields (length pre) e s) as [-> ->].
  rewrite Hn. destruct (IS_MMAP e); [lia|]. rewrite claim_count. lia.
Qed.

(** No entry is claimed twice. *)
Lemma fields_distinct es n m k :
  let s := loop 0 es scan0 in
  fields s !! n = Some (Some k) → fields s !! m = Some (Some k) → n = m.
Proof.
  cut (fields_sound es (loop 0 es scan0) ∧
    ∀ n m k, fields (loop 0 es scan0) !! n = Some (Some k) →
      fields (loop 0 es scan0) !! m = Some (Some k) → n = m); [intros [_ H]; apply H|].
  apply (scan_loop_ind (λ es s, fields_sound es s ∧ ∀ n m k, fields s !! n = Some (Some k) →
    fields s !! m = Some (Some k) → n = m)).
  { split; [apply (fields_ok [])|]. intros [|[|[|[|[|[|[|]]]]]]] ? ?; done. }
  clear es n m k. intros pre e s [Hsnd Hd]. split; [by apply fields_sound_step|].
  intros n m k. destruct (step_fields (length pre) e s) as [-> _].
  destruct (IS_MMAP e); [apply Hd|]. set (bs := (λ p : proc_entry → bool, p e) <$> tests).
  assert (Hbd : ∀ n k, fields s !! n = Some (Some k) → (k < length pre)%nat).
  { intros n' k' Hk. destruct (lookup_lt_is_Some_2 tests n') as [p Hp].
    { by apply lookup_lt_Some in Hk. }
    destruct (Hsnd n' p k' Hp Hk) as (e' & He' & _). by apply lookup_lt_Some in He'. }
  assert (Hold : ∀ n, (claim (length pre) bs (fields s)).1 !! n = Some (Some k) →
    k ≠ length pre → fields s !! n = Some (Some k)).
  { intros n' Hn' Hk. destruct (lookup_lt_is_Some_2 (fields s) n') as [f Hf].
    { apply lookup_lt_Some in Hn'. by rewrite claim_length in Hn'. }
    destruct (claim_lookup (length pre) bs (fields s) n' f Hf) as [E|(_ & E & _)]; congruence. }
  intros Hn Hm. destruct (decide (k = length pre)) as [->|Hne].
  - eapply claim_one; [|done|done]. intros k' Hk'. apply Hbd in Hk'. lia.
  - by eapply Hd; apply Hold.
Qed.

(** The first and last library. *)
Definition libs_inv (es : list proc_entry) (s : scan) : Prop :=
  match first_lib s, last_lib s with
  | Some f, Some l =>
      (∃ e, es !! f = Some e ∧ IS_LIB e = true) ∧ (∃ e, es !! l = Some e ∧ IS_LIB e = true) ∧
      ∀ j e, es !! j = Some e → IS_LIB e = true → (f <= j <= l)%nat
  | None, None => ∀ j e, es !! j = Some e → IS_LIB e = false
  | _, _ => False
  end.

Lemma libs_ok es : libs_inv es (loop 0 es scan0).
Proof.
  apply scan_loop_ind; [intros j e H; by rewrite lookup_nil in H|].
  intros pre e s. unfold libs_inv. destruct (step_libs (length pre) e s) as (-> & -> & _).
  destruct (IS_LIB e) eqn:El; cbn [andb];
    destruct (first_lib s) as [f|], (last_lib s) as [l|]; cbn [is_none]; try done.
  - intros ((e1 & He1 & Hl1) & _ & Hall). split_and!.
    + exists e1. split; [by apply lookup_app_l_Some|done].
    + exists e. by rewrite list_lookup_middle.
    + intros j e' [Hj|[-> ->]]%lookup_snoc_Some Hl'.
      * specialize (Hall j e' Hj Hl'). apply lookup_lt_Some in Hj. lia.
      * apply lookup_lt_Some in He1. lia.
  - intros Hno. split_and!; try (exists e; by rewrite list_lookup_middle).
    intros j e' [Hj|[-> ->]]%lookup_snoc_Some Hl'; [|lia].
    specialize (Hno j e' Hj). congruence.
  - intros ((e1 & He1 & Hl1) & (e2 & He2 & Hl2) & Hall). split_and!.
    + exists e1. split; [by apply lookup_app_l_Some|done].
    + exists e2. split; [by apply lookup_app_l_Some|done].
    + intros j e' [Hj|[-> ->]]%lookup_snoc_Some Hl'; [by apply (Hall j e')|congruence].
  - intros Hno j e' [Hj|[-> ->]]%lookup_snoc_Some; [by apply (Hno j)|done].
Qed.

(** The first run of anonymous and library mappings: where it starts, and where it ends
    unless it reaches the end of the map. *)
Definition mmap_run (es : list proc_entry) (f n : nat) : Prop :=
  ∀ j e, (f <= j < n)%nat → es !! j = Some e → IS_MMAP e = true.
Definition mmap_inv (es : list proc_entry) (s : scan) : Prop :=
  match first_mmap s, last_mmap s with
  | Some f, Some l =>
      (f <= l)%nat ∧ (∃ e, es !! f = Some e) ∧ mmap_run es f (S l) ∧
      (∃ e, es !! S l = Some e ∧ IS_MMAP e = false) ∧ ∀ j e, (j < f)%nat → es !! j = Some e → IS_MMAP e = false
  | Some f, None =>
      (∃ e, es !! f = Some e) ∧ mmap_run es f (length es) ∧
      ∀ j e, (j < f)%nat → es !! j = Some e → IS_MMAP e = false
  | None, None => ∀ j e, es !! j = Some e → IS_MMAP e = false
  | None, Some _ => False
  end.

Lemma mmap_run_snoc es e f n : (n <= length es)%nat → mmap_run es f n → mmap_run (es ++ [e]) f n.
Proof. intros Hn H j e' Hj [Hl|[-> _]]%lookup_snoc_Some; [by apply (H j)|lia]. Qed.

Lemma before_snoc es e (f : nat) :
  (f < length es)%nat → (∀ j e, (j < f)%nat → es !! j = Some e → IS_MMAP e = false) →
  ∀ j e', (j < f)%nat → (es ++ [e]) !! j = Some e' → IS_MMAP e' = false.
Proof. intros Hf H j e' Hj [Hl|[-> _]]%lookup_snoc_Some; [by apply (H j)|lia]. Qed.

Lemma mmap_ok es : mmap_inv es (loop 0 es scan0).
Proof.
  apply scan_loop_ind; [intros j e H; by rewrite lookup_nil in H|].
  intros pre e s. unfold mmap_inv. destruct (step_libs (length pre) e s) as (_ & _ & -> & ->).
  destruct (first_mmap s) as [f|], (last_mmap s) as [l|]; cbn [is_none];
    rewrite ?andb_true_r, ?andb_false_r; cbn [negb]; rewrite ?andb_true_r, ?andb_false_r.
  - intros (Hfl & (e1 & He1) & Hr & (e2 & He2 & Hm2) & Hb).
    pose proof (lookup_lt_Some _ _ _ He2). split_and!; [done| | | |].
    + exists e1. by apply lookup_app_l_Some.
    + apply mmap_run_snoc; [lia|done].
    + exists e2. split; [by apply lookup_app_l_Some|done].
    + apply before_snoc; [lia|done].
  - intros ((e1 & He1) & Hr & Hb). pose proof (lookup_lt_Some _ _ _ He1) as Hf.
    pose proof (mmap_run_snoc pre e f (length pre) ltac:(lia) Hr) as Hr'.
    pose proof (before_snoc pre e f Hf Hb) as Hb'.
    assert (∃ e', (pre ++ [e]) !! f = Some e') as Hf' by (exists e1; by apply lookup_app_l_Some).
    destruct (IS_MMAP e) eqn:Em; cbn [negb].
    + split_and!; [done| |done]. rewrite length_app. cbn [length].
      intros j e' Hj [Hl|[-> ->]]%lookup_snoc_Some; [|done].
      apply (Hr j); [|done]. apply lookup_lt_Some in Hl. lia.
    + replace (S (length pre - 1)) with (length pre) by lia.
      split_and!; [lia|done|done|exists e; by rewrite list_lookup_middle|done].
  - done.
  - intros Hno. destruct (IS_MMAP e) eqn:Em.
    + split_and!.
      * exists e. by rewrite list_lookup_middle.
      * intros j e' Hj [Hl|[-> ->]]%lookup_snoc_Some; [|done]. apply lookup_lt_Some in Hl. lia.
      * intros j e' Hj [Hl|[-> _]]%lookup_snoc_Some; [by apply (Hno j)|lia].
    + intros j e' [Hl|[-> ->]]%lookup_snoc_Some; [by apply (Hno j)|done].
Qed.

End Scan.

(** ** What [util_proc_maps_get_info] returns *)

(** The map as the kernel writes it: entries in the order of their addresses, none empty and
    none overlapping another. *)
Record maps_sorted (es : list proc_entry) : Prop := {
  sorted_range : ∀ j e, es !! j = Some e → 0 < pe_start e < pe_end e;
  sorted_order : ∀ i j a b, (i < j)%nat → es !! i = Some a → es !! j = Some b → pe_end a <= pe_start b;
}.

Lemma sorted_le es i j a b :
  maps_sorted es → (i <= j)%nat → es !! i = Some a → es !! j = Some b →
  pe_start a <= pe_start b ∧ pe_end a <= pe_end b.
Proof.
  intros [Hr Ho] Hij Ha Hb. destruct (decide (i = j)) as [->|Hne]; [by simplify_eq|].
  pose proof (Hr i a Ha). pose proof (Hr j b Hb). pose proof (Ho i j a b ltac:(lia) Ha Hb). lia.
Qed.

(** An address is in one entry at most. *)
Lemma sorted_unique es i j a b x :
  maps_sorted es → es !! i = Some a → es !! j = Some b →
  CONTAINS_ADDR a x = true → CONTAINS_ADDR b x = true → i = j.
Proof.
  intros [Hr Ho] Ha Hb. unfold CONTAINS_ADDR. rewrite !andb_true_iff, !Z.leb_le, !Z.ltb_lt. intros H1 H2.
  destruct (lt_eq_lt_dec i j) as [[Hlt|?]|Hgt]; [|done|].
  - pose proof (Ho i j a b Hlt Ha Hb). lia.
  - pose proof (Ho j i b a Hgt Hb Ha). lia.
Qed.

Section Info.
Context (main_addr data_addr heap_addr : Z).
Local Abbreviation get_info := (util_proc_maps_get_info main_addr data_addr heap_addr).
Local Abbreviation the_scan es := (scan_loop main_addr data_addr heap_addr 0 es scan0).

Lemma omap_lookup_length {A} (es : list A) (fs : list (option nat)) :
  (∀ k, Some k ∈ fs → is_Some (es !! k)) →
  length (omap (λ p, p ≫= λ i, es !! i) fs) = length (omap id fs).
Proof.
  induction fs as [|[k|] fs IH]; intros H; [done| |].
  - destruct (H k ltac:(left)) as [e He]. cbn. rewrite He. cbn. f_equal. apply IH.
    intros k' ?. apply H. by right.
  - apply IH. intros k' ?. apply H. by right.
Qed.

(** The end of the library area is read inside the array. *)
Lemma libs_end_ok es z :
  es !! (length es - 1)%nat = Some z → ∃ le, libs_end es (pe_end z) (last_lib (the_scan es)) = Some le.
Proof.
  intros Hz. unfold libs_end. pose proof (libs_ok main_addr data_addr heap_addr es) as Hl.
  unfold libs_inv in Hl. destruct (last_lib (the_scan es)) as [l|]; [|by eexists].
  destruct (first_lib (the_scan es)); [|done]. destruct Hl as (_ & (e & He & _) & _).
  cbn [field_or_0]. rewrite He. destruct (truthy (pe_end e)), (Z.ltb_spec (pe_end e) (pe_end z));
    try (by eexists). cbn [andb].
  destruct (es !! S l) as [nxt|] eqn:En; [destruct (_ =? _); by eexists|].
  apply lookup_ge_None in En. apply lookup_lt_Some in He as Hlt.
  replace (length es - 1)%nat with l in Hz by lia. simplify_eq. lia.
Qed.

Lemma get_info_run pid es a z :
  es !! 0%nat = Some a → es !! (length es - 1)%nat = Some z →
  ∃ le l, libs_end es (pe_end z) (last_lib (the_scan es)) = Some le ∧
  get_info pid es = Some (mk_info
    (area pid (lit "[vm]") (pe_start a) (pe_end z) false)
    (area pid (lit "[prog]") (field_or_0 es (prog_text (the_scan es)) pe_start)
       (field_or_0 es (prog_data (the_scan es)) pe_end) false)
    (area pid (lit "[mmap]") (field_or_0 es (first_mmap (the_scan es)) pe_start)
       (field_or_0 es (last_mmap (the_scan es)) pe_end) false)
    (area pid (lit "[libs]") (field_or_0 es (first_lib (the_scan es)) pe_start) le true)
    (the_scan es) l).
Proof.
  intros Ha Hz. destruct (libs_end_ok es z Hz) as [le Hle]. exists le. eexists. split; [done|].
  unfold util_proc_maps_get_info. rewrite Ha, Hz. cbn [mbind option_bind]. cbv zeta.
  change (pe_end (area ?p ?n ?x ?y ?b)) with y. rewrite Hle. cbn [mbind option_bind].
  rewrite length_app, (proj2 (Nat.eqb_eq _ _)); [done|].
  destruct (fields_ok main_addr data_addr heap_addr es) as (Hsnd & _ & ->).
  fold (fields (the_scan es)). rewrite omap_lookup_length; [done|].
  intros k [n Hk]%list_elem_of_lookup.
  destruct (lookup_lt_is_Some_2 (tests main_addr data_addr heap_addr) n) as [p Hp];
    [by apply lookup_lt_Some in Hk|].
  destruct (Hsnd n p k Hp Hk) as (e & -> & _). by eexists.
Qed.

(** Collecting the areas of a map that has entries reads no entry outside the array and
    passes its assertion on the number of areas. *)
Theorem get_info_total pid es : es ≠ [] → ∃ info, get_info pid es = Some info.
Proof.
  intros Hne. assert (0 < length es)%nat as Hl by (destruct es; [done|cbn; lia]).
  destruct (lookup_lt_is_Some_2 es 0) as [a Ha]; [done|].
  destruct (lookup_lt_is_Some_2 es (length es - 1)) as [z Hz]; [lia|].
  destruct (get_info_run pid es a z Ha Hz) as (le & l & _ & ->). by eexists.
Qed.

(** The library area up to its end. *)
Lemma libs_end_spec es vm_last l e le :
  es !! l = Some e → 0 < pe_end e → libs_end es vm_last (Some l) = Some le →
  le = pe_end e ∨ ∃ nxt, es !! S l = Some nxt ∧ IS_ANON nxt = true ∧
    pe_start nxt = pe_end e ∧ le = pe_end nxt.
Proof.
  intros He Hpos. unfold libs_end. cbn [field_or_0]. rewrite He.
  destruct (truthy (pe_end e) && (pe_end e <? vm_last)); [|intros [= <-]; by left].
  destruct (es !! S l) as [nxt|]; [|done].
  destruct (Z.eqb_spec (pe_start nxt) (pe_end e)); [|intros [= <-]; by left].
  destruct (IS_ANON nxt) eqn:Ea; intros [= <-]; [right|by left]. by exists nxt.
Qed.

(** The areas of a map cover what they name.  Every entry lies in the [vm] area, every
    library in the [libs] area, which starts at a library and ends at the end of a library or
    of an anonymous mapping right behind one; the [mmap] area is the first run of anonymous
    and library mappings, and has the end 0 if that run reaches the end of the map. *)
Theorem info_areas pid es info :
  maps_sorted es → get_info pid es = Some info →
  (∀ j e, es !! j = Some e → pe_start (i_vm info) <= pe_start e ∧ pe_end e <= pe_end (i_vm info)) ∧
  (∀ j e, es !! j = Some e → IS_LIB e = true →
    pe_start (i_libs info) <= pe_start e ∧ pe_end e <= pe_end (i_libs info)) ∧
  (∀ f l a z, first_mmap (i_scan info) = Some f → last_mmap (i_scan info) = Some l →
    es !! f = Some a → es !! l = Some z →
    pe_start (i_mmap info) = pe_start a ∧ pe_end (i_mmap info) = pe_end z ∧
    mmap_run es f (S l) ∧ ∃ e, es !! S l = Some e ∧ IS_MMAP e = false) ∧
  (last_mmap (i_scan info) = None → pe_end (i_mmap info) = 0).
Proof.
  intros Hs Hi. pose proof Hi as Hi'. unfold util_proc_maps_get_info in Hi'.
  destruct (es !! 0%nat) as [a|] eqn:Ha; [|done]. cbn [mbind option_bind] in Hi'.
  destruct (es !! (length es - 1)%nat) as [z|] eqn:Hz; [|done]. clear Hi'.
  destruct (get_info_run pid es a z Ha Hz) as (le & l & Hle & E). rewrite E in Hi. injection Hi as <-.
  cbn [i_vm i_libs i_mmap i_scan pe_start pe_end area].
  pose proof (libs_ok main_addr data_addr heap_addr es) as Hlib.
  pose proof (mmap_ok main_addr data_addr heap_addr es) as Hmm. unfold libs_inv, mmap_inv in *.
  split_and!.
  - intros j e He. pose proof (lookup_lt_Some _ _ _ He).
    destruct (sorted_le es 0 j a e Hs ltac:(lia) Ha He) as [? _].
    destruct (sorted_le es j (length es - 1) e z Hs ltac:(lia) He Hz) as [_ ?]. done.
  - intros j e He Hlb. destruct (first_lib (the_scan es)) as [f|], (last_lib (the_scan es)) as [ll|];
      try done; [|by rewrite (Hlib j e He) in Hlb].
    destruct Hlib as ((e1 & He1 & _) & (e2 & He2 & _) & Hall). destruct (Hall j e He Hlb).
    cbn [field_or_0]. rewrite He1.
    destruct (sorted_le es f j e1 e Hs ltac:(lia) He1 He) as [? _].
    destruct (sorted_le es j ll e e2 Hs ltac:(lia) He He2) as [_ ?]. split; [done|].
    pose proof (sorted_range es Hs ll e2 He2).
    destruct (libs_end_spec es (pe_end z) ll e2 le He2 ltac:(lia) Hle) as [->|(nxt & Hn & _ & Hst & ->)]; [done|].
    pose proof (sorted_range es Hs (S ll) nxt Hn). lia.
  - intros f l' a' z' Hf' Hl' Ha' Hz'. rewrite Hf', Hl' in Hmm |- *. cbn [field_or_0]. rewrite Ha', Hz'.
    destruct Hmm as (_ & _ & ? & ? & _). done.
  - intros ->. done.
Qed.

(** A field whose test is that an address is in the entry. *)
Lemma field_found es n p x j e :
  maps_sorted es → tests main_addr data_addr heap_addr !! n = Some p →
  (∀ e, p e = true ↔ CONTAINS_ADDR e x = true) →
  es !! j = Some e → IS_MMAP e = false → p e = true →
  (∀ m q, (m < n)%nat → tests main_addr data_addr heap_addr !! m = Some q → q e = false) →
  fields (the_scan es) !! n = Some (Some j).
Proof.
  intros Hs Hp Hx He Hm Hpe Hlt. destruct (fields_ok main_addr data_addr heap_addr es) as (Hsnd & Hcmp & _).
  specialize (Hcmp n p j e Hp He Hm Hpe Hlt).
  destruct (fields_lookup main_addr data_addr heap_addr (the_scan es) n p Hp) as [[k|] Hk]; [|done].
  destruct (Hsnd n p k Hp Hk) as (e' & He' & _ & Hp').
  by rewrite (sorted_unique es k j e' e x Hs He' He (proj1 (Hx e') Hp') (proj1 (Hx e) Hpe)) in Hk.
Qed.

Lemma info_scan pid es info : get_info pid es = Some info →
  i_scan info = the_scan es ∧
  pe_start (i_prog info) = field_or_0 es (prog_text (the_scan es)) pe_start ∧
  pe_end (i_prog info) = field_or_0 es (prog_data (the_scan es)) pe_end.
Proof.
  intros Hi. pose proof Hi as Hi'. unfold util_proc_maps_get_info in Hi'.
  destruct (es !! 0%nat) as [a|] eqn:Ha; [|done]. cbn [mbind option_bind] in Hi'.
  destruct (es !! (length es - 1)%nat) as [z|] eqn:Hz; [|done]. clear Hi'.
  destruct (get_info_run pid es a z Ha Hz) as (le & l & _ & E). rewrite E in Hi. by injection Hi as <-.
Qed.

(** Tests before the [n]-th, one by one. *)
Ltac tests_before :=
  let m := fresh in intros m ? ?; do 4 (destruct m as [|m]; [try (exfalso; lia); intros [= <-]; assumption|]);
  exfalso; lia.

(** The program and its heap are found.  In a sorted map, the [prog] area starts with the
    entry of [main] and ends with the entry of [__data_start], and the heap is the entry of a
    heap block, provided these entries have names of their own and are distinct. *)
Theorem info_prog_heap pid es info jt jd jh t d h :
  maps_sorted es → get_info pid es = Some info →
  es !! jt = Some t → IS_MMAP t = false → CONTAINS_ADDR t main_addr = true →
  es !! jd = Some d → IS_MMAP d = false → CONTAINS_ADDR d data_addr = true →
  es !! jh = Some h → IS_MMAP h = false → CONTAINS_ADDR h heap_addr = true →
  CONTAINS_ADDR d main_addr = false → CONTAINS_ADDR d (PROG_RO_ADDR data_addr) = false →
  CONTAINS_ADDR h main_addr = false → CONTAINS_ADDR h (PROG_RO_ADDR data_addr) = false →
  CONTAINS_ADDR h data_addr = false →
  pe_start (i_prog info) = pe_start t ∧ pe_end (i_prog info) = pe_end d ∧
  heap (i_scan info) = Some jh.
Proof.
  intros Hs Hi Ht Htm Htc Hd Hdm Hdc Hh Hhm Hhc Hd1 Hd2 Hh1 Hh2 Hh3.
  destruct (info_scan pid es info Hi) as (-> & -> & ->).
  pose proof (field_found es 0 _ main_addr jt t Hs eq_refl ltac:(done) Ht Htm Htc ltac:(lia)) as E0.
  pose proof (field_found es 2 _ data_addr jd d Hs eq_refl ltac:(done) Hd Hdm Hdc ltac:(tests_before)) as E2.
  pose proof (field_found es 3 _ heap_addr jh h Hs eq_refl ltac:(done) Hh Hhm Hhc ltac:(tests_before)) as E3.
  cbn in E0, E2, E3. injection E0 as ->. injection E2 as ->. injection E3 as ->.
  cbn [field_or_0]. by rewrite Ht, Hd.
Qed.

(** A data segment of which a page lies before [__data_start] is taken for the read-only
    segment: the map has no data entry and the [prog] area ends at 0. *)
Theorem data_taken_as_ro pid es info j e :
  maps_sorted es → get_info pid es = Some info →
  es !! j = Some e → IS_MMAP e = false → CONTAINS_ADDR e main_addr = false →
  CONTAINS_ADDR e data_addr = true → CONTAINS_ADDR e (PROG_RO_ADDR data_addr) = true →
  prog_data (i_scan info) = None ∧ pe_end (i_prog info) = 0.
Proof.
  intros Hs Hi He Hm H1 H2 H3. destruct (info_scan pid es info Hi) as (-> & _ & ->).
  pose proof (field_found es 1 _ (PROG_RO_ADDR data_addr) j e Hs eq_refl ltac:(done) He Hm H3
    ltac:(tests_before)) as E1.
  destruct (prog_data (the_scan es)) as [k|] eqn:Ek; [|done].
  assert (E2 : fields (the_scan es) !! 2%nat = Some (Some k)) by by cbn; rewrite Ek.
  destruct (fields_ok main_addr data_addr heap_addr es) as (Hsnd & _ & _).
  destruct (Hsnd 2%nat _ k eq_refl E2) as (e' & He' & _ & Hc).
  pose proof (sorted_unique es k j e' e data_addr Hs He' He Hc H2) as ->.
  by pose proof (fields_distinct main_addr data_addr heap_addr es 1 2 j E1 E2).
Qed.

End Info.

(** ** An example *)

Definition ex_entry (vs ve : Z) (w : ascii) (name : cstr) : proc_entry :=
  mk_pe vs ve "r" w "-" "p" 0 8 1 77 name 42 BuffNull.

(** A program of three segments, its bss and heap, a library with its bss, and the stack. *)
Definition ex_maps : list proc_entry :=
  [ex_entry 0x400000 0x420000 "-" (lit "/bin/prog"); ex_entry 0x61f000 0x620000 "-" (lit "/bin/prog");
   ex_entry 0x620000 0x622000 "w" (lit "/bin/prog"); ex_entry 0x622000 0x630000 "w" [];
   ex_entry 0x1c00000 0x1c21000 "w" (lit "[heap]");
   ex_entry 0x7f0000000000 0x7f0000100000 "-" (lit "/lib/libc.so");
   ex_entry 0x7f0000100000 0x7f0000104000 "w" [];
   ex_entry 0x7ffc00000000 0x7ffc00021000 "w" (lit "[stack]")].

Definition sortedb (es : list proc_entry) : bool :=
  forallb (λ e, (0 <? pe_start e) && (pe_start e <? pe_end e)) es
  && forallb (λ p, pe_end p.1 <=? pe_start p.2) (zip es (drop 1 es)).

Lemma sortedb_sorted es : sortedb es = true → maps_sorted es.
Proof.
  unfold sortedb. rewrite andb_true_iff, !List.forallb_forall. intros [H1 H2].
  assert (Hr : ∀ j e, es !! j = Some e → 0 < pe_start e < pe_end e).
  { intros j e He. specialize (H1 e (proj1 (list_elem_of_In _ _) (list_elem_of_lookup_2 _ _ _ He))).
    rewrite andb_true_iff, !Z.ltb_lt in H1. lia. }
  split; [done|]. intros i j. revert i. induction j as [|j IH]; intros i a b Hij Ha Hb; [lia|].
  destruct (lookup_lt_is_Some_2 es j) as [c Hc]; [apply lookup_lt_Some in Hb; lia|].
  assert (pe_end c <= pe_start b).
  { specialize (H2 (c, b)). rewrite Z.leb_le in H2. apply H2, list_elem_of_In.
    apply (list_elem_of_lookup_2 _ j). rewrite lookup_zip_with. cbn. rewrite Hc.
    cbn. rewrite lookup_drop. cbn. by rewrite Hb. }
  destruct (decide (i = j)) as [->|]; [by simplify_eq|].
  pose proof (IH i a c ltac:(lia) Ha Hc). pose proof (Hr j c Hc). lia.
Qed.

Definition ex_info : proc_info :=
  default (mk_info ex_lib ex_lib ex_lib ex_lib scan0 [])
    (util_proc_maps_get_info 0x401000 0x620040 0x1c00010 42 ex_maps).

Lemma info_areas_witness :
  pe_start (i_libs ex_info) <= 0x7f0000000000 ∧ 0x7f0000100000 <= pe_end (i_libs ex_info).
Proof.
  destruct (info_areas 0x401000 0x620040 0x1c00010 42 ex_maps ex_info) as (_ & H & _).
  - apply sortedb_sorted. by vm_compute.
  - by vm_compute.
  - apply (H 5%nat (ex_entry 0x7f0000000000 0x7f0000100000 "-" (lit "/lib/libc.so"))); by vm_compute.
Defined.

