(* ===== verification/ProcDiff.v ===== *)
(** * Comparison of process maps

    [include/common/util/proc_maps.h]: copying the memory of a mapping, of the process itself or
    of another one through [/proc/pid/mem], the comparison of two mappings, and the comparison of
    two maps over a range of addresses.

    The kernel is the class [ProcMem].  An entry is a value and an operation that changes its
    buffer returns the new one; the two maps compared are different arrays.  The loop that
    repeats an interrupted [read] has the bound [attempts]. *)
From stdpp Require Import base numbers list strings option.
From Stdlib Require Import ZArith Lia Ascii.
From S2P Require Import Prelude Memory CString Ctx Profiling Writelog Common BufRead ProcMaps ProcScan ProcInfo.

(** ** Definitions *)

(** The calls on memory: private mappings, which are filled with zeros, the memory of the process
    itself, and the files of other processes.  [pm_read] gives its result, the bytes stored and
    the error number after it. *)
Class ProcMem (os : Type) := {
  pm_mmap : Z → os → bool * os;
  pm_munmap : Z → os → os;
  pm_getpid : os → Z;
  pm_self : os → mem;
  pm_open : cstr → os → Z * os;
  pm_lseek : Z → Z → os → Z * os;
  pm_read : Z → Z → os → Z * list Z * Z * os;
  pm_close : Z → os → os;
}.

(** [util_proc_maps_diff_flags_t]. *)
Inductive diff_flag :=
  | ALLOW_NO_ENTRY | ALLOW_NAME_DIFF | ALLOW_PROT_DIFF | ALLOW_SHARED_DIFF
  | ALLOW_RANGE_DIFF | ALLOW_RANGE_MISMATCH | ALLOW_DATA_DIFF.

Definition DIFF_FLAG (f : diff_flag) : Z :=
  Z.shiftl 1 match f with
             | ALLOW_NO_ENTRY => 0 | ALLOW_NAME_DIFF => 1 | ALLOW_PROT_DIFF => 2 | ALLOW_SHARED_DIFF => 3
             | ALLOW_RANGE_DIFF => 4 | ALLOW_RANGE_MISMATCH => 5 | ALLOW_DATA_DIFF => 6
             end.

Definition allowed (flags : Z) (f : diff_flag) : bool := truthy (Z.land flags (DIFF_FLAG f)).

Definition set_buff (b : ebuff) (e : proc_entry) : proc_entry :=
  mk_pe (pe_start e) (pe_end e) (pe_r e) (pe_w e) (pe_x e) (pe_s e) (pe_pgoff e) (pe_major e)
    (pe_minor e) (pe_ino e) (pe_name e) (pe_pid e) b.

Definition EINTR : Z := 4.

Definition mem_path (pid : Z) : cstr := lit "/proc/" ++ dec pid ++ lit "/mem".

Section Diff.
Context {os : Type} `{procmem : ProcMem os}.
Context (attempts : nat).

Local Abbreviation P := (prog os).

Definition call {A} (f : os → A * os) : P A := λ o, let '(a, o') := f o in Ok a o'.

(** [munmap] of the value of a failed [mmap] fails and does nothing. *)
Definition util_proc_maps_entry_unmap (e : proc_entry) : P proc_entry :=
  match pe_buff e with
  | BuffNull => mret e
  | BuffFailed => mret (set_buff BuffNull e)
  | Buff _ => modify (pm_munmap (ENTRY_SIZE e)) ;; mret (set_buff BuffNull e)
  end.

(** The loop around [read]: its result is an [int]. *)
Fixpoint read_mem (n : nat) (fd size : Z) (e : proc_entry) : P (Z * proc_entry) :=
  match n with
  | O => halt Diverge
  | S n' =>
      pos ← call (pm_lseek fd (pe_start e));
      if pos =? -1 then mret (-3, e) else
      '(r, bs, errno) ← call (λ o, let '(r, bs, errno, o') := pm_read fd size o in ((r, bs, errno), o'));
      let e := set_buff (Buff (bs ++ drop (length bs) (replicate (Z.to_nat size) 0))) e in
      let ret := s32 r in
      if negb (u64 ret =? size) && (errno =? EINTR) then read_mem n' fd size e
      else mret (if u64 ret =? size then 0 else -4, e)
  end.

Definition map_out (fd ret : Z) (e : proc_entry) : P (Z * proc_entry) :=
  e ← (if truthy ret then util_proc_maps_entry_unmap e else mret e);
  when (0 <? fd) (modify (pm_close fd)) ;;
  mret (ret, e).

Definition util_proc_maps_entry_map (e : proc_entry) : P (Z * proc_entry) :=
  let size := ENTRY_SIZE e in
  ok ← call (pm_mmap size);
  if negb ok then mret (-1, set_buff BuffFailed e) else
  let e := set_buff (Buff (replicate (Z.to_nat size) 0)) e in
  if negb (Ascii.eqb (pe_r e) "r") then mret (0, e) else
  pid ← gets pm_getpid;
  if pe_pid e =? pid then
    bs ← gets (λ o, load_bytes (pm_self o) (pe_start e) (Z.to_nat size));
    mret (0, set_buff (Buff bs) e)
  else
  fd ← call (pm_open (mem_path (pe_pid e)));
  if fd <? 0 then map_out fd (-2) e else
  '(ret, e) ← read_mem attempts fd size e;
  map_out fd ret e.

(** [memcmp] of parts of the buffers. *)
Definition buff_part (e : proc_entry) (off size : Z) : option (list Z) :=
  match pe_buff e with
  | Buff bs => Some (take (Z.to_nat size) (drop (Z.to_nat off) bs))
  | _ => None
  end.

Definition util_proc_maps_entry_data_diff (e e2 : proc_entry) (off off2 size : Z)
    : P (Z * proc_entry * proc_entry) :=
  if (ENTRY_SIZE e <? u64 (size + off)) || (ENTRY_SIZE e2 <? u64 (size + off2)) then mret (-1, e, e2) else
  '(ret, e) ← util_proc_maps_entry_map e;
  if truthy ret then mret (-2, e, e2) else
  '(ret, e2) ← util_proc_maps_entry_map e2;
  if truthy ret then e ← util_proc_maps_entry_unmap e; mret (-3, e, e2) else
  match buff_part e off size, buff_part e2 off2 size with
  | Some a, Some b =>
      let ret := if bool_decide (a = b) then 0 else 1 in
      e ← util_proc_maps_entry_unmap e;
      e2 ← util_proc_maps_entry_unmap e2;
      mret (ret, e, e2)
  | _, _ => halt Sigsegv
  end.

Definition util_proc_maps_entry_diff (e : proc_entry) (e2 : option proc_entry) (start end_ flags : Z)
    : P (Z * proc_entry * option proc_entry) :=
  let end_ := if end_ =? 0 then ULONG_MAX else end_ in
  match e2 with
  | None => mret (if allowed flags ALLOW_NO_ENTRY then 0 else DIFF_FLAG ALLOW_NO_ENTRY, e, None)
  | Some e2 =>
      let ret (r : Z) : P (Z * proc_entry * option proc_entry) := mret (r, e, Some e2) in
      if negb (NAME_EQUALS e e2) && negb (allowed flags ALLOW_NAME_DIFF) then ret (DIFF_FLAG ALLOW_NAME_DIFF) else
      if negb (PROT_EQUALS e e2) && negb (allowed flags ALLOW_PROT_DIFF) then ret (DIFF_FLAG ALLOW_PROT_DIFF) else
      if negb (SHARED_EQUALS e e2) && negb (allowed flags ALLOW_SHARED_DIFF) then ret (DIFF_FLAG ALLOW_SHARED_DIFF) else
      if negb (OVERLAPS e e2) then
        ret (if allowed flags ALLOW_RANGE_MISMATCH then 0 else DIFF_FLAG ALLOW_RANGE_MISMATCH) else
      if negb (RANGE_EQUALS e e2) && negb (allowed flags ALLOW_RANGE_DIFF) then ret (DIFF_FLAG ALLOW_RANGE_DIFF) else
      let start := Z.max (Z.max start (pe_start e)) (pe_start e2) in
      let end_ := Z.min (Z.min end_ (pe_end e)) (pe_end e2) in
      if end_ <=? start then ret (-11) else
      if allowed flags ALLOW_DATA_DIFF then ret 0 else
      '(r, e, e2) ← util_proc_maps_entry_data_diff e e2 (start - pe_start e) (start - pe_start e2) (end_ - start);
      mret (r, e, Some e2)
  end.

(** The callback sees the entries and may act on the system. *)
Definition diff_cb : Type := proc_entry → option proc_entry → Z → os → Z * os.

Definition put_entry (j : option nat) (e : option proc_entry) (maps : list proc_entry) : list proc_entry :=
  match j, e with Some j, Some e => <[j := e]> maps | _, _ => maps end.

(** The loop of [UTIL_PROC_MAPS_ITER] over the last [k] entries; the result, and both maps. *)
Fixpoint diff_loop (k i : nat) (maps maps2 : list proc_entry) (start end_ flags : Z) (cb : option diff_cb)
    (hasdiff : Z) : P (Z * list proc_entry * list proc_entry) :=
  match k with
  | O => mret (hasdiff, maps, maps2)
  | S k' =>
      match maps !! i with
      | None => halt Undefined
      | Some entry =>
          let IE := mk_pe start end_ NUL NUL NUL NUL 0 0 0 0 [] 0 BuffNull in
          if OVERLAPS entry IE then
            let entry_start := Z.max start (pe_start entry) in
            let entry_end := Z.min end_ (pe_end entry) in
            let j := match util_proc_maps_lookup_by_addr maps2 entry_start with
                     | None => util_proc_maps_lookup_by_addr maps2 entry_end
                     | j => j
                     end in
            let entry2 := j ← j; maps2 !! j in
            '(ret, entry, entry2) ← util_proc_maps_entry_diff entry entry2 entry_start entry_end flags;
            let maps := <[i := entry]> maps in
            let maps2 := put_entry j entry2 maps2 in
            match cb with
            | None =>
                if truthy ret then mret (ret, maps, maps2)
                else diff_loop k' (S i) maps maps2 start end_ flags cb hasdiff
            | Some cb' =>
                ret ← call (cb' entry entry2 ret);
                if ret <? 0 then mret (ret, maps, maps2)
                else diff_loop k' (S i) maps maps2 start end_ flags cb (if 0 <? ret then 1 else hasdiff)
            end
          else diff_loop k' (S i) maps maps2 start end_ flags cb hasdiff
      end
  end.

Definition util_proc_maps_diff (maps maps2 : list proc_entry) (start end_ flags : Z) (cb : option diff_cb)
    : P (Z * list proc_entry * list proc_entry) :=
  let end_ := if end_ =? 0 then ULONG_MAX else end_ in
  diff_loop (length maps) 0 maps maps2 start end_ flags cb 0.

End Diff.

(** ** What a comparison finds *)

(** Memory that can be read and does not change while it is compared: [peek] is the memory of
    each process.  A file is read at the position set before, in one call. *)
Class ReadableMem (os : Type) `{procmem : ProcMem os} (peek : os → Z → mem) := {
  mmap_succeeds n o : ∃ o', pm_mmap n o = (true, o') ∧ peek o' = peek o ∧ pm_getpid o' = pm_getpid o;
  munmap_keeps n o : peek (pm_munmap n o) = peek o ∧ pm_getpid (pm_munmap n o) = pm_getpid o;
  close_keeps fd o : peek (pm_close fd o) = peek o ∧ pm_getpid (pm_close fd o) = pm_getpid o;
  self_is_own o a : pm_self o a = peek o (pm_getpid o) a;
  file_is_memory pid a n o :
    0 <= n < 2147483648 →
    ∃ fd o1 pos o2 errno o3, pm_open (mem_path pid) o = (fd, o1) ∧ 0 <= fd ∧
      pm_lseek fd a o1 = (pos, o2) ∧ pos ≠ -1 ∧
      pm_read fd n o2 = (n, load_bytes (peek o pid) a (Z.to_nat n), errno, o3) ∧
      peek o3 = peek o ∧ pm_getpid o3 = pm_getpid o;
}.

(** Entries as the parser makes them, of a size [read] can return. *)
Record diffable (e : proc_entry) : Prop := {
  df_start : 0 < pe_start e;
  df_end : pe_end e <= ULONG_MAX;
  df_size : 0 < pe_end e - pe_start e < 2147483648;
  df_buff : pe_buff e = BuffNull;
}.

Section Exact.
Context {os : Type} `{procmem : ProcMem os} (peek : os → Z → mem) `{!ReadableMem os peek}.
Context (attempts : nat).

Local Abbreviation same o o' := (peek o' = peek o ∧ pm_getpid o' = pm_getpid o).

(** The bytes an entry's buffer is filled with: those of the process if they may be read. *)
Definition entry_bytes (o : os) (e : proc_entry) : list Z :=
  if Ascii.eqb (pe_r e) "r" then load_bytes (peek o (pe_pid e)) (pe_start e) (Z.to_nat (pe_end e - pe_start e))
  else replicate (Z.to_nat (pe_end e - pe_start e)) 0.

Lemma entry_size e : diffable e → ENTRY_SIZE e = pe_end e - pe_start e.
Proof. intros []. unfold ENTRY_SIZE. apply u64_small. lia. Qed.

Lemma set_buff_null e : diffable e → set_buff BuffNull e = e.
Proof. intros []. destruct e; cbn in *. by subst. Qed.

Lemma unmap_run e bs o :
  diffable e → ∃ o', util_proc_maps_entry_unmap (set_buff (Buff bs) e) o = Ok e o' ∧ same o o'.
Proof.
  intros He. exists (pm_munmap (ENTRY_SIZE e) o). split; [|apply munmap_keeps].
  unfold util_proc_maps_entry_unmap. cbn [pe_buff set_buff]. rewrite bind_modify.
  unfold mret, prog_ret. f_equal. change (set_buff BuffNull (set_buff (Buff bs) e)) with (set_buff BuffNull e).
  by apply set_buff_null.
Qed.

Lemma read_mem_run e o fd o1 pos o2 errno o3 :
  let size := pe_end e - pe_start e in
  diffable e → (0 < attempts)%nat → pm_lseek fd (pe_start e) o1 = (pos, o2) → pos ≠ -1 →
  pm_read fd size o2 = (size, load_bytes (peek o (pe_pid e)) (pe_start e) (Z.to_nat size), errno, o3) →
  read_mem attempts fd size (set_buff (Buff (replicate (Z.to_nat size) 0)) e) o1
  = Ok (0, set_buff (Buff (load_bytes (peek o (pe_pid e)) (pe_start e) (Z.to_nat size))) e) o3.
Proof.
  intros size [] Hn Hl Hp Hr. destruct attempts as [|n]; [lia|]. cbn [read_mem].
  rewrite (bind_Ok _ _ _ pos o2) by (unfold call; by cbn [pe_start set_buff]; rewrite Hl).
  rewrite (proj2 (Z.eqb_neq _ _)) by done.
  rewrite (bind_Ok _ _ _ (size, load_bytes (peek o (pe_pid e)) (pe_start e) (Z.to_nat size), errno) o3)
    by (unfold call; by rewrite Hr).
  cbv beta iota zeta. rewrite s32_small, u64_small, Z.eqb_refl by (subst size; lia). cbn [negb andb].
  by rewrite drop_ge, app_nil_r by (by rewrite length_replicate, length_load_bytes).
Qed.

Lemma map_run e o :
  diffable e → (0 < attempts)%nat →
  ∃ o', util_proc_maps_entry_map attempts e o = Ok (0, set_buff (Buff (entry_bytes o e)) e) o' ∧ same o o'.
Proof.
  intros He Hn. unfold util_proc_maps_entry_map, entry_bytes. rewrite entry_size by done.
  set (size := pe_end e - pe_start e).
  destruct (mmap_succeeds size o) as (o0 & Hm & Hs0 & Hp0).
  rewrite (bind_Ok _ _ _ true o0) by (unfold call; by rewrite Hm). cbn [negb]. cbv zeta. cbn [pe_r set_buff].
  destruct (Ascii.eqb_spec (pe_r e) "r") as [Er|]; cbn [negb]; [|by exists o0].
  rewrite bind_gets. cbn [pe_pid set_buff pe_start].
  destruct (Z.eqb_spec (pe_pid e) (pm_getpid o0)) as [Epid|_].
  - rewrite bind_gets. exists o0. split; [|done]. rewrite (load_bytes_ext (pm_self o0) (peek o (pe_pid e))); [done|].
    intros x _. by rewrite self_is_own, <- Epid, Hs0.
  - destruct (file_is_memory (pe_pid e) (pe_start e) size o0) as (fd & o1 & pos & o2 & err & o3 & Hopen & Hfd & Hl & Hpos & Hr & Hs3 & Hp3);
      [destruct He; subst size; lia|].
    rewrite (bind_Ok _ _ _ fd o1) by (unfold call; by rewrite Hopen).
    rewrite (proj2 (Z.ltb_ge _ _)) by done.
    rewrite (bind_Ok _ _ _ _ _ (read_mem_run e o0 fd o1 pos o2 err o3 He Hn Hl Hpos Hr)).
    unfold map_out. cbn [truthy Z.eqb negb]. rewrite bind_ret. rewrite Hs0. fold size.
    destruct (0 <? fd); eexists; (split; [reflexivity|]).
    + destruct (close_keeps fd o3) as [-> ->]. by rewrite Hs3, Hs0, Hp3, Hp0.
    + by rewrite Hs3, Hs0, Hp3, Hp0.
Qed.

Lemma load_part m a N off n :
  (off + n <= N)%nat → take n (drop off (load_bytes m a N)) = load_bytes m (a + Z.of_nat off) n.
Proof.
  revert a N n. induction off as [|off IH]; intros a N n H.
  - rewrite drop_0, Z.add_0_r. revert a N H. induction n as [|n IHn]; intros a N H; [done|].
    destruct N as [|N]; [lia|]. cbn [load_bytes take]. by rewrite IHn by lia.
  - destruct N as [|N]; [lia|]. cbn [load_bytes drop]. rewrite IH by lia. f_equal. lia.
Qed.

Lemma load_bytes_eq m1 m2 a n :
  load_bytes m1 a n = load_bytes m2 a n ↔ mem_agree (in_block a (Z.of_nat n)) m1 m2.
Proof.
  split; [|apply load_bytes_ext]. intros H x [Hx1 Hx2].
  pose proof (nth_load_bytes m1 a n (Z.to_nat (x - a)) ltac:(lia)) as E1.
  pose proof (nth_load_bytes m2 a n (Z.to_nat (x - a)) ltac:(lia)) as E2.
  rewrite H, E2 in E1. replace (a + Z.of_nat (Z.to_nat (x - a))) with x in E1 by lia. congruence.
Qed.

(** The specification: two entries of one range are the same between two addresses. *)
Record same_entry (o : os) (lo hi : Z) (e e2 : proc_entry) : Prop := {
  se_name : pe_name e = pe_name e2;
  se_prot : pe_r e = pe_r e2 ∧ pe_w e = pe_w e2 ∧ pe_x e = pe_x e2;
  se_shared : pe_s e = pe_s e2;
  se_range : pe_start e = pe_start e2 ∧ pe_end e = pe_end e2;
  se_data : pe_r e = "r"%char → ∀ a, lo <= a < hi → peek o (pe_pid e) a = peek o (pe_pid e2) a;
}.

Lemma part_eq o e e2 lo hi :
  pe_r e = pe_r e2 → pe_start e = pe_start e2 → pe_end e = pe_end e2 →
  pe_start e <= lo < hi → hi <= pe_end e →
  let part (x : proc_entry) := take (Z.to_nat (hi - lo)) (drop (Z.to_nat (lo - pe_start x)) (entry_bytes o x)) in
  part e = part e2 ↔
  (pe_r e = "r"%char → ∀ a, lo <= a < hi → peek o (pe_pid e) a = peek o (pe_pid e2) a).
Proof.
  intros Hr Hs He Hlo Hhi. cbv zeta. unfold entry_bytes. rewrite <- Hr, <- Hs, <- He.
  destruct (Ascii.eqb_spec (pe_r e) "r") as [Er|Er]; [|done].
  rewrite !load_part, load_bytes_eq by lia. unfold mem_agree, in_block.
  split; intros H; [intros _ a Ha; apply H; lia|intros a Ha; apply H; [done|lia]].
Qed.

Lemma data_diff_run o e e2 lo hi :
  diffable e → diffable e2 → (0 < attempts)%nat →
  pe_r e = pe_r e2 → pe_start e = pe_start e2 → pe_end e = pe_end e2 →
  pe_start e <= lo < hi → hi <= pe_end e →
  ∃ r o', util_proc_maps_entry_data_diff attempts e e2 (lo - pe_start e) (lo - pe_start e2) (hi - lo) o
      = Ok (r, e, e2) o' ∧ same o o' ∧ (r = 0 ∨ r = 1) ∧
    (r = 0 ↔ (pe_r e = "r"%char → ∀ a, lo <= a < hi → peek o (pe_pid e) a = peek o (pe_pid e2) a)).
Proof.
  intros De De2 Hn Hr Hs He Hlo Hhi. pose proof (part_eq o e e2 lo hi Hr Hs He Hlo Hhi) as Hp. cbv zeta in Hp.
  unfold util_proc_maps_entry_data_diff. rewrite !entry_size by done.
  rewrite !u64_small by (destruct De; unfold ULONG_MAX in *; lia).
  rewrite !(proj2 (Z.ltb_ge _ _)) by lia. cbn [orb].
  destruct (map_run e o De Hn) as (o1 & H1 & Hs1 & Hg1). rewrite (bind_Ok _ _ _ _ _ H1). cbn [truthy Z.eqb negb].
  destruct (map_run e2 o1 De2 Hn) as (o2 & H2 & Hs2 & Hg2). rewrite (bind_Ok _ _ _ _ _ H2). cbn [truthy Z.eqb negb].
  cbn [buff_part pe_buff set_buff]. unfold buff_part. cbn [pe_buff set_buff].
  assert (entry_bytes o1 e2 = entry_bytes o e2) as -> by (unfold entry_bytes; by rewrite Hs1).
  destruct (unmap_run e (entry_bytes o e) o2 De) as (o3 & H3 & Hs3 & Hg3). rewrite (bind_Ok _ _ _ _ _ H3).
  destruct (unmap_run e2 (entry_bytes o e2) o3 De2) as (o4 & H4 & Hs4 & Hg4). rewrite (bind_Ok _ _ _ _ _ H4).
  eexists _, o4. split; [reflexivity|]. rewrite <- Hp. split; [by rewrite Hs4, Hs3, Hs2, Hs1, Hg4, Hg3, Hg2, Hg1|].
  destruct (bool_decide_reflect (take (Z.to_nat (hi - lo)) (drop (Z.to_nat (lo - pe_start e)) (entry_bytes o e))
    = take (Z.to_nat (hi - lo)) (drop (Z.to_nat (lo - pe_start e2)) (entry_bytes o e2)))); split; try tauto; split; (done || lia).
Qed.

Lemma entry_diff_run o e e2 lo hi :
  diffable e → diffable e2 → (0 < attempts)%nat → pe_start e <= lo < hi → hi <= pe_end e →
  ∃ r o', util_proc_maps_entry_diff attempts e (Some e2) lo hi 0 o = Ok (r, e, Some e2) o' ∧
    same o o' ∧ (r = 0 ↔ same_entry o lo hi e e2).
Proof.
  intros De De2 Hn Hlo Hhi. unfold util_proc_maps_entry_diff.
  assert (∀ f, allowed 0 f = false) as Ha by done. rewrite !Ha.
  rewrite (proj2 (Z.eqb_neq hi 0)) by (destruct De; lia). cbn [negb]. rewrite !andb_true_r.
  assert (Hno : ∀ r, r ≠ 0 → ¬ same_entry o lo hi e e2 →
    ∃ r' o', (mret (r, e, Some e2) : prog os _) o = Ok (r', e, Some e2) o' ∧ same o o' ∧ (r' = 0 ↔ same_entry o lo hi e e2)).
  { intros r Hr Hse. exists r, o. by split_and!. }
  unfold NAME_EQUALS, NAME_EQUALS_STR.
  destruct (bool_decide_reflect (pe_name e = pe_name e2)) as [En|En]; cbn [negb]; [|apply Hno; [done|by intros []]].
  destruct (PROT_EQUALS e e2) eqn:Ep; unfold PROT_EQUALS in Ep; cbn [negb].
  2:{ apply Hno; [done|]. intros []. rewrite !andb_false_iff, !Ascii.eqb_neq in Ep. tauto. }
  rewrite !andb_true_iff, !Ascii.eqb_eq in Ep.
  destruct (SHARED_EQUALS e e2) eqn:Es; unfold SHARED_EQUALS in Es; cbn [negb].
  2:{ apply Hno; [done|]. intros []. by rewrite Ascii.eqb_neq in Es. }
  rewrite Ascii.eqb_eq in Es.
  destruct (OVERLAPS e e2) eqn:Eo; cbn [negb].
  2:{ apply Hno; [done|]. intros [_ _ _ [E1 E2] _]. unfold OVERLAPS in Eo. rewrite !orb_false_iff in Eo.
      destruct Eo as [[[Eo _] _] _]. unfold CONTAINS_ADDR in Eo. destruct De.
      apply andb_false_iff in Eo. rewrite Z.leb_gt, Z.ltb_ge in Eo. lia. }
  destruct (RANGE_EQUALS e e2) eqn:Er; unfold RANGE_EQUALS in Er; cbn [negb].
  2:{ apply Hno; [done|]. intros [_ _ _ [E1 E2] _]. rewrite andb_false_iff, !Z.eqb_neq in Er. tauto. }
  rewrite andb_true_iff, !Z.eqb_eq in Er. destruct Er as [E1 E2].
  replace (Z.max (Z.max lo (pe_start e)) (pe_start e2)) with lo by lia.
  replace (Z.min (Z.min hi (pe_end e)) (pe_end e2)) with hi by lia.
  rewrite (proj2 (Z.leb_gt _ _)) by lia.
  destruct (data_diff_run o e e2 lo hi De De2 Hn) as (r & o' & Hd & Hs & _ & Hr0); [tauto|lia..|].
  rewrite (bind_Ok _ _ _ _ _ Hd). exists r, o'. split; [done|]. split; [done|]. rewrite Hr0.
  split; [by intros; split; tauto|by intros []].
Qed.

(** Whether an entry reaches into the range. *)
Lemma overlaps_range e start end_ :
  diffable e → 0 <= start < end_ → end_ <= ULONG_MAX →
  OVERLAPS e (mk_pe start end_ NUL NUL NUL NUL 0 0 0 0 [] 0 BuffNull) = true ↔
  Z.max start (pe_start e) < Z.min end_ (pe_end e).
Proof.
  intros [] Hs He. unfold OVERLAPS, CONTAINS_ADDR. cbn [pe_start pe_end].
  rewrite !u64_small by (unfold ULONG_MAX in *; lia).
  rewrite !orb_true_iff, !andb_true_iff, !Z.leb_le, !Z.ltb_lt. lia.
Qed.

(** The reference: every mapping of the first map that reaches into the range has its like in
    the second. *)
Definition covered_by (o : os) (start end_ : Z) (maps maps2 : list proc_entry) : Prop :=
  ∀ e, e ∈ maps → Z.max start (pe_start e) < Z.min end_ (pe_end e) →
    ∃ e2, e2 ∈ maps2 ∧ same_entry o (Z.max start (pe_start e)) (Z.min end_ (pe_end e)) e e2.

Lemma lookup_same o maps2 start end_ e :
  maps_sorted maps2 → diffable e → Z.max start (pe_start e) < Z.min end_ (pe_end e) →
  let j := match util_proc_maps_lookup_by_addr maps2 (Z.max start (pe_start e)) with
           | None => util_proc_maps_lookup_by_addr maps2 (Z.min end_ (pe_end e)) | j => j end in
  (∀ i, j = Some i → is_Some (maps2 !! i)) ∧
  ((∃ e2, e2 ∈ maps2 ∧ same_entry o (Z.max start (pe_start e)) (Z.min end_ (pe_end e)) e e2) ↔
   ∃ i e2, j = Some i ∧ maps2 !! i = Some e2 ∧
     same_entry o (Z.max start (pe_start e)) (Z.min end_ (pe_end e)) e e2).
Proof.
  intros Hsorted De Hov j.
  assert (Hl : ∀ a i, util_proc_maps_lookup_by_addr maps2 a = Some i →
    ∃ x, maps2 !! i = Some x ∧ CONTAINS_ADDR x a = true).
  { intros a i H. apply find_from_Some in H. rewrite Nat.sub_0_r in H. tauto. }
  split.
  { intros i. subst j. destruct (util_proc_maps_lookup_by_addr maps2 (Z.max _ _)) as [i'|] eqn:E.
    - intros [= ->]. destruct (Hl _ _ E) as (x & -> & _). by eexists.
    - intros E'. destruct (Hl _ _ E') as (x & -> & _). by eexists. }
  split; [|intros (i & e2 & _ & H2 & Hse); exists e2; split; [by eapply list_elem_of_lookup_2|done]].
  intros (e2 & Hin & Hse). apply list_elem_of_lookup_1 in Hin as [i2 Hi2].
  assert (CONTAINS_ADDR e2 (Z.max start (pe_start e)) = true) as Hc.
  { destruct Hse as [_ _ _ [E1 E2] _]. unfold CONTAINS_ADDR. rewrite andb_true_iff, Z.leb_le, Z.ltb_lt. lia. }
  subst j. destruct (util_proc_maps_lookup_by_addr maps2 (Z.max _ _)) as [i|] eqn:E.
  - destruct (Hl _ _ E) as (x & Hx & Hcx).
    assert (i = i2) as -> by (by eapply sorted_unique). simplify_eq. by exists i2, e2.
  - apply find_from_None in E. rewrite Forall_lookup in E. rewrite (E _ _ Hi2) in Hc. done.
Qed.

Lemma same_entry_peek o o' lo hi e e2 : peek o' = peek o → same_entry o' lo hi e e2 → same_entry o lo hi e e2.
Proof. intros E []. split; try done. by rewrite <- E. Qed.

Lemma covered_by_peek o o' start end_ maps maps2 :
  peek o' = peek o → covered_by o' start end_ maps maps2 ↔ covered_by o start end_ maps maps2.
Proof.
  intros E. unfold covered_by. split; intros H e He Hov; destruct (H e He Hov) as (e2 & H2 & Hse); exists e2;
    (split; [done|by eapply same_entry_peek]).
Qed.

Lemma covered_by_cons o start end_ e maps maps2 :
  covered_by o start end_ (e :: maps) maps2 ↔
  (Z.max start (pe_start e) < Z.min end_ (pe_end e) →
     ∃ e2, e2 ∈ maps2 ∧ same_entry o (Z.max start (pe_start e)) (Z.min end_ (pe_end e)) e e2) ∧
  covered_by o start end_ maps maps2.
Proof.
  unfold covered_by. setoid_rewrite elem_of_cons. split.
  - intros H. split; [apply H; by left|]. intros x Hx. apply H. by right.
  - intros [H1 H2] x [->|Hx]; [done|by apply H2].
Qed.

Lemma put_entry_id j e maps : (∀ i, j = Some i → maps !! i = e) → put_entry j e maps = maps.
Proof. destruct j as [i|], e as [e|]; cbn; try done. intros H. apply list_insert_id, H. done. Qed.

(** One comparison of the loop. *)
Lemma diff_entry_run o maps2 start end_ e :
  let lo := Z.max start (pe_start e) in
  let hi := Z.min end_ (pe_end e) in
  let j := match util_proc_maps_lookup_by_addr maps2 lo with
           | None => util_proc_maps_lookup_by_addr maps2 hi | j => j end in
  let entry2 := j ← j; maps2 !! j in
  maps_sorted maps2 → Forall diffable maps2 → diffable e → (0 < attempts)%nat → lo < hi →
  put_entry j entry2 maps2 = maps2 ∧
  ∃ r o', util_proc_maps_entry_diff attempts e entry2 lo hi 0 o = Ok (r, e, entry2) o' ∧ same o o' ∧
    (r = 0 ↔ ∃ e2, e2 ∈ maps2 ∧ same_entry o lo hi e e2).
Proof.
  intros lo hi j entry2 Hsorted Hall De Hn Hov.
  destruct (lookup_same o maps2 start end_ e Hsorted De Hov) as [Hsome Hex]. fold lo hi in Hsome, Hex. fold j in Hsome, Hex.
  split; [apply put_entry_id; subst entry2; by intros i ->|].
  setoid_rewrite Hex. destruct j as [i|] eqn:Ej.
  - destruct (Hsome i eq_refl) as [e2 He2]. subst entry2. cbn [mbind option_bind]. rewrite He2.
    rewrite Forall_lookup in Hall. destruct (entry_diff_run o e e2 lo hi De (Hall _ _ He2) Hn) as (r & o' & Hr & Hs & H0);
      [lia|lia|]. exists r, o'. split; [done|]. split; [done|]. rewrite H0. split; [by exists i, e2|].
    intros (i' & e2' & [= <-] & ? & ?). congruence.
  - exists 1, o. split_and!; [done..|]. split; [done|]. by intros (? & ? & ? & _).
Qed.

Lemma diff_loop_run maps maps2 start end_ k i o :
  maps_sorted maps2 → Forall diffable maps → Forall diffable maps2 → (0 < attempts)%nat →
  0 <= start < end_ → end_ <= ULONG_MAX → (i + k = length maps)%nat →
  ∃ r o', diff_loop attempts k i maps maps2 start end_ 0 None 0 o = Ok (r, maps, maps2) o' ∧ same o o' ∧
    (r = 0 ↔ covered_by o start end_ (drop i maps) maps2).
Proof.
  intros Hsorted Hd Hd2 Hn Hse He. revert i o. induction k as [|k IH]; intros i o Hik; cbn [diff_loop].
  - exists 0, o. split_and!; [done..|]. rewrite drop_ge by lia. split; [|done]. by intros _ e ?%elem_of_nil.
  - destruct (lookup_lt_is_Some_2 maps i) as [e Ei]; [lia|]. rewrite Ei, (drop_S _ _ _ Ei). setoid_rewrite covered_by_cons.
    assert (De : diffable e) by (by apply (Forall_lookup_1 _ _ _ _ Hd Ei)).
    destruct (OVERLAPS e _) eqn:Eo.
    + rewrite overlaps_range in Eo by done. cbv zeta.
      destruct (diff_entry_run o maps2 start end_ e Hsorted Hd2 De Hn Eo) as (Hput & r & o1 & Hr & [Hs1 Hg1] & H0).
      rewrite (bind_Ok _ _ _ _ _ Hr), Hput, list_insert_id by done.
      destruct (decide (r = 0)) as [->|Hne].
      * change (truthy 0) with false. cbv iota.
        destruct (IH (S i) o1) as (r' & o2 & -> & [Hs2 Hg2] & H0'); [lia|]. exists r', o2.
        split; [done|]. split; [by rewrite Hs2, Hs1, Hg2, Hg1|].
        rewrite H0', (covered_by_peek o o1) by done. tauto.
      * unfold truthy. rewrite (proj2 (Z.eqb_neq r 0)) by done. cbn [negb]. exists r, o1.
        split; [done|]. split; [done|]. split; [done|]. intros [H _]. apply H0, H. lia.
    + assert (¬ Z.max start (pe_start e) < Z.min end_ (pe_end e)) as Hno
        by (by rewrite <- (overlaps_range e start end_), Eo by done).
      destruct (IH (S i) o) as (r' & o2 & -> & Hs & H0'); [lia|]. exists r', o2.
      split; [done|]. split; [done|]. rewrite H0'. tauto.
Qed.

(** C38: With nothing allowed and no callback, the comparison of two process maps between two addresses
    returns 0 exactly if every mapping of the first that reaches into the range has a mapping of the
    second with its name, permissions and bounds and, where it can be read, with its bytes inside the
    range; no buffer is left in either map.  The memory of the processes is read in one piece and
    does not change, and mappings are smaller than 2^31 bytes. *)
Theorem maps_diff_exact maps maps2 start end_ o :
  let top := if end_ =? 0 then ULONG_MAX else end_ in
  maps_sorted maps2 → Forall diffable maps → Forall diffable maps2 → (0 < attempts)%nat →
  0 <= start < top → top <= ULONG_MAX →
  ∃ r o', util_proc_maps_diff attempts maps maps2 start end_ 0 None o = Ok (r, maps, maps2) o' ∧
    peek o' = peek o ∧ (r = 0 ↔ covered_by o start top maps maps2).
Proof.
  intros top Hsorted Hd Hd2 Hn Hs He.
  destruct (diff_loop_run maps maps2 start top (length maps) 0 o) as (r & o' & Hr & [Hp _] & H0); [done..|].
  rewrite drop_0 in H0. by exists r, o'.
Qed.

(** Different data is reported by the code of a missing entry, not by that of the flag that
    allows it. *)
Theorem data_diff_reported_as_no_entry o e e2 lo hi a :
  diffable e → diffable e2 → (0 < attempts)%nat → pe_start e <= lo < hi → hi <= pe_end e →
  pe_name e = pe_name e2 → pe_r e = "r"%char → pe_r e2 = "r"%char → pe_w e = pe_w e2 → pe_x e = pe_x e2 →
  pe_s e = pe_s e2 → pe_start e = pe_start e2 → pe_end e = pe_end e2 →
  lo <= a < hi → peek o (pe_pid e) a ≠ peek o (pe_pid e2) a →
  ∃ o', util_proc_maps_entry_diff attempts e (Some e2) lo hi 0 o = Ok (DIFF_FLAG ALLOW_NO_ENTRY, e, Some e2) o'.
Proof.
  intros De De2 Hn Hlo Hhi En Er Er2 Ew Ex Es E1 E2 Ha Hne. unfold util_proc_maps_entry_diff.
  assert (∀ f, allowed 0 f = false) as Hal by done. rewrite !Hal.
  rewrite (proj2 (Z.eqb_neq hi 0)) by (destruct De; lia).
  assert (NAME_EQUALS e e2 = true) as -> by (by apply bool_decide_eq_true).
  assert (PROT_EQUALS e e2 = true) as ->
    by (unfold PROT_EQUALS; rewrite !andb_true_iff, !Ascii.eqb_eq; split_and!; congruence).
  assert (SHARED_EQUALS e e2 = true) as -> by (by apply Ascii.eqb_eq).
  assert (RANGE_EQUALS e e2 = true) as -> by (by unfold RANGE_EQUALS; rewrite E1, E2, !Z.eqb_refl).
  assert (OVERLAPS e e2 = true) as ->.
  { unfold OVERLAPS. rewrite !orb_true_iff. do 3 left. unfold CONTAINS_ADDR. rewrite andb_true_iff. lia. }
  cbn [negb andb].
  replace (Z.max (Z.max lo (pe_start e)) (pe_start e2)) with lo by lia.
  replace (Z.min (Z.min hi (pe_end e)) (pe_end e2)) with hi by lia.
  rewrite (proj2 (Z.leb_gt _ _)) by lia.
  destruct (data_diff_run o e e2 lo hi De De2 Hn) as (r & o' & Hd & _ & Hr & Hr0); [congruence|done..|].
  rewrite (bind_Ok _ _ _ _ _ Hd). exists o'. destruct Hr as [->| ->]; [|done].
  destruct Hne. by apply (proj1 Hr0 eq_refl Er).
Qed.

End Exact.

(** ** An example *)

Module Example.

(** Memory by the path of its file; process 1 compares, a file is read at the position set. *)
Record fs := mk_fs { mems : cstr → mem; path : cstr; pos : Z }.

#[local] Instance ex_mem : ProcMem fs := {|
  pm_mmap _ o := (true, o);
  pm_munmap _ o := o;
  pm_getpid _ := 1;
  pm_self o := mems o (mem_path 1);
  pm_open p o := (3, mk_fs (mems o) p 0);
  pm_lseek _ a o := (a `mod` 2 ^ 63, mk_fs (mems o) (path o) a);
  pm_read _ n o := (n, load_bytes (mems o (path o)) (pos o) (Z.to_nat n), 0, o);
  pm_close _ o := o;
|}.

Definition ex_peek (o : fs) (pid : Z) : mem := mems o (mem_path pid).

#[local] Instance ex_readable : ReadableMem fs ex_peek.
Proof.
  split.
  - intros n o. by exists o.
  - done.
  - done.
  - done.
  - intros pid a n o Hn. exists 3, (mk_fs (mems o) (mem_path pid) 0), (a `mod` 2 ^ 63), (mk_fs (mems o) (mem_path pid) a), 0,
      (mk_fs (mems o) (mem_path pid) a).
    split_and!; try done. pose proof (Z.mod_pos_bound a (2 ^ 63)). lia.
Qed.

Definition ex_data (pid : Z) : proc_entry :=
  mk_pe 4096 4112 "r" "w" "-" "p" 0 8 1 77 (lit "/bin/ls") pid BuffNull.

(** Two processes with one byte that differs. *)
Definition ex_fs : fs :=
  mk_fs (λ p a, if bool_decide (p = mem_path 2) && (a =? 4100) then 7 else 5) [] 0.

Lemma ex_diffable pid : Forall diffable [ex_data pid].
Proof. repeat constructor; cbn; unfold ULONG_MAX; lia. Qed.

Lemma ex_sorted pid : maps_sorted [ex_data pid].
Proof.
  split.
  - intros [|j] e; cbn; [|done]. intros [= <-]. cbn. lia.
  - intros i [|j] a b Hij; [lia|]. cbn. done.
Qed.

(** Below the byte the processes agree, beyond it they do not. *)
Lemma maps_diff_exact_witness :
  (∃ r o', util_proc_maps_diff 1 [ex_data 1] [ex_data 2] 4096 4100 0 None ex_fs = Ok (r, [ex_data 1], [ex_data 2]) o' ∧
    ex_peek o' = ex_peek ex_fs ∧ (r = 0 ↔ covered_by ex_peek ex_fs 4096 4100 [ex_data 1] [ex_data 2])) ∧
  returned (util_proc_maps_diff 1 [ex_data 1] [ex_data 2] 4096 4100 0 None ex_fs) = Some (0, [ex_data 1], [ex_data 2]) ∧
  returned (util_proc_maps_diff 1 [ex_data 1] [ex_data 2] 4096 0 0 None ex_fs) = Some (1, [ex_data 1], [ex_data 2]).
Proof.
  split; [|by split; vm_compute].
  apply (maps_diff_exact ex_peek 1 [ex_data 1] [ex_data 2] 4096 4100 ex_fs);
    [apply ex_sorted|apply ex_diffable|apply ex_diffable|lia|cbn; lia|cbn; unfold ULONG_MAX; lia].
Defined.

End Example.
