(* ===== verification/Shadow.v ===== *)
(** * Shadow memory: the smmap and dune mechanisms, and the baseline

    [mechanisms/smmap/ltckpt_smmap.c] and [mechanisms/dune/ltckpt_dune.c]: the kernel, or a
    library that virtualises the process, checkpoints an area of memory; the mechanisms choose
    the area and ask for checkpoints.  [mechanisms/ltckpt_baseline.c] has empty hooks.

    The context of the checkpointing library must stay out of the area, or a rollback would
    undo its counters; both mechanisms move it to a page of its own and start the area behind
    it.  The services are the classes [SmMap] and [Dune]; [ProcText] is the process map with
    all the fields of its entries. *)
From stdpp Require Import base numbers list strings option.
From Stdlib Require Import ZArith Lia Ascii.
From S2P Require Import Prelude Memory CString Ctx Profiling Writelog Common BufRead ProcMaps ProcScan ProcInfo.

(** ** State *)

(** [sizeof(ltckpt_ctx_t)] on x86-64. *)
Definition sizeof_ctx : Z := 144.

(** The global pointer [ltckpt_ctx] and the context it points to. *)
Record ctx_ref := mk_ref { ctx_ptr : Z; ctx_val : ltckpt_ctx }.

Definition set_ctx_val (v : ltckpt_ctx) (s : ctx_ref) : ctx_ref := mk_ref (ctx_ptr s) v.

(** [ltckpt_ctx_set]: the context is copied, and used at its new place. *)
Definition ltckpt_ctx_set (ctx : Z) (s : ctx_ref) : ctx_ref := mk_ref ctx (ctx_val s).

#[export] Instance proc_entry_start : HasStart proc_entry := pe_start.

(** The lines of [/proc/self/maps] with all their fields. *)
Class ProcText (os : Type) := proc_lines : os → option (list (option proc_entry)).

(** [smctl(SMMAP_SMCTL_CHECKPOINT, 0)] and [smmap] of an area with its shadow. *)
Class SmMap (os : Type) := {
  smctl_checkpoint : os → Z * os;
  smmap : Z → Z → Z → os → Z * os;  (** address, shadow address, size *)
  atfork_child : os → os;  (** [pthread_atfork] with the initialisation as child handler *)
}.

(** [libdune]. *)
Class Dune (os : Type) := {
  dsmmap_available : os → bool;
  dsm_num_cows : os → Z;  (** [DSMMAP_STAT(num_cows)] *)
  dsm_clear_cows : os → os;
  dsmmap_init : os → Z * os;
  dsmmap : Z → Z → os → Z * os;  (** address, size *)
  dsmctl_checkpoint : os → os;
}.

Definition SHADOW_FROM : Z := 0x7f0000000000.
Definition SHADOW_SIZE : Z := 0x010000000000.
Definition SHADOW_TO : Z := 0x010000000000.

Section Shadow.
Context {os : Type} `{vmem : VMem os} `{procfs : ProcFs os} `{ptext : ProcText os}.
Context `{smm : SmMap os} `{dune : Dune os}.

(** The addresses of [main], of [__data_start] and of a heap block; the process. *)
Context (main_addr data_addr heap_addr pid : Z).

Local Abbreviation P := (prog (ctx_ref * os)).

Definition getc {A} (f : ltckpt_ctx → A) : P A := gets (λ s, f (ctx_val s.1)).
Definition updc (f : ltckpt_ctx → ltckpt_ctx) : P () :=
  modify (λ s, (set_ctx_val (f (ctx_val s.1)) s.1, s.2)).
Definition sysc {A} (f : os → A * os) : P A := λ s, let '(r, o) := f s.2 in Ok r (s.1, o).

(** [util_proc_maps_parse]: every entry is saved. *)
Definition util_proc_maps_parse : P (Z * list proc_entry) :=
  parse_filter proc_lines (λ _, UTIL_PROC_MAPS_RET_SAVE).

(** The start of the [prog] area and the end of the heap; an access through NULL if the map
    has no heap. *)
Definition prog_to_heap : P (Z * Z) :=
  r ← util_proc_maps_parse;
  when (truthy r.1) (halt Panic) ;;
  match util_proc_maps_get_info main_addr data_addr heap_addr pid r.2 with
  | None => halt Undefined
  | Some info =>
      match heap (i_scan info) ≫= λ j, r.2 !! j with
      | None => halt Sigsegv
      | Some h => mret (pe_start (i_prog info), pe_end h)
      end
  end.

(** The context moves to a page of its own. *)
Definition move_ctx : P Z :=
  ctx ← sysc (ltkcpt_ctx_get_buff MIN_MMAP_ADDR sizeof_ctx);
  assert (negb (ctx =? 0)) ;;
  assert (sizeof_ctx <=? PAGE_SIZE) ;;
  modify (λ s, (ltckpt_ctx_set ctx s.1, s.2)) ;;
  updc (set_initialized 1) ;;
  mret ctx.

(** ** smmap *)

(** The area behind the context's page and its guard page. *)
Definition skip_ctx (ctx addr size : Z) : Z * Z :=
  if addr <=? ctx then
    let offset := u64 (ctx + 2 * PAGE_SIZE - addr) in (u64 (addr + offset), u64 (size - offset))
  else (addr, size).

Definition ltckpt_init_smmap : P () :=
  ctx ← move_ctx;
  skip ← getc (λ c, truthy (skip_mmap c));
  r ← (if skip : bool then ph ← prog_to_heap; mret (ph.1, u64 (ph.2 - ph.1))
       else mret (SHADOW_FROM, SHADOW_SIZE));
  let '(addr, size) := skip_ctx ctx r.1 r.2 in
  ret ← sysc (smmap addr SHADOW_TO size);
  when (ret <? 0) (halt Panic).

Definition smmap_top_of_the_loop : P () :=
  go ← getc (λ c, fst (CTX_NEW_TOL_OR_RETURN c));
  updc (λ c, snd (CTX_NEW_TOL_OR_RETURN c)) ;;
  if negb go then skip else
  init ← getc initialized;
  when (negb (truthy init)) ltckpt_init_smmap ;;
  ret ← sysc smctl_checkpoint;
  when (ret <? 0) (halt Panic) ;;
  updc CTX_NEW_CHECKPOINT.

Definition smmap_late_init_hook : P () :=
  lazy ← getc lazy_init;
  when (negb (truthy lazy)) (modify (λ s, (s.1, atfork_child s.2)) ;; ltckpt_init_smmap).

(** ** dune *)

Definition ltckpt_init_dsmmap : P () :=
  ctx ← move_ctx;
  ret ← sysc dsmmap_init;
  assert (ret =? 0) ;;
  skip ← getc (λ c, truthy (skip_mmap c));
  r ← (if skip : bool then ph ← prog_to_heap; mret (ph.1, u64 (ph.2 - ph.1))
       else let start := u64 (ctx + PAGE_SIZE * 2) in mret (start, ULONG_MAX - start));
  ret ← sysc (dsmmap r.1 r.2);
  assert (ret =? 0).

Definition dune_top_of_the_loop : P () :=
  avail ← gets (λ s, dsmmap_available s.2);
  when avail (n ← gets (λ s, dsm_num_cows s.2);
              updc (λ c, set_num_cows (u64 (num_cows c + n)) c) ;;
              modify (λ s, (s.1, dsm_clear_cows s.2))) ;;
  go ← getc (λ c, fst (CTX_NEW_TOL_OR_RETURN c));
  updc (λ c, snd (CTX_NEW_TOL_OR_RETURN c)) ;;
  if negb go then skip else
  init ← getc initialized;
  when (negb (truthy init)) ltckpt_init_dsmmap ;;
  modify (λ s, (s.1, dsmctl_checkpoint s.2)) ;;
  updc CTX_NEW_CHECKPOINT.

Definition dune_late_init_hook : P () :=
  avail ← gets (λ s, dsmmap_available s.2);
  if negb avail then updc (set_checkpoint_interval 0) else
  c ← getc id;
  when (negb (truthy (lazy_init c)) && truthy (checkpoint_interval c)) ltckpt_init_dsmmap.

(** ** Baseline *)

(** [LTCKPT_DECLARE_BASELINE_HOOKS]: the hooks at a top of the loop, a store and a copy. *)
Definition baseline_top_of_the_loop : P () := skip.
Definition baseline_store_hook (addr : Z) : P () := skip.
Definition baseline_memcpy_hook (addr size : Z) : P () := skip.

End Shadow.

(** ** The area *)

(** The bytes of an area of [n] bytes at [a]. *)
Definition in_area (a n x : Z) : Prop := a <= x < a + n.

Lemma skip_ctx_area ctx addr size :
  0 <= addr → 0 <= size → addr + size <= ULONG_MAX → 0 <= ctx →
  (addr <= ctx → ctx + 2 * PAGE_SIZE <= addr + size) →
  ∀ x, in_area (skip_ctx ctx addr size).1 (skip_ctx ctx addr size).2 x ↔
       in_area addr size x ∧ (addr <= ctx → ctx + 2 * PAGE_SIZE <= x).
Proof.
  intros Ha Hs Hm Hc Hfit x. unfold skip_ctx, in_area, ULONG_MAX, PAGE_SIZE in *.
  destruct (Z.leb_spec addr ctx) as [Hle|Hgt]; cbn [fst snd]; [|lia].
  specialize (Hfit Hle). rewrite !u64_small by (rewrite ?u64_small by lia; lia). lia.
Qed.

(** The page of the context is not in the area. *)
Lemma skip_ctx_excludes ctx addr size x :
  0 <= addr → 0 <= size → addr + size <= ULONG_MAX → 0 <= ctx →
  (addr <= ctx → ctx + 2 * PAGE_SIZE <= addr + size) →
  addr mod PAGE_SIZE = 0 → ctx mod PAGE_SIZE = 0 →
  in_block ctx PAGE_SIZE x → ¬ in_area (skip_ctx ctx addr size).1 (skip_ctx ctx addr size).2 x.
Proof.
  intros Ha Hs Hm Hc Hfit Hal Hcl Hx Hin. apply skip_ctx_area in Hin as [Hin Hle]; try done.
  unfold in_block, in_area, PAGE_SIZE in *. destruct (decide (addr <= ctx)); [lia|].
  assert (addr = 4096 * (addr / 4096)) by (apply Z.div_exact; lia).
  assert (ctx = 4096 * (ctx / 4096)) by (apply Z.div_exact; lia). lia.
Qed.

Section Run.
Context {os : Type} `{vmem : VMem os} `{procfs : ProcFs os} `{ptext : ProcText os}.
Context `{smm : SmMap os} `{dune : Dune os}.
Context (main_addr data_addr heap_addr pid : Z).

(** The map of the process: sorted, and every entry is still mapped. *)
Record map_is (o : os) (es : list proc_entry) : Prop := {
  map_lines : proc_lines o = Some (Some <$> es);
  map_sorted : maps_sorted es;
  map_mapped : ∀ e, e ∈ es → mincore_errno (pe_start e) o = EFAULT;
}.

(** The entries of [main], of the data and of the heap. *)
Record prog_entries (es : list proc_entry) (t d h : proc_entry) : Prop := {
  pr_t : t ∈ es; pr_d : d ∈ es; pr_h : h ∈ es;
  pr_tm : IS_MMAP t = false; pr_dm : IS_MMAP d = false; pr_hm : IS_MMAP h = false;
  pr_tc : CONTAINS_ADDR t main_addr = true;
  pr_dc : CONTAINS_ADDR d data_addr = true;
  pr_hc : CONTAINS_ADDR h heap_addr = true;
  pr_d1 : CONTAINS_ADDR d main_addr = false;
  pr_d2 : CONTAINS_ADDR d (PROG_RO_ADDR data_addr) = false;
  pr_h1 : CONTAINS_ADDR h main_addr = false;
  pr_h2 : CONTAINS_ADDR h (PROG_RO_ADDR data_addr) = false;
  pr_h3 : CONTAINS_ADDR h data_addr = false;
}.

Lemma parse_lines_all {E} (l acc : list E) :
  parse_lines (λ _, UTIL_PROC_MAPS_RET_SAVE) (Some <$> l) acc = (0, acc ++ l).
Proof.
  revert acc. induction l as [|e l IH]; intros acc; cbn [fmap list_fmap parse_lines].
  - by rewrite app_nil_r.
  - by rewrite IH, <- app_assoc.
Qed.

Lemma remove_unmapped_all (es : list proc_entry) (s : ctx_ref) (o : os) :
  (∀ e, e ∈ es → mincore_errno (pe_start e) o = EFAULT) →
  util_proc_maps_remove_unmapped es (s, o) = Ok es (s, o).
Proof.
  induction es as [|e es IH]; intros H; [done|]. cbn [util_proc_maps_remove_unmapped].
  unfold util_proc_maps_entry_mapped. rewrite bind_assoc, bind_gets. cbn [snd].
  change (entry_start e) with (pe_start e). rewrite (H e ltac:(left)).
  change (EFAULT =? 0) with false. change (EFAULT =? ENOMEM) with false.
  change (EFAULT =? EFAULT) with true.
  rewrite bind_assoc, bind_assert, bind_assoc, bind_assert, bind_ret by done.
  rewrite (bind_Ok _ _ _ _ _ (IH (λ e' He', H e' (list_elem_of_further _ _ _ He')))). done.
Qed.

Lemma parse_run (s : ctx_ref) (o : os) es :
  map_is o es → util_proc_maps_parse (s, o) = Ok (0, es) (s, o).
Proof.
  intros [Hl _ Hm]. unfold util_proc_maps_parse, parse_filter. rewrite bind_gets. cbn [snd].
  rewrite Hl, parse_lines_all. cbn [negb Z.eqb]. by rewrite (bind_Ok _ _ _ _ _ (remove_unmapped_all _ _ _ Hm)).
Qed.

(** The bounds of the program and its heap. *)
Lemma prog_to_heap_run (s : ctx_ref) (o : os) es t d h :
  map_is o es → prog_entries es t d h →
  prog_to_heap main_addr data_addr heap_addr pid (s, o) = Ok (pe_start t, pe_end h) (s, o).
Proof.
  intros Hm [Ht Hd Hh ???????????]. unfold prog_to_heap. rewrite (bind_Ok _ _ _ _ _ (parse_run s o es Hm)).
  cbn [fst snd]. rewrite bind_when_false by done.
  destruct (get_info_total main_addr data_addr heap_addr pid es) as [info Hi].
  { intros ->. by apply not_elem_of_nil in Ht. }
  rewrite Hi.
  apply list_elem_of_lookup in Ht as [jt Ht]. apply list_elem_of_lookup in Hd as [jd Hd].
  apply list_elem_of_lookup in Hh as [jh Hh].
  destruct (info_prog_heap main_addr data_addr heap_addr pid es info jt jd jh t d h) as (-> & _ & ->);
    try done; [apply Hm|]. cbn [mbind option_bind]. by rewrite Hh.
Qed.

Lemma move_ctx_run s (o o1 : os) ctx :
  ltkcpt_ctx_get_buff MIN_MMAP_ADDR sizeof_ctx o = (ctx, o1) → ctx ≠ 0 →
  move_ctx (s, o) = Ok ctx (mk_ref ctx (set_initialized 1 (ctx_val s)), o1).
Proof.
  intros Hb Hne. unfold move_ctx.
  rewrite (bind_Ok _ _ _ ctx (s, o1)) by (unfold sysc; cbn [snd fst]; by rewrite Hb).
  by rewrite bind_assert by by rewrite (proj2 (Z.eqb_neq _ _)).
Qed.

(** C23: smmap shadows the program from the entry of [main] to the end of its heap, and not the
    context. Let the map of the process be readable, sorted and of mapped entries only, and let
    main, the data and the heap be in three separate mappings of it that are the program's as the
    code recognises them ([prog_entries]: neither anonymous nor named like a library, that is, not
    under /lib or /usr/lib; a program installed there is not covered), and that do not contain the
    page before the data, main's apart. Let the addresses not wrap, the program and the context
    start at pages, and the context, if it is behind the start of the program, be at least two
    pages below the end of the heap. With [skip_mmap] set and a page for the context to be had,
    the initialisation moves the context to a page of its own and hands the kernel the area whose
    bytes are those from the start of the program to the end of the heap, without the bytes up to
    the context's guard page if the context is behind the start of the program; no byte of the
    context's page is in it; if the kernel refuses the area, the library panics. *)
Theorem smmap_shadows_program s (o o1 : os) ctx es t d h :
  ltkcpt_ctx_get_buff MIN_MMAP_ADDR sizeof_ctx o = (ctx, o1) → ctx ≠ 0 →
  truthy (skip_mmap (ctx_val s)) = true → map_is o1 es → prog_entries es t d h →
  pe_start t <= pe_end h → pe_end h <= ULONG_MAX → 0 <= ctx →
  (pe_start t <= ctx → ctx + 2 * PAGE_SIZE <= pe_end h) →
  pe_start t mod PAGE_SIZE = 0 → ctx mod PAGE_SIZE = 0 →
  ∃ a n,
    (∀ x, in_area a n x ↔ pe_start t <= x < pe_end h ∧ (pe_start t <= ctx → ctx + 2 * PAGE_SIZE <= x)) ∧
    (∀ x, in_block ctx PAGE_SIZE x → ¬ in_area a n x) ∧
    ltckpt_init_smmap main_addr data_addr heap_addr pid (s, o)
    = let '(ret, o2) := smmap a SHADOW_TO n o1 in
      let s' := mk_ref ctx (set_initialized 1 (ctx_val s)) in
      if ret <? 0 then Stop Panic (s', o2) else Ok () (s', o2).
Proof.
  intros Hb Hne Hskip Hm Hp Hth Hmax Hc Hfit Ht Hcl.
  assert (0 < pe_start t) as Hpos.
  { pose proof (pr_t _ _ _ _ Hp) as [j Hj]%list_elem_of_lookup. by apply (sorted_range es (map_sorted _ _ Hm) j). }
  set (an := skip_ctx ctx (pe_start t) (pe_end h - pe_start t)). exists an.1, an.2.
  split; [|split].
  - intros x. unfold an. rewrite skip_ctx_area by lia. unfold in_area.
    by replace (pe_start t + (pe_end h - pe_start t)) with (pe_end h) by lia.
  - intros x Hx. unfold an. apply skip_ctx_excludes; try done; lia.
  - unfold ltckpt_init_smmap. rewrite (bind_Ok _ _ _ _ _ (move_ctx_run s o o1 ctx Hb Hne)).
    unfold getc. rewrite bind_gets. cbn [fst snd ctx_val].
    change (skip_mmap (set_initialized 1 (ctx_val s))) with (skip_mmap (ctx_val s)). rewrite Hskip.
    rewrite bind_assoc, (bind_Ok _ _ _ _ _ (prog_to_heap_run _ _ _ _ _ _ Hm Hp)), bind_ret.
    cbn [fst snd]. rewrite u64_small by (unfold ULONG_MAX in *; lia). fold an.
    destruct an as [a n]. cbn [fst snd]. unfold sysc, mbind, prog_bind. cbn [snd fst].
    destruct (smmap a SHADOW_TO n o1) as [ret o2]. by destruct (ret <? 0).
Qed.

(** Without [skip_mmap], dune checkpoints everything behind the context's guard page but the
    last byte of the address space. *)
Theorem dune_area_behind_context s (o o1 o2 : os) ctx :
  ltkcpt_ctx_get_buff MIN_MMAP_ADDR sizeof_ctx o = (ctx, o1) → ctx ≠ 0 →
  0 <= ctx → ctx + 2 * PAGE_SIZE <= ULONG_MAX →
  truthy (skip_mmap (ctx_val s)) = false → dsmmap_init o1 = (0, o2) →
  ∃ a n,
    (∀ x, in_area a n x ↔ ctx + 2 * PAGE_SIZE <= x < ULONG_MAX) ∧
    ltckpt_init_dsmmap main_addr data_addr heap_addr pid (s, o)
    = let '(ret, o3) := dsmmap a n o2 in
      let s' := mk_ref ctx (set_initialized 1 (ctx_val s)) in
      if ret =? 0 then Ok () (s', o3) else Stop AssertFail (s', o3).
Proof.
  intros Hb Hne Hc Hmax Hskip Hi.
  exists (ctx + 2 * PAGE_SIZE), (ULONG_MAX - (ctx + 2 * PAGE_SIZE)). split.
  - intros x. unfold in_area. lia.
  - unfold ltckpt_init_dsmmap. rewrite (bind_Ok _ _ _ _ _ (move_ctx_run s o o1 ctx Hb Hne)).
    rewrite (bind_Ok _ _ _ 0 (mk_ref ctx (set_initialized 1 (ctx_val s)), o2))
      by (unfold sysc; cbn [snd fst]; by rewrite Hi).
    rewrite bind_assert by done. unfold getc. rewrite bind_gets. cbn [fst snd ctx_val].
    change (skip_mmap (set_initialized 1 (ctx_val s))) with (skip_mmap (ctx_val s)). rewrite Hskip.
    cbv zeta. rewrite bind_ret. cbn [fst snd].
    replace (u64 (ctx + PAGE_SIZE * 2)) with (ctx + 2 * PAGE_SIZE)
      by (unfold ULONG_MAX, PAGE_SIZE in *; rewrite u64_small; lia).
    unfold sysc, mbind, prog_bind. cbn [snd fst].
    destruct (dsmmap _ _ o2) as [ret o3]. by destruct (ret =? 0).
Qed.

(** ** Tops of the loop *)

Definition smctl_next (o : os) : os := (smctl_checkpoint o).2.

Fixpoint smmap_tols (n : nat) : prog (ctx_ref * os) () :=
  match n with
  | O => skip
  | S n' => smmap_tols n' ;; smmap_top_of_the_loop main_addr data_addr heap_addr pid
  end.

Lemma ctx_tol_initialized c : initialized (ctx_tol c) = initialized c.
Proof. unfold ctx_tol, CTX_NEW_TOL_OR_RETURN. by destruct (tol_returns c). Qed.

Lemma smmap_tol_run (s : ctx_ref) (o : os) :
  truthy (initialized (ctx_val s)) = true → 0 <= (smctl_checkpoint o).1 →
  smmap_top_of_the_loop main_addr data_addr heap_addr pid (s, o)
  = Ok () (set_ctx_val (ctx_tol (ctx_val s)) s, if tol_returns (ctx_val s) then o else smctl_next o).
Proof.
  intros Hi Hs. unfold smmap_top_of_the_loop, getc, updc. rewrite bind_gets, bind_modify. cbn [fst snd].
  unfold ctx_tol, CTX_NEW_TOL_OR_RETURN. destruct (tol_returns (ctx_val s)); cbn [fst snd negb]; [done|].
  rewrite bind_gets. cbn [fst snd ctx_val set_ctx_val].
  change (initialized (CTX_INC num_tols set_num_tols (ctx_val s))) with (initialized (ctx_val s)).
  rewrite Hi, bind_when_false by done. unfold sysc, smctl_next, mbind, prog_bind. cbn [snd fst].
  destruct (smctl_checkpoint o) as [ret o']. cbn [fst] in Hs. by rewrite (proj2 (Z.ltb_ge _ _)).
Qed.

Lemma num_checkpoints_tol c :
  num_checkpoints (ctx_tol c) = if tol_returns c then num_checkpoints c else u64 (num_checkpoints c + 1).
Proof. unfold ctx_tol, CTX_NEW_TOL_OR_RETURN. by destruct (tol_returns c). Qed.

(** The kernel is asked for exactly the checkpoints the context counts.  Once the
    mechanism is initialised, [n] tops of the loop return, change the context as [n] steps of
    its specification do, and call the kernel [k] times, [k] being what is added to the
    number of checkpoints. *)
Theorem smmap_checkpoints_counted n (s : ctx_ref) (o : os) :
  truthy (initialized (ctx_val s)) = true → (∀ o', 0 <= (smctl_checkpoint o').1) →
  0 <= num_checkpoints (ctx_val s) → num_checkpoints (ctx_val s) + Z.of_nat n <= ULONG_MAX →
  ∃ k, smmap_tols n (s, o) = Ok () (set_ctx_val (ctx_tols n (ctx_val s)) s, Nat.iter k smctl_next o) ∧
       num_checkpoints (ctx_tols n (ctx_val s)) = num_checkpoints (ctx_val s) + Z.of_nat k ∧
       (k <= n)%nat.
Proof.
  intros Hi Hs H0. induction n as [|n IH]; intros Hn.
  { exists O. split_and!; [by destruct s|cbn; lia|lia]. }
  destruct IH as (k & E & Hk & Hkn); [lia|]. cbn [smmap_tols ctx_tols].
  rewrite (bind_Ok _ _ _ _ _ E), smmap_tol_run; [|cbn [ctx_val set_ctx_val]|done].
  2:{ clear -Hi. induction n; cbn [ctx_tols]; [done|]. by rewrite ctx_tol_initialized. }
  cbn [ctx_val set_ctx_val]. rewrite num_checkpoints_tol.
  destruct (tol_returns (ctx_tols n (ctx_val s))).
  - exists k. split_and!; [done|done|lia].
  - exists (S k). split_and!; [done| |lia]. rewrite Hk, u64_small by (unfold ULONG_MAX in *; lia). lia.
Qed.

End Run.

(** ** An example *)

Module Example.

(** A system whose map is [ex_maps] and which records the calls made to it. *)
Record sys := mk_sys { calls : list (Z * Z * Z); ckpts : nat }.

#[export] Instance ex_vmem : VMem sys := {
  mmap a n _ _ o := (a, o);
  munmap _ _ o := (0, o);
  mprotect _ _ _ o := (0, o);
}.
#[export] Instance ex_procfs : ProcFs sys := {
  maps_lines _ := Some (Some <$> (map_entry_of <$> ex_maps));
  mincore_errno _ _ := EFAULT;
}.
#[export] Instance ex_ptext : ProcText sys := λ _, Some (Some <$> ex_maps).
#[export] Instance ex_smm : SmMap sys := {
  smctl_checkpoint o := (0, mk_sys (calls o) (S (ckpts o)));
  smmap a b n o := (0, mk_sys ((a, b, n) :: calls o) (ckpts o));
  atfork_child o := o;
}.

Definition sys0 : sys := mk_sys [] 0.
Definition ref0 : ctx_ref := mk_ref 0 (set_checkpoint_interval 2 (set_skip_mmap 1 ctx0)).

Lemma smmap_shadows_program_witness :
  ltkcpt_ctx_get_buff MIN_MMAP_ADDR sizeof_ctx sys0 = (0x65000, sys0) ∧
  ∃ a n,
    (∀ x, in_area a n x ↔ 0x400000 <= x < 0x1c21000 ∧ (0x400000 <= 0x65000 → 0x65000 + 2 * PAGE_SIZE <= x)) ∧
    (∀ x, in_block 0x65000 PAGE_SIZE x → ¬ in_area a n x) ∧
    ltckpt_init_smmap 0x401000 0x620040 0x1c00010 42 (ref0, sys0)
    = let '(ret, o2) := smmap a SHADOW_TO n sys0 in
      let s' := mk_ref 0x65000 (set_initialized 1 (ctx_val ref0)) in
      if ret <? 0 then Stop Panic (s', o2) else Ok () (s', o2).
Proof.
  split; [reflexivity|].
  apply (smmap_shadows_program 0x401000 0x620040 0x1c00010 42 ref0 sys0 sys0 0x65000 ex_maps
    (ex_entry 0x400000 0x420000 "-"%char (lit "/bin/prog")) (ex_entry 0x620000 0x622000 "w"%char (lit "/bin/prog"))
    (ex_entry 0x1c00000 0x1c21000 "w"%char (lit "[heap]"))).
  - reflexivity.
  - discriminate.
  - reflexivity.
  - constructor; [reflexivity|apply sortedb_sorted; reflexivity|reflexivity].
  - constructor; try reflexivity; apply list_elem_of_lookup.
    + by exists 0%nat.
    + by exists 2%nat.
    + by exists 4%nat.
  - discriminate.
  - discriminate.
  - discriminate.
  - discriminate.
  - reflexivity.
  - reflexivity.
Defined.

Definition ref1 : ctx_ref := mk_ref 0x65000 (set_initialized 1 (ctx_val ref0)).

Lemma smmap_checkpoints_counted_witness :
  ∃ k, smmap_tols 0x401000 0x620040 0x1c00010 42 5 (ref1, sys0)
       = Ok () (set_ctx_val (ctx_tols 5 (ctx_val ref1)) ref1, Nat.iter k smctl_next sys0) ∧
       num_checkpoints (ctx_tols 5 (ctx_val ref1)) = num_checkpoints (ctx_val ref1) + Z.of_nat k ∧
       (k <= 5)%nat.
Proof.
  apply (smmap_checkpoints_counted 0x401000 0x620040 0x1c00010 42 5 ref1 sys0).
  - reflexivity.
  - intros o'. discriminate.
  - discriminate.
  - discriminate.
Defined.

End Example.
