(* ===== verification/Stack.v ===== *)
(** * Moving the stack

    [arch/x64/ltckpt_common.c] and [arch/x86/ltckpt_common.c]: before [main] runs, the smmap
    mechanism maps a new stack, copies the arguments, the environment and the auxiliary
    vector of the process to it, relocates the pointers among them, and starts the program
    with the new stack pointer.

    The two files differ in the size of a word, [W] bytes, and in how the arguments of
    [__libc_start_main] are passed: on the stack on x86, in registers but for the last one on
    x86-64.  [libc_start_main] is the entry, which selects the mechanism and asks it for the place of
    the new stack. *)
From stdpp Require Import base numbers list strings.
From Stdlib Require Import ZArith Lia.
From S2P Require Import Prelude Memory CString Ctx Profiling Writelog Common.

(** [ltckpt_early_init_data_t], without the address of [__libc_start_main]. *)
Record early_init_data := mk_eid {
  ei_main : Z; ei_argc : Z; ei_ubp_av : Z; ei_init : Z; ei_fini : Z; ei_rtld_fini : Z;
  ei_stack_end : Z
}.

(** The memory of the process and [environ]. *)
Record proc := mk_proc { p_mem : mem; environ : Z }.

Definition PR_SET_MM_START_STACK : Z := 5.
Definition PR_SET_MM_ARG_START : Z := 8.
Definition PR_SET_MM_ARG_END : Z := 9.
Definition PR_SET_MM_ENV_START : Z := 10.
Definition PR_SET_MM_ENV_END : Z := 11.

Section Stack.
Context (W : nat).

Local Abbreviation P := (prog proc).
Local Abbreviation w := (Z.of_nat W).

(** Words. *)
Definition uW (z : Z) : Z := z mod 256 ^ w.
Definition load_word (m : mem) (a : Z) : Z := le_decode (load_bytes m a W).
Definition store_word (m : mem) (a v : Z) : mem := store_bytes m a (le_bytes W v).

Definition rd (a : Z) : P Z := gets (λ s, load_word (p_mem s) a).
Definition wr (a v : Z) : P () := modify (λ s, mk_proc (store_word (p_mem s) a v) (environ s)).

(** A walk over the pointers from [a] to a NULL pointer: where that is, and the largest
    pointer met. *)
Fixpoint scan_ptrs (fuel : nat) (a last : Z) : P (Z * Z) :=
  match fuel with
  | O => halt Diverge
  | S fuel' =>
      p ← rd a;
      if p =? 0 then mret (a, last) else scan_ptrs fuel' (a + w) (if last <? p then p else last)
  end.

(** [while ( *last_string++ != 0);] *)
Fixpoint skip_string (fuel : nat) (a : Z) : P Z :=
  match fuel with
  | O => halt Diverge
  | S fuel' => b ← gets (λ s, p_mem s a); if b =? 0 then mret (a + 1) else skip_string fuel' (a + 1)
  end.

(** [while ( *tmp != 0) *tmp++ -= stack_offset;] *)
Fixpoint fix_ptrs (fuel : nat) (a off : Z) : P Z :=
  match fuel with
  | O => halt Diverge
  | S fuel' =>
      p ← rd a;
      if p =? 0 then mret a else wr a (p - off) ;; fix_ptrs fuel' (a + w) off
  end.

(** [*newstack-- = v;] for each of the values. *)
Fixpoint push_all (ns : Z) (vs : list Z) : P () :=
  match vs with
  | [] => skip
  | v :: vs' => wr ns v ;; push_all (ns - w) vs'
  end.

(** [ltckpt_setup_stack]: the new stack pointer.  [fuel] bounds each of its loops; [prctl] is
    the system call with [PR_SET_MM]. *)
Definition ltckpt_setup_stack (fuel : nat) (prctl : Z → Z → Z) (allow_prctl : Z)
    (eid : early_init_data) (new_stack_top : Z) : P Z :=
  argv_start ← rd (ei_ubp_av eid);
  r ← scan_ptrs fuel (ei_ubp_av eid) 0;
  let p := r.1 + w in
  argv_end ← rd p;
  modify (λ s, mk_proc (p_mem s) p) ;;
  env_start ← rd p;
  r ← scan_ptrs fuel p r.2;
  env_end ← rd r.1;
  last ← skip_string fuel r.2;
  last ← skip_string fuel last;
  let top := uW (Z.land (last + 3) (Z.lnot 3)) in
  mark ← rd top;
  when (negb (mark =? 0)) (halt Panic) ;;
  let off := uW (top + w - new_stack_top) in
  tmp ← fix_ptrs fuel (ei_ubp_av eid) off;
  fix_ptrs fuel (tmp + w) off ;;
  let from := uW (ei_ubp_av eid - w) in
  let size := uW (top - from) in
  let ns := uW (new_stack_top - w - size) in
  modify (λ s, mk_proc (store_bytes (p_mem s) ns (load_bytes (p_mem s) from (Z.to_nat size))) (environ s)) ;;
  push_all (ns - 2 * w)
    [ei_stack_end eid - off; ei_rtld_fini eid; ei_fini eid; ei_init eid; ei_ubp_av eid - off;
     ei_argc eid; ei_main eid] ;;
  modify (λ s, mk_proc (p_mem s) (uW (environ s - off))) ;;
  when (truthy allow_prctl)
    (when (truthy (prctl PR_SET_MM_START_STACK new_stack_top)) (halt Panic) ;;
     when (truthy (prctl PR_SET_MM_ARG_START (uW (argv_start - off)))) (halt Panic) ;;
     when (truthy (prctl PR_SET_MM_ARG_END (uW (argv_end - off)))) (halt Panic) ;;
     when (truthy (prctl PR_SET_MM_ENV_START (uW (env_start - off)))) (halt Panic) ;;
     when (truthy (prctl PR_SET_MM_ENV_END (uW (env_end - off)))) (halt Panic)) ;;
  mret (ns - 8 * w).

End Stack.

(** ** Program entry *)

(** [EARLY_INIT_CHANGE_STACK]: where the mechanisms that move the stack ask for the new one, and
    its size.  The bitmap mechanism moves the stack on x86 only, to below its bitmap. *)
Definition STACK_SIZE : Z := 1024 * 1024 * 6.

Definition early_init_stack (x86 : bool) (bitmap_offset : Z) (name : option string) : option (Z * Z) :=
  if decide (name = Some "smmap"%string) then
    Some (if x86 then 1024 * 1024 * 1024 * 3 / 2 - STACK_SIZE else 139637976727552 - STACK_SIZE, STACK_SIZE)
  else if x86 && bool_decide (name = Some "bitmap"%string) then
    Some (bitmap_offset / PAGE_SIZE * PAGE_SIZE - STACK_SIZE, STACK_SIZE)
  else None.

Definition ptr_size (x86 : bool) : nat := if x86 then 4 else 8.

(** The state of the entry: [ltckpt_conf], the context with its static flag, the process, and
    the system. *)
Record entry_st (os : Type) := mk_entry {
  en_conf : conf_ptr; en_init : bool * ltckpt_ctx; en_proc : proc; en_os : os
}.
Arguments mk_entry {os} _ _ _ _.
Arguments en_conf {os} _.
Arguments en_init {os} _.
Arguments en_proc {os} _.
Arguments en_os {os} _.

Section Entry.
Context {os : Type} `{vmem : VMem os}.
Context (x86 : bool).
Context (getenv : string → option cstr) (progname : string).
Context (bitmap_offset : Z).
(** [prctl] with [PR_SET_MM]; whether [dlopen] and [dlsym] find [__libc_start_main]. *)
Context (prctl : Z → Z → Z) (found : bool).
Context (fuel : nat).

Local Abbreviation P := (prog (entry_st os)).

Definition on_conf {A} (p : prog conf_ptr A) : P A := λ s,
  match p (en_conf s) with
  | Ok a c => Ok a (mk_entry c (en_init s) (en_proc s) (en_os s))
  | Stop r c => Stop r (mk_entry c (en_init s) (en_proc s) (en_os s))
  end.

Definition on_proc {A} (p : prog proc A) : P A := λ s,
  match p (en_proc s) with
  | Ok a c => Ok a (mk_entry (en_conf s) (en_init s) c (en_os s))
  | Stop r c => Stop r (mk_entry (en_conf s) (en_init s) c (en_os s))
  end.

(** [ltckpt_allocate_stack]. *)
Definition ltckpt_allocate_stack (start size : Z) : P Z := λ s,
  let '(ret, o) := ltckpt_mmap start size (Z.lor LTCKPT_PROT_W LTCKPT_PROT_R)
    (Z.lor (Z.lor (Z.lor LTCKPT_MAP_FIXED LTCKPT_MAP_PRIVATE) LTCKPT_MAP_NORESERVE) LTCKPT_MAP_STACK)
    (en_os s) in
  if ret =? LTCKPT_MAP_FAILED then Stop Panic (mk_entry (en_conf s) (en_init s) (en_proc s) o) else
  Ok ret (mk_entry (en_conf s) (en_init s)
            (mk_proc (zero_fill ret size (p_mem (en_proc s))) (environ (en_proc s))) o).

(** The arguments [__libc_start_main] of libc finds: on x86 the seven words on the stack, on
    x86-64 six registers, loaded from the record, and the first word on the stack. *)
Definition start_args (m : mem) (eid : early_init_data) (newstack : Z) : list Z :=
  if x86 then (λ i, load_word 4 m (newstack + 4 * Z.of_nat i)) <$> seq 0 7
  else [ei_main eid; ei_argc eid; ei_ubp_av eid; ei_init eid; ei_fini eid; ei_rtld_fini eid;
        load_word 8 m newstack].

(** [ltckpt_start]: the arguments the program is started with, if it is. *)
Definition ltckpt_start (eid : early_init_data) (newstack : Z) : P (option (list Z)) :=
  when (negb found) (halt Panic) ;;
  m ← gets (λ s, p_mem (en_proc s));
  mret (if truthy newstack then Some (start_args m eid newstack) else None).

(** The early initialisation hook. *)
Definition early_init_hook (start size : Z) (eid : early_init_data) : P (option (list Z)) :=
  modify (λ s, mk_entry (en_conf s) (ltckpt_common_early_init getenv progname (en_init s)) (en_proc s) (en_os s)) ;;
  new_stack ← ltckpt_allocate_stack start size;
  allow ← gets (λ s, allow_prctl (snd (en_init s)));
  newstack ← on_proc (ltckpt_setup_stack (ptr_size x86) fuel prctl allow eid (uW (ptr_size x86) (new_stack + size)));
  ltckpt_start eid newstack.

(** [__libc_start_main] of the library. *)
Definition libc_start_main (eid : early_init_data) : P (option (list Z)) :=
  on_conf ltckpt_conf_setup ;;
  name ← gets (λ s, conf_name (en_conf s));
  match early_init_stack x86 bitmap_offset name with
  | Some (start, size) => early_init_hook start size eid
  | None =>
      when (negb found) (halt Panic) ;;
      mret (Some [ei_main eid; ei_argc eid; ei_ubp_av eid; ei_init eid; ei_fini eid; ei_rtld_fini eid;
                  ei_stack_end eid])
  end.

End Entry.

(** ** Arrays of words *)

Section Words.
Context (W : nat).
Local Abbreviation w := (Z.of_nat W).
Local Abbreviation load_word := (load_word W).
Local Abbreviation store_word := (store_word W).
Local Abbreviation uW := (uW W).

(** The words of an array. *)
Definition words (m : mem) (a : Z) (ws : list Z) : Prop :=
  ∀ i p, ws !! i = Some p → load_word m (a + w * Z.of_nat i) = p.

Lemma words_cons m a p ws : words m a (p :: ws) ↔ load_word m a = p ∧ words m (a + w) ws.
Proof.
  split.
  - intros H. split.
    + specialize (H 0%nat p eq_refl). by rewrite Z.mul_0_r, Z.add_0_r in H.
    + intros i q Hi. rewrite <- (H (S i) q Hi). f_equal. lia.
  - intros [H0 H] [|i] q Hi; cbn in Hi.
    + injection Hi as <-. by rewrite Z.mul_0_r, Z.add_0_r.
    + rewrite <- (H i q Hi). f_equal. lia.
Qed.

Lemma words_app m a ws vs : words m a (ws ++ vs) ↔ words m a ws ∧ words m (a + w * zlen ws) vs.
Proof.
  revert a. induction ws as [|p ws IH]; intros a; cbn [app].
  - rewrite Z.mul_0_r, Z.add_0_r. split; [intros H; split; [by intros ? ?|done]|by intros [_ ?]].
  - rewrite !words_cons, IH. cbn [length]. rewrite Nat2Z.inj_succ.
    replace (a + w + w * zlen ws) with (a + w * Z.succ (zlen ws)) by lia. tauto.
Qed.

Lemma load_word_ext m1 m2 a : mem_agree (in_block a w) m1 m2 → load_word m1 a = load_word m2 a.
Proof. intros H. unfold load_word. f_equal. by apply load_bytes_ext. Qed.

(** A word read where it has been moved to. *)
Lemma load_word_shift m1 m2 a d :
  (∀ x, in_block a w x → m1 (x - d) = m2 x) → load_word m1 (a - d) = load_word m2 a.
Proof.
  unfold load_word, in_block. intros H. f_equal. revert a H. induction W as [|n IH]; intros a H; [done|].
  cbn [load_bytes]. f_equal; [apply H; lia|].
  replace (a - d + 1) with (a + 1 - d) by lia. apply IH. intros x Hx. apply H. lia.
Qed.

Lemma words_shift m1 m2 a d ws :
  (∀ x, a <= x < a + w * zlen ws → m1 (x - d) = m2 x) → words m2 a ws → words m1 (a - d) ws.
Proof.
  intros H Hw i p Hi. rewrite <- (Hw i p Hi). pose proof (lookup_lt_Some _ _ _ Hi).
  replace (a - d + w * Z.of_nat i) with (a + w * Z.of_nat i - d) by lia.
  apply load_word_shift. intros x Hx. apply H. unfold in_block in Hx. nia.
Qed.

Lemma words_agree m1 m2 a ws :
  mem_agree (λ x, a <= x < a + w * zlen ws) m1 m2 → words m2 a ws → words m1 a ws.
Proof.
  intros H Hw. rewrite <- (Z.sub_0_r a). apply (words_shift m1 m2); [|done].
  intros x Hx. rewrite Z.sub_0_r. by apply H.
Qed.

Lemma store_word_out m a v x : ¬ in_block a w x → store_word m a v x = m x.
Proof. intros H. apply store_bytes_out. by rewrite length_le_bytes. Qed.

Lemma load_store_word m a v : load_word (store_word m a v) a = uW v.
Proof.
  unfold load_word, store_word. pose proof (length_le_bytes W v) as E.
  rewrite <- E at 2. by rewrite load_store_bytes, le_decode_le_bytes.
Qed.

Lemma load_store_word_out m a b v :
  (b + w <= a ∨ a + w <= b) → load_word (store_word m b v) a = load_word m a.
Proof.
  intros H. apply load_word_ext. intros x Hx. apply store_word_out. unfold in_block in *. lia.
Qed.

(** *** The loops *)

Definition maxp (last : Z) (ps : list Z) : Z := fold_left (λ l p, if l <? p then p else l) ps last.

Lemma scan_ptrs_run fuel a last ps s :
  words (p_mem s) a (ps ++ [0]) → Forall (λ p, p ≠ 0) ps → (length ps < fuel)%nat →
  scan_ptrs W fuel a last s = Ok (a + w * zlen ps, maxp last ps) s.
Proof.
  revert fuel a last. induction ps as [|p ps IH]; intros fuel a last Hw Hne Hf;
    (destruct fuel as [|fuel]; [cbn in Hf; lia|]); cbn [scan_ptrs]; unfold rd; rewrite bind_gets;
    cbn [app] in Hw; apply words_cons in Hw as [-> Hw].
  - by rewrite Z.mul_0_r, Z.add_0_r.
  - apply Forall_cons_1 in Hne as [Hp Hne]. rewrite (proj2 (Z.eqb_neq _ _) Hp).
    rewrite IH by (done || (cbn in Hf; lia)). f_equal. cbn [length]. rewrite Nat2Z.inj_succ.
    f_equal. lia.
Qed.

(** The end of a string. *)
Definition str_end (m : mem) (a e : Z) : Prop := a <= e ∧ m e = 0 ∧ ∀ x, a <= x < e → m x ≠ 0.

Lemma skip_string_run fuel a e s :
  str_end (p_mem s) a e → (Z.to_nat (e - a) < fuel)%nat → skip_string fuel a s = Ok (e + 1) s.
Proof.
  revert a. induction fuel as [|fuel IH]; intros a (Hle & He & Hx) Hf; [lia|]. cbn [skip_string].
  rewrite bind_gets. destruct (decide (a = e)) as [->|Hne]; [by rewrite He|].
  rewrite (proj2 (Z.eqb_neq _ _)) by (apply Hx; lia). apply IH; [|lia].
  split_and!; [lia|done|]. intros x ?. apply Hx. lia.
Qed.

(** The memory after the pointers of an array are relocated. *)
Fixpoint fix_mem (m : mem) (a : Z) (ps : list Z) (off : Z) : mem :=
  match ps with
  | [] => m
  | p :: ps' => fix_mem (store_word m a (p - off)) (a + w) ps' off
  end.

Lemma fix_mem_out m a ps off x : ¬ (a <= x < a + w * zlen ps) → fix_mem m a ps off x = m x.
Proof.
  revert m a. induction ps as [|p ps IH]; intros m a Hx; cbn [fix_mem]; [done|].
  cbn [length] in Hx. rewrite Nat2Z.inj_succ in Hx.
  rewrite IH by nia. apply store_word_out. unfold in_block. nia.
Qed.

Lemma fix_mem_words m a ps off : words (fix_mem m a ps off) a ((λ p, uW (p - off)) <$> ps).
Proof.
  revert m a. induction ps as [|p ps IH]; intros m a; [by intros ? ?|]. cbn [fmap list_fmap fix_mem].
  apply words_cons. split; [|apply IH].
  rewrite <- (load_store_word m a (p - off)). apply load_word_ext. intros x Hx. apply fix_mem_out.
  unfold in_block in Hx. lia.
Qed.

Lemma fix_ptrs_run fuel a off ps m e :
  words m a (ps ++ [0]) → Forall (λ p, p ≠ 0) ps → (length ps < fuel)%nat →
  fix_ptrs W fuel a off (mk_proc m e) = Ok (a + w * zlen ps) (mk_proc (fix_mem m a ps off) e).
Proof.
  revert fuel a m. induction ps as [|p ps IH]; intros fuel a m Hw Hne Hf;
    (destruct fuel as [|fuel]; [cbn in Hf; lia|]); cbn [fix_ptrs]; unfold rd; rewrite bind_gets;
    cbn [app p_mem] in *; apply words_cons in Hw as [-> Hw].
  - by rewrite Z.mul_0_r, Z.add_0_r.
  - apply Forall_cons_1 in Hne as [Hp Hne]. rewrite (proj2 (Z.eqb_neq _ _) Hp).
    unfold wr. rewrite bind_modify. cbn [p_mem environ].
    rewrite IH; [|eapply words_agree; [|exact Hw]|done|cbn in Hf; lia].
    + cbn [length fix_mem]. rewrite Nat2Z.inj_succ. f_equal. lia.
    + intros x Hx. apply store_word_out. unfold in_block. lia.
Qed.

(** The memory after values are pushed. *)
Fixpoint push_mem (m : mem) (ns : Z) (vs : list Z) : mem :=
  match vs with
  | [] => m
  | v :: vs' => push_mem (store_word m ns v) (ns - w) vs'
  end.

Lemma push_all_run ns vs m e : push_all W ns vs (mk_proc m e) = Ok () (mk_proc (push_mem m ns vs) e).
Proof.
  revert ns m. induction vs as [|v vs IH]; intros ns m; [done|]. cbn [push_all push_mem].
  unfold wr. rewrite bind_modify. apply IH.
Qed.

Lemma push_mem_out m ns vs x :
  ¬ (ns + w - w * zlen vs <= x < ns + w) → push_mem m ns vs x = m x.
Proof.
  revert m ns. induction vs as [|v vs IH]; intros m ns Hx; cbn [push_mem]; [done|].
  cbn [length] in Hx. rewrite Nat2Z.inj_succ in Hx.
  rewrite IH by nia. apply store_word_out. unfold in_block. nia.
Qed.

(** The pushed words are on the stack, the last one first. *)
Lemma push_mem_words m ns vs :
  words (push_mem m ns vs) (ns + w - w * zlen vs) (rev (uW <$> vs)).
Proof.
  revert m ns. induction vs as [|v vs IH]; intros m ns; [by intros ? ?|].
  cbn [push_mem fmap list_fmap rev length]. rewrite Nat2Z.inj_succ. apply words_app. split.
  - replace (ns + w - w * Z.succ (zlen vs)) with (ns - w + w - w * zlen vs) by lia. apply IH.
  - rewrite length_rev, length_fmap.
    replace (ns + w - w * Z.succ (zlen vs) + w * zlen vs) with ns by lia.
    apply words_cons. split; [|by intros ? ?].
    rewrite <- (load_store_word m ns v). apply load_word_ext. intros x Hx. apply push_mem_out.
    unfold in_block in Hx. lia.
Qed.

End Words.

(** ** The relocated stack *)

Section Reloc.
Context (W : nat).
Local Abbreviation w := (Z.of_nat W).
Local Abbreviation words := (words W).
Local Abbreviation uW := (uW W).

(** The first address behind the two arrays of pointers. *)
Definition arrays_end (eid : early_init_data) (av ev : list Z) : Z :=
  ei_ubp_av eid + w * (zlen av + zlen ev + 2).

(** The stack of a new process: the word of [argc], the arrays of arguments [av] and
    environment strings [ev] ended by NULL, the strings behind them, the last of which is
    followed by one more, and a word of zeros at [top]. *)
Record stack_layout (m : mem) (eid : early_init_data) (av ev : list Z) (top : Z) : Prop := {
  ly_w : (0 < W)%nat;
  ly_words : words m (ei_ubp_av eid) (av ++ [0] ++ ev ++ [0]);
  ly_ptrs : Forall (λ p, arrays_end eid av ev <= p < top) (av ++ ev);
  ly_strings : ∃ e1 e2, str_end m (maxp (maxp 0 av) ev) e1 ∧ str_end m (e1 + 1) e2 ∧
    top = Z.land (e2 + 1 + 3) (Z.lnot 3);
  ly_mark : load_word W m top = 0;
  ly_low : w <= ei_ubp_av eid;
  ly_arrays : arrays_end eid av ev <= top;
  ly_high : top + w <= 256 ^ w;
}.

(** The part of the new stack that is written, below [ntop]: room for the copy, for the
    seven words of arguments and one unused word, and apart from the old stack. *)
Record new_stack (eid : early_init_data) (top ntop : Z) : Prop := {
  ns_room : top - ei_ubp_av eid + 10 * w <= ntop;
  ns_high : ntop < 256 ^ w;
  ns_apart : ntop <= ei_ubp_av eid - w ∨ top + w <= ntop - (top - ei_ubp_av eid + 10 * w);
}.

Lemma uW_small z : 0 <= z < 256 ^ w → uW z = z.
Proof. apply Z.mod_small. Qed.

(** Subtracting the offset modulo the word size. *)
Lemma uW_sub_off a d : 0 <= a - d < 256 ^ w → uW (a - uW d) = a - d.
Proof.
  intros H. unfold Stack.uW. rewrite Zminus_mod_idemp_r. by apply Z.mod_small.
Qed.

(** Rounding up to a multiple of four. *)
Lemma align4_gt e : e < Z.land (e + 1 + 3) (Z.lnot 3).
Proof.
  rewrite <- Z.ldiff_land. change 3 with (Z.ones 2) at 2.
  rewrite Z.ldiff_ones_r, Z.shiftl_mul_pow2, Z.shiftr_div_pow2 by lia.
  Z.to_euclidean_division_equations; lia.
Qed.

Lemma maxp_nonneg x l : 0 <= x → 0 <= maxp x l.
Proof.
  revert x. induction l as [|q l IHl]; intros x Hx; [done|]. cbn. apply IHl. destruct (Z.ltb_spec x q); lia.
Qed.

Section Fixed.
Context (m : mem) (eid : early_init_data) (av ev : list Z) (top ntop : Z).
Context (Hly : stack_layout m eid av ev top) (Hns : new_stack eid top ntop).

(** The distance the stack moves down by. *)
Definition delta : Z := top + w - ntop.

Definition mem_fixed : mem :=
  fix_mem W (fix_mem W m (ei_ubp_av eid) av (uW delta)) (ei_ubp_av eid + w * zlen av + w) ev (uW delta).

Definition new_sp : Z := ntop - w - (top - ei_ubp_av eid + w).

Definition mem_copied : mem :=
  store_bytes mem_fixed new_sp (load_bytes mem_fixed (ei_ubp_av eid - w) (Z.to_nat (top - ei_ubp_av eid + w))).

Definition start_words : list Z :=
  [ei_stack_end eid - uW delta; ei_rtld_fini eid; ei_fini eid; ei_init eid; ei_ubp_av eid - uW delta;
   ei_argc eid; ei_main eid].

Definition mem_final : mem := push_mem W mem_copied (new_sp - 2 * w) start_words.

Lemma nonneg_len : 0 <= zlen av ∧ 0 <= zlen ev ∧ 0 < w.
Proof. destruct Hly. lia. Qed.

Lemma mem_fixed_out x :
  ¬ (ei_ubp_av eid <= x < arrays_end eid av ev) → mem_fixed x = m x.
Proof.
  intros Hx. unfold mem_fixed, arrays_end in *. pose proof nonneg_len.
  rewrite !fix_mem_out by nia. done.
Qed.

Lemma mem_fixed_words :
  words mem_fixed (ei_ubp_av eid)
    (((λ p, uW (p - uW delta)) <$> av) ++ [0] ++ ((λ p, uW (p - uW delta)) <$> ev) ++ [0]).
Proof.
  pose proof nonneg_len as (Ha & He & Hw). destruct Hly as [_ Hws _ _ _ _ _ _].
  rewrite !words_app in Hws. destruct Hws as (_ & H0 & _ & H1).
  cbn [length] in H0, H1 |- *.
  assert (Hag : ∀ a ws, (a + w * zlen ws <= ei_ubp_av eid ∨ ei_ubp_av eid + w * zlen av <= a) →
    (a + w * zlen ws <= ei_ubp_av eid + w * zlen av + w ∨ ei_ubp_av eid + w * zlen av + w + w * zlen ev <= a) →
    words m a ws → words mem_fixed a ws).
  { intros a ws H2 H3. apply words_agree. intros x Hx. unfold mem_fixed. rewrite !fix_mem_out by lia. done. }
  rewrite !words_app, !length_fmap. cbn [length]. split_and!.
  - eapply words_agree; [|apply fix_mem_words]. intros x Hx. unfold mem_fixed.
    apply fix_mem_out. rewrite length_fmap in Hx. lia.
  - apply Hag; [cbn [length]; lia|cbn [length]; lia|done].
  - replace (ei_ubp_av eid + w * zlen av + w * Z.of_nat 1) with (ei_ubp_av eid + w * zlen av + w) by lia.
    apply fix_mem_words.
  - apply Hag; [cbn [length]; nia|cbn [length]; lia|done].
Qed.

(** What lies on the old stack is found [delta] below it. *)
Lemma mem_final_moved x :
  ei_ubp_av eid - w <= x < top → mem_final (x - delta) = mem_fixed x.
Proof.
  intros Hx. pose proof nonneg_len. unfold mem_final. rewrite push_mem_out.
  2:{ unfold start_words, new_sp, delta in *. cbn [length]. lia. }
  unfold mem_copied. rewrite store_bytes_in; rewrite ?length_load_bytes.
  - rewrite nth_load_bytes by (unfold new_sp, delta; lia). f_equal. unfold new_sp, delta. lia.
  - unfold in_block, new_sp, delta. lia.
Qed.

Lemma moved_ptrs : Forall (λ p, uW (p - uW delta) = p - delta) (av ++ ev).
Proof.
  destruct Hly as [_ _ Hp _ _ Hlow _ Hhigh], Hns as [Hr Hh _]. pose proof nonneg_len.
  eapply Forall_impl; [exact Hp|]. intros p Hp'. cbn in *. apply uW_sub_off.
  unfold delta, arrays_end in *. nia.
Qed.

Lemma bind_rd {B} a (f : Z → prog proc B) s : (rd W a ≫= f) s = f (load_word W (p_mem s) a) s.
Proof. done. Qed.

(** The arrays as the loops meet them. *)
Lemma layout_arrays :
  words m (ei_ubp_av eid) (av ++ [0]) ∧ words m (ei_ubp_av eid + w * zlen av + w) (ev ++ [0]) ∧
  Forall (λ p, p ≠ 0) av ∧ Forall (λ p, p ≠ 0) ev.
Proof.
  destruct Hly as [_ Hws Hp _ _ Hlow _ _]. pose proof nonneg_len.
  assert (Forall (λ p, p ≠ 0) (av ++ ev)) as [??]%Forall_app.
  { eapply Forall_impl; [exact Hp|]. intros p Hp'. cbn in *. unfold arrays_end in Hp'. nia. }
  rewrite app_assoc, words_app, length_app in Hws. destruct Hws as [Hw1 Hw2]. cbn [length] in Hw2.
  split_and!; try done. by replace (ei_ubp_av eid + w * zlen av + w)
    with (ei_ubp_av eid + w * Z.of_nat (length av + 1)) by lia.
Qed.

Lemma fixed_env_array :
  words (fix_mem W m (ei_ubp_av eid) av (uW delta)) (ei_ubp_av eid + w * zlen av + w) (ev ++ [0]).
Proof.
  destruct layout_arrays as (_ & H & _). pose proof nonneg_len. eapply words_agree; [|exact H].
  intros x Hx. apply fix_mem_out. nia.
Qed.

(** The numbers the code computes. *)
Lemma setup_numbers :
  uW top = top ∧ uW (top + w - ntop) = uW delta ∧ uW (ei_ubp_av eid - w) = ei_ubp_av eid - w ∧
  uW (top - (ei_ubp_av eid - w)) = top - ei_ubp_av eid + w ∧
  uW (ntop - w - (top - ei_ubp_av eid + w)) = new_sp ∧
  uW (ei_ubp_av eid + w * zlen av + w - uW delta) = ei_ubp_av eid + w * zlen av + w - delta.
Proof.
  destruct Hly as [_ _ _ _ _ Hlow Har Hhigh], Hns as [Hr Hh _]. pose proof nonneg_len.
  unfold arrays_end, delta, new_sp in *.
  split_and!; [apply uW_small; nia|done|apply uW_small; nia| |apply uW_small; nia|apply uW_sub_off; nia].
  replace (top - (ei_ubp_av eid - w)) with (top - ei_ubp_av eid + w) by lia. apply uW_small. nia.
Qed.

Lemma setup_stack_run fuel prctl allow_prctl env :
  (length av < fuel)%nat → (length ev < fuel)%nat → (Z.to_nat top < fuel)%nat →
  (allow_prctl = 0 ∨ ∀ o a, prctl o a = 0) →
  ltckpt_setup_stack W fuel prctl allow_prctl eid ntop (mk_proc m env)
  = Ok (new_sp - 8 * w) (mk_proc mem_final (ei_ubp_av eid + w * zlen av + w - delta)).
Proof.
  intros Hfa Hfe Hft Hpr. pose proof (setup_numbers) as (N1 & N2 & N3 & N4 & N5 & N6).
  destruct layout_arrays as (Hav & Hev & Hna & Hne).
  pose proof Hly as [_ _ Hp (e1 & e2 & Hs1 & Hs2 & Etop) Hmk Hlow _ _]. pose proof nonneg_len.
  assert (e2 < top ∧ 0 <= maxp (maxp 0 av) ev) as [He2 Hmx].
  { split; [rewrite Etop; apply align4_gt|]. by apply maxp_nonneg, maxp_nonneg. }
  unfold ltckpt_setup_stack. rewrite bind_rd.
  rewrite (bind_Ok _ _ _ _ _ (scan_ptrs_run W fuel _ 0 av (mk_proc m env) Hav Hna Hfa)). cbn [fst snd].
  rewrite bind_rd, bind_modify. cbn [p_mem].
  rewrite bind_rd.
  erewrite bind_Ok by (apply scan_ptrs_run; [exact Hev|exact Hne|exact Hfe]). cbn [fst snd].
  rewrite bind_rd.
  erewrite bind_Ok by (apply skip_string_run; [exact Hs1|destruct Hs1, Hs2; lia]).
  erewrite bind_Ok by (apply skip_string_run; [exact Hs2|destruct Hs1, Hs2; lia]).
  cbv zeta. rewrite <- Etop, N1. rewrite bind_rd. cbn [p_mem]. rewrite Hmk.
  rewrite bind_when_false by done. rewrite N2.
  erewrite bind_Ok by (apply fix_ptrs_run; [exact Hav|exact Hna|exact Hfa]).
  erewrite bind_Ok by (apply fix_ptrs_run; [exact fixed_env_array|exact Hne|exact Hfe]).
  rewrite N3, N4, N5. fold mem_fixed. rewrite bind_modify. cbn [p_mem environ]. fold mem_copied.
  erewrite bind_Ok by (apply push_all_run). fold start_words. fold mem_final.
  rewrite bind_modify. cbn [p_mem environ]. rewrite N6.
  destruct Hpr as [->|Hz]; [by rewrite bind_when_false by done|].
  destruct (truthy allow_prctl); [|done]. cbn [when].
  by rewrite !bind_assoc, !Hz, bind_when_false by done.
Qed.

End Fixed.

(** The arguments and the environment survive the move of the stack.  On a stack as the
    kernel lays it out and a new stack apart from it with room for the copy, the code returns;
    with [d] the distance between the old stack and the new one, the arrays of arguments and
    of environment strings are found [d] below the old ones with every pointer lowered by
    [d], every byte behind the arrays, the strings among them, is found [d] below its old
    place, [environ] points to the new array, and the words below the new stack are the
    arguments of [__libc_start_main] with the moved [argv]. *)
Lemma setup_stack_relocates m env eid av ev top ntop fuel prctl allow_prctl :
  stack_layout m eid av ev top → new_stack eid top ntop →
  (length av < fuel)%nat → (length ev < fuel)%nat → (Z.to_nat top < fuel)%nat →
  (allow_prctl = 0 ∨ ∀ o a, prctl o a = 0) →
  let d := top + w - ntop in
  ∃ sp m', sp = ntop - (top - ei_ubp_av eid + 10 * w) ∧
    ltckpt_setup_stack W fuel prctl allow_prctl eid ntop (mk_proc m env)
    = Ok sp (mk_proc m' (ei_ubp_av eid + w * (zlen av + 1) - d)) ∧
    words m' (ei_ubp_av eid - d) (((λ p, p - d) <$> av) ++ [0] ++ ((λ p, p - d) <$> ev) ++ [0]) ∧
    (∀ x, arrays_end eid av ev <= x < top → m' (x - d) = m x) ∧
    words m' sp (uW <$> [ei_main eid; ei_argc eid; ei_ubp_av eid - d; ei_init eid; ei_fini eid;
                         ei_rtld_fini eid; ei_stack_end eid - d]).
Proof.
  intros Hly Hns Hfa Hfe Hft Hpr. cbv zeta. change (top + w - ntop) with (delta top ntop).
  exists (new_sp eid top ntop - 8 * w), (mem_final m eid av ev top ntop).
  pose proof (nonneg_len m eid av ev top Hly) as (? & ? & ?).
  pose proof (mem_final_moved m eid av ev top ntop Hly) as Hmv. split_and!.
  - unfold new_sp. lia.
  - rewrite (setup_stack_run m eid av ev top ntop Hly Hns) by done. do 2 f_equal. lia.
  - pose proof (moved_ptrs m eid av ev top ntop Hly Hns) as [Ha He]%Forall_app.
    apply (words_shift W _ (mem_fixed m eid av ev top ntop)).
    + intros x Hx. apply Hmv. destruct Hly as [_ _ _ _ _ _ Har _]. unfold arrays_end in Har.
      rewrite !length_app, !length_fmap in Hx. cbn [length] in Hx. nia.
    + rewrite <- (Forall_fmap_ext_1 _ _ _ Ha), <- (Forall_fmap_ext_1 _ _ _ He).
      apply (mem_fixed_words m eid av ev top ntop Hly).
  - intros x Hx. unfold arrays_end in Hx.
    rewrite Hmv by nia. apply (mem_fixed_out m eid av ev top ntop Hly). unfold arrays_end. lia.
  - pose proof (push_mem_words W (mem_copied m eid av ev top ntop) (new_sp eid top ntop - 2 * w)
      (start_words eid top ntop)) as Hw.
    cbn [start_words length fmap list_fmap rev app] in Hw.
    replace (new_sp eid top ntop - 2 * w + w - w * Z.of_nat 7) with (new_sp eid top ntop - 8 * w) in Hw by lia.
    cbn [fmap list_fmap]. unfold Stack.uW in *. rewrite !Zminus_mod_idemp_r in Hw. exact Hw.
Qed.

End Reloc.

(** ** The call of [__libc_start_main] *)

Lemma words_loads W m a ws :
  words W m a ws → (λ i, load_word W m (a + Z.of_nat W * Z.of_nat i)) <$> seq 0 (length ws) = ws.
Proof.
  intros H. apply list_eq. intros i. rewrite list_lookup_fmap.
  destruct (decide (i < length ws)%nat) as [Hi|Hi].
  - rewrite lookup_seq_lt by done. destruct (lookup_lt_is_Some_2 ws i Hi) as [p Hp].
    rewrite Hp. cbn. by rewrite (H i p Hp).
  - rewrite lookup_seq_ge, (lookup_ge_None_2 ws) by lia. done.
Qed.

(** *** The layout does not depend on the memory outside the stack *)

Lemma maxp_ge x l : x <= maxp x l ∧ Forall (λ p, p <= maxp x l) l.
Proof.
  revert x. induction l as [|q l IH]; intros x; [done|].
  change (maxp x (q :: l)) with (maxp (if x <? q then q else x) l).
  destruct (Z.ltb_spec x q); [destruct (IH q)|destruct (IH x)];
    (split; [lia|constructor; [lia|done]]).
Qed.

Lemma str_end_ext m1 m2 a e : mem_agree (in_block a (e + 1 - a)) m1 m2 → str_end m1 a e → str_end m2 a e.
Proof.
  intros Hm (Hle & He & Hx). split_and!; [done| |].
  - rewrite <- Hm by (unfold in_block; lia). done.
  - intros x ?. rewrite <- Hm by (unfold in_block; lia). by apply Hx.
Qed.

Lemma stack_layout_ext W m1 m2 eid av ev top :
  av ≠ [] → mem_agree (in_block (ei_ubp_av eid) (top + Z.of_nat W - ei_ubp_av eid)) m1 m2 →
  stack_layout W m1 eid av ev top → stack_layout W m2 eid av ev top.
Proof.
  intros Hav Hm [Hw Hws Hps (e1 & e2 & He1 & He2 & Ht) Hmk Hlo Har Hhi].
  assert (ei_ubp_av eid <= maxp (maxp 0 av) ev) as Hmax.
  { destruct av as [|p av]; [done|]. apply Forall_cons_1 in Hps as [Hp _].
    destruct (maxp_ge 0 (p :: av)) as [_ [? _]%Forall_cons_1]. destruct (maxp_ge (maxp 0 (p :: av)) ev).
    unfold arrays_end in Hp. nia. }
  pose proof (align4_gt e2). destruct He1 as [? He1'], He2 as [? He2'].
  constructor; try done.
  - apply (words_agree W m2 m1); [|done]. intros x Hx. symmetry. apply Hm. unfold in_block in *.
    rewrite !length_app in Hx. cbn [length] in Hx. unfold arrays_end in Har. nia.
  - exists e1, e2. split_and!; try done; (eapply str_end_ext; [|done]); intros x ?; apply Hm;
      unfold in_block in *; lia.
  - rewrite <- Hmk. symmetry. apply load_word_ext. intros x ?. apply Hm. unfold in_block in *.
    unfold arrays_end in Har. nia.
Qed.

(** *** The program starts on the new stack *)

Section Start.
Context {os : Type} `{vmem : VMem os}.
Context (x86 : bool) (getenv : string → option cstr) (progname : string) (bitmap_offset : Z).
Context (prctl : Z → Z → Z) (fuel : nat).

Local Abbreviation W := (ptr_size x86).
Local Abbreviation w := (Z.of_nat W).

(** The mapping of the new stack: [mmap] with a fixed address gives that address. *)
Definition stack_mapped (start size : Z) (o o' : os) : Prop :=
  mmap start size (Z.lor PROT_READ PROT_WRITE)
    (Z.lor (Z.lor (Z.lor (Z.lor MAP_FIXED MAP_PRIVATE) MAP_NORESERVE) MAP_STACK) MAP_ANONYMOUS) o
  = (start, o').

Lemma allocate_stack_run start size s o' :
  start < MAP_FAILED → stack_mapped start size (en_os s) o' →
  ltckpt_allocate_stack start size s
  = Ok start (mk_entry (en_conf s) (en_init s)
      (mk_proc (zero_fill start size (p_mem (en_proc s))) (environ (en_proc s))) o').
Proof.
  intros Hst Hm. unfold ltckpt_allocate_stack, ltckpt_mmap.
  change (mmap_prot_of _) with (Z.lor PROT_READ PROT_WRITE).
  change (mmap_flags_of _) with
    (Z.lor (Z.lor (Z.lor (Z.lor MAP_FIXED MAP_PRIVATE) MAP_NORESERVE) MAP_STACK) MAP_ANONYMOUS).
  rewrite Hm. rewrite (proj2 (Z.eqb_neq start MAP_FAILED)) by lia.
  by rewrite (proj2 (Z.eqb_neq start LTCKPT_MAP_FAILED)) by (unfold MAP_FAILED, LTCKPT_MAP_FAILED in *; lia).
Qed.

(** What [__libc_start_main] of libc is given, from the words on the new stack. *)
Lemma start_args_words m eid d sp :
  words W m sp (uW W <$> [ei_main eid; ei_argc eid; ei_ubp_av eid - d; ei_init eid; ei_fini eid;
                          ei_rtld_fini eid; ei_stack_end eid - d]) →
  start_args x86 m eid sp
  = if x86 then uW 4 <$> [ei_main eid; ei_argc eid; ei_ubp_av eid - d; ei_init eid; ei_fini eid;
                          ei_rtld_fini eid; ei_stack_end eid - d]
    else [ei_main eid; ei_argc eid; ei_ubp_av eid; ei_init eid; ei_fini eid; ei_rtld_fini eid;
          uW 8 (ei_main eid)].
Proof.
  unfold start_args. destruct x86; cbn [ptr_size]; intros H.
  - apply (words_loads 4) in H. exact H.
  - cbn [fmap list_fmap] in H. apply words_cons in H as [H _]. by rewrite H.
Qed.

(** A fuel above the end of the stack is enough for the loops. *)
Lemma ly_fuel m eid av ev top :
  stack_layout W m eid av ev top → (Z.to_nat (top + w) < fuel)%nat →
  (length av < fuel)%nat ∧ (length ev < fuel)%nat ∧ (Z.to_nat top < fuel)%nat.
Proof. intros [? _ _ _ _ ? Har _] ?. unfold arrays_end in Har. split_and!; nia. Qed.

(** C22: a program that is instrumented for the smmap mechanism starts on a stack of its own.
    If the kernel maps the new stack and grants the changes of the memory layout, libc is
    found, and the old stack is as the kernel lays it out, apart from the new one and with at
    least one argument, then the entry of the library starts the program; with [d] the
    distance between the two stacks, the arrays of arguments and environment strings and
    everything behind them are found [d] below their old places with every pointer lowered by
    [d], and [environ] points to the new array.  On x86 the program is given the moved
    arguments; on x86-64 it is given those of the old stack, and the address of [main] as the
    end of the stack. *)
Theorem program_starts_on_new_stack m env eid av ev top e o o' :
  let start := if x86 then 1024 * 1024 * 1024 * 3 / 2 - STACK_SIZE else 139637976727552 - STACK_SIZE in
  let ntop := start + STACK_SIZE in
  let d := top + w - ntop in
  stack_layout W m eid av ev top → av ≠ [] →
  ntop <= ei_ubp_av eid - w ∨ top + w <= start → top - ei_ubp_av eid + 10 * w <= STACK_SIZE →
  stack_mapped start STACK_SIZE o o' → (∀ p a, prctl p a = 0) → (Z.to_nat (top + w) < fuel)%nat →
  ∃ m',
    libc_start_main x86 getenv progname bitmap_offset prctl true fuel eid (mk_entry (Some 4%nat) e (mk_proc m env) o)
    = Ok (Some (if x86 then uW 4 <$> [ei_main eid; ei_argc eid; ei_ubp_av eid - d; ei_init eid;
                                      ei_fini eid; ei_rtld_fini eid; ei_stack_end eid - d]
                else [ei_main eid; ei_argc eid; ei_ubp_av eid; ei_init eid; ei_fini eid;
                      ei_rtld_fini eid; uW 8 (ei_main eid)]))
         (mk_entry (Some 4%nat) (ltckpt_common_early_init getenv progname e)
            (mk_proc m' (ei_ubp_av eid + w * (zlen av + 1) - d)) o') ∧
    words W m' (ei_ubp_av eid - d) (((λ p, p - d) <$> av) ++ [0] ++ ((λ p, p - d) <$> ev) ++ [0]) ∧
    (∀ x, arrays_end W eid av ev <= x < top → m' (x - d) = m x).
Proof.
  intros start ntop d Hly Hav Hap Hroom Hmap Hpr Hf.
  assert (0 < start ∧ start < MAP_FAILED ∧ ntop < 256 ^ w) as (Hs0 & Hsf & Hhi) by (unfold ntop, start; destruct x86; by vm_compute).
  set (m1 := zero_fill start STACK_SIZE m).
  assert (∀ x, ei_ubp_av eid <= x < top + w → m1 x = m x) as Hm1.
  { intros x Hx. unfold m1, zero_fill. fold ntop.
    destruct (Z.leb_spec start x), (Z.ltb_spec x ntop); cbn; try done. lia. }
  pose proof (ly_ptrs _ _ _ _ _ _ Hly) as Hps.
  assert (stack_layout W m1 eid av ev top) as Hly1.
  { apply (stack_layout_ext W m); [done| |done]. intros x Hx. symmetry. apply Hm1. unfold in_block in Hx. lia. }
  assert (new_stack W eid top ntop) as Hns.
  { constructor; [unfold ntop; lia|done|unfold ntop in *; lia]. }
  destruct (ly_fuel m1 eid av ev top Hly1 Hf) as (Hfa & Hfe & Hft).
  destruct (setup_stack_relocates W m1 env eid av ev top ntop fuel prctl
    (allow_prctl (snd (ltckpt_common_early_init getenv progname e))) Hly1 Hns Hfa Hfe Hft
    (or_intror Hpr)) as (sp & m' & Hsp & Erun & Hwords & Hbytes & Hargs).
  exists m'. split_and!; [|exact Hwords|].
  - unfold libc_start_main.
    rewrite (bind_Ok _ _ _ () (mk_entry (Some 4%nat) e (mk_proc m env) o)) by done. rewrite bind_gets.
    change (early_init_stack _ _ _) with (Some (start, STACK_SIZE)). cbv beta iota.
    unfold early_init_hook. rewrite bind_modify. cbn [en_conf en_init en_proc en_os].
    erewrite bind_Ok by (apply allocate_stack_run; [exact Hsf|exact Hmap]). rewrite bind_gets.
    cbn [en_conf en_init en_proc en_os p_mem environ]. fold ntop m1.
    erewrite bind_Ok by (unfold on_proc; cbn [en_proc];
      rewrite uW_small by (unfold ntop in *; unfold STACK_SIZE in *; lia); rewrite Erun; reflexivity).
    unfold ltckpt_start. cbn [negb]. rewrite bind_when_false, bind_gets by done. cbn [en_proc p_mem].
    rewrite (start_args_words _ _ _ _ Hargs). fold d.
    unfold truthy. rewrite (proj2 (Z.eqb_neq sp 0)) by (unfold ntop in *; lia). cbn [negb]. reflexivity.
  - intros x Hx. rewrite Hbytes by done. apply Hm1. unfold arrays_end in Hx. destruct Hly1. nia.
Qed.

End Start.

(** ** An example *)

(** One argument, one environment string, and the string behind them. *)
Definition ex_stack : mem :=
  store_bytes (store_bytes (λ _, 0) 96 [1; 0; 0; 0; 116; 0; 0; 0; 0; 0; 0; 0; 118; 0; 0; 0; 0; 0; 0; 0])
    116 [97; 0; 98; 0; 99; 0; 0; 0; 0; 0; 0; 0].
Definition ex_eid : early_init_data := mk_eid 4096 1 100 5000 6000 7000 96.

Lemma ex_layout : stack_layout 4 ex_stack ex_eid [116] [118] 124.
Proof.
  constructor.
  - lia.
  - cbn [app ei_ubp_av ex_eid]. repeat (apply words_cons; split; [reflexivity|]). by intros ? ?.
  - unfold arrays_end. cbn. constructor; [lia|]. constructor; [lia|constructor].
  - exists 119, 121. change (maxp (maxp 0 [116]) [118]) with 118.
    split_and!; [| |reflexivity]; (split_and!; [lia|reflexivity|]); intros x Hx.
    + assert (x = 118) as -> by lia. discriminate.
    + assert (x = 120) as -> by lia. discriminate.
  - reflexivity.
  - by vm_compute.
  - by vm_compute.
  - by vm_compute.
Qed.

(** The kernel grants the stack. *)
#[local] Instance grant_vmem : VMem () := {|
  mmap a _ _ _ _ := (a, ());
  munmap _ _ _ := (0, ());
  mprotect _ _ _ _ := (0, ());
|}.

Lemma program_starts_on_new_stack_witness :
  let d := 124 + 4 - 1610612736 in
  ∃ m',
    libc_start_main true (λ _, None) "prog" 0 (λ _ _, 0) true 200 ex_eid
      (mk_entry (Some 4%nat) (false, ctx0) (mk_proc ex_stack 0) ())
    = Ok (Some (uW 4 <$> [4096; 1; 100 - d; 5000; 6000; 7000; 96 - d]))
         (mk_entry (Some 4%nat) (ltckpt_common_early_init (λ _, None) "prog" (false, ctx0))
            (mk_proc m' (108 - d)) ()) ∧
    m' (116 - d) = 97.
Proof.
  destruct (program_starts_on_new_stack true (λ _, None) "prog" 0 (λ _ _, 0) 200 ex_stack 0 ex_eid
              [116] [118] 124 (false, ctx0) () ()) as (m' & E & _ & H).
  - exact ex_layout.
  - done.
  - right. by vm_compute.
  - by vm_compute.
  - reflexivity.
  - done.
  - vm_compute; lia.
  - exists m'. split; [exact E|]. apply (H 116). clear. vm_compute. split; congruence.
Defined.
