(* ===== verification/CtlServer.v ===== *)
(** * The control server of the fault injector

    [edfi/platform/unix_apps/ctl/server/edfi_ctl_server.c] with the server thread compiled in,
    and its client [edfi/platform/unix_apps/ctl/client/edfi_ctl_client.c]: the requests on the
    wire, the thread that serves them, and [edfi_ctl_init], which starts the thread and waits
    for it.  The two threads interleave at system calls and accesses to shared variables.

    The sockets are the class [Sockets]; the injector the requests are for is [Edfi]. *)
From stdpp Require Import base numbers list strings relations.
From Stdlib Require Import ZArith Lia Ascii.
From S2P Require Import Prelude Memory CString ProcMaps Edfi.

(** ** Requests on the wire *)

(** [edfi_cmd_data_t]; [ctx_ptr] and [params_ptr] are its pointers, 0 for NULL. *)
Record edfi_cmd_data := mk_cmd {
  cmd : Z;  (** [enum], 4 bytes *)
  status : Z;  (** [int] *)
  context_size : Z;  (** [size_t] *)
  params_size : Z;  (** [size_t] *)
  ctx_ptr : Z;
  params_ptr : Z;
}.

Definition set_status (v : Z) (d : edfi_cmd_data) : edfi_cmd_data :=
  mk_cmd (cmd d) v (context_size d) (params_size d) (ctx_ptr d) (params_ptr d).

Definition sizeof_cmd_data : Z := 40.
Definition sizeof_context : Z := 640.

(** [data.context] and [data.params] point into the buffer the server received. *)
Definition point_to_buff (data_buff : Z) (d : edfi_cmd_data) : edfi_cmd_data :=
  mk_cmd (cmd d) (status d) (context_size d) (params_size d) data_buff (u64 (data_buff + sizeof_context)).

(** The packed layouts on x86-64. *)
Definition cmd_bytes (d : edfi_cmd_data) : list Z :=
  le_bytes 4 (cmd d) ++ le_bytes 4 (status d) ++ le_bytes 8 (context_size d) ++
  le_bytes 8 (params_size d) ++ le_bytes 8 (ctx_ptr d) ++ le_bytes 8 (params_ptr d).

(** The little-endian field of [n] bytes at [off]. *)
Definition field (bs : list Z) (off n : nat) : Z := le_decode (take n (drop off bs)).

Definition cmd_of_bytes (bs : list Z) : edfi_cmd_data :=
  mk_cmd (field bs 0 4) (s32 (field bs 4 4)) (field bs 8 8) (field bs 16 8) (field bs 24 8)
    (field bs 32 8).

Definition EDFI_DFLIB_PATH_MAX : nat := 512.

(** [edfi_context_conf_t], after the four bytes of [fault_prob]. *)
Definition conf_bytes (fault_prob : list Z) (c : edfi_conf) : list Z :=
  fault_prob ++ le_bytes 8 (fault_prob_randmax c) ++ le_bytes 4 (min_fdp_interval c) ++
  le_bytes 4 (faulty_bb_index c) ++ le_bytes 4 (min_fault_time_interval c) ++
  le_bytes 4 (max_time c) ++ le_bytes 8 (max_faults c) ++ le_bytes 4 (rand_seed c) ++
  take EDFI_DFLIB_PATH_MAX (char_bytes (dflib_path c) ++ replicate EDFI_DFLIB_PATH_MAX 0).

(** [edfi_context_t]: 84 bytes, the configuration, a canary. *)
Definition context_bytes (header fault_prob : list Z) (c : edfi_conf) : list Z :=
  header ++ conf_bytes fault_prob c ++ le_bytes 4 EDFI_CANARY_VALUE.

(** A C string in a field of bytes. *)
Fixpoint string_of_bytes (bs : list Z) : cstr :=
  match bs with
  | [] => []
  | b :: bs' => if b =? 0 then [] else ascii_of_N (Z.to_N b) :: string_of_bytes bs'
  end.

(** The configuration of a context at the start of [bs]. *)
Definition conf_of_bytes (bs : list Z) : edfi_conf :=
  mk_conf (field bs 88 8) (s32 (field bs 96 4)) (s32 (field bs 100 4)) (field bs 104 4)
    (field bs 108 4) (field bs 112 8) (field bs 120 4)
    (string_of_bytes (take EDFI_DFLIB_PATH_MAX (drop 124 bs))).

(** What [recv] puts at the start of a zeroed buffer of [n] bytes. *)
Definition received (n : Z) (bs : list Z) : list Z :=
  take (Z.to_nat n) (bs ++ replicate (Z.to_nat n) 0).

(** ** The threads *)

(** The calls of the server and the client.  [None]: the call blocks. *)
Class Sockets (os : Type) := {
  sys_socket : os → Z * os;
  sys_bind : Z → os → Z * os;
  sys_listen : Z → os → Z * os;
  sys_sigmask : os → Z * os;
  sys_calloc : Z → os → Z * os;  (** the address, 0 for NULL *)
  sys_accept : Z → os → option (Z * os);
  sys_recv : Z → Z → os → option (Z * list Z * os);  (** descriptor, size *)
  sys_send : Z → list Z → os → Z * os;
  sys_close : Z → os → os;
}.

(** What the pointer [data.context] the server passes on leads to: NULL, a context in the buffer
    it received, or memory that holds none (an address that came with the request, or a buffer
    too small for a context).  The parameters behind the context go to the start-up function of
    the loaded library, whose effect is a parameter of the injector. *)
Inductive context_arg := NoContext | Received (c : edfi_conf) | Wild.

(** Where the server thread is. *)
Inductive svr_pc :=
  | SNone  (** not started *)
  | SSocket | SBind | SListen | SSigmask
  | SAccept
  | SRecv (s : Z)
  | SRecvData (s : Z) (data : edfi_cmd_data)
  | SProcess (s : Z) (data : edfi_cmd_data) (context : context_arg)
  | SSend (s : Z) (data : edfi_cmd_data)
  | SClose (s : Z)
  | SCount
  | SCheck
  | SCloseServer
  | SDone
  | SReturned.

(** Where the thread that runs [edfi_ctl_init] is. *)
Inductive main_pc := MStart | MWaitRequests | MWaitDone | MTail | MReturned.

(** The shared variables, the two threads, the injector with the system, and, once the
    process has ended, why.  [replies] are the statuses sent back, latest first. *)
Record ctl (os : Type) := mk_ctl {
  no_svr_thread : Z;  (** [edfi_context->no_svr_thread] *)
  num_requests_on_start : Z;  (** [edfi_context->num_requests_on_start] *)
  num_completed : Z;  (** [edfi_ctl_num_completed_requests] *)
  max_num : Z;  (** [edfi_ctl_max_num_requests] *)
  svr_thread_done : Z;  (** [edfi_svr_thread_done] *)
  server_fd : Z;  (** [edfi_server_fd] *)
  main_at : main_pc;
  svr_at : svr_pc;
  world : edfi * os;
  ended : option stop;
  replies : list Z;
}.
#[global] Arguments mk_ctl {os}.
#[global] Arguments no_svr_thread {os}.
#[global] Arguments num_requests_on_start {os}.
#[global] Arguments num_completed {os}.
#[global] Arguments max_num {os}.
#[global] Arguments svr_thread_done {os}.
#[global] Arguments server_fd {os}.
#[global] Arguments main_at {os}.
#[global] Arguments svr_at {os}.
#[global] Arguments world {os}.
#[global] Arguments ended {os}.
#[global] Arguments replies {os}.

Section Ctl.
Context {os : Type} `{platform : Platform os} `{sockets : Sockets os}.

Local Abbreviation C := (ctl os).

Definition at_main (p : main_pc) (c : C) : C :=
  mk_ctl (no_svr_thread c) (num_requests_on_start c) (num_completed c) (max_num c)
    (svr_thread_done c) (server_fd c) p (svr_at c) (world c) (ended c) (replies c).
Definition at_svr (p : svr_pc) (c : C) : C :=
  mk_ctl (no_svr_thread c) (num_requests_on_start c) (num_completed c) (max_num c)
    (svr_thread_done c) (server_fd c) (main_at c) p (world c) (ended c) (replies c).
Definition set_world (w : edfi * os) (c : C) : C :=
  mk_ctl (no_svr_thread c) (num_requests_on_start c) (num_completed c) (max_num c)
    (svr_thread_done c) (server_fd c) (main_at c) (svr_at c) w (ended c) (replies c).
Definition set_os (o : os) (c : C) : C := set_world (fst (world c), o) c.
Definition set_ended (w : stop) (c : C) : C :=
  mk_ctl (no_svr_thread c) (num_requests_on_start c) (num_completed c) (max_num c)
    (svr_thread_done c) (server_fd c) (main_at c) (svr_at c) (world c) (Some w) (replies c).
Definition set_server_fd (v : Z) (c : C) : C :=
  mk_ctl (no_svr_thread c) (num_requests_on_start c) (num_completed c) (max_num c)
    (svr_thread_done c) v (main_at c) (svr_at c) (world c) (ended c) (replies c).
Definition set_counters (n m d : Z) (c : C) : C :=
  mk_ctl (no_svr_thread c) (num_requests_on_start c) n m d (server_fd c) (main_at c) (svr_at c)
    (world c) (ended c) (replies c).
Definition set_on_start (v : Z) (c : C) : C :=
  mk_ctl (no_svr_thread c) v (num_completed c) (max_num c) (svr_thread_done c) (server_fd c)
    (main_at c) (svr_at c) (world c) (ended c) (replies c).
Definition add_reply (v : Z) (c : C) : C :=
  mk_ctl (no_svr_thread c) (num_requests_on_start c) (num_completed c) (max_num c)
    (svr_thread_done c) (server_fd c) (main_at c) (svr_at c) (world c) (ended c) (v :: replies c).

(** [edfi_ctl_process_request]: a context pointer that came with the request is followed by
    the commands that look at it. *)
Definition edfi_ctl_process_request (data : edfi_cmd_data) (context : context_arg)
    : prog (edfi * os) Z :=
  match context with
  | NoContext => edfi_process_cmd (cmd data) None
  | Received conf => edfi_process_cmd (cmd data) (Some conf)
  | Wild =>
      if (cmd data =? EDFI_CTL_CMD_STOP) || (cmd data =? EDFI_CTL_CMD_TEST)
      then edfi_process_cmd (cmd data) None
      else if (cmd data =? EDFI_CTL_CMD_START) || (cmd data =? EDFI_CTL_CMD_STAT)
              || (cmd data =? EDFI_CTL_CMD_UPDATE) then halt Undefined
      else edfi_process_cmd (cmd data) None
  end.

(** [perror(...); exit(1)] if the call failed, else go on. *)
Definition or_exit (failed : bool) (c : C) : C := if failed then set_ended (Exit 1) c else c.

(** After the first [recv] of a request. *)
Definition svr_received (s : Z) (data : edfi_cmd_data) (c : C) : C :=
  let data_buff_size := u64 (context_size data + params_size data) in
  if 0 <? data_buff_size then
    if negb (context_size data =? sizeof_context) then set_ended (Exit 1) c
    else at_svr (SRecvData s data) c
  else at_svr (SProcess s data (if ctx_ptr data =? 0 then NoContext else Wild)) c.

(** The context in a buffer of [data_buff_size] bytes at [data_buff]: the size has been added up
    in 64 bits, and the sum may have wrapped to less than a context. *)
Definition context_in (data_buff data_buff_size : Z) (bs : list Z) : context_arg :=
  if data_buff =? 0 then NoContext
  else if data_buff_size <? sizeof_context then Wild
  else Received (conf_of_bytes (received data_buff_size bs)).

(** A step of [__edfi_ctl_srv]; [None] if the thread blocks, has not started or is done. *)
Definition svr_step (c : C) : option C :=
  let o := snd (world c) in
  match svr_at c with
  | SNone => None
  | SSocket =>
      let '(fd, o') := sys_socket o in
      Some (or_exit (fd =? -1) (at_svr SBind (set_server_fd fd (set_os o' c))))
  | SBind =>
      let '(r, o') := sys_bind (server_fd c) o in
      Some (or_exit (r =? -1) (at_svr SListen (set_os o' c)))
  | SListen =>
      let '(r, o') := sys_listen (server_fd c) o in
      Some (or_exit (r =? -1) (at_svr SSigmask (set_os o' c)))
  | SSigmask =>
      let '(r, o') := sys_sigmask o in
      let c := at_svr SAccept (set_os o' c) in
      Some (if r =? 0 then c else set_ended AssertFail c)
  | SAccept =>
      match sys_accept (server_fd c) o with
      | None => None
      | Some (s, o') => Some (or_exit (s =? -1) (at_svr (SRecv s) (set_os o' c)))
      end
  | SRecv s =>
      match sys_recv s sizeof_cmd_data o with
      | None => None
      | Some (r, bs, o') =>
          let c := set_os o' c in
          Some (if r <? 0 then set_ended (Exit 1) c
                else svr_received s (cmd_of_bytes (received sizeof_cmd_data bs)) c)
      end
  | SRecvData s data =>
      let data_buff_size := u64 (context_size data + params_size data) in
      let '(data_buff, o) := sys_calloc data_buff_size o in
      match sys_recv s data_buff_size o with
      | None => None
      | Some (r, bs, o') =>
          (* nothing can be received at NULL *)
          Some (or_exit ((r <? 0) || ((data_buff =? 0) && (0 <? r)))
                  (at_svr (SProcess s (point_to_buff data_buff data) (context_in data_buff data_buff_size bs))
                     (set_os o' c)))
      end
  | SProcess s data context =>
      Some (match edfi_ctl_process_request data context (world c) with
            | Ok st w => at_svr (SSend s (set_status st data)) (set_world w c)
            | Stop why w => set_ended why (set_world w c)
            end)
  | SSend s data =>
      let '(r, o') := sys_send s (cmd_bytes data) o in
      let c := set_os o' c in
      Some (if r =? -1 then set_ended (Exit 1) c
            else at_svr (SClose s) (add_reply (status data) c))
  | SClose s => Some (at_svr SCount (set_os (sys_close s o) c))
  | SCount =>
      Some (at_svr SCheck (set_counters (s32 (num_completed c + 1)) (max_num c)
                             (svr_thread_done c) c))
  | SCheck =>
      Some (at_svr (if (max_num c =? 0) || (num_completed c <? max_num c)
                    then SAccept else SCloseServer) c)
  | SCloseServer => Some (at_svr SDone (set_os (sys_close (server_fd c) o) c))
  | SDone => Some (at_svr SReturned (set_counters (num_completed c) (max_num c) 1 c))
  | SReturned => None
  end.

(** A step of [edfi_ctl_init] from the start of the server thread on; a thread that waits
    sleeps and looks again.  The registration of the handlers of [fork] and the check of the
    canaries at its end touch none of this state. *)
Definition main_step (c : C) : C :=
  match main_at c with
  | MStart =>
      if negb (truthy (no_svr_thread c)) || (0 <? num_requests_on_start c) then
        let c := set_counters 0 (if truthy (no_svr_thread c) then num_requests_on_start c else 0) 0 c in
        at_main MWaitRequests (at_svr SSocket c)
      else at_main MTail c
  | MWaitRequests =>
      if (0 <? num_requests_on_start c) && (num_completed c <? num_requests_on_start c) then c
      else at_main MWaitDone c
  | MWaitDone =>
      if truthy (no_svr_thread c) && negb (truthy (svr_thread_done c)) then c
      else at_main MTail c
  | MTail => at_main MReturned (set_on_start 0 c)
  | MReturned => c
  end.

(** The threads interleave until the process ends. *)
Inductive ctl_step : C → C → Prop :=
  | step_main c : ended c = None → ctl_step c (main_step c)
  | step_svr c c' : ended c = None → svr_step c = Some c' → ctl_step c c'.

(** A schedule, and its run: a thread that cannot move stays. *)
Inductive thread := Main | Server.

Definition sched_step (t : thread) (c : C) : C :=
  match ended c with
  | Some _ => c
  | None => match t with Main => main_step c | Server => default c (svr_step c) end
  end.

Definition run_sched (ts : list thread) (c : C) : C := foldl (λ c t, sched_step t c) c ts.

(** Before [edfi_ctl_init] starts the server. *)
Definition ctl0 (no_svr on_start : Z) (w : edfi * os) : C :=
  mk_ctl no_svr on_start 0 0 0 (-1) MStart SNone w None [].

(** ** The client *)

(** [edfi_ctl_client_send]: its result, [errno] where the function sets it, and the data as
    the reply left it; [None] if no reply comes. *)
Definition edfi_ctl_client_send (fd : Z) (d : edfi_cmd_data) (context params : list Z) (o : os)
    : option (Z * option Z * edfi_cmd_data * os) :=
  if (0 <? params_size d) && (context_size d <=? 0) then Some (-1, Some EINVAL, d, o) else
  let '(r, o) := sys_send fd (cmd_bytes d) o in
  if r <? 0 then Some (-1, None, d, o) else
  let '(r, o) := if 0 <? context_size d then sys_send fd context o else (0, o) in
  if r <? 0 then Some (-1, None, d, o) else
  let '(r, o) := if 0 <? params_size d then sys_send fd params o else (0, o) in
  if r <? 0 then Some (-1, None, d, o) else
  match sys_recv fd sizeof_cmd_data o with
  | None => None
  | Some (r, bs, o) =>
      if r <? 0 then Some (-1, None, d, o) else
      let d := cmd_of_bytes (bs ++ drop (length bs) (cmd_bytes d)) in
      if status d <? 0 then Some (-1, Some (s32 (- status d)), d, o) else Some (0, None, d, o)
  end.

(** A schedule is a run of the step relation. *)
Lemma run_sched_steps ts (c : C) : rtc ctl_step c (run_sched ts c).
Proof.
  revert c. induction ts as [|t ts IH]; intros c; [apply rtc_refl|].
  change (run_sched (t :: ts) c) with (run_sched ts (sched_step t c)).
  assert (rtc ctl_step c (sched_step t c)) as Hs; [|by etransitivity].
  unfold sched_step. destruct (ended c) eqn:E; [apply rtc_refl|].
  destruct t; [by apply rtc_once, step_main|].
  destruct (svr_step c) eqn:Es; [by apply rtc_once, step_svr|apply rtc_refl].
Qed.

End Ctl.

(** ** Requests arrive as they were sent *)

Lemma field_here n z l : field (le_bytes n z ++ l) 0 n = z mod 256 ^ Z.of_nat n.
Proof.
  unfold field. rewrite drop_0, take_app_le by (rewrite length_le_bytes; lia).
  by rewrite take_ge, le_decode_le_bytes by (rewrite length_le_bytes; lia).
Qed.

Lemma field_skip b l off n : (length b <= off)%nat → field (b ++ l) off n = field l (off - length b) n.
Proof. intros H. unfold field. by rewrite drop_app_ge. Qed.

(** Find a field behind fields of known length. *)
Ltac find_field :=
  repeat (rewrite field_skip by (rewrite ?length_le_bytes; cbn; lia));
  rewrite ?length_le_bytes; cbn [Nat.sub]; rewrite field_here.

(** The ranges of the C types. *)
Definition is_u32 (z : Z) : Prop := 0 <= z < 4294967296.
Definition is_u64 (z : Z) : Prop := 0 <= z < 18446744073709551616.
Definition is_s32 (z : Z) : Prop := -2147483648 <= z < 2147483648.

Record cmd_ok (d : edfi_cmd_data) : Prop := {
  ok_cmd : is_u32 (cmd d);
  ok_status : is_s32 (status d);
  ok_context_size : is_u64 (context_size d);
  ok_params_size : is_u64 (params_size d);
  ok_ctx_ptr : is_u64 (ctx_ptr d);
  ok_params_ptr : is_u64 (params_ptr d);
}.

Lemma mod_u32 z : is_u32 z → z mod 256 ^ Z.of_nat 4 = z.
Proof. intros H. by apply Z.mod_small. Qed.

Lemma mod_u64 z : is_u64 z → z mod 256 ^ Z.of_nat 8 = z.
Proof. intros H. by apply Z.mod_small. Qed.

Lemma s32_mod z : is_s32 z → s32 (z mod 256 ^ Z.of_nat 4) = z.
Proof.
  intros H. change (256 ^ Z.of_nat 4) with (2 ^ 32). unfold s32, swrap.
  rewrite Zplus_mod_idemp_l. rewrite Z.mod_small; unfold is_s32 in H; cbn; lia.
Qed.

Lemma cmd_roundtrip d l : cmd_ok d → cmd_of_bytes (cmd_bytes d ++ l) = d.
Proof.
  intros []. unfold cmd_of_bytes, cmd_bytes. rewrite <- !app_assoc.
  rewrite field_here, mod_u32 by done. find_field. rewrite s32_mod by done.
  find_field. rewrite mod_u64 by done. find_field. rewrite mod_u64 by done.
  find_field. rewrite mod_u64 by done. find_field. rewrite mod_u64 by done. by destruct d.
Qed.

Lemma length_cmd_bytes d : length (cmd_bytes d) = 40%nat.
Proof. unfold cmd_bytes. by rewrite !length_app, !length_le_bytes. Qed.

(** A configuration that fits its fields; the path is a C string with its terminator. *)
Record conf_ok (c : edfi_conf) : Prop := {
  ok_randmax : is_u64 (fault_prob_randmax c);
  ok_interval : is_s32 (min_fdp_interval c);
  ok_faulty : is_s32 (faulty_bb_index c);
  ok_time_interval : is_u32 (min_fault_time_interval c);
  ok_max_time : is_u32 (max_time c);
  ok_max_faults : is_u64 (max_faults c);
  ok_seed : is_u32 (rand_seed c);
  ok_path : (length (dflib_path c) < EDFI_DFLIB_PATH_MAX)%nat;
  ok_path_nul : Forall (λ a, a ≠ ascii_of_N 0) (dflib_path c);
}.

Lemma string_roundtrip s l :
  Forall (λ a, a ≠ ascii_of_N 0) s → string_of_bytes (char_bytes s ++ 0 :: l) = s.
Proof.
  induction 1 as [|a s Ha _ IH]; [done|]. cbn. unfold code at 1.
  destruct (Z.eqb_spec (Z.of_N (N_of_ascii a)) 0) as [E|E].
  - exfalso. apply Ha. rewrite <- (ascii_N_embedding a). f_equal. lia.
  - unfold char_bytes in IH. rewrite IH. f_equal. unfold code. rewrite N2Z.id. apply ascii_N_embedding.
Qed.

Lemma path_field s l :
  (length s < EDFI_DFLIB_PATH_MAX)%nat → Forall (λ a, a ≠ ascii_of_N 0) s →
  string_of_bytes (take EDFI_DFLIB_PATH_MAX
    (take EDFI_DFLIB_PATH_MAX (char_bytes s ++ replicate EDFI_DFLIB_PATH_MAX 0) ++ l)) = s.
Proof.
  intros Hl Hs. assert (length (char_bytes s) = length s) as E by apply length_fmap.
  rewrite take_app_le by (rewrite length_take, length_app, E, length_replicate; lia).
  rewrite take_take, Nat.min_id, take_app_ge by lia. rewrite take_replicate.
  replace (_ `min` EDFI_DFLIB_PATH_MAX)%nat with (S (EDFI_DFLIB_PATH_MAX - length (char_bytes s) - 1)) by lia.
  cbn [replicate]. by apply string_roundtrip.
Qed.

Lemma conf_roundtrip header fault_prob c l :
  length header = 84%nat → length fault_prob = 4%nat → conf_ok c →
  conf_of_bytes (context_bytes header fault_prob c ++ l) = c.
Proof.
  intros Hh Hf []. unfold conf_of_bytes, context_bytes, conf_bytes. rewrite <- !app_assoc.
  assert (∀ l off n, (88 <= off)%nat → field (header ++ fault_prob ++ l) off n = field l (off - 88) n) as Hskip.
  { intros l' off n Ho. rewrite !field_skip by lia. f_equal. lia. }
  rewrite !Hskip by lia. cbn [Nat.sub].
  rewrite field_here, mod_u64 by done. find_field. rewrite s32_mod by done.
  find_field. rewrite s32_mod by done. find_field. rewrite mod_u32 by done.
  find_field. rewrite mod_u32 by done. find_field. rewrite mod_u64 by done.
  find_field. rewrite mod_u32 by done.
  repeat (rewrite drop_app_ge by (rewrite ?length_le_bytes; lia)).
  rewrite !length_le_bytes, Hh, Hf. cbn [Nat.sub]. rewrite drop_0, path_field by done.
  by destruct c.
Qed.

Lemma received_app n bs l : Z.of_nat (length bs) = n → received n (bs ++ l) = bs.
Proof.
  intros H. unfold received. rewrite <- app_assoc, take_app_le by lia. by rewrite take_ge by lia.
Qed.

Section Requests.
Context {os : Type} `{platform : Platform os} `{sockets : Sockets os}.

(** C20: The server carries out what the client asked for.  When the bytes of a request with
    a context arrive as the client sends them (the command in one piece, then the context,
    with any parameters after it), the server thread, in two steps, comes to process the
    client's command with the client's configuration, the pointers of the command set to the
    buffer it has allocated for them (the allocation is taken to succeed). *)
Theorem request_roundtrip (d : edfi_cmd_data) (header fault_prob params : list Z) (conf : edfi_conf)
    (s data_buff : Z) (c : ctl os) (o1 o1' o2 : os) :
  cmd_ok d → conf_ok conf → length header = 84%nat → length fault_prob = 4%nat →
  context_size d = sizeof_context → params_size d = zlen params →
  let ctx := context_bytes header fault_prob conf in
  sizeof_context + zlen params < 18446744073709551616 →
  svr_at c = SRecv s →
  sys_recv s sizeof_cmd_data (snd (world c)) = Some (sizeof_cmd_data, cmd_bytes d, o1) →
  sys_calloc (sizeof_context + zlen params) o1 = (data_buff, o1') → data_buff ≠ 0 →
  sys_recv s (sizeof_context + zlen params) o1'
    = Some (sizeof_context + zlen params, ctx ++ params, o2) →
  ∃ c1 c2, svr_step c = Some c1 ∧ svr_step c1 = Some c2 ∧ ended c2 = ended c ∧
    svr_at c2 = SProcess s (point_to_buff data_buff d) (Received conf) ∧ world c2 = (fst (world c), o2).
Proof.
  intros Hd Hc Hh Hf Hcs Hps ctx Hsz Hat H1 Hb Hb0 H2.
  assert (cmd_of_bytes (received sizeof_cmd_data (cmd_bytes d)) = d) as Ed.
  { rewrite <- (app_nil_r (cmd_bytes d)), received_app by (by rewrite length_cmd_bytes).
    rewrite <- (app_nil_r (cmd_bytes d)). by apply cmd_roundtrip. }
  assert (u64 (context_size d + params_size d) = sizeof_context + zlen params) as Es.
  { rewrite Hcs, Hps. apply u64_small. unfold sizeof_context in *. lia. }
  assert (length ctx = 640%nat) as Hl.
  { unfold ctx, context_bytes, conf_bytes. rewrite !length_app, !length_le_bytes, length_take, length_app.
    rewrite length_replicate, Hh, Hf. unfold EDFI_DFLIB_PATH_MAX. lia. }
  eexists _, _. split; [|split].
  - unfold svr_step. rewrite Hat, H1. change (sizeof_cmd_data <? 0) with false. cbv iota.
    rewrite Ed. unfold svr_received. rewrite Es, (proj2 (Z.ltb_lt _ _)) by (unfold sizeof_context; lia).
    rewrite Hcs, Z.eqb_refl. cbn [negb]. reflexivity.
  - unfold svr_step. cbn [svr_at at_svr world set_os set_world snd]. rewrite Es, Hb, H2.
    unfold or_exit. rewrite (proj2 (Z.eqb_neq _ _) Hb0), (proj2 (Z.ltb_ge _ _)) by (unfold sizeof_context; lia).
    cbn [orb andb]. reflexivity.
  - split; [done|]. split; [|done]. cbn [svr_at at_svr]. f_equal. unfold context_in.
    rewrite (proj2 (Z.eqb_neq _ _) Hb0), (proj2 (Z.ltb_ge (_ + _) _)) by (unfold sizeof_context; lia). f_equal.
    rewrite <- (app_nil_r (ctx ++ params)), received_app by (rewrite length_app, Hl; unfold sizeof_context; lia).
    by apply conf_roundtrip.
Qed.

(** The client reports the status of its request: 0, or -1 with the status as [errno]. *)
Lemma client_reports_status fd (d : edfi_cmd_data) st context params (o o1 o2 o3 o4 : os) r1 r2 r3 :
  cmd_ok (set_status st d) → -2147483648 < st → 0 < context_size d → 0 < params_size d →
  sys_send fd (cmd_bytes d) o = (r1, o1) → sys_send fd context o1 = (r2, o2) →
  sys_send fd params o2 = (r3, o3) → 0 <= r1 → 0 <= r2 → 0 <= r3 →
  sys_recv fd sizeof_cmd_data o3 = Some (sizeof_cmd_data, cmd_bytes (set_status st d), o4) →
  edfi_ctl_client_send fd d context params o
    = Some (if st <? 0 then (-1, Some (- st), set_status st d, o4) else (0, None, set_status st d, o4)).
Proof.
  intros Hd Hst Hc Hp E1 E2 E3 H1 H2 H3 E4. unfold edfi_ctl_client_send.
  rewrite (proj2 (Z.leb_gt (context_size d) 0) Hc), andb_false_r, E1, (proj2 (Z.ltb_ge r1 0) H1).
  rewrite (proj2 (Z.ltb_lt 0 (context_size d)) Hc), E2, (proj2 (Z.ltb_ge r2 0) H2).
  rewrite (proj2 (Z.ltb_lt 0 (params_size d)) Hp), E3, (proj2 (Z.ltb_ge r3 0) H3), E4.
  change (sizeof_cmd_data <? 0) with false. cbv iota. rewrite cmd_roundtrip by done. cbn [status set_status].
  pose proof (ok_status _ Hd) as Hs. cbn in Hs. destruct (Z.ltb_spec st 0); [|done].
  by rewrite s32_small by (unfold is_s32 in Hs; lia).
Qed.

(** A client that closes its connection without a request: the server processes the zeroed
    command, which is [EDFI_CTL_CMD_STOP]. *)
Lemma closed_connection_stops s (c : ctl os) o1 :
  svr_at c = SRecv s → sys_recv s sizeof_cmd_data (snd (world c)) = Some (0, [], o1) →
  ∃ c1, svr_step c = Some c1 ∧ ∃ d, svr_at c1 = SProcess s d NoContext ∧ cmd d = EDFI_CTL_CMD_STOP.
Proof.
  intros Hat H1. eexists. unfold svr_step. rewrite Hat, H1. split; [reflexivity|].
  eexists. split; reflexivity.
Qed.

End Requests.

(** ** Waiting for requests *)

Section Waiting.
Context {os : Type} `{platform : Platform os} `{sockets : Sockets os}.
Context (no_svr on_start : Z).

(** The requests completed, given the place of the server. *)
Definition counted (c : ctl os) : Z :=
  match svr_at c with
  | SClose _ | SCount => zlen (replies c) - 1
  | _ => zlen (replies c)
  end.

(** The requests the server can have answered when it only serves those on start. *)
Definition svr_bound (c : ctl os) : Prop :=
  match svr_at c with
  | SNone => False
  | SSocket | SBind | SListen | SSigmask | SAccept | SRecv _ | SRecvData _ _ | SProcess _ _ _ | SSend _ _ =>
      zlen (replies c) < on_start ∧ svr_thread_done c = 0
  | SClose _ | SCount | SCheck => zlen (replies c) <= on_start ∧ svr_thread_done c = 0
  | SCloseServer | SDone => zlen (replies c) = on_start ∧ svr_thread_done c = 0
  | SReturned => zlen (replies c) = on_start
  end.

(** Whether the thread is started. *)
Definition starts : bool := negb (truthy no_svr) || (0 <? on_start).

Record ctl_inv (c : ctl os) : Prop := {
  ci_no_svr : no_svr_thread c = no_svr;
  ci_on_start : main_at c ≠ MReturned → num_requests_on_start c = on_start;
  ci_reset : main_at c = MReturned → num_requests_on_start c = 0;
  ci_counted : num_completed c = counted c;
  ci_start : main_at c = MStart → svr_at c = SNone ∧ replies c = [];
  ci_none : svr_at c = SNone → main_at c = MStart ∨ starts = false ∧ replies c = [];
  ci_wait : main_at c = MWaitRequests ∨ main_at c = MWaitDone → starts = true;
  ci_max : svr_at c ≠ SNone → starts = true ∧ max_num c = (if truthy no_svr then on_start else 0);
  ci_bound : svr_at c ≠ SNone → truthy no_svr = true → svr_bound c;
  ci_forever : truthy no_svr = false →
    match svr_at c with SCloseServer | SDone | SReturned => False | _ => True end;
  ci_past_requests : match main_at c with MStart | MWaitRequests => True
    | _ => 0 < on_start → on_start <= num_completed c end
    ∨ starts = false;
  ci_past_done : match main_at c with MTail | MReturned => truthy no_svr = true → svr_at c = SReturned | _ => True end
    ∨ starts = false;
}.

Lemma ctl0_inv w : ctl_inv (ctl0 no_svr on_start w).
Proof. split; cbn; try done; try tauto; intros [?|?]; done. Qed.

(** A place of the server where nothing has changed for the invariant but the place. *)
Definition same_counts (c c' : ctl os) : Prop :=
  no_svr_thread c' = no_svr_thread c ∧ num_requests_on_start c' = num_requests_on_start c ∧
  num_completed c' = num_completed c ∧ max_num c' = max_num c ∧
  svr_thread_done c' = svr_thread_done c ∧ main_at c' = main_at c ∧ replies c' = replies c.

(** The places from the start of the thread to the reply to a request. *)
Definition serving (p : svr_pc) : bool :=
  match p with
  | SSocket | SBind | SListen | SSigmask | SAccept | SRecv _ | SRecvData _ _ | SProcess _ _ _ | SSend _ _ => true
  | _ => false
  end.

Lemma serving_step c c' :
  same_counts c c' → serving (svr_at c) = true → serving (svr_at c') = true → ctl_inv c → ctl_inv c'.
Proof.
  intros (E1 & E2 & E3 & E4 & E5 & E6 & E7) Hs Hs' [].
  assert (svr_at c ≠ SNone ∧ svr_at c' ≠ SNone) as [Hn Hn'] by (split; intros E; by rewrite E in *).
  assert (counted c' = counted c) as Ec
    by (unfold counted; destruct (svr_at c), (svr_at c'); try done; by rewrite E7).
  split; rewrite ?E1, ?E2, ?E3, ?E4, ?E6, ?E7, ?Ec; try done.
  - intros H. by destruct (ci_start0 H).
  - by intros _; apply ci_max0.
  - intros _ H. specialize (ci_bound0 Hn H). unfold svr_bound in *. rewrite E5, E7.
    destruct (svr_at c), (svr_at c'); done.
  - intros _. by destruct (svr_at c').
  - destruct ci_past_done0 as [H|H]; [left|by right]. destruct (main_at c); try done;
      intros Ht; specialize (H Ht); by rewrite H in Hs.
Qed.

(** The steps up to the reply stay within them, unless they send it. *)
Lemma svr_step_serving c c' :
  svr_step c = Some c' → serving (svr_at c) = true →
  (same_counts c c' ∧ serving (svr_at c') = true) ∨
  ∃ s d, svr_at c = SSend s d ∧ svr_at c' = SClose s ∧ replies c' = status d :: replies c ∧
    no_svr_thread c' = no_svr_thread c ∧ num_requests_on_start c' = num_requests_on_start c ∧
    num_completed c' = num_completed c ∧ max_num c' = max_num c ∧
    svr_thread_done c' = svr_thread_done c ∧ main_at c' = main_at c.
Proof.
  unfold svr_step. destruct (svr_at c) as [| | | | | |s|s d|s d x|s d|s| | | | |] eqn:E; try done; intros H _.
  - destruct (sys_socket _) as [r o]. injection H as <-. left. unfold or_exit. by destruct (_ =? _).
  - destruct (sys_bind _ _) as [r o]. injection H as <-. left. unfold or_exit. by destruct (_ =? _).
  - destruct (sys_listen _ _) as [r o]. injection H as <-. left. unfold or_exit. by destruct (_ =? _).
  - destruct (sys_sigmask _) as [r o]. injection H as <-. left. by destruct (_ =? _).
  - destruct (sys_accept _ _) as [[r o]|]; [|done]. injection H as <-. left. unfold or_exit.
    by destruct (_ =? _).
  - destruct (sys_recv _ _ _) as [[[r bs] o]|]; [|done]. injection H as <-. left.
    unfold svr_received. destruct (r <? 0); [split; [done|]; cbn; by rewrite E|]. destruct (0 <? _); [|done].
    destruct (negb _); [|done]. split; [done|]. cbn. by rewrite E.
  - destruct (sys_calloc _ _) as [b o1]. destruct (sys_recv _ _ _) as [[[r bs] o]|]; [|done].
    injection H as <-. left. unfold or_exit. by destruct (_ || _).
  - injection H as <-. left. destruct (edfi_ctl_process_request _ _ _); [done|].
    split; [done|]. cbn. by rewrite E.
  - destruct (sys_send _ _ _) as [r o]. injection H as <-. destruct (r =? -1).
    + left. split; [done|]. cbn. by rewrite E.
    + right. by exists s, d.
Qed.

Lemma svr_step_replies c c' : svr_step c = Some c' → zlen (replies c) <= zlen (replies c').
Proof.
  intros H. destruct (serving (svr_at c)) eqn:Es.
  - destruct (svr_step_serving c c' H Es) as [[(_ & _ & _ & _ & _ & _ & ->) _]|(s & d & _ & _ & -> & _)];
      [lia|cbn; lia].
  - unfold svr_step in H. destruct (svr_at c); try done; by injection H as <-.
Qed.

(** Sending the reply. *)
Lemma reply_step c c' s d :
  svr_at c = SSend s d → svr_at c' = SClose s → replies c' = status d :: replies c →
  no_svr_thread c' = no_svr_thread c → num_requests_on_start c' = num_requests_on_start c →
  num_completed c' = num_completed c → max_num c' = max_num c →
  svr_thread_done c' = svr_thread_done c → main_at c' = main_at c → ctl_inv c → ctl_inv c'.
Proof.
  intros E E' Er E1 E2 E3 E4 E5 E6 Hi.
  assert (svr_at c ≠ SNone) as Hn by (by rewrite E). destruct Hi.
  split; rewrite ?E', ?E1, ?E2, ?E3, ?E4, ?E6; try done.
  - unfold counted in *. rewrite E', Er. rewrite E in ci_counted0. cbn [length]. lia.
  - intros Hm. by destruct (ci_start0 Hm).
  - intros _. by apply ci_max0.
  - intros _ Ht. specialize (ci_bound0 Hn Ht). unfold svr_bound in *. rewrite E', Er, E5.
    rewrite E in ci_bound0. cbn [length]. lia.
  - destruct ci_past_done0 as [H0|H0]; [left|by right]. rewrite E in H0.
    destruct (main_at c); try done; intros Ht; by specialize (H0 Ht).
Qed.

(** The bookkeeping after the reply, with the server still at work. *)
Lemma after_reply_inv c c' :
  ctl_inv c → svr_at c ≠ SNone → svr_at c ≠ SReturned → svr_at c' ≠ SNone →
  no_svr_thread c' = no_svr_thread c → num_requests_on_start c' = num_requests_on_start c →
  max_num c' = max_num c → main_at c' = main_at c →
  num_completed c <= num_completed c' → num_completed c' = counted c' →
  (truthy no_svr = true → svr_bound c → svr_bound c') →
  (truthy no_svr = false → match svr_at c' with SCloseServer | SDone | SReturned => False | _ => True end) →
  ctl_inv c'.
Proof.
  intros [] Hn Hr Hn' E1 E2 E4 E6 Hle Hc Hb Hf.
  split; rewrite ?E1, ?E2, ?E4, ?E6; try done.
  - intros Hm. by destruct (ci_start0 Hm).
  - intros _. by apply ci_max0.
  - intros _ Ht. by apply Hb, ci_bound0.
  - destruct ci_past_requests0 as [H0|H0]; [left|by right]. destruct (main_at c); try done; lia.
  - destruct ci_past_done0 as [H0|H0]; [left|by right].
    destruct (main_at c); try done; intros Ht; by destruct (Hr (H0 Ht)).
Qed.

Lemma svr_step_inv c c' :
  svr_step c = Some c' → zlen (replies c') < 2147483648 → ctl_inv c → ctl_inv c'.
Proof.
  intros H Hb Hi. destruct (serving (svr_at c)) eqn:Es.
  { destruct (svr_step_serving c c' H Es) as [[Hs Hs']|(s & d & E & E' & Er & E1 & E2 & E3 & E4 & E5 & E6)];
      [by apply (serving_step c)|by apply (reply_step c c' s d)]. }
  assert (svr_at c ≠ SNone ∧ svr_at c ≠ SReturned) as [Hn Hr]
    by (split; intros E; unfold svr_step in H; by rewrite E in H).
  pose proof (ci_max c Hi Hn) as [Hst Hmax]. pose proof (ci_counted c Hi) as Hc.
  pose proof (ci_forever c Hi) as Hfor. pose proof (ci_bound c Hi Hn) as Hbd.
  apply (after_reply_inv c); try done; unfold svr_step in H; unfold svr_bound, counted in *;
    destruct (svr_at c) as [| | | | | |s|s d|s d x|s d|s| | | | |] eqn:E; try done;
    injection H as <-;
    cbn [no_svr_thread num_requests_on_start num_completed max_num svr_thread_done main_at svr_at
      replies at_svr set_counters set_os set_world] in *; try done; try lia.
  all: try (rewrite s32_small; lia).
  all: unfold starts in Hst; destruct (Z.eqb_spec (max_num c) 0), (Z.ltb_spec (num_completed c) (max_num c)),
    (truthy no_svr); cbn in *; try done; lia.
Qed.

(** The initialising thread moves on, past the start or where there is nothing to start. *)
Lemma at_main_inv p c :
  ctl_inv c → p ≠ MStart → p ≠ MReturned → main_at c ≠ MReturned →
  (main_at c = MStart → starts = false) →
  (p = MWaitRequests ∨ p = MWaitDone → starts = true) →
  (starts = true → match p with MStart | MWaitRequests => True | _ => 0 < on_start → on_start <= num_completed c end) →
  (starts = true → match p with MTail | MReturned => truthy no_svr = true → svr_at c = SReturned | _ => True end) →
  ctl_inv (at_main p c).
Proof.
  intros [] Hp Hp' Hm Hs Hw Hr Hd. split; cbn; try done; try tauto.
  - destruct starts; [left; by apply Hr|by right].
  - destruct starts; [left; by apply Hd|by right].
Qed.

Lemma main_step_inv c : ctl_inv c → ctl_inv (main_step c).
Proof.
  intros Hi. unfold main_step. pose proof (ci_no_svr c Hi) as Hns. pose proof (ci_on_start c Hi) as Ho.
  pose proof (ci_past_requests c Hi) as Hpr. pose proof (ci_past_done c Hi) as Hpd.
  pose proof (ci_wait c Hi) as Hw. rewrite Hns. destruct (main_at c) eqn:E.
  - destruct (ci_start c Hi E) as [Es Er]. rewrite Ho by done. fold starts. destruct starts eqn:Est.
    + split; cbn; try done; try tauto; try (by rewrite Er).
      * intros _. by apply Ho.
      * intros _ Ht. rewrite Er. cbn. unfold starts in Est. rewrite Ht in Est. cbn in Est. lia.
    + apply at_main_inv; try done; rewrite ?E, ?Est; try done. naive_solver.
  - rewrite Ho by done. destruct (Z.ltb_spec 0 on_start), (Z.ltb_spec (num_completed c) on_start);
      cbn [andb]; try done; apply at_main_inv; rewrite ?E; try done; eauto; try naive_solver; intros _.
    lia.
  - destruct (truthy no_svr && negb (truthy (svr_thread_done c))) eqn:Ed; [done|].
    apply at_main_inv; rewrite ?E; try done; [naive_solver|by destruct Hpr as [Hpr|Hpr]; rewrite ?Hpr|].
    intros Hst Ht. rewrite Ht in Ed. cbn in Ed.
    assert (svr_at c ≠ SNone) as Hn by (intros En; destruct (ci_none c Hi En) as [Em|[? _]]; congruence).
    pose proof (ci_bound c Hi Hn Ht) as Hb. unfold svr_bound in Hb.
    destruct (svr_at c); try done; destruct Hb as [_ Hb]; by rewrite Hb in Ed.
  - destruct Hi. split; cbn; try done; rewrite ?E in *; try tauto.
    + intros Es. by destruct (ci_none0 Es) as [?|?]; [|right].
    + by intros [?|?].
  - done.
Qed.

Lemma ctl_step_inv c c' :
  ctl_step c c' → zlen (replies c') < 2147483648 → ctl_inv c → ctl_inv c'.
Proof. intros [? _|?? _ H] Hb Hi; [by apply main_step_inv|by apply (svr_step_inv c0)]. Qed.

Lemma ctl_step_replies (c c' : ctl os) : ctl_step c c' → zlen (replies c) <= zlen (replies c').
Proof.
  intros [c1 _|c1 c2 _ H]; [|by apply svr_step_replies].
  unfold main_step. repeat case_match; cbn; lia.
Qed.

Lemma reachable_inv w c :
  rtc ctl_step (ctl0 no_svr on_start w) c → zlen (replies c) < 2147483648 → ctl_inv c.
Proof.
  intros H. pattern c. refine (rtc_ind_r _ _ _ _ c H); clear c H; [intros _; apply ctl0_inv|].
  intros c c' _ Hs IH Hb. apply (ctl_step_inv c); [done|done|]. apply IH.
  pose proof (ctl_step_replies c c' Hs). lia.
Qed.

(** C19: [edfi_ctl_init] waits.  Under every interleaving of the two threads, while the
    server has sent fewer than 2^31 replies: when the function returns, the requests it was
    to wait for have been answered and counted; without a permanent server thread it returns
    only after the thread has closed its socket and ended, having answered exactly that
    many; when it starts no thread, no request has been answered; and the number of requests
    on start is cleared. *)
Theorem ctl_init_waits (w : edfi * os) (c : ctl os) :
  rtc ctl_step (ctl0 no_svr on_start w) c → zlen (replies c) < 2147483648 →
  main_at c = MReturned →
  num_requests_on_start c = 0 ∧
  (0 < on_start → on_start <= num_completed c <= zlen (replies c)) ∧
  (no_svr ≠ 0 → 0 < on_start → svr_at c = SReturned ∧ zlen (replies c) = on_start) ∧
  (no_svr ≠ 0 → on_start <= 0 → svr_at c = SNone ∧ replies c = []).
Proof.
  intros Hr Hb Hm. pose proof (reachable_inv w c Hr Hb) as Hi.
  split; [by apply (ci_reset c Hi)|]. split; [|split].
  - intros Hp. split.
    + destruct (ci_past_requests c Hi) as [H|H]; [rewrite Hm in H; by apply H|].
      unfold starts in H. by rewrite (proj2 (Z.ltb_lt _ _) Hp), orb_true_r in H.
    + rewrite (ci_counted c Hi). unfold counted. destruct (svr_at c); lia.
  - intros Hn Hp. apply truthy_true in Hn. destruct (ci_past_done c Hi) as [H|H].
    + rewrite Hm in H. specialize (H Hn). split; [done|].
      pose proof (ci_bound c Hi) as Hbd. unfold svr_bound in Hbd. rewrite H in Hbd. by apply Hbd.
    + unfold starts in H. by rewrite (proj2 (Z.ltb_lt _ _) Hp), orb_true_r in H.
  - intros Hn Hp. assert (starts = false) as Hst.
    { unfold starts. by rewrite (proj2 (truthy_true _) Hn), (proj2 (Z.ltb_ge _ _) Hp). }
    assert (svr_at c = SNone) as Es.
    { destruct (svr_at c) eqn:E; try done; destruct (ci_max c Hi) as [H _]; congruence. }
    split; [done|]. destruct (ci_none c Hi Es) as [H|[_ H]]; congruence.
Qed.

End Waiting.

(** ** An example *)

(** A kernel with a queue of clients, each the messages it sends, and the messages of the
    connection accepted last. *)
Definition kernel : Type := list (list (list Z)) * list (list Z).

#[export] Instance kernel_platform : Platform kernel := {
  getcurrtime_ns o := (0, o);
  dlopen _ o := (0, o);
  dlclose _ o := o;
  dlsym _ _ _ := 0;
  ext_onstart _ o := o;
  ext_onstop _ o := o;
}.

#[export] Instance kernel_sockets : Sockets kernel := {
  sys_socket o := (3, o);
  sys_bind _ o := (0, o);
  sys_listen _ o := (0, o);
  sys_sigmask o := (0, o);
  sys_calloc _ o := (4096, o);
  sys_accept _ o :=
    match o with
    | ([], _) => None
    | (client :: waiting, _) => Some (4, (waiting, client))
    end;
  sys_recv _ n o :=
    match o with
    | (waiting, []) => Some (0, [], o)
    | (waiting, m :: ms) => Some (zlen m, m, (waiting, ms))
    end;
  sys_send _ bs o := (zlen bs, o);
  sys_close _ o := o;
}.

Definition start_cmd : edfi_cmd_data := mk_cmd EDFI_CTL_CMD_START 0 sizeof_context 1 0 0.
Definition start_context : list Z := context_bytes (replicate 84 1) (replicate 4 0) demo_conf.

Definition start_kernel : kernel := ([], [cmd_bytes start_cmd; start_context ++ [5]]).

Lemma request_roundtrip_witness :
  ∃ c1 c2, svr_step (at_svr (SRecv 4) (ctl0 0 0 (demo_edfi, start_kernel))) = Some c1 ∧
    svr_step c1 = Some c2 ∧ ended c2 = None ∧
    svr_at c2 = SProcess 4 (point_to_buff 4096 start_cmd) (Received demo_conf) ∧
    world c2 = (demo_edfi, ([], [])).
Proof.
  apply (request_roundtrip start_cmd (replicate 84 1) (replicate 4 0) [5] demo_conf 4 4096
    (at_svr (SRecv 4) (ctl0 0 0 (demo_edfi, start_kernel))) ([], [start_context ++ [5]])
    ([], [start_context ++ [5]]) ([], [])); try reflexivity; try discriminate.
  - split; split; vm_compute; congruence.
  - split; [..|apply Nat.ltb_lt; reflexivity|constructor]; split; vm_compute; congruence.
Defined.

(** One request on start, without a permanent server. *)
Definition one_request : list thread := Main :: replicate 14 Server ++ [Main; Main; Main].
Definition one_client : edfi * kernel := (demo_edfi, ([[cmd_bytes start_cmd; start_context ++ [5]]], [])).

Lemma ctl_init_waits_witness :
  let c := run_sched one_request (ctl0 1 1 one_client) in
  main_at c = MReturned ∧ num_requests_on_start c = 0 ∧
  (0 < 1 → 1 <= num_completed c <= zlen (replies c)) ∧
  (1 ≠ 0 → 0 < 1 → svr_at c = SReturned ∧ zlen (replies c) = 1) ∧
  (1 ≠ 0 → 1 <= 0 → svr_at c = SNone ∧ replies c = []).
Proof.
  intros c. assert (main_at c = MReturned) as Hm by (vm_compute; reflexivity). split; [done|].
  apply (ctl_init_waits 1 1 one_client); [apply run_sched_steps|vm_compute; reflexivity|done].
Defined.
