(* ===== verification/CtlLiveness.v ===== *)
(** * The control server answers, and initialisation returns

    [edfi_ctl_init] waits in loops for the server thread.  Here the clients that are to connect
    and the calls of the thread are the class [Clients]; against it every schedule that gives
    the server enough turns lets the initialising thread return. *)
From stdpp Require Import base numbers list strings relations.
From Stdlib Require Import ZArith Lia.
From S2P Require Import Prelude Memory CString Edfi CtlServer.

(** The server's turns in a schedule. *)
Fixpoint server_turns (ts : list thread) : Z :=
  match ts with
  | [] => 0
  | Main :: ts' => server_turns ts'
  | Server :: ts' => 1 + server_turns ts'
  end.

(** The request [d] is carried out, in a world where [post] holds after. *)
Definition carried_out {os} `{Platform os} (d : edfi_cmd_data) (a : context_arg)
    (post : edfi * os → Prop) (w : edfi * os) : Prop :=
  ∃ st w', edfi_ctl_process_request d a w = Ok st w' ∧ post w'.

(** Clients that connect, send a request the injector carries out, and read the reply.
    [ready n]: [n] clients have yet to be accepted; [asking s n]: so have [n], after the one
    connected on [s], which has sent its request; [answering s n]: which waits for the reply. *)
Class Clients (os : Type) `{Platform os} `{Sockets os} := {
  ready : nat → edfi * os → Prop;
  asking : Z → nat → edfi * os → Prop;
  answering : Z → nat → edfi * os → Prop;
  cl_socket n e o : ready n (e, o) → ∃ fd o', sys_socket o = (fd, o') ∧ fd ≠ -1 ∧ ready n (e, o');
  cl_bind n fd e o : ready n (e, o) → ∃ r o', sys_bind fd o = (r, o') ∧ r ≠ -1 ∧ ready n (e, o');
  cl_listen n fd e o : ready n (e, o) → ∃ r o', sys_listen fd o = (r, o') ∧ r ≠ -1 ∧ ready n (e, o');
  cl_sigmask n e o : ready n (e, o) → ∃ o', sys_sigmask o = (0, o') ∧ ready n (e, o');
  (** [accept] waits for a client. *)
  cl_accept_none fd e o : ready 0 (e, o) → sys_accept fd o = None;
  cl_accept n fd e o : ready (S n) (e, o) →
    ∃ s o', sys_accept fd o = Some (s, o') ∧ s ≠ -1 ∧ asking s n (e, o');
  (** A request comes whole: the command, and the context where it has one. *)
  cl_recv s n e o : asking s n (e, o) →
    ∃ r bs o', sys_recv s sizeof_cmd_data o = Some (r, bs, o') ∧ 0 <= r ∧
      let d := cmd_of_bytes (received sizeof_cmd_data bs) in
      let size := u64 (context_size d + params_size d) in
      if 0 <? size then
        context_size d = sizeof_context ∧
        ∃ b o1 r2 bs2 o2, sys_calloc size o' = (b, o1) ∧ b ≠ 0 ∧
          sys_recv s size o1 = Some (r2, bs2, o2) ∧ 0 <= r2 ∧
          carried_out (point_to_buff b d) (context_in b size bs2) (answering s n) (e, o2)
      else carried_out d (if ctx_ptr d =? 0 then NoContext else Wild) (answering s n) (e, o');
  cl_send s n bs e o : answering s n (e, o) →
    ∃ r o', sys_send s bs o = (r, o') ∧ r ≠ -1 ∧ answering s n (e, o');
  cl_close s n e o : answering s n (e, o) → ready n (e, sys_close s o);
  cl_close_server fd n e o : ready n (e, o) → ready n (e, sys_close fd o);
}.

Section Liveness.
Context {os : Type} `{clients : Clients os}.
Context (no_svr on_start total : Z) (Hstart : 0 < on_start <= total) (Htotal : total < 2147483648).

(** The place of the server and the clients. *)
Definition place (n : nat) (c : ctl os) : Prop :=
  let w := world c in
  match svr_at c with
  | SNone => False
  | SSocket | SBind | SListen | SSigmask | SAccept
  | SCount | SCheck | SCloseServer | SDone | SReturned => ready n w
  | SRecv s => asking s n w
  | SRecvData s d =>
      let size := u64 (context_size d + params_size d) in
      ∃ b o1 r bs o, sys_calloc size (snd w) = (b, o1) ∧ b ≠ 0 ∧
        sys_recv s size o1 = Some (r, bs, o) ∧ 0 <= r ∧
        carried_out (point_to_buff b d) (context_in b size bs) (answering s n) (fst w, o)
  | SProcess s d a => carried_out d a (answering s n) w
  | SSend s _ | SClose s => answering s n w
  end.

(** The client being served. *)
Definition busy (p : svr_pc) : Z :=
  match p with
  | SRecv _ | SRecvData _ _ | SProcess _ _ _ | SSend _ _ | SClose _ | SCount => 1
  | _ => 0
  end.

(** How many requests a server without a permanent thread has completed at a place. *)
Definition turn (p : svr_pc) (num done : Z) : Prop :=
  if truthy no_svr then
    match p with
    | SNone => False
    | SCheck => num <= on_start
    | SCloseServer | SDone => num = on_start
    | SReturned => num = on_start ∧ done = 1
    | _ => num < on_start
    end
  else match p with SCloseServer | SDone | SReturned => False | _ => True end.

Record live (c : ctl os) : Prop := {
  lv_ended : ended c = None;
  lv_no_svr : no_svr_thread c = no_svr;
  lv_max : max_num c = (if truthy no_svr then on_start else 0);
  lv_num : 0 <= num_completed c;
  lv_place : ∃ n, place n c ∧ Z.of_nat n + busy (svr_at c) + num_completed c = total;
  lv_turn : turn (svr_at c) (num_completed c) (svr_thread_done c);
  lv_main : match main_at c with MStart => False | MReturned => True | _ => num_requests_on_start c = on_start end;
}.

(** What the initialising thread waits for, and the server's steps until then. *)
Definition served (c : ctl os) : Prop :=
  on_start <= num_completed c ∧ (truthy no_svr = true → svr_at c = SReturned).

Definition rank (c : ctl os) : Z :=
  let k := on_start - num_completed c in
  match svr_at c with
  | SSocket => 8 * k + 6
  | SBind => 8 * k + 5
  | SListen => 8 * k + 4
  | SSigmask => 8 * k + 3
  | SAccept => 8 * k + 2
  | SRecv _ => 8 * k + 1
  | SRecvData _ _ => 8 * k
  | SProcess _ _ _ => 8 * k - 1
  | SSend _ _ => 8 * k - 2
  | SClose _ => 8 * k - 3
  | SCount => 8 * k - 4
  | SCheck => 8 * k + 3
  | SCloseServer => 2
  | SDone => 1
  | SNone | SReturned => 0
  end.

(** The server moves to [c'], closer to having served. *)
Definition advances (c c' : ctl os) : Prop :=
  live c' ∧ (served c → served c') ∧ (served c ∨ rank c' < rank c).

(** A step that leaves the counters alone. *)
Lemma live_move c c' :
  live c → ended c' = None →
  no_svr_thread c' = no_svr_thread c → num_requests_on_start c' = num_requests_on_start c →
  num_completed c' = num_completed c → max_num c' = max_num c →
  svr_thread_done c' = svr_thread_done c → main_at c' = main_at c →
  svr_at c ≠ SReturned →
  (∃ n, place n c' ∧ Z.of_nat n + busy (svr_at c') + num_completed c = total) →
  (turn (svr_at c) (num_completed c) (svr_thread_done c) → turn (svr_at c') (num_completed c) (svr_thread_done c)) →
  rank c' < rank c → advances c c'.
Proof.
  intros [] He E1 E2 E3 E4 E5 E6 Hr Hp Ht Hk. split; [|split; [|by right]].
  - split; rewrite ?E1, ?E2, ?E3, ?E4, ?E5, ?E6; auto.
  - intros [Hs Hs']. split; [by rewrite E3|]. intros Hy. by destruct (Hr (Hs' Hy)).
Qed.

(** Close the goals of [live_move] for a step of the server to a place it reaches. *)
Ltac moves E n := apply live_move; cbn [ended no_svr_thread num_requests_on_start num_completed max_num
    svr_thread_done main_at svr_at at_svr set_os set_world set_server_fd add_reply];
  rewrite ?E; try done;
  match goal with
  | |- ∃ _, _ => exists n; split; [|cbn [busy] in *; lia]
  | |- rank _ < rank _ =>
      unfold rank; cbn [svr_at at_svr set_os set_world set_server_fd add_reply num_completed]; rewrite ?E; lia
  | |- _ => unfold turn; destruct (truthy no_svr) eqn:?; try congruence; try done; lia
  end.

Lemma eqb_ne x y : x ≠ y → (x =? y) = false.
Proof. apply Z.eqb_neq. Qed.

(** The steps before the loop. *)
Lemma live_setup c :
  live c → (svr_at c = SSocket ∨ svr_at c = SBind ∨ svr_at c = SListen ∨ svr_at c = SSigmask) →
  ∃ c', svr_step c = Some c' ∧ advances c c'.
Proof.
  intros Hl Hp. destruct (lv_place c Hl) as (n & Hpl & Hn). pose proof (lv_ended c Hl) as He.
  destruct (world c) as [e o] eqn:Ew. unfold place in Hpl. rewrite Ew in Hpl.
  destruct Hp as [E|[E|[E|E]]]; rewrite E in Hpl, Hn; unfold svr_step; rewrite E, Ew; cbn [snd].
  - destruct (cl_socket n e o Hpl) as (fd & o' & -> & Hf & Hr). eexists. split; [done|].
    unfold or_exit. rewrite eqb_ne by done. moves E n. unfold place. cbn. by rewrite Ew.
  - destruct (cl_bind n (server_fd c) e o Hpl) as (r & o' & -> & Hf & Hr). eexists. split; [done|].
    unfold or_exit. rewrite eqb_ne by done. moves E n. unfold place. cbn. by rewrite Ew.
  - destruct (cl_listen n (server_fd c) e o Hpl) as (r & o' & -> & Hf & Hr). eexists. split; [done|].
    unfold or_exit. rewrite eqb_ne by done. moves E n. unfold place. cbn. by rewrite Ew.
  - destruct (cl_sigmask n e o Hpl) as (o' & -> & Hr). eexists. split; [done|].
    cbn [Z.eqb]. moves E n. unfold place. cbn. by rewrite Ew.
Qed.

(** Receiving, carrying out and answering a request. *)
Lemma live_request c :
  live c → (∃ s, svr_at c = SRecv s ∨ (∃ d, svr_at c = SRecvData s d) ∨ (∃ d a, svr_at c = SProcess s d a) ∨
    (∃ d, svr_at c = SSend s d) ∨ svr_at c = SClose s) →
  ∃ c', svr_step c = Some c' ∧ advances c c'.
Proof.
  intros Hl (s & Hp). destruct (lv_place c Hl) as (n & Hpl & Hn). pose proof (lv_ended c Hl) as He.
  destruct (world c) as [e o] eqn:Ew. unfold place in Hpl. rewrite Ew in Hpl.
  destruct Hp as [E|[[d E]|[(d & a & E)|[[d E]|E]]]]; rewrite E in Hpl, Hn; unfold svr_step; rewrite E, Ew; cbn [snd fst] in *.
  - destruct (cl_recv s n e o Hpl) as (r & bs & o' & -> & Hr & Hd). eexists. split; [done|].
    rewrite (proj2 (Z.ltb_ge _ _)) by done. unfold svr_received.
    cbv zeta in *. revert Hd. destruct (0 <? _); intros Hd.
    + destruct Hd as (Hcs & b & o1 & r2 & bs2 & o2 & H2). rewrite (proj2 (Z.eqb_eq _ _) Hcs). cbn [negb].
      moves E n. unfold place. cbn. rewrite Ew. by exists b, o1, r2, bs2, o2.
    + moves E n. unfold place. cbn [svr_at at_svr set_os set_world world]. by rewrite Ew.
  - destruct Hpl as (b & o1 & r & bs & o' & -> & Hb & -> & Hr & Hd). eexists. split; [done|]. unfold or_exit.
    rewrite (proj2 (Z.ltb_ge _ _)), eqb_ne by done. cbn [orb andb]. moves E n. unfold place.
    cbn [svr_at at_svr set_os set_world world]. by rewrite Ew.
  - destruct Hpl as (st & w' & -> & Hd). eexists. split; [done|]. moves E n. unfold place. by cbn.
  - destruct (cl_send s n (cmd_bytes d) e o Hpl) as (r & o' & -> & Hf & Hr). eexists. split; [done|].
    rewrite eqb_ne by done. moves E n. unfold place. cbn. by rewrite Ew.
  - eexists. split; [done|]. moves E n. unfold place. cbn. rewrite Ew. by apply cl_close.
Qed.

(** Accepting, or waiting for a client when all have been served. *)
Lemma live_accept c :
  live c → svr_at c = SAccept →
  svr_step c = None ∧ served c ∨ ∃ c', svr_step c = Some c' ∧ advances c c'.
Proof.
  intros Hl E. destruct (lv_place c Hl) as (n & Hpl & Hn). pose proof (lv_ended c Hl) as He.
  pose proof (lv_turn c Hl) as Ht. destruct (world c) as [e o] eqn:Ew.
  unfold place in Hpl. rewrite E, Ew in Hpl. rewrite E in Hn, Ht. cbn in Hn.
  unfold svr_step; rewrite E, Ew; cbn [snd]. destruct n as [|n].
  - left. rewrite (cl_accept_none (server_fd c) e o Hpl). split; [done|]. split; [lia|].
    intros Hy. unfold turn in Ht. rewrite Hy in Ht. lia.
  - right. destruct (cl_accept n (server_fd c) e o Hpl) as (s & o' & -> & Hf & Hr). eexists. split; [done|].
    unfold or_exit. rewrite eqb_ne by done. moves E n. unfold place. cbn. by rewrite Ew.
Qed.

(** Counting a request. *)
Lemma live_count c : live c → svr_at c = SCount → ∃ c', svr_step c = Some c' ∧ advances c c'.
Proof.
  intros [] E. destruct lv_place0 as (n & Hpl & Hn). unfold place in Hpl. rewrite E in Hpl, Hn, lv_turn0.
  unfold svr_step. rewrite E. eexists. split; [done|]. cbn [busy] in Hn.
  assert (s32 (num_completed c + 1) = num_completed c + 1) as Es by (apply s32_small; lia).
  rewrite Es. unfold turn in lv_turn0. split; [|split; [|right]].
  - split; cbn; try done; [lia|exists n; split; [done|lia]|].
    unfold turn. destruct (truthy no_svr); [lia|done].
  - intros [Hs Hy]. split; cbn; [lia|]. intros Ht. by specialize (Hy Ht); rewrite E in Hy.
  - unfold rank. cbn [svr_at at_svr num_completed set_counters]. rewrite E. lia.
Qed.

(** The end of the loop, and of the thread. *)
Lemma live_end c :
  live c → (svr_at c = SCheck ∨ svr_at c = SCloseServer ∨ svr_at c = SDone) →
  ∃ c', svr_step c = Some c' ∧ advances c c'.
Proof.
  intros Hl Hp. destruct (lv_place c Hl) as (n & Hpl & Hn). pose proof (lv_ended c Hl) as He.
  pose proof (lv_turn c Hl) as Ht. pose proof (lv_max c Hl) as Hm. unfold turn in Ht.
  destruct (world c) as [e o] eqn:Ew. unfold place in Hpl. rewrite Ew in Hpl.
  destruct Hp as [E|[E|E]]; rewrite E in Hpl, Hn, Ht; unfold svr_step; rewrite E; eexists; (split; [done|]).
  - rewrite Hm. destruct (truthy no_svr) eqn:Hy.
    + rewrite eqb_ne by lia. cbn [orb]. destruct (Z.ltb_spec (num_completed c) on_start).
      * moves E n; unfold place; cbn; by rewrite Ew.
      * moves E n; unfold place; cbn; by rewrite Ew.
    + rewrite Z.eqb_refl. cbn [orb]. moves E n; unfold place; cbn; by rewrite Ew.
  - rewrite Ew. moves E n. unfold place. cbn. rewrite Ew. by apply cl_close_server.
  - destruct (truthy no_svr) eqn:Hy; [|done]. destruct Hl. split; [|split; [|right]].
    + split; cbn; try done; [exists n; split; [unfold place; cbn; by rewrite Ew|done]|].
      unfold turn. by rewrite Hy.
    + intros [Hs _]. by split.
    + unfold rank. cbn. rewrite E. lia.
Qed.

Lemma live_server c :
  live c → svr_step c = None ∧ served c ∨ ∃ c', svr_step c = Some c' ∧ advances c c'.
Proof.
  intros Hl. destruct (svr_at c) as [| | | | | |s|s d|s d x|s d|s| | | | |] eqn:E.
  1: { destruct (lv_place c Hl) as (n & Hpl & _). unfold place in Hpl. by rewrite E in Hpl. }
  5: by apply live_accept.
  14: { left. unfold svr_step. rewrite E. split; [done|]. pose proof (lv_turn c Hl) as Ht. unfold turn in Ht.
    rewrite E in Ht. destruct (truthy no_svr); [|done]. split; [lia|done]. }
  all: right.
  10: by apply live_count.
  5-9: apply live_request; [done|]; exists s; eauto 6.
  1-4: apply live_setup; tauto.
  all: apply live_end; tauto.
Qed.

(** The initialising thread neither helps nor hinders the server. *)
Lemma live_main_step c :
  live c → live (main_step c) ∧ (served c → served (main_step c)) ∧ rank (main_step c) = rank c.
Proof.
  intros [].
  assert (∀ p, p ≠ MStart → p ≠ MReturned → main_at c ≠ MReturned → live (at_main p c)) as Hat.
  { intros p Hp Hp' Hm. split; cbn; try done. by destruct p, (main_at c). }
  unfold main_step. destruct (main_at c) eqn:E; [done| | | |by split; [split; rewrite ?E|]].
  - destruct (_ && _); [split; [split; by rewrite ?E|done]|]. by split; [apply Hat|].
  - destruct (_ && _); [split; [split; by rewrite ?E|done]|]. by split; [apply Hat|].
  - by split.
Qed.

Lemma rank_served c : live c → rank c <= 0 → served c.
Proof.
  intros [] Hr. destruct lv_place0 as (n & Hp & _). unfold turn in lv_turn0. unfold served, rank, place in *.
  destruct (svr_at c), (truthy no_svr); try done; try (split; [lia|done]); lia.
Qed.

Lemma live_run ts c :
  live c → served c ∨ rank c <= server_turns ts → live (run_sched ts c) ∧ served (run_sched ts c).
Proof.
  revert c. induction ts as [|t ts IH]; intros c Hl Hr.
  { split; [done|]. destruct Hr as [?|Hr]; [done|]. by apply rank_served. }
  change (run_sched (t :: ts) c) with (run_sched ts (sched_step t c)).
  unfold sched_step. rewrite (lv_ended c Hl). destruct t; cbn in Hr.
  - destruct (live_main_step c Hl) as (Hl' & Hs & Hk). apply IH; [done|]. rewrite Hk. tauto.
  - destruct (live_server c Hl) as [[-> Hs]|(c' & -> & Hl' & Hs & Hk)]; cbn; apply IH; auto.
    destruct Hr as [Hr|Hr]; [by left; apply Hs|]. destruct Hk as [Hk|Hk]; [by left; apply Hs|right; lia].
Qed.

(** With the requests served, the initialising thread moves on. *)
Definition next_main (p : main_pc) : main_pc :=
  match p with
  | MStart => MStart
  | MWaitRequests => MWaitDone
  | MWaitDone => MTail
  | MTail | MReturned => MReturned
  end.

Lemma main_moves c :
  live c → served c →
  let c' := sched_step Main c in
  live c' ∧ served c' ∧ main_at c' = next_main (main_at c) ∧ num_completed c' = num_completed c.
Proof.
  intros Hl Hs. destruct (live_main_step c Hl) as (Hl' & Hs' & _). unfold sched_step.
  rewrite (lv_ended c Hl). split; [done|]. split; [by apply Hs'|]. destruct Hl, Hs as [Hn Hd].
  assert (truthy no_svr && negb (truthy (svr_thread_done c)) = false) as Hdone.
  { destruct (truthy no_svr) eqn:Hy; [|done]. unfold turn in lv_turn0. rewrite Hy, (Hd eq_refl) in lv_turn0.
    by destruct lv_turn0 as [_ ->]. }
  unfold main_step. destruct (main_at c) eqn:E; [done| | |done|by rewrite E].
  - by rewrite lv_main0, (proj2 (Z.ltb_ge _ _) Hn), andb_false_r.
  - by rewrite lv_no_svr0, Hdone.
Qed.

Lemma main_finishes c :
  live c → served c →
  let c' := run_sched [Main; Main; Main] c in
  main_at c' = MReturned ∧ ended c' = None ∧ num_completed c' = num_completed c.
Proof.
  intros Hl Hs. unfold run_sched. cbn [foldl].
  destruct (main_moves _ Hl Hs) as (Hl1 & Hs1 & E1 & N1).
  destruct (main_moves _ Hl1 Hs1) as (Hl2 & Hs2 & E2 & N2).
  destruct (main_moves _ Hl2 Hs2) as (Hl3 & Hs3 & E3 & N3).
  rewrite E3, E2, E1, N3, N2, N1, (lv_ended _ Hl3). pose proof (lv_main c Hl).
  by destruct (main_at c).
Qed.

End Liveness.

(** C18: [edfi_ctl_init] returns when the clients behave. Assume, as [Clients] states, that every
    call on sockets and every allocation succeeds, and that at least as many clients connect as it is to wait for, each
    of which sends a well-formed request that the server can carry out (a request of the wrong
    size makes the server exit, and a client that sends nothing blocks it). Then under every
    schedule that gives the server thread eight turns for each request on start and six more, the
    function returns with those requests completed, whether or not the thread is a permanent one
    and whatever the number of clients behind them. *)
Theorem ctl_init_returns {os} `{clients : Clients os} (no_svr on_start : Z) (n : nat) (w : edfi * os)
    (ts : list thread) :
  0 < on_start <= Z.of_nat n → Z.of_nat n < 2147483648 → ready n w →
  8 * on_start + 6 <= server_turns ts →
  let c := run_sched (Main :: ts ++ [Main; Main; Main]) (ctl0 no_svr on_start w) in
  main_at c = MReturned ∧ ended c = None ∧ on_start <= num_completed c.
Proof.
  intros Hs Hn Hr Ht. cbv zeta. set (c1 := main_step (ctl0 no_svr on_start w)).
  assert (live no_svr on_start (Z.of_nat n) c1 ∧ rank on_start c1 = 8 * on_start + 6) as [Hl Hk].
  { unfold c1, main_step. cbn [main_at ctl0 no_svr_thread num_requests_on_start].
    rewrite (proj2 (Z.ltb_lt 0 on_start)), orb_true_r by lia. split; [|cbn; lia].
    split; cbn; try done; [exists n; split; [done|lia]|]. unfold turn.
    destruct (truthy no_svr); [lia|done]. }
  change (run_sched (Main :: ts ++ [Main; Main; Main]) (ctl0 no_svr on_start w))
    with (run_sched (ts ++ [Main; Main; Main]) c1).
  assert (run_sched (ts ++ [Main; Main; Main]) c1 = run_sched [Main; Main; Main] (run_sched ts c1)) as ->
    by (unfold run_sched; by rewrite foldl_app).
  destruct (live_run no_svr on_start (Z.of_nat n) Hs Hn ts c1 Hl) as [Hl' Hs']; [right; lia|].
  destruct (main_finishes no_svr on_start (Z.of_nat n) (run_sched ts c1) Hl' Hs') as (-> & -> & ->).
  split; [done|]. split; [done|apply Hs'].
Qed.

(** Clients that ask whether the injector is there. *)
Definition test_request : list Z := cmd_bytes (mk_cmd EDFI_CTL_CMD_TEST 0 0 0 0 0).

Definition test_clients (n : nat) (w : edfi * kernel) : Prop :=
  n = length (fst (snd w)) ∧ Forall (eq [test_request]) (fst (snd w)).
Definition test_asking (s : Z) (n : nat) (w : edfi * kernel) : Prop :=
  test_clients n w ∧ snd (snd w) = [test_request].

#[local] Instance queue_clients : Clients kernel.
Proof.
  apply (Build_Clients kernel _ _ test_clients test_asking (λ _, test_clients)); try done.
  all: try (intros; eexists _, _; split; [reflexivity|split; [lia|assumption]]).
  all: try (intros; by eexists).
  - intros fd e [[|x l] m] [Hn Hf]; [done|]. cbn in Hn. lia.
  - intros n fd e [[|x l] m] [Hn Hf]; [done|]. cbn in *. injection Hn as ->. apply Forall_cons in Hf as [<- Hf].
    eexists _, _. by repeat split.
  - intros s n e [l m] [Hn Hm]. cbn in Hm. subst m. eexists _, _, _. split; [reflexivity|].
    split; [vm_compute; discriminate|]. cbn. eexists _, _. split; [reflexivity|]. by apply Hn.
Defined.

Lemma ctl_init_returns_witness :
  let c := run_sched (Main :: replicate 30 Server ++ [Main; Main; Main])
             (ctl0 1 2 (demo_edfi, ([[test_request]; [test_request]; [test_request]], []))) in
  main_at c = MReturned ∧ ended c = None ∧ 2 <= num_completed c.
Proof.
  apply (ctl_init_returns 1 2 3); [lia|lia| |vm_compute; discriminate].
  split; [done|]. repeat constructor.
Defined.
