(* ===== verification/Lcg.v ===== *)
(** * The period of the random numbers of the injector

    [edfi_rand] of [edfi_ctl_server.c] is a linear congruential generator modulo 2^64 that
    returns fifteen bits from the middle of its state, bits 16 to 30.  Modulo 2^n such a generator
    with an odd increment and a multiplier that is 1 modulo 4 goes through every residue before it
    repeats; hence every value of [edfi_rand] comes equally often in 2^31 calls. *)
From stdpp Require Import base numbers list.
From Stdlib Require Import ZArith Lia Permutation.
From S2P Require Import Prelude Memory CString Edfi.

(** ** Full period modulo a power of two *)

Section Period.
Context (a4 c2 : Z).

(** The multiplier is 1 modulo 4 and the increment is odd. *)
Local Abbreviation f := (λ x : Z, (4 * a4 + 1) * x + (2 * c2 + 1)).
Local Abbreviation p2 n := (2 ^ Z.of_nat n).

Lemma p2_pos n : 0 < p2 n.
Proof. apply Z.pow_pos_nonneg; lia. Qed.

Lemma p2_S n : p2 (S n) = 2 * p2 n.
Proof. rewrite Nat2Z.inj_succ, Z.pow_succ_r; lia. Qed.

(** 2^k steps are again such a map. *)
Lemma jump k : ∃ b u, ∀ x, Nat.iter (2 ^ k) f x = (p2 (S (S k)) * b + 1) * x + p2 k * (2 * u + 1).
Proof.
  induction k as [|k (b & u & IH)].
  - exists a4, c2. intros x. change (Nat.iter (2 ^ 0) f x) with (f x). change (p2 2) with 4.
    change (p2 0) with 1. cbv beta. ring.
  - exists (p2 (S k) * b * b + b), (u + p2 k * b * (2 * u + 1)). intros x.
    replace (2 ^ S k)%nat with (2 ^ k + 2 ^ k)%nat by (cbn [Nat.pow]; lia).
    rewrite Nat.iter_add, !IH, !p2_S. ring.
Qed.

Lemma jump_mod k x : ∃ v, Nat.iter (2 ^ k) f x = x + p2 k + p2 (S k) * v.
Proof.
  destruct (jump k) as (b & u & H). exists (2 * b * x + u). rewrite H, !p2_S. ring.
Qed.

Lemma jumps_mod k q x : ∃ v, Nat.iter (q * 2 ^ k) f x = x + Z.of_nat q * p2 k + p2 (S k) * v.
Proof.
  induction q as [|q (v & IH)].
  - exists 0. cbn [Nat.mul Nat.iter]. change (Nat.iter 0 f x) with x. lia.
  - cbn [Nat.mul]. rewrite Nat.iter_add, IH.
    destruct (jump_mod k (x + Z.of_nat q * p2 k + p2 (S k) * v)) as (w & ->).
    exists (v + w). lia.
Qed.

(** The generator is back at a residue exactly after multiples of the period. *)
Lemma returns n j x : (Nat.iter j f x - x) mod p2 n = 0 → ∃ q, j = (q * 2 ^ n)%nat.
Proof.
  induction n as [|n IH]; intros H.
  - exists j. cbn. lia.
  - rewrite p2_S in H. pose proof (p2_pos n). apply Z.mod_divide in H as [y Hy]; [|lia].
    destruct IH as [q ->].
    { apply Z.mod_divide; [lia|]. exists (2 * y). lia. }
    destruct (jumps_mod n q x) as (v & Hv). rewrite Hv, p2_S in Hy.
    assert (Z.of_nat q = 2 * (y - v)) as Hq by nia.
    exists (Z.to_nat (y - v)). cbn [Nat.pow]. nia.
Qed.

Lemma iter_inj n x i j :
  (i < j < 2 ^ n)%nat → Nat.iter i f x mod p2 n ≠ Nat.iter j f x mod p2 n.
Proof.
  intros Hij E. pose proof (p2_pos n).
  replace j with ((j - i) + i)%nat in E by lia. rewrite Nat.iter_add in E.
  destruct (returns n (j - i) (Nat.iter i f x)) as [q Hq].
  { rewrite Zminus_mod, <- E, Z.sub_diag. done. }
  destruct q; nia.
Qed.

End Period.

(** ** Counting *)

Section Count.
Context (a4 c2 : Z) (n N : nat) (HN : Z.of_nat N = 2 ^ Z.of_nat n).

Local Abbreviation f := (λ x : Z, (4 * a4 + 1) * x + (2 * c2 + 1)).
Local Abbreviation M := (2 ^ Z.of_nat n).

Lemma N_pow : N = (2 ^ n)%nat.
Proof. apply Nat2Z.inj. rewrite HN, Nat2Z.inj_pow. done. Qed.

Lemma residues_NoDup x : NoDup ((λ i, Nat.iter i f x mod M) <$> seq 0 N).
Proof.
  apply NoDup_fmap_2_strong; [|apply NoDup_seq].
  intros i j Hi%elem_of_seq Hj%elem_of_seq E. rewrite N_pow in *.
  destruct (lt_eq_lt_dec i j) as [[H|H]|H]; [|done|]; exfalso.
  - by apply (iter_inj a4 c2 n x i j); [lia|].
  - by apply (iter_inj a4 c2 n x j i); [lia|].
Qed.

(** In one period the generator visits every residue. *)
Lemma residues_all x : ((λ i, Nat.iter i f x mod M) <$> seq 0 N) ≡ₚ seqZ 0 M.
Proof.
  apply NoDup_Permutation_bis.
  - apply NoDup_ListNoDup, residues_NoDup.
  - rewrite length_fmap, length_seq, length_seqZ. lia.
  - intros v Hv. apply list_elem_of_In, elem_of_seqZ. apply list_elem_of_In, list_elem_of_fmap in Hv as (i & -> & _).
    pose proof (Z.mod_pos_bound (Nat.iter i f x) M). pose proof (p2_pos n). lia.
Qed.

End Count.

(** How many of the values are true. *)
Fixpoint ntrue (bs : list bool) : Z :=
  match bs with
  | [] => 0
  | b :: bs' => Z.b2z b + ntrue bs'
  end.

Lemma ntrue_app l l' : ntrue (l ++ l') = ntrue l + ntrue l'.
Proof. induction l as [|b l IH]; cbn; lia. Qed.

#[export] Instance ntrue_perm : Proper ((≡ₚ) ==> eq) ntrue.
Proof. induction 1; cbn in *; lia. Qed.

Lemma ntrue_const b l : Forall (λ x, x = b) l → ntrue l = Z.b2z b * zlen l.
Proof.
  induction 1 as [|x l -> Hl IH]; cbn [ntrue length]; [by destruct b|]. rewrite IH. destruct b; cbn [Z.b2z]; lia.
Qed.

Lemma ntrue_below m k : 0 <= k <= m → ntrue ((λ v, v <? k) <$> seqZ 0 m) = k.
Proof.
  intros H. replace m with (k + (m - k)) by lia. rewrite seqZ_app, fmap_app, ntrue_app by lia.
  rewrite (ntrue_const true), (ntrue_const false).
  - rewrite !length_fmap, !length_seqZ. cbn [Z.b2z]. lia.
  - apply Forall_fmap, Forall_forall. intros v Hv%elem_of_seqZ. cbn. apply Z.ltb_ge. lia.
  - apply Forall_fmap, Forall_forall. intros v Hv%elem_of_seqZ. cbn. apply Z.ltb_lt. lia.
Qed.

(** ** The generator of the injector *)

(** The state modulo 2^31 is that of the generator over the integers, and the result depends on
    nothing else. *)
Definition lcg (x : Z) : Z := (4 * 275878811 + 1) * x + (2 * 6172 + 1).

(** A step modulo 2^31. *)
Lemma lcg_step_mod y z :
  y mod 2 ^ Z.of_nat 31 = z mod 2 ^ Z.of_nat 31 →
  (y * 1103515245 + 12345) mod 2 ^ Z.of_nat 31 = lcg z mod 2 ^ Z.of_nat 31.
Proof.
  intros H. unfold lcg. change (4 * 275878811 + 1) with 1103515245. change (2 * 6172 + 1) with 12345.
  rewrite (Z.mul_comm 1103515245), (Zplus_mod (y * _)), (Zplus_mod (z * _)), (Zmult_mod y), (Zmult_mod z), H. done.
Qed.

Lemma next_rand_mod i x :
  Nat.iter i next_rand x mod 2 ^ Z.of_nat 31 = Nat.iter i lcg x mod 2 ^ Z.of_nat 31.
Proof.
  induction i as [|i IH]; [done|].
  change (Nat.iter (S i) next_rand x) with (next_rand (Nat.iter i next_rand x)).
  change (Nat.iter (S i) lcg x) with (lcg (Nat.iter i lcg x)). unfold next_rand at 1, u64, uwrap.
  rewrite Z.mod_mod_divide by (by exists (2 ^ 33)). apply lcg_step_mod, IH.
Qed.

Lemma rand_of_mod x : rand_of x = (x mod 2 ^ Z.of_nat 31) / 65536.
Proof.
  unfold rand_of, u32, uwrap. rewrite Z.mod_mod_divide by (by exists (2 ^ 17)).
  change (2 ^ Z.of_nat 31) with (65536 * 32768).
  rewrite Z.rem_mul_r, Z.mul_comm by lia. rewrite Z.div_add by lia.
  rewrite (Z.div_small (x mod 65536)); [done|]. by apply Z.mod_pos_bound.
Qed.

(** Every value comes equally often: of 2^31 numbers in a row, 65536 k are below [k]. *)
Lemma rand_below_count N x k :
  Z.of_nat N = 2 ^ 31 → 0 <= k <= 32768 →
  ntrue ((λ i, rand_of (Nat.iter i next_rand x) <? k) <$> seq 0 N) = 65536 * k.
Proof.
  intros HN Hk.
  rewrite <- (ntrue_below (2 ^ Z.of_nat 31) (65536 * k)) by (change (2 ^ Z.of_nat 31) with (65536 * 32768); lia).
  rewrite <- (residues_all 275878811 6172 31 N HN x), <- list_fmap_compose. f_equal.
  apply list_fmap_ext. intros _ i _. unfold compose.
  rewrite rand_of_mod, next_rand_mod. fold lcg. set (v := Nat.iter i lcg x mod 2 ^ Z.of_nat 31).
  assert (v / 65536 < k ↔ v < 65536 * k) as Hv.
  { split; [|apply Z.div_lt_upper_bound; lia]. intros ?. Z.to_euclidean_division_equations; lia. }
  destruct (Z.ltb_spec (v / 65536) k), (Z.ltb_spec v (65536 * k)); try done; lia.
Qed.
