(* ===== verification/EdfiCtx.v ===== *)
(** * Setting up the fault injector

    [edfi/platform/unix_apps/ctl/server/edfi_ctl_server.c], up to the start of the server
    thread ([CtlServer]): the context is moved to a page of its own, the clock is calibrated,
    the configuration is read from the environment, the generator is seeded, the output file is
    opened; what a forked child does; and the identifiers of faults of
    [include/edfi/ctl/server.h].

    The probability of a fault, a [float], is a rational number.  It is multiplied by 2^15, which
    is exact, and truncated, so nothing is rounded; infinities are left out. *)
From stdpp Require Import base numbers list strings.
From Stdlib Require Import ZArith Lia QArith Qround.
From S2P Require Import Prelude Memory CString Ctx Profiling Writelog Common Edfi CtlServer Lcg.
Local Open Scope Z_scope.

Definition EDFI_CONTEXT_ADDRESS : Z := 2684346368.
Definition EDFI_OUTPUT_FILE : cstr := lit "edfi.out".
Definition EDFI_OUTPUT_DIR : cstr := lit "/tmp".

(** ** The environment *)

Section Env.
Context (getenv : string → option cstr).

(** [parse_int_env_var]. *)
Definition parse_int_env_var (env_name : string) (default_value : Z) : Z :=
  match getenv env_name with
  | None => default_value
  | Some s =>
      let '(v, tail) := strtol s in
      let env_value := s32 v in
      if (env_value =? 0) && bool_decide (s = tail) then default_value else env_value
  end.

(** [parse_float_env_var]; [strtof] gives the value and the rest of the text. *)
Definition parse_float_env_var (strtof : cstr → Q * cstr) (env_name : string) (default_value : Q) : Q :=
  match getenv env_name with
  | None => default_value
  | Some s =>
      let '(v, tail) := strtof s in
      if Qeq_bool v 0 && bool_decide (s = tail) then default_value else v
  end.

(** [parse_str_env_var]. *)
Definition parse_str_env_var (env_name : string) (default_value : cstr) : cstr :=
  default default_value (getenv env_name).

End Env.

(** Conversion of a [float] to [unsigned long]: towards zero; undefined outside the type. *)
Definition float_to_ulong (q : Q) : option Z :=
  let t := Z.quot (Qnum q) (Zpos (Qden q)) in
  if (0 <=? t) && (t <? 18446744073709551616) then Some t else None.

(** The limit of a probability: how many of the random values inject; at least one if the
    probability is positive. *)
Definition randmax_of (p : Q) : option Z :=
  k ← float_to_ulong (inject_Z (EDFI_RAND_MAX + 1) * p);
  Some (if negb (Qle_bool p 0) && (k =? 0) then 1 else k).

(** ** State *)

(** The injector, the fields of the context the other files leave out, and the globals of the
    server. *)
Record injector (os : Type) := mk_inj {
  in_edfi : edfi;
  in_context : Z;  (** [edfi_context] *)
  in_prob : Q;  (** [c.fault_prob] *)
  in_no_svr_thread : Z;
  in_on_start : Z;  (** [num_requests_on_start] *)
  in_verbosity : Z;
  in_output_dir : cstr;
  in_server_fd : Z;  (** [edfi_server_fd] *)
  in_fp : option cstr;  (** [edfi_fp]: the name of the open file, or NULL *)
  in_cycles : Z;  (** [edfi_cycles_per_ns] *)
  in_first_run : Z;
  in_os : os;
}.
Arguments mk_inj {os}.
Arguments in_edfi {os}.
Arguments in_context {os}.
Arguments in_prob {os}.
Arguments in_no_svr_thread {os}.
Arguments in_on_start {os}.
Arguments in_verbosity {os}.
Arguments in_output_dir {os}.
Arguments in_server_fd {os}.
Arguments in_fp {os}.
Arguments in_cycles {os}.
Arguments in_first_run {os}.
Arguments in_os {os}.

(** The calls of the set-up.  [sys_msync] gives its result and [errno]; [rdtsc] the value the
    instruction leaves; [sys_fopen] whether the file was opened. *)
Class EdfiSys (os : Type) := {
  sys_msync : Z → Z → os → Z * Z * os;
  sys_clock : os → Z * Z * os;
  rdtsc : os → Z * os;
  sys_getpid : os → Z;
  sys_fopen : cstr → os → bool * os;
  sys_fclose : cstr → os → os;
  sys_atfork : os → Z * os;
}.

(** ** The clock *)

(** [timespec_diff]: seconds and nanoseconds. *)
Definition timespec_diff (t s : Z * Z) : Z * Z :=
  let sec := t.1 - s.1 in
  let nsec := t.2 - s.2 in
  if nsec <? 0 then (sec - 1, nsec + 1000 * 1000 * 1000) else (sec, nsec).

(** The calibration: cycles over nanoseconds, at least one. *)
Definition cycles_per_ns (start stop : Z) (start_ts end_ts : Z * Z) : Z :=
  let d := timespec_diff end_ts start_ts in
  let diff := u64 (d.1 * (1000 * 1000 * 1000) + d.2) in
  let c := u64 (stop - start) / (if diff =? 0 then 1 else diff) in
  if c =? 0 then 1 else c.

(** ** Identifiers of faults *)

(** A character is signed. *)
Definition schar (c : Ascii.ascii) : Z := swrap 8 (code c).

Definition edfi_hash (hash : Z) (s : cstr) : Z := foldl (λ h c, u64 (schar c + 31 * h)) hash s.

(** The bytes of [line] as a string: they end at the first that is zero. *)
Definition line_text (line : Z) : cstr := string_of_bytes (le_bytes 4 line).

Definition edfi_get_static_fault_id (file : cstr) (line : Z) : Z :=
  edfi_hash (edfi_hash 0 file) (line_text line).

(** The symbols of the stack frames are those of [backtrace]. *)
Definition edfi_get_dynamic_fault_id (frames : list cstr) : Z := foldl edfi_hash 0 frames.

Section Setup.
Context {os : Type} `{platform : Platform os} `{vmem : VMem os} `{edfisys : EdfiSys os} `{sockets : Sockets os}.
Context (getenv : string → option cstr) (strtof : cstr → Q * cstr).
(** The options [EDFI_DISABLE_CTL_SRV] and [EDFI_ENABLE_INJECTION_ON_START] of the build, and
    whether the context has counters of executions. *)
Context (disable_ctl_srv injection_on_start : bool).
Context (has_executions : bool).

Local Abbreviation I := (injector os).
Local Abbreviation P := (prog I).

Definition set_in_edfi (f : edfi → edfi) (s : I) : I :=
  mk_inj (f (in_edfi s)) (in_context s) (in_prob s) (in_no_svr_thread s) (in_on_start s)
    (in_verbosity s) (in_output_dir s) (in_server_fd s) (in_fp s) (in_cycles s) (in_first_run s) (in_os s).
Definition set_in_context (v : Z) (s : I) : I :=
  mk_inj (in_edfi s) v (in_prob s) (in_no_svr_thread s) (in_on_start s)
    (in_verbosity s) (in_output_dir s) (in_server_fd s) (in_fp s) (in_cycles s) (in_first_run s) (in_os s).
Definition set_in_fp (v : option cstr) (s : I) : I :=
  mk_inj (in_edfi s) (in_context s) (in_prob s) (in_no_svr_thread s) (in_on_start s)
    (in_verbosity s) (in_output_dir s) (in_server_fd s) v (in_cycles s) (in_first_run s) (in_os s).
Definition set_in_cycles (v : Z) (s : I) : I :=
  mk_inj (in_edfi s) (in_context s) (in_prob s) (in_no_svr_thread s) (in_on_start s)
    (in_verbosity s) (in_output_dir s) (in_server_fd s) (in_fp s) v (in_first_run s) (in_os s).
Definition set_in_first_run (v : Z) (s : I) : I :=
  mk_inj (in_edfi s) (in_context s) (in_prob s) (in_no_svr_thread s) (in_on_start s)
    (in_verbosity s) (in_output_dir s) (in_server_fd s) (in_fp s) (in_cycles s) v (in_os s).
Definition set_in_on_start (v : Z) (s : I) : I :=
  mk_inj (in_edfi s) (in_context s) (in_prob s) (in_no_svr_thread s) v
    (in_verbosity s) (in_output_dir s) (in_server_fd s) (in_fp s) (in_cycles s) (in_first_run s) (in_os s).
Definition set_in_conf (prob : Q) (no_svr on_start verb : Z) (dir : cstr) (s : I) : I :=
  mk_inj (in_edfi s) (in_context s) prob no_svr on_start verb dir
    (in_server_fd s) (in_fp s) (in_cycles s) (in_first_run s) (in_os s).

(** A call of the system. *)
Definition set_in_os (v : os) (s : I) : I :=
  mk_inj (in_edfi s) (in_context s) (in_prob s) (in_no_svr_thread s) (in_on_start s)
    (in_verbosity s) (in_output_dir s) (in_server_fd s) (in_fp s) (in_cycles s) (in_first_run s) v.

Definition sysi {A} (f : os → A * os) : P A := λ s,
  let '(a, o) := f (in_os s) in Ok a (set_in_os o s).

(** [edfi_context_realloc]. *)
Definition edfi_context_realloc : P Z :=
  let addr := EDFI_CONTEXT_ADDRESS in
  let base_addr := addr - PAGE_SIZE in
  let flags := Z.lor (Z.lor MAP_PRIVATE MAP_ANONYMOUS) MAP_FIXED in
  assert (sizeof_context <=? PAGE_SIZE) ;;
  r ← sysi (sys_msync base_addr (PAGE_SIZE * 3));
  assert ((r.1 <? 0) && (r.2 =? 12)) ;;
  b ← sysi (mmap base_addr (PAGE_SIZE * 3) PROT_NONE flags);
  assert (negb (b =? MAP_FAILED)) ;;
  addr ← sysi (mmap addr PAGE_SIZE (Z.lor PROT_READ PROT_WRITE) flags);
  assert (negb (addr =? MAP_FAILED)) ;;
  mret addr.

(** [edfi_ctl_time_init]; while it runs, a nanosecond is one cycle. *)
Definition edfi_ctl_time_init : P () :=
  start_ts ← sysi sys_clock;
  start ← sysi rdtsc;
  stop ← sysi rdtsc;
  end_ts ← sysi sys_clock;
  modify (set_in_cycles (cycles_per_ns start stop start_ts end_ts)).

(** [edfi_ctl_context_init]. *)
Definition edfi_ctl_context_init : P () :=
  let no_svr := if disable_ctl_srv then 1 else parse_int_env_var getenv "EDFI_NO_SVR_THREAD" 0 in
  let on_start := parse_int_env_var getenv "EDFI_NUM_REQUESTS_ON_START" 0 in
  let prob := parse_float_env_var getenv strtof "EDFI_FAULT_PROB" 0 in
  match randmax_of prob with
  | None => halt Undefined
  | Some k =>
      let seed := u32 (parse_int_env_var getenv "EDFI_RAND_SEED" 0) in
      modify (set_in_edfi (λ e, set_econf (set_rand_seed seed (set_fault_prob_randmax k (econf e))) e)) ;;
      let verb := parse_int_env_var getenv "EDFI_VERBOSITY" 0 in
      modify (set_in_edfi (set_enabled
        (if injection_on_start then 1 else parse_int_env_var getenv "EDFI_FI_ENABLED" 0))) ;;
      modify (set_in_conf prob no_svr on_start verb (parse_str_env_var getenv "LOGDIR" EDFI_OUTPUT_DIR))
  end.

(** [edfi_set_proc_fp]: the output file of the process. *)
Definition output_path (dir : cstr) (pid : Z) : cstr :=
  dir ++ lit "/" ++ EDFI_OUTPUT_FILE ++ lit "." ++ dec pid.

Definition edfi_set_proc_fp : P () :=
  path ← gets (λ s, output_path (in_output_dir s) (sys_getpid (in_os s)));
  ok ← sysi (sys_fopen path);
  modify (set_in_fp (if ok : bool then Some path else None)).

(** [edfi_ctl_init], up to where it starts the server. *)
Definition edfi_ctl_first_run : P () :=
  addr ← edfi_context_realloc;
  assert (negb (addr =? 0)) ;;
  modify (set_in_context addr) ;;
  edfi_ctl_time_init ;;
  edfi_ctl_context_init.

Definition edfi_ctl_setup : P () :=
  first ← gets in_first_run;
  when (truthy first) edfi_ctl_first_run ;;
  modify (set_in_edfi (λ e, set_rand_next (u32 (rand_seed (econf e))) e)) ;;
  edfi_set_proc_fp ;;
  modify (set_in_edfi (λ e, if has_executions then init_executions e else e)).

(** The end of [edfi_ctl_init]; the canaries of the context are constants of the model. *)
Definition edfi_ctl_finish : P () :=
  first ← gets in_first_run;
  when (truthy first) (r ← sysi sys_atfork; assert (r =? 0)) ;;
  modify (set_in_first_run 0) ;;
  modify (set_in_on_start 0).

(** [edfi_ctl_close]; closing NULL faults. *)
Definition edfi_ctl_close : P () :=
  fd ← gets in_server_fd;
  sysi (λ o, ((), sys_close fd o)) ;;
  fp ← gets in_fp;
  match fp with
  | None => halt Sigsegv
  | Some path => sysi (λ o, ((), sys_fclose path o))
  end.

(** [edfi_fork_child], up to the start of the server of the child. *)
Definition edfi_fork_child : P () := edfi_ctl_close ;; edfi_ctl_setup.

End Setup.

(** ** Identifiers of faults that coincide *)

(** The lowest byte of a line number that is a multiple of 256 is zero and ends the text of the
    line: all such lines of a file have one identifier. *)
Theorem static_fault_id_collides file l :
  edfi_get_static_fault_id file (256 * l) = edfi_hash 0 file.
Proof.
  unfold edfi_get_static_fault_id, line_text. cbn [le_bytes string_of_bytes].
  by rewrite (Z.mul_comm 256 l), Z_mod_mult.
Qed.

(** ** The clock *)

(** The difference of two points in time is their difference in nanoseconds. *)
Lemma timespec_diff_ns t s :
  0 <= t.2 < 1000000000 → 0 <= s.2 < 1000000000 →
  let d := timespec_diff t s in
  d.1 * 1000000000 + d.2 = (t.1 * 1000000000 + t.2) - (s.1 * 1000000000 + s.2) ∧ 0 <= d.2 < 1000000000.
Proof. intros Ht Hs. unfold timespec_diff. destruct (Z.ltb_spec (t.2 - s.2) 0); cbn; lia. Qed.

(** The calibration never leaves a zero to divide by. *)
Lemma cycles_positive start stop ts te : 1 <= cycles_per_ns start stop ts te < 18446744073709551616.
Proof.
  unfold cycles_per_ns. cbv zeta. set (diff := u64 (_ * _ + _)).
  pose proof (u64_range (stop - start)) as Hr.
  assert (1 <= (if diff =? 0 then 1 else diff)) as Hd.
  { pose proof (u64_range ((timespec_diff te ts).1 * (1000 * 1000 * 1000) + (timespec_diff te ts).2)).
    fold diff in H. destruct (Z.eqb_spec diff 0); lia. }
  set (dv := if diff =? 0 then 1 else diff) in *.
  assert (0 <= u64 (stop - start) / dv <= u64 (stop - start)) as Hq.
  { split; [apply Z.div_pos; lia|]. apply Z.div_le_upper_bound; nia. }
  destruct (Z.eqb_spec (u64 (stop - start) / dv) 0); lia.
Qed.

(** ** The rate of faults *)

Lemma randmax_rate p : (0 < p)%Q → (p <= 1)%Q →
  ∃ k, randmax_of p = Some k ∧ 1 <= k <= 32768 ∧
    (p - (1 # 32768) < 65536 * k # 2147483648)%Q ∧ (65536 * k # 2147483648 < p + (1 # 32768))%Q.
Proof.
  destruct p as [n d]. unfold Qlt, Qle. cbn [Qnum Qden]. intros Hn Hd.
  unfold randmax_of, float_to_ulong. cbn [Qnum Qden Qmult inject_Z].
  change (EDFI_RAND_MAX + 1) with 32768. rewrite Z.quot_div_nonneg by lia.
  change (Z.pos (1 * d)) with (Z.pos d).
  set (k := 32768 * n / Z.pos d).
  assert (k * Z.pos d <= 32768 * n < (k + 1) * Z.pos d) as Hk.
  { unfold k. Z.to_euclidean_division_equations; nia. }
  assert (0 <= k <= 32768) as Hk2 by nia.
  rewrite (proj2 (Z.leb_le 0 k)), (proj2 (Z.ltb_lt k _)) by lia. cbn [mbind option_bind].
  assert (Qle_bool (n # d) 0 = false) as ->.
  { apply not_true_is_false. rewrite Qle_bool_iff. unfold Qle. cbn. lia. }
  cbn [negb andb]. eexists. split; [reflexivity|].
  destruct (Z.eqb_spec k 0) as [E|E]; (split; [lia|]); unfold Qminus, Qopp, Qplus, Qlt; cbn [Qnum Qden];
    rewrite !Pos2Z.inj_mul; nia.
Qed.

(** *** Runs of decisions *)

Section Rate.
Context {os : Type} `{platform : Platform os} `{vmem : VMem os} `{edfisys : EdfiSys os}.
Context (getenv : string → option cstr) (strtof : cstr → Q * cstr).
Context (disable_ctl_srv injection_on_start has_executions : bool).

(** [n] decisions by probability in a row. *)
Fixpoint decisions (n : nat) : prog (edfi * os) (list bool) :=
  match n with
  | O => mret []
  | S n' => b ← edfi_onfdp_dyn_fault_prob; bs ← decisions n'; mret (b :: bs)
  end.

Lemma decisions_run n (e : edfi) (o : os) k x :
  enabled e ≠ 0 → fault_prob_randmax (econf e) = k → k ≠ 0 → next_rand (rand_next e) = x →
  ∃ e', decisions n (e, o) = Ok ((λ i, rand_of (Nat.iter i next_rand x) <? k) <$> seq 0 n) (e', o).
Proof.
  revert e x. induction n as [|n IH]; intros e x Hen Hk Hk0 Hx; [by exists e|].
  cbn [decisions].
  set (e1 := set_rand_next x e).
  assert (edfi_onfdp_dyn_fault_prob (e, o) = Ok (rand_of x <? k) (e1, o)) as E.
  { unfold edfi_onfdp_dyn_fault_prob, get, conf. rewrite !bind_gets. cbn [fst]. rewrite Hk.
    rewrite (proj2 (Z.eqb_neq _ _) Hen), (proj2 (Z.eqb_neq _ _) Hk0). cbn [orb].
    unfold edfi_rand, get, put. rewrite bind_assoc, bind_modify, bind_gets. cbn [fst snd].
    unfold e1. rewrite <- Hx, Z.ltb_antisym. done. }
  rewrite (bind_Ok _ _ _ _ _ E).
  destruct (IH e1 (next_rand x)) as (e' & IH'); [done..|].
  exists e'. rewrite (bind_Ok _ _ _ _ _ IH'). cbn [seq fmap list_fmap]. do 2 f_equal.
  rewrite <- fmap_S_seq, <- list_fmap_compose. apply list_fmap_ext. intros _ i _. unfold compose.
  by rewrite Nat.iter_succ_r.
Qed.

(** The system grants the page of the context. *)
Record sys_grants : Prop := {
  area_free : ∀ a n o, ∃ r o', sys_msync a n o = (r, 12, o') ∧ r < 0;
  area_mapped : ∀ a n p f o, ∃ o', mmap a n p f o = (a, o');
}.

Lemma bind_sysi {A B} (f : os → A * os) (k : A → prog (injector os) B) s a o :
  f (in_os s) = (a, o) →
  (sysi f ≫= k) s = k a (set_in_os o s).
Proof. intros H. unfold mbind, prog_bind, sysi. by rewrite H. Qed.

Lemma realloc_run s : sys_grants → ∃ o', edfi_context_realloc s = Ok EDFI_CONTEXT_ADDRESS (set_in_os o' s).
Proof.
  intros [Hfree Hmap]. unfold edfi_context_realloc. rewrite bind_assert by done.
  destruct (Hfree (EDFI_CONTEXT_ADDRESS - PAGE_SIZE) (PAGE_SIZE * 3) (in_os s)) as (r & o1 & E1 & Hr).
  erewrite bind_sysi by exact E1. rewrite bind_assert by (cbn [fst snd]; rewrite (proj2 (Z.ltb_lt r 0)) by done; done).
  edestruct Hmap as [o2 E2]. erewrite bind_sysi by exact E2. rewrite bind_assert by done.
  edestruct Hmap as [o3 E3]. erewrite bind_sysi by exact E3. rewrite bind_assert by done.
  by exists o3.
Qed.

Lemma time_init_run s : ∃ c o', edfi_ctl_time_init s = Ok () (set_in_cycles c (set_in_os o' s)).
Proof.
  unfold edfi_ctl_time_init.
  destruct (sys_clock (in_os s)) as [ts o1] eqn:E1. rewrite (bind_sysi _ _ _ _ _ E1).
  destruct (rdtsc o1) as [a o2] eqn:E2. erewrite bind_sysi by exact E2.
  destruct (rdtsc o2) as [b o3] eqn:E3. erewrite bind_sysi by exact E3.
  destruct (sys_clock o3) as [te o4] eqn:E4. erewrite bind_sysi by exact E4.
  by eexists _, _.
Qed.

Lemma set_proc_fp_run s : ∃ fp o', edfi_set_proc_fp s = Ok () (set_in_fp fp (set_in_os o' s)).
Proof.
  unfold edfi_set_proc_fp. rewrite bind_gets.
  destruct (sys_fopen (output_path (in_output_dir s) (sys_getpid (in_os s))) (in_os s)) as [ok o1] eqn:E1.
  rewrite (bind_sysi _ _ _ _ _ E1). by eexists _, _.
Qed.

Local Abbreviation setup := (edfi_ctl_setup getenv strtof disable_ctl_srv injection_on_start has_executions).
Local Abbreviation prob := (parse_float_env_var getenv strtof "EDFI_FAULT_PROB" 0).

(** The configuration of the injector is that of the environment. *)
Definition conf_from_env (k : Z) (e : edfi) : Prop :=
  fault_prob_randmax (econf e) = k ∧
  rand_seed (econf e) = u32 (parse_int_env_var getenv "EDFI_RAND_SEED" 0) ∧
  enabled e = (if injection_on_start then 1 else parse_int_env_var getenv "EDFI_FI_ENABLED" 0).

Lemma first_run_conf s k :
  sys_grants → randmax_of prob = Some k →
  ∃ s', edfi_ctl_first_run getenv strtof disable_ctl_srv injection_on_start s = Ok () s' ∧
    conf_from_env k (in_edfi s') ∧ in_first_run s' = in_first_run s.
Proof.
  intros Hg Hk. unfold edfi_ctl_first_run.
  destruct (realloc_run s Hg) as [o1 E1]. rewrite (bind_Ok _ _ _ _ _ E1), bind_assert, bind_modify by done.
  destruct (time_init_run (set_in_context EDFI_CONTEXT_ADDRESS (set_in_os o1 s))) as (c & o2 & E2).
  rewrite (bind_Ok _ _ _ _ _ E2). unfold edfi_ctl_context_init. rewrite Hk, !bind_modify.
  eexists. split; [reflexivity|]. done.
Qed.

(** The set-up, at the first run and in a forked child: the generator starts at the seed. *)
Lemma setup_rest s s1 :
  (first ← gets in_first_run; when (truthy first)
     (edfi_ctl_first_run getenv strtof disable_ctl_srv injection_on_start)) s = Ok () s1 →
  ∃ s', setup s = Ok () s' ∧ enabled (in_edfi s') = enabled (in_edfi s1) ∧
    econf (in_edfi s') = econf (in_edfi s1) ∧ rand_next (in_edfi s') = u32 (rand_seed (econf (in_edfi s1))).
Proof.
  rewrite bind_gets. intros E. unfold edfi_ctl_setup. rewrite bind_gets, (bind_Ok _ _ _ _ _ E), bind_modify.
  destruct (set_proc_fp_run (set_in_edfi (λ e, set_rand_next (u32 (rand_seed (econf e))) e) s1)) as (fp & o2 & E2).
  rewrite (bind_Ok _ _ _ _ _ E2). eexists. split; [reflexivity|]. cbn. by destruct has_executions.
Qed.

Lemma prob_parsed text p rest :
  getenv "EDFI_FAULT_PROB" = Some text → strtof text = (p, rest) → (0 < p)%Q → prob = p.
Proof.
  intros Hg Hs Hp. unfold parse_float_env_var. rewrite Hg, Hs.
  destruct (Qeq_bool p 0) eqn:E; [|done]. apply Qeq_bool_iff in E. rewrite E in Hp. by apply Qlt_irrefl in Hp.
Qed.

(** C7: faults are injected at the configured rate.  For a probability [p] above 0 and at most 1
    in the environment, with injection enabled, the set-up succeeds if the system grants the page
    of the context, and from then on, in whatever state the injector is with that configuration,
    of any 2^31 decisions in a row the share that injects differs from [p] by less than 1/32768,
    and is not zero. *)
Theorem fault_rate_exact N s text p rest :
  sys_grants → in_first_run s ≠ 0 →
  getenv "EDFI_FAULT_PROB" = Some text → strtof text = (p, rest) → (0 < p)%Q → (p <= 1)%Q →
  injection_on_start = true ∨ parse_int_env_var getenv "EDFI_FI_ENABLED" 0 ≠ 0 →
  Z.of_nat N = 2 ^ 31 →
  ∃ s', setup s = Ok () s' ∧
    ∀ e o, enabled e = enabled (in_edfi s') → econf e = econf (in_edfi s') →
    ∃ bs e', decisions N (e, o) = Ok bs (e', o) ∧ 0 < ntrue bs ∧
      (p - (1 # 32768) < ntrue bs # 2147483648)%Q ∧ (ntrue bs # 2147483648 < p + (1 # 32768))%Q.
Proof.
  intros Hg Hfr Henv Hst Hp0 Hp1 Hon HN.
  destruct (randmax_rate p Hp0 Hp1) as (k & Hk & Hkr & Hlo & Hhi).
  destruct (first_run_conf s k Hg) as (s1 & E1 & (Hc & _ & Hen) & _).
  { by rewrite (prob_parsed text p rest). }
  destruct (setup_rest s s1) as (s' & E2 & Hen' & Hc' & _).
  { rewrite bind_gets. unfold truthy. by rewrite (proj2 (Z.eqb_neq _ _) Hfr). }
  exists s'. split; [exact E2|]. intros e o Hee Hec.
  destruct (decisions_run N e o k (next_rand (rand_next e))) as (e' & E3).
  - rewrite Hee, Hen', Hen. by destruct injection_on_start, Hon.
  - by rewrite Hec, Hc'.
  - lia.
  - done.
  - eexists _, e'. split; [exact E3|]. rewrite rand_below_count by (done || lia). split_and!; [lia|done|done].
Qed.

(** The decisions of a forked child are those of its parent from the start: the child sets its
    generator back to the seed. *)
Theorem child_repeats_decisions `{sockets : Sockets os} n s s1 s2 path k :
  sys_grants → in_first_run s ≠ 0 → randmax_of prob = Some k → k ≠ 0 →
  setup s = Ok () s1 → enabled (in_edfi s1) ≠ 0 →
  in_first_run s2 = 0 → in_fp s2 = Some path →
  enabled (in_edfi s2) = enabled (in_edfi s1) → econf (in_edfi s2) = econf (in_edfi s1) →
  ∃ s3 bs e1 e3,
    edfi_fork_child getenv strtof disable_ctl_srv injection_on_start has_executions s2 = Ok () s3 ∧
    decisions n (in_edfi s1, in_os s1) = Ok bs (e1, in_os s1) ∧
    decisions n (in_edfi s3, in_os s3) = Ok bs (e3, in_os s3).
Proof.
  intros Hg Hfr Hk Hk0 E1 Hen Hfr2 Hfp Hen2 Hc2.
  destruct (first_run_conf s k Hg Hk) as (s0 & E0 & (Hc & _) & _).
  destruct (setup_rest s s0) as (s1' & E1' & _ & Hc1 & Hr1).
  { rewrite bind_gets. unfold truthy. by rewrite (proj2 (Z.eqb_neq _ _) Hfr). }
  rewrite E1 in E1'. injection E1' as <-.
  set (s2' := set_in_os (sys_fclose path (sys_close (in_server_fd s2) (in_os s2))) s2).
  destruct (setup_rest s2' s2') as (s3 & E3 & Hen3 & Hc3 & Hr3).
  { rewrite bind_gets. unfold truthy. cbn [s2' set_in_os in_first_run]. by rewrite Hfr2. }
  rewrite <- Hc1 in Hc, Hr1. cbn [s2' set_in_os in_edfi] in Hen3, Hc3, Hr3. rewrite Hc2 in Hc3, Hr3. rewrite Hen2 in Hen3.
  destruct (decisions_run n (in_edfi s1) (in_os s1) k (next_rand (u32 (rand_seed (econf (in_edfi s1)))))) as (e1 & D1);
    [done|done|done|by rewrite Hr1|].
  destruct (decisions_run n (in_edfi s3) (in_os s3) k (next_rand (u32 (rand_seed (econf (in_edfi s1)))))) as (e3 & D3);
    [by rewrite Hen3|by rewrite Hc3|done|by rewrite Hr3|].
  exists s3. eexists _, e1, e3. split_and!; [|exact D1|exact D3].
  unfold edfi_fork_child. rewrite (bind_Ok _ _ s2 () s2'); [exact E3|].
  unfold edfi_ctl_close. rewrite bind_gets. erewrite bind_sysi by reflexivity. rewrite bind_gets.
  cbn [set_in_os in_fp]. rewrite Hfp. done.
Qed.

(** When the output file could not be opened, the process faults on the way out, and so does
    every child it forks. *)
Theorem close_without_file_faults `{sockets : Sockets os} s :
  in_fp s = None → ∃ s', edfi_ctl_close s = Stop Sigsegv s' ∧
    edfi_fork_child getenv strtof disable_ctl_srv injection_on_start has_executions s = Stop Sigsegv s'.
Proof.
  intros Hfp. assert (∃ s', edfi_ctl_close s = Stop Sigsegv s') as [s' E].
  { unfold edfi_ctl_close. rewrite bind_gets. erewrite bind_sysi by reflexivity. rewrite bind_gets.
    cbn [set_in_os in_fp]. rewrite Hfp. eexists. reflexivity. }
  exists s'. split; [done|]. unfold edfi_fork_child. by rewrite (bind_Stop _ _ _ _ _ E).
Qed.

End Rate.

(** ** The client *)

(** The address of a server: a name in the abstract name space, whose first character, a hash
    sign while its length is taken, is then zero.  The text is cut at [UNIX_PATH_MAX]. *)
Definition UNIX_PATH_MAX : nat := 108.

Definition ctl_address (id : Z) : cstr :=
  Ascii.ascii_of_nat 0 :: take (UNIX_PATH_MAX - 2) (lit "edfi.ctl." ++ dec id).

Class Connect (os : Type) := sys_connect : Z → cstr → os → Z * os.

(** [edfi_ctl_client_init]: its result, and the descriptor. *)
Definition edfi_ctl_client_init {os} `{sockets : Sockets os} `{connect : Connect os} (server_id : Z) (o : os)
    : Z * Z * os :=
  let '(fd, o) := sys_socket o in
  if fd <? 0 then (-1, fd, o) else
  let '(r, o) := sys_connect fd (ctl_address server_id) o in
  if r <? 0 then (-1, fd, o) else (0, fd, o).

(** [edfi_ctl_client_close]. *)
Definition edfi_ctl_client_close {os} `{sockets : Sockets os} (fd : Z) (o : os) : os := sys_close fd o.

(** Clients reach the server they name: different processes have different addresses. *)
Theorem ctl_address_inj i j :
  0 <= i < 2147483648 → 0 <= j < 2147483648 → ctl_address i = ctl_address j → i = j.
Proof.
  assert (∀ n, 0 <= n < 2147483648 → scan_digits 10 0 (dec n) = (n, [])) as Hscan.
  { intros n Hn. destruct (scan_num 10 20 n []) as [H _]; [lia|cbn; lia|lia|]. exact H. }
  intros Hi Hj E. apply (f_equal tail) in E. cbn [tail ctl_address] in E.
  rewrite !take_ge in E by (rewrite length_app; pose proof (length_num_digits 10 20 i []); pose proof (length_num_digits 10 20 j []);
    unfold dec, UNIX_PATH_MAX; cbn [length lit] in *; lia).
  apply app_inv_head in E. pose proof (Hscan i Hi) as H. rewrite E, Hscan in H by done. congruence.
Qed.

(** ** An example *)

Module Example.

#[local] Instance ex_vmem : VMem Z := {|
  mmap a _ _ _ o := (a, o);
  munmap _ _ o := (0, o);
  mprotect _ _ _ o := (0, o);
|}.
#[local] Instance ex_sys : EdfiSys Z := {|
  sys_msync _ _ o := (-1, 12, o);
  sys_clock o := ((0, o), o + 1);
  rdtsc o := (o, o + 1);
  sys_getpid _ := 7;
  sys_fopen _ o := (true, o);
  sys_fclose _ o := o;
  sys_atfork o := (0, o);
|}.

Definition env (n : string) : option cstr :=
  if String.eqb n "EDFI_FAULT_PROB" then Some (lit "0.25") else
  if String.eqb n "EDFI_FI_ENABLED" then Some (lit "1") else None.

Definition strtof (s : cstr) : Q * cstr := if bool_decide (s = lit "0.25") then (1 # 4, []) else (0%Q, s).

Definition inj0 : injector Z := mk_inj demo_edfi 0 0%Q 0 0 0 [] (-1) None 0 1 0.

Lemma ex_grants : sys_grants (os := Z).
Proof. split; intros; repeat eexists; lia. Qed.

Lemma fault_rate_exact_witness :
  ∃ s', edfi_ctl_setup env strtof false false false inj0 = Ok () s' ∧
    ∃ bs e', decisions (Z.to_nat (2 ^ 31)) (in_edfi s', 0) = Ok bs (e', 0) ∧ 0 < ntrue bs ∧
      ((1 # 4) - (1 # 32768) < ntrue bs # 2147483648)%Q ∧ (ntrue bs # 2147483648 < (1 # 4) + (1 # 32768))%Q.
Proof.
  destruct (fault_rate_exact env strtof false false false (Z.to_nat (2 ^ 31)) inj0 (lit "0.25") (1 # 4) [])
    as (s' & E & H).
  - exact ex_grants.
  - done.
  - reflexivity.
  - reflexivity.
  - reflexivity.
  - discriminate.
  - right. discriminate.
  - apply Z2Nat.id. discriminate.
  - exists s'. split; [exact E|]. by apply H.
Defined.

End Example.
