(* ===== verification/EdfiPlatforms.v ===== *)
(** * The fault injector on MINIX and in the Linux kernel

    [edfi/platform/minix_sys/ctl] and [edfi/platform/linux_sys/ctl]: the control server and
    clients of the other two platforms, and what MINIX has in place of the random numbers, the
    stack traces and the set-up of [unix_apps].

    The buffers of both sides are sized by [sizeof] of fields that hold sizes, and the grant by
    [sizeof] of a variable: of a mx_request on MINIX four bytes arrive, the command
    ([minix_request_is_its_command]).  The random numbers of MINIX have 31 bits, while the limit
    they are compared with is a number of fifteen bits ([minix_rate_too_low]). *)
From stdpp Require Import base numbers list strings.
From Stdlib Require Import ZArith Lia.
From S2P Require Import Prelude Memory CString ProcMaps Edfi CtlServer Lcg EdfiCtx.

(** ** MINIX *)

(** The sizes of a pointer, of [size_t] and of [edfi_cmd_data_t] on 32 bits. *)
Definition mx_sizeof_size_t : Z := 4.
Definition mx_sizeof_cmd : Z := 24.
Definition E2BIG : Z := 7.
Definition ENOSYS : Z := 78.

Definition mx_cmd_data_bytes (d : edfi_cmd_data) : list Z :=
  le_bytes 4 (cmd d) ++ le_bytes 4 (status d) ++ le_bytes 4 (context_size d) ++
  le_bytes 4 (params_size d) ++ le_bytes 4 (ctx_ptr d) ++ le_bytes 4 (params_ptr d).

Definition mx_cmd_data_of_bytes (bs : list Z) : edfi_cmd_data :=
  mk_cmd (field bs 0 4) (s32 (field bs 4 4)) (field bs 8 4) (field bs 12 4) (field bs 16 4)
    (field bs 20 4).

(** [edfi_ctl_client_send]: the buffer, and how much of it the server may read.  [None]: the
    mx_request is refused. *)
Definition mx_buff_size : Z := mx_sizeof_cmd + mx_sizeof_size_t + mx_sizeof_size_t.

Definition mx_ctl_client_send (d : edfi_cmd_data) (context params : list Z) : option (list Z * Z) :=
  if (0 <? params_size d) && (context_size d <=? 0) then None
  else Some (mx_cmd_data_bytes d ++ take (Z.to_nat mx_sizeof_size_t) context
               ++ take (Z.to_nat mx_sizeof_size_t) params, mx_sizeof_size_t).

Section Server.
Context {os : Type} `{platform : Platform os}.

(** [edfi_ctl_process_request]: [size] is the size in the message, [granted] the bytes the server
    may copy, [junk] what its own buffer held before.  The result, and whether a reply was sent.
    The context is behind the command, and longer than the buffer. *)
Definition mx_ctl_process_request (size : Z) (granted junk : list Z) : prog (edfi * os) (Z * bool) :=
  if negb (size =? mx_buff_size) then mret (E2BIG, false) else
  let n := Z.to_nat mx_sizeof_size_t in
  if (length granted <? n)%nat then halt AssertFail else
  let buff := take n granted ++ drop n junk in
  ret ← CtlServer.edfi_ctl_process_request (mx_cmd_data_of_bytes buff) Wild;
  mret (ret, true).

(** The exchange of a mx_request. *)
Definition mx_request (d : edfi_cmd_data) (context params junk : list Z) : prog (edfi * os) (option (Z * bool)) :=
  match mx_ctl_client_send d context params with
  | None => mret None
  | Some (buff, grant) => r ← mx_ctl_process_request mx_buff_size (take (Z.to_nat grant) buff) junk; mret (Some r)
  end.

(** [edfi_load_dflib], [edfi_context_realloc] and the set-up. *)
Definition mx_load_dflib (path : cstr) : prog (edfi * os) Z := mret ENOSYS.

Definition mx_ctl_context_init (injection_on_start : bool) (e : edfi) : edfi :=
  set_enabled (if injection_on_start then 1 else 0) (set_econf (set_rand_seed 17 (econf e)) e).

Definition mx_ctl_init (injection_on_start has_executions : bool) (e : edfi) : edfi :=
  let e := mx_ctl_context_init injection_on_start e in
  let e := set_rand_next (rand_seed (econf e)) e in
  if has_executions then init_executions e else e.

End Server.

(** [edfi_rand]: the state and the number; an [unsigned long] has 32 bits. *)
Definition mx_next_rand (n : Z) : Z := u32 (n * 1103515245 + 12345).
Definition mx_rand_of (RAND_MAX n : Z) : Z := n mod (RAND_MAX + 1).

(** [edfi_print_stacktrace]: the numbers printed, for the frames from [bp] on. *)
Fixpoint mx_print_stacktrace (fuel : nat) (m : mem) (bp : Z) : option (list Z) :=
  if bp =? 0 then Some [] else
  match fuel with
  | O => None
  | S fuel' =>
      let pc := load_u32 m (bp + 4) in
      let hbp := load_u32 m bp in
      if negb (hbp =? 0) && (hbp <=? bp) then Some [pc; 4294967295]
      else l ← mx_print_stacktrace fuel' m hbp; Some (pc :: l)
  end.

(** [edfi_get_dynamic_fault_id]; [junk] are the bytes of the buffer behind the address, which
    is not initialised. *)
Fixpoint mx_get_dynamic_fault_id (fuel : nat) (m : mem) (junk : list Z) (bp df_id : Z) : option Z :=
  if bp =? 0 then Some df_id else
  match fuel with
  | O => None
  | S fuel' =>
      let text := string_of_bytes (le_bytes 4 (load_u32 m (bp + 4)) ++ junk) in
      mx_get_dynamic_fault_id fuel' m junk (load_u32 m bp) (edfi_hash df_id text)
  end.

(** *** Requests *)

(** Whatever a mx_request carries, the server acts on its command alone: requests with one command
    cannot be told apart, and one that needs a context makes the server read beyond its buffer. *)
Theorem minix_request_is_its_command {os} `{platform : Platform os} d context params junk (s : edfi * os) :
  0 <= cmd d < 4294967296 → ¬ (0 < params_size d ∧ context_size d <= 0) →
  mx_request d context params junk s
  = (if (cmd d =? EDFI_CTL_CMD_START) || (cmd d =? EDFI_CTL_CMD_STAT) || (cmd d =? EDFI_CTL_CMD_UPDATE)
     then halt Undefined
     else r ← edfi_process_cmd (cmd d) None; mret (Some (r, true))) s.
Proof.
  intros Hc Hsz. unfold mx_request, mx_ctl_client_send.
  assert ((0 <? params_size d) && (context_size d <=? 0) = false) as ->.
  { apply andb_false_iff. rewrite Z.ltb_ge, Z.leb_gt. lia. }
  unfold mx_ctl_process_request. change (mx_buff_size =? mx_buff_size) with true. cbn [negb].
  change (Z.to_nat mx_sizeof_size_t) with 4%nat.
  set (buff := mx_cmd_data_bytes d ++ _).
  assert (take 4 buff = le_bytes 4 (cmd d)) as E by reflexivity.
  rewrite E, take_ge by (by rewrite length_le_bytes). rewrite length_le_bytes. cbn [Nat.ltb Nat.leb].
  assert (cmd (mx_cmd_data_of_bytes (le_bytes 4 (cmd d) ++ drop 4 junk)) = cmd d) as Ec.
  { unfold mx_cmd_data_of_bytes, field. cbn [cmd]. rewrite drop_0, take_app_le, take_ge by (by rewrite length_le_bytes).
    rewrite le_decode_le_bytes. apply Z.mod_small. done. }
  rewrite bind_assoc. unfold CtlServer.edfi_ctl_process_request. rewrite Ec.
  destruct (Z.eqb_spec (cmd d) EDFI_CTL_CMD_STOP) as [->|H1]; [done|].
  destruct (Z.eqb_spec (cmd d) EDFI_CTL_CMD_TEST) as [->|H2]; [done|]. cbn [orb].
  by destruct ((cmd d =? EDFI_CTL_CMD_START) || (cmd d =? EDFI_CTL_CMD_STAT) || (cmd d =? EDFI_CTL_CMD_UPDATE)).
Qed.

(** *** Random numbers *)

Lemma mx_next_rand_mod i x :
  Nat.iter i mx_next_rand x mod 2 ^ Z.of_nat 31 = Nat.iter i lcg x mod 2 ^ Z.of_nat 31.
Proof.
  induction i as [|i IH]; [done|].
  change (Nat.iter (S i) mx_next_rand x) with (mx_next_rand (Nat.iter i mx_next_rand x)).
  change (Nat.iter (S i) lcg x) with (lcg (Nat.iter i lcg x)). unfold mx_next_rand at 1, u32, uwrap.
  rewrite Z.mod_mod_divide by (by exists 2). apply lcg_step_mod, IH.
Qed.

(** Of 2^31 numbers in a row, [k] are below the limit [k]: a limit that stands for the
    probability [k] / 2^15 injects with the probability [k] / 2^31. *)
Theorem minix_rate_too_low N x k :
  Z.of_nat N = 2 ^ 31 → 0 <= k <= 2 ^ 31 →
  ntrue ((λ i, mx_rand_of 2147483647 (Nat.iter i mx_next_rand x) <? k) <$> seq 0 N) = k.
Proof.
  intros HN Hk.
  transitivity (ntrue ((λ v, v <? k) <$> seqZ 0 (2 ^ Z.of_nat 31))); [|by apply ntrue_below].
  rewrite <- (residues_all 275878811 6172 31 N HN x), <- list_fmap_compose. f_equal.
  apply list_fmap_ext. intros _ i _. unfold compose, mx_rand_of.
  change (2147483647 + 1) with (2 ^ Z.of_nat 31). by rewrite mx_next_rand_mod.
Qed.

(** *** Frames *)

Lemma frame_word_range m a : (∀ x, 0 <= m x < 256) → 0 <= load_u32 m a < 4294967296.
Proof.
  intros H. unfold load_u32. cbn [load_bytes le_decode].
  pose proof (H a). pose proof (H (a + 1)). pose proof (H (a + 1 + 1)). pose proof (H (a + 1 + 1 + 1)). lia.
Qed.

(** Frames are only followed to higher addresses, so the printing ends. *)
Theorem stacktrace_ends fuel m bp :
  (∀ x, 0 <= m x < 256) → 0 <= bp < 4294967296 → 4294967296 - bp <= Z.of_nat fuel →
  is_Some (mx_print_stacktrace fuel m bp).
Proof.
  intros Hm. revert bp. induction fuel as [|fuel IH]; intros bp Hbp Hf; cbn [mx_print_stacktrace]; [lia|].
  destruct (Z.eqb_spec bp 0); [by eexists|].
  destruct (Z.eqb_spec (load_u32 m bp) 0) as [E|E]; cbn [negb andb].
  - rewrite E. destruct fuel; (eexists; reflexivity).
  - destruct (Z.leb_spec (load_u32 m bp) bp); [by eexists|].
    destruct (IH (load_u32 m bp)) as [l ->]; [by apply frame_word_range|lia|]. by eexists.
Qed.

(** The identifier of a fault follows the frames without that test, and a frame that links to
    itself is followed for ever. *)
Lemma fault_id_loops fuel m junk bp df_id :
  bp ≠ 0 → load_u32 m bp = bp → mx_get_dynamic_fault_id fuel m junk bp df_id = None.
Proof.
  intros H0 Hl. revert df_id. induction fuel as [|fuel IH]; intros df_id; cbn [mx_get_dynamic_fault_id];
    destruct (Z.eqb_spec bp 0); [done|done|done|]. rewrite Hl. apply IH.
Qed.

(** ** The Linux kernel *)

(** The calls the client makes; [pf_read] gives its result and the bytes stored. *)
Class ProcFile (os : Type) := {
  pf_open : cstr → os → Z * os;
  pf_write : Z → list Z → os → Z * os;
  pf_read : Z → Z → os → Z * list Z * os;
  pf_close : Z → os → Z * os;
}.

Definition EDFI_BUFSIZE : Z := 16384.

(** [atoi]: [strtol] in base ten, cut to an [int]. *)
Definition atoi (s : cstr) : Z :=
  let '(neg, s) := scan_sign (skip_spaces s) in
  let v := (scan_digits 10 0 s).1 in
  s32 (Z.max LONG_MIN (Z.min LONG_MAX (if neg : bool then - v else v))).

Section Client.
Context {os : Type} `{proc : ProcFile os}.

(** The state is the variable [fd] and the system. *)

(** [edfi_ctl_client_init]. *)
Definition lx_ctl_client_init (server_id : Z) : prog (Z * os) Z := λ '(fd, o),
  let '(r, o) := pf_open (take (UNIX_PATH_MAX - 1) (lit "/proc/edfi_ctl")) o in
  Ok (if r <? 0 then -1 else 0) (fd, o).

(** What [send_buf] is filled with, up to [next]; nothing bounds it. *)
Definition lx_message (d : edfi_cmd_data) (context params : list Z) : list Z :=
  cmd_bytes d ++ (if 0 <? context_size d then take (Z.to_nat (context_size d)) context else [])
    ++ (if 0 <? params_size d then take (Z.to_nat (params_size d)) params else []).

(** [edfi_ctl_client_send]: its result, and [errno] where it sets it. *)
Definition lx_ctl_client_send (d : edfi_cmd_data) (context params : list Z) : prog (Z * os) (Z * option Z) :=
  if (0 <? params_size d) && (context_size d <=? 0) then mret (-1, Some EINVAL) else
  let msg := lx_message d context params in
  if EDFI_BUFSIZE <? zlen msg then halt Undefined else λ '(fd, o),
  let '(r, o) := pf_write fd msg o in
  if r <? 0 then Ok (-1, None) (fd, o) else
  let '(r, bs, o) := pf_read fd EDFI_BUFSIZE o in
  if r <? 0 then Ok (-1, None) (fd, o) else
  let send_buf := bs ++ drop (length bs) msg in
  let ret := atoi (string_of_bytes (send_buf ++ [0])) in
  if ret <? 0 then Ok (-1, Some (s32 (- ret))) (fd, o) else Ok (0, None) (fd, o).

(** [edfi_ctl_client_close]. *)
Definition lx_ctl_client_close : prog (Z * os) Z := λ '(fd, o), let '(r, o) := pf_close fd o in Ok r (fd, o).

(** A session of the client: the results of its calls. *)
Definition lx_session (server_id : Z) (d : edfi_cmd_data) (context params : list Z) : prog (Z * os) (Z * option Z) :=
  r ← lx_ctl_client_init server_id;
  if r <? 0 then mret (r, None) else
  x ← lx_ctl_client_send d context params;
  _ ← lx_ctl_client_close;
  mret x.

(** The descriptor of the control file is lost: the variable keeps what it had, the program's
    standard input at the start, and a session that succeeds has written its request to that
    file, read the answer from it and closed it. *)
Theorem linux_client_loses_descriptor server_id d context params fd o w :
  lx_session server_id d context params (fd, o) = Ok (0, None) w →
  ∃ r o1 n o2 k bs o3, pf_open (lit "/proc/edfi_ctl") o = (r, o1) ∧ 0 <= r ∧
    pf_write fd (lx_message d context params) o1 = (n, o2) ∧ 0 <= n ∧
    pf_read fd EDFI_BUFSIZE o2 = (k, bs, o3) ∧ 0 <= k ∧ w = (fd, (pf_close fd o3).2).
Proof.
  unfold lx_session, lx_ctl_client_init. change (take (UNIX_PATH_MAX - 1) _) with (lit "/proc/edfi_ctl").
  unfold mbind, prog_bind, mret, prog_ret, lx_ctl_client_close, lx_ctl_client_send. cbv zeta.
  destruct (pf_open _ o) as [r o1]. destruct (Z.ltb_spec r 0); cbn [Z.ltb Z.compare]; [congruence|].
  destruct (_ && _); [cbn; destruct (pf_close fd o1); congruence|].
  destruct (_ <? _); [cbn; congruence|].
  destruct (pf_write fd _ o1) as [n o2] eqn:Ew. destruct (Z.ltb_spec n 0); [cbn; destruct (pf_close fd o2); congruence|].
  destruct (pf_read fd _ o2) as [[k bs] o3] eqn:Er.
  destruct (Z.ltb_spec k 0); [cbn; destruct (pf_close fd o3); congruence|]. intros HR.
  exists r, o1, n, o2, k, bs, o3. split_and!; [done..|].
  destruct (_ <? _); destruct (pf_close fd o3) as [c o4]; cbn in *; congruence.
Qed.

(** A request larger than the buffer is copied beyond its end. *)
Lemma linux_client_overflow d context params s :
  0 < context_size d → 0 < params_size d → context_size d <= zlen context → params_size d <= zlen params →
  EDFI_BUFSIZE < sizeof_cmd_data + context_size d + params_size d →
  lx_ctl_client_send d context params s = Stop Undefined s.
Proof.
  intros Hc Hp Lc Lp H. unfold lx_ctl_client_send.
  assert ((0 <? params_size d) && (context_size d <=? 0) = false) as -> by (apply andb_false_iff; right; lia).
  rewrite (proj2 (Z.ltb_lt _ _)); [done|]. unfold lx_message.
  rewrite (proj2 (Z.ltb_lt _ _)), (proj2 (Z.ltb_lt _ _)) by done.
  rewrite !length_app, length_cmd_bytes, !length_take. unfold sizeof_cmd_data in H. lia.
Qed.

End Client.
