(* ===== verification/Bitmap.v ===== *)
(** * Checkpointing with an epoch bitmap

    [ltckpt/mechanisms/bitmap]: the store, memcpy and top-of-the-loop hooks of
    [ltckpt_bitmap.c], the bitmap of [bitmap_plain_epoch.h] (the default on x86-64, without
    [LTCKPT_BITMAP_SYNCHRONIZE] and with [LTCKPT_SYNC_SCHEME]), the address arithmetic of
    [bitmap.h], the initialisation of [ltckpt_bitmap_init.c], and the statistics of
    [ltckpt_stat.c] the hooks add to.

    A byte of the bitmap stands for a region of 128 bytes and holds the epoch in which the
    region was last saved to the shadow space. *)
From stdpp Require Import base numbers list.
From Stdlib Require Import ZArith Lia.
From S2P Require Import Prelude Memory Ctx Common.

Definition LTCKPT_SHADOW_SPACE_SIZE : Z := 68719476736.
Definition LTCKPT_SHADOW_SPACE_OFFSET : Z := 137438953472.
Definition LTCKPT_SHADOW_SPACE_START : Z := LTCKPT_SHADOW_SPACE_OFFSET.
Definition LTCKPT_BITMAP_CLICK : Z := 128.
Definition LTCKPT_BITMAP_SIZE : Z := LTCKPT_SHADOW_SPACE_SIZE / LTCKPT_BITMAP_CLICK.
Definition LTCKPT_BITMAP_START : Z := 68719476736.
Definition LTCKPT_BITMAP_OFFSET : Z := LTCKPT_BITMAP_START.

Definition ltckpt_primary_to_shadow (a : Z) : Z :=
  Z.land a (LTCKPT_SHADOW_SPACE_SIZE - 1) + LTCKPT_SHADOW_SPACE_OFFSET.
Definition ltckpt_shadow_to_primary (a : Z) : Z := Z.land a (LTCKPT_SHADOW_SPACE_SIZE - 1).
Definition LTCKPT_ADDR_TO_BITMAP (x : Z) : Z :=
  Z.land x (LTCKPT_SHADOW_SPACE_SIZE - 1) / LTCKPT_BITMAP_CLICK + LTCKPT_BITMAP_OFFSET.
Definition ltckpt_addr_to_region (addr : Z) : Z := Z.land addr (Z.lnot (LTCKPT_BITMAP_CLICK - 1)).

(** The memory and the globals of the mechanism. *)
Record bm := mk_bm {
  bm_mem : mem;
  ltckpt_epoch : Z;  (** [uint8_t] *)
  first_time : Z;
  stats : list (Z * Z);  (** address and count, latest first *)
  bm_ctx : ltckpt_ctx;
}.

Definition set_bm_mem (v : mem) (s : bm) : bm :=
  mk_bm v (ltckpt_epoch s) (first_time s) (stats s) (bm_ctx s).
Definition set_ltckpt_epoch (v : Z) (s : bm) : bm :=
  mk_bm (bm_mem s) v (first_time s) (stats s) (bm_ctx s).
Definition set_first_time (v : Z) (s : bm) : bm :=
  mk_bm (bm_mem s) (ltckpt_epoch s) v (stats s) (bm_ctx s).
Definition set_stats (v : list (Z * Z)) (s : bm) : bm :=
  mk_bm (bm_mem s) (ltckpt_epoch s) (first_time s) v (bm_ctx s).
Definition set_bm_ctx (v : ltckpt_ctx) (s : bm) : bm :=
  mk_bm (bm_mem s) (ltckpt_epoch s) (first_time s) (stats s) v.

(** ** Statistics *)

Fixpoint ltckpt_stat_find (addr : Z) (l : list (Z * Z)) : option Z :=
  match l with
  | [] => None
  | (a, n) :: l' => if a =? addr then Some n else ltckpt_stat_find addr l'
  end.

(** [++stat->count] on the entry [ltckpt_stat_find] returns. *)
Fixpoint stat_incr (addr : Z) (l : list (Z * Z)) : list (Z * Z) :=
  match l with
  | [] => []
  | (a, n) :: l' => if a =? addr then (a, u32 (n + 1)) :: l' else (a, n) :: stat_incr addr l'
  end.

Definition ltckpt_stat_add (addr : Z) (l : list (Z * Z)) : list (Z * Z) :=
  match ltckpt_stat_find addr l with
  | None => (addr, 1) :: l
  | Some _ => stat_incr addr l
  end.

Definition ltckpt_stat_clear (l : list (Z * Z)) : list (Z * Z) := [].

(** ** The bitmap *)

(** [_ltckpt_save_sized_region]. *)
Definition _ltckpt_save_sized_region (address : Z) (s : bm) : bm :=
  let p := LTCKPT_ADDR_TO_BITMAP address in
  let old := bm_mem s p in
  if negb (old =? ltckpt_epoch s) then
    let region := Z.land address (Z.lnot (LTCKPT_BITMAP_CLICK - 1)) in
    let dst := ltckpt_primary_to_shadow region in
    let src := region in
    let m := store_bytes (bm_mem s) dst (load_bytes (bm_mem s) src (Z.to_nat LTCKPT_BITMAP_CLICK)) in
    set_bm_mem (upd m p (ltckpt_epoch s)) s
  else s.

Definition ltckpt_set_bit (a : Z) (s : bm) : bm :=
  if negb (ltckpt_epoch s =? bm_mem s (LTCKPT_ADDR_TO_BITMAP a))
  then _ltckpt_save_sized_region a s else s.

(** ** Hooks *)

Section Hooks.
Context {os : Type} `{vmem : VMem os}.

(** Whether statistics are compiled in. *)
Context (LTCKPT_CFG_STATS_ENABLED : bool).

Abbreviation P := (prog (bm * os)).

Definition stat_add (addr : Z) : bm → bm := λ s,
  if LTCKPT_CFG_STATS_ENABLED then set_stats (ltckpt_stat_add addr (stats s)) s else s.

(** The store hook with the sync scheme, checkpointing always on. *)
Definition bitmap_store_hook (addr : Z) (s : bm) : bm := ltckpt_set_bit addr (stat_add addr s).

Fixpoint bitmap_memcpy_loop (fuel : nat) (reg end_ : Z) (s : bm) : option bm :=
  if reg <? end_ then
    match fuel with
    | O => None
    | S fuel' =>
        bitmap_memcpy_loop fuel' (reg + LTCKPT_BITMAP_CLICK) end_
          (ltckpt_set_bit reg (stat_add reg s))
    end
  else Some s.

(** The memcpy hook; [None] if the fuel, one unit per region, runs out. *)
Definition bitmap_memcpy_hook (addr size : Z) (s : bm) : option bm :=
  bitmap_memcpy_loop (Z.to_nat (size / LTCKPT_BITMAP_CLICK + 2)) (ltckpt_addr_to_region addr)
    (addr + size) s.

Definition allocate (start size : Z) : P () := λ '(s, o),
  let flags := Z.lor (Z.lor LTCKPT_MAP_FIXED LTCKPT_MAP_PRIVATE) LTCKPT_MAP_NORESERVE in
  let '(ret, o) := ltckpt_mmap start size (Z.lor PROT_WRITE PROT_READ) flags o in
  if ret =? LTCKPT_MAP_FAILED then Stop Panic (s, o)
  else Ok () (set_bm_mem (zero_fill start size (bm_mem s)) s, o).

Definition ltckpt_allocate_bitmap : P () := allocate LTCKPT_BITMAP_START LTCKPT_BITMAP_SIZE.
Definition ltckpt_allocate_shadow_space : P () :=
  allocate LTCKPT_SHADOW_SPACE_START LTCKPT_SHADOW_SPACE_SIZE.

Definition put (f : bm → bm) : P () := modify (λ s, (f s.1, s.2)).

(** The top-of-the-loop hook with the sync scheme; clearing the bitmap is empty for an
    epoch bitmap, and dumping statistics changes nothing of this state. *)
Definition bitmap_top_of_the_loop : P () :=
  go ← gets (λ s, fst (CTX_NEW_TOL_OR_RETURN (bm_ctx s.1)));
  put (λ s, set_bm_ctx (snd (CTX_NEW_TOL_OR_RETURN (bm_ctx s))) s) ;;
  if negb go then skip else
  ft ← gets (λ s, first_time s.1);
  when (truthy ft)
    (ltckpt_allocate_bitmap ;; ltckpt_allocate_shadow_space ;; put (set_first_time 0)) ;;
  put (λ s, set_ltckpt_epoch (u8 (ltckpt_epoch s + 1)) s) ;;
  e ← gets (λ s, ltckpt_epoch s.1);
  when (e =? 0) (ltckpt_allocate_bitmap ;; put (set_ltckpt_epoch 1)) ;;
  put (λ s, set_bm_ctx (CTX_NEW_CHECKPOINT (bm_ctx s)) s).

Definition ltckpt_clean_space : P () := λ '(s, o),
  let '(_, o) := ltckpt_munmap LTCKPT_BITMAP_START (LTCKPT_BITMAP_SIZE + LTCKPT_SHADOW_SPACE_SIZE) o in
  Ok () (s, o).

(** [ltckpt_bitmap_late_init_hook] outside a restart. *)
Definition ltckpt_bitmap_late_init_hook : P () :=
  ltckpt_clean_space ;; ltckpt_allocate_bitmap ;; ltckpt_allocate_shadow_space.

End Hooks.

(** ** Address arithmetic *)

Lemma land_shadow a : Z.land a (LTCKPT_SHADOW_SPACE_SIZE - 1) = a mod 68719476736.
Proof. change (LTCKPT_SHADOW_SPACE_SIZE - 1) with (Z.ones 36). by rewrite Z.land_ones. Qed.

Lemma region_eq a : ltckpt_addr_to_region a = a - a mod 128.
Proof. apply (land_lnot_ones a 7). lia. Qed.

Lemma bitmap_eq a : LTCKPT_ADDR_TO_BITMAP a = a mod 68719476736 / 128 + 68719476736.
Proof. unfold LTCKPT_ADDR_TO_BITMAP. by rewrite land_shadow. Qed.

Lemma shadow_eq a : ltckpt_primary_to_shadow a = a mod 68719476736 + 137438953472.
Proof. unfold ltckpt_primary_to_shadow. by rewrite land_shadow. Qed.

(** A region is shadowed as a block. *)
Lemma shadow_region a :
  ltckpt_primary_to_shadow (ltckpt_addr_to_region a) = ltckpt_primary_to_shadow a - a mod 128.
Proof.
  rewrite !shadow_eq, region_eq.
  assert (a mod 68719476736 mod 128 = a mod 128) as Hm
    by (symmetry; apply Znumtheory.Zmod_div_mod; [lia..|]; by exists 536870912).
  pose proof (Z.mod_pos_bound a 68719476736). pose proof (Z.mod_pos_bound a 128).
  pose proof (Z.mod_le (a mod 68719476736) 128 ltac:(lia) ltac:(lia)).
  rewrite <- (Z.mod_unique (a - a mod 128) 68719476736 (a / 68719476736)
    (a mod 68719476736 - a mod 128)); [lia|lia|].
  pose proof (Z.div_mod a 68719476736). lia.
Qed.

Lemma shadow_offset a : ltckpt_primary_to_shadow a mod 128 = a mod 128.
Proof.
  rewrite shadow_eq. change 137438953472 with (1073741824 * 128). rewrite Z.mod_add by done.
  symmetry. apply Znumtheory.Zmod_div_mod; [lia..|]. by exists 536870912.
Qed.

Lemma bitmap_of_shadow a :
  LTCKPT_ADDR_TO_BITMAP a = (ltckpt_primary_to_shadow a - 137438953472) / 128 + 68719476736.
Proof. rewrite bitmap_eq, shadow_eq. by rewrite Z.add_simpl_r. Qed.

Lemma area_bounds a :
  68719476736 <= LTCKPT_ADDR_TO_BITMAP a < 69256347648 ∧
  137438953472 <= ltckpt_primary_to_shadow a < 206158430208.
Proof.
  rewrite bitmap_eq, shadow_eq. pose proof (Z.mod_pos_bound a 68719476736 ltac:(lia)).
  pose proof (Z.div_pos (a mod 68719476736) 128 ltac:(lia) ltac:(lia)).
  pose proof (Z.div_lt_upper_bound (a mod 68719476736) 128 536870912 ltac:(lia) ltac:(lia)). lia.
Qed.

(** ** The program's memory *)

(** The addresses the program stores to: whole regions, outside the bitmap and the shadow
    space, no two of them sharing a byte of the bitmap. *)
Record primary_space (Pr : Z → Prop) : Prop := {
  pr_region : ∀ x y, Pr x → x / 128 = y / 128 → Pr y;
  pr_bitmap : ∀ x, Pr x → ¬ (68719476736 <= x < 69256347648);
  pr_shadow : ∀ x, Pr x → ¬ (137438953472 <= x < 206158430208);
  pr_noalias : ∀ x y, Pr x → Pr y → LTCKPT_ADDR_TO_BITMAP x = LTCKPT_ADDR_TO_BITMAP y →
    x / 128 = y / 128;
}.

(** A region has been saved in the current epoch. *)
Definition saved (s : bm) (x : Z) : Prop := bm_mem s (LTCKPT_ADDR_TO_BITMAP x) = ltckpt_epoch s.

#[export] Instance saved_dec s x : Decision (saved s x).
Proof. unfold saved. apply _. Defined.

(** The checkpoint the mechanism holds: the shadow of saved regions, and memory elsewhere. *)
Definition checkpoint (s : bm) : mem :=
  λ x, if decide (saved s x) then bm_mem s (ltckpt_primary_to_shadow x) else bm_mem s x.

(** What the hooks keep of the state besides memory. *)
Definition same_globals (s s' : bm) : Prop :=
  ltckpt_epoch s' = ltckpt_epoch s ∧ first_time s' = first_time s ∧ bm_ctx s' = bm_ctx s.

Section Window.
Context {Pr : Z → Prop} (Hpr : primary_space Pr).

Lemma same_region_offset x y : x / 128 = y / 128 → x - x mod 128 = y - y mod 128.
Proof. intros H. pose proof (Z.div_mod x 128). pose proof (Z.div_mod y 128). lia. Qed.

Lemma bitmap_same_region x y :
  Pr x → x / 128 = y / 128 → LTCKPT_ADDR_TO_BITMAP x = LTCKPT_ADDR_TO_BITMAP y.
Proof.
  intros _ H. apply same_region_offset in H as Ho. rewrite !bitmap_of_shadow. f_equal.
  assert (∀ z, (ltckpt_primary_to_shadow z - 137438953472) / 128 =
    (ltckpt_primary_to_shadow (z - z mod 128) - 137438953472) / 128) as Hz.
  { intros z. rewrite <- region_eq, shadow_region. rewrite <- (shadow_offset z).
    set (w := ltckpt_primary_to_shadow z). change 137438953472 with (1073741824 * 128).
    replace (w - 1073741824 * 128) with (w + (-1073741824) * 128) by lia.
    replace (w - w mod 128 - 1073741824 * 128) with (w - w mod 128 + (-1073741824) * 128) by lia.
    rewrite !Z.div_add by lia. f_equal. pose proof (Z.div_mod w 128 ltac:(lia)).
    replace (w - w mod 128) with (w / 128 * 128) by lia. by rewrite Z.div_mul. }
  by rewrite (Hz x), (Hz y), Ho.
Qed.

(** Memory after the region of [a] is copied to its shadow and marked. *)
Definition save_mem (a : Z) (s : bm) : mem :=
  upd (store_bytes (bm_mem s) (ltckpt_primary_to_shadow a - a mod 128)
         (load_bytes (bm_mem s) (a - a mod 128) 128)) (LTCKPT_ADDR_TO_BITMAP a) (ltckpt_epoch s).

Lemma set_bit_cases a s :
  (saved s a ∧ ltckpt_set_bit a s = s) ∨
  (¬ saved s a ∧ ltckpt_set_bit a s = set_bm_mem (save_mem a s) s).
Proof.
  unfold ltckpt_set_bit, _ltckpt_save_sized_region, saved.
  destruct (Z.eqb_spec (ltckpt_epoch s) (bm_mem s (LTCKPT_ADDR_TO_BITMAP a))) as [E|E].
  { by left. }
  right. split; [congruence|].
  rewrite (proj2 (Z.eqb_neq (bm_mem s (LTCKPT_ADDR_TO_BITMAP a)) _)) by congruence.
  cbn [negb]. fold (ltckpt_addr_to_region a). by rewrite shadow_region, region_eq.
Qed.

(** The shadow of a region lies inside the shadow area. *)
Lemma shadow_block_bounds a :
  137438953472 <= ltckpt_primary_to_shadow a - a mod 128 ∧
  ltckpt_primary_to_shadow a - a mod 128 + 128 <= 206158430208.
Proof.
  pose proof (Z.mod_pos_bound a 128 ltac:(lia)). pose proof (area_bounds a) as [_ Hsa].
  pose proof (shadow_offset a). split.
  - rewrite <- shadow_region. apply area_bounds.
  - pose proof (Z.div_mod (ltckpt_primary_to_shadow a) 128 ltac:(lia)). lia.
Qed.

Lemma save_mem_out a s y :
  y ≠ LTCKPT_ADDR_TO_BITMAP a → ¬ in_block (ltckpt_primary_to_shadow a - a mod 128) 128 y →
  save_mem a s y = bm_mem s y.
Proof.
  intros Hy Hb. unfold save_mem. rewrite upd_ne by done. apply store_bytes_out.
  by rewrite length_load_bytes.
Qed.

Lemma save_mem_bitmap a s x :
  save_mem a s (LTCKPT_ADDR_TO_BITMAP x) =
  if decide (LTCKPT_ADDR_TO_BITMAP x = LTCKPT_ADDR_TO_BITMAP a) then ltckpt_epoch s
  else bm_mem s (LTCKPT_ADDR_TO_BITMAP x).
Proof.
  case_decide as Hx; [unfold save_mem; by rewrite Hx, upd_eq|].
  apply save_mem_out; [done|]. unfold in_block. pose proof (area_bounds x).
  pose proof (shadow_block_bounds a). lia.
Qed.

Lemma save_mem_primary a s x : Pr x → save_mem a s x = bm_mem s x.
Proof.
  intros Hx. pose proof (pr_bitmap _ Hpr x Hx). pose proof (pr_shadow _ Hpr x Hx).
  pose proof (area_bounds a). pose proof (shadow_block_bounds a).
  apply save_mem_out; [lia|]. unfold in_block. lia.
Qed.

(** The shadow of a byte of the region holds its content. *)
Lemma save_mem_shadow a s x :
  x / 128 = a / 128 → save_mem a s (ltckpt_primary_to_shadow x) = bm_mem s x.
Proof.
  intros Ho%same_region_offset.
  pose proof (shadow_region x) as Hrx. pose proof (shadow_region a) as Hra.
  rewrite !region_eq in Hrx, Hra. rewrite Ho in Hrx.
  pose proof (Z.mod_pos_bound x 128 ltac:(lia)). pose proof (area_bounds x) as [_ ?].
  pose proof (area_bounds a) as [? _]. pose proof (shadow_block_bounds a).
  unfold save_mem. rewrite upd_ne by lia.
  rewrite store_bytes_in by (unfold in_block; rewrite length_load_bytes; change (Z.of_nat 128) with 128; lia).
  rewrite nth_load_bytes by lia. f_equal. lia.
Qed.

(** Regions whose shadow overlaps share a mark. *)
Lemma shadow_block_mark a x :
  in_block (ltckpt_primary_to_shadow a - a mod 128) 128 (ltckpt_primary_to_shadow x) →
  LTCKPT_ADDR_TO_BITMAP x = LTCKPT_ADDR_TO_BITMAP a.
Proof.
  unfold in_block. intros Hin. rewrite !bitmap_of_shadow. f_equal.
  pose proof (shadow_offset a) as Hoff.
  set (w := ltckpt_primary_to_shadow x) in *. set (v := ltckpt_primary_to_shadow a) in *.
  symmetry. apply (Z.div_unique _ _ _ (w - (v - a mod 128))); [lia|].
  pose proof (Z.div_mod (v - 137438953472) 128 ltac:(lia)).
  assert ((v - 137438953472) mod 128 = a mod 128); [|lia].
  rewrite <- Hoff. replace v with (v - 137438953472 + 1073741824 * 128) at 2 by lia.
  by rewrite Z.mod_add.
Qed.

Lemma save_mem_saved a s x :
  saved (set_bm_mem (save_mem a s) s) x ↔
  LTCKPT_ADDR_TO_BITMAP x = LTCKPT_ADDR_TO_BITMAP a ∨ saved s x.
Proof.
  unfold saved. cbn [bm_mem ltckpt_epoch set_bm_mem]. rewrite save_mem_bitmap.
  destruct (decide _); tauto.
Qed.

Lemma save_mem_checkpoint a s x :
  Pr a → Pr x → ¬ saved s a → checkpoint (set_bm_mem (save_mem a s) s) x = checkpoint s x.
Proof.
  intros Ha Hx Hs. unfold checkpoint. cbn [bm_mem set_bm_mem]. rewrite (save_mem_primary a s x) by done.
  destruct (decide (LTCKPT_ADDR_TO_BITMAP x = LTCKPT_ADDR_TO_BITMAP a)) as [Hxa|Hxa].
  - rewrite decide_True by (apply save_mem_saved; by left).
    rewrite decide_False by (unfold saved in *; by rewrite Hxa).
    apply save_mem_shadow. by apply (pr_noalias _ Hpr).
  - rewrite (decide_ext (saved (set_bm_mem (save_mem a s) s) x) (saved s x))
      by (rewrite save_mem_saved; tauto).
    case_decide; [|done]. apply save_mem_out.
    + pose proof (area_bounds x). pose proof (area_bounds a). lia.
    + by intros ?%shadow_block_mark.
Qed.

(** The effect of saving the region of [a] on a byte of the program. *)
Lemma set_bit_spec a s :
  Pr a →
  let s' := ltckpt_set_bit a s in
  same_globals s s' ∧ saved s' a ∧
  (∀ x, Pr x → bm_mem s' x = bm_mem s x) ∧
  (∀ x, Pr x → saved s x → saved s' x) ∧
  (∀ x, saved s' x ∨ bm_mem s' (LTCKPT_ADDR_TO_BITMAP x) = bm_mem s (LTCKPT_ADDR_TO_BITMAP x)) ∧
  (∀ x, Pr x → checkpoint s' x = checkpoint s x).
Proof.
  intros Ha. destruct (set_bit_cases a s) as [[Hs ->]|[Hs ->]]; cbv zeta.
  { split_and!; auto; done. }
  split_and!.
  - done.
  - apply save_mem_saved. by left.
  - intros x Hx. by apply save_mem_primary.
  - intros x _ Hx. apply save_mem_saved. by right.
  - intros x. destruct (decide (LTCKPT_ADDR_TO_BITMAP x = LTCKPT_ADDR_TO_BITMAP a)) as [Hx|Hx].
    + left. apply save_mem_saved. by left.
    + right. cbn [bm_mem set_bm_mem]. by rewrite save_mem_bitmap, decide_False.
  - intros x Hx. by apply save_mem_checkpoint.
Qed.

(** What a sequence of hooks does: as [set_bit_spec], for a set of saved addresses. *)
Definition hooked (Q : Z → Prop) (s s' : bm) : Prop :=
  same_globals s s' ∧ (∀ x, Q x → saved s' x) ∧
  (∀ x, Pr x → bm_mem s' x = bm_mem s x) ∧
  (∀ x, Pr x → saved s x → saved s' x) ∧
  (∀ x, saved s' x ∨ bm_mem s' (LTCKPT_ADDR_TO_BITMAP x) = bm_mem s (LTCKPT_ADDR_TO_BITMAP x)) ∧
  (∀ x, Pr x → checkpoint s' x = checkpoint s x).

Lemma hooked_refl (Q : Z → Prop) s : (∀ x, ¬ Q x) → hooked Q s s.
Proof. intros HQ. split_and!; auto; [done|]. intros x Hx. by destruct (HQ x). Qed.

Lemma hooked_trans Q R s1 s2 s3 :
  (∀ x, Q x → Pr x) → hooked Q s1 s2 → hooked R s2 s3 → hooked (λ x, Q x ∨ R x) s1 s3.
Proof.
  intros HQ ((E1 & F1 & C1) & S1 & M1 & K1 & B1 & V1)
    ((E2 & F2 & C2) & S2 & M2 & K2 & B2 & V2).
  split_and!; [by split_and!; etrans| | | | |].
  - intros x [Hx|Hx]; auto.
  - intros x Hx. by rewrite M2, M1.
  - auto.
  - intros x. destruct (B2 x) as [?|H2]; [by left|]. destruct (B1 x) as [H1|H1]; [left|right].
    + unfold saved in *. congruence.
    + congruence.
  - intros x Hx. by rewrite V2, V1.
Qed.

Lemma set_bit_hooked stats_on a s :
  Pr a → hooked (λ x, x / 128 = a / 128) s (ltckpt_set_bit a (stat_add stats_on a s)).
Proof.
  intros Ha. set (s1 := stat_add stats_on a s).
  assert (bm_mem s1 = bm_mem s ∧ same_globals s s1) as [Hm Hg]
    by (unfold s1, stat_add; by destruct stats_on).
  assert (∀ x, saved s1 x ↔ saved s x) as Hsv
    by (intros x; unfold saved; rewrite Hm; by destruct Hg as [-> _]).
  assert (∀ x, checkpoint s1 x = checkpoint s x) as Hck.
  { intros x. unfold checkpoint. rewrite (decide_ext (saved s1 x) (saved s x)) by done.
    by rewrite Hm. }
  destruct (set_bit_spec a s1 Ha) as (G & S1 & M & K & B & V). split_and!.
  - destruct G as (? & ? & ?), Hg as (? & ? & ?). split_and!; congruence.
  - intros x Hx. unfold saved in *. by rewrite (bitmap_same_region x a) by
      (try done; by apply (pr_region _ Hpr a x)).
  - intros x Hx. by rewrite M, Hm.
  - intros x Hx Hs. by apply K, Hsv.
  - intros x. rewrite <- Hm. apply B.
  - intros x Hx. by rewrite V, Hck.
Qed.

(** The memcpy hook returns, having saved every region the copy touches. *)
Lemma memcpy_loop_hooked stats_on fuel reg end_ s :
  reg mod 128 = 0 → (∀ x, reg <= x < end_ → Pr x) → end_ - reg <= 128 * Z.of_nat fuel →
  ∃ s', bitmap_memcpy_loop stats_on fuel reg end_ s = Some s' ∧
    hooked (λ x, reg <= x < end_) s s'.
Proof.
  revert reg s. induction fuel as [|fuel IH]; intros reg s Hal Hin Hf; cbn [bitmap_memcpy_loop];
    destruct (Z.ltb_spec reg end_) as [Hlt|Hge].
  - lia.
  - exists s. split; [done|]. apply hooked_refl. lia.
  - destruct (IH (reg + 128) (ltckpt_set_bit reg (stat_add stats_on reg s))) as (s' & Hrun & Hh).
    + change 128 with (1 * 128) at 1. by rewrite Z.mod_add.
    + intros x Hx. apply Hin. lia.
    + lia.
    + exists s'. split; [done|].
      pose proof (set_bit_hooked stats_on reg s (Hin reg ltac:(lia))) as Hs.
      pose proof (hooked_trans _ _ _ _ _
        (λ x Hx, pr_region _ Hpr reg x (Hin reg ltac:(lia)) (eq_sym Hx)) Hs Hh) as Ht.
      destruct Ht as (G & S1 & Hrest). split_and!; [done| |apply Hrest..].
      intros x Hx. apply S1. destruct (decide (x < reg + 128)); [left|right; lia].
      rewrite (Z.div_unique x 128 (reg / 128) (x - reg)); [done|lia|].
      pose proof (Z.div_mod reg 128). lia.
  - exists s. split; [done|]. apply hooked_refl. lia.
Qed.

Lemma memcpy_hook_hooked stats_on addr size s :
  0 <= size → Pr addr → (∀ x, addr <= x < addr + size → Pr x) →
  ∃ s', bitmap_memcpy_hook stats_on addr size s = Some s' ∧
    hooked (λ x, addr <= x < addr + size) s s'.
Proof.
  intros Hsz Ha Hin. unfold bitmap_memcpy_hook. rewrite region_eq.
  pose proof (Z.mod_pos_bound addr 128 ltac:(lia)).
  pose proof (Z.div_mod addr 128 ltac:(lia)) as Hdm.
  destruct (memcpy_loop_hooked stats_on (Z.to_nat (size / LTCKPT_BITMAP_CLICK + 2))
    (addr - addr mod 128) (addr + size) s) as (s' & Hrun & Hh).
  - replace (addr - addr mod 128) with (addr / 128 * 128) by lia. by rewrite Z.mod_mul.
  - intros x Hx. destruct (decide (addr <= x)); [apply Hin; lia|].
    apply (pr_region _ Hpr addr); [done|].
    rewrite (Z.div_unique x 128 (addr / 128) (x - (addr - addr mod 128))); [done|lia|lia].
  - unfold LTCKPT_BITMAP_CLICK. pose proof (Z.div_mod size 128 ltac:(lia)).
    pose proof (Z.mod_pos_bound size 128 ltac:(lia)). pose proof (Z.div_pos size 128). lia.
  - exists s'. split; [done|]. destruct Hh as (G & S1 & Hrest). split_and!; [done| |apply Hrest..].
    intros x Hx. apply S1. lia.
Qed.

(** A write of the program to saved regions keeps the checkpoint. *)
Lemma write_keeps_checkpoint a bs s :
  (∀ x, in_block a (zlen bs) x → Pr x ∧ saved s x) →
  let s' := set_bm_mem (store_bytes (bm_mem s) a bs) s in
  (∀ x, Pr x → checkpoint s' x = checkpoint s x) ∧ (∀ x, saved s' x ↔ saved s x).
Proof.
  intros Hin s'.
  assert (∀ y, ¬ Pr y → bm_mem s' y = bm_mem s y) as Hout.
  { intros y Hy. apply store_bytes_out. intros Hb. by apply Hy, Hin. }
  assert (∀ y, 68719476736 <= y < 69256347648 ∨ 137438953472 <= y < 206158430208 → ¬ Pr y) as Hnp.
  { intros y [Hy|Hy] Hp; [by apply (pr_bitmap _ Hpr y)|by apply (pr_shadow _ Hpr y)]. }
  assert (∀ x, saved s' x ↔ saved s x) as Hsv.
  { intros x. unfold saved. rewrite Hout; [done|]. apply Hnp. left. apply area_bounds. }
  split; [|done]. intros x Hx. unfold checkpoint.
  rewrite (decide_ext (saved s' x) (saved s x)) by done. case_decide as Hs.
  - apply Hout, Hnp. right. apply area_bounds.
  - apply store_bytes_out. intros Hb. by apply Hs, Hin.
Qed.
End Window.

(** ** Windows *)

(** A step of the instrumented program: a store within a region, or a copy. *)
Inductive bm_op :=
  | BStore (a : Z) (bs : list Z)
  | BMemcpy (a : Z) (bs : list Z).

Definition bm_write (a : Z) (bs : list Z) (s : bm) : bm :=
  set_bm_mem (store_bytes (bm_mem s) a bs) s.

Definition bm_step (stats_on : bool) (s : bm) (op : bm_op) : option bm :=
  match op with
  | BStore a bs => Some (bm_write a bs (bitmap_store_hook stats_on a s))
  | BMemcpy a bs => bm_write a bs <$> bitmap_memcpy_hook stats_on a (zlen bs) s
  end.

Fixpoint bm_run (stats_on : bool) (ops : list bm_op) (s : bm) : option bm :=
  match ops with
  | [] => Some s
  | op :: ops' => s' ← bm_step stats_on s op; bm_run stats_on ops' s'
  end.

(** The same writes without checkpointing. *)
Definition plain_run (ops : list bm_op) (m : mem) : mem :=
  foldl (λ m op, match op with BStore a bs | BMemcpy a bs => store_bytes m a bs end) m ops.

Section Windows.
Context {Pr : Z → Prop} (Hpr : primary_space Pr) (stats_on : bool).

(** The program writes to its own memory; a store stays within one region. *)
Definition bm_op_ok (op : bm_op) : Prop :=
  match op with
  | BStore a bs => Pr a ∧ ∀ x, in_block a (zlen bs) x → x / 128 = a / 128
  | BMemcpy a bs => Pr a ∧ ∀ x, in_block a (zlen bs) x → Pr x
  end.

(** What a part of a window does, for a change [f] of the program's memory. *)
Definition in_window (f : mem → mem) (s s' : bm) : Prop :=
  same_globals s s' ∧ (∀ x, Pr x → checkpoint s' x = checkpoint s x) ∧
  mem_agree Pr (bm_mem s') (f (bm_mem s)) ∧
  (∀ x, saved s' x ∨ bm_mem s' (LTCKPT_ADDR_TO_BITMAP x) = bm_mem s (LTCKPT_ADDR_TO_BITMAP x)).

Lemma write_in_window Q a bs s s1 :
  hooked (Pr := Pr) Q s s1 → (∀ x, in_block a (zlen bs) x → Pr x ∧ Q x) →
  in_window (λ m, store_bytes m a bs) s (bm_write a bs s1).
Proof.
  intros ((E & F & C) & S1 & M & K & B & V) Hin.
  destruct (write_keeps_checkpoint Hpr a bs s1) as [Hc Hs].
  { intros x Hx. destruct (Hin x Hx). auto. }
  split_and!.
  - done.
  - intros x Hx. unfold bm_write. by rewrite Hc, V.
  - intros x Hx. unfold bm_write. cbn [bm_mem set_bm_mem].
    apply (store_bytes_agree Pr); [|done]. intros y [Hy _]. by apply M.
  - intros x. destruct (B x) as [Hb|Hb]; [left; by apply Hs|right].
    rewrite <- Hb. unfold bm_write. cbn [bm_mem set_bm_mem]. apply store_bytes_out.
    intros Hx. destruct (Hin _ Hx) as [Hp _]. apply (pr_bitmap _ Hpr _ Hp), area_bounds.
Qed.

Lemma bm_step_spec s op :
  bm_op_ok op → ∃ s', bm_step stats_on s op = Some s' ∧ in_window (plain_run [op]) s s'.
Proof.
  destruct op as [a bs|a bs]; intros [Ha Hin]; cbn [bm_step].
  - eexists. split; [done|].
    apply (write_in_window _ a bs s _ (set_bit_hooked Hpr stats_on a s Ha)).
    intros x Hx. specialize (Hin x Hx). split; [|done]. by apply (pr_region _ Hpr a).
  - destruct (memcpy_hook_hooked Hpr stats_on a (zlen bs) s) as (s1 & -> & Hh); [lia|done|done|].
    eexists. split; [done|]. apply (write_in_window _ a bs s s1 Hh).
    intros x Hx. split; [by apply Hin|done].
Qed.

Lemma plain_run_agree ops m1 m2 :
  mem_agree Pr m1 m2 → mem_agree Pr (plain_run ops m1) (plain_run ops m2).
Proof.
  revert m1 m2. induction ops as [|op ops IH]; intros m1 m2 H; [done|]. cbn [plain_run foldl].
  apply IH. destruct op; apply store_bytes_agree; intros x [Hx _]; by apply H.
Qed.

Lemma bm_run_spec ops s :
  Forall bm_op_ok ops →
  ∃ s', bm_run stats_on ops s = Some s' ∧ in_window (plain_run ops) s s'.
Proof.
  intros Hok. revert s. induction Hok as [|op ops Hop _ IH]; intros s.
  { exists s. split; [done|]. split_and!; auto; done. }
  destruct (bm_step_spec s op Hop) as (s1 & H1 & (E1 & F1 & C1) & V1 & M1 & B1).
  destruct (IH s1) as (s2 & H2 & (E2 & F2 & C2) & V2 & M2 & B2).
  exists s2. cbn [bm_run]. rewrite H1. cbn. split; [done|]. split_and!.
  - split_and!; etrans; done.
  - intros x Hx. by rewrite V2, V1.
  - intros x Hx. rewrite M2 by done.
    change (plain_run (op :: ops) (bm_mem s)) with (plain_run ops (plain_run [op] (bm_mem s))).
    by apply plain_run_agree.
  - intros x. destruct (B2 x) as [?|Hb]; [by left|]. destruct (B1 x) as [Hb1|Hb1]; [left|right].
    + unfold saved in *. congruence.
    + congruence.
Qed.

(** Between windows: the epoch is a byte other than 0 and no region is marked with a later
    one. *)
Definition epoch_inv (s : bm) : Prop :=
  1 <= ltckpt_epoch s <= 255 ∧
  ∀ x, Pr x → 0 <= bm_mem s (LTCKPT_ADDR_TO_BITMAP x) <= ltckpt_epoch s.

Lemma zero_fill_bitmap m x :
  zero_fill LTCKPT_BITMAP_START LTCKPT_BITMAP_SIZE m (LTCKPT_ADDR_TO_BITMAP x) = 0.
Proof.
  unfold zero_fill. pose proof (area_bounds x) as [H _].
  change LTCKPT_BITMAP_START with 68719476736. change LTCKPT_BITMAP_SIZE with 536870912.
  by rewrite (proj2 (Z.leb_le _ _)), (proj2 (Z.ltb_lt _ _)) by lia.
Qed.

Lemma zero_fill_primary start size m x :
  (start = LTCKPT_BITMAP_START ∧ size = LTCKPT_BITMAP_SIZE ∨
   start = LTCKPT_SHADOW_SPACE_START ∧ size = LTCKPT_SHADOW_SPACE_SIZE) →
  Pr x → zero_fill start size m x = m x.
Proof.
  intros Ha Hx. unfold zero_fill.
  pose proof (pr_bitmap _ Hpr x Hx) as Hb. pose proof (pr_shadow _ Hpr x Hx) as Hs.
  destruct (Z.leb_spec start x), (Z.ltb_spec x (start + size)); try done. exfalso.
  destruct Ha as [[-> ->]|[-> ->]]; [apply Hb|apply Hs].
  - change LTCKPT_BITMAP_START with 68719476736 in *.
    change LTCKPT_BITMAP_SIZE with 536870912 in *. lia.
  - change LTCKPT_SHADOW_SPACE_START with 137438953472 in *.
    change LTCKPT_SHADOW_SPACE_SIZE with 68719476736 in *. lia.
Qed.
End Windows.

Section Checkpoints.
Context {os : Type} `{vmem : VMem os} {Pr : Z → Prop} (Hpr : primary_space Pr) (stats_on : bool).

(** The system grants the mappings. *)
Context (grants : ∀ a n p f (o : os), fst (mmap a n p f o) ≠ MAP_FAILED).

Lemma allocate_run start size s (o : os) :
  ∃ o', allocate start size (s, o) = Ok () (set_bm_mem (zero_fill start size (bm_mem s)) s, o').
Proof.
  unfold allocate, ltckpt_mmap. pose proof (grants start size) as G.
  match goal with |- context [mmap start size ?p ?f o] =>
    specialize (G p f o); destruct (mmap start size p f o) as [r o1] end.
  change (r ≠ MAP_FAILED) in G. exists o1. rewrite (proj2 (Z.eqb_neq r MAP_FAILED)) by done.
  by rewrite (proj2 (Z.eqb_neq r LTCKPT_MAP_FAILED)) by done.
Qed.

Lemma bind_put {A} f (k : () → prog (bm * os) A) s o : (put f ≫= k) (s, o) = k () (f s, o).
Proof. done. Qed.

(** The allocations of the first top of the loop. *)
Lemma first_alloc_run s (o : os) :
  epoch_inv (Pr := Pr) s →
  ∃ s' o', when (truthy (first_time s)) (ltckpt_allocate_bitmap ;; ltckpt_allocate_shadow_space ;;
      put (set_first_time 0)) (s, o) = Ok () (s', o') ∧
    epoch_inv (Pr := Pr) s' ∧ mem_agree Pr (bm_mem s') (bm_mem s) ∧
    ltckpt_epoch s' = ltckpt_epoch s ∧ bm_ctx s' = bm_ctx s.
Proof.
  intros Hi. destruct (truthy (first_time s)); cbn [when]; [|by exists s, o].
  destruct (allocate_run LTCKPT_BITMAP_START LTCKPT_BITMAP_SIZE s o) as (o1 & H1).
  rewrite (bind_Ok _ _ _ _ _ H1).
  destruct (allocate_run LTCKPT_SHADOW_SPACE_START LTCKPT_SHADOW_SPACE_SIZE
    (set_bm_mem (zero_fill LTCKPT_BITMAP_START LTCKPT_BITMAP_SIZE (bm_mem s)) s) o1) as (o2 & H2).
  rewrite (bind_Ok _ _ _ _ _ H2). eexists _, _. split; [reflexivity|].
  destruct Hi as [He Hb]. cbn -[zero_fill]. split_and!; [| |done|done].
  2:{ intros x Hx. by rewrite !(zero_fill_primary Hpr) by tauto. }
  split; [done|]. intros x Hx. cbn -[zero_fill].
  match goal with |- 0 <= ?z <= _ => assert (z = 0) as ->; [|lia] end.
  unfold zero_fill at 1. case_match; [done|]. apply zero_fill_bitmap.
Qed.

Lemma tol_run s (o : os) :
  epoch_inv (Pr := Pr) s → tol_returns (bm_ctx s) = false →
  ∃ s' o', bitmap_top_of_the_loop (s, o) = Ok () (s', o') ∧ epoch_inv (Pr := Pr) s' ∧
    (∀ x, Pr x → ¬ saved s' x) ∧ mem_agree Pr (bm_mem s') (bm_mem s).
Proof.
  intros Hi Ht. unfold bitmap_top_of_the_loop. rewrite bind_gets. cbn [fst].
  unfold CTX_NEW_TOL_OR_RETURN at 1. rewrite Ht. cbn [fst negb].
  rewrite bind_put, bind_gets. cbn [fst snd].
  set (s0 := set_bm_ctx _ s). change (first_time s) with (first_time s0).
  assert (epoch_inv (Pr := Pr) s0) as Hi0 by exact Hi.
  destruct (first_alloc_run s0 o Hi0) as (s1 & o1 & H1 & [He1 Hb1] & M1 & E1 & _).
  change (first_time (set_bm_ctx (CTX_NEW_TOL_OR_RETURN (bm_ctx s)).2 s)) with (first_time s0).
  rewrite (bind_Ok _ _ _ _ _ H1). rewrite bind_put, bind_gets. cbn [fst].
  destruct (decide (ltckpt_epoch s1 = 255)) as [H255|H255].
  - cbn -[bitmap_top_of_the_loop ltckpt_allocate_bitmap u8]. rewrite H255.
    change (u8 (255 + 1) =? 0) with true. cbn [when].
    destruct (allocate_run LTCKPT_BITMAP_START LTCKPT_BITMAP_SIZE
      (set_ltckpt_epoch (u8 (255 + 1)) s1) o1) as (o2 & H2).
    rewrite bind_assoc. unfold ltckpt_allocate_bitmap. rewrite (bind_Ok _ _ _ _ _ H2).
    eexists _, _. split; [reflexivity|]. cbn -[zero_fill]. split_and!.
    + split; cbn -[zero_fill]; [lia|]. intros x Hx. rewrite zero_fill_bitmap. lia.
    + intros x Hx. unfold saved. cbn -[zero_fill]. rewrite zero_fill_bitmap. lia.
    + intros x Hx. rewrite (zero_fill_primary Hpr) by tauto. by apply M1.
  - assert (u8 (ltckpt_epoch s1 + 1) = ltckpt_epoch s1 + 1) as Hu
      by (apply (uwrap_small 8); change (2 ^ 8) with 256; lia).
    cbn -[bitmap_top_of_the_loop ltckpt_allocate_bitmap u8]. rewrite Hu.
    rewrite (proj2 (Z.eqb_neq _ 0)) by lia. eexists _, _. split; [reflexivity|].
    cbn. rewrite ?Hu. split_and!.
    + split; cbn; [lia|]. intros x Hx. specialize (Hb1 x Hx). lia.
    + intros x Hx. unfold saved. cbn. specialize (Hb1 x Hx). lia.
    + done.
Qed.

(** C4: A checkpoint of the bitmap mechanism is recoverable. Assume that mmap succeeds at the
    fixed addresses of the bitmap and the shadow space, and let the program's memory be whole
    regions outside both, no two of which share a byte of the bitmap ([primary_space]; the index
    drops the high bits of an address, so this excludes two regions 2^36 bytes apart). When a top
    of the loop takes a checkpoint and the program then runs any stores that each lie within one
    region of 128 bytes, and any copies, through the hooks, the mechanism still holds the memory
    of the checkpoint (shadow of the regions marked with the current epoch, memory elsewhere), the
    program sees exactly its own writes, and the epoch invariant holds again for the next window,
    also when the epoch byte wraps. *)
Theorem bitmap_checkpoint_recoverable (ops : list bm_op) (s : bm) (o : os) :
  epoch_inv (Pr := Pr) s → tol_returns (bm_ctx s) = false → Forall (bm_op_ok (Pr := Pr)) ops →
  ∃ s1 o1 s2, bitmap_top_of_the_loop (s, o) = Ok () (s1, o1) ∧
    bm_run stats_on ops s1 = Some s2 ∧
    mem_agree Pr (checkpoint s2) (bm_mem s) ∧
    mem_agree Pr (bm_mem s2) (plain_run ops (bm_mem s)) ∧
    epoch_inv (Pr := Pr) s2.
Proof.
  intros Hi Ht Hops. destruct (tol_run s o Hi Ht) as (s1 & o1 & H1 & [He Hb] & Hf & M1).
  destruct (bm_run_spec Hpr stats_on ops s1 Hops) as (s2 & H2 & (E2 & _) & V2 & M2 & B2).
  exists s1, o1, s2. split_and!; [done|done| | |].
  - intros x Hx. rewrite V2 by done. unfold checkpoint. rewrite decide_False by auto. by apply M1.
  - intros x Hx. rewrite M2 by done. by apply (plain_run_agree (Pr := Pr)).
  - split; [by rewrite E2|]. intros x Hx. rewrite E2.
    destruct (B2 x) as [Hs|Hs]; [unfold saved in Hs; lia|]. rewrite Hs. by apply Hb.
Qed.

End Checkpoints.

(** ** A program below the bitmap *)

Definition low_memory (x : Z) : Prop := 0 <= x < 68719476736.

Lemma low_memory_primary : primary_space low_memory.
Proof.
  unfold low_memory. split.
  - intros x y Hx H. pose proof (Z.div_mod x 128). pose proof (Z.div_mod y 128).
    pose proof (Z.mod_pos_bound y 128). pose proof (Z.div_pos x 128).
    pose proof (Z.div_lt_upper_bound x 128 536870912). lia.
  - lia.
  - lia.
  - intros x y Hx Hy. rewrite !bitmap_eq, !(Z.mod_small _ 68719476736) by done. lia.
Qed.

#[local] Instance granting : VMem () := {
  mmap a _ _ _ o := (if a =? MAP_FAILED then 0 else a, o);
  munmap _ _ o := (0, o);
  mprotect _ _ _ o := (0, o);
}.

Definition demo_bm : bm :=
  mk_bm (λ x, x mod 256) 255 1 [] (set_checkpoint_interval 1 ctx0).

(** The mechanism after its initialisation, in its last epoch before the byte wraps. *)
Definition wrapping_bm : bm := set_bm_mem (zero_fill LTCKPT_BITMAP_START LTCKPT_BITMAP_SIZE (λ x, x mod 256)) demo_bm.

(** The late initialisation of the bitmap mechanism establishes the epoch invariant and
    leaves the program's memory alone; if the system refuses a mapping it panics. *)
Theorem bitmap_init_establishes {os : Type} `{vmem : VMem os} (Pr : Z → Prop) (s : bm) (o : os) :
  primary_space Pr → ltckpt_epoch s = 1 →
  match ltckpt_bitmap_late_init_hook (s, o) with
  | Ok _ (s', _) => epoch_inv (Pr := Pr) s' ∧ mem_agree Pr (bm_mem s') (bm_mem s)
  | Stop w _ => w = Panic
  end.
Proof.
  intros Hpr He. unfold ltckpt_bitmap_late_init_hook, ltckpt_clean_space, mbind, prog_bind.
  destruct (ltckpt_munmap _ _ o) as [x o1]. unfold ltckpt_allocate_bitmap, allocate.
  match goal with |- context [ltckpt_mmap LTCKPT_BITMAP_START ?n ?p ?f o1] =>
    destruct (ltckpt_mmap LTCKPT_BITMAP_START n p f o1) as [r o2] end.
  destruct (r =? _); [done|]. unfold ltckpt_allocate_shadow_space, allocate.
  match goal with |- context [ltckpt_mmap LTCKPT_SHADOW_SPACE_START ?n ?p ?f o2] =>
    destruct (ltckpt_mmap LTCKPT_SHADOW_SPACE_START n p f o2) as [r2 o3] end.
  destruct (r2 =? _); [done|]. cbn -[zero_fill]. split; [split|].
  - cbn. lia.
  - intros y Hy. cbn -[zero_fill]. match goal with |- 0 <= ?z <= _ => assert (z = 0) as ->; [|lia] end.
    unfold zero_fill at 1. case_match; [done|]. apply zero_fill_bitmap.
  - intros y Hy. by rewrite !(zero_fill_primary Hpr) by tauto.
Qed.

Lemma bitmap_init_establishes_witness :
  match ltckpt_bitmap_late_init_hook (set_ltckpt_epoch 1 demo_bm, ()) with
  | Ok _ (s', _) =>
      epoch_inv (Pr := low_memory) s' ∧ mem_agree low_memory (bm_mem s') (bm_mem demo_bm)
  | Stop w _ => w = Panic
  end.
Proof.
  apply (bitmap_init_establishes low_memory (set_ltckpt_epoch 1 demo_bm) ()).
  - apply low_memory_primary.
  - reflexivity.
Defined.

Lemma bitmap_checkpoint_recoverable_witness :
  let ops := [BStore 4096 [1; 2; 3; 4]; BMemcpy 8000 (replicate 300 7)] in
  ∃ s1 o1 s2, bitmap_top_of_the_loop (wrapping_bm, ()) = Ok () (s1, o1) ∧
    bm_run false ops s1 = Some s2 ∧
    mem_agree low_memory (checkpoint s2) (bm_mem wrapping_bm) ∧
    mem_agree low_memory (bm_mem s2) (plain_run ops (bm_mem wrapping_bm)) ∧
    epoch_inv (Pr := low_memory) s2.
Proof.
  intros ops. apply (bitmap_checkpoint_recoverable low_memory_primary false).
  - intros a n p f []. unfold mmap, granting. cbn [fst].
    destruct (Z.eqb_spec a MAP_FAILED); [discriminate|done].
  - split; [cbn; lia|]. intros x Hx. unfold wrapping_bm. cbn -[zero_fill].
    rewrite zero_fill_bitmap. lia.
  - reflexivity.
  - apply Forall_cons_2; [|apply Forall_cons_2; [|apply Forall_nil_2]];
      (split; [unfold low_memory; lia|]); intros x Hx; unfold in_block in Hx.
    + change (zlen [1; 2; 3; 4]) with 4 in Hx. change (4096 / 128) with 32.
      symmetry. apply (Z.div_unique _ _ _ (x - 4096)); lia.
    + change (zlen (replicate 300 7)) with 300 in Hx. unfold low_memory. lia.
Defined.

(** ** Aliasing *)

(** Two regions that share a byte of the bitmap share a shadow: after the first has been
    saved, the second is not, although nothing of it has been saved. *)
Lemma aliased_region_not_saved a b s :
  LTCKPT_ADDR_TO_BITMAP a = LTCKPT_ADDR_TO_BITMAP b →
  ltckpt_set_bit b (ltckpt_set_bit a s) = ltckpt_set_bit a s.
Proof.
  intros Hab. unfold ltckpt_set_bit at 1. rewrite <- Hab.
  assert (bm_mem (ltckpt_set_bit a s) (LTCKPT_ADDR_TO_BITMAP a) = ltckpt_epoch (ltckpt_set_bit a s)) as ->.
  { unfold ltckpt_set_bit, _ltckpt_save_sized_region.
    destruct (Z.eqb_spec (ltckpt_epoch s) (bm_mem s (LTCKPT_ADDR_TO_BITMAP a))) as [E|E]; [done|].
    rewrite (proj2 (Z.eqb_neq (bm_mem s _) _)) by congruence. cbn. apply upd_eq. }
  by rewrite Z.eqb_refl.
Qed.

Lemma addresses_alias a : LTCKPT_ADDR_TO_BITMAP (a + 274877906944) = LTCKPT_ADDR_TO_BITMAP a.
Proof. rewrite !bitmap_eq. change 274877906944 with (4 * 68719476736). by rewrite Z.mod_add. Qed.

(** ** Statistics count *)

Lemma stat_find_incr a b l :
  ltckpt_stat_find a (stat_incr b l) =
  if a =? b then (λ n, u32 (n + 1)) <$> ltckpt_stat_find a l else ltckpt_stat_find a l.
Proof.
  induction l as [|[c n] l IH]; cbn; [by destruct (a =? b)|].
  destruct (Z.eqb_spec c b) as [->|Hcb]; cbn.
  - destruct (Z.eqb_spec b a) as [->|]; [by rewrite Z.eqb_refl|].
    by rewrite (proj2 (Z.eqb_neq a b)) by congruence.
  - destruct (Z.eqb_spec c a) as [->|]; [|done]. by rewrite (proj2 (Z.eqb_neq a b)).
Qed.

(** Each address is listed with the number of times it was added since the last clearing. *)
Lemma stat_counts (adds : list Z) (a : Z) :
  default 0 (ltckpt_stat_find a (foldr ltckpt_stat_add [] adds)) =
  u32 (zlen (filter (λ b, b = a) adds)).
Proof.
  induction adds as [|b adds IH]; [done|]. cbn [foldr]. rewrite filter_cons.
  unfold ltckpt_stat_add at 1. destruct (ltckpt_stat_find b _) as [n|] eqn:E.
  - rewrite stat_find_incr. destruct (Z.eqb_spec a b) as [->|Hne].
    + rewrite decide_True by done. rewrite E in IH |- *. cbn in IH |- *. rewrite IH.
      unfold u32, uwrap. rewrite Z.add_mod_idemp_l by done. f_equal. lia.
    + by rewrite decide_False by congruence.
  - cbn [ltckpt_stat_find]. destruct (Z.eqb_spec b a) as [->|Hne].
    + rewrite decide_True by done. rewrite E in IH. cbn in IH. cbn.
      rewrite <- (Z.add_0_l 1) at 1. unfold u32, uwrap in *.
      replace (Z.of_nat (S (length (filter (λ b, b = a) adds))))
        with (zlen (filter (λ b, b = a) adds) + 1) by lia.
      by rewrite <- Z.add_mod_idemp_l, <- IH by done.
    + by rewrite decide_False by congruence.
Qed.
