(* ===== verification/BitmapTree.v ===== *)
(** * The tree of bitmaps

    [ltckpt/mechanisms/bitmap/bitmap_tree.h], a layout of the bitmap mechanism for 32-bit x86
    with the scheme that synchronises the shadow at each checkpoint: a store marks its click of
    16 bytes at three levels, a checkpoint walks down the marks, copies the marked clicks to the
    shadow space and clears the marks.  The walk is compared with what it is for: copying every
    marked click ([tree_checkpoint_syncs]). *)
From stdpp Require Import base numbers list.
From Stdlib Require Import ZArith Lia.
From S2P Require Import Prelude Memory.

Definition TREE_SHADOW_SPACE_SIZE : Z := 1536 * 1024 * 1024.
Definition TREE_SHADOW_SPACE_OFFSET : Z := 1536 * 1024 * 1024.

Definition TREE_BITMAP_CLICK : Z := 16.
Definition LTCKPT_CLICKS_PER_BYTE : Z := 8.
Definition LTCKPT_NTH_BIT_MASK : Z := LTCKPT_CLICKS_PER_BYTE - 1.
Definition LTCKPT_1ST_LEVEL_SIZE : Z := TREE_SHADOW_SPACE_SIZE / TREE_BITMAP_CLICK / LTCKPT_CLICKS_PER_BYTE.
Definition LTCKPT_2ND_LEVEL_SIZE : Z := LTCKPT_1ST_LEVEL_SIZE / TREE_BITMAP_CLICK / LTCKPT_CLICKS_PER_BYTE.
Definition LTCKPT_3RD_LEVEL_SIZE : Z := LTCKPT_2ND_LEVEL_SIZE / TREE_BITMAP_CLICK / LTCKPT_CLICKS_PER_BYTE.
Definition TREE_BITMAP_SIZE : Z := LTCKPT_3RD_LEVEL_SIZE + LTCKPT_2ND_LEVEL_SIZE + LTCKPT_1ST_LEVEL_SIZE.
(** [PAGE_ROUND_DOWN] of the place below the shadow space. *)
Definition TREE_BITMAP_OFFSET : Z :=
  let x := TREE_SHADOW_SPACE_OFFSET - TREE_BITMAP_SIZE in x - x mod 4096.
Definition LTCKPT_2ND_LEVEL_OFFSET : Z := TREE_BITMAP_OFFSET + LTCKPT_1ST_LEVEL_SIZE.
Definition LTCKPT_3RD_LEVEL_OFFSET : Z := LTCKPT_2ND_LEVEL_OFFSET + LTCKPT_2ND_LEVEL_SIZE.

(** ** Marking *)

(** [*p |= (1 << bit)] for the bit of [address] in the level at [base]. *)
Definition mark_level (base address : Z) (m : mem) : mem :=
  let bit := Z.land address LTCKPT_NTH_BIT_MASK in
  let p := u32 (base + address / LTCKPT_CLICKS_PER_BYTE) in
  upd m p (u8 (Z.lor (m p) (Z.shiftl 1 bit))).

(** [ltckpt_set_bit]; it returns 0 in this scheme. *)
Definition tree_set_bit (a : Z) (m : mem) : mem :=
  let address := u32 a / TREE_BITMAP_CLICK in
  let offset := address / LTCKPT_CLICKS_PER_BYTE in
  let m := mark_level TREE_BITMAP_OFFSET address m in
  let address := offset / TREE_BITMAP_CLICK in
  let offset := address / LTCKPT_CLICKS_PER_BYTE in
  let m := mark_level LTCKPT_2ND_LEVEL_OFFSET address m in
  let address := offset / TREE_BITMAP_CLICK in
  mark_level LTCKPT_3RD_LEVEL_OFFSET address m.

Abbreviation P := (prog mem).

(** The hooks of [ltckpt_bitmap.c] with this layout; the statistics of stores are in [Bitmap]. *)
Definition tree_store_hook (addr : Z) : P () := modify (tree_set_bit addr).

Fixpoint tree_memcpy_loop (fuel : nat) (reg stop_at : Z) : P () :=
  match fuel with
  | O => halt Diverge
  | S fuel' =>
      if reg <? stop_at then
        modify (tree_set_bit reg) ;; tree_memcpy_loop fuel' (u32 (reg + TREE_BITMAP_CLICK)) stop_at
      else skip
  end.

Definition tree_memcpy_hook (addr size : Z) : P () :=
  tree_memcpy_loop (Z.to_nat (size / TREE_BITMAP_CLICK + 3)) (Z.land addr (Z.lnot (TREE_BITMAP_CLICK - 1)))
    (u32 (addr + size)).

(** ** Walking down the marks *)

(** [set = -1; while (w[i]) { set++; if (w[i] & 1) body(set); w[i] = w[i] >> 1; }] for the word
    at [p]. *)
Fixpoint bit_loop (fuel : nat) (p set : Z) (body : Z → P ()) : P () :=
  match fuel with
  | O => halt Diverge
  | S fuel' =>
      w ← gets (λ m, load_u32 m p);
      if w =? 0 then skip else
      let set := u32 (set + 1) in
      when (truthy (Z.land w 1)) (body set) ;;
      modify (λ m, store_u32 m p (Z.shiftr (load_u32 m p) 1)) ;;
      bit_loop fuel' p set body
  end.

(** A word has 32 bits; one more turn finds it empty. *)
Definition word_loop (p : Z) (body : Z → P ()) : P () := bit_loop 33 p (-1) body.

(** A [for] loop over [n] words from [p] on. *)
Fixpoint words_loop (n : nat) (p : Z) (body : Z → Z → P ()) : P () :=
  match n with
  | O => skip
  | S n' => word_loop p (body p) ;; words_loop n' (u32 (p + 4)) body
  end.

(** The body of [ltckpt_check_first_level]: copy a click of 16 bytes. *)
Definition copy_click (p set : Z) : P () :=
  let data := u32 (u32 (p - TREE_BITMAP_OFFSET) * LTCKPT_CLICKS_PER_BYTE * TREE_BITMAP_CLICK) in
  let src := u32 (data + set * TREE_BITMAP_CLICK) in
  let dst := u32 (src + TREE_SHADOW_SPACE_OFFSET) in
  modify (λ m, store_bytes m dst (load_bytes m src 16)).

Definition ltckpt_check_first_level (fl : Z) : P () := words_loop 4 fl copy_click.

(** The place below a mark, in the level at [lower], of a word in the level at [base]. *)
Definition below (base lower p set : Z) : Z :=
  u32 (u32 (u32 (p - base) * LTCKPT_CLICKS_PER_BYTE * TREE_BITMAP_CLICK) + set * TREE_BITMAP_CLICK + lower).

Definition ltckpt_check_second_level (sl : Z) : P () :=
  words_loop 4 sl (λ p set,
    ltckpt_check_first_level (below LTCKPT_2ND_LEVEL_OFFSET TREE_BITMAP_OFFSET p set)).

Definition tree_clear_bitmap : P () :=
  words_loop (Z.to_nat (LTCKPT_3RD_LEVEL_SIZE / 4)) LTCKPT_3RD_LEVEL_OFFSET (λ p set,
    ltckpt_check_second_level (below LTCKPT_3RD_LEVEL_OFFSET LTCKPT_2ND_LEVEL_OFFSET p set)).

(** ** Words and bits *)

(** Mark [j] of the level at [base]. *)
Definition mark (base : Z) (m : mem) (j : Z) : bool := Z.testbit (m (base + j / 8)) (j mod 8).

Definition is_byte (z : Z) : Prop := 0 <= z < 256.

Lemma testbit_byte_add b r i :
  is_byte b → 0 <= i → Z.testbit (b + 256 * r) i = if i <? 8 then Z.testbit b i else Z.testbit r (i - 8).
Proof.
  intros Hb Hi. unfold is_byte in Hb. destruct (Z.ltb_spec i 8).
  - rewrite <- (Z.mod_pow2_bits_low (b + 256 * r) 8) by lia.
    f_equal. change (2 ^ 8) with 256. rewrite Z.mul_comm, Z_mod_plus_full. by apply Z.mod_small.
  - replace i with ((i - 8) + 8) at 1 by lia. rewrite <- Z.div_pow2_bits by lia. f_equal.
    change (2 ^ 8) with 256. rewrite Z.mul_comm, Z.div_add by lia. rewrite Z.div_small by lia. lia.
Qed.

Lemma testbit_le_decode bs i :
  Forall is_byte bs → 0 <= i → Z.testbit (le_decode bs) i = Z.testbit (nth (Z.to_nat (i / 8)) bs 0) (i mod 8).
Proof.
  intros Hb. revert i. induction Hb as [|b bs Hb _ IH]; intros i Hi; cbn [le_decode].
  - destruct (Z.to_nat (i / 8)); cbn; by rewrite !Z.bits_0.
  - rewrite testbit_byte_add by done. destruct (Z.ltb_spec i 8).
    + rewrite Z.div_small, Z.mod_small by lia. done.
    + rewrite IH by lia. replace (Z.to_nat (i / 8)) with (S (Z.to_nat ((i - 8) / 8))).
      * cbn [nth]. f_equal. replace i with ((i - 8) + 1 * 8) at 2 by lia. by rewrite Z.mod_add by lia.
      * replace i with ((i - 8) + 1 * 8) at 2 by lia. rewrite Z.div_add by lia.
        pose proof (Z.div_pos (i - 8) 8 ltac:(lia) ltac:(lia)). lia.
Qed.

Lemma Forall_load_bytes (Q : Z → Prop) m a n :
  (∀ x, in_block a (Z.of_nat n) x → Q (m x)) → Forall Q (load_bytes m a n).
Proof.
  unfold in_block. revert a. induction n as [|n IH]; intros a H; cbn; constructor.
  - apply H. lia.
  - apply IH. intros x Hx. apply H. lia.
Qed.

Lemma testbit_word m p i :
  (∀ x, in_block p 4 x → is_byte (m x)) → 0 <= i < 32 →
  Z.testbit (load_u32 m p) i = Z.testbit (m (p + i / 8)) (i mod 8).
Proof.
  intros Hb Hi. unfold load_u32. rewrite testbit_le_decode by (try apply Forall_load_bytes; done || lia).
  assert (0 <= i / 8 < 4) by (split; [apply Z.div_pos; lia|apply Z.div_lt_upper_bound; lia]).
  rewrite nth_load_bytes by lia. do 2 f_equal. lia.
Qed.

Lemma le_decode_nonneg bs : Forall is_byte bs → 0 <= le_decode bs < 256 ^ zlen bs.
Proof.
  induction 1 as [|b bs Hb _ IH]; [done|]. cbn [le_decode length].
  rewrite Nat2Z.inj_succ, Z.pow_succ_r by lia. unfold is_byte in Hb. lia.
Qed.

Lemma le_decode_zero bs i : Forall is_byte bs → le_decode bs = 0 → nth i bs 0 = 0.
Proof.
  intros H. revert i. induction H as [|b bs Hb Hbs IH]; intros [|i] E; cbn in *; try done;
    pose proof (le_decode_nonneg bs Hbs); unfold is_byte in Hb; [lia|]. apply IH. lia.
Qed.

Lemma load_u32_range m p : (∀ x, in_block p 4 x → is_byte (m x)) → 0 <= load_u32 m p < 4294967296.
Proof.
  intros H. unfold load_u32. pose proof (le_decode_nonneg (load_bytes m p 4)) as Hr.
  rewrite length_load_bytes in Hr. apply Hr. by apply Forall_load_bytes.
Qed.

Lemma load_u32_zero m p x : (∀ y, in_block p 4 y → is_byte (m y)) → load_u32 m p = 0 → in_block p 4 x → m x = 0.
Proof.
  unfold load_u32. intros Hb E Hx. unfold in_block in Hx.
  pose proof (le_decode_zero (load_bytes m p 4) (Z.to_nat (x - p)) (Forall_load_bytes _ m p 4 Hb) E) as H.
  rewrite nth_load_bytes in H by lia. rewrite <- H. f_equal. lia.
Qed.

Lemma store_u32_bytes m p v x : in_block p 4 x → is_byte (store_u32 m p v x).
Proof.
  intros Hx. unfold store_u32. rewrite store_bytes_in by (by rewrite length_le_bytes).
  unfold in_block in Hx. unfold is_byte.
  assert (∀ n z i, 0 <= nth i (le_bytes n z) 0 < 256) as H; [|apply H].
  induction n as [|n IH]; intros z [|i]; cbn; try lia; [apply Z.mod_pos_bound; lia|apply IH].
Qed.

Lemma low_bit w : truthy (Z.land w 1) = Z.testbit w 0.
Proof.
  unfold truthy. change 1 with (Z.ones 1) at 1. rewrite Z.land_ones by lia. change (2 ^ 1) with 2.
  rewrite Z.bit0_odd, Zmod_odd. by destruct (Z.odd w).
Qed.

Lemma shiftr_zero_bits w n i : Z.shiftr w n = 0 → 0 <= n → n <= i → Z.testbit w i = false.
Proof.
  intros H Hn Hi. pose proof (Z.shiftr_spec w n (i - n) ltac:(lia)) as E. rewrite H, Z.bits_0 in E.
  rewrite E. f_equal. lia.
Qed.

(** ** Scanning a level *)

Section Scan.
Context (base size : Z) (Hsize : 0 <= size) (Hbase : 0 <= base) (Htop : base + size < 4294967296).
Context (body : Z → Z → P ()).

(** [J F m]: the marks in [F] have been dealt with; it does not look at the level. *)
Context (J : (Z → bool) → mem → Prop).
Context (J_ext : ∀ F G m, (∀ j, F j = G j) → J F m → J G m).
Context (J_out : ∀ F m m', mem_agree (λ x, ¬ in_block base size x) m' m → J F m → J F m').

(** The marks at the start, and what the body does for one of them. *)
Context (mk : Z → bool).
Context (body_ok : ∀ k i F m, 0 <= k → 4 * k + 4 <= size → 0 <= i < 32 → mk (32 * k + i) = true →
  F (32 * k + i) = false → J F m →
  ∃ m', body (base + 4 * k) i m = Ok () m' ∧ mem_agree (in_block base size) m' m ∧
    J (λ j, F j || (j =? 32 * k + i)) m').

Lemma bit_step k n F m :
  0 <= k → 4 * k + 4 <= size → 0 <= n < 32 → F (32 * k + n) = false → J F m →
  ∃ m1, when (mk (32 * k + n)) (body (base + 4 * k) n) m = Ok () m1 ∧
    mem_agree (in_block base size) m1 m ∧ J (λ j, F j || ((j =? 32 * k + n) && mk j)) m1.
Proof.
  intros Hk Hks Hn HF HJ. destruct (mk (32 * k + n)) eqn:Em.
  - destruct (body_ok k n F m) as (m1 & E1 & A1 & J1); try done.
    exists m1. split; [done|]. split; [done|].
    eapply J_ext, J1. intros j. cbn. destruct (Z.eqb_spec j (32 * k + n)) as [->|]; [by rewrite Em|done].
  - exists m. split; [done|]. split; [done|]. apply (J_ext F); [|done]. intros j.
    destruct (Z.eqb_spec j (32 * k + n)) as [->|]; [by rewrite Em, orb_false_r|by rewrite orb_false_r].
Qed.

Lemma bit_loop_run k w : 0 <= k → 4 * k + 4 <= size → 0 <= w < 4294967296 →
  (∀ i, 0 <= i < 32 → Z.testbit w i = mk (32 * k + i)) →
  ∀ fuel n F m, 0 <= n <= 32 → 32 - n < Z.of_nat fuel →
  load_u32 m (base + 4 * k) = Z.shiftr w n →
  (∀ x, in_block (base + 4 * k) 4 x → is_byte (m x)) →
  (∀ i, n <= i < 32 → F (32 * k + i) = false) → J F m →
  ∃ m', bit_loop fuel (base + 4 * k) (n - 1) (body (base + 4 * k)) m = Ok () m' ∧
    (∀ x, in_block (base + 4 * k) 4 x → m' x = 0) ∧
    mem_agree (λ x, in_block base size x ∧ ¬ in_block (base + 4 * k) 4 x) m' m ∧
    J (λ j, F j || ((32 * k + n <=? j) && (j <? 32 * k + 32) && mk j)) m'.
Proof.
  intros Hk Hks Hw Hmk. induction fuel as [|fuel IH]; intros n F m Hn Hf Hl Hb HF HJ; [lia|].
  cbn [bit_loop]. rewrite bind_gets, Hl. destruct (Z.eqb_spec (Z.shiftr w n) 0) as [E|E].
  - exists m. split; [done|]. split; [intros x; by apply load_u32_zero; rewrite ?Hl|]. split; [done|].
    apply (J_ext F); [|done]. intros j. destruct (Z.leb_spec (32 * k + n) j), (Z.ltb_spec j (32 * k + 32));
      cbn; rewrite ?orb_false_r; try done.
    pose proof (shiftr_zero_bits w n (j - 32 * k) E ltac:(lia) ltac:(lia)) as Ez.
    rewrite Hmk in Ez by lia. replace (32 * k + (j - 32 * k)) with j in Ez by lia. by rewrite Ez, orb_false_r.
  - assert (n < 32) as Hn32.
    { destruct (decide (n = 32)) as [->|]; [|lia]. exfalso. apply E. rewrite Z.shiftr_div_pow2 by lia.
      apply Z.div_small. change (2 ^ 32) with 4294967296. lia. }
    replace (u32 (n - 1 + 1)) with n by (rewrite u32_small; lia). rewrite low_bit, Z.shiftr_spec, Z.add_0_l by lia.
    rewrite Hmk by lia. destruct (bit_step k n F m) as (m1 & E1 & A1 & J1); try done; [lia|apply HF; lia|].
    rewrite (bind_Ok _ _ _ _ _ E1), bind_modify.
    assert (load_u32 m1 (base + 4 * k) = Z.shiftr w n) as ->.
    { rewrite <- Hl. apply load_u32_ext. intros x Hx. apply A1. unfold in_block in *. lia. }
    rewrite Z.shiftr_shiftr by lia. set (m2 := store_u32 m1 (base + 4 * k) (Z.shiftr w (n + 1))).
    destruct (IH (n + 1) (λ j, F j || ((j =? 32 * k + n) && mk j)) m2) as (m' & E' & Z' & A' & J'); [lia|lia| | | | |].
    + unfold m2. rewrite load_store_u32. apply u32_small. rewrite Z.shiftr_div_pow2 by lia.
      assert (0 < 2 ^ (n + 1)) by (apply Z.pow_pos_nonneg; lia).
      split; [apply Z.div_pos; lia|]. apply Z.le_lt_trans with w; [|lia]. apply Z.div_le_upper_bound; nia.
    + intros x Hx. by apply store_u32_bytes.
    + intros i Hi. rewrite HF, (proj2 (Z.eqb_neq _ _)) by lia. done.
    + apply (J_out _ m1); [|done]. intros x Hx. apply store_u32_out. unfold in_block in *. lia.
    + replace (n + 1 - 1) with n in E' by lia. exists m'. split; [done|]. split; [done|]. split.
      * intros x [Hx Hx']. rewrite A' by done. unfold m2. rewrite store_u32_out by done. by apply A1.
      * eapply J_ext, J'. intros j. cbn. rewrite <- orb_assoc. f_equal.
        destruct (Z.eqb_spec j (32 * k + n)), (Z.leb_spec (32 * k + (n + 1)) j), (Z.leb_spec (32 * k + n) j),
          (Z.ltb_spec j (32 * k + 32)); cbn; rewrite ?orb_false_r; lia || done.
Qed.

Lemma mark_word m k i :
  (∀ x, in_block (base + 4 * k) 4 x → is_byte (m x)) → 0 <= i < 32 →
  Z.testbit (load_u32 m (base + 4 * k)) i = mark base m (32 * k + i).
Proof.
  intros Hb Hi. rewrite testbit_word by done. unfold mark.
  replace (32 * k + i) with (i + (4 * k) * 8) by lia. rewrite Z.div_add, Z.mod_add by lia. do 2 f_equal. lia.
Qed.

(** The words from the [k]th on: their marks are dealt with, and cleared. *)
Lemma words_loop_run n : ∀ k F m,
  0 <= k → 4 * (k + Z.of_nat n) <= size →
  (∀ j, 32 * k <= j < 32 * (k + Z.of_nat n) → mark base m j = mk j ∧ F j = false) →
  (∀ x, in_block base size x → is_byte (m x)) → J F m →
  ∃ m', words_loop n (base + 4 * k) body m = Ok () m' ∧
    (∀ x, in_block (base + 4 * k) (4 * Z.of_nat n) x → m' x = 0) ∧
    mem_agree (λ x, in_block base size x ∧ ¬ in_block (base + 4 * k) (4 * Z.of_nat n) x) m' m ∧
    J (λ j, F j || ((32 * k <=? j) && (j <? 32 * (k + Z.of_nat n)) && mk j)) m'.
Proof.
  induction n as [|n IH]; intros k F m Hk Hs Hm Hb HJ; cbn [words_loop].
  { exists m. split; [done|]. split; [unfold in_block; lia|]. split; [done|]. apply (J_ext F); [|done].
    intros j. destruct (Z.leb_spec (32 * k) j), (Z.ltb_spec j (32 * (k + Z.of_nat 0))); cbn; rewrite ?orb_false_r; lia || done. }
  assert (∀ x, in_block (base + 4 * k) 4 x → is_byte (m x)) as Hbw
    by (intros x Hx; apply Hb; unfold in_block in *; lia).
  destruct (bit_loop_run k (load_u32 m (base + 4 * k)) Hk ltac:(lia) (load_u32_range _ _ Hbw)) with (fuel := 33%nat)
    (n := 0) (F := F) (m := m) as (m1 & E1 & Z1 & A1 & J1); try done; try lia.
  { intros i Hi. rewrite mark_word by done. apply Hm. lia. }
  { intros i Hi. apply Hm. lia. }
  unfold word_loop. rewrite (bind_Ok _ _ _ _ _ E1). rewrite u32_small by lia.
  replace (base + 4 * k + 4) with (base + 4 * (k + 1)) by lia.
  destruct (IH (k + 1) (λ j, F j || ((32 * k + 0 <=? j) && (j <? 32 * k + 32) && mk j)) m1) as (m2 & E2 & Z2 & A2 & J2);
    [lia|lia| | |done|].
  - intros j Hj. destruct (Hm j) as [Hmj HFj]; [lia|]. split.
    + rewrite <- Hmj. unfold mark. f_equal. apply A1. unfold in_block. pose proof (Z.div_mod j 8).
      pose proof (Z.mod_pos_bound j 8). lia.
    + rewrite HFj. destruct (Z.ltb_spec j (32 * k + 32)); [lia|]. by rewrite andb_false_r.
  - intros x Hx. destruct (decide (in_block (base + 4 * k) 4 x)) as [Hw|Hw].
    + rewrite Z1 by done. by unfold is_byte.
    + rewrite A1 by done. by apply Hb.
  - exists m2. split; [done|]. split; [|split].
    + intros x Hx. destruct (decide (in_block (base + 4 * k) 4 x)) as [Hw|Hw].
      * rewrite A2 by (unfold in_block in *; lia). by apply Z1.
      * apply Z2. unfold in_block in *. lia.
    + intros x [Hx Hx']. rewrite A2 by (unfold in_block in *; lia). apply A1. unfold in_block in *. lia.
    + eapply J_ext, J2. intros j. cbn beta. rewrite <- orb_assoc. f_equal. rewrite <- andb_orb_distrib_l. f_equal.
      destruct (Z.leb_spec (32 * k + 0) j), (Z.ltb_spec j (32 * k + 32)), (Z.leb_spec (32 * (k + 1)) j),
        (Z.ltb_spec j (32 * (k + 1 + Z.of_nat n))), (Z.leb_spec (32 * k) j),
        (Z.ltb_spec j (32 * (k + Z.of_nat (S n)))); cbn; lia || done.
Qed.

End Scan.

(** ** The levels *)

Definition level1 : Z → Prop := in_block TREE_BITMAP_OFFSET LTCKPT_1ST_LEVEL_SIZE.
Definition level2 : Z → Prop := in_block LTCKPT_2ND_LEVEL_OFFSET LTCKPT_2ND_LEVEL_SIZE.
Definition level3 : Z → Prop := in_block LTCKPT_3RD_LEVEL_OFFSET LTCKPT_3RD_LEVEL_SIZE.
(** The shadows of the memory below the bitmaps. *)
Definition shadow : Z → Prop := in_block TREE_SHADOW_SPACE_OFFSET TREE_BITMAP_OFFSET.

(** The constants as numbers. *)
Ltac layout := unfold level1, level2, level3, shadow, is_byte, in_block in *;
  change TREE_SHADOW_SPACE_OFFSET with 1610612736 in *; change TREE_BITMAP_OFFSET with 1597927424 in *;
  change LTCKPT_1ST_LEVEL_SIZE with 12582912 in *; change LTCKPT_2ND_LEVEL_SIZE with 98304 in *;
  change LTCKPT_3RD_LEVEL_SIZE with 768 in *; change LTCKPT_2ND_LEVEL_OFFSET with 1610510336 in *;
  change LTCKPT_3RD_LEVEL_OFFSET with 1610608640 in *; change TREE_BITMAP_CLICK with 16 in *;
  change LTCKPT_CLICKS_PER_BYTE with 8 in *.
Ltac tree_lia := layout; Z.to_euclidean_division_equations; lia.

Definition click_marked (m : mem) (c : Z) : bool := mark TREE_BITMAP_OFFSET m c.
Definition block_marked (m : mem) (f : Z) : bool := mark LTCKPT_2ND_LEVEL_OFFSET m f.

(** The click of an address in the shadow, the block of 128 clicks of an address in the first
    level, and of an address in the shadow. *)
Definition shadow_click (x : Z) : Z := (x - TREE_SHADOW_SPACE_OFFSET) / 16.
Definition level1_block (x : Z) : Z := (x - TREE_BITMAP_OFFSET) / 16.
Definition level2_block (x : Z) : Z := (x - LTCKPT_2ND_LEVEL_OFFSET) / 16.

(** From [m] to [m'] the clicks in [F] have been copied. *)
Definition copied (m : mem) (F : Z → bool) (m' : mem) : Prop :=
  (∀ x, ¬ level1 x → ¬ shadow x → m' x = m x) ∧
  ∀ x, shadow x → m' x = if F (shadow_click x) then m (x - TREE_SHADOW_SPACE_OFFSET) else m x.

(** Only memory below the bitmaps is marked. *)
Definition level1_ok (m : mem) : Prop :=
  (∀ x, level1 x → is_byte (m x)) ∧
  ∀ c, 0 <= c < 8 * LTCKPT_1ST_LEVEL_SIZE → click_marked m c = true → 16 * c + 16 <= TREE_BITMAP_OFFSET.

Lemma copied_ext m F G m' : (∀ j, F j = G j) → copied m F m' → copied m G m'.
Proof. intros E [H1 H2]. split; [done|]. intros x Hx. by rewrite H2, E. Qed.

Lemma copied_out m F m1 m2 : mem_agree (λ x, ¬ level1 x) m2 m1 → copied m F m1 → copied m F m2.
Proof.
  intros E [H1 H2]. split.
  - intros x H1x Hs. rewrite E by done. by apply H1.
  - intros x Hx. rewrite E by tree_lia. by apply H2.
Qed.

Lemma copy_click_run k i m :
  0 <= k → 4 * k + 4 <= LTCKPT_1ST_LEVEL_SIZE → 0 <= i < 32 →
  16 * (32 * k + i) + 16 <= TREE_BITMAP_OFFSET →
  copy_click (TREE_BITMAP_OFFSET + 4 * k) i m = Ok ()
    (store_bytes m (TREE_SHADOW_SPACE_OFFSET + 16 * (32 * k + i)) (load_bytes m (16 * (32 * k + i)) 16)).
Proof.
  intros Hk Hks Hi Hlow. unfold copy_click, modify. layout.
  replace (1597927424 + 4 * k - 1597927424) with (4 * k) by lia.
  rewrite (u32_small (4 * k)), (u32_small (4 * k * 8 * 16)) by lia.
  replace (4 * k * 8 * 16 + i * 16) with (16 * (32 * k + i)) by lia.
  rewrite (u32_small (16 * (32 * k + i))), u32_small by lia.
  by rewrite (Z.add_comm (16 * (32 * k + i))).
Qed.

Lemma copy_click_ok m k i F m1 :
  level1_ok m → 0 <= k → 4 * k + 4 <= LTCKPT_1ST_LEVEL_SIZE → 0 <= i < 32 →
  click_marked m (32 * k + i) = true → F (32 * k + i) = false → copied m F m1 →
  ∃ m2, copy_click (TREE_BITMAP_OFFSET + 4 * k) i m1 = Ok () m2 ∧ mem_agree level1 m2 m1 ∧
    copied m (λ j, F j || (j =? 32 * k + i)) m2.
Proof.
  intros [_ Hok] Hk Hks Hi Hm HF [H1 H2]. assert (16 * (32 * k + i) + 16 <= TREE_BITMAP_OFFSET) as Hlow
    by (apply Hok; [tree_lia|done]).
  eexists. split; [by apply copy_click_run|]. assert (0 <= 32 * k + i) as Hj by lia. set (j := 32 * k + i) in *.
  assert (∀ x, ¬ in_block (TREE_SHADOW_SPACE_OFFSET + 16 * j) 16 x →
    store_bytes m1 (TREE_SHADOW_SPACE_OFFSET + 16 * j) (load_bytes m1 (16 * j) 16) x = m1 x) as Hout
    by (intros x Hx; apply store_bytes_out; by rewrite length_load_bytes).
  split; [|split].
  - intros x Hx. apply Hout. tree_lia.
  - intros x Hx Hs. rewrite Hout by tree_lia. by apply H1.
  - intros x Hx. unfold shadow_click. destruct (Z.eqb_spec ((x - TREE_SHADOW_SPACE_OFFSET) / 16) j) as [E|E].
    + rewrite orb_true_r, store_bytes_in by (rewrite length_load_bytes; tree_lia).
      rewrite nth_load_bytes by tree_lia. rewrite H1 by tree_lia. f_equal. tree_lia.
    + rewrite orb_false_r, Hout by tree_lia. by apply H2.
Qed.

(** The marks of the four words of a block. *)
Lemma in_block128 c f : (c / 128 =? f) = ((32 * (4 * f) <=? c) && (c <? 32 * (4 * f + Z.of_nat 4))).
Proof.
  destruct (Z.leb_spec (32 * (4 * f)) c), (Z.ltb_spec c (32 * (4 * f + Z.of_nat 4))), (Z.eqb_spec (c / 128) f);
    cbn; tree_lia || done.
Qed.

(** [ltckpt_check_first_level] of block [f]. *)
Lemma first_level_run m f :
  level1_ok m → 0 <= f → 16 * f + 16 <= LTCKPT_1ST_LEVEL_SIZE →
  ∃ m', ltckpt_check_first_level (TREE_BITMAP_OFFSET + 16 * f) m = Ok () m' ∧
    (∀ x, in_block (TREE_BITMAP_OFFSET + 16 * f) 16 x → m' x = 0) ∧
    mem_agree (λ x, level1 x ∧ ¬ in_block (TREE_BITMAP_OFFSET + 16 * f) 16 x) m' m ∧
    copied m (λ c, (c / 128 =? f) && click_marked m c) m'.
Proof.
  intros Hok Hf Hfs.
  destruct (words_loop_run TREE_BITMAP_OFFSET LTCKPT_1ST_LEVEL_SIZE ltac:(tree_lia) ltac:(tree_lia) ltac:(tree_lia)
    copy_click (copied m) (copied_ext m) (copied_out m) (click_marked m)
    (λ k i F m1, copy_click_ok m k i F m1 Hok) 4 (4 * f) (λ _, false) m) as (m' & E & Z0 & A & J).
  - lia.
  - lia.
  - intros j Hj. done.
  - apply Hok.
  - split; [done|]. done.
  - replace (4 * (4 * f)) with (16 * f) in * by lia. exists m'. split; [done|]. split; [done|]. split; [done|].
    eapply copied_ext, J. intros c. cbn [orb]. f_equal. symmetry. apply in_block128.
Qed.

(** From [m] to [m'] the blocks in [F] have been walked. *)
Definition walked (m : mem) (F : Z → bool) (m' : mem) : Prop :=
  (∀ x, level1 x → m' x = if F (level1_block x) then 0 else m x) ∧
  ∀ x, shadow x → m' x =
    if F (shadow_click x / 128) && click_marked m (shadow_click x) then m (x - TREE_SHADOW_SPACE_OFFSET) else m x.

Lemma walked_marks m F m' c :
  walked m F m' → 0 <= c < 8 * LTCKPT_1ST_LEVEL_SIZE →
  click_marked m' c = if F (c / 128) then false else click_marked m c.
Proof.
  intros [H1 _] Hc. unfold click_marked, mark. rewrite H1 by tree_lia.
  replace (level1_block (TREE_BITMAP_OFFSET + c / 8)) with (c / 128) by (unfold level1_block; tree_lia).
  destruct (F (c / 128)); [apply Z.bits_0|done].
Qed.

Lemma walked_ok m F m' : walked m F m' → level1_ok m → level1_ok m'.
Proof.
  intros H [Hb Hm]. split.
  - intros x Hx. rewrite (proj1 H) by done. destruct (F (level1_block x)); [by unfold is_byte|by apply Hb].
  - intros c Hc E. rewrite (walked_marks m F m' c H Hc) in E. destruct (F (c / 128)); [done|by apply Hm].
Qed.

Lemma walked_ext m F G m' : (∀ j, F j = G j) → walked m F m' → walked m G m'.
Proof. intros E [H1 H2]. split; intros x Hx; [rewrite H1|rewrite H2]; by rewrite ?E. Qed.

(** One more block. *)
Lemma walked_step m F m1 f m2 :
  walked m F m1 → (∀ x, 0 <= x < TREE_BITMAP_OFFSET → m1 x = m x) → F f = false →
  (∀ x, in_block (TREE_BITMAP_OFFSET + 16 * f) 16 x → m2 x = 0) →
  mem_agree (λ x, level1 x ∧ ¬ in_block (TREE_BITMAP_OFFSET + 16 * f) 16 x) m2 m1 →
  copied m1 (λ c, (c / 128 =? f) && click_marked m1 c) m2 →
  walked m (λ g, F g || (g =? f)) m2.
Proof.
  intros H Hp HF Hz Ha [_ Hc]. split; intros x Hx.
  - destruct (Z.eqb_spec (level1_block x) f) as [E|E]; unfold level1_block in *.
    + rewrite orb_true_r. apply Hz. tree_lia.
    + rewrite orb_false_r, Ha by (split; [done|tree_lia]). by apply H.
  - rewrite Hc by done. cbn beta. assert (0 <= shadow_click x < 8 * LTCKPT_1ST_LEVEL_SIZE) as Hr
      by (unfold shadow_click; tree_lia).
    rewrite (walked_marks m F m1 _ H Hr). destruct (Z.eqb_spec (shadow_click x / 128) f) as [E|E].
    + rewrite E, HF. cbn [orb andb]. destruct (click_marked m (shadow_click x)).
      * apply Hp. tree_lia.
      * rewrite (proj2 H) by done. by rewrite E, HF.
    + cbn [andb]. rewrite orb_false_r. by apply H.
Qed.

Lemma below_run base lower k i :
  0 <= base → 0 <= lower → 0 <= k → 0 <= i < 32 → base + 4 * k < 4294967296 →
  lower + 16 * (32 * k + i) < 4294967296 →
  below base lower (base + 4 * k) i = lower + 16 * (32 * k + i).
Proof.
  intros. unfold below. layout. replace (base + 4 * k - base) with (4 * k) by lia.
  rewrite (u32_small (4 * k)), (u32_small (4 * k * 8 * 16)), u32_small by lia. lia.
Qed.

(** [ltckpt_check_second_level]: the blocks in [F] walked, the second level aside. *)
Definition walked2 (m : mem) (F : Z → bool) (m' : mem) : Prop :=
  (∀ x, ¬ level1 x → ¬ level2 x → ¬ shadow x → m' x = m x) ∧ walked m F m'.

Lemma walked2_ext m F G m' : (∀ j, F j = G j) → walked2 m F m' → walked2 m G m'.
Proof. intros E [H1 H2]. split; [done|by apply (walked_ext m F)]. Qed.

Lemma walked2_out m F m1 m2 : mem_agree (λ x, ¬ level2 x) m2 m1 → walked2 m F m1 → walked2 m F m2.
Proof.
  intros E (H1 & H2 & H3). split; [|split].
  - intros x Hx Hx2 Hs. rewrite E by done. by apply H1.
  - intros x Hx. rewrite E by tree_lia. by apply H2.
  - intros x Hx. rewrite E by tree_lia. by apply H3.
Qed.

Lemma second_body_ok m k i F m1 :
  level1_ok m → 0 <= k → 4 * k + 4 <= LTCKPT_2ND_LEVEL_SIZE → 0 <= i < 32 →
  block_marked m (32 * k + i) = true → F (32 * k + i) = false → walked2 m F m1 →
  ∃ m2, ltckpt_check_first_level (below LTCKPT_2ND_LEVEL_OFFSET TREE_BITMAP_OFFSET
          (LTCKPT_2ND_LEVEL_OFFSET + 4 * k) i) m1 = Ok () m2 ∧ mem_agree level2 m2 m1 ∧
    walked2 m (λ j, F j || (j =? 32 * k + i)) m2.
Proof.
  intros Hok Hk Hks Hi _ HF [Hf Hw]. rewrite below_run by tree_lia.
  destruct (first_level_run m1 (32 * k + i) (walked_ok _ _ _ Hw Hok)) as (m2 & E & Hz & Ha & Hc); [tree_lia|tree_lia|].
  exists m2. split; [done|]. split; [|split].
  - intros x Hx. apply Hc; tree_lia.
  - intros x H1 H2 Hs. rewrite (proj1 Hc) by done. by apply Hf.
  - apply (walked_step m F m1 _ m2); try done. intros x Hx. apply Hf; tree_lia.
Qed.

Lemma second_level_run m s :
  level1_ok m → (∀ x, level2 x → is_byte (m x)) → 0 <= s → 16 * s + 16 <= LTCKPT_2ND_LEVEL_SIZE →
  ∃ m', ltckpt_check_second_level (LTCKPT_2ND_LEVEL_OFFSET + 16 * s) m = Ok () m' ∧
    (∀ x, in_block (LTCKPT_2ND_LEVEL_OFFSET + 16 * s) 16 x → m' x = 0) ∧
    mem_agree (λ x, level2 x ∧ ¬ in_block (LTCKPT_2ND_LEVEL_OFFSET + 16 * s) 16 x) m' m ∧
    walked2 m (λ f, (f / 128 =? s) && block_marked m f) m'.
Proof.
  intros Hok Hb Hs Hss.
  destruct (words_loop_run LTCKPT_2ND_LEVEL_OFFSET LTCKPT_2ND_LEVEL_SIZE ltac:(tree_lia) ltac:(tree_lia) ltac:(tree_lia)
    (λ p set, ltckpt_check_first_level (below LTCKPT_2ND_LEVEL_OFFSET TREE_BITMAP_OFFSET p set))
    (walked2 m) (walked2_ext m) (walked2_out m) (block_marked m)
    (λ k i F m1, second_body_ok m k i F m1 Hok) 4 (4 * s) (λ _, false) m) as (m' & E & Z0 & A & J);
    [lia|lia|done|done|by repeat split|].
  replace (4 * (4 * s)) with (16 * s) in * by lia. exists m'. split; [done|]. split; [done|]. split; [done|].
  eapply walked2_ext, J. intros c. cbn [orb]. f_equal. symmetry. apply in_block128.
Qed.

(** ** The whole walk *)

Definition top_marked (m : mem) (t : Z) : bool := mark LTCKPT_3RD_LEVEL_OFFSET m t.

(** [tree_clear_bitmap]: the groups in [F] walked, the third level aside. *)
Definition walked3 (m : mem) (F : Z → bool) (m' : mem) : Prop :=
  (∀ x, ¬ level1 x → ¬ level2 x → ¬ level3 x → ¬ shadow x → m' x = m x) ∧
  (∀ x, level2 x → m' x = if F (level2_block x) then 0 else m x) ∧
  walked m (λ f, F (f / 128) && block_marked m f) m'.

Lemma walked3_ext m F G m' : (∀ j, F j = G j) → walked3 m F m' → walked3 m G m'.
Proof.
  intros E (H1 & H2 & H3). split; [done|]. split; [intros x Hx; rewrite H2; by rewrite ?E|].
  eapply walked_ext, H3. intros f. cbn. by rewrite E.
Qed.

Lemma walked3_out m F m1 m2 : mem_agree (λ x, ¬ level3 x) m2 m1 → walked3 m F m1 → walked3 m F m2.
Proof.
  intros E (H1 & H2 & H3 & H4). split; [|split; [|split]].
  - intros x Hx Hx2 Hx3 Hs. rewrite E by assumption. apply H1; assumption.
  - intros x Hx. rewrite E by tree_lia. by apply H2.
  - intros x Hx. rewrite E by tree_lia. by apply H3.
  - intros x Hx. rewrite E by tree_lia. by apply H4.
Qed.

Lemma walked3_blocks m F m' f :
  walked3 m F m' → 0 <= f < 8 * LTCKPT_2ND_LEVEL_SIZE →
  block_marked m' f = if F (f / 128) then false else block_marked m f.
Proof.
  intros (_ & H2 & _) Hf. unfold block_marked, mark. rewrite H2 by tree_lia.
  replace (level2_block (LTCKPT_2ND_LEVEL_OFFSET + f / 8)) with (f / 128) by (unfold level2_block; tree_lia).
  destruct (F (f / 128)); [apply Z.bits_0|done].
Qed.

(** One more group of blocks. *)
Lemma walked3_step m F m1 s m2 :
  walked3 m F m1 → F s = false → 0 <= s → 16 * s + 16 <= LTCKPT_2ND_LEVEL_SIZE →
  (∀ x, in_block (LTCKPT_2ND_LEVEL_OFFSET + 16 * s) 16 x → m2 x = 0) →
  mem_agree (λ x, level2 x ∧ ¬ in_block (LTCKPT_2ND_LEVEL_OFFSET + 16 * s) 16 x) m2 m1 →
  walked2 m1 (λ f, (f / 128 =? s) && block_marked m1 f) m2 →
  walked3 m (λ t, F t || (t =? s)) m2.
Proof.
  intros H HF Hs0 Hs Hz Ha (Hf2 & Hl1 & Hsh). destruct H as (Hf & Hl2 & Hw) eqn:EH. pose proof H as Hw3. clear EH.
  assert (∀ f, 0 <= f < 8 * LTCKPT_2ND_LEVEL_SIZE → ((f / 128 =? s) && block_marked m1 f)
    = ((f / 128 =? s) && block_marked m f)) as Hbm.
  { intros f Hfr. destruct (Z.eqb_spec (f / 128) s) as [E|]; [|done]. cbn.
    rewrite (walked3_blocks m F m1 f Hw3 Hfr). by rewrite E, HF. }
  split; [|split; [|split]].
  - intros x H1 H2 H3 H4. rewrite Hf2 by assumption. apply Hf; assumption.
  - intros x Hx. destruct (Z.eqb_spec (level2_block x) s) as [E|E]; unfold level2_block in *.
    + rewrite orb_true_r. apply Hz. tree_lia.
    + rewrite orb_false_r, Ha by (split; [done|tree_lia]). by apply Hl2.
  - intros x Hx. rewrite Hl1 by done. cbn beta. rewrite Hbm by (unfold level1_block; tree_lia).
    rewrite (proj1 Hw) by done. destruct (F (level1_block x / 128)), (level1_block x / 128 =? s), (block_marked m (level1_block x)); done.
  - intros x Hx. rewrite Hsh by done. cbn beta.
    assert (0 <= shadow_click x < 8 * LTCKPT_1ST_LEVEL_SIZE) as Hr by (unfold shadow_click; tree_lia).
    rewrite Hbm by tree_lia. rewrite (walked_marks m _ m1 _ Hw Hr), (proj2 Hw x Hx).
    rewrite (Hf (x - TREE_SHADOW_SPACE_OFFSET)) by tree_lia. cbn beta. set (f := shadow_click x / 128).
    destruct (Z.eqb_spec (f / 128) s) as [E|E]; [rewrite E, HF|];
      destruct (F (f / 128)), (block_marked m f), (click_marked m (shadow_click x)); done.
Qed.

Lemma third_body_ok m k i F m1 :
  level1_ok m → (∀ x, level2 x → is_byte (m x)) → 0 <= k → 4 * k + 4 <= LTCKPT_3RD_LEVEL_SIZE → 0 <= i < 32 →
  top_marked m (32 * k + i) = true → F (32 * k + i) = false → walked3 m F m1 →
  ∃ m2, ltckpt_check_second_level (below LTCKPT_3RD_LEVEL_OFFSET LTCKPT_2ND_LEVEL_OFFSET
          (LTCKPT_3RD_LEVEL_OFFSET + 4 * k) i) m1 = Ok () m2 ∧ mem_agree level3 m2 m1 ∧
    walked3 m (λ j, F j || (j =? 32 * k + i)) m2.
Proof.
  intros Hok Hb Hk Hks Hi _ HF Hw. rewrite below_run by tree_lia.
  destruct (second_level_run m1 (32 * k + i)) as (m2 & E & Hz & Ha & H2).
  - eapply walked_ok; [apply Hw|done].
  - intros x Hx. rewrite (proj1 (proj2 Hw)) by done.
    destruct (F (level2_block x)); [by unfold is_byte|by apply Hb].
  - lia.
  - tree_lia.
  - exists m2. split; [done|]. split.
    + intros x Hx. apply H2; tree_lia.
    + apply (walked3_step m F m1 _ m2); try done; tree_lia.
Qed.

Lemma third_level_run m :
  level1_ok m → (∀ x, level2 x → is_byte (m x)) → (∀ x, level3 x → is_byte (m x)) →
  ∃ m', tree_clear_bitmap m = Ok () m' ∧ (∀ x, level3 x → m' x = 0) ∧
    walked3 m (λ t, (0 <=? t) && (t <? 8 * LTCKPT_3RD_LEVEL_SIZE) && top_marked m t) m'.
Proof.
  intros Hok Hb2 Hb3.
  destruct (words_loop_run LTCKPT_3RD_LEVEL_OFFSET LTCKPT_3RD_LEVEL_SIZE ltac:(tree_lia) ltac:(tree_lia) ltac:(tree_lia)
    (λ p set, ltckpt_check_second_level (below LTCKPT_3RD_LEVEL_OFFSET LTCKPT_2ND_LEVEL_OFFSET p set))
    (walked3 m) (walked3_ext m) (walked3_out m) (top_marked m)
    (λ k i F m1, third_body_ok m k i F m1 Hok Hb2) 192 0 (λ _, false) m) as (m' & E & Z0 & A & J);
    [lia|tree_lia|done|done|by repeat split|].
  exists m'. split; [done|]. split; [intros x Hx; apply Z0; tree_lia|exact J].
Qed.

(** A bitmap as [tree_set_bit] leaves it: what is marked is marked above. *)
Record tree_ok (m : mem) : Prop := {
  to_level1 : level1_ok m;
  to_level2 : ∀ x, level2 x → is_byte (m x);
  to_level3 : ∀ x, level3 x → is_byte (m x);
  to_up2 : ∀ c, 0 <= c < 8 * LTCKPT_1ST_LEVEL_SIZE → click_marked m c = true → block_marked m (c / 128) = true;
  to_up3 : ∀ f, 0 <= f < 8 * LTCKPT_2ND_LEVEL_SIZE → block_marked m f = true → top_marked m (f / 128) = true;
}.

(** A byte without marks. *)
Lemma byte_unmarked base m b :
  is_byte (m (base + b)) → 0 <= b → (∀ j, 8 * b <= j < 8 * b + 8 → mark base m j = false) → m (base + b) = 0.
Proof.
  intros Hb Hb0 H. apply Z.bits_inj'. intros i Hi. rewrite Z.bits_0. destruct (decide (i < 8)) as [Hi8|Hi8].
  - specialize (H (8 * b + i) ltac:(lia)). unfold mark in H.
    replace (8 * b + i) with (i + b * 8) in H by lia.
    rewrite Z.div_add, Z.mod_add, Z.div_small, Z.mod_small in H by lia. done.
  - rewrite <- (Z.mod_small (m (base + b)) (2 ^ 8)) by (by unfold is_byte in Hb).
    apply Z.mod_pow2_bits_high. lia.
Qed.

(** The walk: the marked clicks are copied, the bitmaps cleared, nothing else changes. *)
Lemma clear_bitmap_run m :
  tree_ok m →
  ∃ m', tree_clear_bitmap m = Ok () m' ∧
    (∀ x, level1 x ∨ level2 x ∨ level3 x → m' x = 0) ∧
    (∀ x, ¬ level1 x → ¬ level2 x → ¬ level3 x → ¬ shadow x → m' x = m x) ∧
    (∀ x, shadow x → m' x =
       if click_marked m (shadow_click x) then m (x - TREE_SHADOW_SPACE_OFFSET) else m x).
Proof.
  intros [H1 H2 H3 Hu2 Hu3]. destruct (third_level_run m H1 H2 H3) as (m' & E & Hz3 & Hf & Hl2 & Hl1 & Hs).
  assert (∀ t, 0 <= t < 8 * LTCKPT_3RD_LEVEL_SIZE →
    (0 <=? t) && (t <? 8 * LTCKPT_3RD_LEVEL_SIZE) && top_marked m t = top_marked m t) as Ht.
  { intros t Hr. by rewrite (proj2 (Z.leb_le 0 t)), (proj2 (Z.ltb_lt t _)) by lia. }
  exists m'. split; [done|]. split; [|split; [done|]].
  - intros x [Hx|[Hx|Hx]]; [| |by apply Hz3].
    + rewrite Hl1 by done. rewrite Ht by (unfold level1_block; tree_lia).
      destruct (block_marked m (level1_block x)) eqn:Eb.
      * by rewrite Hu3 by (unfold level1_block in *; done || tree_lia).
      * rewrite andb_false_r. replace x with (TREE_BITMAP_OFFSET + (x - TREE_BITMAP_OFFSET)) by lia.
        apply byte_unmarked; [replace (_ + _) with x by lia; by apply H1|tree_lia|].
        intros j Hj. apply not_true_iff_false. intros Ej. apply Hu2 in Ej; [|tree_lia].
        replace (j / 128) with (level1_block x) in Ej by (unfold level1_block; tree_lia). congruence.
    + rewrite Hl2 by done. rewrite Ht by (unfold level2_block; tree_lia).
      destruct (top_marked m (level2_block x)) eqn:Eb; [done|].
      replace x with (LTCKPT_2ND_LEVEL_OFFSET + (x - LTCKPT_2ND_LEVEL_OFFSET)) by lia.
      apply byte_unmarked; [replace (_ + _) with x by lia; by apply H2|tree_lia|].
      intros j Hj. apply not_true_iff_false. intros Ej. apply Hu3 in Ej; [|tree_lia].
      replace (j / 128) with (level2_block x) in Ej by (unfold level2_block; tree_lia). congruence.
  - intros x Hx. rewrite Hs by done. cbn beta. rewrite Ht by (unfold shadow_click; tree_lia).
    destruct (click_marked m (shadow_click x)) eqn:Ec; [|by rewrite andb_false_r].
    assert (block_marked m (shadow_click x / 128) = true) as Eb by (apply Hu2; [unfold shadow_click; tree_lia|done]).
    by rewrite Eb, Hu3 by (unfold shadow_click in *; done || tree_lia).
Qed.

(** ** Marking *)

Section MarkLevel.
Context (base j : Z) (m : mem) (Hbase : 0 <= base) (Hj : 0 <= j) (Htop : base + j / 8 < 4294967296).

Lemma mark_level_at : mark_level base j m = upd m (base + j / 8) (u8 (Z.lor (m (base + j / 8)) (2 ^ (j mod 8)))).
Proof.
  unfold mark_level, LTCKPT_NTH_BIT_MASK, LTCKPT_CLICKS_PER_BYTE. pose proof (Z.div_pos j 8 Hj ltac:(lia)).
  rewrite u32_small by lia. change (8 - 1) with (Z.ones 3). rewrite Z.land_ones by lia.
  by rewrite Z.shiftl_mul_pow2, Z.mul_1_l by (apply Z.mod_pos_bound; lia).
Qed.

Lemma mark_level_byte x : is_byte (m x) → is_byte (mark_level base j m x).
Proof.
  intros H. rewrite mark_level_at. unfold upd. destruct (x =? _); [|done].
  unfold is_byte, u8. apply (uwrap_range 8). lia.
Qed.

Lemma mark_level_out x : x ≠ base + j / 8 → mark_level base j m x = m x.
Proof. intros H. rewrite mark_level_at. by apply upd_ne. Qed.

Lemma mark_level_mark i : 0 <= i → mark base (mark_level base j m) i = mark base m i || (i =? j).
Proof.
  intros Hi. unfold mark. rewrite mark_level_at. pose proof (Z.mod_pos_bound i 8 ltac:(lia)) as Hm.
  pose proof (Z.mod_pos_bound j 8 ltac:(lia)) as Hmj.
  destruct (decide (i / 8 = j / 8)) as [E|E].
  - rewrite E, upd_eq. unfold u8, uwrap. rewrite Z.mod_pow2_bits_low, Z.lor_spec by lia. f_equal.
    rewrite Z.pow2_bits_eqb by lia. destruct (Z.eqb_spec (j mod 8) (i mod 8)), (Z.eqb_spec i j); try done;
      Z.to_euclidean_division_equations; lia.
  - rewrite upd_ne by lia. destruct (Z.eqb_spec i j) as [->|]; [done|by rewrite orb_false_r].
Qed.
End MarkLevel.

Lemma set_bit_levels a m : 0 <= a < TREE_BITMAP_OFFSET →
  tree_set_bit a m = mark_level LTCKPT_3RD_LEVEL_OFFSET (a / 16 / 128 / 128)
    (mark_level LTCKPT_2ND_LEVEL_OFFSET (a / 16 / 128) (mark_level TREE_BITMAP_OFFSET (a / 16) m)).
Proof.
  intros Ha. unfold tree_set_bit. layout. rewrite u32_small by lia.
  rewrite !(Z.div_div _ 8 16) by lia. done.
Qed.

(** Marking an address below the bitmaps. *)
Lemma set_bit_run a m :
  0 <= a < TREE_BITMAP_OFFSET → tree_ok m →
  tree_ok (tree_set_bit a m) ∧
  (∀ x, ¬ level1 x → ¬ level2 x → ¬ level3 x → tree_set_bit a m x = m x) ∧
  ∀ c, 0 <= c < 8 * LTCKPT_1ST_LEVEL_SIZE → click_marked (tree_set_bit a m) c = click_marked m c || (c =? a / 16).
Proof.
  intros Ha [[H1 H1'] H2 H3 Hu2 Hu3]. rewrite set_bit_levels by done.
  set (m1 := mark_level TREE_BITMAP_OFFSET (a / 16) m).
  set (m2 := mark_level LTCKPT_2ND_LEVEL_OFFSET (a / 16 / 128) m1).
  set (m3 := mark_level LTCKPT_3RD_LEVEL_OFFSET (a / 16 / 128 / 128) m2).
  assert (∀ x, ¬ level3 x → m3 x = m2 x) as O3 by (intros x Hx; apply mark_level_out; tree_lia).
  assert (∀ x, ¬ level2 x → m2 x = m1 x) as O2 by (intros x Hx; apply mark_level_out; tree_lia).
  assert (∀ x, ¬ level1 x → m1 x = m x) as O1 by (intros x Hx; apply mark_level_out; tree_lia).
  assert (∀ c, 0 <= c < 8 * LTCKPT_1ST_LEVEL_SIZE → click_marked m3 c = click_marked m c || (c =? a / 16)) as C.
  { intros c Hc. unfold click_marked. rewrite <- mark_level_mark by tree_lia. fold m1. unfold mark.
    by rewrite O3, O2 by tree_lia. }
  assert (∀ f, 0 <= f < 8 * LTCKPT_2ND_LEVEL_SIZE → block_marked m3 f = block_marked m f || (f =? a / 16 / 128)) as B.
  { intros f Hf. unfold block_marked. transitivity (mark LTCKPT_2ND_LEVEL_OFFSET m2 f).
    - unfold mark. by rewrite O3 by tree_lia.
    - unfold m2. rewrite mark_level_mark by tree_lia. unfold mark. by rewrite O1 by tree_lia. }
  assert (∀ t, 0 <= t < 8 * LTCKPT_3RD_LEVEL_SIZE → top_marked m3 t = top_marked m t || (t =? a / 16 / 128 / 128)) as T.
  { intros t Ht. unfold top_marked, m3. rewrite mark_level_mark by tree_lia. unfold mark. by rewrite O2, O1 by tree_lia. }
  split; [split|split; [|done]].
  - split.
    + intros x Hx. rewrite O3, O2 by tree_lia. apply mark_level_byte; [..|by apply H1]; tree_lia.
    + intros c Hc. rewrite C by done. intros [E|E%Z.eqb_eq]%orb_true_iff; [by apply H1'|tree_lia].
  - intros x Hx. rewrite O3 by tree_lia. apply mark_level_byte; [tree_lia..|]. rewrite O1 by tree_lia. by apply H2.
  - intros x Hx. apply mark_level_byte; [tree_lia..|]. rewrite O2, O1 by tree_lia. by apply H3.
  - intros c Hc. rewrite C, B by tree_lia. intros [E|E%Z.eqb_eq]%orb_true_iff.
    + by rewrite Hu2.
    + subst c. by rewrite Z.eqb_refl, orb_true_r.
  - intros f Hf. rewrite B, T by tree_lia. intros [E|E%Z.eqb_eq]%orb_true_iff.
    + by rewrite Hu3.
    + subst f. by rewrite Z.eqb_refl, orb_true_r.
  - intros x Hx1 Hx2 Hx3. rewrite O3, O2, O1 by assumption. done.
Qed.

(** ** A window *)

(** What the program does, with the hook before it. *)
Inductive tree_op :=
  | TStore (a : Z) (bs : list Z)
  | TMemcpy (a : Z) (bs : list Z).

Definition tree_step (op : tree_op) : P () :=
  match op with
  | TStore a bs => tree_store_hook a ;; modify (λ m, store_bytes m a bs)
  | TMemcpy a bs => tree_memcpy_hook a (zlen bs) ;; modify (λ m, store_bytes m a bs)
  end.

Fixpoint tree_run (ops : list tree_op) : P () :=
  match ops with
  | [] => skip
  | op :: ops' => tree_step op ;; tree_run ops'
  end.

(** The same writes without checkpointing. *)
Definition tree_plain (ops : list tree_op) (m : mem) : mem :=
  foldl (λ m op, match op with TStore a bs | TMemcpy a bs => store_bytes m a bs end) m ops.

(** Writes go below the bitmaps; a store stays within its click. *)
Definition tree_op_ok (op : tree_op) : Prop :=
  match op with
  | TStore a bs => 0 <= a ∧ a + zlen bs <= TREE_BITMAP_OFFSET ∧ a < TREE_BITMAP_OFFSET ∧
      ∀ x, in_block a (zlen bs) x → x / 16 = a / 16
  | TMemcpy a bs => 0 <= a ∧ a + zlen bs <= TREE_BITMAP_OFFSET
  end.

(** In a window that began at [m0]: the shadow is the checkpoint, and what differs from it is
    marked. *)
Definition in_tree_window (m0 m : mem) : Prop :=
  tree_ok m ∧ ∀ x, 0 <= x < TREE_BITMAP_OFFSET →
    m (TREE_SHADOW_SPACE_OFFSET + x) = m0 x ∧ (click_marked m (x / 16) = false → m x = m0 x).

Lemma set_bit_window m0 a m :
  0 <= a < TREE_BITMAP_OFFSET → in_tree_window m0 m →
  in_tree_window m0 (tree_set_bit a m) ∧ click_marked (tree_set_bit a m) (a / 16) = true ∧
  (∀ c, 0 <= c < 8 * LTCKPT_1ST_LEVEL_SIZE → click_marked m c = true → click_marked (tree_set_bit a m) c = true) ∧
  mem_agree (λ x, 0 <= x < TREE_BITMAP_OFFSET) (tree_set_bit a m) m.
Proof.
  intros Ha [Hok Hw]. destruct (set_bit_run a m Ha Hok) as (Hok' & Ho & Hc).
  split; [split; [done|]|split; [|split]].
  - intros x Hx. destruct (Hw x Hx) as [H1 H2]. rewrite !Ho by tree_lia. split; [done|].
    rewrite Hc by tree_lia. intros [Hf _]%orb_false_iff. by apply H2.
  - rewrite Hc by tree_lia. by rewrite Z.eqb_refl, orb_true_r.
  - intros c Hr Hm. by rewrite Hc, Hm.
  - intros x Hx. apply Ho; tree_lia.
Qed.

(** Marks are bytes of the levels. *)
Lemma marks_agree m m' :
  mem_agree (λ x, level1 x ∨ level2 x ∨ level3 x) m' m →
  (∀ c, 0 <= c < 8 * LTCKPT_1ST_LEVEL_SIZE → click_marked m' c = click_marked m c) ∧
  (∀ f, 0 <= f < 8 * LTCKPT_2ND_LEVEL_SIZE → block_marked m' f = block_marked m f) ∧
  (∀ t, 0 <= t < 8 * LTCKPT_3RD_LEVEL_SIZE → top_marked m' t = top_marked m t).
Proof.
  intros E. unfold click_marked, block_marked, top_marked, mark.
  split; [|split]; intros i Hi; rewrite E; [done|tree_lia..|done|tree_lia|done|tree_lia].
Qed.

Lemma tree_ok_agree m m' : mem_agree (λ x, level1 x ∨ level2 x ∨ level3 x) m' m → tree_ok m → tree_ok m'.
Proof.
  intros E [[H1 H1'] H2 H3 Hu2 Hu3]. destruct (marks_agree m m' E) as (C & B & T). split.
  - split; [intros x Hx; rewrite E by auto; by apply H1|]. intros c Hc. rewrite C by done. by apply H1'.
  - intros x Hx. rewrite E by auto. by apply H2.
  - intros x Hx. rewrite E by auto. by apply H3.
  - intros c Hc. rewrite C, B by tree_lia. by apply Hu2.
  - intros f Hf. rewrite B, T by tree_lia. by apply Hu3.
Qed.

(** A write whose clicks are marked stays in the window. *)
Lemma write_window m0 m a bs :
  0 <= a → a + zlen bs <= TREE_BITMAP_OFFSET → in_tree_window m0 m →
  (∀ x, in_block a (zlen bs) x → click_marked m (x / 16) = true) →
  in_tree_window m0 (store_bytes m a bs).
Proof.
  intros Ha Hb [Hok Hw] Hm.
  assert (∀ x, TREE_BITMAP_OFFSET <= x → store_bytes m a bs x = m x) as Ho
    by (intros x Hx; apply store_bytes_out; tree_lia).
  assert (mem_agree (λ x, level1 x ∨ level2 x ∨ level3 x) (store_bytes m a bs) m) as E
    by (intros x Hx; apply Ho; tree_lia).
  split; [by apply (tree_ok_agree m)|]. intros x Hx. destruct (Hw x Hx) as [H1 H2].
  rewrite Ho by tree_lia. split; [done|]. rewrite (proj1 (marks_agree _ _ E)) by tree_lia. intros Hf.
  rewrite store_bytes_out; [by apply H2|]. intros Hin. rewrite Hm in Hf; done.
Qed.

Lemma memcpy_loop_window m0 stop_at fuel : ∀ reg m,
  0 <= reg → reg mod 16 = 0 → stop_at <= TREE_BITMAP_OFFSET → stop_at - reg <= 16 * (Z.of_nat fuel - 1) →
  (0 < fuel)%nat → in_tree_window m0 m →
  ∃ m', tree_memcpy_loop fuel reg stop_at m = Ok () m' ∧ in_tree_window m0 m' ∧
    mem_agree (λ x, 0 <= x < TREE_BITMAP_OFFSET) m' m ∧
    (∀ c, 0 <= c < 8 * LTCKPT_1ST_LEVEL_SIZE → click_marked m c = true → click_marked m' c = true) ∧
    ∀ x, reg <= x < stop_at → click_marked m' (x / 16) = true.
Proof.
  induction fuel as [|fuel IH]; intros reg m H0 Hal Hs Hf Hf0 Hw; [lia|]. cbn [tree_memcpy_loop].
  destruct (Z.ltb_spec reg stop_at) as [Hlt|Hge].
  - rewrite bind_modify. destruct (set_bit_window m0 reg m) as (Hw1 & Hm1 & Hg1 & Ha1); [lia|done|].
    rewrite u32_small by tree_lia.
    destruct (IH (reg + TREE_BITMAP_CLICK) (tree_set_bit reg m)) as (m' & E & Hw' & Ha & Hg & Hm);
      [tree_lia|tree_lia|done|tree_lia|tree_lia|done|].
    exists m'. split; [done|]. split; [done|]. split; [by etransitivity|]. split; [auto|].
    intros x Hx. destruct (decide (x < reg + TREE_BITMAP_CLICK)).
    + replace (x / 16) with (reg / 16) by tree_lia. apply Hg; [tree_lia|done].
    + apply Hm. lia.
  - exists m. split; [done|]. split; [done|]. split; [done|]. split; [done|]. lia.
Qed.

Lemma memcpy_hook_window m0 a size m :
  0 <= a → 0 <= size → a + size <= TREE_BITMAP_OFFSET → in_tree_window m0 m →
  ∃ m', tree_memcpy_hook a size m = Ok () m' ∧ in_tree_window m0 m' ∧
    mem_agree (λ x, 0 <= x < TREE_BITMAP_OFFSET) m' m ∧
    ∀ x, in_block a size x → click_marked m' (x / 16) = true.
Proof.
  intros Ha Hsz Hb Hw. unfold tree_memcpy_hook. change (TREE_BITMAP_CLICK - 1) with (Z.ones 4).
  rewrite land_lnot_ones by lia. change (2 ^ 4) with 16. rewrite u32_small by tree_lia.
  destruct (memcpy_loop_window m0 (a + size) (Z.to_nat (size / TREE_BITMAP_CLICK + 3)) (a - a mod 16) m)
    as (m' & E & Hw' & Hag & _ & Hm); [tree_lia|tree_lia|done|tree_lia|tree_lia|done|].
  exists m'. split; [done|]. split; [done|]. split; [done|]. intros x Hx. apply Hm. tree_lia.
Qed.

Lemma tree_step_window m0 op m :
  tree_op_ok op → in_tree_window m0 m →
  ∃ m', tree_step op m = Ok () m' ∧ in_tree_window m0 m' ∧
    mem_agree (λ x, 0 <= x < TREE_BITMAP_OFFSET) m' (tree_plain [op] m).
Proof.
  destruct op as [a bs|a bs]; cbn [tree_step tree_op_ok tree_plain foldl].
  - intros (Ha & Hb & Hlt & Hx) Hw. destruct (set_bit_window m0 a m) as (Hw1 & Hm1 & _ & Ha1); [done|done|].
    eexists. split; [reflexivity|]. split; [apply write_window; try done; intros x Hin; by rewrite Hx|].
    apply store_bytes_agree. intros x [Hin _]. by apply Ha1.
  - intros (Ha & Hb) Hw. destruct (memcpy_hook_window m0 a (zlen bs) m) as (m' & E & Hw' & Hag & Hm); [lia|lia|done|done|].
    rewrite (bind_Ok _ _ _ _ _ E). eexists. split; [reflexivity|]. split; [by apply write_window|].
    apply store_bytes_agree. intros x [Hin _]. by apply Hag.
Qed.

Lemma tree_plain_agree (Q : Z → Prop) ops m m' :
  mem_agree Q m' m → mem_agree Q (tree_plain ops m') (tree_plain ops m).
Proof.
  revert m m'. induction ops as [|op ops IH]; intros m m' E; [done|]. cbn. apply IH.
  destruct op; apply store_bytes_agree; intros x [Hx _]; by apply E.
Qed.

Lemma tree_run_window m0 ops : ∀ m,
  Forall tree_op_ok ops → in_tree_window m0 m →
  ∃ m', tree_run ops m = Ok () m' ∧ in_tree_window m0 m' ∧
    mem_agree (λ x, 0 <= x < TREE_BITMAP_OFFSET) m' (tree_plain ops m).
Proof.
  induction ops as [|op ops IH]; intros m Hok Hw; [by exists m|]. apply Forall_cons in Hok as [Hop Hok].
  destruct (tree_step_window m0 op m Hop Hw) as (m1 & E1 & Hw1 & Ha1).
  destruct (IH m1 Hok Hw1) as (m2 & E2 & Hw2 & Ha2). exists m2. cbn [tree_run].
  rewrite (bind_Ok _ _ _ _ _ E1). split; [done|]. split; [done|]. etransitivity; [done|].
  change (tree_plain (op :: ops) m) with (tree_plain ops (tree_plain [op] m)). by apply tree_plain_agree.
Qed.

(** The state at a checkpoint: no marks, and the shadow a copy of the memory. *)
Definition tree_synced (m : mem) : Prop :=
  (∀ x, level1 x ∨ level2 x ∨ level3 x → m x = 0) ∧
  ∀ x, 0 <= x < TREE_BITMAP_OFFSET → m (TREE_SHADOW_SPACE_OFFSET + x) = m x.

Lemma synced_window m : tree_synced m → in_tree_window m m.
Proof.
  intros [Hz Hs].
  assert (∀ c, 0 <= c < 8 * LTCKPT_1ST_LEVEL_SIZE → click_marked m c = false) as C
    by (intros c Hc; unfold click_marked, mark; rewrite Hz by tree_lia; apply Z.bits_0).
  assert (∀ f, 0 <= f < 8 * LTCKPT_2ND_LEVEL_SIZE → block_marked m f = false) as B
    by (intros f Hf; unfold block_marked, mark; rewrite Hz by tree_lia; apply Z.bits_0).
  split; [split|].
  - split; [intros x Hx; rewrite Hz by auto; by unfold is_byte|]. intros c Hc. by rewrite C.
  - intros x Hx. rewrite Hz by auto. by unfold is_byte.
  - intros x Hx. rewrite Hz by auto. by unfold is_byte.
  - intros c Hc. by rewrite C.
  - intros f Hf. by rewrite B.
  - intros x Hx. split; [by apply Hs|done].
Qed.

(** The store hook marks the click of the address alone: of a store that extends over the end of its
    click (a store of eight bytes at an address that is 12 modulo 16, say) the bytes behind it are
    not copied by the next checkpoint. *)
Theorem tree_crossing_store_missed m a bs x :
  tree_synced m → 0 <= a → a + zlen bs <= TREE_BITMAP_OFFSET →
  in_block a (zlen bs) x → x / 16 ≠ a / 16 →
  ∃ m1 m2, tree_run [TStore a bs] m = Ok () m1 ∧ tree_clear_bitmap m1 = Ok () m2 ∧
    m2 x = store_bytes m a bs x ∧ m2 (TREE_SHADOW_SPACE_OFFSET + x) = m x.
Proof.
  intros Hs Ha Hb Hx Hne. pose proof (synced_window m Hs) as [Hok _]. destruct Hs as [Hz Hsh].
  assert (0 <= a < TREE_BITMAP_OFFSET ∧ 0 <= x < TREE_BITMAP_OFFSET) as [Har Hxr] by (unfold in_block in Hx; lia).
  destruct (set_bit_run a m Har Hok) as (Hok1 & Ho & Hc).
  set (m1 := store_bytes (tree_set_bit a m) a bs).
  assert (∀ y, TREE_BITMAP_OFFSET <= y → m1 y = tree_set_bit a m y) as Hhi
    by (intros y Hy; apply store_bytes_out; tree_lia).
  assert (mem_agree (λ y, level1 y ∨ level2 y ∨ level3 y) m1 (tree_set_bit a m)) as E
    by (intros y Hy; apply Hhi; tree_lia).
  destruct (clear_bitmap_run m1) as (m2 & E2 & _ & Hf & Hcp); [by apply (tree_ok_agree (tree_set_bit a m))|].
  exists m1, m2. split; [done|]. split; [done|]. split.
  - rewrite Hf by tree_lia. apply (store_bytes_agree (λ y, y = x)); [|done]. intros y [-> _]. apply Ho; tree_lia.
  - rewrite Hcp by tree_lia. unfold shadow_click.
    replace (TREE_SHADOW_SPACE_OFFSET + x - TREE_SHADOW_SPACE_OFFSET) with x by lia.
    rewrite (proj1 (marks_agree _ _ E)), Hc by tree_lia.
    replace (click_marked m (x / 16)) with false
      by (symmetry; unfold click_marked, mark; rewrite Hz by tree_lia; apply Z.bits_0).
    rewrite (proj2 (Z.eqb_neq _ _)) by done. cbn [orb]. rewrite Hhi, Ho by tree_lia. by apply Hsh.
Qed.

(** C21: The tree of bitmaps keeps the shadow a checkpoint. From a checkpoint on, let the program
    store and copy below the bitmaps, with the hook before each write, each store within one click
    of 16 bytes and copies of any length ([tree_op_ok]: the hook marks the click of the first byte
    of a store only, and [tree_crossing_store_missed] shows what becomes of a store that crosses
    into the next click). Until the next checkpoint the shadow holds the memory as it was at the
    last one; the walk of the next checkpoint ends, and leaves the shadow a copy of the memory as
    it is then and the three levels of bitmaps empty; the program's memory is what it would be
    without checkpoints. *)
Theorem tree_checkpoint_syncs (m : mem) (ops : list tree_op) :
  tree_synced m → Forall tree_op_ok ops →
  ∃ m1 m2, tree_run ops m = Ok () m1 ∧ tree_clear_bitmap m1 = Ok () m2 ∧ tree_synced m2 ∧
    ∀ x, 0 <= x < TREE_BITMAP_OFFSET →
      m1 x = tree_plain ops m x ∧ m1 (TREE_SHADOW_SPACE_OFFSET + x) = m x ∧ m2 x = tree_plain ops m x.
Proof.
  intros Hs Hops. destruct (tree_run_window m ops m Hops (synced_window m Hs)) as (m1 & E1 & [Hok Hw] & Ha).
  destruct (clear_bitmap_run m1 Hok) as (m2 & E2 & Hz & Hf & Hsh).
  assert (∀ x, 0 <= x < TREE_BITMAP_OFFSET → m2 x = m1 x) as Hp by (intros x Hx; apply Hf; tree_lia).
  exists m1, m2. split; [done|]. split; [done|]. split; [split; [done|]|].
  - intros x Hx. destruct (Hw x Hx) as [H1 H2]. rewrite Hsh, Hp by tree_lia. unfold shadow_click.
    replace (TREE_SHADOW_SPACE_OFFSET + x - TREE_SHADOW_SPACE_OFFSET) with x by lia.
    destruct (click_marked m1 (x / 16)); [done|]. rewrite H1. symmetry. by apply H2.
  - intros x Hx. rewrite Hp by done. destruct (Hw x Hx) as [H1 _]. by rewrite Ha.
Qed.

Definition demo_ops : list tree_op := [TStore 4096 [1; 2; 3; 4]; TMemcpy 70000 [5; 6; 7]; TStore 4104 [9]].

Lemma tree_checkpoint_syncs_witness :
  ∃ m1 m2, tree_run demo_ops (λ _, 0) = Ok () m1 ∧ tree_clear_bitmap m1 = Ok () m2 ∧ tree_synced m2 ∧
    ∀ x, 0 <= x < TREE_BITMAP_OFFSET →
      m1 x = tree_plain demo_ops (λ _, 0) x ∧ m1 (TREE_SHADOW_SPACE_OFFSET + x) = 0 ∧
      m2 x = tree_plain demo_ops (λ _, 0) x.
Proof.
  apply (tree_checkpoint_syncs (λ _, 0) demo_ops); [by split|].
  repeat constructor; try (vm_compute; congruence); intros x Hx; unfold in_block in Hx; cbn in Hx;
    Z.to_euclidean_division_equations; lia.
Defined.
