(* ===== verification/BitmapPlain.v ===== *)
(** * The plain bitmap

    [ltckpt/mechanisms/bitmap/bitmap_plain.h], the layout of the bitmap mechanism on 32-bit
    MINIX, with the scheme that saves a region of eight bytes to the shadow space before the
    first store to it after a checkpoint ([LTCKPT_DIFF_SCHEME]): the hooks of
    [ltckpt_bitmap.c] and the map from marks back to addresses, which the restart uses.

    The store hook keeps the checkpoint recoverable ([plain_stores_recoverable]).  The memcpy
    hook tests the mark the other way round ([memcpy_hook_inverted]). *)
From stdpp Require Import base numbers list.
From Stdlib Require Import ZArith Lia.
From S2P Require Import Prelude Memory Ctx Common Bitmap BitmapTree.

(** The shadow space is that of [BitmapTree]; a click is eight bytes. *)
Definition PLAIN_BITMAP_CLICK : Z := 8.
Definition PLAIN_BITMAP_SIZE : Z := TREE_SHADOW_SPACE_SIZE / (PLAIN_BITMAP_CLICK * 8).
Definition PLAIN_BITMAP_OFFSET : Z := TREE_SHADOW_SPACE_OFFSET - PLAIN_BITMAP_SIZE.

(** [ltckpt_set_bit]: the previous state of the mark. *)
Definition plain_set_bit (a : Z) (m : mem) : Z * mem :=
  let address := u32 a / PLAIN_BITMAP_CLICK in
  let bit := Z.land address LTCKPT_NTH_BIT_MASK in
  let p := u32 (PLAIN_BITMAP_OFFSET + address / LTCKPT_CLICKS_PER_BYTE) in
  (Z.land (m p) (Z.shiftl 1 bit), mark_level PLAIN_BITMAP_OFFSET address m).

(** [ltckpt_addr_to_region], [ltckpt_primary_to_shadow] on x86, [ltckpt_save_region]. *)
Definition plain_region (addr : Z) : Z := Z.land addr (Z.lnot (PLAIN_BITMAP_CLICK - 1)).
Definition plain_shadow (a : Z) : Z := u32 (a + TREE_SHADOW_SPACE_OFFSET).
Definition plain_save_region (region : Z) (m : mem) : mem :=
  store_bytes m (plain_shadow region) (load_bytes m region 8).

(** [ltckpt_get_primary_from_bitmap]: the address of a mark and the size of its region. *)
Definition ltckpt_get_primary_from_bitmap (a bitmap_offset bit_num : Z) : Z * Z :=
  (u32 (u32 (a - bitmap_offset) * PLAIN_BITMAP_CLICK * LTCKPT_CLICKS_PER_BYTE
        + LTCKPT_CLICKS_PER_BYTE * bit_num), LTCKPT_CLICKS_PER_BYTE).

Definition ltckpt_get_offset : Z := TREE_SHADOW_SPACE_OFFSET.

(** The memory and the globals of the mechanism. *)
Record plain := mk_plain { pl_mem : mem; ltckpt_bitmap_enabled : Z; pl_first_time : Z; pl_ctx : ltckpt_ctx }.

Definition set_pl_mem (v : mem) (s : plain) : plain :=
  mk_plain v (ltckpt_bitmap_enabled s) (pl_first_time s) (pl_ctx s).
Definition set_bitmap_enabled (v : Z) (s : plain) : plain :=
  mk_plain (pl_mem s) v (pl_first_time s) (pl_ctx s).
Definition set_pl_first_time (v : Z) (s : plain) : plain :=
  mk_plain (pl_mem s) (ltckpt_bitmap_enabled s) v (pl_ctx s).
Definition set_pl_ctx (v : ltckpt_ctx) (s : plain) : plain :=
  mk_plain (pl_mem s) (ltckpt_bitmap_enabled s) (pl_first_time s) v.

(** ** Hooks *)

(** The store hook; the statistics of stores are in [Bitmap]. *)
Definition plain_store_mem (addr : Z) (m : mem) : mem :=
  let '(bitset, m1) := plain_set_bit addr m in
  if bitset =? 0 then plain_save_region (plain_region addr) m1 else m1.

Definition plain_store_hook (addr : Z) (s : plain) : plain :=
  if truthy (ltckpt_bitmap_enabled s) then set_pl_mem (plain_store_mem addr (pl_mem s)) s else s.

(** The body of the loop of the memcpy hook. *)
Definition plain_memcpy_region (reg : Z) (m : mem) : mem :=
  let '(bitset, m1) := plain_set_bit reg m in
  if truthy bitset then plain_save_region reg m1 else m1.

Fixpoint plain_memcpy_loop (fuel : nat) (reg stop_at : Z) (m : mem) : option mem :=
  if reg <? stop_at then
    match fuel with
    | O => None
    | S fuel' => plain_memcpy_loop fuel' (u32 (reg + PLAIN_BITMAP_CLICK)) stop_at (plain_memcpy_region reg m)
    end
  else Some m.

Definition plain_memcpy_hook (addr size : Z) (s : plain) : option plain :=
  if truthy (ltckpt_bitmap_enabled s) then
    m ← plain_memcpy_loop (Z.to_nat (size / PLAIN_BITMAP_CLICK + 2)) (plain_region addr)
          (u32 (addr + size)) (pl_mem s);
    Some (set_pl_mem m s)
  else Some s.

Section Tol.
Context {os : Type} `{vmem : VMem os}.

Local Abbreviation P := (prog (plain * os)).

Definition plain_put (f : plain → plain) : P () := modify (λ s, (f s.1, s.2)).

Definition plain_allocate (start size : Z) : P () := λ '(s, o),
  let flags := Z.lor (Z.lor LTCKPT_MAP_FIXED LTCKPT_MAP_PRIVATE) LTCKPT_MAP_NORESERVE in
  let '(ret, o) := ltckpt_mmap start size (Z.lor PROT_WRITE PROT_READ) flags o in
  if ret =? LTCKPT_MAP_FAILED then Stop Panic (s, o)
  else Ok () (set_pl_mem (zero_fill start size (pl_mem s)) s, o).

Definition plain_allocate_bitmap : P () := plain_allocate PLAIN_BITMAP_OFFSET PLAIN_BITMAP_SIZE.

(** The top-of-the-loop hook: the bitmap is mapped anew, which clears it. *)
Definition plain_top_of_the_loop : P () :=
  go ← gets (λ s, fst (CTX_NEW_TOL_OR_RETURN (pl_ctx s.1)));
  plain_put (λ s, set_pl_ctx (snd (CTX_NEW_TOL_OR_RETURN (pl_ctx s))) s) ;;
  if negb go then skip else
  ft ← gets (λ s, pl_first_time s.1);
  when (truthy ft)
    (plain_allocate_bitmap ;; plain_allocate TREE_SHADOW_SPACE_OFFSET TREE_SHADOW_SPACE_SIZE ;;
     plain_put (set_pl_first_time 0)) ;;
  plain_allocate_bitmap ;;
  plain_put (set_bitmap_enabled 1) ;;
  plain_put (λ s, set_pl_ctx (CTX_NEW_CHECKPOINT (pl_ctx s)) s).

End Tol.

(** ** Marks *)

Definition plain_marked (m : mem) (c : Z) : bool := mark PLAIN_BITMAP_OFFSET m c.

(** Program memory lies below the bitmap; its shadow starts behind it. *)
Ltac plain_lia :=
  unfold PLAIN_BITMAP_SIZE, PLAIN_BITMAP_OFFSET, TREE_SHADOW_SPACE_SIZE, TREE_SHADOW_SPACE_OFFSET,
    PLAIN_BITMAP_CLICK, LTCKPT_CLICKS_PER_BYTE, LTCKPT_NTH_BIT_MASK, in_block in *;
  rewrite ?Z.mul_1_l in *; Z.to_euclidean_division_equations; lia.

Lemma plain_offset : PLAIN_BITMAP_OFFSET = 1585446912.
Proof. reflexivity. Qed.

Lemma plain_set_bit_spec a m :
  0 <= a < PLAIN_BITMAP_OFFSET →
  ((plain_set_bit a m).1 =? 0) = negb (plain_marked m (a / 8)) ∧
  (plain_set_bit a m).2 = mark_level PLAIN_BITMAP_OFFSET (a / 8) m.
Proof.
  intros Ha. rewrite plain_offset in Ha. unfold plain_set_bit, PLAIN_BITMAP_CLICK. cbn [fst snd].
  rewrite (u32_small a) by lia. split; [|done].
  unfold plain_marked, mark, LTCKPT_NTH_BIT_MASK, LTCKPT_CLICKS_PER_BYTE. rewrite plain_offset.
  pose proof (Z.div_pos (a / 8) 8 ltac:(apply Z.div_pos; lia) ltac:(lia)).
  rewrite u32_small by (Z.to_euclidean_division_equations; lia).
  change (8 - 1) with (Z.ones 3). rewrite Z.land_ones, Z.shiftl_mul_pow2, Z.mul_1_l
    by (try apply Z.mod_pos_bound; lia).
  pose proof (Z.mod_pos_bound (a / 8) 8 ltac:(lia)).
  rewrite <- truthy_land_pow2 by (change (2 ^ 3) with 8; lia). unfold truthy. by rewrite negb_involutive.
Qed.

(** The region of an address, as the click it is in. *)
Lemma plain_region_eq a : plain_region a = a - a mod 8.
Proof. apply (land_lnot_ones a 3). lia. Qed.

(** Marks and addresses determine each other.  The mark that a store to an address sets is
    mapped back to the region of that address, and distinct regions have distinct marks. *)
Theorem plain_mark_roundtrip a :
  0 <= a < PLAIN_BITMAP_OFFSET →
  ltckpt_get_primary_from_bitmap (PLAIN_BITMAP_OFFSET + a / 8 / 8) PLAIN_BITMAP_OFFSET (a / 8 mod 8)
  = (plain_region a, 8).
Proof.
  intros Ha. rewrite plain_offset in *. unfold ltckpt_get_primary_from_bitmap, PLAIN_BITMAP_CLICK,
    LTCKPT_CLICKS_PER_BYTE. f_equal. rewrite plain_region_eq.
  replace (1585446912 + a / 8 / 8 - 1585446912) with (a / 8 / 8) by lia.
  rewrite (u32_small (a / 8 / 8)) by (Z.to_euclidean_division_equations; lia).
  rewrite u32_small by (Z.to_euclidean_division_equations; lia).
  Z.to_euclidean_division_equations; lia.
Qed.

(** ** A window *)

(** The checkpoint the mechanism holds: the shadow of marked regions, and memory elsewhere. *)
Definition plain_checkpoint (m : mem) : mem :=
  λ x, if plain_marked m (x / 8) then m (plain_shadow x) else m x.

Definition program_mem (x : Z) : Prop := 0 <= x < PLAIN_BITMAP_OFFSET.

Lemma plain_shadow_eq x : program_mem x → plain_shadow x = x + 1610612736.
Proof. unfold program_mem, plain_shadow. rewrite plain_offset. intros. apply u32_small. plain_lia. Qed.

(** Marks lie between program memory and the shadow. *)
Lemma marked_byte c : 0 <= c → c * 8 < PLAIN_BITMAP_OFFSET → 1585446912 <= PLAIN_BITMAP_OFFSET + c / 8 < 1610612736.
Proof. rewrite plain_offset. intros. Z.to_euclidean_division_equations; lia. Qed.

Lemma marked_ext m1 m2 c :
  0 <= c → c * 8 < PLAIN_BITMAP_OFFSET → (∀ x, 1585446912 <= x < 1610612736 → m1 x = m2 x) →
  plain_marked m1 c = plain_marked m2 c.
Proof. intros H1 H2 H. unfold plain_marked, mark. by rewrite H by by apply marked_byte. Qed.

(** Marking a click. *)
Lemma mark_plain_spec a m :
  program_mem a →
  (∀ x, ¬ (1585446912 <= x < 1610612736) → mark_level PLAIN_BITMAP_OFFSET (a / 8) m x = m x) ∧
  ∀ c, 0 <= c → plain_marked (mark_level PLAIN_BITMAP_OFFSET (a / 8) m) c = plain_marked m c || (c =? a / 8).
Proof.
  unfold program_mem. intros Ha. pose proof (marked_byte (a / 8)) as Hb. rewrite plain_offset in *. split.
  - intros x Hx. apply mark_level_out; Z.to_euclidean_division_equations; lia.
  - intros c Hc. apply mark_level_mark; Z.to_euclidean_division_equations; lia.
Qed.

(** Saving a region changes its shadow only. *)
Lemma save_region_spec a m x :
  program_mem a → a mod 8 = 0 →
  plain_save_region a m x =
    if decide (in_block (a + 1610612736) 8 x) then m (x - 1610612736) else m x.
Proof.
  intros Ha Hm. unfold plain_save_region. rewrite plain_shadow_eq by done. case_decide as Hx.
  - rewrite store_bytes_in by (by rewrite length_load_bytes).
    unfold in_block in Hx. rewrite nth_load_bytes by lia. f_equal. lia.
  - rewrite store_bytes_out; [done|]. by rewrite length_load_bytes.
Qed.

(** The window invariant: what was the memory [m0] at the checkpoint can be read off. *)
Definition plain_window (m0 m : mem) : Prop := ∀ x, program_mem x → plain_checkpoint m x = m0 x.

Lemma region_program a : program_mem a → program_mem (plain_region a) ∧ plain_region a mod 8 = 0.
Proof.
  rewrite plain_region_eq. unfold program_mem. rewrite plain_offset. intros.
  Z.to_euclidean_division_equations; lia.
Qed.

Lemma click_bounds x : program_mem x → 0 <= x / 8 ∧ x / 8 * 8 < PLAIN_BITMAP_OFFSET.
Proof. unfold program_mem. rewrite plain_offset. intros. Z.to_euclidean_division_equations; lia. Qed.

(** Setting a mark that is set. *)
Lemma mark_again m0 a m :
  program_mem a → plain_window m0 m → plain_marked m (a / 8) = true →
  let m1 := mark_level PLAIN_BITMAP_OFFSET (a / 8) m in
  plain_window m0 m1 ∧ plain_marked m1 (a / 8) = true ∧ ∀ x, program_mem x → m1 x = m x.
Proof.
  intros Ha Hw Ea m1. destruct (mark_plain_spec a m Ha) as [Hout Hmk]. fold m1 in Hout, Hmk.
  assert (∀ x, program_mem x → plain_marked m1 (x / 8) = plain_marked m (x / 8)) as Hsame.
  { intros x Hx. rewrite Hmk by by apply click_bounds.
    destruct (Z.eqb_spec (x / 8) (a / 8)) as [->|]; [|by rewrite orb_false_r]. by rewrite Ea. }
  unfold program_mem in *. pose proof plain_offset as PO. split_and!.
  - intros x Hx. rewrite <- (Hw x Hx). unfold plain_checkpoint. rewrite Hsame by done.
    rewrite plain_shadow_eq by done. unfold program_mem in Hx. by rewrite !Hout by lia.
  - rewrite Hsame by done. done.
  - intros x Hx. apply Hout. lia.
Qed.

(** Setting a mark that is clear, and saving the region. *)
Lemma mark_and_save m0 a m :
  program_mem a → plain_window m0 m → plain_marked m (a / 8) = false →
  let m2 := plain_save_region (plain_region a) (mark_level PLAIN_BITMAP_OFFSET (a / 8) m) in
  plain_window m0 m2 ∧ plain_marked m2 (a / 8) = true ∧ ∀ x, program_mem x → m2 x = m x.
Proof.
  intros Ha Hw Ea m2. destruct (mark_plain_spec a m Ha) as [Hout Hmk]. set (m1 := mark_level _ _ m) in *.
  destruct (region_program a Ha) as [Hr Hr0]. rewrite plain_region_eq in *.
  unfold program_mem in *. pose proof plain_offset as PO.
  assert (Hm2 : ∀ x, m2 x = if decide (in_block (a - a mod 8 + 1610612736) 8 x) then m1 (x - 1610612736) else m1 x)
    by (intros x; unfold m2; rewrite plain_region_eq; by apply save_region_spec).
  assert (Hmk2 : ∀ x, program_mem x → plain_marked m2 (x / 8) = plain_marked m (x / 8) || (x / 8 =? a / 8)).
  { intros x Hx. rewrite <- Hmk by by apply click_bounds. apply marked_ext; [by apply click_bounds..|].
    intros y Hy. rewrite Hm2, decide_False; [done|]. unfold in_block. lia. }
  assert (Hprog : ∀ x, program_mem x → m2 x = m x).
  { intros x Hx. unfold program_mem in Hx. rewrite Hm2, decide_False by (unfold in_block; lia). apply Hout. lia. }
  split_and!; [|by rewrite Hmk2, Z.eqb_refl, orb_true_r|done].
  intros x Hx. unfold plain_checkpoint. rewrite Hmk2, plain_shadow_eq by done. rewrite Hm2.
  pose proof (Hw x Hx) as Hwx. unfold plain_checkpoint in Hwx. rewrite plain_shadow_eq in Hwx by done.
  unfold program_mem in Hx. destruct (Z.eqb_spec (x / 8) (a / 8)) as [E|E].
  - rewrite orb_true_r, decide_True by (unfold in_block; Z.to_euclidean_division_equations; lia).
    rewrite E, Ea in Hwx. replace (x + 1610612736 - 1610612736) with x by lia. by rewrite Hout by lia.
  - rewrite orb_false_r, decide_False by (unfold in_block; Z.to_euclidean_division_equations; lia).
    rewrite !Hout by lia. destruct (plain_marked m (x / 8)); [done|]. rewrite <- Hwx. by apply Hprog.
Qed.

(** The store hook keeps the invariant and the program's memory, and marks its region. *)
Lemma store_hook_window m0 a m :
  program_mem a → plain_window m0 m →
  plain_window m0 (plain_store_mem a m) ∧ plain_marked (plain_store_mem a m) (a / 8) = true ∧
  ∀ x, program_mem x → plain_store_mem a m x = m x.
Proof.
  intros Ha Hw. unfold plain_store_mem. destruct (plain_set_bit_spec a m Ha) as [Hz Hm].
  destruct (plain_set_bit a m) as [b m1]. cbn [fst snd] in *. subst m1. rewrite Hz.
  destruct (plain_marked m (a / 8)) eqn:Ea; [by apply mark_again|by apply mark_and_save].
Qed.

(** The program: a store of bytes that lie in one region, with the hook before it. *)
Definition plain_store (op : Z * list Z) (s : plain) : plain :=
  let s1 := plain_store_hook op.1 s in set_pl_mem (store_bytes (pl_mem s1) op.1 op.2) s1.

Definition plain_stores (ops : list (Z * list Z)) (s : plain) : plain :=
  fold_left (λ s op, plain_store op s) ops s.

Definition store_ok (op : Z * list Z) : Prop :=
  program_mem op.1 ∧ op.1 mod 8 + zlen op.2 <= 8.

Lemma store_window m0 s op :
  truthy (ltckpt_bitmap_enabled s) = true → store_ok op → plain_window m0 (pl_mem s) →
  plain_window m0 (pl_mem (plain_store op s)) ∧
  truthy (ltckpt_bitmap_enabled (plain_store op s)) = true.
Proof.
  destruct op as [a bs]. intros He [Ha Hl] Hw. cbn [fst snd] in *. unfold plain_store, plain_store_hook.
  cbn [fst snd]. rewrite He. cbn [pl_mem set_pl_mem]. split; [|done].
  destruct (store_hook_window m0 a (pl_mem s) Ha Hw) as (Hw' & Hm & _).
  set (m := plain_store_mem a (pl_mem s)) in *. intros x Hx. rewrite <- (Hw' x Hx).
  unfold program_mem in *. pose proof plain_offset as PO. unfold plain_checkpoint.
  assert (a + zlen bs <= 1585446912) as Hend by (Z.to_euclidean_division_equations; lia).
  rewrite (marked_ext (store_bytes m a bs) m);
    [|by apply click_bounds|by apply click_bounds|intros y Hy; apply store_bytes_out; unfold in_block; lia].
  rewrite plain_shadow_eq by done. destruct (plain_marked m (x / 8)) eqn:Ex.
  - apply store_bytes_out. unfold in_block. lia.
  - apply store_bytes_out. intros Hin. assert (x / 8 = a / 8) as E
      by (unfold in_block in Hin; Z.to_euclidean_division_equations; lia).
    rewrite E in Ex. congruence.
Qed.

Lemma stores_window m0 ops s :
  truthy (ltckpt_bitmap_enabled s) = true → Forall store_ok ops → plain_window m0 (pl_mem s) →
  plain_window m0 (pl_mem (plain_stores ops s)).
Proof.
  intros He Hops. revert s He. induction Hops as [|op ops Hop _ IH]; intros s He Hw; [done|].
  cbn [plain_stores fold_left]. destruct (store_window m0 s op He Hop Hw). by apply IH.
Qed.

(** A bitmap just mapped has no marks. *)
Lemma cleared_window m : plain_window m (zero_fill PLAIN_BITMAP_OFFSET PLAIN_BITMAP_SIZE m).
Proof.
  intros x Hx. unfold plain_checkpoint, plain_marked, mark.
  assert (∀ y, zero_fill PLAIN_BITMAP_OFFSET PLAIN_BITMAP_SIZE m y
    = if decide (1585446912 <= y < 1610612736) then 0 else m y) as Hz.
  { intros y. unfold zero_fill. rewrite plain_offset. change (1585446912 + PLAIN_BITMAP_SIZE) with 1610612736.
    destruct (Z.leb_spec 1585446912 y), (Z.ltb_spec y 1610612736), decide; done || lia. }
  rewrite Hz, decide_True, Z.testbit_0_l by (by apply marked_byte; apply click_bounds).
  rewrite Hz, decide_False; [done|]. unfold program_mem in Hx. rewrite plain_offset in Hx. lia.
Qed.

Section Recover.
Context {os : Type} `{vmem : VMem os}.

Lemma plain_allocate_run start size (s : plain) (o : os) u (r : plain * os) :
  plain_allocate start size (s, o) = Ok u r →
  r.1 = set_pl_mem (zero_fill start size (pl_mem s)) s.
Proof.
  unfold plain_allocate. destruct (ltckpt_mmap _ _ _ _ o) as [ret o'].
  destruct (ret =? LTCKPT_MAP_FAILED); [done|]. by intros [= _ <-].
Qed.

(** A top of the loop that takes a checkpoint leaves an empty bitmap over the same program
    memory. *)
Lemma plain_tol_run (s s1 : plain) (o o1 : os) u :
  tol_returns (pl_ctx s) = false → plain_top_of_the_loop (s, o) = Ok u (s1, o1) →
  truthy (ltckpt_bitmap_enabled s1) = true ∧ plain_window (pl_mem s) (pl_mem s1).
Proof.
  intros Ht H. unfold plain_top_of_the_loop, plain_put, CTX_NEW_TOL_OR_RETURN in H.
  rewrite bind_gets, bind_modify in H. cbn [fst snd] in H. rewrite Ht in H. cbn [fst snd negb] in H.
  rewrite bind_gets in H. cbn [fst] in H.
  set (s0 := set_pl_ctx _ s) in H. change (pl_first_time s0) with (pl_first_time s) in H.
  apply bind_inv_Ok in H as (u1 & [s2 o2] & H1 & H). cbn beta in H.
  assert (∀ x, program_mem x → pl_mem s2 x = pl_mem s x) as Hsame.
  { intros x Hx. unfold program_mem in Hx. pose proof plain_offset as PO. destruct (truthy (pl_first_time s)).
    - cbn [when] in H1. apply bind_inv_Ok in H1 as (? & [s3 o3] & H2 & H1).
      apply bind_inv_Ok in H1 as (? & [s4 o4] & H3 & H1). unfold modify in H1. injection H1 as _ <- _.
      apply plain_allocate_run in H2. apply plain_allocate_run in H3. cbn in H2, H3. subst s3 s4. cbn.
      unfold zero_fill. rewrite PO. unfold TREE_SHADOW_SPACE_OFFSET.
      destruct (Z.leb_spec (1536 * 1024 * 1024) x), (Z.leb_spec 1585446912 x); cbn [andb]; done || lia.
    - by injection H1 as _ <- _. }
  apply bind_inv_Ok in H as (u3 & [s3 o3] & H3 & H). rewrite bind_modify in H. cbn [fst snd] in H.
  unfold modify in H. injection H as _ <- _. apply plain_allocate_run in H3. cbn in H3. subst s3.
  split; [done|]. cbn [pl_mem set_pl_ctx set_bitmap_enabled set_pl_mem].
  intros x Hx. rewrite <- (Hsame x Hx). by apply cleared_window.
Qed.

(** C24: With the plain bitmap, stores after a checkpoint can be undone. After a top of the loop
    that takes a checkpoint and any sequence of stores with the store hook, each within one region
    of 8 bytes below the bitmap ([store_ok]: the hook saves the region of the first byte only, so
    wider stores and stores across the end of a region are not covered), the shadow of the marked
    regions and the memory of the others are together the program's memory at the checkpoint. *)
Theorem plain_stores_recoverable (s s1 : plain) (o o1 : os) u ops x :
  tol_returns (pl_ctx s) = false → plain_top_of_the_loop (s, o) = Ok u (s1, o1) →
  Forall store_ok ops → program_mem x →
  plain_checkpoint (pl_mem (plain_stores ops s1)) x = pl_mem s x.
Proof.
  intros Ht H Hops Hx. destruct (plain_tol_run s s1 o o1 u Ht H) as [He Hw].
  by apply (stores_window (pl_mem s) ops s1 He Hops Hw).
Qed.

End Recover.

(** ** The memcpy hook *)

Lemma memcpy_region_spec a m :
  program_mem a → a mod 8 = 0 →
  plain_memcpy_region a m =
    if plain_marked m (a / 8) then plain_save_region a (mark_level PLAIN_BITMAP_OFFSET (a / 8) m)
    else mark_level PLAIN_BITMAP_OFFSET (a / 8) m.
Proof.
  intros Ha Hm. unfold plain_memcpy_region. destruct (plain_set_bit_spec a m Ha) as [Hz Hm1].
  destruct (plain_set_bit a m) as [b m1]. cbn [fst snd] in *. subst m1.
  unfold truthy. rewrite Hz, negb_involutive. done.
Qed.

(** The memcpy hook saves a region exactly when it has been saved.  On a region that is
    not marked it sets the mark and leaves the shadow as it was, so that the checkpoint read
    off afterwards is what the shadow held before; on a marked region it replaces the saved
    contents by the current ones. *)
Theorem memcpy_hook_inverted a m x :
  program_mem a → a mod 8 = 0 → a <= x < a + 8 →
  plain_checkpoint (plain_memcpy_region a m) x
  = if plain_marked m (a / 8) then m x else m (plain_shadow x).
Proof.
  intros Ha Hm Hx. assert (program_mem x) as Hpx.
  { unfold program_mem in *. rewrite plain_offset in *. Z.to_euclidean_division_equations; lia. }
  assert (x / 8 = a / 8) as E by (Z.to_euclidean_division_equations; lia).
  rewrite memcpy_region_spec by done. destruct (mark_plain_spec a m Ha) as [Hout Hmk].
  unfold program_mem in *. pose proof plain_offset as PO. pose proof (click_bounds x Hpx) as [Hc1 Hc2].
  unfold plain_checkpoint. rewrite plain_shadow_eq by done. rewrite E in *.
  destruct (plain_marked m (a / 8)) eqn:Ea.
  - rewrite (marked_ext _ (mark_level PLAIN_BITMAP_OFFSET (a / 8) m)), Hmk, Z.eqb_refl, orb_true_r; try done.
    + rewrite save_region_spec, decide_True by (done || unfold in_block; lia).
      replace (x + 1610612736 - 1610612736) with x by lia. apply Hout. lia.
    + intros y Hy. rewrite save_region_spec, decide_False by (done || unfold in_block; lia). done.
  - rewrite Hmk, Z.eqb_refl, orb_true_r by done. apply Hout. lia.
Qed.

(** ** Examples *)

#[export] Instance unit_vmem : VMem () := {
  mmap a _ _ _ o := (a, o); munmap _ _ o := (0, o); mprotect _ _ _ o := (0, o)
}.

Definition demo_plain : plain := mk_plain (λ x, x mod 256) 0 1 (set_checkpoint_interval 1 ctx0).

Definition demo_plain_tol : plain :=
  match plain_top_of_the_loop (demo_plain, ()) with Ok _ (s, _) => s | Stop _ (s, _) => s end.

Lemma plain_stores_recoverable_witness :
  plain_checkpoint (pl_mem (plain_stores [(4096, [1; 2; 3; 4]); (4100, [9])] demo_plain_tol)) 4097
  = pl_mem demo_plain 4097.
Proof.
  apply (plain_stores_recoverable demo_plain demo_plain_tol () () ()).
  - reflexivity.
  - reflexivity.
  - constructor; [split; [split; [discriminate|reflexivity]|discriminate]|].
    constructor; [split; [split; [discriminate|reflexivity]|discriminate]|constructor].
  - split; [discriminate|reflexivity].
Defined.

Lemma plain_mark_roundtrip_witness :
  ltckpt_get_primary_from_bitmap (PLAIN_BITMAP_OFFSET + 4099 / 8 / 8) PLAIN_BITMAP_OFFSET (4099 / 8 mod 8)
  = (4096, 8).
Proof. apply (plain_mark_roundtrip 4099). split; [discriminate|reflexivity]. Defined.

Lemma memcpy_hook_inverted_witness :
  plain_checkpoint (plain_memcpy_region 4096 (λ x, if x =? 4096 then 7 else 0)) 4096 = 0.
Proof.
  rewrite (memcpy_hook_inverted 4096).
  - reflexivity.
  - split; [discriminate|reflexivity].
  - reflexivity.
  - split; [discriminate|reflexivity].
Defined.
