(* ===== verification/BitmapByte.v ===== *)
(** * The bitmap of bytes

    [ltckpt/mechanisms/bitmap/bitmap_plain_byte.h] with the handler of [ltckpt_bitmap_init.c], a
    layout of the bitmap mechanism for 32-bit x86 with the scheme that synchronises the shadow at
    each checkpoint: a byte per click of 16 bytes.  The bitmap is protected; the first store of a
    window to one of its pages faults, and the handler lists the page and makes it writable.  A
    checkpoint sorts the pages, walks over the marked words of each, copies their clicks to the
    shadow space, and protects the pages again, neighbours in one call.

    The walk over a page is meant to end at its last word, which is marked for that, but ends at
    the first marked word that is not the first of the page.  [byte_clear_exact] says which clicks
    a checkpoint copies, and [byte_checkpoint_syncs] when that is all of them;
    [second_word_not_synced] is a window after which it is not.

    A fault of the program on other pages is not modelled: the marks are the only stores that
    meet the protection. *)
From stdpp Require Import base numbers list.
From Stdlib Require Import ZArith Lia Sorted.
From S2P Require Import Prelude Memory Ctx Profiling Writelog Common BitmapTree.

(** ** Definitions *)

Definition BYTE_BITMAP_CLICK : Z := 16.
Definition BYTE_BITMAP_SIZE : Z := TREE_SHADOW_SPACE_SIZE / BYTE_BITMAP_CLICK.
Definition BYTE_BITMAP_OFFSET : Z :=
  let x := TREE_SHADOW_SPACE_OFFSET - BYTE_BITMAP_SIZE in x - x mod 4096.
Definition LTCKPT_MAX_PF : nat := 1024 * 1024.
Definition SORTED_PAGES : nat := 1000.
Definition TRESHOLD : Z := 16 * 4096.

(** The memory, the pages listed since the last checkpoint ([pages] up to [nr_pf]), and which
    pages of the bitmap are writable. *)
Record byt := mk_byt { by_mem : mem; by_pages : list Z; by_writable : Z → bool }.

Definition set_by_mem (f : mem → mem) (s : byt) : byt := mk_byt (f (by_mem s)) (by_pages s) (by_writable s).
Definition set_by_pages (v : list Z) (s : byt) : byt := mk_byt (by_mem s) v (by_writable s).

(** [mprotect] of [n] bytes at [a]. *)
Definition protect (a n : Z) (w : bool) (s : byt) : byt :=
  mk_byt (by_mem s) (by_pages s) (λ p, if (a <=? p) && (p <? a + n) then w else by_writable s p).

Definition PAGE_ROUND_DOWN (a : Z) : Z := a - a mod 4096.

(** *** A page *)

(** [ltckpt_handle_bimap_word]. *)
Definition handle_byte (w j : Z) (m : mem) : mem :=
  if truthy (m (w + j)) then
    let data := u32 (u32 (u32 (w - BYTE_BITMAP_OFFSET) * BYTE_BITMAP_CLICK) + j * BYTE_BITMAP_CLICK) in
    store_bytes m (u32 (data + TREE_SHADOW_SPACE_OFFSET)) (load_bytes m data 16)
  else m.

Definition ltckpt_handle_bimap_word (w : Z) (m : mem) : mem :=
  handle_byte w 3 (handle_byte w 2 (handle_byte w 1 (handle_byte w 0 m))).

(** [while (!*addr) addr++;] *)
Fixpoint skip_zero (fuel : nat) (m : mem) (addr : Z) : option Z :=
  if truthy (load_u32 m addr) then Some addr
  else match fuel with O => None | S fuel' => skip_zero fuel' m (u32 (addr + 4)) end.

(** The loop over the marked words of a page from [addr] on; a page has 1024 words. *)
Fixpoint scan_page (fuel : nat) (addr : Z) (m : mem) : option mem :=
  match fuel with
  | O => None
  | S fuel' =>
      addr ← skip_zero 1024 m addr;
      if truthy (Z.land addr 0xffc) then
        let m := store_u32 m addr (Z.land (load_u32 m addr) (u32 (Z.lnot 2))) in
        Some (store_u32 (ltckpt_handle_bimap_word addr m) addr 0)
      else scan_page fuel' addr (store_u32 (ltckpt_handle_bimap_word addr m) addr 0)
  end.

(** The end of the page is marked first. *)
Definition mark_end (start : Z) (m : mem) : mem :=
  store_u32 m (start + 4092) (Z.lor (load_u32 m (start + 4092)) 2).

(** Only the first word of a page does not end the walk, so it has two rounds at most. *)
Definition sync_page (start : Z) (m : mem) : option mem := scan_page 3 start (mark_end start m).

(** *** The list of pages *)

(** The insertion into the linked list of pages, in front of the first that is not smaller. *)
Fixpoint insert_page (x : Z) (l : list Z) : list Z :=
  match l with
  | [] => [x]
  | y :: l' => if y <? x then y :: insert_page x l' else x :: l
  end.

Definition sort_pages (l : list Z) : list Z := foldl (λ acc x, insert_page x acc) [] l.

Section Byte.
Context {os : Type} `{vmem : VMem os}.

Local Abbreviation P := (prog (byt * os)).

Definition by_put (f : byt → byt) : P () := modify (λ s, (f s.1, s.2)).

Definition by_mprotect (a n prot : Z) (w : bool) : P () := λ '(s, o),
  let '(r, o) := mprotect a n prot o in
  if truthy r then Stop Panic (s, o) else Ok () (protect a n w s, o).

(** [ltckpt_sigsegvhandler]. *)
Definition ltckpt_sigsegvhandler (addr : Z) : P () :=
  let page := PAGE_ROUND_DOWN (u32 addr) in
  if page =? 0 then halt Panic else
  by_mprotect page 4096 (Z.lor 4 (Z.lor PROT_READ PROT_WRITE)) true ;;
  by_put (λ s, set_by_pages (by_pages s ++ [page]) s) ;;
  n ← gets (λ s, length (by_pages s.1));
  if Nat.eqb n LTCKPT_MAX_PF then halt Panic else skip.

(** [ltckpt_set_bit]; it returns 0.  The store to a protected page is made again after the
    handler has returned. *)
Definition byte_set_bit (a : Z) : P () :=
  let p := u32 (u32 a / 16 + BYTE_BITMAP_OFFSET) in
  w ← gets (λ s, by_writable s.1 (PAGE_ROUND_DOWN p));
  when (negb w) (ltckpt_sigsegvhandler p) ;;
  by_put (set_by_mem (λ m, upd m p 1)).

(** The hooks of [ltckpt_bitmap.c] with this layout; the statistics of stores are in [Bitmap]. *)
Definition byte_store_hook (addr : Z) : P () := byte_set_bit addr.

Fixpoint byte_memcpy_loop (fuel : nat) (reg stop_at : Z) : P () :=
  match fuel with
  | O => halt Diverge
  | S fuel' =>
      if reg <? stop_at then
        byte_set_bit reg ;; byte_memcpy_loop fuel' (u32 (reg + BYTE_BITMAP_CLICK)) stop_at
      else skip
  end.

Definition byte_memcpy_hook (addr size : Z) : P () :=
  byte_memcpy_loop (Z.to_nat (size / BYTE_BITMAP_CLICK + 3)) (Z.land addr (Z.lnot (BYTE_BITMAP_CLICK - 1)))
    (u32 (addr + size)).

Definition by_sync_page (start : Z) : P () := λ '(s, o),
  match sync_page start (by_mem s) with
  | None => Stop Diverge (s, o)
  | Some m => Ok () (set_by_mem (λ _, m) s, o)
  end.

(** The loop over the sorted pages. *)
Fixpoint sync_pages (l : list Z) (region_start : Z) : P () :=
  match l with
  | [] => skip
  | start :: l' =>
      let region_start := if region_start =? 0 then start else region_start in
      by_sync_page start ;;
      if match l' with [] => true | next :: _ => u32 (start + TRESHOLD) <? next end then
        by_mprotect region_start (u32 (start - region_start + 4096)) PROT_READ false ;;
        sync_pages l' 0
      else sync_pages l' region_start
  end.

(** [ltckpt_clear_bitmap]. *)
Definition byte_clear_bitmap : P () :=
  pages ← gets (λ s, by_pages s.1);
  if (SORTED_PAGES <? length pages)%nat then halt Undefined else
  sync_pages (sort_pages pages) 0 ;;
  by_put (set_by_pages []).

(** The end of the initialisation: the bitmap is protected. *)
Definition byte_late_init : P () := λ '(s, o),
  let '(r, o) := mprotect BYTE_BITMAP_OFFSET BYTE_BITMAP_SIZE PROT_READ o in
  Ok () (if truthy r then s else protect BYTE_BITMAP_OFFSET BYTE_BITMAP_SIZE false s, o).

End Byte.

(** ** Words of the bitmap *)

Lemma byte_offset : BYTE_BITMAP_OFFSET = 1509949440.
Proof. reflexivity. Qed.
Lemma byte_shadow : TREE_SHADOW_SPACE_OFFSET = 1610612736.
Proof. reflexivity. Qed.

Ltac byte_lia :=
  unfold in_block, PAGE_ROUND_DOWN in *; rewrite ?byte_offset, ?byte_shadow in *;
  Z.to_euclidean_division_equations; lia.

(** The low byte of a word changed, the others kept. *)
Lemma store_low_byte m a b x :
  (∀ y, in_block a 4 y → is_byte (m y)) → is_byte b →
  store_u32 m a (b + 256 * le_decode (load_bytes m (a + 1) 3)) x = upd m a b x.
Proof.
  intros Hm Hb. unfold store_u32, is_byte in *. cbn [le_bytes].
  assert (Hc : ∀ c r, 0 <= c < 256 → (c + 256 * r) mod 256 = c ∧ (c + 256 * r) / 256 = r)
    by (intros c r Hc; Z.to_euclidean_division_equations; lia).
  destruct (Hc b (le_decode (load_bytes m (a + 1) 3)) Hb) as [-> ->]. cbn [load_bytes le_decode].
  destruct (Hc (m (a + 1)) (m (a + 1 + 1) + 256 * (m (a + 1 + 1 + 1) + 256 * 0))) as [-> ->];
    [apply Hm; unfold in_block; lia|].
  destruct (Hc (m (a + 1 + 1)) (m (a + 1 + 1 + 1) + 256 * 0)) as [-> ->]; [apply Hm; unfold in_block; lia|].
  destruct (Hc (m (a + 1 + 1 + 1)) 0) as [-> _]; [apply Hm; unfold in_block; lia|].
  cbn [store_bytes]. destruct (decide (x = a)) as [->|Hne].
  - rewrite !upd_ne by lia. by rewrite !upd_eq.
  - rewrite (upd_ne m a) by done.
    destruct (decide (x = a + 1 + 1 + 1)) as [->|]; [by rewrite upd_eq|rewrite upd_ne by done].
    destruct (decide (x = a + 1 + 1)) as [->|]; [by rewrite upd_eq|rewrite upd_ne by done].
    destruct (decide (x = a + 1)) as [->|]; [by rewrite upd_eq|rewrite upd_ne by done].
    by rewrite upd_ne.
Qed.

Lemma load_u32_low m a : load_u32 m a = m a + 256 * le_decode (load_bytes m (a + 1) 3).
Proof. done. Qed.

(** Bytes of the bitmap: a mark is the lowest bit, the end of a page the next. *)
Lemma small_byte b : 0 <= b <= 3 → b = 0 ∨ b = 1 ∨ b = 2 ∨ b = 3.
Proof. lia. Qed.

Ltac small_cases H := apply small_byte in H as [-> |[-> |[-> | ->]]].

Lemma small_lor b : 0 <= b <= 3 → 0 <= Z.lor b 2 <= 3 ∧ Z.odd (Z.lor b 2) = Z.odd b ∧ Z.lor b 2 ≠ 0.
Proof. intros H. by small_cases H. Qed.

Lemma small_ldiff b : 0 <= b <= 3 → Z.ldiff b 2 = Z.b2z (Z.odd b).
Proof. intros H. by small_cases H. Qed.

Lemma word_lor b r : 0 <= b <= 3 → Z.lor (b + 256 * r) 2 = Z.lor b 2 + 256 * r.
Proof.
  intros Hb. pose proof (small_lor b Hb).
  apply Z.bits_inj'. intros i Hi. rewrite Z.lor_spec, !testbit_byte_add, Z.lor_spec by (done || (unfold is_byte; lia)).
  destruct (Z.ltb_spec i 8); [done|]. by rewrite (Z.bits_above_log2 2 i), orb_false_r by (cbn; lia).
Qed.

Lemma word_land b r :
  0 <= b <= 3 → 0 <= b + 256 * r < 4294967296 →
  Z.land (b + 256 * r) (u32 (Z.lnot 2)) = Z.b2z (Z.odd b) + 256 * r.
Proof.
  intros Hb Hr. rewrite <- small_ldiff by done.
  assert (is_byte (Z.ldiff b 2)) as Hb2 by (rewrite small_ldiff by done; unfold is_byte; destruct (Z.odd b); cbn; lia).
  change (u32 (Z.lnot 2)) with (Z.land (Z.lnot 2) (Z.ones 32)).
  rewrite (Z.land_comm (Z.lnot 2)), Z.land_assoc, Z.land_ones, Z.mod_small, <- Z.ldiff_land by lia.
  apply Z.bits_inj'. intros i Hi. rewrite Z.ldiff_spec, !testbit_byte_add, Z.ldiff_spec by (done || (unfold is_byte; lia)).
  destruct (Z.ltb_spec i 8); [done|]. by rewrite (Z.bits_above_log2 2 i), andb_true_r by (cbn; lia).
Qed.

(** ** What the walk over a page does *)

(** The memory of the bitmap, and that of its marks which are set. *)
Definition in_bitmap (x : Z) : Prop := BYTE_BITMAP_OFFSET <= x < TREE_SHADOW_SPACE_OFFSET.
Definition byte_marked (m : mem) (c : Z) : bool := Z.odd (m (BYTE_BITMAP_OFFSET + c)).

(** The bytes of the bitmap are marks; only the word at the end of a page may have its end
    marked; only clicks of the program are marked. *)
Record bytes_ok (m : mem) : Prop := {
  bo_small : ∀ x, in_bitmap x → 0 <= m x <= 3;
  bo_one : ∀ x, in_bitmap x → x mod 4096 ≠ 4092 → m x <= 1;
  bo_prog : ∀ x, in_bitmap x → Z.odd (m x) = true → 16 * (x - BYTE_BITMAP_OFFSET) < BYTE_BITMAP_OFFSET;
}.

Definition bitmap_page (pg : Z) : Prop :=
  pg mod 4096 = 0 ∧ BYTE_BITMAP_OFFSET <= pg ∧ pg + 4096 <= TREE_SHADOW_SPACE_OFFSET.

Lemma bytes_is_byte m a : bytes_ok m → (∀ y, in_block a 4 y → in_bitmap y) → ∀ y, in_block a 4 y → is_byte (m y).
Proof. intros H Ha y Hy. pose proof (bo_small m H y (Ha y Hy)). unfold is_byte. lia. Qed.

(** One byte of a word. *)
Lemma handle_byte_at w j m x :
  in_bitmap w → in_bitmap (w + j) → 0 <= j < 4 →
  handle_byte w j m x
  = if truthy (m (w + j)) && bool_decide (in_block (TREE_SHADOW_SPACE_OFFSET + 16 * (w + j - BYTE_BITMAP_OFFSET)) 16 x)
    then m (x - TREE_SHADOW_SPACE_OFFSET) else m x.
Proof.
  unfold in_bitmap. intros Hw Hb Hj. unfold handle_byte, BYTE_BITMAP_CLICK.
  destruct (truthy (m (w + j))); cbn [andb]; [|done].
  rewrite (u32_small (w - BYTE_BITMAP_OFFSET)), (u32_small (_ * 16)) by byte_lia.
  rewrite (u32_small (_ + j * 16)) by byte_lia. rewrite u32_small by byte_lia.
  case_bool_decide as Hin.
  - rewrite store_bytes_in by (rewrite length_load_bytes; byte_lia).
    rewrite nth_load_bytes by byte_lia. f_equal. byte_lia.
  - apply store_bytes_out. rewrite length_load_bytes. byte_lia.
Qed.

(** The address of the mark for an address of the shadow space. *)
Definition mark_of (x : Z) : Z := BYTE_BITMAP_OFFSET + (x - TREE_SHADOW_SPACE_OFFSET) / 16.

(** The memory in which the marked clicks of the bytes from [w] to [w + n] have been copied. *)
Definition copied_to (w n : Z) (m m' : mem) : Prop :=
  ∀ x, m' x = if bool_decide (TREE_SHADOW_SPACE_OFFSET <= x ∧ in_block w n (mark_of x)) && truthy (m (mark_of x))
              then m (x - TREE_SHADOW_SPACE_OFFSET) else m x.

Lemma copied_to_low w n m m' x : copied_to w n m m' → x < TREE_SHADOW_SPACE_OFFSET → m' x = m x.
Proof. intros H Hx. rewrite H, bool_decide_false by lia. done. Qed.

Lemma handle_byte_step w n m m' :
  in_bitmap w → in_bitmap (w + n) → 0 <= n < 4 → copied_to w n m m' → copied_to w (n + 1) m (handle_byte w n m').
Proof.
  intros Hw Hb Hn H x. rewrite handle_byte_at by done. unfold in_bitmap in *.
  rewrite (copied_to_low w n m m' (w + n)) by (done || lia).
  destruct (decide (in_block (TREE_SHADOW_SPACE_OFFSET + 16 * (w + n - BYTE_BITMAP_OFFSET)) 16 x)) as [Hin|Hout].
  - assert (mark_of x = w + n) as E by (unfold mark_of; byte_lia).
    rewrite (bool_decide_true (in_block _ _ _)), andb_true_r by done. rewrite E.
    rewrite (bool_decide_true (_ ∧ _)) by byte_lia. cbn [andb].
    destruct (truthy (m (w + n))).
    + apply (copied_to_low w n m m'); [done|byte_lia].
    + rewrite H, bool_decide_false; [done|]. rewrite E. byte_lia.
  - rewrite (bool_decide_false (in_block _ _ _)), andb_false_r by done. rewrite H.
    rewrite (bool_decide_ext (_ ∧ in_block w n _) (TREE_SHADOW_SPACE_OFFSET <= x ∧ in_block w (n + 1) (mark_of x))); [done|].
    unfold mark_of. byte_lia.
Qed.

Lemma handle_word_at w m : in_bitmap w → in_bitmap (w + 3) → copied_to w 4 m (ltckpt_handle_bimap_word w m).
Proof.
  intros Hw H3. unfold ltckpt_handle_bimap_word, in_bitmap in *.
  apply (handle_byte_step w 3); [unfold in_bitmap; lia..|].
  apply (handle_byte_step w 2); [unfold in_bitmap; lia..|].
  apply (handle_byte_step w 1); [unfold in_bitmap; lia..|].
  apply (handle_byte_step w 0); [unfold in_bitmap; lia..|].
  intros x. rewrite bool_decide_false; [done|]. unfold in_block. lia.
Qed.

(** The words [K] of the page at [pg] have been walked over: their marked clicks are copied, the
    words cleared. *)
Record did (pg : Z) (m : mem) (K : Z → bool) (m' : mem) : Prop := {
  did_page x : in_block pg 4096 x → m' x = if K ((x - pg) / 4) then 0 else m x;
  did_shadow x : TREE_SHADOW_SPACE_OFFSET <= x →
    m' x = if bool_decide (in_block pg 4096 (mark_of x)) && K ((mark_of x - pg) / 4) && Z.odd (m (mark_of x))
           then m (x - TREE_SHADOW_SPACE_OFFSET) else m x;
  did_else x : x < TREE_SHADOW_SPACE_OFFSET → ¬ in_block pg 4096 x → m' x = m x;
}.

Lemma store_zero m a x : store_u32 m a 0 x = if bool_decide (in_block a 4 x) then 0 else m x.
Proof.
  unfold store_u32. case_bool_decide as H.
  - rewrite store_bytes_in by done. change (le_bytes 4 0) with [0; 0; 0; 0].
    by destruct (Z.to_nat (x - a)) as [|[|[|[|[]]]]].
  - by apply store_bytes_out.
Qed.

Lemma word_did pg m k :
  bitmap_page pg → 0 <= k < 1024 → (∀ x, in_block (pg + 4 * k) 4 x → 0 <= m x <= 1) →
  did pg m (λ i, i =? k) (store_u32 (ltckpt_handle_bimap_word (pg + 4 * k) m) (pg + 4 * k) 0).
Proof.
  intros (Hal & Hlo & Hhi) Hk H01. pose proof (handle_word_at (pg + 4 * k) m) as H.
  assert (copied_to (pg + 4 * k) 4 m (ltckpt_handle_bimap_word (pg + 4 * k) m)) as Hc
    by (apply H; unfold in_bitmap; byte_lia). clear H.
  assert (Hodd : ∀ x, in_block (pg + 4 * k) 4 x → truthy (m x) = Z.odd (m x)).
  { intros x Hx. specialize (H01 x Hx). assert (m x = 0 ∨ m x = 1) as [-> | ->] by lia; done. }
  split; intros x.
  - intros Hx. rewrite store_zero. destruct (Z.eqb_spec ((x - pg) / 4) k).
    + by rewrite bool_decide_true by byte_lia.
    + rewrite bool_decide_false by byte_lia. apply (copied_to_low _ _ _ _ _ Hc). byte_lia.
  - intros Hx. rewrite store_zero, bool_decide_false by byte_lia. rewrite Hc.
    destruct (decide (in_block (pg + 4 * k) 4 (mark_of x))) as [Hin|Hout].
    + rewrite bool_decide_true by done. rewrite bool_decide_true by byte_lia.
      rewrite (proj2 (Z.eqb_eq _ _)) by byte_lia. cbn [andb]. by rewrite Hodd.
    + rewrite bool_decide_false by tauto. cbn [andb].
      case_bool_decide as Hp; cbn [andb]; [|done]. rewrite (proj2 (Z.eqb_neq _ _)); [done|]. intros E. apply Hout. byte_lia.
  - intros Hx Hout. rewrite store_zero, bool_decide_false by byte_lia. by apply (copied_to_low _ _ _ _ _ Hc).
Qed.

(** Only clicks of the program are marked. *)
Definition prog_marks (m : mem) : Prop :=
  ∀ x, in_bitmap x → Z.odd (m x) = true → 16 * (x - BYTE_BITMAP_OFFSET) < BYTE_BITMAP_OFFSET.

(** Where a marked click is copied from. *)
Lemma marked_src pg m x :
  bitmap_page pg → prog_marks m → TREE_SHADOW_SPACE_OFFSET <= x → in_block pg 4096 (mark_of x) →
  Z.odd (m (mark_of x)) = true → x - TREE_SHADOW_SPACE_OFFSET < BYTE_BITMAP_OFFSET.
Proof.
  intros (Hal & Hlo & Hhi) Hp Hx Hin Ho. apply Hp in Ho; [|unfold in_bitmap; byte_lia].
  unfold mark_of in *. byte_lia.
Qed.

Lemma did_compose pg m K1 m1 K2 m2 :
  bitmap_page pg → prog_marks m → (∀ i, K1 i && K2 i = false) →
  did pg m K1 m1 → did pg m1 K2 m2 → did pg m (λ i, K1 i || K2 i) m2.
Proof.
  intros Hpg Hp Hd [P1 S1 E1] [P2 S2 E2]. split; intros x.
  - intros Hx. rewrite P2, P1 by done. by destruct (K1 _), (K2 _).
  - intros Hx. rewrite S2 by done. case_bool_decide as Hin; cbn [andb].
    2:{ rewrite S1 by done. by rewrite bool_decide_false. }
    rewrite P1 by done. specialize (Hd ((mark_of x - pg) / 4)).
    destruct (K1 _) eqn:EK1, (K2 _) eqn:EK2; try done; cbn [andb orb].
    + rewrite S1 by done. rewrite bool_decide_true by done. by rewrite EK1.
    + destruct (Z.odd (m (mark_of x))) eqn:Eo; [|rewrite S1 by done; rewrite bool_decide_true by done; by rewrite EK1].
      pose proof (marked_src pg m x Hpg Hp Hx Hin Eo). destruct Hpg as (? & ? & ?).
      apply E1; byte_lia.
    + rewrite S1 by done. rewrite bool_decide_true by done. by rewrite EK1.
  - intros Hx Hout. by rewrite E2, E1.
Qed.

(** Marks of ends do not matter for what is copied. *)
Lemma did_ends pg m m1 K m' :
  bitmap_page pg → prog_marks m → (∀ x, Z.odd (m1 x) = Z.odd (m x)) →
  (∀ x, m1 x = m x ∨ (in_block pg 4096 x ∧ K ((x - pg) / 4) = true)) →
  did pg m1 K m' → did pg m K m'.
Proof.
  intros Hpg Hp Ho Hm [P1 S1 E1]. pose proof Hpg as (Hal & Hlo & Hhi).
  assert (Hm' : ∀ x, ¬ in_block pg 4096 x → m1 x = m x) by (intros x Hx; by destruct (Hm x) as [|[]]).
  split; intros x.
  - intros Hx. rewrite P1 by done. destruct (Hm x) as [->|[_ ->]]; done.
  - intros Hx. rewrite S1, Ho by done. rewrite (Hm' x) by byte_lia.
    destruct (bool_decide_reflect (in_block pg 4096 (mark_of x))) as [Hin|]; [|done].
    destruct (K _), (Z.odd (m (mark_of x))) eqn:Eo; try done. cbn [andb].
    pose proof (marked_src pg m x Hpg Hp Hx Hin Eo). apply Hm'. byte_lia.
  - intros Hx Hout. rewrite E1 by done. by apply Hm'.
Qed.

Lemma did_ext pg m K K' m' :
  (∀ i, 0 <= i < 1024 → K i = K' i) → did pg m K m' → did pg m K' m'.
Proof.
  intros E [P1 S1 E1]. split; intros x.
  - intros Hx. rewrite P1, E by (done || byte_lia). done.
  - intros Hx. rewrite S1 by done. case_bool_decide as Hin; cbn [andb]; [|done]. by rewrite E by byte_lia.
  - apply E1.
Qed.

Lemma mark_end_at pg m x :
  bytes_ok m → bitmap_page pg → mark_end pg m x = if x =? pg + 4092 then Z.lor (m x) 2 else m x.
Proof.
  intros Hok (Hal & Hlo & Hhi). unfold mark_end. rewrite load_u32_low.
  assert (Hb : ∀ y, in_block (pg + 4092) 4 y → in_bitmap y) by (unfold in_bitmap; byte_lia).
  pose proof (bo_small m Hok (pg + 4092) ltac:(apply Hb; byte_lia)) as H3.
  rewrite word_lor by done.
  rewrite store_low_byte; [|by apply bytes_is_byte|pose proof (small_lor _ H3); unfold is_byte; lia].
  destruct (Z.eqb_spec x (pg + 4092)) as [->|]; [by rewrite upd_eq|by rewrite upd_ne].
Qed.

Lemma drop_end_at m a x :
  (∀ y, in_block a 4 y → 0 <= m y <= 3) →
  store_u32 m a (Z.land (load_u32 m a) (u32 (Z.lnot 2))) x = if x =? a then Z.b2z (Z.odd (m a)) else m x.
Proof.
  intros H3. assert (Hb : ∀ y, in_block a 4 y → is_byte (m y)) by (intros y Hy; specialize (H3 y Hy); unfold is_byte; lia).
  pose proof (load_u32_range m a Hb) as Hr. rewrite load_u32_low in *. rewrite word_land; [|apply H3; byte_lia|done].
  rewrite store_low_byte; [|done|unfold is_byte; destruct (Z.odd (m a)); cbn; lia].
  destruct (Z.eqb_spec x a) as [->|]; [by rewrite upd_eq|by rewrite upd_ne].
Qed.

Lemma odd_b2z b : Z.odd (Z.b2z b) = b.
Proof. by destruct b. Qed.

(** The word at which a walk ends. *)
Lemma last_word_did pg m k :
  bitmap_page pg → 0 <= k < 1024 → prog_marks m → (∀ x, in_block pg 4096 x → 0 <= m x <= 3) →
  (∀ x, in_block (pg + 4 * k) 4 x → x ≠ pg + 4 * k → m x <= 1) →
  let a := pg + 4 * k in
  did pg m (λ i, i =? k)
    (store_u32 (ltckpt_handle_bimap_word a (store_u32 m a (Z.land (load_u32 m a) (u32 (Z.lnot 2))))) a 0).
Proof.
  intros Hpg Hk Hp H3 H1 a. pose proof Hpg as (Hal & Hlo & Hhi).
  assert (H3' : ∀ y, in_block a 4 y → 0 <= m y <= 3) by (intros y Hy; apply H3; subst a; byte_lia).
  eapply did_ends; [done|done| | |apply word_did; [done|done|]].
  - intros x. rewrite drop_end_at by done. destruct (Z.eqb_spec x a) as [->|]; [apply odd_b2z|done].
  - intros x. rewrite drop_end_at by done. destruct (Z.eqb_spec x a) as [->|]; [right|by left].
    split; [subst a; byte_lia|]. apply Z.eqb_eq. subst a. byte_lia.
  - intros x Hx. rewrite drop_end_at by done. destruct (Z.eqb_spec x a) as [->|Hne]; [by destruct (Z.odd (m a))|].
    split; [by apply H3'|by apply H1].
Qed.

Lemma skip_zero_run fuel m pg k :
  bitmap_page pg → 0 <= k <= 1023 → load_u32 m (pg + 4 * 1023) ≠ 0 → 1023 - k <= Z.of_nat fuel →
  ∃ k', k <= k' <= 1023 ∧ skip_zero fuel m (pg + 4 * k) = Some (pg + 4 * k') ∧
    load_u32 m (pg + 4 * k') ≠ 0 ∧ ∀ i, k <= i < k' → load_u32 m (pg + 4 * i) = 0.
Proof.
  intros (Hal & Hlo & Hhi) Hk Hend. revert k Hk. induction fuel as [|fuel IH]; intros k Hk Hf; cbn [skip_zero].
  - assert (k = 1023) as -> by lia. exists 1023. rewrite (proj2 (truthy_true _)) by done. split_and!; (done || lia).
  - destruct (truthy (load_u32 m (pg + 4 * k))) eqn:Et.
    + apply truthy_true in Et. exists k. split_and!; (done || lia).
    + apply truthy_false in Et. destruct (decide (k = 1023)) as [->|Hne]; [done|].
      destruct (IH (k + 1)) as (k' & H1 & H2 & H3 & H4); [lia|lia|]. exists k'.
      rewrite u32_small by byte_lia. replace (pg + 4 * k + 4) with (pg + 4 * (k + 1)) by lia.
      split_and!; [lia|lia|done|done|]. intros i Hi. destruct (decide (i = k)) as [->|]; [done|apply H4; lia].
Qed.

(** Which words do not end the walk. *)
Lemma word_in_page pg k : bitmap_page pg → 0 <= k < 1024 → truthy (Z.land (pg + 4 * k) 0xffc) = negb (k =? 0).
Proof.
  intros (Hal & _ & _) Hk. change 0xffc with (Z.shiftl (Z.ones 10) 2).
  replace (pg + 4 * k) with (Z.shiftl (pg / 4096 * 1024 + k) 2) by (rewrite Z.shiftl_mul_pow2 by lia; byte_lia).
  rewrite <- Z.shiftl_land, Z.land_ones, Z.shiftl_mul_pow2 by lia. change (2 ^ 10) with 1024. change (2 ^ 2) with 4.
  rewrite Z.add_comm, Z.mod_add, Z.mod_small by lia. unfold truthy. f_equal.
  destruct (Z.eqb_spec (k * 4) 0), (Z.eqb_spec k 0); (done || lia).
Qed.

Lemma did_none pg m k :
  bitmap_page pg → 0 <= k < 1024 → (∀ x, in_block (pg + 4 * k) 4 x → m x = 0) → did pg m (λ i, i =? k) m.
Proof.
  intros (Hal & Hlo & Hhi) Hk H0. split; intros x.
  - intros Hx. destruct (Z.eqb_spec ((x - pg) / 4) k); [|done]. apply H0. byte_lia.
  - intros Hx. case_bool_decide as Hin; cbn [andb]; [|done].
    destruct (Z.eqb_spec ((mark_of x - pg) / 4) k); cbn [andb]; [|done]. rewrite (H0 (mark_of x)); [done|byte_lia].
  - done.
Qed.

(** The memory while a page is walked over. *)
Record walk_ok (pg : Z) (m : mem) : Prop := {
  wo_marks : prog_marks m;
  wo_small : ∀ x, in_block pg 4096 x → 0 <= m x <= 3;
  wo_one : ∀ x, in_block pg 4096 x → x ≠ pg + 4092 → m x <= 1;
  wo_end : load_u32 m (pg + 4 * 1023) ≠ 0;
}.

Lemma mark_end_ok pg m : bytes_ok m → bitmap_page pg → walk_ok pg (mark_end pg m).
Proof.
  intros Hok Hpg. pose proof Hpg as (Hal & Hlo & Hhi).
  assert (Hb : ∀ x, in_block pg 4096 x → in_bitmap x) by (unfold in_bitmap; byte_lia).
  assert (Hodd : ∀ x, Z.odd (mark_end pg m x) = true → in_bitmap x → Z.odd (m x) = true).
  { intros x. rewrite mark_end_at by done. destruct (Z.eqb_spec x (pg + 4092)) as [E|]; [|done].
    intros Ho Hx. rewrite <- Ho. symmetry. apply small_lor. by apply bo_small. }
  split.
  - intros x Hx Ho. apply (bo_prog m Hok); [done|by apply Hodd].
  - intros x Hx. rewrite mark_end_at by done. pose proof (bo_small m Hok x (Hb x Hx)) as H3.
    destruct (x =? pg + 4092); [by apply small_lor|done].
  - intros x Hx Hne. rewrite mark_end_at by done. rewrite (proj2 (Z.eqb_neq _ _)) by done.
    apply (bo_one m Hok); [by apply Hb|byte_lia].
  - intros E. assert (Hin : in_block (pg + 4 * 1023) 4 (pg + 4092)) by byte_lia.
    apply (load_u32_zero _ _ (pg + 4092)) in E; [|intros y Hy|done].
    + rewrite mark_end_at, Z.eqb_refl in E by done. revert E. apply small_lor, (bo_small m Hok), Hb. byte_lia.
    + rewrite mark_end_at by done. pose proof (bo_small m Hok y) as H3. unfold in_bitmap, is_byte in *.
      destruct (y =? pg + 4092); [|lia || byte_lia]. pose proof (small_lor (m y) ltac:(apply H3; byte_lia)). lia.
Qed.

Lemma scan_rest pg m fuel :
  bitmap_page pg → walk_ok pg m → load_u32 m pg = 0 →
  ∃ k' m', 0 < k' <= 1023 ∧ scan_page (S fuel) pg m = Some m' ∧ did pg m (λ i, i =? k') m' ∧
    load_u32 m (pg + 4 * k') ≠ 0 ∧ ∀ i, 0 < i < k' → load_u32 m (pg + 4 * i) = 0.
Proof.
  intros Hpg [] H0. pose proof Hpg as (Hal & Hlo & Hhi). cbn [scan_page].
  destruct (skip_zero_run 1024 m pg 0) as (k' & Hk' & Hskip & Hne & Hz); [done|lia|done|lia|].
  rewrite Z.mul_0_r, Z.add_0_r in Hskip. rewrite Hskip. cbn [mbind option_bind].
  assert (k' ≠ 0) as Hn0 by (intros ->; rewrite Z.mul_0_r, Z.add_0_r in Hne; done).
  rewrite word_in_page, (proj2 (Z.eqb_neq _ _)) by (done || lia). cbn [negb].
  eexists k', _. split; [lia|]. split; [reflexivity|]. split; [|split; [done|intros i Hi; apply Hz; lia]].
  apply last_word_did; [done|lia|done|done|]. intros x Hx Hx'. apply wo_one0; byte_lia.
Qed.

(** After the first word the rest of the page is as it was. *)
Lemma first_word_walk pg m m0 :
  bitmap_page pg → walk_ok pg m → did pg m (λ i, i =? 0) m0 →
  walk_ok pg m0 ∧ ∀ k, 0 < k < 1024 → load_u32 m0 (pg + 4 * k) = load_u32 m (pg + 4 * k).
Proof.
  intros (Hal & Hlo & Hhi) [] Hd0.
  assert (Hsame : ∀ k, 0 < k < 1024 → load_u32 m0 (pg + 4 * k) = load_u32 m (pg + 4 * k)).
  { intros k Hk. apply load_u32_ext. intros x Hx. rewrite (did_page _ _ _ _ Hd0) by byte_lia.
    rewrite (proj2 (Z.eqb_neq _ _)) by byte_lia. done. }
  split; [|done]. split.
  - intros x Hx Ho. destruct (decide (in_block pg 4096 x)) as [Hin|Hout].
    + rewrite (did_page _ _ _ _ Hd0) in Ho by done. destruct ((x - pg) / 4 =? 0); [done|]. by apply wo_marks0.
    + rewrite (did_else _ _ _ _ Hd0 x) in Ho; [|unfold in_bitmap in Hx; lia|done]. by apply wo_marks0.
  - intros x Hx. rewrite (did_page _ _ _ _ Hd0) by done. destruct ((x - pg) / 4 =? 0); [lia|by apply wo_small0].
  - intros x Hx Hx'. rewrite (did_page _ _ _ _ Hd0) by done. destruct ((x - pg) / 4 =? 0); [lia|by apply wo_one0].
  - by rewrite Hsame by lia.
Qed.

Lemma walk_page pg m :
  bitmap_page pg → walk_ok pg m →
  ∃ k' m', 0 < k' <= 1023 ∧ scan_page 3 pg m = Some m' ∧ did pg m (λ i, (i =? 0) || (i =? k')) m' ∧
    load_u32 m (pg + 4 * k') ≠ 0 ∧ ∀ i, 0 < i < k' → load_u32 m (pg + 4 * i) = 0.
Proof.
  intros Hpg Hw. pose proof Hw as []. pose proof Hpg as (Hal & Hlo & Hhi).
  assert (Hby : ∀ k x, 0 <= k < 1024 → in_block (pg + 4 * k) 4 x → is_byte (m x)).
  { intros k x Hk Hx. pose proof (wo_small0 x ltac:(byte_lia)). unfold is_byte. lia. }
  destruct (decide (load_u32 m pg = 0)) as [E0|N0].
  - destruct (scan_rest pg m 2 Hpg Hw E0) as (k' & m' & Hk' & Hs & Hd & Hne & Hz).
    exists k', m'. split_and!; [lia|lia|done| |done|done].
    apply (did_compose pg m _ m); [done|done| |apply did_none; [done|lia|]|done].
    + intros i. destruct (Z.eqb_spec i 0), (Z.eqb_spec i k'); (done || lia).
    + intros x Hx. rewrite Z.mul_0_r, Z.add_0_r in Hx. apply (load_u32_zero m pg); [|done|done].
      intros y Hy. apply (Hby 0); [lia|]. by rewrite Z.mul_0_r, Z.add_0_r.
  - change (scan_page 3 pg m) with
      (addr ← skip_zero 1024 m pg;
       if truthy (Z.land addr 0xffc) then
         Some (store_u32 (ltckpt_handle_bimap_word addr (store_u32 m addr (Z.land (load_u32 m addr) (u32 (Z.lnot 2))))) addr 0)
       else scan_page 2 addr (store_u32 (ltckpt_handle_bimap_word addr m) addr 0)).
    assert (skip_zero 1024 m pg = Some pg) as ->.
    { cbn [skip_zero]. by rewrite (proj2 (truthy_true _)). }
    cbn [mbind option_bind]. pose proof (word_in_page pg 0 Hpg ltac:(lia)) as E. rewrite Z.mul_0_r, Z.add_0_r in E.
    rewrite E. cbn [Z.eqb negb].
    assert (did pg m (λ i, i =? 0) (store_u32 (ltckpt_handle_bimap_word pg m) pg 0)) as Hd0.
    { pose proof (word_did pg m 0 Hpg ltac:(lia)) as H. rewrite Z.mul_0_r, Z.add_0_r in H. apply H.
      intros x Hx. split; [apply wo_small0; byte_lia|apply wo_one0; byte_lia]. }
    set (m0 := store_u32 _ pg 0) in *.
    destruct (first_word_walk pg m m0 Hpg Hw Hd0) as [Hw0 Hsame].
    destruct (scan_rest pg m0 1 Hpg Hw0) as (k' & m' & Hk' & Hs & Hd & Hne & Hz).
    + subst m0. by rewrite load_store_u32.
    + exists k', m'. rewrite Hsame in Hne by lia. split_and!; [lia|lia|done| |done|].
      * apply (did_compose pg m _ m0); [done|done| |done|done].
        intros i. destruct (Z.eqb_spec i 0), (Z.eqb_spec i k'); (done || lia).
      * intros i Hi. rewrite <- Hsame by lia. by apply Hz.
Qed.

(** Whether the walk over a page reaches a word: no word before it but the first has a mark. *)
Definition reached (m : mem) (pg k : Z) : bool :=
  forallb (λ i, load_u32 m (pg + 4 * i) =? 0) (seqZ 1 (k - 1)).

Lemma reached_spec m pg k : reached m pg k = true ↔ ∀ i, 0 < i < k → load_u32 m (pg + 4 * i) = 0.
Proof.
  unfold reached. rewrite forallb_forall. split.
  - intros H i Hi. apply Z.eqb_eq, H. apply list_elem_of_In, elem_of_seqZ. lia.
  - intros H i Hi%list_elem_of_In%elem_of_seqZ. apply Z.eqb_eq, H. lia.
Qed.

(** What a checkpoint does to a page: the marks it reaches are cleared, and their clicks copied. *)
Record synced_page (pg : Z) (m m' : mem) : Prop := {
  sp_small x : in_block pg 4096 x → 0 <= m' x <= 3;
  sp_one x : in_block pg 4096 x → x mod 4096 ≠ 4092 → m' x <= 1;
  sp_marks x : in_block pg 4096 x → Z.odd (m' x) = Z.odd (m x) && negb (reached m pg ((x - pg) / 4));
  sp_shadow x : TREE_SHADOW_SPACE_OFFSET <= x →
    m' x = if bool_decide (in_block pg 4096 (mark_of x)) && Z.odd (m (mark_of x)) && reached m pg ((mark_of x - pg) / 4)
           then m (x - TREE_SHADOW_SPACE_OFFSET) else m x;
  sp_else x : x < TREE_SHADOW_SPACE_OFFSET → ¬ in_block pg 4096 x → m' x = m x;
}.

Lemma mark_end_odd pg m x : bytes_ok m → bitmap_page pg → Z.odd (mark_end pg m x) = Z.odd (m x).
Proof.
  intros Hok Hpg. rewrite mark_end_at by done. destruct (Z.eqb_spec x (pg + 4092)) as [->|]; [|done].
  apply small_lor, bo_small; [done|]. destruct Hpg as (? & ? & ?). unfold in_bitmap. byte_lia.
Qed.

(** The words walked over are those reached, as far as they are marked. *)
Lemma walked_reached pg m k' x :
  bytes_ok m → bitmap_page pg → 0 < k' <= 1023 → load_u32 (mark_end pg m) (pg + 4 * k') ≠ 0 →
  (∀ i, 0 < i < k' → load_u32 (mark_end pg m) (pg + 4 * i) = 0) →
  in_block pg 4096 x → Z.odd (m x) = true →
  ((x - pg) / 4 =? 0) || ((x - pg) / 4 =? k') = reached m pg ((x - pg) / 4).
Proof.
  intros Hok Hpg Hk' Hne Hz Hx Ho. pose proof Hpg as (Hal & Hlo & Hhi).
  assert (Hsame : ∀ i, 0 <= i < 1023 → load_u32 (mark_end pg m) (pg + 4 * i) = load_u32 m (pg + 4 * i)).
  { intros i Hi. apply load_u32_ext. intros y Hy. rewrite mark_end_at by done.
    by rewrite (proj2 (Z.eqb_neq _ _)) by byte_lia. }
  set (i := (x - pg) / 4). assert (0 <= i < 1024) as Hi by (subst i; byte_lia).
  destruct (Z.eqb_spec i 0) as [->|Hi0]; [done|]. destruct (Z.eqb_spec i k') as [->|Hik]; cbn [orb]; symmetry.
  - apply reached_spec. intros j Hj. rewrite <- Hsame by lia. by apply Hz.
  - apply not_true_iff_false. rewrite reached_spec. intros Hr. destruct (decide (i < k')) as [Hlt|Hgt].
    + assert (m x = 0) as E; [|by rewrite E in Ho].
      apply (load_u32_zero m (pg + 4 * i)).
      * intros y Hy. pose proof (bo_small m Hok y ltac:(unfold in_bitmap; byte_lia)). unfold is_byte. lia.
      * rewrite <- Hsame by lia. apply Hz. lia.
      * subst i. byte_lia.
    + apply Hne. rewrite Hsame by lia. apply Hr. lia.
Qed.

Lemma sync_page_run pg m : bytes_ok m → bitmap_page pg → ∃ m', sync_page pg m = Some m' ∧ synced_page pg m m'.
Proof.
  intros Hok Hpg. pose proof (mark_end_ok pg m Hok Hpg) as Hw.
  destruct (walk_page pg (mark_end pg m) Hpg Hw) as (k' & m' & Hk' & Hs & [P1 S1 E1] & Hne & Hz).
  exists m'. split; [done|]. pose proof Hpg as (Hal & Hlo & Hhi). destruct Hw.
  pose proof (λ x, walked_reached pg m k' x Hok Hpg Hk' Hne Hz) as Hr.
  split; intros x.
  - intros Hx. rewrite P1 by done. destruct (_ || _); [lia|by apply wo_small0].
  - intros Hx Hx'. rewrite P1 by done. destruct (_ || _); [lia|apply wo_one0; [done|byte_lia]].
  - intros Hx. rewrite P1 by done. destruct (Z.odd (m x)) eqn:Eo.
    + rewrite <- (Hr x Hx Eo). destruct (_ || _); [done|]. by rewrite mark_end_odd.
    + destruct (_ || _); [done|]. rewrite mark_end_odd by done. by rewrite Eo.
  - intros Hx. rewrite S1, mark_end_odd by done. rewrite (mark_end_at pg m x Hok Hpg), (proj2 (Z.eqb_neq x (pg + 4092))) by byte_lia.
    case_bool_decide as Hin; cbn [andb]; [|done]. destruct (Z.odd (m (mark_of x))) eqn:Eo; [|by rewrite andb_false_r].
    rewrite andb_true_r, (Hr (mark_of x) Hin Eo). cbn [andb]. destruct (reached _ _ _); [|done].
    pose proof (marked_src pg m x Hpg (bo_prog m Hok) Hx Hin Eo). rewrite mark_end_at by done.
    by rewrite (proj2 (Z.eqb_neq _ _)) by byte_lia.
  - intros Hx Hout. rewrite E1 by done. rewrite mark_end_at by done. by rewrite (proj2 (Z.eqb_neq _ _)) by byte_lia.
Qed.

(** ** The pages of a checkpoint *)

Lemma elem_of_insert_page x y l : x ∈ insert_page y l ↔ x = y ∨ x ∈ l.
Proof.
  induction l as [|z l IH]; cbn [insert_page]; [by rewrite list_elem_of_singleton, elem_of_nil; tauto|].
  destruct (z <? y); rewrite ?elem_of_cons, ?IH; tauto.
Qed.

Lemma insert_page_sorted x l : x ∉ l → StronglySorted Z.lt l → StronglySorted Z.lt (insert_page x l).
Proof.
  induction l as [|y l IH]; intros Hx Hs; cbn [insert_page]; [repeat constructor|].
  apply not_elem_of_cons in Hx as [Hne Hx]. pose proof Hs as Hs0. apply StronglySorted_inv in Hs as [Hs Hy].
  rewrite Forall_forall in Hy. destruct (Z.ltb_spec y x); constructor.
  - by apply IH.
  - apply Forall_forall. intros z [->|Hz]%elem_of_insert_page; [done|by apply Hy].
  - done.
  - apply Forall_forall. intros z [->|Hz]%elem_of_cons; [lia|]. apply Hy in Hz. lia.
Qed.

Lemma sort_pages_spec l :
  NoDup l → StronglySorted Z.lt (sort_pages l) ∧ ∀ x, x ∈ sort_pages l ↔ x ∈ l.
Proof.
  unfold sort_pages. intros Hd.
  assert (∀ acc, StronglySorted Z.lt acc → NoDup l → (∀ x, x ∈ l → x ∉ acc) →
    StronglySorted Z.lt (foldl (λ acc x, insert_page x acc) acc l) ∧
    ∀ x, x ∈ foldl (λ acc x, insert_page x acc) acc l ↔ x ∈ l ∨ x ∈ acc) as H.
  { clear Hd. induction l as [|y l IH]; intros acc Hs Hd Hx; cbn [foldl].
    - split; [done|]. intros x. rewrite elem_of_nil. tauto.
    - apply NoDup_cons in Hd as [Hy Hd]. destruct (IH (insert_page y acc)) as [H1 H2].
      + apply insert_page_sorted; [|done]. apply Hx. by left.
      + done.
      + intros x Hxl [->|Hacc]%elem_of_insert_page; [done|]. revert Hacc. apply Hx. by right.
      + split; [done|]. intros x. rewrite H2, elem_of_insert_page, elem_of_cons. tauto. }
  destruct (H []) as [H1 H2]; [constructor|done|intros x _; apply not_elem_of_nil|].
  split; [done|]. intros x. rewrite H2, elem_of_nil. tauto.
Qed.

(** Whether a checkpoint over the pages [l] copies the click of the mark at [x]. *)
Definition copies (m : mem) (l : list Z) (x : Z) : bool :=
  let pg := PAGE_ROUND_DOWN x in bool_decide (pg ∈ l) && reached m pg ((x - pg) / 4).

Record synced_pages (l : list Z) (m m' : mem) : Prop := {
  ss_ok : bytes_ok m';
  ss_marks x : in_bitmap x → Z.odd (m' x) = Z.odd (m x) && negb (copies m l x);
  ss_shadow x : TREE_SHADOW_SPACE_OFFSET <= x →
    m' x = if bool_decide (in_bitmap (mark_of x)) && Z.odd (m (mark_of x)) && copies m l (mark_of x)
           then m (x - TREE_SHADOW_SPACE_OFFSET) else m x;
  ss_else x : x < BYTE_BITMAP_OFFSET → m' x = m x;
}.

Lemma page_of_mark pg x : bitmap_page pg → in_block pg 4096 x ↔ PAGE_ROUND_DOWN x = pg.
Proof. intros (? & ? & ?). byte_lia. Qed.

Lemma synced_page_ok pg m m' : bitmap_page pg → bytes_ok m → synced_page pg m m' → bytes_ok m'.
Proof.
  intros Hpg [H3 H1 Hp] [P1 P2 P3 _ E]. split; intros x Hx.
  - destruct (decide (in_block pg 4096 x)); [by apply P1|]. rewrite E by (unfold in_bitmap in Hx; lia || done). by apply H3.
  - intros Hx'. destruct (decide (in_block pg 4096 x)); [by apply P2|].
    rewrite E by (unfold in_bitmap in Hx; lia || done). by apply H1.
  - intros Ho. apply Hp; [done|]. destruct (decide (in_block pg 4096 x)).
    + rewrite P3 in Ho by done. by apply andb_true_iff in Ho as [? _].
    + by rewrite E in Ho by (unfold in_bitmap in Hx; lia || done).
Qed.

(** The words of one page do not change while another is walked over. *)
Lemma reached_other pg q m m' k :
  bitmap_page pg → bitmap_page q → pg ≠ q → k <= 1024 → synced_page pg m m' → reached m' q k = reached m q k.
Proof.
  intros (? & ? & ?) (? & ? & ?) Hne Hk Hs.
  assert (∀ i, 0 < i < k → load_u32 m' (q + 4 * i) = load_u32 m (q + 4 * i)) as E
    by (intros i Hi; apply load_u32_ext; intros x Hx; apply (sp_else _ _ _ Hs); byte_lia).
  apply eq_true_iff_eq. rewrite !reached_spec. split; intros Hr i Hi; [rewrite <- E by done|rewrite E by done]; by apply Hr.
Qed.

Lemma copies_cons pg l m m' x :
  bitmap_page pg → Forall bitmap_page l → pg ∉ l → in_bitmap x → synced_page pg m m' →
  copies m (pg :: l) x = if bool_decide (PAGE_ROUND_DOWN x = pg) then reached m pg ((x - pg) / 4) else copies m' l x.
Proof.
  intros Hpg Hl Hn Hx Hs. unfold copies. cbv zeta. destruct (bool_decide_reflect (PAGE_ROUND_DOWN x = pg)) as [E|E].
  - rewrite E, bool_decide_true by (by left). done.
  - rewrite (bool_decide_ext (PAGE_ROUND_DOWN x ∈ pg :: l) (PAGE_ROUND_DOWN x ∈ l)) by (rewrite elem_of_cons; tauto).
    case_bool_decide as Hin; cbn [andb]; [|done]. symmetry. rewrite Forall_forall in Hl.
    apply (reached_other pg); [done|by apply Hl|done|byte_lia|done].
Qed.

Lemma synced_pages_cons pg l m m1 m' :
  bitmap_page pg → Forall bitmap_page l → pg ∉ l → bytes_ok m →
  synced_page pg m m1 → synced_pages l m1 m' → synced_pages (pg :: l) m m'.
Proof.
  intros Hpg Hl Hn Hok H1 [Hok' HM HS HE]. pose proof Hpg as (Hal & Hlo & Hhi). split; [done|..]; intros x Hx.
  - rewrite HM by done. rewrite (copies_cons pg l m m1) by done. case_bool_decide as E.
    + apply page_of_mark in E; [|done]. rewrite (sp_marks _ _ _ H1) by done.
      assert (copies m1 l x = false) as ->.
      { unfold copies. cbv zeta. rewrite bool_decide_false; [done|]. apply (page_of_mark pg x Hpg) in E. by rewrite E. }
      by rewrite andb_true_r.
    + rewrite (sp_else _ _ _ H1 x); [done|unfold in_bitmap in Hx; lia|]. by rewrite page_of_mark.
  - rewrite HS, (sp_shadow _ _ _ H1 x) by done.
    destruct (bool_decide_reflect (in_bitmap (mark_of x))) as [Hb|Hb]; cbn [andb].
    2:{ rewrite bool_decide_false; [done|]. intros Hin. apply Hb. unfold in_bitmap. byte_lia. }
    rewrite (copies_cons pg l m m1) by done.
    rewrite (bool_decide_ext _ _ (page_of_mark pg (mark_of x) Hpg)). case_bool_decide as E; cbn [andb].
    + assert (copies m1 l (mark_of x) = false) as ->.
      { unfold copies. cbv zeta. rewrite bool_decide_false; [done|]. by rewrite E. }
      by rewrite andb_false_r.
    + assert (m1 (mark_of x) = m (mark_of x)) as ->.
      { apply (sp_else _ _ _ H1); [unfold in_bitmap in Hb; lia|]. by rewrite page_of_mark. }
      destruct (Z.odd (m (mark_of x))) eqn:Eo; cbn [andb]; [|done]. destruct (copies m1 l (mark_of x)); [|done].
      apply (sp_else _ _ _ H1); pose proof (bo_prog m Hok (mark_of x) Hb Eo); unfold mark_of, in_bitmap in *; byte_lia.
  - rewrite HE by done. apply (sp_else _ _ _ H1); byte_lia.
Qed.

(** ** Checkpoints *)

Section Checkpoint.
Context {os : Type} `{vmem : VMem os}.

(** The calls of [mprotect] succeed. *)
Context (mprotect_ok : ∀ a n prot (o : os), (mprotect a n prot o).1 = 0).

Lemma by_mprotect_run a n prot w s o :
  ∃ o', by_mprotect a n prot w (s, o) = Ok () (protect a n w s, o').
Proof.
  unfold by_mprotect. pose proof (mprotect_ok a n prot o) as H. destruct (mprotect a n prot o) as [r o']. cbn in H.
  subst r. by exists o'.
Qed.

(** The loop over the pages: what it does to the memory, and that it protects them. *)
Lemma sync_pages_run l : ∀ rs s o,
  StronglySorted Z.lt l → Forall bitmap_page l → bytes_ok (by_mem s) →
  rs = 0 ∨ (0 < rs ∧ Forall (λ p, rs <= p) l) →
  ∃ s' o', sync_pages l rs (s, o) = Ok () (s', o') ∧ synced_pages l (by_mem s) (by_mem s') ∧
    by_pages s' = by_pages s ∧ (∀ p, by_writable s' p = true → by_writable s p = true) ∧
    (∀ p, p ∈ l → by_writable s' p = false) ∧
    (∀ p h, rs ≠ 0 → head l = Some h → rs <= p <= h → by_writable s' p = false).
Proof.
  induction l as [|start l IH]; intros rs s o Hs Hp Hok Hrs; cbn [sync_pages].
  - exists s, o. split_and!; try done; [|intros p ?%elem_of_nil; done].
    split; [done| | |done]; intros x Hx; unfold copies; cbv zeta;
      rewrite (bool_decide_false (_ ∈ [])) by apply not_elem_of_nil; cbn [andb negb]; by rewrite ?andb_true_r, ?andb_false_r.
  - apply StronglySorted_inv in Hs as [Hs Hlt]. apply Forall_cons in Hp as [Hpg Hp].
    assert (start ∉ l) as Hn by (intros Hin; rewrite Forall_forall in Hlt; specialize (Hlt _ Hin); lia).
    set (rs' := if rs =? 0 then start else rs).
    assert (0 < rs' <= start ∧ (rs ≠ 0 → rs' = rs)) as [Hrs' Hrr].
    { subst rs'. destruct Hpg as (? & ? & ?), (Z.eqb_spec rs 0) as [->|]; [byte_lia|].
      destruct Hrs as [?|[Hr Hf]]; [done|]. apply Forall_cons in Hf as [? _]. lia. }
    destruct (sync_page_run start (by_mem s) Hok Hpg) as (m1 & Em & H1).
    set (s1 := set_by_mem (λ _, m1) s).
    rewrite (bind_Ok _ _ _ () (s1, o)) by (unfold by_sync_page; by rewrite Em).
    pose proof (synced_page_ok start _ _ Hpg Hok H1) as Hok1. pose proof Hpg as (Hal & Hlo & Hhi).
    assert (Hsmall : u32 (start - rs' + 4096) = start - rs' + 4096) by (apply u32_small; byte_lia).
    destruct (match l with [] => true | next :: _ => _ end) eqn:Elast.
    + destruct (by_mprotect_run rs' (u32 (start - rs' + 4096)) PROT_READ false s1 o) as (o1 & Hm).
      rewrite (bind_Ok _ _ _ _ _ Hm). rewrite Hsmall.
      destruct (IH 0 (protect rs' (start - rs' + 4096) false s1) o1) as (s' & o' & -> & Hsy & Hpgs & Hmono & Hl & _);
        [done|done|done|by left|].
      assert (Hclosed : ∀ p, rs' <= p <= start → by_writable s' p = false).
      { intros p Hr. apply not_true_iff_false. intros Hw. apply Hmono in Hw. cbn [by_writable protect] in Hw.
        rewrite (proj2 (andb_true_iff _ _)) in Hw; [done|]. rewrite Z.leb_le, Z.ltb_lt. lia. }
      exists s', o'. split_and!; [done|by apply (synced_pages_cons start l _ m1)|done| | |].
      * intros p Hw%Hmono. cbn [by_writable protect s1 set_by_mem] in Hw. by destruct (_ && _).
      * intros p [->|Hin]%elem_of_cons; [apply Hclosed; lia|by apply Hl].
      * intros p h Hr [= <-] Hph. apply Hclosed. rewrite Hrr by done. lia.
    + destruct l as [|next l']; [done|].
      destruct (IH rs' s1 o) as (s' & o' & -> & Hsy & Hpgs & Hmono & Hl & Hr);
        [done|done|done|right; split; [lia|]; eapply Forall_impl; [exact Hlt|cbn; lia]|].
      assert (start < next) by (by apply Forall_cons in Hlt as [? _]).
      exists s', o'. split_and!; [done|by apply (synced_pages_cons start (next :: l') _ m1)|done|done| |].
      * intros p [->|Hin]%elem_of_cons; [apply (Hr _ next); [lia|done|lia]|by apply Hl].
      * intros p h Hr0 [= <-] Hph. apply (Hr _ next); [lia|done|]. rewrite Hrr by done. lia.
Qed.

(** In a window that began at [m0]: the pages of the bitmap that are writable are listed, only they
    have marks, the shadow is the checkpoint, and what differs from it is marked. *)
Record in_byte_window (m0 : mem) (s : byt) : Prop := {
  bw_ok : bytes_ok (by_mem s);
  bw_nodup : NoDup (by_pages s);
  bw_pages : Forall bitmap_page (by_pages s);
  bw_writable : ∀ p, bitmap_page p → by_writable s p = true ↔ p ∈ by_pages s;
  bw_marks : ∀ x, in_bitmap x → Z.odd (by_mem s x) = true → PAGE_ROUND_DOWN x ∈ by_pages s;
  bw_shadow : ∀ y, 0 <= y < BYTE_BITMAP_OFFSET → by_mem s (TREE_SHADOW_SPACE_OFFSET + y) = m0 y;
  bw_changed : ∀ y, 0 <= y < BYTE_BITMAP_OFFSET → byte_marked (by_mem s) (y / 16) = false → by_mem s y = m0 y;
}.

(** The bitmap has 24576 pages, far fewer than the list of pages holds. *)
Lemma few_pages l : NoDup l → Forall bitmap_page l → zlen l <= 24576.
Proof.
  intros Hd Hl.
  assert (zlen ((λ i, BYTE_BITMAP_OFFSET + 4096 * i) <$> seqZ 0 24576) = 24576) as <-
    by (rewrite length_fmap, length_seqZ; lia).
  apply inj_le, submseteq_length, NoDup_submseteq; [done|]. intros p Hp. rewrite Forall_forall in Hl. destruct (Hl p Hp) as (? & ? & ?).
  apply list_elem_of_fmap. exists ((p - BYTE_BITMAP_OFFSET) / 4096). rewrite elem_of_seqZ. byte_lia.
Qed.

(** The page of a mark of the program is of the bitmap. *)
Lemma mark_page a :
  0 <= a < BYTE_BITMAP_OFFSET → bitmap_page (PAGE_ROUND_DOWN (BYTE_BITMAP_OFFSET + a / 16)) ∧ in_bitmap (BYTE_BITMAP_OFFSET + a / 16).
Proof. intros Ha. unfold bitmap_page, in_bitmap. byte_lia. Qed.

Lemma byte_handler_run m0 s o p :
  in_byte_window m0 s → in_bitmap p → bitmap_page (PAGE_ROUND_DOWN p) → by_writable s (PAGE_ROUND_DOWN p) = false →
  ∃ s' o', ltckpt_sigsegvhandler p (s, o) = Ok () (s', o') ∧ in_byte_window m0 s' ∧ by_mem s' = by_mem s ∧
    PAGE_ROUND_DOWN p ∈ by_pages s'.
Proof.
  intros [Hok Hd Hp Hw Hm Hs Hc] Hb Hpg Hnw. unfold ltckpt_sigsegvhandler. unfold in_bitmap in Hb.
  rewrite (u32_small p) by byte_lia. set (pg := PAGE_ROUND_DOWN p) in *. pose proof Hpg as (Hal & Hlo & Hhi).
  rewrite (proj2 (Z.eqb_neq pg 0)) by byte_lia.
  destruct (by_mprotect_run pg 4096 (Z.lor 4 (Z.lor PROT_READ PROT_WRITE)) true s o) as (o1 & Hm1).
  rewrite (bind_Ok _ _ _ _ _ Hm1). unfold by_put. rewrite bind_modify, bind_gets. cbn [fst snd by_pages set_by_pages protect].
  assert (pg ∉ by_pages s) as Hn by (rewrite <- Hw by done; by rewrite Hnw).
  assert (NoDup (by_pages s ++ [pg])) as Hd'.
  { apply NoDup_app. split_and!; [done| |by apply NoDup_singleton]. intros x Hx ->%list_elem_of_singleton. done. }
  assert (Forall bitmap_page (by_pages s ++ [pg])) as Hp' by (apply Forall_app; split; [done|by constructor]).
  pose proof (few_pages _ Hd' Hp') as Hfew. assert ((length (by_pages s ++ [pg]) =? LTCKPT_MAX_PF)%nat = false) as ->.
  { apply Nat.eqb_neq. intros E. rewrite E in Hfew. change (Z.of_nat LTCKPT_MAX_PF) with (Z.of_nat (1024 * 1024)) in Hfew. lia. }
  eexists _, o1. split; [reflexivity|]. split_and!; [|done|cbn; apply elem_of_app; right; by apply list_elem_of_singleton].
  split; cbn [by_mem by_pages by_writable set_by_pages protect]; try done.
  - intros q Hq. rewrite elem_of_app, list_elem_of_singleton. destruct (decide (q = pg)) as [->|Hne].
    + rewrite (proj2 (andb_true_iff _ _)) by (rewrite Z.leb_le, Z.ltb_lt; lia). tauto.
    + rewrite (proj2 (andb_false_iff _ _)); [rewrite Hw by done; tauto|].
      destruct Hq as (? & ? & ?). rewrite Z.leb_gt, Z.ltb_ge. byte_lia.
  - intros x Hx Ho. apply elem_of_app. left. by apply Hm.
Qed.

(** Marking a click. *)
Lemma byte_set_bit_run m0 s o a :
  0 <= a < BYTE_BITMAP_OFFSET → in_byte_window m0 s →
  ∃ s' o', byte_set_bit a (s, o) = Ok () (s', o') ∧ in_byte_window m0 s' ∧
    by_mem s' = upd (by_mem s) (BYTE_BITMAP_OFFSET + a / 16) 1.
Proof.
  intros Ha Hw. destruct (mark_page a Ha) as [Hpg Hb]. unfold byte_set_bit.
  rewrite (u32_small a) by byte_lia. rewrite u32_small by byte_lia.
  replace (a / 16 + BYTE_BITMAP_OFFSET) with (BYTE_BITMAP_OFFSET + a / 16) by lia.
  set (p := BYTE_BITMAP_OFFSET + a / 16) in *. rewrite bind_gets. cbn [fst].
  assert (∃ s1 o1, when (negb (by_writable s (PAGE_ROUND_DOWN p))) (ltckpt_sigsegvhandler p) (s, o) = Ok () (s1, o1) ∧
    in_byte_window m0 s1 ∧ by_mem s1 = by_mem s ∧ PAGE_ROUND_DOWN p ∈ by_pages s1) as (s1 & o1 & E & Hw1 & Em & Hin).
  { destruct (by_writable s (PAGE_ROUND_DOWN p)) eqn:Ew; cbn [negb when].
    - exists s, o. split_and!; [done..|]. by apply (bw_writable _ _ Hw).
    - by apply byte_handler_run. }
  rewrite (bind_Ok _ _ _ _ _ E). exists (set_by_mem (λ m, upd m p 1) s1), o1. split; [reflexivity|]. cbn [by_mem set_by_mem]. split; [|by rewrite Em].
  destruct Hw1 as [[H3 H1 Hp] Hd Hps Hwr Hm Hs Hc]. rewrite Em in *. unfold in_bitmap in Hb.
  assert (∀ x, x ≠ p → upd (by_mem s) p 1 x = by_mem s x) as Ho by (intros; by apply upd_ne).
  split; cbn [by_mem set_by_mem by_pages by_writable]; try done; try rewrite Em.
  - split; intros x Hx.
    + destruct (decide (x = p)) as [->|Hne]; [rewrite upd_eq; lia|rewrite Ho by done; by apply H3].
    + intros Hx'. destruct (decide (x = p)) as [->|Hne]; [by rewrite upd_eq|rewrite Ho by done; by apply H1].
    + destruct (decide (x = p)) as [->|Hne]; [subst p; byte_lia|rewrite Ho by done; by apply Hp].
  - intros x Hx. destruct (decide (x = p)) as [->|Hne]; [done|rewrite Ho by done; by apply Hm].
  - intros y Hy. rewrite Ho by byte_lia. by apply Hs.
  - intros y Hy. unfold byte_marked in *. destruct (decide (BYTE_BITMAP_OFFSET + y / 16 = p)) as [E'|Hne].
    + rewrite E', upd_eq. done.
    + rewrite Ho by done. rewrite Ho by byte_lia. by apply Hc.
Qed.

(** A write whose clicks are marked stays in the window. *)
Lemma byte_write_window m0 s a bs :
  0 <= a → a + zlen bs <= BYTE_BITMAP_OFFSET → in_byte_window m0 s →
  (∀ x, in_block a (zlen bs) x → byte_marked (by_mem s) (x / 16) = true) →
  in_byte_window m0 (set_by_mem (λ m, store_bytes m a bs) s).
Proof.
  intros Ha Hb [[H3 H1 Hp] Hd Hps Hwr Hm Hs Hc] Hmk.
  assert (∀ x, BYTE_BITMAP_OFFSET <= x → store_bytes (by_mem s) a bs x = by_mem s x) as Ho
    by (intros x Hx; apply store_bytes_out; byte_lia).
  split; cbn [by_mem set_by_mem by_pages by_writable]; try done.
  - split; intros x Hx; rewrite Ho by (unfold in_bitmap in Hx; lia); auto.
  - intros x Hx. rewrite Ho by (unfold in_bitmap in Hx; lia). by apply Hm.
  - intros y Hy. rewrite Ho by byte_lia. by apply Hs.
  - intros y Hy. unfold byte_marked in *. rewrite Ho by byte_lia. intros Hf. rewrite store_bytes_out; [by apply Hc|].
    intros Hin. by rewrite Hmk in Hf.
Qed.

Lemma byte_memcpy_loop_run m0 stop_at fuel : ∀ reg s o,
  0 <= reg → reg mod 16 = 0 → stop_at <= BYTE_BITMAP_OFFSET → stop_at - reg <= 16 * (Z.of_nat fuel - 1) →
  (0 < fuel)%nat → in_byte_window m0 s →
  ∃ s' o', byte_memcpy_loop fuel reg stop_at (s, o) = Ok () (s', o') ∧ in_byte_window m0 s' ∧
    mem_agree (λ x, 0 <= x < BYTE_BITMAP_OFFSET) (by_mem s') (by_mem s) ∧
    (∀ c, byte_marked (by_mem s) c = true → byte_marked (by_mem s') c = true) ∧
    ∀ x, reg <= x < stop_at → byte_marked (by_mem s') (x / 16) = true.
Proof.
  induction fuel as [|fuel IH]; intros reg s o H0 Hal Hs Hf Hf0 Hw; [lia|]. cbn [byte_memcpy_loop].
  destruct (Z.ltb_spec reg stop_at) as [Hlt|Hge].
  - destruct (byte_set_bit_run m0 s o reg) as (s1 & o1 & E1 & Hw1 & Em); [lia|done|].
    rewrite (bind_Ok _ _ _ _ _ E1). unfold BYTE_BITMAP_CLICK. rewrite u32_small by byte_lia.
    assert (Hg1 : ∀ c, byte_marked (by_mem s) c = true → byte_marked (by_mem s1) c = true).
    { intros c Hc. unfold byte_marked in *. rewrite Em.
      destruct (decide (BYTE_BITMAP_OFFSET + c = BYTE_BITMAP_OFFSET + reg / 16)) as [->|]; [by rewrite upd_eq|by rewrite upd_ne]. }
    destruct (IH (reg + 16) s1 o1) as (s' & o' & E & Hw' & Hag & Hg & Hm); [lia|byte_lia|done|lia|lia|done|].
    exists s', o'. split; [done|]. split; [done|]. split.
    { etransitivity; [done|]. intros x Hx. rewrite Em. apply upd_ne. byte_lia. }
    split; [auto|]. intros x Hx. destruct (decide (x < reg + 16)); [|apply Hm; lia].
    replace (x / 16) with (reg / 16) by byte_lia. apply Hg. unfold byte_marked. by rewrite Em, upd_eq.
  - exists s, o. split_and!; try done. lia.
Qed.

Lemma byte_memcpy_hook_run m0 s o a size :
  0 <= a → 0 <= size → a + size <= BYTE_BITMAP_OFFSET → in_byte_window m0 s →
  ∃ s' o', byte_memcpy_hook a size (s, o) = Ok () (s', o') ∧ in_byte_window m0 s' ∧
    mem_agree (λ x, 0 <= x < BYTE_BITMAP_OFFSET) (by_mem s') (by_mem s) ∧
    ∀ x, in_block a size x → byte_marked (by_mem s') (x / 16) = true.
Proof.
  intros Ha Hsz Hb Hw. unfold byte_memcpy_hook. change (BYTE_BITMAP_CLICK - 1) with (Z.ones 4).
  rewrite land_lnot_ones by lia. change (2 ^ 4) with 16. rewrite u32_small by byte_lia.
  destruct (byte_memcpy_loop_run m0 (a + size) (Z.to_nat (size / BYTE_BITMAP_CLICK + 3)) (a - a mod 16) s o)
    as (s' & o' & E & Hw' & Hag & _ & Hm); [byte_lia|byte_lia|done|unfold BYTE_BITMAP_CLICK; byte_lia..|done|].
  exists s', o'. split_and!; try done. intros x Hx. apply Hm. byte_lia.
Qed.

(** The writes of the program, each behind its hook. *)
Definition byte_step (op : tree_op) : prog (byt * os) () :=
  match op with
  | TStore a bs => byte_store_hook a ;; by_put (set_by_mem (λ m, store_bytes m a bs))
  | TMemcpy a bs => byte_memcpy_hook a (zlen bs) ;; by_put (set_by_mem (λ m, store_bytes m a bs))
  end.

Fixpoint byte_run (ops : list tree_op) : prog (byt * os) () :=
  match ops with
  | [] => skip
  | op :: ops' => byte_step op ;; byte_run ops'
  end.

Definition byte_op_ok (op : tree_op) : Prop :=
  match op with
  | TStore a bs => 0 <= a < BYTE_BITMAP_OFFSET ∧ a + zlen bs <= BYTE_BITMAP_OFFSET ∧
      ∀ x, in_block a (zlen bs) x → x / 16 = a / 16
  | TMemcpy a bs => 0 <= a ∧ a + zlen bs <= BYTE_BITMAP_OFFSET
  end.

Lemma byte_step_run m0 op s o :
  byte_op_ok op → in_byte_window m0 s →
  ∃ s' o', byte_step op (s, o) = Ok () (s', o') ∧ in_byte_window m0 s' ∧
    mem_agree (λ x, 0 <= x < BYTE_BITMAP_OFFSET) (by_mem s') (tree_plain [op] (by_mem s)).
Proof.
  destruct op as [a bs|a bs]; cbn [byte_step byte_op_ok tree_plain foldl].
  - intros (Ha & Hb & Hx) Hw. destruct (byte_set_bit_run m0 s o a Ha Hw) as (s1 & o1 & E & Hw1 & Em).
    rewrite (bind_Ok _ _ _ _ _ E). exists (set_by_mem (λ m, store_bytes m a bs) s1), o1. split; [reflexivity|]. split.
    + apply byte_write_window; [lia|done|done|]. intros x Hin. rewrite Hx by done. unfold byte_marked. by rewrite Em, upd_eq.
    + cbn [by_mem set_by_mem]. apply store_bytes_agree. intros x [Hin _]. rewrite Em. apply upd_ne. byte_lia.
  - intros (Ha & Hb) Hw. destruct (byte_memcpy_hook_run m0 s o a (zlen bs)) as (s1 & o1 & E & Hw1 & Hag & Hm); [lia|lia|done|done|].
    rewrite (bind_Ok _ _ _ _ _ E). exists (set_by_mem (λ m, store_bytes m a bs) s1), o1. split; [reflexivity|]. split; [by apply byte_write_window|].
    cbn [by_mem set_by_mem]. apply store_bytes_agree. intros x [Hin _]. by apply Hag.
Qed.

Lemma byte_run_window m0 ops : ∀ s o,
  Forall byte_op_ok ops → in_byte_window m0 s →
  ∃ s' o', byte_run ops (s, o) = Ok () (s', o') ∧ in_byte_window m0 s' ∧
    mem_agree (λ x, 0 <= x < BYTE_BITMAP_OFFSET) (by_mem s') (tree_plain ops (by_mem s)).
Proof.
  induction ops as [|op ops IH]; intros s o Hok Hw; [by exists s, o|]. apply Forall_cons in Hok as [Hop Hok].
  destruct (byte_step_run m0 op s o Hop Hw) as (s1 & o1 & E1 & Hw1 & Ha1).
  destruct (IH s1 o1 Hok Hw1) as (s2 & o2 & E2 & Hw2 & Ha2). exists s2, o2. cbn [byte_run].
  rewrite (bind_Ok _ _ _ _ _ E1). split; [done|]. split; [done|]. etransitivity; [done|].
  change (tree_plain (op :: ops) (by_mem s)) with (tree_plain ops (tree_plain [op] (by_mem s))). by apply tree_plain_agree.
Qed.

(** The state at a checkpoint: no marks, nothing writable, and the shadow a copy of the memory. *)
Record byte_synced (s : byt) : Prop := {
  bs_ok : bytes_ok (by_mem s);
  bs_unmarked : ∀ x, in_bitmap x → Z.odd (by_mem s x) = false;
  bs_pages : by_pages s = [];
  bs_protected : ∀ p, bitmap_page p → by_writable s p = false;
  bs_shadow : ∀ y, 0 <= y < BYTE_BITMAP_OFFSET → by_mem s (TREE_SHADOW_SPACE_OFFSET + y) = by_mem s y;
}.

Lemma byte_synced_window s : byte_synced s → in_byte_window (by_mem s) s.
Proof.
  intros []. split; try done; rewrite ?bs_pages0; try by constructor.
  - intros p Hp. rewrite bs_protected0 by done. split; [done|]. by intros ?%elem_of_nil.
  - intros x Hx. by rewrite bs_unmarked0.
Qed.

(** A checkpoint: the pages are protected and the list is empty; of the marked clicks those that
    the walk reaches are copied to the shadow and lose their marks, the others keep both. *)
Lemma byte_clear_exact m0 s o :
  in_byte_window m0 s → (length (by_pages s) <= SORTED_PAGES)%nat →
  ∃ s' o', byte_clear_bitmap (s, o) = Ok () (s', o') ∧ bytes_ok (by_mem s') ∧ by_pages s' = [] ∧
    (∀ p, bitmap_page p → by_writable s' p = false) ∧
    (∀ y, 0 <= y < BYTE_BITMAP_OFFSET → by_mem s' y = by_mem s y) ∧
    let reach c := let x := BYTE_BITMAP_OFFSET + c in reached (by_mem s) (PAGE_ROUND_DOWN x) (x mod 4096 / 4) in
    (∀ c, in_bitmap (BYTE_BITMAP_OFFSET + c) →
       byte_marked (by_mem s') c = byte_marked (by_mem s) c && negb (reach c)) ∧
    ∀ y, 0 <= y < BYTE_BITMAP_OFFSET →
      by_mem s' (TREE_SHADOW_SPACE_OFFSET + y)
      = if byte_marked (by_mem s) (y / 16) && reach (y / 16) then by_mem s y else m0 y.
Proof.
  intros [Hok Hd Hp Hw Hm Hs Hc] Hlen. unfold byte_clear_bitmap. rewrite bind_gets. cbn [fst].
  rewrite (proj2 (Nat.ltb_ge _ _)) by done. destruct (sort_pages_spec (by_pages s) Hd) as [Hsort Hel].
  destruct (sync_pages_run (sort_pages (by_pages s)) 0 s o) as (s1 & o1 & E & [Hok1 HM HS HE] & Hpg & Hmono & Hl & _);
    [done|apply Forall_forall; intros p Hin; rewrite Forall_forall in Hp; by apply Hp, Hel|done|by left|].
  rewrite (bind_Ok _ _ _ _ _ E). exists (set_by_pages [] s1), o1. split; [done|]. cbn [by_mem by_pages set_by_pages by_writable].
  split; [done|]. split; [done|]. split.
  { intros p Hpp. apply not_true_iff_false. intros Hwt. pose proof (Hmono p Hwt) as Hin. apply Hw in Hin; [|done].
    rewrite Hl in Hwt by (by apply Hel). done. }
  split; [intros y Hy; apply HE; lia|]. cbv zeta.
  assert (Hcp : ∀ x, in_bitmap x → Z.odd (by_mem s x) = true →
    copies (by_mem s) (sort_pages (by_pages s)) x = reached (by_mem s) (PAGE_ROUND_DOWN x) (x mod 4096 / 4)).
  { intros x Hx Ho. unfold copies. cbv zeta. rewrite bool_decide_true by (apply Hel; by apply Hm). cbn [andb]. f_equal.
    byte_lia. }
  split.
  - intros c Hb. unfold byte_marked. rewrite HM by done. destruct (Z.odd _) eqn:Eo; [|done]. by rewrite Hcp.
  - intros y Hy. rewrite HS by byte_lia. unfold mark_of.
    replace (TREE_SHADOW_SPACE_OFFSET + y - TREE_SHADOW_SPACE_OFFSET) with y by lia.
    assert (in_bitmap (BYTE_BITMAP_OFFSET + y / 16)) as Hb by (by apply mark_page).
    rewrite bool_decide_true by done. cbn [andb]. fold (byte_marked (by_mem s) (y / 16)).
    destruct (byte_marked (by_mem s) (y / 16)) eqn:Eo; cbn [andb]; [|by apply Hs]. rewrite Hcp by done.
    destruct (reached _ _ _); [done|by apply Hs].
Qed.

(** Whether every mark is reached: no page has two marked words besides its first. *)
Definition all_reached (m : mem) : Prop :=
  ∀ x, in_bitmap x → Z.odd (m x) = true → reached m (PAGE_ROUND_DOWN x) (x mod 4096 / 4) = true.

(** C17: The bitmap of bytes, with its pages protected between checkpoints. From a checkpoint on,
    whatever the program stores or copies below the bitmap, with the hook before each write and
    each store within one click of 16 bytes ([byte_op_ok]: the hook marks the click of the first
    byte only; copies may be of any length), its memory is what it would be without checkpoints
    and the shadow keeps the checkpoint. If at most a thousand pages of the bitmap were marked,
    the next checkpoint ends, protects every page again and empties the list of pages; a byte of
    the shadow is then the program's if its click was marked and the walk reached it, and that of
    the checkpoint before if not. When every mark is reached, the state is again one of a
    checkpoint. *)
Theorem byte_checkpoint_syncs s o ops :
  byte_synced s → Forall byte_op_ok ops →
  ∃ s1 o1, byte_run ops (s, o) = Ok () (s1, o1) ∧
    (∀ y, 0 <= y < BYTE_BITMAP_OFFSET →
       by_mem s1 y = tree_plain ops (by_mem s) y ∧ by_mem s1 (TREE_SHADOW_SPACE_OFFSET + y) = by_mem s y) ∧
    ((length (by_pages s1) <= SORTED_PAGES)%nat →
     ∃ s2 o2, byte_clear_bitmap (s1, o1) = Ok () (s2, o2) ∧ by_pages s2 = [] ∧
       (∀ p, bitmap_page p → by_writable s2 p = false) ∧
       (∀ y, 0 <= y < BYTE_BITMAP_OFFSET →
          by_mem s2 y = tree_plain ops (by_mem s) y ∧
          by_mem s2 (TREE_SHADOW_SPACE_OFFSET + y)
          = (let x := BYTE_BITMAP_OFFSET + y / 16 in
             if Z.odd (by_mem s1 x) && reached (by_mem s1) (PAGE_ROUND_DOWN x) (x mod 4096 / 4)
             then by_mem s2 y else by_mem s y)) ∧
       (all_reached (by_mem s1) → byte_synced s2)).
Proof.
  intros Hs Hops. destruct (byte_run_window (by_mem s) ops s o Hops (byte_synced_window s Hs)) as (s1 & o1 & E1 & Hw & Ha).
  exists s1, o1. split; [done|]. split; [intros y Hy; split; [by apply Ha|by apply (bw_shadow _ _ Hw)]|]. intros Hlen.
  destruct (byte_clear_exact (by_mem s) s1 o1 Hw Hlen) as (s2 & o2 & E2 & Hok & Hpg & Hpr & Hm & Hmk & Hsh). cbv zeta in Hmk, Hsh.
  exists s2, o2. split; [done|]. split; [done|]. split; [done|]. split.
  - intros y Hy. rewrite Hm by done. split; [by apply Ha|]. cbv zeta. by apply Hsh.
  - intros Hall. split; try done.
    + intros x Hx. specialize (Hmk (x - BYTE_BITMAP_OFFSET)). unfold byte_marked in Hmk.
      replace (BYTE_BITMAP_OFFSET + (x - BYTE_BITMAP_OFFSET)) with x in Hmk by lia. rewrite Hmk by done.
      destruct (Z.odd (by_mem s1 x)) eqn:Eo; [|done]. by rewrite Hall.
    + intros y Hy. rewrite Hsh, Hm by done. destruct (byte_marked (by_mem s1) (y / 16)) eqn:Eo; cbn [andb].
      * by rewrite Hall by (done || by apply mark_page).
      * symmetry. by apply (bw_changed _ _ Hw).
Qed.

(** A thousand and one marked pages overrun the array the pages are sorted in. *)
Lemma too_many_pages s o :
  (SORTED_PAGES < length (by_pages s))%nat → byte_clear_bitmap (s, o) = Stop Undefined (s, o).
Proof.
  intros H. unfold byte_clear_bitmap. rewrite bind_gets. cbn [fst]. by rewrite (proj2 (Nat.ltb_lt _ _)).
Qed.

End Checkpoint.

(** ** Examples *)

Module Example.

#[local] Instance ex_vmem : VMem () := {|
  mmap a _ _ _ o := (a, o);
  munmap _ _ o := (0, o);
  mprotect _ _ _ o := (0, o);
|}.

Definition ex_synced : byt := mk_byt (λ _, 0) [] (λ _, false).

Lemma ex_synced_ok : byte_synced ex_synced.
Proof. by split. Qed.

(** Two stores with marks in the first word of a page and in another. *)
Definition ex_ops : list tree_op := [TStore 4096 [1; 2; 3; 4]; TStore 8192 [5; 6; 7; 8]].

Lemma ex_ops_ok : Forall byte_op_ok ex_ops.
Proof. repeat constructor; cbn; try (intros x Hx); byte_lia. Qed.

Lemma byte_checkpoint_syncs_witness :
  ∃ s1 o1, byte_run ex_ops (ex_synced, ()) = Ok () (s1, o1) ∧ by_mem s1 4096 = 1 ∧
    by_mem s1 (TREE_SHADOW_SPACE_OFFSET + 4096) = 0.
Proof.
  destruct (byte_checkpoint_syncs (vmem := ex_vmem) (λ _ _ _ _, eq_refl) ex_synced () ex_ops ex_synced_ok ex_ops_ok)
    as (s1 & o1 & E & H & _).
  exists s1, o1. split; [exact E|]. destruct (H 4096) as [H1 H2]; [byte_lia|]. rewrite H1, H2. split; reflexivity.
Defined.

(** Three stores whose marks are in the first, the second and the third word of a page. *)
Definition ex_third : list tree_op := [TStore 0 [1]; TStore 64 [2]; TStore 128 [3]].

(** The third word is not reached: after the checkpoint the shadow does not have the third store,
    which a recovery to this checkpoint loses. *)
Theorem second_word_not_synced :
  match byte_run ex_third (ex_synced, ()) with
  | Ok _ (s1, o1) =>
      match byte_clear_bitmap (s1, o1) with
      | Ok _ (s2, _) =>
          (by_mem s2 0, by_mem s2 64, by_mem s2 128) = (1, 2, 3) ∧
          let shadow y := by_mem s2 (TREE_SHADOW_SPACE_OFFSET + y) in
          (shadow 0, shadow 64, shadow 128) = (1, 2, 0)
      | _ => False
      end
  | _ => False
  end.
Proof. vm_compute. split; reflexivity. Qed.

End Example.
