(* ===== verification/BitmapTreeByte.v ===== *)
(** * The tree of bytes

    [ltckpt/mechanisms/bitmap/bitmap_tree_byte.h], the layout of the bitmap mechanism for 32-bit
    x86 with a byte per mark and three levels, in the scheme that synchronises the shadow at each
    checkpoint, and the marks of [bitmap_smmap.h].  A store marks its click of 16 bytes at the
    first level, the click of that mark at the second, and so on; a checkpoint walks down from the
    third level, copies the marked clicks to the shadow space and clears the marks it passes.

    A walk goes over 64 bytes where 16 belong to a mark, and the marks of the third level are
    never cleared.  [treebyte_checkpoint_syncs] shows that the shadow is a checkpoint for all
    that.  With the other scheme, which saves a click before its first store of a window, each
    store saves its click, since the marks of this layout do not say that they were set:
    [treebyte_diff_forgets]. *)
From stdpp Require Import base numbers list.
From Stdlib Require Import ZArith Lia.
From S2P Require Import Prelude Memory BitmapTree.

(** ** Definitions *)

Definition TB_BITMAP_CLICK : Z := 16.
Definition TB_CLICKS_PER_BYTE : Z := 1.
Definition TB_1ST_LEVEL_SIZE : Z := TREE_SHADOW_SPACE_SIZE / TB_BITMAP_CLICK / TB_CLICKS_PER_BYTE.
Definition TB_2ND_LEVEL_SIZE : Z := TB_1ST_LEVEL_SIZE / TB_BITMAP_CLICK / TB_CLICKS_PER_BYTE.
Definition TB_3RD_LEVEL_SIZE : Z := TB_2ND_LEVEL_SIZE / TB_BITMAP_CLICK / TB_CLICKS_PER_BYTE.
Definition TB_BITMAP_SIZE : Z := TB_3RD_LEVEL_SIZE + TB_2ND_LEVEL_SIZE + TB_1ST_LEVEL_SIZE.
Definition TB_BITMAP_OFFSET : Z :=
  let x := TREE_SHADOW_SPACE_OFFSET - TB_BITMAP_SIZE in x - x mod 4096.
Definition TB_2ND_LEVEL_OFFSET : Z := TB_BITMAP_OFFSET + TB_1ST_LEVEL_SIZE.
Definition TB_3RD_LEVEL_OFFSET : Z := TB_2ND_LEVEL_OFFSET + TB_2ND_LEVEL_SIZE.

(** [ltckpt_set_bit]; it returns 0. *)
Definition treebyte_set_bit (a : Z) (m : mem) : mem :=
  let address := Z.shiftr (u32 a) 4 in
  let m := upd m (u32 (address + TB_BITMAP_OFFSET)) 1 in
  let address := Z.shiftr address 4 in
  let m := upd m (u32 (address + TB_2ND_LEVEL_OFFSET)) 1 in
  let address := Z.shiftr address 4 in
  upd m (u32 (address + TB_3RD_LEVEL_OFFSET)) 1.

(** The hooks of [ltckpt_bitmap.c] with this layout; the statistics of stores are in [Bitmap]. *)
Definition treebyte_store_hook (addr : Z) : P () := modify (treebyte_set_bit addr).

Fixpoint treebyte_memcpy_loop (fuel : nat) (reg stop_at : Z) : P () :=
  match fuel with
  | O => halt Diverge
  | S fuel' =>
      if reg <? stop_at then
        modify (treebyte_set_bit reg) ;; treebyte_memcpy_loop fuel' (u32 (reg + TB_BITMAP_CLICK)) stop_at
      else skip
  end.

Definition treebyte_memcpy_hook (addr size : Z) : P () :=
  treebyte_memcpy_loop (Z.to_nat (size / TB_BITMAP_CLICK + 3)) (Z.land addr (Z.lnot (TB_BITMAP_CLICK - 1)))
    (u32 (addr + size)).

(** [ltckpt_save_region_for_address], and the hook of stores in the scheme that saves clicks. *)
Definition tb_save_region (addr : Z) (m : mem) : mem :=
  let region := Z.land addr (Z.lnot (TB_BITMAP_CLICK - 1)) in
  store_bytes m (u32 (region + TREE_SHADOW_SPACE_OFFSET)) (load_bytes m region 16).

Definition treebyte_diff_store_hook (addr : Z) : P () :=
  modify (treebyte_set_bit addr) ;;
  let bitset := 0 in
  when (negb (truthy bitset)) (modify (tb_save_region addr)).

(** [set = -1; while (w[i]) { set++; if (w[i] & 1) body(set); w[i] = w[i] >> 8; }] for the word
    at [p]. *)
Fixpoint byte_loop (fuel : nat) (p set : Z) (body : Z → P ()) : P () :=
  match fuel with
  | O => halt Diverge
  | S fuel' =>
      w ← gets (λ m, load_u32 m p);
      if w =? 0 then skip else
      let set := u32 (set + 1) in
      when (truthy (Z.land w 1)) (body set) ;;
      modify (λ m, store_u32 m p (Z.shiftr (load_u32 m p) 8)) ;;
      byte_loop fuel' p set body
  end.

(** A [for] loop over [n] words from [p] on.  A word has four bytes; one more turn finds it
    empty. *)
Fixpoint byte_words (n : nat) (p : Z) (body : Z → Z → P ()) : P () :=
  match n with
  | O => skip
  | S n' => byte_loop 5 p (-1) (body p) ;; byte_words n' (u32 (p + 4)) body
  end.

(** The body of [ltckpt_check_first_level]: copy a click of 16 bytes. *)
Definition tb_copy_click (p set : Z) : P () :=
  let data := u32 (u32 (p - TB_BITMAP_OFFSET) * TB_CLICKS_PER_BYTE * TB_BITMAP_CLICK) in
  let src := u32 (data + u32 (set * TB_BITMAP_CLICK)) in
  let dst := u32 (src + TREE_SHADOW_SPACE_OFFSET) in
  modify (λ m, store_bytes m dst (load_bytes m src 16)).

Definition tb_check_first_level (fl : Z) : P () := byte_words 16 fl tb_copy_click.

(** The body of [ltckpt_check_second_level]: walk over the marks below. *)
Definition second_body (p set : Z) : P () :=
  let fl := u32 (u32 (p - TB_2ND_LEVEL_OFFSET) * TB_CLICKS_PER_BYTE * TB_BITMAP_CLICK) in
  let fl := u32 (fl + u32 (set * TB_BITMAP_CLICK)) in
  tb_check_first_level (u32 (fl + TB_BITMAP_OFFSET)).

Definition tb_check_second_level (sl : Z) : P () := byte_words 16 sl second_body.

(** The loop of [ltckpt_clear_bitmap] over the bytes of the third level. *)
Fixpoint tb_top_loop (fuel : nat) (tl : Z) : P () :=
  if tl <? TB_3RD_LEVEL_OFFSET + TB_3RD_LEVEL_SIZE then
    match fuel with
    | O => halt Diverge
    | S fuel' =>
        b ← gets (λ m, m tl);
        when (truthy b) (
          let sl := u32 (u32 (tl - TB_3RD_LEVEL_OFFSET) * 16) in
          tb_check_second_level (u32 (sl + TB_2ND_LEVEL_OFFSET))) ;;
        tb_top_loop fuel' (u32 (tl + 1))
    end
  else skip.

Definition treebyte_clear_bitmap : P () := tb_top_loop (Z.to_nat TB_3RD_LEVEL_SIZE) TB_3RD_LEVEL_OFFSET.

(** ** A word of marks *)

Lemma tb_offset : TB_BITMAP_OFFSET = 1503264768.
Proof. reflexivity. Qed.
Lemma tb_offset2 : TB_2ND_LEVEL_OFFSET = 1603928064.
Proof. reflexivity. Qed.
Lemma tb_offset3 : TB_3RD_LEVEL_OFFSET = 1610219520.
Proof. reflexivity. Qed.
Lemma tb_size3 : TB_3RD_LEVEL_SIZE = 393216.
Proof. reflexivity. Qed.
Lemma tb_shadow : TREE_SHADOW_SPACE_OFFSET = 1610612736.
Proof. reflexivity. Qed.

Ltac tb_lia :=
  unfold in_block in *;
  rewrite ?tb_offset, ?tb_offset2, ?tb_offset3, ?tb_size3, ?tb_shadow in *;
  Z.to_euclidean_division_equations; lia.

(** Bytes that are marks. *)
Definition is_mark (b : Z) : Prop := b = 0 ∨ b = 1.

Lemma le_decode_marks bs : Forall is_mark bs → le_decode bs = 0 → Forall (eq 0) bs.
Proof.
  induction 1 as [|b bs Hb Hbs IH]; cbn; [constructor|]. intros E.
  assert (0 <= le_decode bs) as H0. { clear IH E. induction Hbs as [|? ? H ? IH]; cbn; [done|]. destruct H; lia. }
  destruct Hb; constructor; lia || (apply IH; lia).
Qed.

Lemma land_mark b r : is_mark b → Z.land (b + 256 * r) 1 = b.
Proof.
  intros Hb. change 1 with (Z.ones 1) at 1. rewrite Z.land_ones by lia. change (2 ^ 1) with 2.
  destruct Hb as [-> | ->]; Z.to_euclidean_division_equations; lia.
Qed.

Lemma shiftr_mark b r : is_mark b → Z.shiftr (b + 256 * r) 8 = r.
Proof.
  intros Hb. rewrite Z.shiftr_div_pow2 by lia. change (2 ^ 8) with 256.
  destruct Hb as [-> | ->]; Z.to_euclidean_division_equations; lia.
Qed.

Lemma le_bytes_marks bs : Forall is_mark bs → le_bytes (length bs) (le_decode bs) = bs.
Proof.
  induction 1 as [|b bs Hb Hbs IH]; cbn; [done|].
  assert ((b + 256 * le_decode bs) mod 256 = b ∧ (b + 256 * le_decode bs) / 256 = le_decode bs) as [-> ->]
    by (destruct Hb as [-> | ->]; Z.to_euclidean_division_equations; lia).
  by rewrite IH.
Qed.

(** The word with its lowest byte shifted out. *)
Lemma le_bytes_shift b bs :
  Forall is_mark (b :: bs) → le_bytes (length (b :: bs)) (Z.shiftr (le_decode (b :: bs)) 8) = bs ++ [0].
Proof.
  intros Hbs. apply Forall_cons in Hbs as [Hb Hbs]. cbn [le_decode]. rewrite shiftr_mark by done.
  replace (le_decode bs) with (le_decode (bs ++ [0])).
  - replace (length (b :: bs)) with (length (bs ++ [0])) by (rewrite length_app; cbn; lia).
    apply le_bytes_marks, Forall_app. split; [done|]. repeat constructor.
  - clear. induction bs as [|b bs IH]; cbn; [done|]. by rewrite IH.
Qed.

Lemma byte_loop_S fuel p set body :
  byte_loop (S fuel) p set body =
  (w ← gets (λ m, load_u32 m p);
   if w =? 0 then skip else
   when (truthy (Z.land w 1)) (body (u32 (set + 1))) ;;
   modify (λ m, store_u32 m p (Z.shiftr (load_u32 m p) 8)) ;;
   byte_loop fuel p (u32 (set + 1)) body).
Proof. done. Qed.

Section Word.
Context (p : Z) (body : Z → P ()).

(** [I k] is kept while the body has run for the marks below [k]; it does not look at the word,
    and the body leaves the word alone. *)
Context (b : Z → Z) (I : Z → mem → Prop).
Context (I_word : ∀ k m m', I k m → mem_agree (λ x, ¬ in_block p 4 x) m' m → I k m').
Context (I_skip : ∀ k m, 0 <= k < 4 → b k = 0 → I k m → I (k + 1) m).
Context (I_body : ∀ k m, 0 <= k < 4 → b k = 1 → I k m →
  ∃ m', body k m = Ok () m' ∧ I (k + 1) m' ∧ mem_agree (in_block p 4) m' m).

Lemma I_skip_all n : ∀ k m, 0 <= k → k + Z.of_nat n = 4 → (∀ j, k <= j < 4 → b j = 0) → I k m → I 4 m.
Proof.
  induction n as [|n IH]; intros k m Hk Hn Hb HI; [by replace 4 with k by lia|].
  apply (IH (k + 1)); [lia..| |apply I_skip; auto with lia]. intros j Hj. apply Hb. lia.
Qed.

Lemma load_marks_ext m m' : mem_agree (in_block p 4) m' m → load_bytes m' p 4 = load_bytes m p 4.
Proof. intros H. by apply load_bytes_ext. Qed.

(** The loop over a word: [bs] are the marks that are left, [z] bytes have been shifted in. *)
Lemma byte_loop_run bs : ∀ k z m,
  0 <= k → k + zlen bs = 4 → Forall is_mark bs → (∀ j, k <= j < 4 → b j = nth (Z.to_nat (j - k)) bs 0) →
  load_bytes m p 4 = bs ++ replicate z 0 → I k m →
  ∃ m', byte_loop (S (length bs)) p (k - 1) body m = Ok () m' ∧ I 4 m' ∧ ∀ x, in_block p 4 x → m' x = 0.
Proof.
  induction bs as [|b0 bs IH]; intros k z m Hk Hlen Hbs Hb Hw HI.
  - cbn [byte_loop length]. rewrite bind_gets. unfold load_u32. rewrite Hw. cbn [app].
    assert (z = 4%nat) as -> by (apply (f_equal length) in Hw; by rewrite app_nil_l, length_load_bytes, length_replicate in Hw).
    cbn [replicate le_decode]. exists m. split; [done|]. split; [by replace 4 with k by (cbn in Hlen; lia)|].
    intros x Hx. replace x with (p + Z.of_nat (Z.to_nat (x - p))) by (unfold in_block in Hx; lia).
    rewrite <- nth_load_bytes with (n := 4%nat) by (unfold in_block in Hx; lia). rewrite Hw.
    by destruct (Z.to_nat (x - p)) as [|[|[|[|[]]]]].
  - cbn [length] in *. rewrite byte_loop_S, bind_gets. cbv beta zeta.
    set (w := (b0 :: bs) ++ replicate z 0) in *.
    replace (load_u32 m p) with (le_decode w) by (unfold load_u32; by rewrite Hw).
    assert (Forall is_mark w) as Hmk
      by (apply Forall_app; split; [done|]; apply Forall_replicate; by left).
    assert (b k = b0) as Hbk by (rewrite Hb by lia; by rewrite Z.sub_diag).
    destruct (Z.eqb_spec (le_decode w) 0) as [Ez|Enz].
    + apply le_decode_marks in Ez; [|done]. exists m. split; [done|]. split.
      * apply (I_skip_all (S (length bs)) k); [done|lia| |done]. intros j Hj. rewrite Hb by done.
        apply Forall_app in Ez as [Ez _]. rewrite Forall_nth in Ez. symmetry. apply Ez. cbn. lia.
      * intros x Hx. replace x with (p + Z.of_nat (Z.to_nat (x - p))) by (unfold in_block in Hx; lia).
        rewrite <- nth_load_bytes with (n := 4%nat) by (unfold in_block in Hx; lia). rewrite Hw.
        rewrite Forall_nth in Ez. symmetry. apply Ez. rewrite <- Hw, length_load_bytes. unfold in_block in Hx. lia.
    + replace (u32 (k - 1 + 1)) with k by (rewrite u32_small; lia).
      apply Forall_cons in Hbs as [Hb0 Hbs]. 
      change (le_decode w) with (b0 + 256 * le_decode (bs ++ replicate z 0)). rewrite land_mark by done.
      assert (∃ m1, when (truthy b0) (body k) m = Ok () m1 ∧ I (k + 1) m1 ∧ mem_agree (in_block p 4) m1 m)
        as (m1 & E1 & HI1 & Ha1).
      { destruct Hb0 as [-> | ->]; cbn [truthy when]; [|apply I_body; auto with lia].
        exists m. split; [done|]. split; [apply I_skip; auto with lia|done]. }
      rewrite (bind_Ok _ _ _ _ _ E1). rewrite bind_modify. cbv beta.
      assert (Hw1 : load_bytes m1 p 4 = b0 :: (bs ++ replicate z 0)) by (rewrite (load_marks_ext m m1 Ha1); exact Hw).
      specialize (IH (k + 1) (z + 1)%nat (store_u32 m1 p (Z.shiftr (load_u32 m1 p) 8))).
      replace (k + 1 - 1) with k in IH by lia. apply IH; [lia|lia|done| | |]; clear IH.
      * intros j Hj. rewrite Hb by lia. replace (Z.to_nat (j - k)) with (S (Z.to_nat (j - (k + 1)))) by lia. done.
      * rewrite replicate_add, app_assoc. unfold load_u32, store_u32. rewrite Hw1.
        set (v := bs ++ replicate z 0) in *.
        assert (length (b0 :: v) = 4%nat) as E4 by (rewrite <- Hw1; apply length_load_bytes).
        pose proof (le_bytes_shift b0 v Hmk) as E. rewrite E4 in E. rewrite E. change (replicate 1 0) with [0].
        pose proof (load_store_bytes m1 p (v ++ [0])) as El.
        replace (length (v ++ [0])) with 4%nat in El; [done|]. rewrite length_app. cbn in E4 |- *. lia.
      * apply (I_word _ m1); [done|]. intros x Hx. unfold store_u32. apply store_bytes_out.
        rewrite length_le_bytes. done.
Qed.

(** The whole loop. *)
Lemma word_marks_run m :
  (∀ x, in_block p 4 x → is_mark (m x)) → (∀ k, 0 <= k < 4 → b k = m (p + k)) → I 0 m →
  ∃ m', byte_loop 5 p (-1) body m = Ok () m' ∧ I 4 m' ∧ ∀ x, in_block p 4 x → m' x = 0.
Proof.
  intros Hm Hb HI. apply (byte_loop_run (load_bytes m p 4) 0 0 m); [done|done| | |by rewrite app_nil_r|done].
  - cbn [load_bytes]. rewrite !Forall_cons. split_and!; [apply Hm; unfold in_block; lia..|constructor].
  - intros j Hj. rewrite Hb by lia. rewrite nth_load_bytes by lia. f_equal. lia.
Qed.

End Word.

(** ** What a walk does *)

(** The address of the mark for an address of the shadow space. *)
Definition tb_mark_of (x : Z) : Z := TB_BITMAP_OFFSET + (x - TREE_SHADOW_SPACE_OFFSET) / 16.

(** The shadow of the program. *)
Definition tb_in_shadow : Z → Prop := in_block TREE_SHADOW_SPACE_OFFSET TB_BITMAP_OFFSET.

#[export] Instance tb_in_shadow_dec x : Decision (tb_in_shadow x).
Proof. unfold tb_in_shadow. apply _. Defined.

(** The memory after the marks at [B] have been dealt with: the clicks of those that were set are
    copied to the shadow, the marks cleared. *)
Definition sweep (B : Z → bool) (m : mem) : mem := λ x,
  if B x then 0
  else if bool_decide (tb_in_shadow x) && B (tb_mark_of x) && truthy (m (tb_mark_of x))
  then m (x - TREE_SHADOW_SPACE_OFFSET) else m x.

(** The marks of the first two levels. *)
Definition tb_levels (B : Z → bool) : Prop := ∀ x, B x = true → TB_BITMAP_OFFSET <= x < TB_3RD_LEVEL_OFFSET.

Lemma tb_levels_prog B x : tb_levels B → x < TB_BITMAP_OFFSET ∨ TB_3RD_LEVEL_OFFSET <= x → B x = false.
Proof. intros HB Hx. apply not_true_iff_false. intros Ht%HB. lia. Qed.

Lemma sweep_low B m x : tb_levels B → x < TB_BITMAP_OFFSET ∨ TB_3RD_LEVEL_OFFSET <= x < TREE_SHADOW_SPACE_OFFSET → sweep B m x = m x.
Proof.
  intros HB Hx. unfold sweep. rewrite (tb_levels_prog B x HB) by lia.
  rewrite bool_decide_false; [done|]. unfold tb_in_shadow. tb_lia.
Qed.

Lemma sweep_level B m x : TB_BITMAP_OFFSET <= x < TB_3RD_LEVEL_OFFSET → sweep B m x = if B x then 0 else m x.
Proof. intros Hx. unfold sweep. rewrite bool_decide_false; [done|]. unfold tb_in_shadow. tb_lia. Qed.

Lemma mark_of_level x : tb_in_shadow x → TB_BITMAP_OFFSET <= tb_mark_of x < TB_2ND_LEVEL_OFFSET.
Proof. unfold tb_in_shadow, tb_mark_of. tb_lia. Qed.

(** Two walks one after the other. *)
Lemma sweep_sweep B1 B2 m x :
  tb_levels B1 → tb_levels B2 → sweep B2 (sweep B1 m) x = sweep (λ y, B1 y || B2 y) m x.
Proof.
  intros H1 H2. unfold sweep at 1 3. destruct (decide (tb_in_shadow x)) as [Hs|Hs].
  - pose proof (mark_of_level x Hs) as Hmk. unfold tb_in_shadow in Hs.
    rewrite (tb_levels_prog B2 x), (tb_levels_prog B1 x) by (done || tb_lia). rewrite bool_decide_true by done.
    rewrite (sweep_level B1) by tb_lia. rewrite (sweep_low B1 m (x - _)) by (done || tb_lia). cbn [orb andb].
    unfold sweep. rewrite (tb_levels_prog B1 x), bool_decide_true by (done || tb_lia).
    by destruct (B1 (tb_mark_of x)), (B2 (tb_mark_of x)), (truthy (m (tb_mark_of x))).
  - rewrite bool_decide_false by done. cbn [andb]. unfold sweep. rewrite bool_decide_false by done. cbn [andb].
    by destruct (B1 x), (B2 x).
Qed.

(** A walk does not look at the second level. *)
Lemma sweep_agree B m m' Q :
  (∀ x, Q x → TB_2ND_LEVEL_OFFSET <= x < TB_3RD_LEVEL_OFFSET) →
  mem_agree (λ x, ¬ Q x) m' m → mem_agree (λ x, ¬ Q x) (sweep B m') (sweep B m).
Proof.
  intros HQ Ha x Hx. unfold sweep. destruct (decide (tb_in_shadow x)) as [Hs|Hs].
  - pose proof (mark_of_level x Hs) as Hmk. unfold tb_in_shadow in Hs.
    rewrite (Ha (tb_mark_of x)) by (intros ?%HQ; tb_lia).
    rewrite (Ha (x - _)) by (intros ?%HQ; tb_lia). by rewrite Ha.
  - rewrite bool_decide_false by done. cbn [andb]. by rewrite Ha.
Qed.

Lemma sweep_ext B B' m x : (∀ y, B y = B' y) → sweep B m x = sweep B' m x.
Proof. intros E. unfold sweep. by rewrite !E. Qed.

Lemma sweep_proper B m m' : m' ≡ m → sweep B m' ≡ sweep B m.
Proof. intros E x. unfold sweep. by rewrite !E. Qed.

(** The marks are marks, of clicks of the program. *)
Record tb_marks (m : mem) : Prop := {
  tm_mark : ∀ x, TB_BITMAP_OFFSET <= x < TREE_SHADOW_SPACE_OFFSET → is_mark (m x);
  tm_one : ∀ x, TB_BITMAP_OFFSET <= x < TB_2ND_LEVEL_OFFSET → m x = 1 → 16 * (x - TB_BITMAP_OFFSET) < TB_BITMAP_OFFSET;
  tm_two : ∀ x, TB_2ND_LEVEL_OFFSET <= x < TB_3RD_LEVEL_OFFSET → m x = 1 → 256 * (x - TB_2ND_LEVEL_OFFSET) < TB_BITMAP_OFFSET;
  tm_three : ∀ x, TB_3RD_LEVEL_OFFSET <= x < TREE_SHADOW_SPACE_OFFSET → m x = 1 → 4096 * (x - TB_3RD_LEVEL_OFFSET) < TB_BITMAP_OFFSET;
}.

Lemma tb_marks_le m m' :
  (∀ x, TB_BITMAP_OFFSET <= x < TREE_SHADOW_SPACE_OFFSET → m' x = m x ∨ m' x = 0) → tb_marks m → tb_marks m'.
Proof.
  intros Hle [H0 H1 H2 H3]. split; intros x Hx.
  - destruct (Hle x Hx) as [->|E]; [by apply H0|by left].
  - intros E. apply H1; [done|]. destruct (Hle x) as [<-|]; [tb_lia|done|congruence].
  - intros E. apply H2; [done|]. destruct (Hle x) as [<-|]; [tb_lia|done|congruence].
  - intros E. apply H3; [done|]. destruct (Hle x) as [<-|]; [tb_lia|done|congruence].
Qed.

Lemma tb_marks_sweep B m : tb_levels B → tb_marks m → tb_marks (sweep B m).
Proof.
  intros HB. apply tb_marks_le. intros x Hx. destruct (decide (x < TB_3RD_LEVEL_OFFSET)).
  - rewrite sweep_level by lia. destruct (B x); auto.
  - left. apply sweep_low; [done|lia].
Qed.

(** The first level alone. *)
Definition tb_first (m : mem) : Prop :=
  ∀ x, TB_BITMAP_OFFSET <= x < TB_2ND_LEVEL_OFFSET →
    is_mark (m x) ∧ (m x = 1 → 16 * (x - TB_BITMAP_OFFSET) < TB_BITMAP_OFFSET).

Lemma tb_marks_first m : tb_marks m → tb_first m.
Proof. intros [H0 H1 _ _] x Hx. split; [apply H0; tb_lia|by apply H1]. Qed.

Lemma tb_first_sweep B m m' :
  mem_agree (λ x, TB_BITMAP_OFFSET <= x < TB_2ND_LEVEL_OFFSET) m' (sweep B m) → tb_first m → tb_first m'.
Proof.
  intros Ha Hm x Hx. rewrite Ha, sweep_level by (done || tb_lia). destruct (B x); [|by apply Hm]. split; [by left|done].
Qed.

(** *** The first level *)

Definition block_set (a n : Z) (x : Z) : bool := bool_decide (in_block a n x).

Lemma block_set_levels a n : TB_BITMAP_OFFSET <= a → a + n <= TB_3RD_LEVEL_OFFSET → tb_levels (block_set a n).
Proof. intros Ha Hn x Hx%bool_decide_eq_true. tb_lia. Qed.

(** Copying one click. *)
Lemma tb_copy_click_run p k m :
  TB_BITMAP_OFFSET <= p → 0 <= k < 4 → 16 * (p + k - TB_BITMAP_OFFSET) < TB_BITMAP_OFFSET →
  ∃ m', tb_copy_click p k m = Ok () m' ∧
    ∀ x, m' x = if bool_decide (tb_in_shadow x ∧ tb_mark_of x = p + k) then m (x - TREE_SHADOW_SPACE_OFFSET) else m x.
Proof.
  intros Hp Hk Hprog. unfold tb_copy_click, TB_BITMAP_CLICK, TB_CLICKS_PER_BYTE. eexists. split; [reflexivity|]. intros x.
  rewrite (u32_small (p - _)) by tb_lia. rewrite (u32_small (k * 16)) by lia. rewrite (u32_small (_ * 16)) by tb_lia.
  rewrite (u32_small (_ + k * 16)) by tb_lia. rewrite u32_small by tb_lia. case_bool_decide as Hin.
  - destruct Hin as [Hs E]. unfold tb_in_shadow, tb_mark_of in *.
    rewrite store_bytes_in by (rewrite length_load_bytes; tb_lia). rewrite nth_load_bytes by tb_lia. f_equal. tb_lia.
  - apply store_bytes_out. rewrite length_load_bytes. intros Hb. apply Hin. unfold tb_in_shadow, tb_mark_of. tb_lia.
Qed.

Lemma first_word_run p m :
  TB_BITMAP_OFFSET <= p → p + 4 <= TB_2ND_LEVEL_OFFSET → tb_first m →
  ∃ m', byte_loop 5 p (-1) (tb_copy_click p) m = Ok () m' ∧ m' ≡ sweep (block_set p 4) m.
Proof.
  intros Hlo Hhi Hm.
  destruct (word_marks_run p (tb_copy_click p) (λ k, m (p + k))
    (λ k m', mem_agree (λ x, ¬ in_block p 4 x) m' (sweep (block_set p k) m))) with (m := m)
    as (m' & E & HI & Hz).
  - intros k m1 m2 H1 H2. by etransitivity.
  - intros k m1 Hk Hb H1 x Hx. rewrite H1 by done. unfold sweep, block_set.
    rewrite !(bool_decide_false (in_block p _ x)) by tb_lia.
    destruct (decide (tb_mark_of x = p + k)) as [->|Hne]; [by rewrite Hb, !andb_false_r|].
    by rewrite (bool_decide_ext (in_block p (k + 1) (tb_mark_of x)) (in_block p k (tb_mark_of x))) by tb_lia.
  - intros k m1 Hk Hb H1. destruct (tb_copy_click_run p k m1) as (m2 & E2 & H2); [done|done| |].
    { apply (Hm (p + k)); [tb_lia|done]. }
    exists m2. split; [done|]. split.
    + intros x Hx. rewrite H2. unfold sweep, block_set. rewrite (bool_decide_false (in_block p _ x)) by tb_lia.
      case_bool_decide as Hin.
      * destruct Hin as [Hs Hmk]. rewrite bool_decide_true by done. rewrite Hmk, Hb.
        rewrite bool_decide_true by tb_lia. cbn [truthy andb Z.eqb negb].
        unfold tb_in_shadow in Hs. rewrite H1 by tb_lia. apply sweep_low; [|tb_lia]. apply block_set_levels; tb_lia.
      * rewrite H1 by done. unfold sweep, block_set. rewrite (bool_decide_false (in_block p _ x)) by tb_lia.
        destruct (decide (tb_in_shadow x)) as [Hs|Hs]; [|by rewrite (bool_decide_false (tb_in_shadow x))].
        assert (tb_mark_of x ≠ p + k) by tauto.
        by rewrite (bool_decide_ext (in_block p (k + 1) (tb_mark_of x)) (in_block p k (tb_mark_of x))) by tb_lia.
    + intros x Hx. rewrite H2. rewrite bool_decide_false; [done|]. unfold tb_in_shadow. tb_lia.
  - intros x Hx. apply (Hm x). tb_lia.
  - done.
  - intros x Hx. unfold sweep, block_set. rewrite !(bool_decide_false (in_block p 0 _)) by tb_lia.
    by rewrite andb_false_r.
  - exists m'. split; [done|]. intros x. destruct (decide (in_block p 4 x)) as [Hin|]; [|by apply HI].
    rewrite Hz by done. unfold sweep, block_set. by rewrite bool_decide_true.
Qed.

Lemma first_words_run n : ∀ p m,
  TB_BITMAP_OFFSET <= p → p + 4 * Z.of_nat n <= TB_2ND_LEVEL_OFFSET → tb_first m →
  ∃ m', byte_words n p tb_copy_click m = Ok () m' ∧ m' ≡ sweep (block_set p (4 * Z.of_nat n)) m.
Proof.
  induction n as [|n IH]; intros p m Hlo Hhi Hm.
  - exists m. split; [done|]. intros x. unfold sweep, block_set. rewrite !(bool_decide_false (in_block _ _ _)) by tb_lia.
    by rewrite andb_false_r.
  - cbn [byte_words]. destruct (first_word_run p m) as (m1 & E1 & H1); [done|lia|done|].
    rewrite (bind_Ok _ _ _ _ _ E1). rewrite u32_small by tb_lia.
    destruct (IH (p + 4) m1) as (m' & E & H); [lia|lia|eapply tb_first_sweep; [intros x _; apply H1|done]|].
    exists m'. split; [done|]. intros x. rewrite H, (sweep_proper _ _ _ H1), sweep_sweep by (apply block_set_levels; tb_lia).
    apply sweep_ext. intros y. unfold block_set. apply eq_true_iff_eq.
    rewrite orb_true_iff, !bool_decide_eq_true. tb_lia.
Qed.

(** *** The levels above *)

(** Marks of the second level come with the marks below them. *)
Definition tb_closed (m : mem) (B : Z → bool) : Prop :=
  ∀ x y, TB_2ND_LEVEL_OFFSET <= x < TB_3RD_LEVEL_OFFSET → B x = true → m x = 1 →
    in_block (TB_BITMAP_OFFSET + 16 * (x - TB_2ND_LEVEL_OFFSET)) 16 y → B y = true.

(** A walk from [m] to [m'] that dealt with the marks at [R] and those below. *)
Definition tb_walked (R : Z → Prop) (m m' : mem) : Prop :=
  ∃ B, tb_levels B ∧ tb_closed m B ∧ (∀ x, R x → B x = true) ∧ m' ≡ sweep B m.

Lemma tb_walked_refl m : tb_walked (λ _, False) m m.
Proof. exists (λ _, false). split_and!; try done. intros x. unfold sweep. by rewrite andb_false_r. Qed.

Lemma tb_walked_trans R1 R2 m m1 m2 :
  tb_walked R1 m m1 → tb_walked R2 m1 m2 → tb_walked (λ x, R1 x ∨ R2 x) m m2.
Proof.
  intros (B1 & L1 & C1 & HR1 & E1) (B2 & L2 & C2 & HR2 & E2). exists (λ x, B1 x || B2 x). split_and!.
  - intros x [H|H]%orb_true_iff; auto.
  - intros x y Hx [H|H]%orb_true_iff Hm Hy; [by rewrite (C1 x y)|]. destruct (B1 x) eqn:EB; [by rewrite (C1 x y)|].
    rewrite (C2 x y); [apply orb_true_r|done|done| |done]. rewrite E1, sweep_level by tb_lia. by rewrite EB.
  - intros x [H|H]; [by rewrite HR1|by rewrite HR2, orb_true_r].
  - intros x. by rewrite E2, (sweep_proper _ _ _ E1), sweep_sweep.
Qed.

Lemma tb_walked_mono R R' m m' : (∀ x, R' x → R x) → tb_walked R m m' → tb_walked R' m m'.
Proof. intros HR (B & ? & ? & H & ?). exists B. split_and!; auto. Qed.

Lemma tb_walked_marks R m m' : tb_walked R m m' → tb_marks m → tb_marks m'.
Proof.
  intros (B & HB & _ & _ & E) Hm. apply (tb_marks_le (sweep B m)); [|by apply tb_marks_sweep]. intros x _. left. apply E.
Qed.

Lemma tb_walked_top R m m' x :
  tb_walked R m m' → TB_3RD_LEVEL_OFFSET <= x < TREE_SHADOW_SPACE_OFFSET → m' x = m x.
Proof. intros (B & HB & _ & _ & E) Hx. rewrite E. apply sweep_low; [done|lia]. Qed.

Lemma second_body_run p k m :
  TB_2ND_LEVEL_OFFSET <= p → 0 <= k < 4 → 256 * (p + k - TB_2ND_LEVEL_OFFSET) < TB_BITMAP_OFFSET → tb_first m →
  ∃ m', second_body p k m = Ok () m' ∧ m' ≡ sweep (block_set (TB_BITMAP_OFFSET + 16 * (p + k - TB_2ND_LEVEL_OFFSET)) 64) m.
Proof.
  intros Hp Hk Hprog Hm. unfold second_body, TB_BITMAP_CLICK, TB_CLICKS_PER_BYTE.
  rewrite (u32_small (p - _)) by tb_lia. rewrite (u32_small (k * 16)) by lia. rewrite (u32_small (_ * 16)) by tb_lia.
  rewrite (u32_small (_ + k * 16)) by tb_lia. rewrite u32_small by tb_lia.
  replace ((p - TB_2ND_LEVEL_OFFSET) * 1 * 16 + k * 16 + TB_BITMAP_OFFSET)
    with (TB_BITMAP_OFFSET + 16 * (p + k - TB_2ND_LEVEL_OFFSET)) by lia.
  apply (first_words_run 16); [tb_lia|tb_lia|done].
Qed.

Lemma second_word_run p m :
  TB_2ND_LEVEL_OFFSET <= p → p + 4 <= TB_3RD_LEVEL_OFFSET → tb_marks m →
  ∃ m', byte_loop 5 p (-1) (second_body p) m = Ok () m' ∧ tb_walked (in_block p 4) m m'.
Proof.
  intros Hlo Hhi Hm.
  set (child := λ k y, in_block (TB_BITMAP_OFFSET + 16 * (p + k - TB_2ND_LEVEL_OFFSET)) 16 y).
  destruct (word_marks_run p (second_body p) (λ k, m (p + k))
    (λ k m', ∃ B, (∀ x, B x = true → TB_BITMAP_OFFSET <= x < TB_2ND_LEVEL_OFFSET) ∧
       (∀ j y, 0 <= j < k → m (p + j) = 1 → child j y → B y = true) ∧
       mem_agree (λ x, ¬ in_block p 4 x) m' (sweep B m))) with (m := m)
    as (m' & E & (B & HB & Hc & Ha) & Hz).
  - intros k m1 m2 (B & HB & Hc & Ha) H2. exists B. split_and!; [done..|]. by etransitivity.
  - intros k m1 Hk Hb (B & HB & Hc & Ha). exists B. split_and!; [done| |done].
    intros j y Hj Hj1. apply Hc; [|done]. destruct (decide (j = k)) as [->|]; [congruence|lia].
  - intros k m1 Hk Hb (B & HB & Hc & Ha).
    destruct (second_body_run p k m1) as (m2 & E2 & H2); [done|done|apply (tm_two m Hm); tb_lia| |].
    { eapply tb_first_sweep, tb_marks_first, Hm. intros x Hx. apply Ha. tb_lia. }
    pose proof (tm_two m Hm (p + k)) as Hprog.
    set (B2 := block_set _ _) in H2. assert (tb_levels B2) as HB2 by (apply block_set_levels; tb_lia).
    assert (tb_levels B) as HBl by (intros x Hx%HB; tb_lia).
    exists m2. split; [done|]. split.
    + exists (λ x, B x || B2 x). split_and!.
      * intros x [H|H]%orb_true_iff; [by apply HB|]. apply bool_decide_eq_true in H. tb_lia.
      * intros j y Hj Hj1 Hy. destruct (decide (j = k)) as [->|]; [|rewrite (Hc j y); auto with lia].
        apply orb_true_iff. right. apply bool_decide_eq_true. unfold child in Hy. tb_lia.
      * intros x Hx. rewrite H2. rewrite <- sweep_sweep by done.
        apply (sweep_agree B2 (sweep B m) m1 (in_block p 4)); [intros; tb_lia|done|done].
    + intros x Hx. rewrite H2, sweep_level by tb_lia. subst B2. unfold block_set. rewrite bool_decide_false; [done|]. tb_lia.
  - intros x Hx. apply (tm_mark m Hm). tb_lia.
  - done.
  - exists (λ _, false). split_and!; [done|intros; lia|]. intros x Hx. unfold sweep. by rewrite andb_false_r.
  - exists m'. split; [done|]. exists (λ x, B x || block_set p 4 x).
    assert (tb_levels B) as HBl by (intros x Hx%HB; tb_lia).
    assert (tb_levels (block_set p 4)) as HBp by (apply block_set_levels; tb_lia). split_and!.
    + intros x [H|H]%orb_true_iff; auto.
    + intros x y Hx [H%HB|H]%orb_true_iff Hx1 Hy; [tb_lia|]. apply bool_decide_eq_true in H.
      rewrite (Hc (x - p) y); [done|tb_lia| |]; unfold child; by replace (p + (x - p)) with x by lia.
    + intros x Hx. unfold block_set. by rewrite (bool_decide_true (in_block p 4 x)), orb_true_r.
    + intros x. destruct (decide (in_block p 4 x)) as [Hin|Hout].
      * rewrite Hz by done. unfold sweep, block_set. by rewrite (bool_decide_true (in_block p 4 x)), orb_true_r.
      * rewrite Ha by done. unfold sweep, block_set. rewrite (bool_decide_false (in_block p 4 x)), orb_false_r by done.
        destruct (decide (tb_in_shadow x)) as [Hs|]; [|by rewrite (bool_decide_false (tb_in_shadow x))].
        pose proof (mark_of_level x Hs). by rewrite (bool_decide_false (in_block p 4 (tb_mark_of x))), orb_false_r by tb_lia.
Qed.

Lemma second_words_run n : ∀ p m,
  TB_2ND_LEVEL_OFFSET <= p → p + 4 * Z.of_nat n <= TB_3RD_LEVEL_OFFSET → tb_marks m →
  ∃ m', byte_words n p second_body m = Ok () m' ∧ tb_walked (in_block p (4 * Z.of_nat n)) m m'.
Proof.
  induction n as [|n IH]; intros p m Hlo Hhi Hm.
  - exists m. split; [done|]. eapply tb_walked_mono, tb_walked_refl. unfold in_block. lia.
  - cbn [byte_words]. destruct (second_word_run p m) as (m1 & E1 & H1); [done|lia|done|].
    rewrite (bind_Ok _ _ _ _ _ E1). rewrite u32_small by tb_lia.
    destruct (IH (p + 4) m1) as (m' & E & H); [lia|lia|by eapply tb_walked_marks|].
    exists m'. split; [done|]. eapply tb_walked_mono, tb_walked_trans; [|exact H1|exact H]. unfold in_block. lia.
Qed.

(** The second-level marks under the marks of the third level from [tl] on. *)
Definition below_top (m : mem) (tl x : Z) : Prop :=
  ∃ t, tl <= t < TREE_SHADOW_SPACE_OFFSET ∧ m t = 1 ∧ in_block (TB_2ND_LEVEL_OFFSET + 16 * (t - TB_3RD_LEVEL_OFFSET)) 16 x.

Lemma tb_top_run n : ∀ tl m,
  TB_3RD_LEVEL_OFFSET <= tl → tl + Z.of_nat n = TREE_SHADOW_SPACE_OFFSET → tb_marks m →
  ∃ m', tb_top_loop n tl m = Ok () m' ∧ tb_walked (below_top m tl) m m'.
Proof.
  induction n as [|n IH]; intros tl m Hlo Hn Hm; cbn [tb_top_loop].
  - rewrite (proj2 (Z.ltb_ge _ _)) by tb_lia. exists m. split; [done|].
    eapply tb_walked_mono, tb_walked_refl. intros x (t & ? & _). lia.
  - rewrite (proj2 (Z.ltb_lt _ _)) by tb_lia. rewrite bind_gets. cbv beta.
    assert (∃ m1, when (truthy (m tl)) (tb_check_second_level
        (u32 (u32 (u32 (tl - TB_3RD_LEVEL_OFFSET) * 16) + TB_2ND_LEVEL_OFFSET))) m = Ok () m1 ∧
      tb_walked (λ x, m tl = 1 ∧ in_block (TB_2ND_LEVEL_OFFSET + 16 * (tl - TB_3RD_LEVEL_OFFSET)) 16 x) m m1)
      as (m1 & E1 & H1).
    { destruct (tm_mark m Hm tl) as [E|E]; [tb_lia|rewrite E; cbn [truthy when]..].
      - exists m. split; [done|]. eapply tb_walked_mono, tb_walked_refl. intros x [? _]. lia.
      - pose proof (tm_three m Hm tl) as Hp. unfold tb_check_second_level.
        rewrite (u32_small (tl - _)), (u32_small (_ * 16)), u32_small by tb_lia.
        replace ((tl - TB_3RD_LEVEL_OFFSET) * 16 + TB_2ND_LEVEL_OFFSET)
          with (TB_2ND_LEVEL_OFFSET + 16 * (tl - TB_3RD_LEVEL_OFFSET)) by lia.
        destruct (second_words_run 16 (TB_2ND_LEVEL_OFFSET + 16 * (tl - TB_3RD_LEVEL_OFFSET)) m) as (m1 & E1 & H1);
          [tb_lia|tb_lia|done|]. exists m1. split; [done|]. eapply tb_walked_mono, H1. unfold in_block. lia. }
    rewrite (bind_Ok _ _ _ _ _ E1). rewrite u32_small by tb_lia.
    destruct (IH (tl + 1) m1) as (m' & E & H); [lia|lia|by eapply tb_walked_marks|].
    exists m'. split; [done|]. eapply tb_walked_mono, tb_walked_trans; [|exact H1|exact H].
    intros x (t & Ht & Et & Hx). destruct (decide (t = tl)) as [->|]; [by left|right]. exists t. split; [lia|].
    split; [|done]. rewrite (tb_walked_top _ _ _ t H1); [done|lia].
Qed.

(** Each mark is marked above. *)
Definition tb_up (m : mem) : Prop :=
  (∀ x, TB_BITMAP_OFFSET <= x < TB_2ND_LEVEL_OFFSET → m x = 1 → m (TB_2ND_LEVEL_OFFSET + (x - TB_BITMAP_OFFSET) / 16) = 1) ∧
  (∀ x, TB_2ND_LEVEL_OFFSET <= x < TB_3RD_LEVEL_OFFSET → m x = 1 → m (TB_3RD_LEVEL_OFFSET + (x - TB_2ND_LEVEL_OFFSET) / 16) = 1).

(** What a checkpoint does. *)
Lemma treebyte_clear_run m :
  tb_marks m → tb_up m →
  ∃ m', treebyte_clear_bitmap m = Ok () m' ∧ tb_marks m' ∧
    (∀ x, TB_BITMAP_OFFSET <= x < TB_3RD_LEVEL_OFFSET → m' x = 0) ∧
    (∀ x, x < TB_BITMAP_OFFSET ∨ TB_3RD_LEVEL_OFFSET <= x < TREE_SHADOW_SPACE_OFFSET → m' x = m x) ∧
    (∀ y, 0 <= y < TB_BITMAP_OFFSET → m' (TREE_SHADOW_SPACE_OFFSET + y)
       = if truthy (m (TB_BITMAP_OFFSET + y / 16)) then m y else m (TREE_SHADOW_SPACE_OFFSET + y)).
Proof.
  intros Hm [Hup1 Hup2]. destruct (tb_top_run (Z.to_nat TB_3RD_LEVEL_SIZE) TB_3RD_LEVEL_OFFSET m) as (m' & E & Hw);
    [lia|tb_lia|done|]. exists m'. split; [exact E|]. split; [by eapply tb_walked_marks|].
  destruct Hw as (B & HB & Hc & HR & Es).
  assert (H2 : ∀ x, TB_2ND_LEVEL_OFFSET <= x < TB_3RD_LEVEL_OFFSET → m x = 1 → B x = true).
  { intros x Hx E1. apply HR. exists (TB_3RD_LEVEL_OFFSET + (x - TB_2ND_LEVEL_OFFSET) / 16).
    split; [tb_lia|]. split; [by apply Hup2|tb_lia]. }
  assert (H12 : ∀ x, TB_BITMAP_OFFSET <= x < TB_3RD_LEVEL_OFFSET → m x = 1 → B x = true).
  { intros x Hx E1. destruct (decide (x < TB_2ND_LEVEL_OFFSET)); [|apply H2; [lia|done]].
    set (z := TB_2ND_LEVEL_OFFSET + (x - TB_BITMAP_OFFSET) / 16).
    assert (m z = 1) as Ez by (apply Hup1; [lia|done]). assert (TB_2ND_LEVEL_OFFSET <= z < TB_3RD_LEVEL_OFFSET) as Hz by (subst z; tb_lia).
    apply (Hc z); [done|by apply H2|done|]. subst z. tb_lia. }
  split_and!.
  - intros x Hx. rewrite Es, sweep_level by done. destruct (B x) eqn:EB; [done|].
    destruct (tm_mark m Hm x) as [|E1]; [tb_lia|done|]. rewrite H12 in EB; done.
  - intros x Hx. rewrite Es. by apply sweep_low.
  - intros y Hy. rewrite Es. unfold sweep. rewrite (tb_levels_prog B _ HB) by tb_lia.
    rewrite bool_decide_true by (unfold tb_in_shadow; tb_lia). unfold tb_mark_of.
    replace (TREE_SHADOW_SPACE_OFFSET + y - TREE_SHADOW_SPACE_OFFSET) with y by lia.
    destruct (tm_mark m Hm (TB_BITMAP_OFFSET + y / 16)) as [Eb|Eb]; [tb_lia|by rewrite Eb, andb_false_r|].
    rewrite Eb, H12 by (done || tb_lia). done.
Qed.

(** ** Windows *)

(** In a window that began at [m0]: the shadow is the checkpoint, what differs from it is marked. *)
Record in_tb_window (m0 m : mem) : Prop := {
  tw_marks : tb_marks m;
  tw_up : tb_up m;
  tw_shadow : ∀ y, 0 <= y < TB_BITMAP_OFFSET → m (TREE_SHADOW_SPACE_OFFSET + y) = m0 y;
  tw_changed : ∀ y, 0 <= y < TB_BITMAP_OFFSET → m (TB_BITMAP_OFFSET + y / 16) = 0 → m y = m0 y;
}.

(** What marking an address of the program does. *)
Lemma treebyte_set_bit_at a m x :
  0 <= a < TB_BITMAP_OFFSET →
  treebyte_set_bit a m x
  = if bool_decide (x = TB_BITMAP_OFFSET + a / 16 ∨ x = TB_2ND_LEVEL_OFFSET + a / 256 ∨ x = TB_3RD_LEVEL_OFFSET + a / 4096)
    then 1 else m x.
Proof.
  intros Ha. unfold treebyte_set_bit. rewrite (u32_small a) by tb_lia. rewrite !Z.shiftr_shiftr by lia.
  rewrite !Z.shiftr_div_pow2 by lia. change (2 ^ 4) with 16. change (2 ^ (4 + 4)) with 256. change (2 ^ (4 + 4 + 4)) with 4096.
  rewrite !u32_small by tb_lia. unfold upd.
  repeat match goal with |- context [?i =? ?j] => destruct (Z.eqb_spec i j) end; case_bool_decide; done || lia.
Qed.

Lemma treebyte_set_bit_window m0 m a :
  0 <= a < TB_BITMAP_OFFSET → in_tb_window m0 m → in_tb_window m0 (treebyte_set_bit a m).
Proof.
  intros Ha [[H0 H1 H2 H3] [U1 U2] Hs Hc].
  assert (E : ∀ x, treebyte_set_bit a m x = 1 → x = TB_BITMAP_OFFSET + a / 16 ∨ x = TB_2ND_LEVEL_OFFSET + a / 256 ∨
    x = TB_3RD_LEVEL_OFFSET + a / 4096 ∨ m x = 1) by (intros x; rewrite treebyte_set_bit_at by done; case_bool_decide; tauto).
  split; [split|split| |]; intros x Hx.
  - rewrite treebyte_set_bit_at by done. case_bool_decide; [by right|by apply H0].
  - intros [-> |[-> |[-> |Hm]]]%E; [tb_lia..|by apply H1].
  - intros [-> |[-> |[-> |Hm]]]%E; [tb_lia..|by apply H2].
  - intros [-> |[-> |[-> |Hm]]]%E; [tb_lia..|by apply H3].
  - intros Hm%E. rewrite treebyte_set_bit_at by done. case_bool_decide as Hb; [done|].
    destruct Hm as [-> |[-> |[-> |Hm]]]; [tb_lia..|by apply U1].
  - intros Hm%E. rewrite treebyte_set_bit_at by done. case_bool_decide as Hb; [done|].
    destruct Hm as [-> |[-> |[-> |Hm]]]; [tb_lia..|by apply U2].
  - rewrite treebyte_set_bit_at, bool_decide_false by (done || tb_lia). by apply Hs.
  - rewrite !treebyte_set_bit_at by done. rewrite (bool_decide_false (x = _ ∨ _)) by tb_lia. case_bool_decide; [done|by apply Hc].
Qed.

(** A write whose clicks are marked stays in the window. *)
Lemma tb_write_window m0 m a bs :
  0 <= a → a + zlen bs <= TB_BITMAP_OFFSET → in_tb_window m0 m →
  (∀ x, in_block a (zlen bs) x → m (TB_BITMAP_OFFSET + x / 16) = 1) →
  in_tb_window m0 (store_bytes m a bs).
Proof.
  intros Ha Hb [Hm [U1 U2] Hs Hc] Hmk.
  assert (∀ x, TB_BITMAP_OFFSET <= x → store_bytes m a bs x = m x) as Ho by (intros x Hx; apply store_bytes_out; tb_lia).
  split; [|split| |].
  - apply (tb_marks_le m); [|done]. intros x Hx. left. apply Ho. lia.
  - intros x Hx. rewrite !Ho by tb_lia. by apply U1.
  - intros x Hx. rewrite !Ho by tb_lia. by apply U2.
  - intros y Hy. rewrite Ho by tb_lia. by apply Hs.
  - intros y Hy. rewrite Ho by tb_lia. intros Hf. rewrite store_bytes_out; [by apply Hc|].
    intros Hin. by rewrite Hmk in Hf.
Qed.

Lemma treebyte_memcpy_loop_run m0 stop_at fuel : ∀ reg m,
  0 <= reg → reg mod 16 = 0 → stop_at <= TB_BITMAP_OFFSET → stop_at - reg <= 16 * (Z.of_nat fuel - 1) →
  (0 < fuel)%nat → in_tb_window m0 m →
  ∃ m', treebyte_memcpy_loop fuel reg stop_at m = Ok () m' ∧ in_tb_window m0 m' ∧
    mem_agree (λ x, 0 <= x < TB_BITMAP_OFFSET) m' m ∧
    (∀ x, TB_BITMAP_OFFSET <= x < TREE_SHADOW_SPACE_OFFSET → m x = 1 → m' x = 1) ∧
    ∀ x, reg <= x < stop_at → m' (TB_BITMAP_OFFSET + x / 16) = 1.
Proof.
  induction fuel as [|fuel IH]; intros reg m H0 Hal Hs Hf Hf0 Hw; [lia|]. cbn [treebyte_memcpy_loop].
  destruct (Z.ltb_spec reg stop_at) as [Hlt|Hge].
  - rewrite bind_modify. unfold TB_BITMAP_CLICK. rewrite u32_small by tb_lia.
    destruct (IH (reg + 16) (treebyte_set_bit reg m)) as (m' & E & Hw' & Hag & Hg & Hm);
      [lia|tb_lia|done|lia|lia|apply treebyte_set_bit_window; [lia|done]|].
    exists m'. split; [done|]. split; [done|]. split.
    { etransitivity; [done|]. intros x Hx. rewrite treebyte_set_bit_at, bool_decide_false by tb_lia. done. }
    split.
    + intros x Hx E1. apply Hg; [done|]. rewrite treebyte_set_bit_at by lia. by case_bool_decide.
    + intros x Hx. destruct (decide (x < reg + 16)); [|apply Hm; lia].
      apply Hg; [tb_lia|]. rewrite treebyte_set_bit_at, bool_decide_true by tb_lia. done.
  - exists m. split_and!; try done. lia.
Qed.

Lemma treebyte_memcpy_hook_run m0 m a size :
  0 <= a → 0 <= size → a + size <= TB_BITMAP_OFFSET → in_tb_window m0 m →
  ∃ m', treebyte_memcpy_hook a size m = Ok () m' ∧ in_tb_window m0 m' ∧
    mem_agree (λ x, 0 <= x < TB_BITMAP_OFFSET) m' m ∧
    ∀ x, in_block a size x → m' (TB_BITMAP_OFFSET + x / 16) = 1.
Proof.
  intros Ha Hsz Hb Hw. unfold treebyte_memcpy_hook. change (TB_BITMAP_CLICK - 1) with (Z.ones 4).
  rewrite land_lnot_ones by lia. change (2 ^ 4) with 16. rewrite u32_small by tb_lia.
  destruct (treebyte_memcpy_loop_run m0 (a + size) (Z.to_nat (size / TB_BITMAP_CLICK + 3)) (a - a mod 16) m)
    as (m' & E & Hw' & Hag & _ & Hm); [tb_lia|tb_lia|done|unfold TB_BITMAP_CLICK; tb_lia..|done|].
  exists m'. split_and!; try done. intros x Hx. apply Hm. tb_lia.
Qed.

(** The writes of the program, each behind its hook. *)
Definition treebyte_step (op : tree_op) : P () :=
  match op with
  | TStore a bs => treebyte_store_hook a ;; modify (λ m, store_bytes m a bs)
  | TMemcpy a bs => treebyte_memcpy_hook a (zlen bs) ;; modify (λ m, store_bytes m a bs)
  end.

Fixpoint treebyte_run (ops : list tree_op) : P () :=
  match ops with
  | [] => skip
  | op :: ops' => treebyte_step op ;; treebyte_run ops'
  end.

(** A store is in one click; writes are below the bitmaps. *)
Definition treebyte_op_ok (op : tree_op) : Prop :=
  match op with
  | TStore a bs => 0 <= a < TB_BITMAP_OFFSET ∧ a + zlen bs <= TB_BITMAP_OFFSET ∧
      ∀ x, in_block a (zlen bs) x → x / 16 = a / 16
  | TMemcpy a bs => 0 <= a ∧ a + zlen bs <= TB_BITMAP_OFFSET
  end.

Lemma treebyte_step_run m0 op m :
  treebyte_op_ok op → in_tb_window m0 m →
  ∃ m', treebyte_step op m = Ok () m' ∧ in_tb_window m0 m' ∧
    mem_agree (λ x, 0 <= x < TB_BITMAP_OFFSET) m' (tree_plain [op] m).
Proof.
  destruct op as [a bs|a bs]; cbn [treebyte_step treebyte_op_ok tree_plain foldl].
  - intros (Ha & Hb & Hx) Hw. unfold treebyte_store_hook. rewrite bind_modify. eexists. split; [reflexivity|]. split.
    + apply tb_write_window; [lia|done|by apply treebyte_set_bit_window|]. intros x Hin. rewrite Hx by done.
      rewrite treebyte_set_bit_at, bool_decide_true by tauto. done.
    + apply store_bytes_agree. intros x [Hin _]. rewrite treebyte_set_bit_at, bool_decide_false by tb_lia. done.
  - intros (Ha & Hb) Hw. destruct (treebyte_memcpy_hook_run m0 m a (zlen bs)) as (m1 & E & Hw1 & Hag & Hm); [lia|lia|done|done|].
    rewrite (bind_Ok _ _ _ _ _ E). eexists. split; [reflexivity|]. split; [by apply tb_write_window|].
    apply store_bytes_agree. intros x [Hin _]. by apply Hag.
Qed.

Lemma treebyte_run_window m0 ops : ∀ m,
  Forall treebyte_op_ok ops → in_tb_window m0 m →
  ∃ m', treebyte_run ops m = Ok () m' ∧ in_tb_window m0 m' ∧
    mem_agree (λ x, 0 <= x < TB_BITMAP_OFFSET) m' (tree_plain ops m).
Proof.
  induction ops as [|op ops IH]; intros m Hok Hw; [by exists m|]. apply Forall_cons in Hok as [Hop Hok].
  destruct (treebyte_step_run m0 op m Hop Hw) as (m1 & E1 & Hw1 & Ha1).
  destruct (IH m1 Hok Hw1) as (m2 & E2 & Hw2 & Ha2). exists m2. cbn [treebyte_run].
  rewrite (bind_Ok _ _ _ _ _ E1). split; [done|]. split; [done|]. etransitivity; [done|].
  change (tree_plain (op :: ops) m) with (tree_plain ops (tree_plain [op] m)). by apply tree_plain_agree.
Qed.

(** ** Checkpoints *)

(** The state at a checkpoint: the first two levels are empty and the shadow is a copy of the
    memory.  The third level may have marks. *)
Record treebyte_synced (m : mem) : Prop := {
  ts_marks : tb_marks m;
  ts_empty : ∀ x, TB_BITMAP_OFFSET <= x < TB_3RD_LEVEL_OFFSET → m x = 0;
  ts_shadow : ∀ y, 0 <= y < TB_BITMAP_OFFSET → m (TREE_SHADOW_SPACE_OFFSET + y) = m y;
}.

Lemma treebyte_synced_window m : treebyte_synced m → in_tb_window m m.
Proof. intros [Hm He Hs]. split; [done|split|done|done]; intros x Hx; rewrite He by tb_lia; done. Qed.

(** C31: The tree of bytes keeps the shadow a checkpoint. From a checkpoint on, let the program
    store and copy below the bitmaps, with the hook before each write, each store within one click
    of 16 bytes and copies of any length ([treebyte_op_ok]: the hook marks the click of the first
    byte of a store only, so a store that crosses into the next click is not covered). Until the
    next checkpoint the shadow holds the memory as it was at the last one; the walk of the next
    checkpoint ends, although it goes over four times the marks that belong to each mark it
    follows, and leaves the shadow a copy of the memory as it is then and the first two levels
    empty; the program's memory is what it would be without checkpoints. The third level is not
    cleared. *)
Theorem treebyte_checkpoint_syncs (m : mem) (ops : list tree_op) :
  treebyte_synced m → Forall treebyte_op_ok ops →
  ∃ m1 m2, treebyte_run ops m = Ok () m1 ∧ treebyte_clear_bitmap m1 = Ok () m2 ∧ treebyte_synced m2 ∧
    (∀ x, 0 <= x < TB_BITMAP_OFFSET →
      m1 x = tree_plain ops m x ∧ m1 (TREE_SHADOW_SPACE_OFFSET + x) = m x ∧ m2 x = tree_plain ops m x) ∧
    ∀ x, TB_3RD_LEVEL_OFFSET <= x < TREE_SHADOW_SPACE_OFFSET → m2 x = m1 x.
Proof.
  intros Hs Hops. destruct (treebyte_run_window m ops m Hops (treebyte_synced_window m Hs)) as (m1 & E1 & [Hm Hu Hsh Hc] & Ha).
  destruct (treebyte_clear_run m1 Hm Hu) as (m2 & E2 & Hm2 & Hz & Hf & Hcp).
  assert (∀ x, 0 <= x < TB_BITMAP_OFFSET → m2 x = m1 x) as Hp by (intros x Hx; apply Hf; lia).
  exists m1, m2. split; [done|]. split; [done|]. split; [split; [done|done|]|split].
  - intros x Hx. rewrite Hcp, Hp by done. destruct (tm_mark m1 Hm (TB_BITMAP_OFFSET + x / 16)) as [E|E]; [tb_lia| |by rewrite E].
    rewrite E. cbn. rewrite Hsh by done. symmetry. by apply Hc.
  - intros x Hx. rewrite Hp by done. split_and!; [by apply Ha|by apply Hsh|by apply Ha].
  - intros x Hx. apply Hf. lia.
Qed.

Lemma treebyte_checkpoint_syncs_witness :
  ∃ m1 m2, treebyte_run demo_ops (λ _, 0) = Ok () m1 ∧ treebyte_clear_bitmap m1 = Ok () m2 ∧ treebyte_synced m2 ∧
    (∀ x, 0 <= x < TB_BITMAP_OFFSET →
      m1 x = tree_plain demo_ops (λ _, 0) x ∧ m1 (TREE_SHADOW_SPACE_OFFSET + x) = 0 ∧ m2 x = tree_plain demo_ops (λ _, 0) x) ∧
    ∀ x, TB_3RD_LEVEL_OFFSET <= x < TREE_SHADOW_SPACE_OFFSET → m2 x = m1 x.
Proof.
  apply (treebyte_checkpoint_syncs (λ _, 0) demo_ops).
  - by repeat split; try left.
  - repeat constructor; try (vm_compute; congruence); intros x Hx; unfold in_block in Hx; cbn in Hx;
      Z.to_euclidean_division_equations; lia.
Defined.

(** ** The scheme that saves clicks *)

(** After two stores to an address in a window the shadow holds what the first of them wrote, not
    what was there at the checkpoint. *)
Lemma treebyte_diff_forgets a b1 b2 m :
  0 <= a < TB_BITMAP_OFFSET →
  ∃ m', (treebyte_diff_store_hook a ;; modify (λ m, upd m a b1) ;;
         treebyte_diff_store_hook a ;; modify (λ m, upd m a b2)) m = Ok () m' ∧
    m' (TREE_SHADOW_SPACE_OFFSET + a) = b1.
Proof.
  intros Ha. eexists. split; [reflexivity|].
  rewrite upd_ne by tb_lia. unfold tb_save_region at 1. change (TB_BITMAP_CLICK - 1) with (Z.ones 4).
  rewrite land_lnot_ones by lia. change (2 ^ 4) with 16. rewrite u32_small by tb_lia.
  rewrite store_bytes_in by (rewrite length_load_bytes; tb_lia). rewrite nth_load_bytes by tb_lia.
  replace (a - a mod 16 + _) with a by tb_lia. rewrite treebyte_set_bit_at, bool_decide_false by tb_lia. apply upd_eq.
Qed.

(** ** The marks of [bitmap_smmap.h]

    The layout for 64-bit x86 in which the bitmap is as large as the memory it is for: a store
    writes a word at its own address in the bitmap, and the smmap module, to which the bitmap is
    given at its allocation, sees which pages of it are written. *)

Definition SMMAP_SHADOW_SPACE_SIZE : Z := 0x1000000000.
Definition SMMAP_BITMAP_SIZE : Z := SMMAP_SHADOW_SPACE_SIZE.
Definition SMMAP_BITMAP_OFFSET : Z := 0x40000000000.

Definition SMMAP_ADDR_TO_BITMAP (x : Z) : Z := Z.land x (SMMAP_SHADOW_SPACE_SIZE - 1) + SMMAP_BITMAP_OFFSET.

(** [ltckpt_set_bit]; it returns 1.  The mark is an [unsigned long]. *)
Definition smmap_set_bit (a : Z) (m : mem) : mem := store_bytes m (SMMAP_ADDR_TO_BITMAP a) (le_bytes 8 1).

(** [ltckpt_clear_bitmap]. *)
Definition smmap_clear_bitmap (m : mem) : mem := m.

(** A store to an address below the shadow writes the page of the bitmap that stands for the
    page of the address, and nothing else but, where the address is less than a word before the
    end of its page, the page after it; only the last seven addresses reach past the bitmap. *)
Lemma smmap_marks_page a x m :
  0 <= a < SMMAP_SHADOW_SPACE_SIZE →
  smmap_set_bit a m (SMMAP_BITMAP_OFFSET + a) = 1 ∧
  (smmap_set_bit a m x ≠ m x →
   let page := (x - SMMAP_BITMAP_OFFSET) / 4096 in
   (page = a / 4096 ∨ (page = a / 4096 + 1 ∧ 4096 - 8 < a mod 4096)) ∧
   (SMMAP_BITMAP_OFFSET <= x < SMMAP_BITMAP_OFFSET + SMMAP_BITMAP_SIZE ∨ SMMAP_SHADOW_SPACE_SIZE - 8 < a)).
Proof.
  intros Ha. unfold smmap_set_bit, SMMAP_ADDR_TO_BITMAP, SMMAP_BITMAP_SIZE.
  change (SMMAP_SHADOW_SPACE_SIZE - 1) with (Z.ones 36). rewrite Z.land_ones by lia.
  change SMMAP_SHADOW_SPACE_SIZE with (2 ^ 36) in *. rewrite Z.mod_small by done.
  assert (zlen (le_bytes 8 1) = 8) as Hl by done. split.
  - rewrite store_bytes_in by (rewrite Hl; unfold in_block; lia).
    by replace (SMMAP_BITMAP_OFFSET + a - (a + SMMAP_BITMAP_OFFSET)) with 0 by lia.
  - intros Hne. destruct (decide (in_block (a + SMMAP_BITMAP_OFFSET) 8 x)) as [Hin|Hout].
    + unfold in_block in Hin. change (2 ^ 36) with 68719476736 in *. cbv zeta. Z.to_euclidean_division_equations. lia.
    + by rewrite store_bytes_out in Hne.
Qed.
