(* ===== verification/Policy.v ===== *)
(** * Recovery windows and recovery policies of a server

    [ltckpt/ltckpt_recover.c] and [ltckpt_recover.h]: the window a server of a
    multi-server system is in while it handles a message, the policies the call sites it
    passes set in [g_recovery_bitmask], the faults injected at call sites, and the dispatcher
    that recovers the server after a crash by replying to the requester, killing it, or
    stopping the system. *)
From stdpp Require Import base numbers list sets strings.
From Stdlib Require Import ZArith Lia Ascii.
From S2P Require Import Prelude CString.

Definition LTCKPT_SHUTTER_BOARD_IPC_END : Z := 1024.
Definition LTCKPT_RECOVERY_MASK_IDEMPOTENT : Z := 1.
Definition LTCKPT_RECOVERY_MASK_REQUEST_SPECIFIC : Z := 2.
Definition LTCKPT_RECOVERY_MASK_PROCESS_SPECIFIC : Z := 4.
Definition LTCKPT_RECOVERY_MASK_FAIL_STOP : Z := 8.
Definition LTCKPT_RECOVERY_REPROCESSING_REQ : Z := 16.
Definition LTCKPT_RECOVERY_NAIVE_MODE_DEFAULT : Z := 0.
Definition LTCKPT_RECOVERY_NAIVE_MODE_NEVER_REPLY : Z := 5.
Definition LTCKPT_RECOVERY_NAIVE_MODE_ALWAYS_REPLY : Z := 7.
Definition LTCKPT_RECOVERY_FAILURE : Z := -1.
Definition LTCKPT_RECOVERY_SUCCESS : Z := 0.
Definition RW_OK : Z := 0.
Definition NOT_OK : Z := -1.
Definition RECOVERY_BITMASK_CALLSITE_COUNT : Z := 64.

(** [wshutter_prof_t]: [unsigned long long] counters of a call site. *)
Record wshutter_prof := mk_shutter_prof {
  sp_num_hits : Z;
  g_first_bb_in : Z;
  g_last_bb_in : Z;
  min_bb_in : Z;
  max_bb_in : Z;
  num_in_window : Z;
  num_end : Z;
}.

Definition set_sp_num_hits (v : Z) (s : wshutter_prof) : wshutter_prof :=
  mk_shutter_prof v (g_first_bb_in s) (g_last_bb_in s) (min_bb_in s) (max_bb_in s)
    (num_in_window s) (num_end s).
Definition set_g_first_bb_in (v : Z) (s : wshutter_prof) : wshutter_prof :=
  mk_shutter_prof (sp_num_hits s) v (g_last_bb_in s) (min_bb_in s) (max_bb_in s)
    (num_in_window s) (num_end s).
Definition set_g_last_bb_in (v : Z) (s : wshutter_prof) : wshutter_prof :=
  mk_shutter_prof (sp_num_hits s) (g_first_bb_in s) v (min_bb_in s) (max_bb_in s)
    (num_in_window s) (num_end s).
Definition set_min_bb_in (v : Z) (s : wshutter_prof) : wshutter_prof :=
  mk_shutter_prof (sp_num_hits s) (g_first_bb_in s) (g_last_bb_in s) v (max_bb_in s)
    (num_in_window s) (num_end s).
Definition set_max_bb_in (v : Z) (s : wshutter_prof) : wshutter_prof :=
  mk_shutter_prof (sp_num_hits s) (g_first_bb_in s) (g_last_bb_in s) (min_bb_in s) v
    (num_in_window s) (num_end s).
Definition set_num_in_window (v : Z) (s : wshutter_prof) : wshutter_prof :=
  mk_shutter_prof (sp_num_hits s) (g_first_bb_in s) (g_last_bb_in s) (min_bb_in s)
    (max_bb_in s) v (num_end s).
Definition set_num_end (v : Z) (s : wshutter_prof) : wshutter_prof :=
  mk_shutter_prof (sp_num_hits s) (g_first_bb_in s) (g_last_bb_in s) (min_bb_in s) (max_bb_in s)
    (num_in_window s) v.

(** [window_shutter]. *)
Record window_shutter := mk_shutter {
  do_suicide : Z;  (** [int] *)
  prof : wshutter_prof;
}.

Definition set_do_suicide (v : Z) (s : window_shutter) : window_shutter :=
  mk_shutter v (prof s).
Definition set_prof (v : wshutter_prof) (s : window_shutter) : window_shutter :=
  mk_shutter (do_suicide s) v.

(** The globals of the file. *)
Record rwin := mk_rwin {
  suicide_on_window_close : Z;
  sa_window__is_open : Z;
  inside_trusted_compute_base : Z;
  prior_have_handled_message : Z;
  have_handled_message : Z;  (** of the server library *)
  sef_init_done : Z;
  g_recovery_bitmask : Z;  (** [unsigned int] *)
  g_recovery_naive_mode : Z;
  g_recovery_bitmask_reason : option cstr;
  callsites : list Z;  (** [g_recovery_bitmask_callsites], of length [g_recovery_bitmask_callsite_count] *)
  total_count : Z;  (** [uint64_t] *)
  wprof_enable_stats : Z;
  wprof_currwindow_bb_in : Z;
  g_num_window_opens : Z;
  rwindow_bb_in : Z;  (** [wprof.glo.rwindow.bb_in] *)
  rwindow_end : Z;  (** [wprof.glo.rwindow.end] *)
  g_shutter_board : Z → window_shutter;
  g_num_window_shutters : Z;
  g_num_kernelcall_shutters : Z;
  g_module_name : cstr;
}.

Definition set_suicide_on_window_close (v : Z) (s : rwin) : rwin :=
  mk_rwin v (sa_window__is_open s) (inside_trusted_compute_base s)
    (prior_have_handled_message s) (have_handled_message s) (sef_init_done s)
    (g_recovery_bitmask s) (g_recovery_naive_mode s) (g_recovery_bitmask_reason s) (callsites s)
    (total_count s) (wprof_enable_stats s) (wprof_currwindow_bb_in s) (g_num_window_opens s)
    (rwindow_bb_in s) (rwindow_end s) (g_shutter_board s) (g_num_window_shutters s)
    (g_num_kernelcall_shutters s) (g_module_name s).
Definition set_sa_window__is_open (v : Z) (s : rwin) : rwin :=
  mk_rwin (suicide_on_window_close s) v (inside_trusted_compute_base s)
    (prior_have_handled_message s) (have_handled_message s) (sef_init_done s)
    (g_recovery_bitmask s) (g_recovery_naive_mode s) (g_recovery_bitmask_reason s) (callsites s)
    (total_count s) (wprof_enable_stats s) (wprof_currwindow_bb_in s) (g_num_window_opens s)
    (rwindow_bb_in s) (rwindow_end s) (g_shutter_board s) (g_num_window_shutters s)
    (g_num_kernelcall_shutters s) (g_module_name s).
Definition set_inside_trusted_compute_base (v : Z) (s : rwin) : rwin :=
  mk_rwin (suicide_on_window_close s) (sa_window__is_open s) v (prior_have_handled_message s)
    (have_handled_message s) (sef_init_done s) (g_recovery_bitmask s) (g_recovery_naive_mode s)
    (g_recovery_bitmask_reason s) (callsites s) (total_count s) (wprof_enable_stats s)
    (wprof_currwindow_bb_in s) (g_num_window_opens s) (rwindow_bb_in s) (rwindow_end s)
    (g_shutter_board s) (g_num_window_shutters s) (g_num_kernelcall_shutters s)
    (g_module_name s).
Definition set_prior_have_handled_message (v : Z) (s : rwin) : rwin :=
  mk_rwin (suicide_on_window_close s) (sa_window__is_open s) (inside_trusted_compute_base s) v
    (have_handled_message s) (sef_init_done s) (g_recovery_bitmask s) (g_recovery_naive_mode s)
    (g_recovery_bitmask_reason s) (callsites s) (total_count s) (wprof_enable_stats s)
    (wprof_currwindow_bb_in s) (g_num_window_opens s) (rwindow_bb_in s) (rwindow_end s)
    (g_shutter_board s) (g_num_window_shutters s) (g_num_kernelcall_shutters s)
    (g_module_name s).
Definition set_have_handled_message (v : Z) (s : rwin) : rwin :=
  mk_rwin (suicide_on_window_close s) (sa_window__is_open s) (inside_trusted_compute_base s)
    (prior_have_handled_message s) v (sef_init_done s) (g_recovery_bitmask s)
    (g_recovery_naive_mode s) (g_recovery_bitmask_reason s) (callsites s) (total_count s)
    (wprof_enable_stats s) (wprof_currwindow_bb_in s) (g_num_window_opens s) (rwindow_bb_in s)
    (rwindow_end s) (g_shutter_board s) (g_num_window_shutters s) (g_num_kernelcall_shutters s)
    (g_module_name s).
Definition set_sef_init_done (v : Z) (s : rwin) : rwin :=
  mk_rwin (suicide_on_window_close s) (sa_window__is_open s) (inside_trusted_compute_base s)
    (prior_have_handled_message s) (have_handled_message s) v (g_recovery_bitmask s)
    (g_recovery_naive_mode s) (g_recovery_bitmask_reason s) (callsites s) (total_count s)
    (wprof_enable_stats s) (wprof_currwindow_bb_in s) (g_num_window_opens s) (rwindow_bb_in s)
    (rwindow_end s) (g_shutter_board s) (g_num_window_shutters s) (g_num_kernelcall_shutters s)
    (g_module_name s).
Definition set_g_recovery_bitmask (v : Z) (s : rwin) : rwin :=
  mk_rwin (suicide_on_window_close s) (sa_window__is_open s) (inside_trusted_compute_base s)
    (prior_have_handled_message s) (have_handled_message s) (sef_init_done s) v
    (g_recovery_naive_mode s) (g_recovery_bitmask_reason s) (callsites s) (total_count s)
    (wprof_enable_stats s) (wprof_currwindow_bb_in s) (g_num_window_opens s) (rwindow_bb_in s)
    (rwindow_end s) (g_shutter_board s) (g_num_window_shutters s) (g_num_kernelcall_shutters s)
    (g_module_name s).
Definition set_g_recovery_naive_mode (v : Z) (s : rwin) : rwin :=
  mk_rwin (suicide_on_window_close s) (sa_window__is_open s) (inside_trusted_compute_base s)
    (prior_have_handled_message s) (have_handled_message s) (sef_init_done s)
    (g_recovery_bitmask s) v (g_recovery_bitmask_reason s) (callsites s) (total_count s)
    (wprof_enable_stats s) (wprof_currwindow_bb_in s) (g_num_window_opens s) (rwindow_bb_in s)
    (rwindow_end s) (g_shutter_board s) (g_num_window_shutters s) (g_num_kernelcall_shutters s)
    (g_module_name s).
Definition set_g_recovery_bitmask_reason (v : option cstr) (s : rwin) : rwin :=
  mk_rwin (suicide_on_window_close s) (sa_window__is_open s) (inside_trusted_compute_base s)
    (prior_have_handled_message s) (have_handled_message s) (sef_init_done s)
    (g_recovery_bitmask s) (g_recovery_naive_mode s) v (callsites s) (total_count s)
    (wprof_enable_stats s) (wprof_currwindow_bb_in s) (g_num_window_opens s) (rwindow_bb_in s)
    (rwindow_end s) (g_shutter_board s) (g_num_window_shutters s) (g_num_kernelcall_shutters s)
    (g_module_name s).
Definition set_callsites (v : list Z) (s : rwin) : rwin :=
  mk_rwin (suicide_on_window_close s) (sa_window__is_open s) (inside_trusted_compute_base s)
    (prior_have_handled_message s) (have_handled_message s) (sef_init_done s)
    (g_recovery_bitmask s) (g_recovery_naive_mode s) (g_recovery_bitmask_reason s) v
    (total_count s) (wprof_enable_stats s) (wprof_currwindow_bb_in s) (g_num_window_opens s)
    (rwindow_bb_in s) (rwindow_end s) (g_shutter_board s) (g_num_window_shutters s)
    (g_num_kernelcall_shutters s) (g_module_name s).
Definition set_total_count (v : Z) (s : rwin) : rwin :=
  mk_rwin (suicide_on_window_close s) (sa_window__is_open s) (inside_trusted_compute_base s)
    (prior_have_handled_message s) (have_handled_message s) (sef_init_done s)
    (g_recovery_bitmask s) (g_recovery_naive_mode s) (g_recovery_bitmask_reason s)
    (callsites s) v (wprof_enable_stats s) (wprof_currwindow_bb_in s) (g_num_window_opens s)
    (rwindow_bb_in s) (rwindow_end s) (g_shutter_board s) (g_num_window_shutters s)
    (g_num_kernelcall_shutters s) (g_module_name s).
Definition set_wprof_enable_stats (v : Z) (s : rwin) : rwin :=
  mk_rwin (suicide_on_window_close s) (sa_window__is_open s) (inside_trusted_compute_base s)
    (prior_have_handled_message s) (have_handled_message s) (sef_init_done s)
    (g_recovery_bitmask s) (g_recovery_naive_mode s) (g_recovery_bitmask_reason s) (callsites s)
    (total_count s) v (wprof_currwindow_bb_in s) (g_num_window_opens s) (rwindow_bb_in s)
    (rwindow_end s) (g_shutter_board s) (g_num_window_shutters s) (g_num_kernelcall_shutters s)
    (g_module_name s).
Definition set_wprof_currwindow_bb_in (v : Z) (s : rwin) : rwin :=
  mk_rwin (suicide_on_window_close s) (sa_window__is_open s) (inside_trusted_compute_base s)
    (prior_have_handled_message s) (have_handled_message s) (sef_init_done s)
    (g_recovery_bitmask s) (g_recovery_naive_mode s) (g_recovery_bitmask_reason s) (callsites s)
    (total_count s) (wprof_enable_stats s) v (g_num_window_opens s) (rwindow_bb_in s)
    (rwindow_end s) (g_shutter_board s) (g_num_window_shutters s) (g_num_kernelcall_shutters s)
    (g_module_name s).
Definition set_g_num_window_opens (v : Z) (s : rwin) : rwin :=
  mk_rwin (suicide_on_window_close s) (sa_window__is_open s) (inside_trusted_compute_base s)
    (prior_have_handled_message s) (have_handled_message s) (sef_init_done s)
    (g_recovery_bitmask s) (g_recovery_naive_mode s) (g_recovery_bitmask_reason s) (callsites s)
    (total_count s) (wprof_enable_stats s) (wprof_currwindow_bb_in s) v (rwindow_bb_in s)
    (rwindow_end s) (g_shutter_board s) (g_num_window_shutters s) (g_num_kernelcall_shutters s)
    (g_module_name s).
Definition set_rwindow_bb_in (v : Z) (s : rwin) : rwin :=
  mk_rwin (suicide_on_window_close s) (sa_window__is_open s) (inside_trusted_compute_base s)
    (prior_have_handled_message s) (have_handled_message s) (sef_init_done s)
    (g_recovery_bitmask s) (g_recovery_naive_mode s) (g_recovery_bitmask_reason s) (callsites s)
    (total_count s) (wprof_enable_stats s) (wprof_currwindow_bb_in s) (g_num_window_opens s) v
    (rwindow_end s) (g_shutter_board s) (g_num_window_shutters s) (g_num_kernelcall_shutters s)
    (g_module_name s).
Definition set_rwindow_end (v : Z) (s : rwin) : rwin :=
  mk_rwin (suicide_on_window_close s) (sa_window__is_open s) (inside_trusted_compute_base s)
    (prior_have_handled_message s) (have_handled_message s) (sef_init_done s)
    (g_recovery_bitmask s) (g_recovery_naive_mode s) (g_recovery_bitmask_reason s) (callsites s)
    (total_count s) (wprof_enable_stats s) (wprof_currwindow_bb_in s) (g_num_window_opens s)
    (rwindow_bb_in s) v (g_shutter_board s) (g_num_window_shutters s)
    (g_num_kernelcall_shutters s) (g_module_name s).
Definition set_g_shutter_board (v : Z → window_shutter) (s : rwin) : rwin :=
  mk_rwin (suicide_on_window_close s) (sa_window__is_open s) (inside_trusted_compute_base s)
    (prior_have_handled_message s) (have_handled_message s) (sef_init_done s)
    (g_recovery_bitmask s) (g_recovery_naive_mode s) (g_recovery_bitmask_reason s) (callsites s)
    (total_count s) (wprof_enable_stats s) (wprof_currwindow_bb_in s) (g_num_window_opens s)
    (rwindow_bb_in s) (rwindow_end s) v (g_num_window_shutters s) (g_num_kernelcall_shutters s)
    (g_module_name s).
Definition set_g_num_window_shutters (v : Z) (s : rwin) : rwin :=
  mk_rwin (suicide_on_window_close s) (sa_window__is_open s) (inside_trusted_compute_base s)
    (prior_have_handled_message s) (have_handled_message s) (sef_init_done s)
    (g_recovery_bitmask s) (g_recovery_naive_mode s) (g_recovery_bitmask_reason s) (callsites s)
    (total_count s) (wprof_enable_stats s) (wprof_currwindow_bb_in s) (g_num_window_opens s)
    (rwindow_bb_in s) (rwindow_end s) (g_shutter_board s) v (g_num_kernelcall_shutters s)
    (g_module_name s).
Definition set_g_num_kernelcall_shutters (v : Z) (s : rwin) : rwin :=
  mk_rwin (suicide_on_window_close s) (sa_window__is_open s) (inside_trusted_compute_base s)
    (prior_have_handled_message s) (have_handled_message s) (sef_init_done s)
    (g_recovery_bitmask s) (g_recovery_naive_mode s) (g_recovery_bitmask_reason s) (callsites s)
    (total_count s) (wprof_enable_stats s) (wprof_currwindow_bb_in s) (g_num_window_opens s)
    (rwindow_bb_in s) (rwindow_end s) (g_shutter_board s) (g_num_window_shutters s) v
    (g_module_name s).
Definition set_g_module_name (v : cstr) (s : rwin) : rwin :=
  mk_rwin (suicide_on_window_close s) (sa_window__is_open s) (inside_trusted_compute_base s)
    (prior_have_handled_message s) (have_handled_message s) (sef_init_done s)
    (g_recovery_bitmask s) (g_recovery_naive_mode s) (g_recovery_bitmask_reason s) (callsites s)
    (total_count s) (wprof_enable_stats s) (wprof_currwindow_bb_in s) (g_num_window_opens s)
    (rwindow_bb_in s) (rwindow_end s) (g_shutter_board s) (g_num_window_shutters s)
    (g_num_kernelcall_shutters s) v.

(** A message, and what the recovery code needs of the system. *)
Record message := mk_message { m_source : Z; m_type : Z }.

Class Minix (os : Type) := {
  msg_available : bool;  (** [sef_get_current_message] is linked in *)
  usr_endpoint_available : bool;  (** [sef_llvm_is_user_endpoint] is linked in *)
  sef_get_current_message : os → option (message * Z);  (** message and replyable, [None] for 0 *)
  sef_llvm_is_user_endpoint : Z → os → Z;
  sys_kill : Z → os → Z * os;
  asynsend : Z → message → os → Z * os;
  sys_abort : os → Z * os;
  hypermem_printstr : cstr → os → os;
  RS_PROC_NR : Z;
  COMMON_REQ_FI_CTL : Z;
  ERESTART : Z;
  E_INVAL : Z;
}.

(** The build options. *)
Class Options := {
  LTRC_SUICIDE_ONLY_ONCE : bool;
  LTRC_SUICIDE_WHEN_RECOVERABLE : bool;
  LTRC_NO_RECOVERY_ON_SVC_FI : bool;
  LTRC_REHANDLE_REQUEST : bool;
}.

(** ** Windows *)

Definition upd_site (site_id : Z) (f : wshutter_prof → wshutter_prof) (s : rwin) : rwin :=
  let i := u32 site_id in
  set_g_shutter_board (upd (g_shutter_board s) i
    (set_prof (f (prof (g_shutter_board s i))) (g_shutter_board s i))) s.

Definition inc_num_end (site_id : Z) : rwin → rwin :=
  upd_site site_id (λ p, set_num_end (u64 (num_end p + 1)) p).

Definition MARK_SITE_IF_BOUNDARY (site_id to_mask : Z) (s : rwin) : rwin :=
  if truthy (wprof_enable_stats s) && negb (to_mask =? Z.land (g_recovery_bitmask s) to_mask)
  then inc_num_end site_id s else s.

(** The condition of [CHECK_SHUTTER_BOARD_SIZE] under which a hook returns at once. *)
Definition outside_shutter_board (index : Z) (s : rwin) : bool :=
  (g_num_window_shutters s <=? index) && (index <=? LTCKPT_SHUTTER_BOARD_IPC_END)
  || (LTCKPT_SHUTTER_BOARD_IPC_END <? index)
     && (u64 (LTCKPT_SHUTTER_BOARD_IPC_END + g_num_kernelcall_shutters s) <? index).

Definition ltckpt_detect_start_of_window_hook (s : rwin) : rwin :=
  let s :=
    if negb (truthy (prior_have_handled_message s)) && truthy (have_handled_message s) then
      let s := set_sa_window__is_open 1 s in
      let s := set_g_recovery_bitmask LTCKPT_RECOVERY_MASK_IDEMPOTENT s in
      let s := set_g_recovery_bitmask_reason None s in
      let s := set_callsites [] s in
      let s := set_total_count 0 s in
      let s := set_inside_trusted_compute_base 0 s in
      if truthy (wprof_enable_stats s) then
        set_g_num_window_opens (u64 (g_num_window_opens s + 1)) (set_wprof_currwindow_bb_in 0 s)
      else s
    else if truthy (prior_have_handled_message s) && negb (truthy (have_handled_message s)) then
      set_inside_trusted_compute_base 1 (set_sa_window__is_open 0 s)
    else s in
  set_prior_have_handled_message (have_handled_message s) s.

(** [ltckpt_close_r_window]: the new state and the returned status. *)
Definition ltckpt_close_r_window (s : rwin) : Z * rwin :=
  if truthy (have_handled_message s) && truthy (sa_window__is_open s) then
    let s := set_sa_window__is_open 0 s in
    (1, if truthy (wprof_enable_stats s) then set_rwindow_end (u64 (rwindow_end s + 1)) s else s)
  else (0, s).

Definition transit_prof (s : rwin) (p : wshutter_prof) : wshutter_prof :=
  let cur := wprof_currwindow_bb_in s in
  let p := if g_first_bb_in p =? 0 then set_g_first_bb_in (rwindow_bb_in s) p else p in
  let p := set_g_last_bb_in (rwindow_bb_in s) p in
  let p := if (min_bb_in p =? 0) || (cur <? min_bb_in p) then set_min_bb_in cur p else p in
  let p := if max_bb_in p <? cur then set_max_bb_in cur p else p in
  if truthy (sa_window__is_open s) then set_num_in_window (u64 (num_in_window p + 1)) p else p.

(** [ltckpt_transit_window], which always returns 0. *)
Definition ltckpt_transit_window (site_id : Z) (s : rwin) : rwin :=
  if outside_shutter_board site_id s then s else
  let s := upd_site site_id (λ p, set_sp_num_hits (u64 (sp_num_hits p + 1)) p) s in
  if truthy (wprof_enable_stats s) then upd_site site_id (transit_prof s) s else s.

(** ** Policies *)

Definition or_bitmask (m : Z) (s : rwin) : rwin :=
  set_g_recovery_bitmask (Z.lor (g_recovery_bitmask s) m) s.

Definition ltckpt_set_idempotent_recovery (site_id : Z) (s : rwin) : rwin :=
  or_bitmask LTCKPT_RECOVERY_MASK_IDEMPOTENT (ltckpt_transit_window site_id s).

Definition ltckpt_set_request_specific_recovery (site_id : Z) (s : rwin) : rwin :=
  or_bitmask LTCKPT_RECOVERY_MASK_IDEMPOTENT (ltckpt_transit_window site_id s).

Definition ltckpt_set_process_local_recovery (site_id : Z) (s : rwin) : rwin :=
  let s := ltckpt_transit_window site_id s in
  let s := MARK_SITE_IF_BOUNDARY site_id LTCKPT_RECOVERY_MASK_PROCESS_SPECIFIC s in
  or_bitmask LTCKPT_RECOVERY_MASK_PROCESS_SPECIFIC s.

Definition ltckpt_add_site_id (site_id : Z) (s : rwin) : rwin :=
  if bool_decide (site_id ∈ callsites s) then s
  else if zlen (callsites s) <? RECOVERY_BITMASK_CALLSITE_COUNT
       then set_callsites (callsites s ++ [site_id]) s else s.

Definition ltckpt_set_fail_stop_recovery (site_id : Z) (s : rwin) : rwin :=
  let s := ltckpt_transit_window site_id s in
  let s := snd (ltckpt_close_r_window s) in
  let s := MARK_SITE_IF_BOUNDARY site_id LTCKPT_RECOVERY_MASK_FAIL_STOP s in
  let s := or_bitmask LTCKPT_RECOVERY_MASK_FAIL_STOP s in
  let s := set_g_recovery_bitmask_reason
    (Some (lit "ltckpt recovery: window closed: ltckpt_set_fail_stop_recovery")) s in
  let s := ltckpt_add_site_id site_id s in
  set_total_count (u64 (total_count s + 1)) s.

Definition ltckpt_set_naive_recovery (mode : Z) (s : rwin) : rwin := set_g_recovery_naive_mode mode s.

Definition ltckpt_is_req_rehandling (s : rwin) : Z :=
  Z.land (g_recovery_bitmask s) LTCKPT_RECOVERY_REPROCESSING_REQ.
Definition ltckpt_activate_req_rehandling : rwin → rwin := or_bitmask LTCKPT_RECOVERY_REPROCESSING_REQ.
Definition ltckpt_deactivate_req_rehandling (s : rwin) : rwin :=
  set_g_recovery_bitmask
    (Z.land (g_recovery_bitmask s) (Z.lnot LTCKPT_RECOVERY_REPROCESSING_REQ)) s.

(** ** Log lines *)

(** A buffer of [cap] bytes filled with [buf]; [hypermem_cat] appends what fits before the
    terminator. *)
Definition hypermem_cat (cap : Z) (buf s : cstr) : cstr :=
  if cap <=? zlen buf then buf
  else
    let avail := cap - zlen buf in
    let len := if avail <=? zlen s then avail - 1 else zlen s in
    buf ++ take (Z.to_nat len) s.

Definition LLONG_MIN : Z := -9223372036854775808.

(** [hypermem_cat_num]: the number is written from the end of a buffer of 20 bytes;
    [None] where the code overflows it, or negates the least [long long]. *)
Definition hypermem_cat_num (cap : Z) (buf : cstr) (n : Z) : option cstr :=
  if n =? LLONG_MIN then None else
  let neg := n <? 0 in
  let s := dec (Z.abs n) in
  if 20 <? zlen s + 1 + (if neg then 1 else 0) then None
  else Some (hypermem_cat cap buf ((if neg then lit "-" else []) ++ s)).

(** The text [hypermem_log] prints for [msg]. *)
Definition log_line (name msg : cstr) : cstr :=
  hypermem_cat 1024 (hypermem_cat 1024 (hypermem_cat 1024 [] msg) (lit "; module=")) name.

(** Conversion of a 64-bit counter to [long long]. *)
Definition s64 (z : Z) : Z := swrap 64 z.

(** The buffer [hypermem_log_callsites] builds. *)
Fixpoint cat_sites (buf : cstr) (first : bool) (l : list Z) : option cstr :=
  match l with
  | [] => Some buf
  | i :: l' =>
      let buf := if first then buf else hypermem_cat 1024 buf (lit ", ") in
      buf ← hypermem_cat_num 1024 buf (s64 i);
      cat_sites buf false l'
  end.

Definition callsites_text (s : rwin) : option cstr :=
  let buf := hypermem_cat 1024 [] (lit "ltckpt recovery: window closed ") in
  buf ← hypermem_cat_num 1024 buf (s64 (total_count s));
  let buf := hypermem_cat 1024 buf (lit " times from ") in
  buf ← hypermem_cat_num 1024 buf (zlen (callsites s));
  let buf := hypermem_cat 1024 buf (lit " callsite(s): ") in
  cat_sites buf true (callsites s).

Definition nonreplyable_text (msgtype r : Z) : option cstr :=
  let buf := hypermem_cat 1024 [] (lit "ltckpt recovery: ") in
  let buf := hypermem_cat 1024 buf
    (if r =? LTCKPT_RECOVERY_SUCCESS then lit "success" else lit "failed") in
  let buf := hypermem_cat 1024 buf (lit ": non-replyable message: ") in
  hypermem_cat_num 1024 buf msgtype.

(** ** Recovery *)

Section Recover.
Context {os : Type} `{minix : Minix os} `{opts : Options}.

Abbreviation P := (prog (rwin * os)).

Definition getw {A} (f : rwin → A) : P A := gets (λ s, f s.1).
Definition putw (f : rwin → rwin) : P () := modify (λ s, (f s.1, s.2)).
Definition sys {A} (f : os → A * os) : P A := λ s, let '(a, o) := f s.2 in Ok a (s.1, o).

Definition hypermem_log (msg : cstr) : P () :=
  modify (λ s, (s.1, hypermem_printstr (log_line (g_module_name s.1) msg) s.2)).

(** Log a text that was built in a buffer. *)
Definition log_buffer (t : option cstr) : P () :=
  match t with Some t => hypermem_log t | None => halt Undefined end.

Definition hypermem_log_callsites : P () := t ← getw callsites_text; log_buffer t.
Definition hypermem_log_nonreplyable (msgtype r : Z) : P () := log_buffer (nonreplyable_text msgtype r).

(** [ltckpt_is_message_replyable]: the result, the flag of a fault-injection request and
    the type of the message, each as the caller initialised it if not written. *)
Definition ltckpt_is_message_replyable : P (Z * Z * Z) :=
  if negb msg_available then mret (NOT_OK, 0, 0) else
  m ← gets (λ s, sef_get_current_message s.2);
  match m with
  | None => mret (NOT_OK, 0, 0)
  | Some (msg, replyable) =>
      mret (replyable,
        if (RS_PROC_NR =? m_source msg) && (m_type msg =? COMMON_REQ_FI_CTL) then 1 else 0,
        m_type msg)
  end.

Definition ltckpt_send_reply (msg : message) : P Z :=
  let msg := mk_message (m_source msg) ERESTART in
  assert (m_type msg <? 0) ;;
  r ← sys (asynsend (m_source msg) msg);
  mret (if r =? RW_OK then RW_OK else NOT_OK).

Definition ltckpt_recovery_idempotent : P Z :=
  if negb msg_available then
    hypermem_log (lit "ltckpt recovery: failed: idempotent: sef_get_current_message() not available") ;;
    mret LTCKPT_RECOVERY_FAILURE
  else
  m ← gets (λ s, sef_get_current_message s.2);
  match m with
  | None =>
      hypermem_log (lit "ltckpt recovery: failed: idempotent: unable to fetch last handled message") ;;
      mret LTCKPT_RECOVERY_FAILURE
  | Some (msg, replyable) =>
      let success :=
        hypermem_log (lit "ltckpt recovery: success: idempotent") ;; mret LTCKPT_RECOVERY_SUCCESS in
      if LTRC_REHANDLE_REQUEST then
        if (RS_PROC_NR =? m_source msg) && (m_type msg =? COMMON_REQ_FI_CTL)
        then mret LTCKPT_RECOVERY_SUCCESS
        else putw ltckpt_activate_req_rehandling ;; success
      else
        mode ← getw g_recovery_naive_mode;
        if negb (truthy replyable) && negb (mode =? LTCKPT_RECOVERY_NAIVE_MODE_ALWAYS_REPLY) then
          hypermem_log (lit "ltckpt recovery: failed: idempotent: unreplyable request") ;;
          mret LTCKPT_RECOVERY_FAILURE
        else
        r ← ltckpt_send_reply msg;
        if NOT_OK =? r then
          hypermem_log (lit "ltckpt recovery: failed: idempotent: couldn't send error message") ;;
          mret LTCKPT_RECOVERY_FAILURE
        else success
  end.

Definition ltckpt_recovery_request_specific : P Z := ltckpt_recovery_idempotent.

Definition ltckpt_recovery_process_specific : P Z :=
  if negb msg_available || negb usr_endpoint_available then
    hypermem_log (lit "ltckpt recovery: failed: process_specific: unable to find necessary sef_llvm method") ;;
    mret LTCKPT_RECOVERY_FAILURE
  else
  m ← gets (λ s, sef_get_current_message s.2);
  match m with
  | None =>
      hypermem_log (lit "ltckpt recovery: failed: process_specific: unable to fetch last handled message") ;;
      mret LTCKPT_RECOVERY_FAILURE
  | Some (msg, _) =>
      let source := m_source msg in
      ret ← gets (λ s, sef_llvm_is_user_endpoint source s.2);
      if 1 =? ret then
        r ← sys (sys_kill source);
        if r =? RW_OK then
          hypermem_log (lit "ltckpt recovery: success: killed user process") ;;
          mret LTCKPT_RECOVERY_SUCCESS
        else if r =? E_INVAL then
          hypermem_log (lit "ltckpt recovery: success: user process is invalid") ;;
          mret LTCKPT_RECOVERY_SUCCESS
        else
          hypermem_log (lit "ltckpt recovery: failed: process_specific: unable to kill user process") ;;
          mret LTCKPT_RECOVERY_FAILURE
      else if 0 =? ret then
        r ← ltckpt_send_reply msg;
        if NOT_OK =? r then
          hypermem_log (lit "ltckpt recovery: failed: process_specific: unable to send reply") ;;
          mret LTCKPT_RECOVERY_FAILURE
        else mret LTCKPT_RECOVERY_SUCCESS
      else
        hypermem_log (lit "ltckpt recovery: failed: process_specific: error in figuring out whether source was user process") ;;
        mret LTCKPT_RECOVERY_FAILURE
  end.

Definition ltckpt_recovery_fail_stop : P Z :=
  hypermem_log (lit "ltckpt recovery: shutdown: fail_stop") ;;
  r ← sys sys_abort;
  mret (if r =? RW_OK then LTCKPT_RECOVERY_SUCCESS else LTCKPT_RECOVERY_FAILURE).

(** The choice of the action for a replyable message: the most restrictive policy set. *)
Definition run_policy : P Z :=
  mask ← getw g_recovery_bitmask;
  if truthy (Z.land mask LTCKPT_RECOVERY_MASK_FAIL_STOP) then
    reason ← getw g_recovery_bitmask_reason;
    hypermem_log (default (lit "ltckpt recovery: window closed: reason unknown") reason) ;;
    hypermem_log_callsites ;;
    ltckpt_recovery_fail_stop
  else if truthy (Z.land mask LTCKPT_RECOVERY_MASK_PROCESS_SPECIFIC) then
    ltckpt_recovery_process_specific
  else if truthy (Z.land mask LTCKPT_RECOVERY_MASK_REQUEST_SPECIFIC) then
    ltckpt_recovery_request_specific
  else if truthy (Z.land mask LTCKPT_RECOVERY_MASK_IDEMPOTENT) then
    ltckpt_recovery_idempotent
  else
    hypermem_log (lit "ltckpt recovery: failed: invalid g_recovery_bitmask bitmask") ;;
    mret LTCKPT_RECOVERY_FAILURE.

Definition ltckpt_recovery_dispatcher : P Z :=
  hypermem_log (lit "ltckpt recovery: start recovery attempt") ;;
  putw (set_inside_trusted_compute_base 1) ;;
  m ← ltckpt_is_message_replyable;
  let '(replyable, rs_fi_flag, msgtype) := m in
  if LTRC_NO_RECOVERY_ON_SVC_FI && truthy rs_fi_flag then
    hypermem_log (lit "ltckpt recovery: success: RS_FI_CUSTOM") ;;
    mret LTCKPT_RECOVERY_SUCCESS
  else
  mode ← getw g_recovery_naive_mode;
  let replyable :=
    if mode =? LTCKPT_RECOVERY_NAIVE_MODE_NEVER_REPLY then 0
    else if mode =? LTCKPT_RECOVERY_NAIVE_MODE_ALWAYS_REPLY then 1
    else replyable in
  r ← (if replyable =? 1 then run_policy
       else if replyable =? 0 then
         hypermem_log_nonreplyable msgtype LTCKPT_RECOVERY_FAILURE ;; mret LTCKPT_RECOVERY_FAILURE
       else if replyable =? -1 then
         hypermem_log (lit "ltckpt recovery: failed: havent handled message") ;;
         mret LTCKPT_RECOVERY_FAILURE
       else
         hypermem_log (lit "ltckpt recovery: failed: bad ltckpt_is_message_replyable result") ;;
         mret LTCKPT_RECOVERY_FAILURE);
  mode ← getw g_recovery_naive_mode;
  let r := if negb (mode =? LTCKPT_RECOVERY_NAIVE_MODE_DEFAULT) then LTCKPT_RECOVERY_SUCCESS else r in
  if r =? LTCKPT_RECOVERY_FAILURE then
    hypermem_log (lit "ltckpt recovery: shutdown") ;;
    sys sys_abort ;;
    mret r
  else mret r.

(** ** Injected faults *)

(** [ltckpt_do_suicide]: the write through NULL raises a fault. *)
Definition ltckpt_do_suicide : P () :=
  when LTRC_SUICIDE_ONLY_ONCE (putw (set_suicide_on_window_close 0)) ;;
  tcb ← getw inside_trusted_compute_base;
  if truthy tcb then skip else
  mask ← getw g_recovery_bitmask;
  if negb (mask =? LTCKPT_RECOVERY_MASK_IDEMPOTENT) then skip else
  halt Sigsegv.

Definition ltckpt_do_suicide_per_site (site_id : Z) : P Z :=
  out ← getw (outside_shutter_board site_id);
  if out : bool then mret 0 else
  let index := u32 site_id in
  tcb ← getw inside_trusted_compute_base;
  if truthy tcb then mret 0 else
  init ← getw sef_init_done;
  if negb (truthy init) then putw (set_inside_trusted_compute_base 1) ;; mret 0 else
  if negb msg_available then mret 0 else
  armed ← getw (λ s, truthy (sa_window__is_open s) && (0 <? do_suicide (g_shutter_board s index))
                     && truthy (suicide_on_window_close s));
  if negb armed then mret 0 else
  m ← gets (λ s, sef_get_current_message s.2);
  match m with
  | None => mret 0
  | Some (msg, _) =>
      if m_source msg =? RS_PROC_NR then mret 0 else
      rep ← ltckpt_is_message_replyable;
      if LTRC_SUICIDE_WHEN_RECOVERABLE && negb (1 =? rep.1.1) then mret 0 else
      putw (λ s, set_g_shutter_board (upd (g_shutter_board s) index
                   (set_do_suicide 0 (g_shutter_board s index))) s) ;;
      ltckpt_do_suicide ;;
      mret 0
  end.

End Recover.

(** ** The window as a state machine *)

(** What happens to a server: a message begins or ends (with the hook that watches for it),
    and call sites of the four policies are passed. *)
Inductive wevent :=
  | Message (handled : bool)
  | Idempotent (site_id : Z)
  | RequestSpecific (site_id : Z)
  | ProcessLocal (site_id : Z)
  | FailStop (site_id : Z).

Definition wevent_step (e : wevent) (s : rwin) : rwin :=
  match e with
  | Message h =>
      ltckpt_detect_start_of_window_hook (set_have_handled_message (if h then 1 else 0) s)
  | Idempotent i => ltckpt_set_idempotent_recovery i s
  | RequestSpecific i => ltckpt_set_request_specific_recovery i s
  | ProcessLocal i => ltckpt_set_process_local_recovery i s
  | FailStop i => ltckpt_set_fail_stop_recovery i s
  end.

Inductive wreach (s0 : rwin) : rwin → Prop :=
  | wreach_init : wreach s0 s0
  | wreach_step s e : wreach s0 s → wreach s0 (wevent_step e s).

(** The state of a server before its first message. *)
Definition rwin_start (s : rwin) : Prop :=
  sa_window__is_open s = 0 ∧ inside_trusted_compute_base s = 1 ∧
  prior_have_handled_message s = 0 ∧ have_handled_message s = 0 ∧
  g_recovery_bitmask s = LTCKPT_RECOVERY_MASK_IDEMPOTENT ∧ callsites s = [].

Record winv (s : rwin) : Prop := {
  wi_seen : prior_have_handled_message s = have_handled_message s;
  wi_open : sa_window__is_open s ≠ 0 →
    have_handled_message s ≠ 0 ∧ inside_trusted_compute_base s = 0 ∧
    Z.testbit (g_recovery_bitmask s) 3 = false ∧ callsites s = [] ∧ total_count s = 0;
  wi_tcb : have_handled_message s = 0 → inside_trusted_compute_base s = 1;
  wi_mask : ∀ n, Z.testbit (g_recovery_bitmask s) n = true → n = 0 ∨ n = 2 ∨ n = 3;
  wi_idem : Z.testbit (g_recovery_bitmask s) 0 = true;
  wi_sites : NoDup (callsites s) ∧ zlen (callsites s) <= RECOVERY_BITMASK_CALLSITE_COUNT;
}.

(** Hooks that only touch the profile of sites keep the rest of the state. *)
Definition same_window (s s' : rwin) : Prop :=
  prior_have_handled_message s' = prior_have_handled_message s ∧
  have_handled_message s' = have_handled_message s ∧
  sa_window__is_open s' = sa_window__is_open s ∧
  inside_trusted_compute_base s' = inside_trusted_compute_base s ∧
  g_recovery_bitmask s' = g_recovery_bitmask s ∧ callsites s' = callsites s ∧
  total_count s' = total_count s.

Lemma transit_same i s : same_window s (ltckpt_transit_window i s).
Proof. unfold ltckpt_transit_window. by repeat case_match. Qed.

Lemma mark_same i m s : same_window s (MARK_SITE_IF_BOUNDARY i m s).
Proof. unfold MARK_SITE_IF_BOUNDARY. by case_match. Qed.

Lemma winv_same s s' : same_window s s' → winv s → winv s'.
Proof.
  intros (H1 & H2 & H3 & H4 & H5 & H6 & H7) [? ? ? ? ? ?].
  split; rewrite ?H1, ?H2, ?H3, ?H4, ?H5, ?H6, ?H7; done.
Qed.

(** Adding the bit of a policy other than fail-stop. *)
Lemma winv_or k s : k = 0 ∨ k = 2 → winv s → winv (or_bitmask (2 ^ k) s).
Proof.
  intros Hk [H1 H2 H3 H4 H5 H6]. unfold or_bitmask.
  assert (∀ n, Z.testbit (Z.lor (g_recovery_bitmask s) (2 ^ k)) n =
    Z.testbit (g_recovery_bitmask s) n || (n =? k)) as Hb.
  { intros n. rewrite Z.lor_spec. f_equal. rewrite Z.pow2_bits_eqb by lia. apply Z.eqb_sym. }
  split; cbn -[Z.testbit Z.lor Z.pow]; try done.
  - intros Ho. destruct (H2 Ho) as (? & ? & Hf & ? & ?). split_and!; try done.
    rewrite Hb, Hf. destruct Hk as [->| ->]; done.
  - intros n. rewrite Hb, orb_true_iff, Z.eqb_eq. intros [Hn| ->]; [by apply H4|tauto].
  - by rewrite Hb, H5.
Qed.

Lemma winv_fail_stop i s : winv s → winv (ltckpt_set_fail_stop_recovery i s) ∧
  sa_window__is_open (ltckpt_set_fail_stop_recovery i s) = 0 ∧
  Z.testbit (g_recovery_bitmask (ltckpt_set_fail_stop_recovery i s)) 3 = true.
Proof.
  intros Hi. unfold ltckpt_set_fail_stop_recovery.
  pose proof (winv_same _ _ (transit_same i s) Hi) as H0. set (s0 := ltckpt_transit_window i s) in *.
  assert (∃ s1, (ltckpt_close_r_window s0).2 = s1 ∧ winv s1 ∧ sa_window__is_open s1 = 0)
    as (s1 & -> & H1 & Hc).
  { eexists. split; [done|]. unfold ltckpt_close_r_window.
    destruct (truthy (have_handled_message s0) && truthy (sa_window__is_open s0)) eqn:E.
    - destruct H0 as [? ? ? ? ? ?]. destruct (truthy (wprof_enable_stats _)); (split; [|done]);
        split; cbn; done.
    - cbn. split; [done|]. destruct (decide (sa_window__is_open s0 = 0)) as [|Hne]; [done|].
      destruct (wi_open _ H0 Hne) as [Hh _].
      by rewrite (proj2 (truthy_true _) Hh), (proj2 (truthy_true _) Hne) in E. }
  pose proof (mark_same i LTCKPT_RECOVERY_MASK_FAIL_STOP s1) as Hm.
  pose proof (winv_same _ _ Hm H1) as H2. destruct Hm as (_ & _ & Hop & _).
  set (s2 := MARK_SITE_IF_BOUNDARY i LTCKPT_RECOVERY_MASK_FAIL_STOP s1) in *. rewrite Hc in Hop.
  destruct H2 as [W1 W2 W3 W4 W5 W6].
  assert (∀ n, Z.testbit (Z.lor (g_recovery_bitmask s2) LTCKPT_RECOVERY_MASK_FAIL_STOP) n =
    Z.testbit (g_recovery_bitmask s2) n || (n =? 3)) as Hb.
  { intros n. rewrite Z.lor_spec. f_equal. change LTCKPT_RECOVERY_MASK_FAIL_STOP with (2 ^ 3).
    rewrite Z.pow2_bits_eqb by lia. apply Z.eqb_sym. }
  assert (∀ n, Z.testbit (Z.lor (g_recovery_bitmask s2) LTCKPT_RECOVERY_MASK_FAIL_STOP) n = true →
    n = 0 ∨ n = 2 ∨ n = 3) as Hb'.
  { intros n. rewrite Hb, orb_true_iff, Z.eqb_eq. intros [Hn| ->]; [by apply W4|tauto]. }
  unfold ltckpt_add_site_id. cbn -[Z.testbit Z.lor bool_decide].
  case_bool_decide as Hin; [|destruct (Z.ltb_spec (zlen (callsites s2)) RECOVERY_BITMASK_CALLSITE_COUNT)];
    (split_and!; [split|done|cbn -[Z.testbit Z.lor]; rewrite Hb; apply orb_true_r]);
    cbn -[Z.testbit Z.lor]; rewrite ?Hb, ?W5; try done; try lia.
  destruct W6 as [Hnd Hl]. split.
  - apply NoDup_app. split_and!; [done| |apply NoDup_singleton]. set_solver.
  - rewrite length_app. cbn. lia.
Qed.

Lemma testbit_one n : Z.testbit LTCKPT_RECOVERY_MASK_IDEMPOTENT n = true → n = 0.
Proof.
  change LTCKPT_RECOVERY_MASK_IDEMPOTENT with (2 ^ 0). rewrite Z.pow2_bits_eqb by lia.
  intros H%Z.eqb_eq. done.
Qed.

Lemma winv_message h s : winv s → winv (wevent_step (Message h) s).
Proof.
  intros [W1 W2 W3 W4 W5 W6]. unfold wevent_step, ltckpt_detect_start_of_window_hook.
  cbn -[truthy]. rewrite W1. destruct h; cbn -[truthy].
  - change (truthy 1) with true. rewrite andb_true_r, andb_false_r.
    destruct (truthy (have_handled_message s)) eqn:E; cbn -[truthy].
    + apply truthy_true in E. split; cbn; try done.
      intros Ho. destruct (W2 Ho) as (? & ? & ? & ? & ?). done.
    + destruct (truthy (wprof_enable_stats s)); split; cbn -[Z.testbit]; try done;
        try (by intros n Hn%testbit_one; left); split; done || apply NoDup_nil_2.
  - change (truthy 0) with false. rewrite andb_false_r, andb_true_r.
    destruct (truthy (have_handled_message s)) eqn:E; cbn -[truthy].
    + split; cbn; try done.
    + apply truthy_false in E. split; cbn; try done; [|by intros _; apply W3].
      intros Ho. by destruct (W2 Ho).
Qed.

Lemma winv_start s : rwin_start s → winv s.
Proof.
  intros (H1 & H2 & H3 & H4 & H5 & H6).
  split; rewrite ?H1, ?H2, ?H3, ?H4, ?H5, ?H6; try done.
  - by intros n Hn%testbit_one; left.
  - split; [apply NoDup_nil_2|done].
Qed.

Lemma winv_step e s : winv s → winv (wevent_step e s).
Proof.
  intros Hi. destruct e as [h|i|i|i|i]; cbn [wevent_step].
  - by apply (winv_message h).
  - apply (winv_or 0); [by left|]. by eapply winv_same; [apply transit_same|].
  - apply (winv_or 0); [by left|]. by eapply winv_same; [apply transit_same|].
  - apply (winv_or 2); [by right|]. eapply winv_same; [apply mark_same|].
    by eapply winv_same; [apply transit_same|].
  - by apply winv_fail_stop.
Qed.

Lemma wreach_inv s0 s : rwin_start s0 → wreach s0 s → winv s.
Proof. intros H0. induction 1; [by apply winv_start|by apply winv_step]. Qed.

(** While a message is handled, only the fail-stop policy keeps the window closed. *)
Definition closed_by_policy (s : rwin) : Prop :=
  have_handled_message s ≠ 0 → Z.testbit (g_recovery_bitmask s) 3 = false → sa_window__is_open s ≠ 0.

(** Events other than a fail-stop call site and a new message leave the window, the message and the
    bit of the fail-stop policy alone. *)
Lemma or_bit3 k s : k = 0 ∨ k = 2 →
  Z.testbit (g_recovery_bitmask (or_bitmask (2 ^ k) s)) 3 = Z.testbit (g_recovery_bitmask s) 3.
Proof.
  intros Hk. unfold or_bitmask. cbn [g_recovery_bitmask set_g_recovery_bitmask].
  rewrite Z.lor_spec, Z.pow2_bits_false, orb_false_r; [done|]. destruct Hk as [->| ->]; lia.
Qed.

Lemma policy_step_keeps e s : (∀ h, e ≠ Message h) → (∀ i, e ≠ FailStop i) →
  have_handled_message (wevent_step e s) = have_handled_message s ∧
  sa_window__is_open (wevent_step e s) = sa_window__is_open s ∧
  Z.testbit (g_recovery_bitmask (wevent_step e s)) 3 = Z.testbit (g_recovery_bitmask s) 3.
Proof.
  intros Hm Hf.
  assert (∀ k s', k = 0 ∨ k = 2 → same_window s s' →
    have_handled_message (or_bitmask (2 ^ k) s') = have_handled_message s ∧
    sa_window__is_open (or_bitmask (2 ^ k) s') = sa_window__is_open s ∧
    Z.testbit (g_recovery_bitmask (or_bitmask (2 ^ k) s')) 3 = Z.testbit (g_recovery_bitmask s) 3) as Hor.
  { intros k s' Hk (_ & H2 & H3 & _ & H5 & _). rewrite or_bit3, H5 by done. cbn. by rewrite H2, H3. }
  destruct e as [h|i|i|i|i]; [by destruct (Hm h)|..|by destruct (Hf i)]; cbn [wevent_step].
  - apply (Hor 0); [by left|apply transit_same].
  - apply (Hor 0); [by left|apply transit_same].
  - apply (Hor 2); [by right|].
    pose proof (transit_same i s) as (H1 & H2 & H3 & H4 & H5 & H6 & H7).
    pose proof (mark_same i LTCKPT_RECOVERY_MASK_PROCESS_SPECIFIC (ltckpt_transit_window i s))
      as (M1 & M2 & M3 & M4 & M5 & M6 & M7). split_and!; congruence.
Qed.

(** A message that ends closes the window, one that begins opens it. *)
Lemma message_step h s : prior_have_handled_message s = have_handled_message s →
  let s' := wevent_step (Message h) s in
  have_handled_message s' = (if h then 1 else 0) ∧
  (if h then
     if truthy (have_handled_message s)
     then sa_window__is_open s' = sa_window__is_open s ∧ g_recovery_bitmask s' = g_recovery_bitmask s
     else sa_window__is_open s' ≠ 0 ∧ g_recovery_bitmask s' = LTCKPT_RECOVERY_MASK_IDEMPOTENT
   else g_recovery_bitmask s' = g_recovery_bitmask s).
Proof.
  intros Hp. unfold wevent_step, ltckpt_detect_start_of_window_hook. cbn -[truthy]. rewrite Hp.
  destruct h; cbn -[truthy].
  - change (truthy 1) with true. rewrite andb_true_r, andb_false_r.
    destruct (truthy (have_handled_message s)); cbn -[truthy]; [done|].
    by destruct (truthy (wprof_enable_stats s)).
  - change (truthy 0) with false. rewrite andb_false_r, andb_true_r.
    by destruct (truthy (have_handled_message s)).
Qed.

Lemma closed_step e s : winv s → closed_by_policy s → closed_by_policy (wevent_step e s).
Proof.
  intros Hi Hc.
  assert ((∀ h, e ≠ Message h) → (∀ i, e ≠ FailStop i) → closed_by_policy (wevent_step e s)) as Hk.
  { intros Hm Hf. destruct (policy_step_keeps e s Hm Hf) as (H1 & H2 & H3). unfold closed_by_policy.
    by rewrite H1, H2, H3. }
  destruct e as [h|i|i|i|i]; try (by apply Hk).
  - destruct (message_step h s (wi_seen _ Hi)) as [H1 H2]. unfold closed_by_policy. rewrite H1.
    destruct h; [|done]. destruct (truthy (have_handled_message s)) eqn:E; destruct H2 as [Ho Hb]; [|done].
    rewrite Ho, Hb. intros _. apply Hc. by apply truthy_true.
  - destruct (winv_fail_stop i s Hi) as (_ & _ & Hf). unfold closed_by_policy. cbn [wevent_step].
    rewrite Hf. done.
Qed.

Lemma wreach_closed s0 s : rwin_start s0 → wreach s0 s → closed_by_policy s.
Proof.
  intros H0. induction 1 as [|s e Hr IH].
  - destruct H0 as (_ & _ & _ & H4 & _). unfold closed_by_policy. by rewrite H4.
  - apply closed_step; [by eapply wreach_inv|done].
Qed.

(** The bit of the fail-stop policy is cleared by nothing but the opening of a window. *)
Lemma fail_stop_stays e s : winv s → Z.testbit (g_recovery_bitmask s) 3 = true →
  Z.testbit (g_recovery_bitmask (wevent_step e s)) 3 = true ∨
  e = Message true ∧ have_handled_message s = 0 ∧ sa_window__is_open (wevent_step e s) ≠ 0.
Proof.
  intros Hi Hb.
  assert ((∀ h, e ≠ Message h) → (∀ i, e ≠ FailStop i) →
    Z.testbit (g_recovery_bitmask (wevent_step e s)) 3 = true) as Hk.
  { intros Hm Hf. by destruct (policy_step_keeps e s Hm Hf) as (_ & _ & ->). }
  destruct e as [h|i|i|i|i]; try (left; by apply Hk).
  - destruct (message_step h s (wi_seen _ Hi)) as [_ H2].
    destruct h; [|left; by rewrite H2].
    destruct (truthy (have_handled_message s)) eqn:E; destruct H2 as [Ho H2]; [left; by rewrite H2|].
    right. split_and!; [done|by apply truthy_false|done].
  - left. by apply winv_fail_stop.
Qed.

(** C9: The window of a server is closed exactly when recovery is no longer possible. In every state
    a server reaches by messages that begin and end and call sites of the four policies, the window
    is open if and only if a message is being handled and the bit of the fail-stop policy is not
    set. Passing a fail-stop call site closes the window at once and sets the bit, and any other step
    leaves a bit that is set as it is, but for the beginning of a new message, which opens the next
    window. The bit of idempotent recovery is always set; the call sites recorded are distinct and
    at most 64. *)
Theorem window_policy_invariant (s0 s : rwin) :
  rwin_start s0 → wreach s0 s →
  (sa_window__is_open s ≠ 0 ↔
    have_handled_message s ≠ 0 ∧ Z.testbit (g_recovery_bitmask s) 3 = false) ∧
  (∀ i, sa_window__is_open (wevent_step (FailStop i) s) = 0 ∧
        Z.testbit (g_recovery_bitmask (wevent_step (FailStop i) s)) 3 = true) ∧
  (∀ e, Z.testbit (g_recovery_bitmask s) 3 = true →
     Z.testbit (g_recovery_bitmask (wevent_step e s)) 3 = true ∨
     e = Message true ∧ have_handled_message s = 0 ∧ sa_window__is_open (wevent_step e s) ≠ 0) ∧
  Z.testbit (g_recovery_bitmask s) 0 = true ∧
  NoDup (callsites s) ∧ zlen (callsites s) <= RECOVERY_BITMASK_CALLSITE_COUNT.
Proof.
  intros H0 Hr. pose proof (wreach_inv s0 s H0 Hr) as Hi.
  pose proof (wreach_closed s0 s H0 Hr) as Hc. pose proof Hi as [? Ho ? ? ? [? ?]].
  split_and!; try done.
  - split; [|intros [? ?]; by apply Hc]. intros Hop. by destruct (Ho Hop) as (? & _ & ? & _).
  - intros i. by destruct (winv_fail_stop i s Hi).
  - intros e. by apply fail_stop_stays.
Qed.

Definition shutter0 : window_shutter := mk_shutter 0 (mk_shutter_prof 0 0 0 0 0 0 0).
Definition rwin0 : rwin :=
  mk_rwin 0 0 1 0 0 1 1 0 None [] 0 1 0 0 0 0 (λ _, shutter0) 10 0 (lit "vfs").

Lemma window_policy_invariant_witness :
  let s := wevent_step (ProcessLocal 3) (wevent_step (Message true) rwin0) in
  (sa_window__is_open s ≠ 0 ↔
    have_handled_message s ≠ 0 ∧ Z.testbit (g_recovery_bitmask s) 3 = false) ∧
  sa_window__is_open (wevent_step (FailStop 4) s) = 0.
Proof.
  intros s. destruct (window_policy_invariant rwin0 s) as (Ho & Hf & _).
  - by vm_compute.
  - apply wreach_step, wreach_step, wreach_init.
  - split; [exact Ho|]. by destruct (Hf 4).
Defined.

(** ** Log lines fit their buffers *)

Lemma hypermem_cat_take cap buf s :
  zlen buf < cap → hypermem_cat cap buf s = take (Z.to_nat (cap - 1)) (buf ++ s).
Proof.
  intros Hb. unfold hypermem_cat. rewrite (proj2 (Z.leb_gt _ _)) by done.
  rewrite take_app, (take_ge buf) by lia. f_equal.
  destruct (Z.leb_spec (cap - zlen buf) (zlen s)).
  - f_equal. lia.
  - rewrite !take_ge; [done|lia..].
Qed.

Lemma length_hypermem_cat cap buf s : zlen buf < cap → zlen (hypermem_cat cap buf s) < cap.
Proof. intros Hb. rewrite hypermem_cat_take by done. rewrite length_take. lia. Qed.

Lemma dec_digits_length fuel k n acc :
  (0 < k)%nat → 0 <= n < 10 ^ Z.of_nat k →
  (length (num_digits 10 fuel n acc) <= k + length acc)%nat.
Proof.
  revert k n acc. induction fuel as [|fuel IH]; intros k n acc Hk Hn; cbn [num_digits]; [lia|].
  destruct (Z.ltb_spec n 10); [cbn; lia|]. destruct k as [|[|k]]; [lia|cbn in Hn; lia|].
  etrans; [apply (IH (S k))|cbn; lia]; [lia|].
  rewrite (Nat2Z.inj_succ (S k)), Z.pow_succ_r in Hn by lia. split.
  - apply Z.div_pos; lia.
  - apply Z.div_lt_upper_bound; lia.
Qed.

Lemma cat_num_fits buf n :
  zlen buf < 1024 → 0 <= n < 9223372036854775808 →
  ∃ t, hypermem_cat_num 1024 buf n = Some t ∧ zlen t < 1024.
Proof.
  intros Hb Hn. unfold hypermem_cat_num. unfold LLONG_MIN.
  rewrite (proj2 (Z.eqb_neq n _)), (proj2 (Z.ltb_ge n 0)), Z.abs_eq by lia.
  pose proof (dec_digits_length 20 19 n [] ltac:(lia) ltac:(cbn; lia)) as Hl.
  fold (dec n) in Hl. cbn [length] in Hl. rewrite (proj2 (Z.ltb_ge 20 _)) by lia.
  eexists. split; [done|]. by apply length_hypermem_cat.
Qed.

Lemma s64_small z : 0 <= z < 9223372036854775808 → s64 z = z.
Proof. intros. apply (swrap_small 64); [lia|]. change (2 ^ (64 - 1)) with 9223372036854775808. lia. Qed.

Lemma cat_sites_fits l buf first :
  zlen buf < 1024 → Forall (λ i, 0 <= i < 9223372036854775808) l →
  ∃ t, cat_sites buf first l = Some t ∧ zlen t < 1024.
Proof.
  intros Hb Hl. revert buf first Hb. induction Hl as [|i l Hi _ IH]; intros buf first Hb; [by exists buf|].
  change (cat_sites buf first (i :: l)) with
    (hypermem_cat_num 1024 (if first then buf else hypermem_cat 1024 buf (lit ", ")) (s64 i)
       ≫= λ b, cat_sites b false l).
  rewrite s64_small by done.
  set (b := if first then _ else _).
  assert (zlen b < 1024) as Hb' by (subst b; destruct first; [done|by apply length_hypermem_cat]).
  destruct (cat_num_fits b i Hb' Hi) as (t & -> & Ht). by apply IH.
Qed.

(** C39: Log lines never overrun their buffers: a line is the message and the name of the
    module cut off after 1023 characters, and the report of the call sites that closed the
    window is built without overflow for all counts and call sites below [2^63]; a negative
    number of 19 digits does overflow the buffer of [hypermem_cat_num]. *)
Theorem log_lines_fit (name msg : cstr) (s : rwin) :
  log_line name msg = take 1023 (msg ++ lit "; module=" ++ name) ∧
  (0 <= total_count s < 9223372036854775808 ∧
   zlen (callsites s) <= RECOVERY_BITMASK_CALLSITE_COUNT ∧
   Forall (λ i, 0 <= i < 9223372036854775808) (callsites s) →
   ∃ t, callsites_text s = Some t ∧ zlen t < 1024) ∧
  hypermem_cat_num 1024 [] (-1000000000000000000) = None.
Proof.
  split_and!; [| |reflexivity].
  - unfold log_line. rewrite (hypermem_cat_take 1024 []) by done. rewrite app_nil_l.
    rewrite (hypermem_cat_take 1024 (take _ msg)) by (rewrite length_take; lia).
    rewrite hypermem_cat_take by (rewrite length_take; lia).
    change (Z.to_nat (1024 - 1)) with 1023%nat.
    assert (∀ a b : cstr, take 1023 (take 1023 a ++ b) = take 1023 (a ++ b)) as Ht.
    { intros a b. rewrite !take_app, take_take, length_take, Nat.min_id. f_equal. f_equal. lia. }
    by rewrite !Ht, <- app_assoc.
  - intros (Ht & Hn & Hl). unfold callsites_text. rewrite s64_small by done.
    unfold RECOVERY_BITMASK_CALLSITE_COUNT in Hn.
    destruct (cat_num_fits (hypermem_cat 1024 [] (lit "ltckpt recovery: window closed "))
      (total_count s)) as (b1 & -> & H1); [by apply length_hypermem_cat|done|]. cbn [mbind option_bind].
    destruct (cat_num_fits (hypermem_cat 1024 b1 (lit " times from ")) (zlen (callsites s)))
      as (b2 & -> & H2); [by apply length_hypermem_cat|lia|]. cbn [mbind option_bind].
    by apply cat_sites_fits; [apply length_hypermem_cat|].
Qed.

(** ** Recovery after a crash *)

Section Crash.
Context {os : Type} `{minix : Minix os} `{opts : Options}.

(** Logging leaves the message being handled alone. *)
Context (log_keeps : ∀ m o, sef_get_current_message (hypermem_printstr m o) = sef_get_current_message o).

Lemma bind_log {A} m (k : () → prog (rwin * os) A) s o :
  (hypermem_log m ≫= k) (s, o) = k () (s, hypermem_printstr (log_line (g_module_name s) m) o).
Proof. done. Qed.

Lemma bind_putw {A} f (k : () → prog (rwin * os) A) s o : (putw f ≫= k) (s, o) = k () (f s, o).
Proof. done. Qed.

Lemma bind_getw {A B} (f : rwin → A) (k : A → prog (rwin * os) B) s o :
  (getw f ≫= k) (s, o) = k (f s) (s, o).
Proof. done. Qed.

(** When a site crashes the server. *)
Lemma suicide_inv i s o s' o' :
  ltckpt_do_suicide_per_site i (s, o) = Stop Sigsegv (s', o') →
  o' = o ∧ msg_available = true ∧ sa_window__is_open s ≠ 0 ∧
  g_recovery_bitmask s' = LTCKPT_RECOVERY_MASK_IDEMPOTENT ∧
  g_recovery_naive_mode s' = g_recovery_naive_mode s ∧ g_module_name s' = g_module_name s ∧
  ∃ msg replyable, sef_get_current_message o = Some (msg, replyable) ∧ m_source msg ≠ RS_PROC_NR ∧
    (LTRC_SUICIDE_WHEN_RECOVERABLE = true → replyable = 1).
Proof.
  unfold ltckpt_do_suicide_per_site. rewrite !bind_getw.
  destruct (outside_shutter_board i s); [done|]. rewrite !bind_getw.
  destruct (truthy (inside_trusted_compute_base s)) eqn:Etcb; [done|]. rewrite bind_getw.
  destruct (truthy (sef_init_done s)); cbn [negb]; [|done].
  destruct msg_available eqn:Ea; cbn [negb]; [|done]. rewrite bind_getw.
  destruct (truthy (sa_window__is_open s)) eqn:Eo; cbn [andb negb]; [|done].
  destruct (_ && truthy (suicide_on_window_close s)); cbn [negb]; [|done].
  rewrite bind_gets. cbn [snd]. destruct (sef_get_current_message o) as [[msg rp]|] eqn:Em; [|done].
  destruct (Z.eqb_spec (m_source msg) RS_PROC_NR) as [|Hrs]; [done|].
  unfold ltckpt_is_message_replyable. rewrite Ea. cbn [negb]. rewrite bind_assoc, bind_gets. cbn [snd].
  rewrite Em, bind_ret. cbn [fst].
  destruct (LTRC_SUICIDE_WHEN_RECOVERABLE && negb (1 =? rp)) eqn:Er; [done|]. rewrite bind_putw.
  set (s1 := set_g_shutter_board _ s). unfold ltckpt_do_suicide.
  set (s2 := if LTRC_SUICIDE_ONLY_ONCE then set_suicide_on_window_close 0 s1 else s1).
  rewrite !bind_assoc.
  rewrite (bind_Ok _ _ _ () (s2, o)) by (unfold s2; by destruct LTRC_SUICIDE_ONLY_ONCE).
  rewrite !bind_assoc, bind_getw.
  assert (inside_trusted_compute_base s2 = inside_trusted_compute_base s ∧
    g_recovery_bitmask s2 = g_recovery_bitmask s ∧
    g_recovery_naive_mode s2 = g_recovery_naive_mode s ∧ g_module_name s2 = g_module_name s)
    as (-> & H1 & H2 & H3) by (unfold s2; by destruct LTRC_SUICIDE_ONLY_ONCE).
  rewrite Etcb, !bind_assoc, bind_getw.
  destruct (Z.eqb_spec (g_recovery_bitmask s2) LTCKPT_RECOVERY_MASK_IDEMPOTENT) as [E|];
    cbn [negb]; [|done].
  intros [= <- <-]. apply truthy_true in Eo. split_and!; try done.
  exists msg, rp. split_and!; try done. intros Hl. rewrite Hl, andb_true_l in Er.
  apply negb_false_iff, Z.eqb_eq in Er. done.
Qed.

(** Idempotent recovery of a replyable message answers it, or fails if the answer cannot be sent. *)
Lemma idempotent_replies msg s o :
  msg_available = true → LTRC_REHANDLE_REQUEST = false → ERESTART < 0 →
  sef_get_current_message o = Some (msg, 1) →
  let log m := hypermem_printstr (log_line (g_module_name s) (lit m)) in
  let '(sent, o1) := asynsend (m_source msg) (mk_message (m_source msg) ERESTART) o in
  ltckpt_recovery_idempotent (s, o) =
  if sent =? RW_OK
  then Ok LTCKPT_RECOVERY_SUCCESS (s, log "ltckpt recovery: success: idempotent" o1)
  else Ok LTCKPT_RECOVERY_FAILURE
    (s, log "ltckpt recovery: failed: idempotent: couldn't send error message" o1).
Proof.
  intros Ha Hre Her Hmsg. cbv zeta. unfold ltckpt_recovery_idempotent. rewrite Ha. cbn [negb].
  rewrite bind_gets. cbn [snd]. rewrite Hmsg, Hre. cbn iota. rewrite bind_getw.
  change (truthy 1) with true. cbn [negb andb]. unfold ltckpt_send_reply. cbn [m_type m_source].
  rewrite bind_assoc, bind_assert by (apply Z.ltb_lt; done). rewrite bind_assoc.
  destruct (asynsend (m_source msg) (mk_message (m_source msg) ERESTART) o) as [r o3] eqn:Es.
  rewrite (bind_Ok _ _ _ r (s, o3)) by (unfold sys; cbn [fst snd]; by rewrite Es).
  rewrite bind_ret. by destruct (r =? RW_OK).
Qed.

(** C5: A fault injected into a recoverable window is recovered from. If passing a site crashes
    the server (built to crash only when recovery is possible, and to answer rather than rehandle
    requests), then the dispatcher, run on the crashed state in the default mode, sends the sender
    of the message being handled a restart error. If the message is sent, it returns success and
    the system is not stopped; if it cannot be sent, it stops the system and returns failure.
    (Writing to the log is taken not to change the message being handled.) *)
Theorem injected_crash_recovers (i : Z) (s s1 : rwin) (o o1 : os) :
  LTRC_SUICIDE_WHEN_RECOVERABLE = true → LTRC_REHANDLE_REQUEST = false → ERESTART < 0 →
  g_recovery_naive_mode s = LTCKPT_RECOVERY_NAIVE_MODE_DEFAULT →
  ltckpt_do_suicide_per_site i (s, o) = Stop Sigsegv (s1, o1) →
  ∃ msg, sef_get_current_message o = Some (msg, 1) ∧
  let log m := hypermem_printstr (log_line (g_module_name s) (lit m)) in
  let s2 := set_inside_trusted_compute_base 1 s1 in
  let '(sent, o2) := asynsend (m_source msg) (mk_message (m_source msg) ERESTART)
                       (log "ltckpt recovery: start recovery attempt" o1) in
  ltckpt_recovery_dispatcher (s1, o1) =
  if sent =? RW_OK
  then Ok LTCKPT_RECOVERY_SUCCESS (s2, log "ltckpt recovery: success: idempotent" o2)
  else Ok LTCKPT_RECOVERY_FAILURE (s2, snd (sys_abort (log "ltckpt recovery: shutdown"
         (log "ltckpt recovery: failed: idempotent: couldn't send error message" o2)))).
Proof.
  intros Hrec Hre Her Hmode Hrun.
  destruct (suicide_inv _ _ _ _ _ Hrun)
    as (-> & Ha & _ & Hmask & Hm & Hname & msg & rp & Hmsg & Hrs & Hrp).
  specialize (Hrp Hrec) as ->. rewrite Hmode in Hm. exists msg. split; [done|]. intros log s2.
  unfold ltckpt_recovery_dispatcher. rewrite bind_log, bind_putw, Hname. fold s2.
  unfold ltckpt_is_message_replyable. rewrite Ha. cbn [negb]. rewrite bind_assoc, bind_gets.
  cbn [snd]. rewrite log_keeps, Hmsg, bind_ret, (proj2 (Z.eqb_neq RS_PROC_NR _)) by congruence.
  cbn [andb]. change (truthy 0) with false. rewrite andb_false_r, bind_getw.
  change (g_recovery_naive_mode s2) with (g_recovery_naive_mode s1). rewrite Hm.
  cbn [Z.eqb LTCKPT_RECOVERY_NAIVE_MODE_DEFAULT LTCKPT_RECOVERY_NAIVE_MODE_NEVER_REPLY
    LTCKPT_RECOVERY_NAIVE_MODE_ALWAYS_REPLY Pos.eqb].
  fold (log "ltckpt recovery: start recovery attempt" o).
  set (o1' := log "ltckpt recovery: start recovery attempt" o).
  assert (run_policy (s2, o1') = ltckpt_recovery_idempotent (s2, o1')) as Hpol.
  { unfold run_policy. rewrite bind_getw. change (g_recovery_bitmask s2) with (g_recovery_bitmask s1).
    by rewrite Hmask. }
  assert (g_module_name s2 = g_module_name s) as Hn by (by rewrite <- Hname).
  pose proof (idempotent_replies msg s2 o1' Ha Hre Her) as Hrep. unfold o1' at 1, log at 1 in Hrep.
  rewrite log_keeps in Hrep. specialize (Hrep Hmsg). cbv zeta in Hrep. rewrite Hn in Hrep.
  destruct (asynsend _ _ o1') as [sent o2]. rewrite <- Hpol in Hrep.
  destruct (sent =? RW_OK); rewrite (bind_Ok _ _ _ _ _ Hrep), bind_getw;
    change (g_recovery_naive_mode s2) with (g_recovery_naive_mode s1); rewrite Hm; [done|].
  cbn -[sys_abort log_line lit]. rewrite bind_log, Hn. unfold mbind, prog_bind, sys. cbn [fst snd].
  unfold log. by destruct (sys_abort _).
Qed.

End Crash.

(** A system that records what is asked of it. *)
Record minix_trace := mk_minix_trace { log : list cstr; replies : list (Z * message); aborts : Z }.

#[local] Instance traced_minix : Minix minix_trace := {
  msg_available := true;
  usr_endpoint_available := true;
  sef_get_current_message _ := Some (mk_message 35 1025, 1);
  sef_llvm_is_user_endpoint _ _ := 1;
  sys_kill _ o := (0, o);
  asynsend d m o := (0, mk_minix_trace (log o) ((d, m) :: replies o) (aborts o));
  sys_abort o := (0, mk_minix_trace (log o) (replies o) (aborts o + 1));
  hypermem_printstr m o := mk_minix_trace (m :: log o) (replies o) (aborts o);
  RS_PROC_NR := 2;
  COMMON_REQ_FI_CTL := 3078;
  ERESTART := -200;
  E_INVAL := -22;
}.

#[local] Instance recoverable_build : Options := {
  LTRC_SUICIDE_ONLY_ONCE := true;
  LTRC_SUICIDE_WHEN_RECOVERABLE := true;
  LTRC_NO_RECOVERY_ON_SVC_FI := true;
  LTRC_REHANDLE_REQUEST := false;
}.

(** A server handling a message, with a fault armed at every site. *)
Definition armed_rwin : rwin :=
  wevent_step (Message true) (set_suicide_on_window_close 1
    (set_g_shutter_board (λ _, set_do_suicide 1 shutter0) rwin0)).

(** The same server after the crash: the fault at site 3 is spent. *)
Definition crashed_rwin : rwin :=
  set_suicide_on_window_close 0 (set_g_shutter_board
    (upd (g_shutter_board armed_rwin) 3 (set_do_suicide 0 (g_shutter_board armed_rwin 3))) armed_rwin).

Lemma injected_crash_recovers_witness :
  ∃ s2 o2,
    ltckpt_recovery_dispatcher (crashed_rwin, mk_minix_trace [] [] 0) =
      Ok LTCKPT_RECOVERY_SUCCESS (s2, o2) ∧
    replies o2 = [(35, mk_message 35 (-200))] ∧ aborts o2 = 0.
Proof.
  destruct (injected_crash_recovers (minix := traced_minix) (opts := recoverable_build)
    (λ _ _, eq_refl) 3 armed_rwin crashed_rwin (mk_minix_trace [] [] 0) (mk_minix_trace [] [] 0))
    as (msg & Hmsg & Hrun).
  - reflexivity.
  - reflexivity.
  - reflexivity.
  - reflexivity.
  - vm_compute. reflexivity.
  - injection Hmsg as <-. eexists _, _. split; [exact Hrun|]. split; reflexivity.
Defined.

(** ** Every outcome of the dispatcher *)

Section Outcomes.
Context {os : Type} `{minix : Minix os} `{opts : Options}.

(** An action ends with a status, or stops on a failed assertion or an overrun log buffer;
    it keeps the mode and stays in the trusted base. *)
Definition action_ends (p : prog (rwin * os) Z) : Prop := ∀ s o,
  match p (s, o) with
  | Ok r (s', o') =>
      (r = LTCKPT_RECOVERY_SUCCESS ∨ r = LTCKPT_RECOVERY_FAILURE) ∧
      g_recovery_naive_mode s' = g_recovery_naive_mode s ∧
      inside_trusted_compute_base s' = inside_trusted_compute_base s
  | Stop w _ => w = AssertFail ∨ w = Undefined
  end.

Lemma ends_log m p : action_ends p → action_ends (hypermem_log m ;; p).
Proof. intros Hp s o. rewrite bind_log. apply Hp. Qed.

Lemma ends_success : action_ends (mret LTCKPT_RECOVERY_SUCCESS).
Proof. intros s o. cbn. tauto. Qed.

Lemma ends_failure : action_ends (mret LTCKPT_RECOVERY_FAILURE).
Proof. intros s o. cbn. tauto. Qed.

Lemma ends_gets {A} (f : rwin * os → A) p : (∀ a, action_ends (p a)) → action_ends (a ← gets f; p a).
Proof. intros Hp s o. rewrite bind_gets. apply Hp. Qed.

Lemma ends_if (b : bool) p q : action_ends p → action_ends q → action_ends (if b then p else q).
Proof. by destruct b. Qed.

Lemma ends_sys {A} (f : os → A * os) p : (∀ a, action_ends (p a)) → action_ends (a ← sys f; p a).
Proof.
  intros Hp s o. unfold mbind, prog_bind, sys. cbn [fst snd]. destruct (f o) as [a o']. apply Hp.
Qed.

Lemma ends_putw f p :
  (∀ s, g_recovery_naive_mode (f s) = g_recovery_naive_mode s ∧
    inside_trusted_compute_base (f s) = inside_trusted_compute_base s) →
  action_ends p → action_ends (putw f ;; p).
Proof.
  intros Hf Hp s o. rewrite bind_putw. specialize (Hp (f s) o). destruct (Hf s) as [<- <-]. done.
Qed.

Lemma ends_reply msg p : (∀ r, action_ends (p r)) → action_ends (r ← ltckpt_send_reply msg; p r).
Proof.
  intros Hp s o. unfold ltckpt_send_reply. cbn [m_type m_source]. rewrite bind_assoc.
  destruct (ERESTART <? 0); [|by left]. rewrite bind_assert by done. rewrite bind_assoc.
  apply ends_sys. intros r. apply Hp.
Qed.

Lemma ends_log_buffer t p : action_ends p → action_ends (log_buffer t ;; p).
Proof. intros Hp. destruct t; [by apply ends_log|]. intros s o. by right. Qed.

Create HintDb ends discriminated.
#[local] Hint Resolve ends_log ends_success ends_failure ends_if ends_sys ends_reply
  ends_log_buffer : ends.
#[local] Hint Extern 1 (action_ends (gets _ ≫= _)) => apply ends_gets; intros ? : ends.
#[local] Hint Extern 1 (action_ends (getw _ ≫= _)) => apply ends_gets; intros ? : ends.
#[local] Hint Extern 1 (action_ends (putw _ ≫= _)) => apply ends_putw; [done|] : ends.
#[local] Hint Extern 2 (action_ends (match ?m with Some _ => _ | None => _ end)) =>
  destruct m as [[? ?]|] : ends.

Lemma ends_status (b : bool) :
  action_ends (mret (if b then LTCKPT_RECOVERY_SUCCESS else LTCKPT_RECOVERY_FAILURE)).
Proof. destruct b; [apply ends_success|apply ends_failure]. Qed.

Lemma ends_callsites p : action_ends p → action_ends (hypermem_log_callsites ;; p).
Proof.
  intros Hp s o. unfold hypermem_log_callsites. rewrite bind_assoc, bind_getw.
  by apply ends_log_buffer.
Qed.

#[local] Hint Resolve ends_status ends_callsites : ends.

Lemma fail_stop_ends : action_ends ltckpt_recovery_fail_stop.
Proof. apply ends_log, ends_sys. intros r. apply ends_status. Qed.

Lemma idempotent_ends : action_ends ltckpt_recovery_idempotent.
Proof. unfold ltckpt_recovery_idempotent. cbv zeta. eauto 20 with ends. Qed.

Lemma process_specific_ends : action_ends ltckpt_recovery_process_specific.
Proof. unfold ltckpt_recovery_process_specific. cbv zeta. eauto 20 with ends. Qed.

#[local] Hint Resolve fail_stop_ends idempotent_ends process_specific_ends : ends.

Lemma policy_ends : action_ends run_policy.
Proof.
  unfold run_policy, ltckpt_recovery_request_specific. apply ends_gets. intros mask.
  eauto 20 with ends.
Qed.

(** The dispatcher ends: it returns success or failure, in the trusted base, and stops short only on
    a failed assertion or an overrun log buffer.  It returns failure in the default mode only, and
    stopping the system is then the last thing it has done. *)
Theorem dispatcher_stops_or_recovers (s : rwin) (o : os) :
  match ltckpt_recovery_dispatcher (s, o) with
  | Ok r (s', o') =>
      (r = LTCKPT_RECOVERY_SUCCESS ∨
       r = LTCKPT_RECOVERY_FAILURE ∧ (∃ o1, o' = snd (sys_abort o1)) ∧
       g_recovery_naive_mode s = LTCKPT_RECOVERY_NAIVE_MODE_DEFAULT) ∧
      inside_trusted_compute_base s' = 1
  | Stop w _ => w = AssertFail ∨ w = Undefined
  end.
Proof.
  unfold ltckpt_recovery_dispatcher. rewrite bind_log, bind_putw.
  set (s1 := set_inside_trusted_compute_base 1 s). set (o1 := hypermem_printstr _ o).
  assert (∃ m, ltckpt_is_message_replyable (s1, o1) = Ok m (s1, o1)) as ([[rp fl] mt] & Hm).
  { unfold ltckpt_is_message_replyable. destruct msg_available; [|by eexists].
    cbn [negb]. rewrite bind_gets. by destruct (sef_get_current_message _) as [[? ?]|]; eexists. }
  rewrite (bind_Ok _ _ _ _ _ Hm). destruct (_ && truthy fl).
  { rewrite bind_log. split; [by left|done]. }
  rewrite bind_getw.
  set (rp' := if _ =? LTCKPT_RECOVERY_NAIVE_MODE_NEVER_REPLY then 0 else _). cbv zeta.
  set (act := if rp' =? 1 then run_policy else _).
  assert (action_ends act) as Ha.
  { unfold act, hypermem_log_nonreplyable. eauto 20 using policy_ends with ends. }
  specialize (Ha s1 o1). unfold mbind at 1, prog_bind at 1.
  destruct (act (s1, o1)) as [r [s2 o2]|w [s2 o2]]; [|done]. destruct Ha as (Hr & Hmode & Ht).
  rewrite bind_getw, Hmode. change (g_recovery_naive_mode s1) with (g_recovery_naive_mode s).
  change (inside_trusted_compute_base s1) with 1 in Ht.
  destruct (Z.eqb_spec (g_recovery_naive_mode s) LTCKPT_RECOVERY_NAIVE_MODE_DEFAULT) as [E|E]; cbn [negb].
  - destruct Hr as [->| ->]; [split; [by left|done]|]. change (LTCKPT_RECOVERY_FAILURE =? LTCKPT_RECOVERY_FAILURE) with true.
    cbn iota. rewrite bind_log. unfold mbind, prog_bind, sys. cbn [snd fst].
    destruct (sys_abort _) as [x o3] eqn:Eo. cbn. split; [|done]. right. split_and!; [done| |done].
    eexists. by rewrite Eo.
  - split; [by left|done].
Qed.

End Outcomes.
