(* ===== verification/MinixLog.v ===== *)
(** * The undo log on MINIX

    [mechanisms/ltckpt_writelog.c] in its 32-bit MINIX build.  A server that crashes is replaced
    by a new process: the restart hook, which runs in the new process, takes over the state of
    the old one, reads the log out of the old process and rolls its own memory back.  The log has
    room for [MX_MAXLEN] entries; the store that fills it closes the window, after which the
    policy is to stop.

    The old process and the new one are two states [mx]; the kernel calls that copy between them,
    and the transfer of the state by the libraries of MINIX, are the class [SafeCopy].  The abstract rollback is [undo] of [Writelog]. *)
From stdpp Require Import base numbers list strings sets.
From Stdlib Require Import ZArith Lia.
From S2P Require Import Prelude Memory CString Ctx Profiling Writelog Policy.

Definition MX_START : Z := 1536 * 1024 * 1024.
Definition MX_MAXLEN : Z := 1024 * 1024 * 2.
Definition MX_PTR : Z := 4.
Definition MX_ENTRY : Z := MX_PTR + WRITELOG_GRANULARITY.
Definition MX_BYTES : Z := MX_MAXLEN * (WRITELOG_GRANULARITY + MX_PTR).

(** The fields of the context the hooks use; an [unsigned long] has 32 bits. *)
Record mx_ctx := mk_mx_ctx {
  mc_interval : Z;  (** [checkpoint_interval] *)
  mc_tols : Z;  (** [num_tols] *)
  mc_checkpoints : Z;  (** [num_checkpoints] *)
  mc_log_size : Z;  (** [max_log_size] *)
}.

(** A process: its memory, the statics of the log, the window and the policy. *)
Record mx := mk_mx {
  x_mem : mem;
  x_data : Z;  (** [wl_data] *)
  x_pos : Z;  (** [wl_position] *)
  x_enabled : Z;  (** [ltckpt_writelog_enabled] *)
  x_open : Z;  (** [sa_window__is_open] *)
  x_mask : Z;  (** [g_recovery_bitmask] *)
  x_reason : option cstr;  (** [g_recovery_bitmask_reason] *)
  x_high : Z;  (** [wl_position_high_watermark] *)
  x_ctx : mx_ctx;  (** [ltckpt_ctx] *)
}.

Definition set_x_mem (v : mem) (s : mx) : mx :=
  mk_mx v (x_data s) (x_pos s) (x_enabled s) (x_open s) (x_mask s) (x_reason s) (x_high s) (x_ctx s).
Definition set_x_data (v : Z) (s : mx) : mx :=
  mk_mx (x_mem s) v (x_pos s) (x_enabled s) (x_open s) (x_mask s) (x_reason s) (x_high s) (x_ctx s).
Definition set_x_pos (v : Z) (s : mx) : mx :=
  mk_mx (x_mem s) (x_data s) v (x_enabled s) (x_open s) (x_mask s) (x_reason s) (x_high s) (x_ctx s).
Definition set_x_enabled (v : Z) (s : mx) : mx :=
  mk_mx (x_mem s) (x_data s) (x_pos s) v (x_open s) (x_mask s) (x_reason s) (x_high s) (x_ctx s).

(** The log is full: the window is closed, and the server is to stop if it crashes. *)
Definition close_full (s : mx) : mx :=
  mk_mx (x_mem s) (x_data s) (x_pos s) (x_enabled s) 0
    (Z.lor (x_mask s) LTCKPT_RECOVERY_MASK_FAIL_STOP)
    (Some (default (lit "ltckpt recovery: window closed: writelog full") (x_reason s))) (x_high s) (x_ctx s).

(** ** Hooks *)

(** [ltckpt_write_wl]; a failed [lt_assert] jumps to an invalid address. *)
Definition mx_append (addr : Z) (s : mx) : mx :=
  let m := store_u32 (x_mem s) (x_data s + x_pos s) addr in
  let m := store_bytes m (x_data s + (x_pos s + MX_PTR)) (load_bytes m addr 8) in
  set_x_pos (u32 (x_pos s + (MX_PTR + WRITELOG_GRANULARITY))) (set_x_mem m s).

Definition mx_write_wl (addr : Z) : prog mx () :=
  let addr := region_align addr in
  d ← gets x_data;
  if d =? 0 then halt Sigsegv else
  op ← gets x_open;
  if negb (truthy op) then skip else
  if (d <=? addr) && (addr <? d + MX_BYTES) then halt Sigsegv else
  modify (mx_append addr) ;;
  pos ← gets x_pos;
  when (MX_BYTES <=? pos) (modify close_full).

(** The store hook. *)
Definition mx_store_hook (addr : Z) : prog mx () :=
  en ← gets x_enabled;
  when (truthy en) (mx_write_wl addr).

(** The top of the loop takes no checkpoint. *)
Definition mx_tol_returns (c : mx_ctx) : bool :=
  negb (truthy (mc_interval c)) || (0 <? mc_tols c mod u32 (mc_interval c)).

Definition set_x_ctx (v : mx_ctx) (s : mx) : mx :=
  mk_mx (x_mem s) (x_data s) (x_pos s) (x_enabled s) (x_open s) (x_mask s) (x_reason s) (x_high s) v.
Definition set_x_high (v : Z) (s : mx) : mx :=
  mk_mx (x_mem s) (x_data s) (x_pos s) (x_enabled s) (x_open s) (x_mask s) (x_reason s) v (x_ctx s).

(** The top-of-the-loop hook, without the text it prints and the name it asks for to print. *)
Definition mx_top_of_the_loop (s : mx) : mx :=
  let c := x_ctx s in
  let c := mk_mx_ctx (mc_interval c) (mc_tols c) (mc_checkpoints c)
             (if mc_log_size c <? x_pos s then x_pos s else mc_log_size c) in
  let returns := mx_tol_returns c in
  let c := mk_mx_ctx (mc_interval c) (u32 (mc_tols c + 1)) (mc_checkpoints c) (mc_log_size c) in
  let s := set_x_ctx c s in
  if returns then s else
  let s := if x_high s <? x_pos s then set_x_high (x_pos s) s else s in
  let s := set_x_enabled 1 (set_x_pos 0 s) in
  set_x_ctx (mk_mx_ctx (mc_interval c) (mc_tols c) (u32 (mc_checkpoints c + 1)) (mc_log_size c)) s.

(** [ltckpt_undolog_vm_late_init], in the server that manages memory: the log is allocated
    unless it is there already. *)
Definition mx_vm_late_init (hole : bool) (alloc : Z) : prog mx () :=
  if negb hole then skip else
  if alloc =? 0 then halt Sigsegv else modify (set_x_data alloc).

(** ** Restart *)

(** The calls that copy between processes; each gives its result, 0 if it succeeds.
    [identity_transfer] is [sef_cb_init_identity_state_transfer] of MINIX, which is given the old
    process and the new one and yields the new one as it leaves it. *)
Class SafeCopy (os : Type) := {
  sys_safecopyto : os → Z * os;
  sys_safecopyfrom : Z → Z → os → Z * os;  (** address in the old process, size *)
  identity_transfer : mx → mx → os → Z * mx * os;
}.

(** The new process and the old one, the flag of the trusted computing base, the texts logged,
    latest first, and the system. *)
Record restart_st (os : Type) := mk_rst {
  new : mx; old : mx; r_tcb : Z; logged : list cstr; r_os : os
}.
Arguments mk_rst {os}.
Arguments new {os}.
Arguments old {os}.
Arguments r_tcb {os}.
Arguments logged {os}.
Arguments r_os {os}.

Section Restart.
Context {os : Type} `{safecopy : SafeCopy os}.
(** The addresses of the statics [wl_data], [wl_position] and [ltckpt_writelog_enabled]. *)
Context (awd awp awe : Z).

Local Abbreviation R := (restart_st os).
Local Abbreviation P := (prog R).

Definition set_new (f : mx → mx) (s : R) : R := mk_rst (f (new s)) (old s) (r_tcb s) (logged s) (r_os s).
Definition set_old (f : mx → mx) (s : R) : R := mk_rst (new s) (f (old s)) (r_tcb s) (logged s) (r_os s).
Definition set_r_tcb (v : Z) (s : R) : R := mk_rst (new s) (old s) v (logged s) (r_os s).
Definition add_log (t : cstr) (s : R) : R := mk_rst (new s) (old s) (r_tcb s) (t :: logged s) (r_os s).
Definition set_r_os (o : os) (s : R) : R := mk_rst (new s) (old s) (r_tcb s) (logged s) o.

Definition sysr {A} (f : os → A * os) : P A := λ s, let '(a, o) := f (r_os s) in Ok a (set_r_os o s).

(** [ltckpt_can_restore]. *)
Definition mx_can_restore (s : mx) (addr : Z) : bool :=
  negb (ltckpt_overlaps addr WRITELOG_GRANULARITY (x_data s) MX_BYTES)
  && negb (ltckpt_overlaps addr WRITELOG_GRANULARITY awd 4)
  && negb (ltckpt_overlaps addr WRITELOG_GRANULARITY awp 4)
  && negb (ltckpt_overlaps addr WRITELOG_GRANULARITY awe 4).

(** The transfer of the state into the new process. *)
Definition state_transfer : P Z := λ s,
  let '(r, n, o) := identity_transfer (old s) (new s) (r_os s) in
  Ok r (set_r_os o (set_new (λ _, n) s)).

(** One iteration of the loop: the error of a failed copy, or the counters. *)
Definition mx_restore_entry (datamax : Z) (cnt : Z * Z) : P (Z + Z * Z) :=
  let '(i, stack_entries) := cnt in
  let i := u32 (i + 1) in
  modify (set_new (λ n, set_x_pos (x_pos n - MX_ENTRY) n)) ;;
  modify (set_r_tcb 1) ;;
  slot ← gets (λ s, x_data (new s) + x_pos (new s));
  r ← sysr (sys_safecopyfrom slot 4);
  if negb (r =? 0) then
    modify (add_log (lit "ltckpt recovery: failed: writelog: sys_safecopyfrom addr failed")) ;; mret (inl r)
  else
  addr ← gets (λ s, load_u32 (x_mem (old s)) slot);
  ok ← gets (λ s, mx_can_restore (new s) addr);
  if negb ok then mret (inr (i, stack_entries)) else
  if datamax <? addr then mret (inr (i, u32 (stack_entries + 1))) else
  if negb (truthy addr) then mret (inr (i, stack_entries)) else
  modify (set_r_tcb 1) ;;
  r ← sysr (sys_safecopyfrom (slot + MX_PTR) 8);
  if negb (r =? 0) then
    modify (add_log (lit "ltckpt recovery: failed: writelog: sys_safecopyfrom region failed")) ;; mret (inl r)
  else
  modify (λ s, set_new (λ n, set_x_mem (store_bytes (x_mem n) addr (load_bytes (x_mem (old s)) (slot + MX_PTR) 8)) n) s) ;;
  mret (inr (i, stack_entries)).

Fixpoint mx_restore_loop (fuel : nat) (datamax : Z) (cnt : Z * Z) : P (Z + Z * Z) :=
  pos ← gets (λ s, x_pos (new s));
  if MX_ENTRY <=? pos then
    match fuel with
    | O => halt Diverge
    | S fuel' =>
        r ← mx_restore_entry datamax cnt;
        match r with
        | inl e => mret (inl e)
        | inr cnt' => mx_restore_loop fuel' datamax cnt'
        end
    end
  else mret (inr cnt).

(** The text logged at the end. *)
Definition success_text (restored stack : Z) : option cstr :=
  let p := hypermem_cat 1024 [] (lit "ltckpt recovery: success: writelog: ") in
  p ← hypermem_cat_num 1024 p restored;
  let p := hypermem_cat 1024 p (lit " log entries, ") in
  p ← hypermem_cat_num 1024 p stack;
  Some (hypermem_cat 1024 p (lit " stack entries")).

(** The restart hook. *)
Definition mx_restart_hook (datamax : Z) : P Z :=
  modify (add_log (lit "ltckpt recovery: start: writelog")) ;;
  modify (set_r_tcb 1) ;;
  modify (set_new (set_x_enabled 0)) ;;
  r ← sysr sys_safecopyto;
  if negb (r =? 0) then
    modify (add_log (lit "ltckpt recovery: failed: writelog: sys_safecopyto failed")) ;; mret r
  else
  modify (set_old (set_x_enabled 0)) ;;
  modify (set_new (set_x_enabled 0)) ;;
  r ← state_transfer;
  if negb (r =? 0) then
    modify (add_log (lit "ltckpt recovery: failed: writelog: identity state transfer failed")) ;; mret r
  else
  pos ← gets (λ s, x_pos (new s));
  let num_entries := pos / MX_ENTRY in
  assert (pos mod MX_ENTRY =? 0) ;;
  r ← mx_restore_loop (Z.to_nat num_entries) datamax (0, 0);
  match r with
  | inl e => mret e
  | inr (i, stack_entries) =>
      assert (i =? num_entries) ;;
      pos' ← gets (λ s, x_pos (new s));
      assert (pos' =? 0) ;;
      modify (set_r_tcb 1) ;;
      match success_text (u32 (num_entries - stack_entries)) stack_entries with
      | None => halt Undefined
      | Some t => modify (add_log t) ;; mret 0
      end
  end.

End Restart.

(** ** The log of the old process *)

Definition mx_entry_at (m : mem) (base : Z) (e : entry) : Prop :=
  load_u32 m base = e.1 ∧ load_bytes m (base + MX_PTR) 8 = e.2.

(** The log at [data] holds the entries [es], oldest first. *)
Definition mx_log (m : mem) (data : Z) (es : list entry) : Prop :=
  ∀ i e, es !! i = Some e → mx_entry_at m (data + MX_ENTRY * Z.of_nat i) e.

Lemma mx_log_snoc m data es e :
  mx_log m data (es ++ [e]) → mx_log m data es ∧ mx_entry_at m (data + MX_ENTRY * zlen es) e.
Proof.
  intros H. split.
  - intros i e' Hi. apply H. rewrite lookup_app_l; [done|]. by apply lookup_lt_Some in Hi.
  - apply H. rewrite lookup_app_r, Nat.sub_diag by done. done.
Qed.

Ltac mx_lia :=
  unfold in_block, MX_ENTRY, MX_BYTES, MX_MAXLEN, MX_PTR, WRITELOG_GRANULARITY in *;
  cbn [length] in *; lia.

Section Rollback.
Context {os : Type} `{safecopy : SafeCopy os}.
(** The addresses the transfer of the state copies. *)
Context (awd awp awe : Z) (transferred : Z → bool).

(** The kernel copies, and the transfer of the state succeeds: it gives the new process the statics
    of the log and the memory at the addresses [transferred] of the old one. *)
Record copies_ok : Prop := {
  copyto_ok : ∀ o, fst (sys_safecopyto o) = 0;
  copyfrom_ok : ∀ a n o, fst (sys_safecopyfrom a n o) = 0;
  transfer_ok : ∀ p n o, let '(r, n', _) := identity_transfer p n o in
    r = 0 ∧ x_data n' = x_data p ∧ x_pos n' = x_pos p ∧
    ∀ x, transferred x = true → x_mem n' x = x_mem p x;
}.
Context (Hok : copies_ok).

(** The entries that are written back. *)
Definition mx_restores (n : mx) (datamax : Z) (e : entry) : bool :=
  mx_can_restore awd awp awe n e.1 && negb (datamax <? e.1) && truthy e.1.

Lemma bind_sysr {A B} (f : os → A * os) (k : A → prog (restart_st os) B) s :
  (sysr f ≫= k) s = k (fst (f (r_os s))) (set_r_os (snd (f (r_os s))) s).
Proof. unfold mbind, prog_bind, sysr. by destruct (f (r_os s)). Qed.

Lemma u32_nonneg z : 0 <= u32 z < 4294967296.
Proof. apply u32_range. Qed.

Lemma mx_restore_entry_run datamax i st (n o : mx) t lg w es e :
  x_pos n = MX_ENTRY * zlen (es ++ [e]) → mx_log (x_mem o) (x_data n) (es ++ [e]) →
  0 <= st < 4294967296 →
  ∃ st' w', 0 <= st' < 4294967296 ∧
    mx_restore_entry awd awp awe datamax (i, st) (mk_rst n o t lg w)
    = Ok (inr (u32 (i + 1), st'))
        (mk_rst (set_x_mem (undo (List.filter (mx_restores n datamax) [e]) (x_mem n))
                   (set_x_pos (MX_ENTRY * zlen es) n)) o 1 lg w').
Proof.
  intros Hp Hl Hst. apply mx_log_snoc in Hl as [_ [Ha Hb]].
  rewrite length_app in Hp. cbn [length] in Hp.
  assert (x_pos n - MX_ENTRY = MX_ENTRY * zlen es) as Ep by mx_lia.
  set (n1 := set_x_pos (MX_ENTRY * zlen es) n).
  unfold mx_restore_entry. rewrite !bind_modify.
  change (set_r_tcb 1 _) with (mk_rst (set_x_pos (x_pos n - MX_ENTRY) n) o 1 lg w). rewrite Ep. fold n1.
  rewrite bind_gets, bind_sysr, (copyfrom_ok Hok). cbn [Z.eqb negb].
  change (x_data (new _) + x_pos (new _)) with (x_data n + MX_ENTRY * zlen es).
  change (set_r_os ?w1 _) with (mk_rst n1 o 1 lg w1). rewrite !bind_gets. cbn [old new]. rewrite Ha.
  unfold List.filter, mx_restores.
  assert (∀ n', x_data n' = x_data n → mx_can_restore awd awp awe n' e.1 = mx_can_restore awd awp awe n e.1) as Hcr
    by (intros n' E; unfold mx_can_restore; by rewrite E).
  rewrite (Hcr n1) by done.
  destruct (mx_can_restore awd awp awe n e.1); cbn [negb andb]; [|eexists _, _; split; [exact Hst|reflexivity]].
  destruct (datamax <? e.1); cbn [negb andb];
    [eexists _, _; split; [apply u32_nonneg|reflexivity]|].
  destruct (truthy e.1); cbn [negb]; [|eexists _, _; split; [exact Hst|reflexivity]].
  rewrite bind_modify, bind_sysr, (copyfrom_ok Hok). cbn [Z.eqb negb]. rewrite bind_modify.
  eexists _, _. split; [exact Hst|]. cbv [mret prog_ret].
  cbn [set_new set_r_tcb set_r_os new old r_tcb logged r_os x_mem set_x_mem]. rewrite Hb. reflexivity.
Qed.

Lemma mx_restore_loop_run datamax es i st (n o : mx) t lg w :
  x_pos n = MX_ENTRY * zlen es → mx_log (x_mem o) (x_data n) es →
  0 <= i → i + zlen es < 4294967296 → 0 <= st < 4294967296 →
  ∃ st' t' w', 0 <= st' < 4294967296 ∧
    mx_restore_loop awd awp awe (length es) datamax (i, st) (mk_rst n o t lg w)
    = Ok (inr (i + zlen es, st'))
        (mk_rst (set_x_mem (undo (List.filter (mx_restores n datamax) es) (x_mem n)) (set_x_pos 0 n)) o t' lg w').
Proof.
  revert i st n t w. induction es as [|e es IH] using rev_ind; intros i st n t w Hp Hl Hi Hb Hst.
  - exists st, t, w. split; [done|]. cbn [length mx_restore_loop]. rewrite bind_gets. cbn [new].
    rewrite Hp. rewrite (proj2 (Z.leb_gt MX_ENTRY _)) by mx_lia. rewrite Z.add_0_r.
    destruct n; cbn in *. by rewrite Hp.
  - destruct (mx_restore_entry_run datamax i st n o t lg w es e Hp Hl Hst) as (st1 & w1 & Hst1 & E1).
    rewrite length_app in *. cbn [length] in *. rewrite Nat.add_1_r. cbn [mx_restore_loop]. rewrite bind_gets. cbn [new].
    rewrite (proj2 (Z.leb_le MX_ENTRY _)) by mx_lia. rewrite (bind_Ok _ _ _ _ _ E1), (u32_small (i + 1)) by lia.
    apply mx_log_snoc in Hl as [Hl _].
    destruct (IH (i + 1) st1 (set_x_mem (undo (List.filter (mx_restores n datamax) [e]) (x_mem n))
      (set_x_pos (MX_ENTRY * zlen es) n)) 1 w1) as (st2 & t2 & w2 & Hst2 & E2); [done|exact Hl|lia|lia|done|].
    exists st2, t2, w2. split; [done|]. rewrite E2. f_equal; [f_equal; f_equal; lia|]. f_equal.
    rewrite List.filter_app, undo_app. cbn [set_x_mem set_x_pos x_mem x_data x_pos x_enabled x_open x_mask x_reason x_high x_ctx].
    f_equal.
Qed.

Lemma success_text_fits a b : 0 <= a < 4294967296 → 0 <= b < 4294967296 → is_Some (success_text a b).
Proof.
  intros Ha Hb. unfold success_text.
  destruct (cat_num_fits (hypermem_cat 1024 [] (lit "ltckpt recovery: success: writelog: ")) a)
    as (p & -> & Hp); [by apply length_hypermem_cat|lia|]. cbn [mbind option_bind].
  destruct (cat_num_fits (hypermem_cat 1024 p (lit " log entries, ")) b) as (q & -> & Hq);
    [by apply length_hypermem_cat|lia|]. cbn [mbind option_bind]. by eexists.
Qed.

(** The restart hook refines [undo]: the new process has the memory the transfer gave it, rolled back
    by the entries of the log of the old one. *)
Lemma mx_restart_run datamax es (s : restart_st os) :
  x_pos (old s) = MX_ENTRY * zlen es → x_pos (old s) <= MX_BYTES → mx_log (x_mem (old s)) (x_data (old s)) es →
  ∃ s' n, mx_restart_hook awd awp awe datamax s = Ok 0 s' ∧
    x_data n = x_data (old s) ∧ (∀ x, transferred x = true → x_mem n x = x_mem (old s) x) ∧
    new s' = set_x_mem (undo (List.filter (mx_restores n datamax) es) (x_mem n)) (set_x_pos 0 n) ∧
    old s' = set_x_enabled 0 (old s).
Proof.
  intros Hp Hbd Hl. destruct s as [n0 o0 t lg w]. cbn [new old] in *.
  unfold mx_restart_hook. rewrite !bind_modify, bind_sysr, (copyto_ok Hok). cbn [Z.eqb negb].
  rewrite !bind_modify.
  match goal with |- context [(state_transfer ≫= _) ?s] => set (s1 := s) end.
  pose proof (transfer_ok Hok (old s1) (new s1) (r_os s1)) as Ht.
  destruct (identity_transfer (old s1) (new s1) (r_os s1)) as [[r n] w2] eqn:Et.
  destruct Ht as (-> & Hd & Hpn & Hm). change (x_data (old s1)) with (x_data o0) in Hd.
  change (x_pos (old s1)) with (x_pos o0) in Hpn. change (x_mem (old s1)) with (x_mem o0) in Hm.
  rewrite (bind_Ok state_transfer _ s1 0 (set_r_os w2 (set_new (λ _, n) s1))) by (unfold state_transfer; by rewrite Et).
  cbn [Z.eqb negb]. rewrite bind_gets.
  change (set_r_os w2 (set_new (λ _, n) s1))
    with (mk_rst n (set_x_enabled 0 o0) 1 (lit "ltckpt recovery: start: writelog" :: lg) w2).
  cbn [new]. rewrite Hpn, Hp.
  rewrite (Z.mul_comm MX_ENTRY), Z.div_mul, Z.mod_mul, Nat2Z.id by mx_lia. rewrite bind_assert by done.
  destruct (mx_restore_loop_run datamax es 0 0 n (set_x_enabled 0 o0) 1
    (lit "ltckpt recovery: start: writelog" :: lg) w2) as (st & t' & w' & Hst & E);
    [by rewrite Hpn|by rewrite Hd|lia|mx_lia|lia|].
  rewrite (bind_Ok _ _ _ _ _ E), Z.add_0_l, bind_assert, bind_gets, bind_assert, bind_modify by (done || apply Z.eqb_refl).
  destruct (success_text_fits (u32 (zlen es - st)) st (u32_nonneg _) Hst) as [txt ->].
  rewrite bind_modify. eexists _, n. split; [reflexivity|]. done.
Qed.

End Rollback.

(** ** A window of the old process *)

(** A store of the program: the hook, then the store. *)
Definition mx_store (op : Z * list Z) : prog mx () :=
  mx_store_hook op.1 ;; modify (λ s, set_x_mem (store_bytes (x_mem s) op.1 op.2) s).

Fixpoint mx_stores (ops : list (Z * list Z)) : prog mx () :=
  match ops with
  | [] => skip
  | op :: ops' => mx_store op ;; mx_stores ops'
  end.

(** Entries that do not save a byte do not matter to it. *)
Lemma undo_filter f es m x :
  (∀ e, e ∈ es → in_block e.1 (zlen e.2) x → f e = true) → undo (List.filter f es) m x = undo es m x.
Proof.
  induction es as [|e es IH]; intros H; [done|].
  assert (undo (List.filter f es) m x = undo es m x) as IH' by (apply IH; intros e' ?; apply H; set_solver).
  cbn [List.filter]. destruct (f e) eqn:E; cbn [undo foldr].
  - destruct (decide (in_block e.1 (zlen e.2) x)) as [Hin|Hout].
    + by rewrite !store_bytes_in.
    + by rewrite !store_bytes_out.
  - rewrite IH'. symmetry. apply store_bytes_out. intros Hin. rewrite H in E by (done || set_solver). done.
Qed.

Lemma undo_byte es m1 m2 x : m1 x = m2 x → undo es m1 x = undo es m2 x.
Proof. intros H. apply (undo_agree (λ y, y = x)); [|done]. intros y [-> _]. done. Qed.

Section Window.
Context (awd awp awe data : Z).

Local Abbreviation in_log x := (in_block data MX_BYTES x).

(** The log is within the address space. *)
Definition log_placed : Prop := 0 < data ∧ data + MX_BYTES <= 4294967296.

(** A region the program may write: outside the log and away from its statics. *)
Record region_ok (r : Z) : Prop := {
  ro_word : 0 <= r < 4294967296;
  ro_log : r + 8 <= data ∨ data + MX_BYTES <= r;
  ro_statics : ∀ s, x_data s = data → mx_can_restore awd awp awe s r = true;
}.

(** A store within one region. *)
Record mx_op_ok (op : Z * list Z) : Prop := {
  mo_low : region_align op.1 <= op.1;
  mo_high : op.1 + zlen op.2 <= region_align op.1 + 8;
  mo_region : region_ok (region_align op.1);
}.

(** The window since the memory [m0]: what the log holds, and, while the window is open, that
    undoing it gives back [m0]. *)
Record mx_inv (m0 : mem) (s : mx) (es : list entry) : Prop := {
  iv_data : x_data s = data;
  iv_enabled : x_enabled s ≠ 0;
  iv_pos : x_pos s = MX_ENTRY * zlen es;
  iv_fits : x_pos s <= MX_BYTES;
  iv_window : (x_open s ≠ 0 ∧ x_pos s < MX_BYTES ∧ mx_log (x_mem s) data es ∧
      Forall (λ e : entry, region_ok e.1 ∧ e.1 mod 8 = 0 ∧ length e.2 = 8%nat) es ∧
      ∀ x, ¬ in_log x → undo es (x_mem s) x = m0 x)
    ∨ (x_open s = 0 ∧ Z.land (x_mask s) LTCKPT_RECOVERY_MASK_FAIL_STOP ≠ 0);
}.

Lemma mx_entry_at_agree m1 m2 base e :
  mem_agree (in_block base MX_ENTRY) m1 m2 → mx_entry_at m1 base e → mx_entry_at m2 base e.
Proof.
  intros H [H1 H2]. split.
  - rewrite <- H1. symmetry. apply load_u32_ext. intros x ?. apply H. mx_lia.
  - rewrite <- H2. symmetry. apply load_bytes_ext. intros x ?. apply H. mx_lia.
Qed.

(** Appending an entry. *)
Lemma mx_append_spec r s es :
  log_placed → region_ok r → x_data s = data → x_pos s = MX_ENTRY * zlen es → x_pos s < MX_BYTES →
  mx_log (x_mem s) data es →
  let s' := mx_append r s in
  x_pos s' = MX_ENTRY * (zlen es + 1) ∧
  mx_log (x_mem s') data (es ++ [(r, load_bytes (x_mem s) r 8)]) ∧
  (∀ x, ¬ in_log x → x_mem s' x = x_mem s x).
Proof.
  intros [Hd0 Hd1] [Hw Hlog _] Hd Hp Hlt Hl s'.
  assert (x_pos s + 12 <= MX_BYTES) as Hroom by (revert Hlt; rewrite Hp; mx_lia).
  set (m1 := store_u32 (x_mem s) (data + x_pos s) r).
  assert (load_bytes m1 r 8 = load_bytes (x_mem s) r 8) as Hld.
  { apply load_bytes_ext. intros x Hx. apply store_u32_out. mx_lia. }
  assert (x_mem s' = store_bytes m1 (data + x_pos s + 4) (load_bytes (x_mem s) r 8)) as Hm.
  { unfold s', mx_append. cbn [set_x_pos set_x_mem x_mem]. rewrite Hd. fold m1. rewrite Hld. f_equal. unfold MX_PTR. lia. }
  assert (∀ x, ¬ in_block (data + x_pos s) 12 x → x_mem s' x = x_mem s x) as Hout.
  { intros x Hx. rewrite Hm. rewrite store_bytes_out by (rewrite length_load_bytes; mx_lia).
    apply store_u32_out. mx_lia. }
  split_and!.
  - unfold s', mx_append. cbn [set_x_pos x_pos]. rewrite u32_small by mx_lia. mx_lia.
  - intros i e Hi. apply lookup_app_Some in Hi as [Hi|[Hge Hi]].
    + pose proof (lookup_lt_Some _ _ _ Hi). apply (mx_entry_at_agree (x_mem s)); [|by apply Hl].
      intros x Hx. symmetry. apply Hout. mx_lia.
    + apply list_lookup_singleton_Some in Hi as [Hi <-].
      assert (MX_ENTRY * Z.of_nat i = x_pos s) as -> by (rewrite Hp; f_equal; lia). split; cbn [fst snd].
      * rewrite Hm. rewrite (load_u32_ext _ m1).
        -- unfold m1. rewrite load_store_u32. by apply u32_small.
        -- intros x Hx. apply store_bytes_out. rewrite length_load_bytes. mx_lia.
      * rewrite Hm. replace (data + x_pos s + MX_PTR) with (data + x_pos s + 4) by mx_lia.
        rewrite <- (length_load_bytes (x_mem s) r 8) at 2. apply load_store_bytes.
  - intros x Hx. apply Hout. mx_lia.
Qed.

Lemma region_align_mod a : region_align a mod 8 = 0.
Proof. rewrite region_align_spec. Z.to_euclidean_division_equations; lia. Qed.

(** The hook of a store in an open window appends the region, and closes a full log. *)
Lemma mx_store_hook_run s op :
  log_placed → x_data s = data → x_enabled s ≠ 0 → x_open s ≠ 0 → mx_op_ok op →
  let s1 := mx_append (region_align op.1) s in
  mx_store_hook op.1 s = Ok () (if MX_BYTES <=? x_pos s1 then close_full s1 else s1).
Proof.
  intros [Hd0 _] Hd Hen Hop [_ _ [_ Hlog _]] s1. unfold mx_store_hook. rewrite bind_gets. unfold truthy at 1.
  rewrite (proj2 (Z.eqb_neq _ _) Hen). cbn [negb when]. unfold mx_write_wl. rewrite bind_gets, Hd.
  rewrite (proj2 (Z.eqb_neq data 0)) by lia. rewrite bind_gets. unfold truthy at 1.
  rewrite (proj2 (Z.eqb_neq _ _) Hop). cbn [negb].
  assert ((data <=? region_align op.1) && (region_align op.1 <? data + MX_BYTES) = false) as ->.
  { apply andb_false_iff. rewrite Z.leb_gt, Z.ltb_ge. lia. }
  rewrite bind_modify, bind_gets. fold s1. by destruct (MX_BYTES <=? x_pos s1).
Qed.

(** Undoing the saved region after the store. *)
Lemma undo_store m m1 op x :
  mx_op_ok op → (∀ x, ¬ in_log x → m1 x = m x) → ¬ in_log x →
  undo [(region_align op.1, load_bytes m (region_align op.1) 8)] (store_bytes m1 op.1 op.2) x = m x.
Proof.
  intros [Hlo Hhi Hr] Hm Hx. cbn [undo foldr fst snd].
  destruct (decide (in_block (region_align op.1) 8 x)) as [Hin|Hout].
  - rewrite store_bytes_in by (by rewrite length_load_bytes). unfold in_block in Hin.
    rewrite nth_load_bytes by lia. f_equal. lia.
  - rewrite store_bytes_out by (by rewrite length_load_bytes).
    rewrite store_bytes_out by mx_lia. by apply Hm.
Qed.

Lemma mx_store_inv m0 s es op :
  log_placed → mx_inv m0 s es → mx_op_ok op →
  ∃ s' es', mx_store op s = Ok () s' ∧ mx_inv m0 s' es' ∧ zlen es' <= zlen es + 1 ∧
    (x_open s' = 0 → x_open s = 0 ∨ zlen es + 1 = MX_MAXLEN).
Proof.
  intros Hpl [Hd Hen Hp Hfit [(Hop & Hlt & Hl & Hes & Hun)|[Hop Hmask]]] Hok; unfold mx_store.
  - set (r := region_align op.1). set (s1 := mx_append r s).
    destruct (mx_append_spec r s es Hpl (mo_region _ Hok) Hd Hp Hlt Hl) as (Hp1 & Hl1 & Hout). fold s1 in Hp1, Hl1, Hout.
    rewrite (bind_Ok _ _ _ _ _ (mx_store_hook_run s op Hpl Hd Hen Hop Hok)). fold r s1.
    assert (∀ x, ¬ in_log x →
      undo (es ++ [(r, load_bytes (x_mem s) r 8)]) (store_bytes (x_mem s1) op.1 op.2) x = m0 x) as Hun1.
    { intros x Hx. rewrite undo_app, (undo_byte es _ (x_mem s)), Hun; [done|done|]. by apply undo_store. }
    assert (mx_log (store_bytes (x_mem s1) op.1 op.2) data (es ++ [(r, load_bytes (x_mem s) r 8)])) as Hl2.
    { intros i e Hi. pose proof (lookup_lt_Some _ _ _ Hi) as Hi'. rewrite length_app in Hi'. cbn in Hi'.
      apply (mx_entry_at_agree (x_mem s1)); [|by apply Hl1].
      intros x Hx. symmetry. apply store_bytes_out. destruct Hok as [? ? [_ Hlog _]]. mx_lia. }
    assert (zlen (es ++ [(r, load_bytes (x_mem s) r 8)]) = zlen es + 1) as Hlen by (rewrite length_app; cbn; lia).
    destruct (Z.leb_spec MX_BYTES (x_pos s1)) as [Hfull|Hroom].
    + eexists _, (es ++ [(r, load_bytes (x_mem s) r 8)]). split; [reflexivity|]. split; [|split; [by rewrite Hlen|]].
      * split; try done; cbn [set_x_mem close_full x_pos x_open x_mask x_data x_enabled].
        -- by rewrite Hlen.
        -- mx_lia.
        -- right. split; [done|]. intros E. apply (f_equal (λ z, Z.testbit z 3)) in E.
           by rewrite Z.land_spec, Z.lor_spec, orb_true_r in E.
      * intros _. right. mx_lia.
    + eexists _, (es ++ [(r, load_bytes (x_mem s) r 8)]). split; [reflexivity|]. split; [|split; [by rewrite Hlen|]].
      * split; try done; cbn [set_x_mem x_pos x_open x_mem].
        -- by rewrite Hlen.
        -- lia.
        -- left. split_and!; try done. apply Forall_app. split; [done|]. apply Forall_singleton. cbn [fst snd].
           split; [apply Hok|]. split; [apply region_align_mod|apply length_load_bytes].
      * cbn. intros E. by destruct Hop.
  - assert (mx_store_hook op.1 s = Ok () s) as E.
    { unfold mx_store_hook. rewrite bind_gets. unfold truthy at 1. rewrite (proj2 (Z.eqb_neq _ _) Hen).
      cbn [negb when]. unfold mx_write_wl. rewrite bind_gets, Hd. destruct Hpl.
      rewrite (proj2 (Z.eqb_neq data 0)) by lia. by rewrite bind_gets, Hop. }
    rewrite (bind_Ok _ _ _ _ _ E). eexists _, es. split; [reflexivity|].
    split; [|split; [lia|by left]]. split; try done. by right.
Qed.

Lemma mx_stores_inv m0 ops s es :
  log_placed → mx_inv m0 s es → Forall mx_op_ok ops →
  ∃ s' es', mx_stores ops s = Ok () s' ∧ mx_inv m0 s' es' ∧
    (x_open s' = 0 → x_open s = 0 ∨ MX_MAXLEN <= zlen es + zlen ops).
Proof.
  intros Hpl. revert s es. induction ops as [|op ops IH]; intros s es Hinv Hops.
  - exists s, es. split_and!; [done|done|by left].
  - apply Forall_cons_1 in Hops as [Hop Hops].
    destruct (mx_store_inv m0 s es op Hpl Hinv Hop) as (s1 & es1 & E1 & Hi1 & Hn1 & Ho1).
    destruct (IH s1 es1 Hi1 Hops) as (s2 & es2 & E2 & Hi2 & Ho2).
    exists s2, es2. cbn [mx_stores]. rewrite (bind_Ok _ _ _ _ _ E1). split_and!; [done|done|].
    intros Hc. cbn [length]. destruct (Ho2 Hc) as [Hc1|]; [destruct (Ho1 Hc1); [by left|]|]; right; lia.
Qed.

Lemma mx_top_open s : x_open (mx_top_of_the_loop s) = x_open s.
Proof. unfold mx_top_of_the_loop. destruct (mx_tol_returns _); [done|]. cbn. by destruct (_ <? _). Qed.

(** At the top of the loop the log is empty. *)
Lemma mx_top_inv s :
  x_data s = data → x_open s ≠ 0 → mx_tol_returns (x_ctx s) = false →
  mx_inv (x_mem s) (mx_top_of_the_loop s) [].
Proof.
  intros Hd Hop Ht. unfold mx_top_of_the_loop. change (mx_tol_returns (mk_mx_ctx _ _ _ _)) with (mx_tol_returns (x_ctx s)).
  rewrite Ht. cbn [x_high set_x_ctx x_pos].
  set (s1 := if x_high s <? x_pos s then _ else _).
  assert (x_data s1 = data ∧ x_open s1 ≠ 0 ∧ x_mem s1 = x_mem s) as (Hd1 & Ho1 & Hm1)
    by (unfold s1; by destruct (_ <? _)).
  split; [done|done|done|by vm_compute|]. left. cbn. split_and!; try done. intros x _. by rewrite Hm1.
Qed.

(** C36: on MINIX a server that crashes in its window is rebuilt as it was at the top of the
    loop.  After a top of the loop that takes a checkpoint, in an open window, and any stores of the
    program that each lie within one region of 8 bytes away from the log and its statics
    ([mx_op_ok]: the hook saves the region of the first byte only), all of which return, the log has
    not outgrown its area, and it closes the window only after as many stores as it has room for.
    If the window is closed the policy is to stop.  If it is open, assume that the kernel copies and
    that the state transfer of MINIX gives the new process the statics of the log and the memory of
    the old one at some addresses ([copies_ok]).  Then the restart hook in the new process returns
    0, and every transferred byte of the program below [datamax] is what it was at the top of the
    loop in the old process. *)
Theorem minix_crash_rebuilt {os} `{safecopy : SafeCopy os} (transferred : Z → bool) s ops datamax
    (r : restart_st os) :
  log_placed → x_data s = data → x_open s ≠ 0 → mx_tol_returns (x_ctx s) = false →
  Forall mx_op_ok ops →
  ∃ s1, mx_stores ops (mx_top_of_the_loop s) = Ok () s1 ∧ x_pos s1 <= MX_BYTES ∧
    (zlen ops < MX_MAXLEN → x_open s1 ≠ 0) ∧
    (x_open s1 = 0 → Z.land (x_mask s1) LTCKPT_RECOVERY_MASK_FAIL_STOP ≠ 0) ∧
    (x_open s1 ≠ 0 → old r = s1 → copies_ok (os := os) transferred →
     ∃ r', mx_restart_hook awd awp awe datamax r = Ok 0 r' ∧
       ∀ x, transferred x = true → ¬ in_log x → 0 < region_align x <= datamax →
         x_mem (new r') x = x_mem s x).
Proof.
  intros Hpl Hd Hop Htol Hops.
  destruct (mx_stores_inv (x_mem s) ops _ [] Hpl (mx_top_inv s Hd Hop Htol) Hops) as (s1 & es & E & Hinv & Hclose).
  destruct Hinv as [Hd1 _ Hp1 Hfit Hw]. exists s1. split_and!; [done|done| | |].
  - intros Hlt H0. destruct (Hclose H0) as [H1|?]; [by rewrite mx_top_open in H1|]. cbn in *. lia.
  - intros H0. destruct Hw as [[? _]|[_ ?]]; done.
  - intros Hopen Hold Hc. destruct Hw as [(_ & _ & Hl & Hes & Hun)|[? _]]; [|done].
    destruct (mx_restart_run awd awp awe transferred Hc datamax es r) as (r' & n & E' & Hdn & Hmn & Hnew & _);
      [by rewrite Hold|by rewrite Hold|by rewrite Hold, Hd1|].
    exists r'. split; [done|]. intros x Ht Hx Hlow. rewrite Hnew. cbn [set_x_mem x_mem].
    rewrite undo_filter.
    + rewrite <- Hun by done. apply undo_byte. rewrite Hmn by done. by rewrite Hold.
    + intros e He Hin. rewrite Forall_forall in Hes. destruct (Hes e He) as ([_ _ Hst] & Hal & Hlen).
      assert (e.1 = region_align x) as Ee.
      { rewrite region_align_spec. rewrite Hlen in Hin. unfold in_block in Hin.
        Z.to_euclidean_division_equations; lia. }
      unfold mx_restores. rewrite Hst by (rewrite Hdn; by rewrite Hold). rewrite Ee.
      rewrite (proj2 (Z.ltb_ge datamax _)) by lia. unfold truthy. by rewrite (proj2 (Z.eqb_neq _ _)) by lia.
Qed.

End Window.

(** ** An example *)

Module Example.

#[local] Instance ex_copy : SafeCopy () := {|
  sys_safecopyto _ := (0, ());
  sys_safecopyfrom _ _ _ := (0, ());
  identity_transfer p n _ := (0, mk_mx (x_mem p) (x_data p) (x_pos p) 0 (x_open p) 0 None 0 (x_ctx n), ());
|}.

Definition server : mx := mk_mx (λ x, x mod 256) MX_START 24 0 1 0 None 0 (mk_mx_ctx 1 5 5 0).
Definition crashed : mx := final (mx_stores [(1001, [7; 7]); (2000, [9])] (mx_top_of_the_loop server)).
Definition fresh : restart_st () := mk_rst (mk_mx (λ _, 0) 0 0 0 0 0 None 0 (mk_mx_ctx 1 0 0 0)) crashed 0 [] ().

Lemma ex_op a bs :
  region_align a <= a → a + zlen bs <= region_align a + 8 → 120 <= region_align a < 4096 →
  mx_op_ok 100 104 108 MX_START (a, bs).
Proof.
  intros Hlo Hhi Hr. split; [done|done|]. cbn [fst]. split; [lia|unfold MX_START; lia|].
  intros s Hd. unfold mx_can_restore. rewrite Hd. unfold WRITELOG_GRANULARITY.
  assert (∀ p n, 0 < n → p + n <= region_align a ∨ region_align a + 8 <= p →
    ltckpt_overlaps (region_align a) 8 p n = false) as Hno.
  { intros p n Hn H. unfold ltckpt_overlaps. apply orb_false_iff. rewrite !andb_false_iff, !Z.leb_gt, !Z.ltb_ge. lia. }
  rewrite !Hno by (unfold MX_START, MX_BYTES, MX_MAXLEN, WRITELOG_GRANULARITY, MX_PTR; lia). done.
Qed.

Lemma minix_crash_rebuilt_witness :
  ∃ r', mx_restart_hook 100 104 108 100000 fresh = Ok 0 r' ∧
    x_mem (new r') 1001 = 1001 mod 256 ∧ x_mem (new r') 2000 = 2000 mod 256.
Proof.
  destruct (minix_crash_rebuilt 100 104 108 MX_START (λ _, true) server [(1001, [7; 7]); (2000, [9])] 100000 fresh)
    as (s1 & E & _ & Hopen & _ & H).
  - by vm_compute.
  - done.
  - done.
  - reflexivity.
  - constructor; [|constructor; [|constructor]]; apply ex_op; by vm_compute.
  - destruct H as (r' & E' & Hx).
    + by apply Hopen.
    + change (old fresh) with (final (mx_stores [(1001, [7; 7]); (2000, [9])] (mx_top_of_the_loop server))).
      by rewrite E.
    + by split.
    + exists r'. split; [exact E'|].
      split; (apply Hx; clear; [reflexivity|intros [H _]; unfold MX_START in H; lia|vm_compute; split; congruence]).
Defined.

End Example.
