(* ===== verification/Debug.v ===== *)
(** * Diagnostic output on MINIX

    [ltckpt_debug.c]: printing to the log of the kernel, character by character, from code in
    which the C library must not be called, and the allocator that goes with it, which hands out
    parts of one static buffer and never takes them back.

    The log of the kernel is the text printed so far.  A kernel call is repeated until the kernel
    is ready; [attempts] bounds the repetitions in the model. *)
From stdpp Require Import base numbers list strings.
From Stdlib Require Import ZArith Lia Ascii.
From S2P Require Import Prelude Memory CString.

(** ** Definitions *)

(** The kernel: whether it is ready for a call. *)
Class KernelCall (os : Type) := kernel_ready : os → bool * os.

(** The log of the kernel, the bytes of [static_malloc_buf] in use, and the system. *)
Record dbg (os : Type) := mk_dbg { d_out : cstr; static_malloc_used : Z; d_os : os }.
Arguments mk_dbg {os}.
Arguments d_out {os}.
Arguments static_malloc_used {os}.
Arguments d_os {os}.

(** The size of the buffer, and where it is. *)
Definition STATIC_MALLOC_SIZE : Z := 100000.

(** The arguments of a format. *)
Inductive varg := VInt (n : Z) | VStr (s : cstr).

Section Debug.
Context {os : Type} `{kernel : KernelCall os}.
Context (attempts : nat) (static_malloc_buf : Z).

Local Abbreviation P := (prog (dbg os)).

Definition add_out (t : cstr) (s : dbg os) : dbg os := mk_dbg (d_out s ++ t) (static_malloc_used s) (d_os s).

(** [lt_kernel_call] with a text to print: repeated while the kernel is not ready. *)
Fixpoint lt_kernel_call (n : nat) (text : cstr) : P () :=
  match n with
  | O => halt Diverge
  | S n' => λ s,
      let '(ready, o) := kernel_ready (d_os s) in
      let s' := mk_dbg (d_out s) (static_malloc_used s) o in
      if ready then Ok () (add_out text s') else lt_kernel_call n' text s'
  end.

Definition lt_kputs (buf : cstr) : P () := lt_kernel_call attempts buf.
Definition lt_kputc (c : ascii) : P () := lt_kernel_call attempts [c].

(** [lt_kputn] and [lt_kputx_]; an [unsigned int] has at most ten digits. *)
Fixpoint lt_kput_base (fuel : nat) (base n : Z) : P () :=
  match fuel with
  | O => halt Diverge
  | S fuel' =>
      when (base <=? n) (lt_kput_base fuel' base (n / base)) ;;
      lt_kputc (digit_chr (n mod base))
  end.

Definition lt_kputn (n : Z) : P () := lt_kput_base 11 10 n.
Definition lt_kputx_ (n : Z) : P () := lt_kput_base 11 16 n.
Definition lt_kputx (n : Z) : P () := lt_kputc "0" ;; lt_kputc "x" ;; lt_kputx_ n.

(** [lt_malloc]; the comparison with [sizeof] is unsigned. *)
Definition lt_malloc (size : Z) : P Z :=
  used ← gets static_malloc_used;
  modify (λ s, mk_dbg (d_out s) (s32 (used + size)) (d_os s)) ;;
  if u32 (s32 (used + size)) <=? STATIC_MALLOC_SIZE then mret (static_malloc_buf + used) else halt Sigsegv.

(** [lt_free] does nothing. *)
Definition lt_free (mem : Z) : P () := skip.

(** Skip the letters [l]; the conversion and what follows it, if the format does not end. *)
Fixpoint skip_l (fmt : cstr) : option (ascii * cstr) :=
  match fmt with
  | [] => None
  | c :: fmt' => if Ascii.eqb c "l" then skip_l fmt' else Some (c, fmt')
  end.

(** [lt_printf].  A format that ends within a conversion is read beyond its end, and a missing
    argument, or one of the wrong type, is undefined. *)
Fixpoint lt_printf_loop (fuel : nat) (fmt : cstr) (args : list varg) : P () :=
  match fuel with
  | O => halt Diverge
  | S fuel' =>
      match fmt with
      | [] => skip
      | c :: fmt1 =>
          if negb (Ascii.eqb c "%") then lt_kputc c ;; lt_printf_loop fuel' fmt1 args else
          match skip_l fmt1 with
          | None => halt Undefined
          | Some (c, fmt2) =>
              if Ascii.eqb c "u" || Ascii.eqb c "d" then
                match args with
                | VInt n :: args' => lt_kputn (u32 n) ;; lt_printf_loop fuel' fmt2 args'
                | _ => halt Undefined
                end
              else if Ascii.eqb c "x" then
                match args with
                | VInt n :: args' => lt_kputx (u32 n) ;; lt_printf_loop fuel' fmt2 args'
                | _ => halt Undefined
                end
              else if Ascii.eqb c "s" then
                match args with
                | VStr t :: args' => lt_kputs t ;; lt_printf_loop fuel' fmt2 args'
                | _ => halt Undefined
                end
              else lt_printf_loop fuel' fmt2 args
          end
      end
  end.

Definition lt_printf (fmt : cstr) (args : list varg) : P () := lt_printf_loop (S (length fmt)) fmt args.

End Debug.

(** ** Printing *)

Section Printing.
Context {os : Type} `{kernel : KernelCall os}.
Context (attempts : nat) (static_malloc_buf : Z).

(** The kernel is ready within [n] calls. *)
Fixpoint ready_within (n : nat) (o : os) : Prop :=
  match n with
  | O => False
  | S n' => (kernel_ready o).1 = true ∨ ready_within n' (kernel_ready o).2
  end.
Context (Hready : ∀ o, ready_within attempts o).

(** The program prints a text and does nothing else. *)
Definition prints (p : prog (dbg os) ()) (t : cstr) : Prop :=
  ∀ s, ∃ o', p s = Ok () (mk_dbg (d_out s ++ t) (static_malloc_used s) o').

Lemma prints_skip : prints skip [].
Proof. intros [out u o]. exists o. by rewrite app_nil_r. Qed.

Lemma prints_bind p q t u : prints p t → prints q u → prints (p ;; q) (t ++ u).
Proof.
  intros Hp Hq s. destruct (Hp s) as [o1 E1]. rewrite (bind_Ok _ _ _ _ _ E1).
  destruct (Hq (mk_dbg (d_out s ++ t) (static_malloc_used s) o1)) as [o2 E2]. exists o2.
  rewrite E2. cbn. by rewrite <- app_assoc.
Qed.

Lemma prints_kputs t : prints (lt_kputs attempts t) t.
Proof.
  intros s. unfold lt_kputs. pose proof (Hready (d_os s)) as H. clear Hready. revert s H.
  induction attempts as [|n IH]; intros s H; [done|]. cbn [lt_kernel_call].
  destruct (kernel_ready (d_os s)) as [b o1] eqn:E. cbn [ready_within] in H. rewrite E in H. cbn [fst snd] in H.
  destruct b.
  - eexists. reflexivity.
  - destruct H as [?|H]; [done|].
    apply (IH (mk_dbg (d_out s) (static_malloc_used s) o1)) in H as [o2 E2]. by exists o2.
Qed.

Lemma prints_kputc c : prints (lt_kputc attempts c) [c].
Proof. apply (prints_kputs [c]). Qed.

Lemma prints_kput_base fuel base n :
  2 <= base → 0 <= n < base ^ Z.of_nat fuel → (0 < fuel)%nat →
  prints (lt_kput_base attempts fuel base n) (num_digits base fuel n []).
Proof.
  intros Hb. revert n. induction fuel as [|fuel IH]; intros n Hn Hf; [lia|].
  cbn [lt_kput_base num_digits]. destruct (Z.ltb_spec n base) as [Hlt|Hge].
  - rewrite (proj2 (Z.leb_gt base n)) by lia. apply (prints_bind _ _ []); [apply prints_skip|apply prints_kputc].
  - rewrite (proj2 (Z.leb_le base n)), num_digits_app by lia.
    rewrite Nat2Z.inj_succ, Z.pow_succ_r in Hn by lia.
    apply prints_bind; [|apply prints_kputc]. cbn [when]. apply IH.
    + split; [apply Z.div_pos; lia|apply Z.div_lt_upper_bound; lia].
    + destruct fuel; [|lia]. cbn in Hn. lia.
Qed.

Lemma num_digits_fuel base f1 f2 n acc :
  2 <= base → 0 <= n < base ^ Z.of_nat f1 → (0 < f1)%nat → (f1 <= f2)%nat →
  num_digits base f1 n acc = num_digits base f2 n acc.
Proof.
  intros Hb. revert f2 n acc. induction f1 as [|f1 IH]; intros f2 n acc Hn H1 H2; [lia|].
  destruct f2 as [|f2]; [lia|]. cbn [num_digits]. destruct (Z.ltb_spec n base); [done|].
  rewrite Nat2Z.inj_succ, Z.pow_succ_r in Hn by lia. apply IH.
  - split; [apply Z.div_pos; lia|apply Z.div_lt_upper_bound; lia].
  - destruct f1; [|lia]. cbn in Hn. lia.
  - lia.
Qed.

Lemma prints_kputn n : 0 <= n < 4294967296 → prints (lt_kputn attempts n) (dec n).
Proof.
  intros Hn. unfold dec. rewrite <- (num_digits_fuel 10 11 20) by (cbn; lia).
  apply prints_kput_base; cbn; lia.
Qed.

Lemma prints_kputx n : 0 <= n < 4294967296 → prints (lt_kputx attempts n) (lit "0x" ++ hex n).
Proof.
  intros Hn. unfold lt_kputx. apply (prints_bind _ _ ["0"%char]); [apply prints_kputc|].
  apply (prints_bind _ _ ["x"%char]); [apply prints_kputc|].
  unfold hex. rewrite <- (num_digits_fuel 16 11 16) by (cbn; lia). apply prints_kput_base; cbn; lia.
Qed.

(** *** Formats *)

(** A format in pieces: characters other than the percent sign, and conversions with a number
    of letters [l] before them. *)
Inductive piece :=
  | PChar (c : ascii)
  | PUnsigned (ls : nat) (n : Z)
  | PDecimal (ls : nat) (n : Z)
  | PHex (ls : nat) (n : Z)
  | PText (ls : nat) (t : cstr).

Definition conv (ls : nat) (c : ascii) : cstr := "%"%char :: replicate ls "l"%char ++ [c].

Definition piece_fmt (p : piece) : cstr :=
  match p with
  | PChar c => [c]
  | PUnsigned ls _ => conv ls "u"
  | PDecimal ls _ => conv ls "d"
  | PHex ls _ => conv ls "x"
  | PText ls _ => conv ls "s"
  end.

Definition piece_args (p : piece) : list varg :=
  match p with
  | PChar _ => []
  | PUnsigned _ n | PDecimal _ n | PHex _ n => [VInt n]
  | PText _ t => [VStr t]
  end.

(** What it prints: numbers, also those of [%d], without a sign. *)
Definition piece_text (p : piece) : cstr :=
  match p with
  | PChar c => [c]
  | PUnsigned _ n | PDecimal _ n => dec (u32 n)
  | PHex _ n => lit "0x" ++ hex (u32 n)
  | PText _ t => t
  end.

Definition piece_ok (p : piece) : Prop := match p with PChar c => c ≠ "%"%char | _ => True end.

Lemma skip_l_conv ls c rest : c ≠ "l"%char → skip_l (replicate ls "l"%char ++ c :: rest) = Some (c, rest).
Proof.
  intros Hc. induction ls as [|ls IH]; cbn [replicate app skip_l].
  - by rewrite (proj2 (Ascii.eqb_neq _ _) Hc).
  - by rewrite Ascii.eqb_refl.
Qed.

(** The output of a format is that of its pieces, whatever the calls of the kernel. *)
Theorem printf_renders ps :
  Forall piece_ok ps →
  prints (lt_printf attempts (ps ≫= piece_fmt) (ps ≫= piece_args)) (ps ≫= piece_text).
Proof.
  intros Hps. unfold lt_printf.
  assert (∀ fuel, (length (ps ≫= piece_fmt) < fuel)%nat →
    prints (lt_printf_loop attempts fuel (ps ≫= piece_fmt) (ps ≫= piece_args)) (ps ≫= piece_text)) as H;
    [|apply H; lia].
  induction Hps as [|p ps Hp Hps IH]; intros fuel Hf; (destruct fuel as [|fuel]; [lia|]).
  - apply prints_skip.
  - rewrite !bind_cons in *. rewrite length_app in Hf.
    destruct p as [c|ls n|ls n|ls n|ls t]; cbn [piece_fmt piece_args piece_text conv app] in *.
    + cbn [lt_printf_loop]. rewrite (proj2 (Ascii.eqb_neq _ _) Hp). cbn [negb].
      apply (prints_bind _ _ [c]); [apply prints_kputc|apply IH]. cbn in Hf. lia.
    + cbn [lt_printf_loop Ascii.eqb]. rewrite <- app_assoc. cbn [app]. rewrite skip_l_conv by done.
      apply prints_bind; [apply prints_kputn, u32_range|apply IH]. cbn in Hf. lia.
    + cbn [lt_printf_loop Ascii.eqb]. rewrite <- app_assoc. cbn [app]. rewrite skip_l_conv by done.
      apply prints_bind; [apply prints_kputn, u32_range|apply IH]. cbn in Hf. lia.
    + cbn [lt_printf_loop Ascii.eqb]. rewrite <- app_assoc. cbn [app]. rewrite skip_l_conv by done.
      apply prints_bind; [apply prints_kputx, u32_range|apply IH]. cbn in Hf. lia.
    + cbn [lt_printf_loop Ascii.eqb]. rewrite <- app_assoc. cbn [app]. rewrite skip_l_conv by done.
      apply prints_bind; [apply prints_kputs|apply IH]. cbn in Hf. lia.
Qed.

End Printing.

(** ** The allocator *)

Section Malloc.
Context {os : Type} (static_malloc_buf : Z).

(** A run of allocations: the addresses handed out. *)
Fixpoint lt_mallocs (sizes : list Z) : prog (dbg os) (list Z) :=
  match sizes with
  | [] => mret []
  | n :: sizes' => a ← lt_malloc static_malloc_buf n; l ← lt_mallocs sizes'; mret (a :: l)
  end.

(** Blocks in order, one behind the other, between [lo] and [hi]. *)
Fixpoint blocks_from (lo hi : Z) (addrs sizes : list Z) : Prop :=
  match addrs, sizes with
  | [], [] => lo <= hi
  | a :: addrs', n :: sizes' => lo <= a ∧ blocks_from (a + n) hi addrs' sizes'
  | _, _ => False
  end.

(** Blocks that are allocated one after the other lie in the buffer without overlap; the first
    request that does not fit stops the server. *)
Theorem malloc_blocks_disjoint sizes (s : dbg os) :
  Forall (λ n, 0 <= n < 2147383648) sizes → 0 <= static_malloc_used s <= STATIC_MALLOC_SIZE →
  let total := foldr Z.add 0 sizes in
  if static_malloc_used s + total <=? STATIC_MALLOC_SIZE then
    ∃ addrs s', lt_mallocs sizes s = Ok addrs s' ∧ static_malloc_used s' = static_malloc_used s + total ∧
      blocks_from (static_malloc_buf + static_malloc_used s) (static_malloc_buf + STATIC_MALLOC_SIZE) addrs sizes
  else ∃ s', lt_mallocs sizes s = Stop Sigsegv s'.
Proof.
  intros Hs. revert s. induction Hs as [|n sizes Hn Hs IH]; intros s Hu; cbn [foldr lt_mallocs].
  - rewrite (proj2 (Z.leb_le _ _)) by lia. exists [], s. split_and!; [done|lia|]. cbn. lia.
  - assert (0 <= foldr Z.add 0 sizes) as Ht by (clear IH; induction Hs; cbn; lia).
    set (s1 := mk_dbg (d_out s) (static_malloc_used s + n) (d_os s)).
    assert (s32 (static_malloc_used s + n) = static_malloc_used s + n) as E32.
    { apply (swrap_small 32); [lia|]. unfold STATIC_MALLOC_SIZE in Hu. change (2 ^ (32 - 1)) with 2147483648. lia. }
    assert (lt_malloc static_malloc_buf n s
      = if static_malloc_used s + n <=? STATIC_MALLOC_SIZE then Ok (static_malloc_buf + static_malloc_used s) s1
        else Stop Sigsegv s1) as E.
    { unfold lt_malloc. rewrite bind_gets, bind_modify, E32. unfold STATIC_MALLOC_SIZE in *. rewrite u32_small by lia.
      by destruct (static_malloc_used s + n <=? 100000). }
    destruct (Z.leb_spec (static_malloc_used s + n) STATIC_MALLOC_SIZE) as [Hfit|Hno].
    + rewrite (bind_Ok _ _ _ _ _ E). specialize (IH s1). cbn [s1 static_malloc_used] in IH.
      replace (static_malloc_used s + n + foldr Z.add 0 sizes)
        with (static_malloc_used s + (n + foldr Z.add 0 sizes)) in IH by lia.
      destruct (static_malloc_used s + (n + foldr Z.add 0 sizes) <=? STATIC_MALLOC_SIZE).
      * destruct IH as (addrs & s' & E' & Hu' & Hbl); [lia|].
        rewrite (bind_Ok _ _ _ _ _ E'). eexists _, s'. split_and!; [reflexivity|done|].
        cbn [blocks_from]. split; [lia|]. by rewrite <- Z.add_assoc.
      * destruct IH as [s' E']; [lia|]. exists s'. by rewrite (bind_Stop _ _ _ _ _ E').
    + rewrite (proj2 (Z.leb_gt _ _)) by lia. exists s1. by rewrite (bind_Stop _ _ _ _ _ E).
Qed.

End Malloc.
