(* ===== verification/MapFile.v ===== *)
(** * The map file of the fault injector

    [passes/edfi/MapFile.cpp]: while the fault-injection pass goes over a program it writes what
    it sees to a file: functions, blocks, instructions with their source lines, faults that could
    be and that were injected.  A string is written the first time it is used and referred to by
    its number from then on; numbers are written seven bits at a time.

    The repository has no reader of the file.  [read_map] is one, written from the comments on the
    tags, which yields the strings of the file as well as its entries; [map_file_roundtrip] shows
    that what it reads is what was written, and that no string is in the file twice. *)
From stdpp Require Import base numbers list gmap.
From Stdlib Require Import ZArith Lia.
From S2P Require Import Prelude.

Definition MAPFILE_STRING : Z := 1.
Definition MAPFILE_FUNCTION : Z := 2.
Definition MAPFILE_BASIC_BLOCK : Z := 3.
Definition MAPFILE_INSTRUCTION : Z := 4.
Definition MAPFILE_DINSTRUCTION : Z := 5.
Definition MAPFILE_FAULT_CANDIDATE : Z := 6.
Definition MAPFILE_FAULT_INJECTED : Z := 7.
Definition MAPFILE_MODULE_NAME : Z := 8.

(** [MapFile]: the bytes written so far, the strings with their numbers, and the next number
    (an [unsigned]). *)
Record mapfile := mk_mapfile { mf_file : list Z; mf_strings : gmap (list Z) Z; mf_next : Z }.

Abbreviation P := (prog mapfile).

Definition file_write (bs : list Z) : P () :=
  modify (λ f, mk_mapfile (mf_file f ++ bs) (mf_strings f) (mf_next f)).
Definition file_put (b : Z) : P () := file_write [u8 b].

Definition getStringRef (s : list Z) : P Z :=
  found ← gets (λ f, mf_strings f !! s);
  match found with
  | Some i => mret i
  | None =>
      file_put MAPFILE_STRING ;;
      file_write (s ++ [0]) ;;
      i ← gets mf_next;
      modify (λ f, mk_mapfile (mf_file f) (<[s := i]> (mf_strings f)) (u32 (mf_next f + 1))) ;;
      mret i
  end.

(** The loop of [writeInt]; an [unsigned long] has ten groups of seven bits. *)
Fixpoint write_loop (fuel : nat) (value : Z) : P () :=
  match fuel with
  | O => halt Diverge
  | S fuel' =>
      let b := Z.land value 0x7f in
      let value := Z.shiftr value 7 in
      if value =? 0 then file_put b
      else file_put (Z.lor b 0x80) ;; write_loop fuel' value
  end.

Definition writeInt (value : Z) : P () := write_loop 10 value.
Definition writeStringRef (i : Z) : P () := writeInt i.

Definition writeModuleName (name : list Z) : P () :=
  i ← getStringRef name; file_put MAPFILE_MODULE_NAME ;; writeStringRef i.

Definition writeBasicBlock : P () := file_put MAPFILE_BASIC_BLOCK.

Definition writeDInstruction (path : list Z) (line : Z) : P () :=
  i ← getStringRef path; file_put MAPFILE_DINSTRUCTION ;; writeStringRef i ;; writeInt line.

Definition writeFaultCandidate (name : list Z) : P () :=
  i ← getStringRef name; file_put MAPFILE_FAULT_CANDIDATE ;; writeStringRef i.

Definition writeFaultInjected (name : list Z) : P () :=
  i ← getStringRef name; file_put MAPFILE_FAULT_INJECTED ;; writeStringRef i.

Definition writeFunction (name relPath : list Z) : P () :=
  i ← getStringRef name; j ← getStringRef relPath;
  file_put MAPFILE_FUNCTION ;; writeStringRef i ;; writeStringRef j.

Definition writeInstruction : P () := file_put MAPFILE_INSTRUCTION.

(** The constructor: the file is emptied and the name of the module written. *)
Definition new_mapfile (moduleName : list Z) : P () :=
  modify (λ _, mk_mapfile [] ∅ 0) ;; writeModuleName moduleName.

(** ** What is written *)

Inductive mf_entry :=
  | MModule (name : list Z)
  | MFunction (name relPath : list Z)
  | MBasicBlock
  | MInstruction
  | MDInstruction (path : list Z) (line : Z)
  | MCandidate (name : list Z)
  | MInjected (name : list Z).

Definition write_entry (e : mf_entry) : P () :=
  match e with
  | MModule name => writeModuleName name
  | MFunction name relPath => writeFunction name relPath
  | MBasicBlock => writeBasicBlock
  | MInstruction => writeInstruction
  | MDInstruction path line => writeDInstruction path line
  | MCandidate name => writeFaultCandidate name
  | MInjected name => writeFaultInjected name
  end.

Fixpoint write_entries (es : list mf_entry) : P () :=
  match es with
  | [] => skip
  | e :: es' => write_entry e ;; write_entries es'
  end.

Definition entry_strings (e : mf_entry) : list (list Z) :=
  match e with
  | MModule s | MCandidate s | MInjected s | MDInstruction s _ => [s]
  | MFunction s t => [s; t]
  | _ => []
  end.

(** Strings are of bytes and hold no NUL; lines are [unsigned]. *)
Definition string_ok (s : list Z) : Prop := Forall (λ c, 0 < c < 256) s.
Definition entry_ok (e : mf_entry) : Prop :=
  Forall string_ok (entry_strings e) ∧ (match e with MDInstruction _ l => 0 <= l < 2 ^ 32 | _ => True end).

(** ** A reader *)

Fixpoint read_int (bs : list Z) : option (Z * list Z) :=
  match bs with
  | [] => None
  | b :: bs' =>
      if b <? 128 then Some (b, bs')
      else '(v, rest) ← read_int bs'; Some (b - 128 + 128 * v, rest)
  end.

Fixpoint read_string (bs : list Z) : option (list Z * list Z) :=
  match bs with
  | [] => None
  | b :: bs' => if b =? 0 then Some ([], bs') else '(s, rest) ← read_string bs'; Some (b :: s, rest)
  end.

Definition read_ref (tbl : list (list Z)) (bs : list Z) : option (list Z * list Z) :=
  '(i, rest) ← read_int bs; s ← tbl !! Z.to_nat i; Some (s, rest).

Definition read_entry (tbl : list (list Z)) (tag : Z) (bs : list Z) : option (mf_entry * list Z) :=
  if tag =? MAPFILE_MODULE_NAME then '(s, r) ← read_ref tbl bs; Some (MModule s, r)
  else if tag =? MAPFILE_FUNCTION then '(s, r) ← read_ref tbl bs; '(t, r) ← read_ref tbl r; Some (MFunction s t, r)
  else if tag =? MAPFILE_BASIC_BLOCK then Some (MBasicBlock, bs)
  else if tag =? MAPFILE_INSTRUCTION then Some (MInstruction, bs)
  else if tag =? MAPFILE_DINSTRUCTION then '(s, r) ← read_ref tbl bs; '(l, r) ← read_int r; Some (MDInstruction s l, r)
  else if tag =? MAPFILE_FAULT_CANDIDATE then '(s, r) ← read_ref tbl bs; Some (MCandidate s, r)
  else if tag =? MAPFILE_FAULT_INJECTED then '(s, r) ← read_ref tbl bs; Some (MInjected s, r)
  else None.

(** Each record takes a byte at least. *)
Fixpoint read_records (fuel : nat) (tbl : list (list Z)) (bs : list Z)
    : option (list (list Z) * list mf_entry) :=
  match bs with
  | [] => Some (tbl, [])
  | tag :: bs' =>
      match fuel with
      | O => None
      | S fuel' =>
          if tag =? MAPFILE_STRING then
            '(s, rest) ← read_string bs'; read_records fuel' (tbl ++ [s]) rest
          else
            '(e, rest) ← read_entry tbl tag bs'; '(t, es) ← read_records fuel' tbl rest; Some (t, e :: es)
      end
  end.

(** The strings and the entries of a file. *)
Definition read_map (bs : list Z) : option (list (list Z) * list mf_entry) := read_records (length bs) [] bs.

(** ** Numbers and strings *)

(** The bytes of a number. *)
Fixpoint int_bytes (fuel : nat) (v : Z) : list Z :=
  match fuel with
  | O => []
  | S fuel' => if v / 128 =? 0 then [v mod 128] else v mod 128 + 128 :: int_bytes fuel' (v / 128)
  end.

Lemma next_group v fuel :
  0 <= v < 128 ^ Z.of_nat (S fuel) → v / 128 ≠ 0 → (0 < fuel)%nat ∧ 0 <= v / 128 < 128 ^ Z.of_nat fuel.
Proof.
  intros Hv Hn. rewrite Nat2Z.inj_succ, Z.pow_succ_r in Hv by lia.
  assert (0 <= v / 128 < 128 ^ Z.of_nat fuel) as H by (split; [apply Z.div_pos; lia|apply Z.div_lt_upper_bound; lia]).
  split; [|done]. destruct fuel; [cbn in H; lia|lia].
Qed.

Lemma write_loop_run fuel v f :
  (0 < fuel)%nat → 0 <= v < 128 ^ Z.of_nat fuel →
  write_loop fuel v f = Ok () (mk_mapfile (mf_file f ++ int_bytes fuel v) (mf_strings f) (mf_next f)).
Proof.
  revert v f. induction fuel as [|fuel IH]; intros v f Hf Hv; [lia|].
  cbn [write_loop int_bytes]. change 0x7f with (Z.ones 7). rewrite Z.land_ones, Z.shiftr_div_pow2 by lia.
  change (2 ^ 7) with 128. pose proof (Z.mod_pos_bound v 128 ltac:(lia)).
  assert (u8 (v mod 128) = v mod 128) as E1 by (apply Z.mod_small; change (2 ^ 8) with 256; lia).
  assert (Z.lor (v mod 128) 0x80 = v mod 128 + 128) as E2.
  { pose proof (Z.add_lor_land (v mod 128) 128) as Ha.
    assert (Z.land (v mod 128) 128 = 0) as E0; [|rewrite E0 in Ha; lia]. apply Z.bits_inj'. intros i Hi.
    rewrite Z.land_spec, Z.bits_0. change 128 with (2 ^ 7). rewrite Z.pow2_bits_eqb by lia.
    destruct (Z.eqb_spec 7 i) as [<-|]; [|apply andb_false_r]. by rewrite Z.mod_pow2_bits_high by lia. }
  destruct (Z.eqb_spec (v / 128) 0) as [E|E]; unfold file_put; [by rewrite E1|].
  rewrite E2. assert (u8 (v mod 128 + 128) = v mod 128 + 128) as -> by (apply Z.mod_small; change (2 ^ 8) with 256; lia).
  unfold file_write. rewrite bind_modify. destruct (next_group v fuel Hv E) as [Hf' Hv']. rewrite IH by done.
  cbn [mf_file mf_strings mf_next]. by rewrite <- app_assoc.
Qed.

Lemma read_int_bytes fuel v rest :
  (0 < fuel)%nat → 0 <= v < 128 ^ Z.of_nat fuel → read_int (int_bytes fuel v ++ rest) = Some (v, rest).
Proof.
  revert v. induction fuel as [|fuel IH]; intros v Hf Hv; [lia|]. cbn [int_bytes].
  pose proof (Z.mod_pos_bound v 128 ltac:(lia)) as Hm. pose proof (Z.div_mod v 128 ltac:(lia)) as Hd.
  destruct (Z.eqb_spec (v / 128) 0) as [E|E]; cbn [app read_int].
  - rewrite (proj2 (Z.ltb_lt _ _)) by lia. do 2 f_equal. lia.
  - rewrite (proj2 (Z.ltb_ge _ _)) by lia. destruct (next_group v fuel Hv E) as [Hf' Hv']. rewrite IH by done.
    cbn. do 2 f_equal. lia.
Qed.

Lemma read_string_bytes s rest : string_ok s → read_string (s ++ 0 :: rest) = Some (s, rest).
Proof.
  induction 1 as [|c s Hc Hs IH]; [done|]. cbn. rewrite (proj2 (Z.eqb_neq c 0)) by lia. by rewrite IH.
Qed.

Lemma writeInt_run v f :
  0 <= v < 2 ^ 32 → writeInt v f = Ok () (mk_mapfile (mf_file f ++ int_bytes 10 v) (mf_strings f) (mf_next f)).
Proof. intros Hv. apply write_loop_run; [lia|]. change (128 ^ Z.of_nat 10) with (2 ^ 70). lia. Qed.

Lemma read_int_int v rest : 0 <= v < 2 ^ 32 → read_int (int_bytes 10 v ++ rest) = Some (v, rest).
Proof. intros Hv. apply read_int_bytes; [lia|]. change (128 ^ Z.of_nat 10) with (2 ^ 70). lia. Qed.

(** ** Reading what was written *)

Lemma read_records_mono fuel k : ∀ tbl bs es,
  read_records fuel tbl bs = Some es → read_records (fuel + k) tbl bs = Some es.
Proof.
  induction fuel as [|fuel IH]; intros tbl bs es; destruct bs as [|tag bs]; cbn [read_records Nat.add]; [by destruct k|done|done|].
  destruct (tag =? MAPFILE_STRING).
  - destruct (read_string bs) as [[s rest]|]; cbn; [apply IH|done].
  - destruct (read_entry tbl tag bs) as [[e rest]|]; cbn; [|done].
    destruct (read_records fuel tbl rest) as [[t es']|] eqn:E; cbn; [|done]. by rewrite (IH _ _ _ E).
Qed.

(** The bytes [bs] are [n] records that a reader with the strings [tbl] takes for the entries
    [es], and after which it has the strings [tbl']. *)
Definition emits (n : nat) (tbl : list (list Z)) (bs : list Z) (es : list mf_entry) (tbl' : list (list Z)) : Prop :=
  (n <= length bs)%nat ∧
  ∀ fuel rest, read_records (n + fuel) tbl (bs ++ rest)
    = '(t, es') ← read_records fuel tbl' rest; Some (t, es ++ es').

Lemma emits_nil tbl : emits 0 tbl [] [] tbl.
Proof. split; [done|]. intros fuel rest. cbn. by destruct (read_records fuel tbl rest) as [[]|]. Qed.

Lemma emits_app n1 n2 tbl t1 t2 b1 b2 e1 e2 :
  emits n1 tbl b1 e1 t1 → emits n2 t1 b2 e2 t2 → emits (n1 + n2) tbl (b1 ++ b2) (e1 ++ e2) t2.
Proof.
  intros [L1 R1] [L2 R2]. split; [rewrite length_app; lia|]. intros fuel rest.
  rewrite <- Nat.add_assoc, <- app_assoc, R1, R2.
  destruct (read_records fuel t2 rest) as [[]|]; cbn; [by rewrite app_assoc|done].
Qed.

Lemma emits_string tbl s : string_ok s → emits 1 tbl (MAPFILE_STRING :: s ++ [0]) [] (tbl ++ [s]).
Proof.
  intros Hs. split; [cbn; lia|]. intros fuel rest. cbn [Nat.add app read_records]. rewrite <- app_assoc. cbn [app].
  change (MAPFILE_STRING =? MAPFILE_STRING) with true. cbn match. rewrite read_string_bytes by done. cbn.
  by destruct (read_records fuel (tbl ++ [s]) rest) as [[]|].
Qed.

Lemma emits_entry tbl tag bs e :
  tag ≠ MAPFILE_STRING → (∀ rest, read_entry tbl tag (bs ++ rest) = Some (e, rest)) → emits 1 tbl (tag :: bs) [e] tbl.
Proof.
  intros Ht He. split; [cbn; lia|]. intros fuel rest. cbn [Nat.add app read_records].
  rewrite (proj2 (Z.eqb_neq _ _)) by done. by rewrite He.
Qed.

(** The numbers of the strings are their places in the reader's list, which has each once. *)
Record mf_ok (tbl : list (list Z)) (f : mapfile) : Prop := {
  mo_strings : ∀ s i, mf_strings f !! s = Some i → 0 <= i < 2 ^ 32 ∧ tbl !! Z.to_nat i = Some s;
  mo_all : ∀ s, s ∈ tbl → is_Some (mf_strings f !! s);
  mo_once : NoDup tbl;
  mo_next : mf_next f = zlen tbl;
}.

Lemma read_ref_int tbl i s rest :
  0 <= i < 2 ^ 32 → tbl !! Z.to_nat i = Some s → read_ref tbl (int_bytes 10 i ++ rest) = Some (s, rest).
Proof. intros Hi Hs. unfold read_ref. rewrite read_int_int by done. cbn. by rewrite Hs. Qed.

(** What a writer does: bytes are added, and the reader understands them. *)
Definition wrote {A} (m : P A) (tbl : list (list Z)) (f : mapfile) (k : Z) (es : list mf_entry)
    (Q : A → list (list Z) → Prop) : Prop :=
  ∃ a f' tbl' bs n, m f = Ok a f' ∧ mf_file f' = mf_file f ++ bs ∧ mf_ok tbl' f' ∧ emits n tbl bs es tbl' ∧
    tbl `prefix_of` tbl' ∧ zlen tbl' <= zlen tbl + k ∧ Q a tbl'.

Lemma wrote_bind {A B} (m : P A) (g : A → P B) tbl f k1 k2 e1 e2 Q R :
  wrote m tbl f k1 e1 Q →
  (∀ a f' tbl', mf_ok tbl' f' → tbl `prefix_of` tbl' → zlen tbl' <= zlen tbl + k1 → Q a tbl' → wrote (g a) tbl' f' k2 e2 R) →
  wrote (m ≫= g) tbl f (k1 + k2) (e1 ++ e2) R.
Proof.
  intros (a & f1 & t1 & b1 & n1 & E1 & F1 & O1 & M1 & P1 & L1 & HQ) Hg.
  destruct (Hg a f1 t1 O1 P1 L1 HQ) as (b & f2 & t2 & b2 & n2 & E2 & F2 & O2 & M2 & P2 & L2 & HR).
  exists b, f2, t2, (b1 ++ b2), (n1 + n2)%nat. rewrite (bind_Ok _ _ _ _ _ E1). split_and!; try done.
  - by rewrite F2, F1, app_assoc.
  - by eapply emits_app.
  - by etransitivity.
  - lia.
Qed.

Lemma getStringRef_wrote tbl f s :
  mf_ok tbl f → string_ok s → zlen tbl + 1 < 2 ^ 32 →
  wrote (getStringRef s) tbl f 1 [] (λ i tbl', 0 <= i < 2 ^ 32 ∧ tbl' !! Z.to_nat i = Some s).
Proof.
  intros [Hs Hall Hnd Hn] Hok Hlen. unfold wrote, getStringRef. rewrite bind_gets. destruct (mf_strings f !! s) as [i|] eqn:E.
  - destruct (Hs _ _ E). exists i, f, tbl, [], 0%nat. rewrite app_nil_r. split_and!; try done; [apply emits_nil|lia..].
  - unfold file_put, file_write. rewrite !bind_modify, bind_gets, bind_modify. cbn [mf_file mf_strings mf_next].
    eexists _, _, (tbl ++ [s]), _, 1%nat. split; [reflexivity|]. cbn [mf_file mf_strings mf_next]. split_and!.
    + rewrite <- app_assoc. reflexivity.
    + split; cbn [mf_strings mf_next]; [| | |rewrite Hn, u32_small, length_app by (change (2 ^ 32) with 4294967296 in Hlen; lia); cbn; lia].
      * intros t i. destruct (decide (t = s)) as [->|Hne].
        -- rewrite lookup_insert_eq. intros [= <-]. rewrite Hn. split; [lia|]. rewrite Nat2Z.id. apply list_lookup_middle. done.
        -- rewrite lookup_insert_ne by done. intros Hi. destruct (Hs _ _ Hi) as [Hr Hl]. split; [done|]. by apply lookup_app_l_Some.
      * intros t [Ht| ->%list_elem_of_singleton]%elem_of_app; [|rewrite lookup_insert_eq; by eexists].
        apply lookup_insert_is_Some'. right. by apply Hall.
      * apply NoDup_app. split_and!; [done| |apply NoDup_singleton].
        intros t Ht ->%list_elem_of_singleton. destruct (Hall _ Ht) as [i Hi]. congruence.
    + by apply emits_string.
    + apply prefix_app_r. done.
    + rewrite length_app. cbn. lia.
    + lia.
    + lia.
    + rewrite Hn, Nat2Z.id. by apply list_lookup_middle.
Qed.

(** A record with its tag and numbers. *)
Definition write_record (tag : Z) (vs : list Z) : P () := foldl (λ m v, m ;; writeInt v) (file_put tag) vs.

Lemma write_record_run tag vs f :
  0 <= tag < 256 → Forall (λ v, 0 <= v < 2 ^ 32) vs →
  write_record tag vs f = Ok () (mk_mapfile (mf_file f ++ tag :: (vs ≫= int_bytes 10)) (mf_strings f) (mf_next f)).
Proof.
  intros Ht Hvs. unfold write_record. induction vs as [|v vs IH] using rev_ind.
  - cbn. unfold file_put, file_write, modify. by rewrite (Z.mod_small tag 256 Ht : u8 tag = tag).
  - apply Forall_app in Hvs as [Hvs Hv]. apply Forall_cons in Hv as [Hv _]. rewrite foldl_app. cbn [foldl].
    rewrite (bind_Ok _ _ _ _ _ (IH Hvs)), writeInt_run by done. cbn [mf_file mf_strings mf_next].
    rewrite bind_app, <- app_assoc. cbn. by rewrite app_nil_r.
Qed.

Lemma write_record_wrote tbl f tag vs e :
  mf_ok tbl f → 1 < tag < 256 → Forall (λ v, 0 <= v < 2 ^ 32) vs →
  (∀ rest, read_entry tbl tag ((vs ≫= int_bytes 10) ++ rest) = Some (e, rest)) →
  wrote (write_record tag vs) tbl f 0 [e] (λ _ _, True).
Proof.
  intros Ho Ht Hvs He. exists (), (mk_mapfile (mf_file f ++ tag :: (vs ≫= int_bytes 10)) (mf_strings f) (mf_next f)), tbl,
    (tag :: (vs ≫= int_bytes 10)), 1%nat.
  split_and!; [apply write_record_run; [lia|done]|done|by destruct Ho|apply emits_entry; [unfold MAPFILE_STRING; lia|done]|done|lia|done].
Qed.

(** An entry with one string, and perhaps a number after it. *)
Lemma one_string_wrote tbl f s tag vs e :
  mf_ok tbl f → string_ok s → zlen tbl + 1 < 2 ^ 32 → 1 < tag < 256 → Forall (λ v, 0 <= v < 2 ^ 32) vs →
  (∀ t i rest, 0 <= i < 2 ^ 32 → t !! Z.to_nat i = Some s → read_entry t tag (((i :: vs) ≫= int_bytes 10) ++ rest) = Some (e, rest)) →
  wrote (i ← getStringRef s; write_record tag (i :: vs)) tbl f 1 [e] (λ _ _, True).
Proof.
  intros Ho Hs Hlen Ht Hvs He. eapply (wrote_bind _ _ _ _ 1 0 []); [by apply getStringRef_wrote|].
  intros i f' tbl' Ho' _ _ [Hi Hl]. apply write_record_wrote; [done|done|by constructor|]. intros rest. by apply He.
Qed.

Lemma only_string_wrote tbl f s tag e :
  mf_ok tbl f → string_ok s → zlen tbl + 1 < 2 ^ 32 → 1 < tag < 256 →
  (∀ t rest bs, read_ref t bs = Some (s, rest) → read_entry t tag bs = Some (e, rest)) →
  wrote (i ← getStringRef s; write_record tag [i]) tbl f 1 [e] (λ _ _, True).
Proof.
  intros Ho Hs Hlen Ht He. apply one_string_wrote; [done..|]. intros t i rest Hi Hr.
  cbn [mbind list_bind]. rewrite app_nil_r. apply He. by apply read_ref_int.
Qed.

Lemma write_entry_wrote tbl f e :
  mf_ok tbl f → entry_ok e → zlen tbl + zlen (entry_strings e) < 2 ^ 32 →
  wrote (write_entry e) tbl f (zlen (entry_strings e)) [e] (λ _ _, True).
Proof.
  intros Ho [Hs Hl] Hlen. destruct e as [s|s t| | |s l|s|s]; cbn [entry_strings length write_entry] in *;
    try (apply Forall_cons in Hs as [Hs Ht]).
  - apply (only_string_wrote tbl f s MAPFILE_MODULE_NAME); try done. intros t rest bs E. unfold read_entry. cbn -[read_ref]. by rewrite E.
  - apply Forall_cons in Ht as [Ht _]. unfold writeFunction.
    eapply (wrote_bind (getStringRef s) (λ i, j ← getStringRef t; write_record MAPFILE_FUNCTION [i; j]) tbl f 1 1 [] [_]);
      [apply getStringRef_wrote; [done|done|lia]|].
    intros i f1 t1 Ho1 _ Hl1 [Hi Hli]. eapply (wrote_bind _ _ _ _ 1 0 []); [apply getStringRef_wrote; [done|done|lia]|].
    intros j f2 t2 Ho2 Hp _ [Hj Hlj]. apply write_record_wrote; [done|done|by rewrite !Forall_cons|].
    intros rest. cbn [mbind list_bind]. rewrite app_nil_r, <- app_assoc. unfold read_entry. cbn -[read_ref int_bytes].
    rewrite (read_ref_int t2 i s) by (done || by eapply prefix_lookup_Some). cbn -[read_ref int_bytes].
    by rewrite (read_ref_int t2 j t).
  - by apply (write_record_wrote tbl f MAPFILE_BASIC_BLOCK []).
  - by apply (write_record_wrote tbl f MAPFILE_INSTRUCTION []).
  - apply (one_string_wrote tbl f s MAPFILE_DINSTRUCTION [l]); try done; [by constructor|].
    intros t i rest Hi Hr. cbn [mbind list_bind]. rewrite app_nil_r, <- app_assoc. unfold read_entry. cbn -[read_ref read_int int_bytes].
    rewrite (read_ref_int t i s) by done. cbn -[read_int int_bytes]. by rewrite read_int_int.
  - apply (only_string_wrote tbl f s MAPFILE_FAULT_CANDIDATE); try done. intros t rest bs E. unfold read_entry. cbn -[read_ref]. by rewrite E.
  - apply (only_string_wrote tbl f s MAPFILE_FAULT_INJECTED); try done. intros t rest bs E. unfold read_entry. cbn -[read_ref]. by rewrite E.
Qed.

Lemma write_entries_wrote es : ∀ tbl f,
  mf_ok tbl f → Forall entry_ok es → zlen tbl + zlen (es ≫= entry_strings) < 2 ^ 32 →
  wrote (write_entries es) tbl f (zlen (es ≫= entry_strings)) es (λ _ _, True).
Proof.
  induction es as [|e es IH]; intros tbl f Ho Hok Hlen.
  - exists (), f, tbl, [], 0%nat. rewrite app_nil_r. split_and!; try done; [apply emits_nil|cbn; lia].
  - apply Forall_cons in Hok as [He Hok]. cbn [mbind list_bind] in *. rewrite length_app, Nat2Z.inj_add in *.
    cbn [write_entries]. change (e :: es) with ([e] ++ es).
    eapply wrote_bind; [apply write_entry_wrote; [done|done|lia]|]. intros _ f' tbl' Ho' _ Hl' _. apply IH; [done|done|lia].
Qed.

(** C25: The map file can be read back.  Whatever is written to a new map file, with strings that
    hold no NUL and fewer than 2^32 of them, a reader that follows the comments on the tags
    ([read_map]; the repository has none of its own) finds the name of the module followed by what
    was written, in order and with its strings and lines, and no string is in the file more than
    once. *)
Theorem map_file_roundtrip (name : list Z) (es : list mf_entry) (f0 : mapfile) :
  string_ok name → Forall entry_ok es → 1 + zlen (es ≫= entry_strings) < 2 ^ 32 →
  ∃ f tbl, (new_mapfile name ;; write_entries es) f0 = Ok () f ∧
    read_map (mf_file f) = Some (tbl, MModule name :: es) ∧ NoDup tbl.
Proof.
  intros Hn Hes Hlen. set (f1 := mk_mapfile [] ∅ 0).
  destruct (write_entries_wrote (MModule name :: es) [] f1) as (a & f & tbl & bs & n & E & Ef & Ho & [Hn' He] & _).
  - split; [|by intros s Hs%elem_of_nil|constructor|done]. intros s i. cbn. by rewrite lookup_empty.
  - constructor; [|done]. split; [by constructor|done].
  - cbn [mbind list_bind entry_strings app length]. lia.
  - exists f, tbl. destruct a. split; [exact E|]. split; [|by destruct Ho]. cbn in Ef. rewrite Ef. unfold read_map.
    specialize (He 0%nat []). rewrite Nat.add_0_r, app_nil_r in He. cbn in He. rewrite app_nil_r in He.
    replace (length bs) with (n + (length bs - n))%nat by lia. by apply read_records_mono.
Qed.

Lemma map_file_roundtrip_witness :
  let es := [MFunction [102] [97; 46; 99]; MBasicBlock; MDInstruction [97; 46; 99] 300; MCandidate [120]; MInjected [120]] in
  ∃ f tbl, (new_mapfile [109] ;; write_entries es) (mk_mapfile [] ∅ 0) = Ok () f ∧
    read_map (mf_file f) = Some (tbl, MModule [109] :: es) ∧ NoDup tbl.
Proof.
  apply (map_file_roundtrip [109] [MFunction [102] [97; 46; 99]; MBasicBlock; MDInstruction [97; 46; 99] 300; MCandidate [120]; MInjected [120]] (mk_mapfile [] ∅ 0)).
  - repeat constructor.
  - repeat constructor; discriminate.
  - reflexivity.
Defined.
