(* ===== verification/SiteIds.v ===== *)
(** * Numbers of call sites

    The passes number call sites, blocks and instructions with metadata of the program
    ([passes/include/common/pass_common.h], [assignIDs] and what reads it back); the run-time
    libraries index their tables with the numbers.  Modelled with it are the passes that number:
    [hybprep] ([HybPrepPass.h], [HybPrepPass.cpp]), the numbering of windows for profiling
    ([ltCkptPass.cpp]) and the pass that inserts suicide triggers ([ltCkptPassFI.cpp]).

    LLVM is the class [LLVM]: the shape of a module (its functions, blocks and instructions),
    and its metadata with the laws LLVM documents for it.

    The elements of a list get consecutive numbers ([assignIDs_spec]), which are read back
    ([getAssignedID_inst], [getAssignedID_block]); numbering in several calls that do not reset
    the counter is numbering the concatenation ([assign_in_turn]); after [hybprep] every library
    call of the program has a number of its own ([libcalls_numbered]); a trigger of the suicide
    pass is armed and in range of its table ([suicide_site_fires]). *)
From stdpp Require Import base numbers list gmap strings.
From Stdlib Require Import ZArith Lia.
From S2P Require Import Prelude Ctx Lifecycle.

(** ** LLVM *)

(** The operands of a metadata node; [None] is one that is not an integer constant. *)
Definition MDNode : Type := list (option Z).

Class LLVM := {
  Value : Type;
  #[global] Value_eq :: EqDecision Value;
  IRModule : Type;
  Shape : Type;
  shape : IRModule → Shape;
  (* dyn_cast *)
  isa_function : Value → bool;
  isa_block : Value → bool;
  isa_inst : Value → bool;
  isa_call : Value → bool;
  (* the module, its functions, their blocks and the instructions of these *)
  functions : Shape → list Value;
  getFunction : Shape → string → option Value;
  fun_blocks : Shape → Value → list Value;
  block_insts : Shape → Value → list Value;
  getFirstNonPHI : Shape → Value → option Value;
  nextInst : Shape → Value → option Value;
  users : Shape → Value → list Value;
  num_operands : Shape → Value → nat;
  dominates_use : Shape → Value → Value → nat → bool;
  (* of a function *)
  getName : Value → string;
  getSection : Value → string;
  isIntrinsic : Value → bool;
  isDeclaration : Value → bool;
  (* of a call; [None] when it is indirect *)
  getCalledFunction : Value → option Value;
  (* metadata *)
  getMetadata : IRModule → Value → string → option MDNode;
  setMetadata : Value → string → MDNode → IRModule → IRModule;
  getNamedMetadata : IRModule → string → option (list MDNode);
  getOrInsertNamedMetadata : string → IRModule → IRModule;
  dropAllReferences : string → IRModule → IRModule;
  addOperand : string → MDNode → IRModule → IRModule;
  (* changes of the code *)
  eraseFromParent : Value → IRModule → IRModule;
  unifyExitNodes : Value → IRModule → IRModule;
  setArgOperand : Value → nat → Z → IRModule → IRModule;
  insertCallBefore : string → list Z → Value → IRModule → IRModule;
  setInitializer : string → list Z → IRModule → IRModule;
  initializer : IRModule → string → option (list Z);
}.

Definition fun_insts `{LLVM} (sh : Shape) (f : Value) : list Value :=
  concat (block_insts sh <$> fun_blocks sh f).

(** What LLVM documents. *)
Class LLVMLaws `{LLVM} := {
  get_set_same m v ns n : getMetadata (setMetadata v ns n m) v ns = Some n;
  get_set_other m v ns n v' ns' : (v, ns) ≠ (v', ns') →
    getMetadata (setMetadata v ns n m) v' ns' = getMetadata m v' ns';
  named_set m v ns n k : getNamedMetadata (setMetadata v ns n m) k = getNamedMetadata m k;
  named_insert m k k' : getNamedMetadata (getOrInsertNamedMetadata k m) k' =
    if decide (k = k') then Some (default [] (getNamedMetadata m k)) else getNamedMetadata m k';
  named_drop m k k' : getNamedMetadata (dropAllReferences k m) k' =
    if decide (k = k') then (λ _, []) <$> getNamedMetadata m k else getNamedMetadata m k';
  named_add m k n k' : getNamedMetadata (addOperand k n m) k' =
    if decide (k = k') then (λ l, l ++ [n]) <$> getNamedMetadata m k else getNamedMetadata m k';
  get_insert m k v ns : getMetadata (getOrInsertNamedMetadata k m) v ns = getMetadata m v ns;
  get_drop m k v ns : getMetadata (dropAllReferences k m) v ns = getMetadata m v ns;
  get_add m k n v ns : getMetadata (addOperand k n m) v ns = getMetadata m v ns;
  shape_set m v ns n : shape (setMetadata v ns n m) = shape m;
  shape_insert m k : shape (getOrInsertNamedMetadata k m) = shape m;
  shape_drop m k : shape (dropAllReferences k m) = shape m;
  shape_add m k n : shape (addOperand k n m) = shape m;
  inst_not_function v : isa_inst v = true → isa_function v = false;
  inst_not_block v : isa_inst v = true → isa_block v = false;
  block_not_function v : isa_block v = true → isa_function v = false;
  call_is_inst v : isa_call v = true → isa_inst v = true;
  first_in_block sh b i : getFirstNonPHI sh b = Some i → i ∈ block_insts sh b;
  insts_are_insts sh f i : i ∈ fun_insts sh f → isa_inst i = true;
  insts_nodup sh f : NoDup (fun_insts sh f);
  insts_disjoint sh f f' i : i ∈ fun_insts sh f → i ∈ fun_insts sh f' → f = f';
  (* unifying the exits of a function changes no other one *)
  functions_unify m f : functions (shape (unifyExitNodes f m)) = functions (shape m);
  insts_unify m f f' : f ≠ f' →
    fun_insts (shape (unifyExitNodes f m)) f' = fun_insts (shape m) f';
  blocks_unify m f f' : fun_blocks (shape (unifyExitNodes f m)) f' = [] ↔ fun_blocks (shape m) f' = [];
  named_unify m f k : getNamedMetadata (unifyExitNodes f m) k = getNamedMetadata m k;
  (* changes of operands, calls and initial values keep the metadata *)
  get_arg m v a z v' ns : getMetadata (setArgOperand v a z m) v' ns = getMetadata m v' ns;
  shape_arg m v a z : shape (setArgOperand v a z m) = shape m;
  get_call m h a v v' ns : getMetadata (insertCallBefore h a v m) v' ns = getMetadata m v' ns;
  get_init m k l v ns : getMetadata (setInitializer k l m) v ns = getMetadata m v ns;
  init_init m k l k' : initializer (setInitializer k l m) k' =
    if decide (k = k') then Some l else initializer m k';
  call_has_next m ci : isa_call ci = true → is_Some (nextInst (shape m) ci);
  init_call m h a v k : initializer (insertCallBefore h a v m) k = initializer m k;
}.

(** The numbering changes the module in no other way than its metadata. *)
Ltac llvm := rewrite ?get_add, ?get_drop, ?get_insert, ?named_set, ?shape_set, ?shape_add,
  ?shape_drop, ?shape_insert.

Section SiteIds.
Context `{LLVM}.

Abbreviation P := (prog IRModule).

(** ** [PassUtil] *)

(** [createMDNodeForConstant]: a node with one 64-bit constant. *)
Definition createMDNodeForConstant (constantValue : Z) : MDNode := [Some (u64 constantValue)].

(** The instruction that carries the number of an element; [None] where the code goes on with
    the next element. *)
Definition target_inst (sh : Shape) (v : Value) : option Value :=
  let targetInst := if isa_inst v then Some v else None in
  if isa_function v && bool_decide (fun_blocks sh v = []) then None else
  let targetInst :=
    if isa_function v
    then match fun_blocks sh v with b :: _ => getFirstNonPHI sh b | [] => targetInst end
    else targetInst in
  if isa_block v then getFirstNonPHI sh v else targetInst.

Fixpoint assign_loop (ns : string) (els : list Value) (last : Z) (m : IRModule) : Z * IRModule :=
  match els with
  | [] => (last, m)
  | v :: els' =>
      match target_inst (shape m) v with
      | None => assign_loop ns els' last m
      | Some i =>
          let last := u64 (last + 1) in
          assign_loop ns els' last (setMetadata i ns (createMDNodeForConstant last) m)
      end
  end.

(** The value of the first operand; a null pointer is followed when it is no constant. *)
Definition first_operand (n : MDNode) : P Z :=
  match n with
  | Some z :: _ => mret z
  | None :: _ => halt Sigsegv
  | [] => mret 0
  end.

Definition getNextUnassignedID (ns suffix : string) : P Z :=
  nmdn ← gets (λ m, getNamedMetadata m (ns +:+ suffix));
  match nmdn with
  | Some (n :: _) => first_operand n
  | _ => mret 0
  end.

Definition LAST_ID_HOLDER : string := "_LAST_ID_HOLDER".

Definition assignIDs (els : list Value) (ns suffix : string) (idStart : Z) (forceReset : bool) : P Z :=
  existing ← (if forceReset then mret 0 else getNextUnassignedID ns suffix);
  let last := if existing =? 0 then idStart else existing in
  last ← (λ m, let '(l, m') := assign_loop ns els last m in Ok l m');
  let holder := ns +:+ suffix in
  modify (getOrInsertNamedMetadata holder) ;;
  modify (dropAllReferences holder) ;;
  modify (addOperand holder (createMDNodeForConstant last)) ;;
  mret last.

(** The first metadata node among some instructions. *)
Definition first_node (m : IRModule) (ns : string) (il : list Value) : option MDNode :=
  head (omap (λ i, getMetadata m i ns) il).

Definition getAssignedID (v : Value) (ns : string) : P Z :=
  n ← gets (λ m,
    let sh := shape m in
    if isa_function v && negb (bool_decide (fun_blocks sh v = [])) then first_node m ns (fun_insts sh v)
    else if isa_block v then first_node m ns (block_insts sh v)
    else if isa_inst v then getMetadata m v ns else None);
  match n with
  | None => mret 0
  | Some n => first_operand n
  end.

Definition isLibCallInst (sh : Shape) (ci : Value) : bool :=
  match getCalledFunction ci with
  | Some f => negb (isIntrinsic f) && (isDeclaration f || bool_decide (fun_blocks sh f = []))
  | None => false
  end.

Definition isInAnyOfSections (f : Value) (sections : list string) : bool :=
  existsb (λ s, bool_decide (getSection f = s)) sections.

(** ** [hybprep] *)

Definition HYBPREP_NAMESPACE_ALL_LIBCALLS : string := "HYBPREP_ALL_LIBCALLS".
Definition HYBPREP_NAMESPACE_LIBCALLS : string := "HYBPREP_LIBCALL".
Definition HYBPREP_NAMESPACE_CALLINSTS : string := "HYBPREP_CI".
Definition HYBPREP_NAMESPACE_LOCALS : string := "HYBPREP_LOCALS".
Definition HYBPREP_NAMESPACE_BBS : string := "HYBPREP_BBS".
Definition HYBPREP_NAMESPACE_FUNC_INSTRS : string := "HYBPREP_I".

(** [std::string::find] with a result other than [npos]. *)
Fixpoint contains (pat s : string) : bool :=
  String.prefix pat s || match s with EmptyString => false | String.String _ s' => contains pat s' end.

Definition libcalls_of (sh : Shape) (f : Value) : list Value :=
  filter (λ i, isa_call i = true ∧ isLibCallInst sh i = true) (fun_insts sh f).

(** [markLibCalls]; its result is added to [allLibCallInsts]. *)
Definition markLibCalls (f : Value) : P (list Value) :=
  sh ← gets shape;
  let libCallInsts := libcalls_of sh f in
  assignIDs libCallInsts HYBPREP_NAMESPACE_LIBCALLS LAST_ID_HOLDER 0 true ;;
  mret libCallInsts.

Definition to_mark (ckptHooksPrefix : string) (sh : Shape) (i : Value) : bool :=
  isa_call i && negb (isLibCallInst sh i) &&
  match getCalledFunction i with
  | Some f => negb (isIntrinsic f) &&
      (bool_decide (ckptHooksPrefix = "") || negb (contains ckptHooksPrefix (getName f)))
  | None => false
  end.

Definition markCallInsts (ckptHooksPrefix : string) (f : Value) : P Z :=
  sh ← gets shape;
  assignIDs (filter (λ i, to_mark ckptHooksPrefix sh i = true) (fun_insts sh f))
    HYBPREP_NAMESPACE_CALLINSTS LAST_ID_HOLDER 0 true.

(** A value with users that dominates every operand of every user. *)
Definition is_local (sh : Shape) (i : Value) : bool :=
  negb (bool_decide (users sh i = [])) &&
  forallb (λ u, forallb (dominates_use sh i u) (seq 0 (num_operands sh u))) (users sh i).

Definition markLocals (f : Value) : P Z :=
  sh ← gets shape;
  assignIDs (filter (λ i, is_local sh i = true) (fun_insts sh f))
    HYBPREP_NAMESPACE_LOCALS LAST_ID_HOLDER 0 true.

Definition markBasicBlocks (f : Value) : P Z :=
  sh ← gets shape;
  assignIDs (fun_blocks sh f) HYBPREP_NAMESPACE_BBS LAST_ID_HOLDER 0 false.

Definition markInstructions (f : Value) : P Z :=
  sh ← gets shape;
  assignIDs (fun_insts sh f) HYBPREP_NAMESPACE_FUNC_INSTRS ("_LAST_ID_" +:+ getName f) 0 true.

(** The calls to remove; the name of the callee of an indirect call is read through NULL. *)
Fixpoint hooks_to_remove (ckptHooksPrefix : string) (il : list Value) : P (list Value) :=
  match il with
  | [] => mret []
  | i :: il' =>
      if isa_call i then
        match getCalledFunction i with
        | None => halt Sigsegv
        | Some f =>
            l ← hooks_to_remove ckptHooksPrefix il';
            mret (if contains ckptHooksPrefix (getName f) then i :: l else l)
        end
      else hooks_to_remove ckptHooksPrefix il'
  end.

Definition removeCkptHooks (ckptHooksPrefix : string) (f : Value) : P () :=
  sh ← gets shape;
  l ← hooks_to_remove ckptHooksPrefix (fun_insts sh f);
  modify (λ m, foldl (λ m i, eraseFromParent i m) m l).

(** The options of the pass. *)
Record hybprep_opts := mk_hybprep_opts {
  skipSectionsOpt : list string;
  skipCkptHooksPrefixOpt : string;
  removeCkptHooksSectionOpt : string;
  markBasicBlocksOpt : bool;
}.

(** What [runOnModule] does with a function; the library calls it adds. *)
Definition prep_function (o : hybprep_opts) (f : Value) : P (list Value) :=
  if isIntrinsic f || isDeclaration f then mret [] else
  let removeSections :=
    if bool_decide (removeCkptHooksSectionOpt o = "") then [] else [removeCkptHooksSectionOpt o] in
  when (isInAnyOfSections f removeSections) (removeCkptHooks (skipCkptHooksPrefixOpt o) f) ;;
  if isInAnyOfSections f (skipSectionsOpt o) then mret [] else
  modify (unifyExitNodes f) ;;
  l ← markLibCalls f;
  markCallInsts (skipCkptHooksPrefixOpt o) f ;;
  markLocals f ;;
  when (markBasicBlocksOpt o) (markBasicBlocks f ;; skip) ;;
  markInstructions f ;;
  mret l.

Fixpoint prep_functions (o : hybprep_opts) (fs : list Value) : P (list Value) :=
  match fs with
  | [] => mret []
  | f :: fs' => l ← prep_function o f; l' ← prep_functions o fs'; mret (l ++ l')
  end.

(** [HybPrepPass::runOnModule], with the list of all library calls it numbers. *)
Definition hybprep_runOnModule (o : hybprep_opts) (passRunCount : Z) : P (bool * list Value) :=
  if negb (passRunCount =? 0) then mret (false, []) else
  sh ← gets shape;
  all ← prep_functions o (functions sh);
  assignIDs all HYBPREP_NAMESPACE_ALL_LIBCALLS LAST_ID_HOLDER 0 true ;;
  mret (true, all).

(** ** The numbers of windows *)

(** [CONSTANT_INT]: a constant of 32 bits. *)
Definition CONSTANT_INT (v : Z) : Z := u32 v.

Fixpoint set_site_args (ns : string) (argNum : nat) (calls : list Value) : P () :=
  match calls with
  | [] => skip
  | ci :: calls' =>
      siteId ← getAssignedID ci ns;
      modify (setArgOperand ci argNum (CONSTANT_INT siteId)) ;;
      set_site_args ns argNum calls'
  end.

Definition initializeWindowProfiling (hook : Value) (ns : string) (startId : Z) (argNum : nat) : P Z :=
  sh ← gets shape;
  let calls := filter (λ u, isa_call u = true) (users sh hook) in
  last ← assignIDs calls ns LAST_ID_HOLDER startId true;
  assert (negb (last =? 0)) ;;
  set_site_args ns argNum calls ;;
  mret last.

(** ** The suicide pass *)

Definition LTCKPT_NAMESPACE_FI : string := "LTCKPT_FI".
Definition LTCKPT_FI_MAX_SUICIDE_SITES : Z := 4096.
Definition LTCKPT_FI_SUICIDE_BOARD : string := "ltckpt_suicide_board".
Definition LTCKPT_FI_SUICIDEBOARD_SIZE_VARNAME : string := "ltckpt_suicide_last_site_id".
Definition LTCKPT_FI_SUICIDE_HOOK_NAME : string := "ltckpt_fi_suicide_per_site".

Definition isInLtckptSection (f : Value) : bool :=
  bool_decide (getSection f = "ltckpt_functions") || bool_decide (getSection f = "rcvry_functions").

(** [LTCKPT_IS_EXTERN_FUNC]; the address of an entry block is not NULL. *)
Definition LTCKPT_IS_EXTERN_FUNC (f : Value) : bool := negb (isIntrinsic f) && isDeclaration f.

Definition extern_call (i : Value) : bool :=
  isa_call i && match getCalledFunction i with Some f => LTCKPT_IS_EXTERN_FUNC f | None => false end.

(** The names of functions that are not instrumented. *)
Definition skipped_name (n : string) : bool :=
  String.prefix "__libc" n || String.prefix "dl" n ||
  bool_decide (n = "hypermem_read_impl") || bool_decide (n = "hypermem_write_impl").

Definition getAllLibCallInsts (sh : Shape) : list Value :=
  concat ((λ f, if isInLtckptSection f || skipped_name (getName f) then []
                else filter (λ i, extern_call i = true) (fun_insts sh f)) <$> functions sh).

(** The calls of the named functions; whether [libcalls] was among the names.  A name that is no
    function is looked up for its users through NULL. *)
Fixpoint suicide_calls (sh : Shape) (names : list string) (after : bool) : P (list Value * bool) :=
  match names with
  | [] => mret ([], after)
  | n :: names' =>
      match getFunction sh n with
      | None =>
          if negb after && bool_decide (n = "libcalls") then suicide_calls sh names' true
          else halt Sigsegv
      | Some f =>
          r ← suicide_calls sh names' after;
          mret (filter (λ u, isa_call u = true) (users sh f) ++ fst r, snd r)
      end
  end.

Fixpoint insert_triggers (only_once : Z) (calls : list Value) : P () :=
  match calls with
  | [] => skip
  | ci :: calls' =>
      next ← gets (λ m, nextInst (shape m) ci);
      match next with
      | None => halt AssertFail
      | Some next =>
          site_id ← getAssignedID ci LTCKPT_NAMESPACE_FI;
          assert (negb (site_id =? 0)) ;;
          modify (insertCallBefore LTCKPT_FI_SUICIDE_HOOK_NAME [CONSTANT_INT site_id; only_once] next) ;;
          insert_triggers only_once calls'
      end
  end.

Definition fi_runOnModule (names : list string) (suicideOnlyOnce : bool) : P (list Value) :=
  sh ← gets shape;
  r ← suicide_calls sh names false;
  let calls := if snd r : bool then fst r ++ getAllLibCallInsts sh else fst r in
  assert (negb (bool_decide (calls = []))) ;;
  assert (match getFunction sh LTCKPT_FI_SUICIDE_HOOK_NAME with Some _ => true | None => false end) ;;
  last ← assignIDs calls LTCKPT_NAMESPACE_FI LAST_ID_HOLDER 0 true;
  let last := u32 last in
  assert (negb (last =? 0)) ;;
  assert (last <? LTCKPT_FI_MAX_SUICIDE_SITES) ;;
  modify (setInitializer LTCKPT_FI_SUICIDEBOARD_SIZE_VARNAME [CONSTANT_INT last]) ;;
  modify (setInitializer LTCKPT_FI_SUICIDE_BOARD
            (replicate (Z.to_nat LTCKPT_FI_MAX_SUICIDE_SITES) (CONSTANT_INT 1))) ;;
  insert_triggers (if suicideOnlyOnce then CONSTANT_INT 1 else CONSTANT_INT 0) calls ;;
  mret calls.

End SiteIds.

(** ** Lemmas on the numbering *)

Lemma elem_of_concat_fmap {A B} (f : A → list B) l x : x ∈ concat (f <$> l) ↔ ∃ a, a ∈ l ∧ x ∈ f a.
Proof. induction l; cbn; [set_solver|]. rewrite elem_of_app, IHl. set_solver. Qed.

Lemma concat_fmap_position {A B} (f : A → list B) l k k' a a' x :
  NoDup (concat (f <$> l)) → l !! k = Some a → l !! k' = Some a' → x ∈ f a → x ∈ f a' → k = k'.
Proof.
  assert (∀ l k a x, l !! k = Some a → x ∈ f a → x ∈ concat (f <$> l)) as Hin.
  { intros l' j c y Hj Hy. apply elem_of_concat_fmap. exists c. split; [|done].
    by eapply list_elem_of_lookup_2. }
  revert k k'. induction l as [|c l IH]; intros k k' Hn Hk Hk' Hx Hx'; [done|]. cbn in Hn.
  apply NoDup_app in Hn as (_ & Hd & Hn).
  destruct k, k'; cbn in *; simplify_eq;
    [done|exfalso; eapply (Hd x); eauto..|]. f_equal. by eapply IH.
Qed.

Lemma NoDup_concat_fmap {A B} (f : A → list B) l : NoDup l → (∀ a, NoDup (f a)) →
  (∀ a a' x, x ∈ f a → x ∈ f a' → a = a') → NoDup (concat (f <$> l)).
Proof.
  intros Hl Hf Hd. induction Hl as [|a l Ha Hl IH]; cbn; [constructor|].
  apply NoDup_app. split_and!; [done| |done].
  intros x Hx (a' & Ha' & Hx')%elem_of_concat_fmap. by rewrite (Hd a a' x) in Ha.
Qed.

Section Laws.
Context `{LLVMLaws}.

Lemma target_of_inst sh i : isa_inst i = true → target_inst sh i = Some i.
Proof. intros E. unfold target_inst. by rewrite (inst_not_function i), (inst_not_block i), E by done. Qed.

Lemma targets_of_insts sh l : Forall (λ i, isa_inst i = true) l → omap (target_inst sh) l = l.
Proof. induction 1; cbn; [done|]. by rewrite target_of_inst, IHForall. Qed.

(** The loop over instructions that have been looked up. *)
Fixpoint number (ns : string) (l : list Value) (last : Z) (m : IRModule) : Z * IRModule :=
  match l with
  | [] => (last, m)
  | i :: l' =>
      let last := u64 (last + 1) in
      number ns l' last (setMetadata i ns (createMDNodeForConstant last) m)
  end.

Lemma assign_loop_number ns els last m :
  assign_loop ns els last m = number ns (omap (target_inst (shape m)) els) last m.
Proof.
  revert last m. induction els as [|v els IH]; intros last m; cbn; [done|].
  destruct (target_inst (shape m) v) as [i|]; cbn; [|done]. rewrite IH. by llvm.
Qed.

Lemma number_app ns l1 l2 last m :
  number ns (l1 ++ l2) last m = let '(z, m') := number ns l1 last m in number ns l2 z m'.
Proof. revert last m. induction l1 as [|i l1 IH]; intros last m; cbn; [done|]. apply IH. Qed.

Lemma number_shape ns l last m : shape (snd (number ns l last m)) = shape m.
Proof. revert last m. induction l as [|i l IH]; intros last m; cbn; [done|]. rewrite IH. by llvm. Qed.

Lemma number_named ns l last m k :
  getNamedMetadata (snd (number ns l last m)) k = getNamedMetadata m k.
Proof. revert last m. induction l as [|i l IH]; intros last m; cbn; [done|]. rewrite IH. by llvm. Qed.

Lemma number_other ns l last m v ns' : ns' ≠ ns ∨ v ∉ l →
  getMetadata (snd (number ns l last m)) v ns' = getMetadata m v ns'.
Proof.
  revert last m. induction l as [|i l IH]; intros last m Hv; cbn; [done|].
  rewrite IH by set_solver. apply get_set_other. set_solver.
Qed.

Lemma number_last ns l last m : 0 <= last → last + zlen l < 2 ^ 64 →
  fst (number ns l last m) = last + zlen l.
Proof.
  revert last m. induction l as [|i l IH]; intros last m Hl Hb; cbn [number fst length] in *; [lia|].
  rewrite u64_small by lia. rewrite IH by lia. lia.
Qed.

(** The [k]-th instruction gets the [k]-th number. *)
Lemma number_at ns l last m k i : NoDup l → 0 <= last → last + zlen l < 2 ^ 64 → l !! k = Some i →
  getMetadata (snd (number ns l last m)) i ns = Some [Some (last + 1 + Z.of_nat k)].
Proof.
  intros Hn. revert last m k. induction Hn as [|j l Hj Hn IH]; intros last m k Hl Hb Hk; [done|].
  cbn [number length] in *. rewrite u64_small by lia. destruct k as [|k]; cbn in Hk; simplify_eq.
  - rewrite number_other by set_solver. rewrite get_set_same. unfold createMDNodeForConstant.
    rewrite u64_small by lia. do 3 f_equal. lia.
  - rewrite (IH _ _ k) by (done || lia). do 3 f_equal. lia.
Qed.

(** An instruction that occurs several times has one of the numbers. *)
Lemma number_in ns l last m i : 0 <= last → last + zlen l < 2 ^ 64 → i ∈ l →
  ∃ z, last < z <= last + zlen l ∧ getMetadata (snd (number ns l last m)) i ns = Some [Some z].
Proof.
  revert last m. induction l as [|j l IH]; intros last m Hl Hb Hi; [set_solver|].
  cbn [number length] in *. rewrite u64_small by lia. destruct (decide (i ∈ l)) as [Hil|Hil].
  - destruct (IH (last + 1) (setMetadata j ns (createMDNodeForConstant (last + 1)) m)) as (z & Hz & E);
      [lia|lia|done|]. exists z. split; [lia|done].
  - assert (i = j) as -> by set_solver. exists (last + 1). split; [lia|].
    rewrite number_other by set_solver. rewrite get_set_same. unfold createMDNodeForConstant.
    by rewrite u64_small by lia.
Qed.

(** ** [assignIDs] *)

(** Saving the last number. *)
Definition save_last (k : string) (z : Z) (m : IRModule) : IRModule :=
  addOperand k (createMDNodeForConstant z) (dropAllReferences k (getOrInsertNamedMetadata k m)).

Lemma save_last_get k z m v ns : getMetadata (save_last k z m) v ns = getMetadata m v ns.
Proof. unfold save_last. by llvm. Qed.

Lemma save_last_shape k z m : shape (save_last k z m) = shape m.
Proof. unfold save_last. by llvm. Qed.

Lemma save_last_named k z m k' : getNamedMetadata (save_last k z m) k' =
  if decide (k = k') then Some [createMDNodeForConstant z] else getNamedMetadata m k'.
Proof.
  unfold save_last. destruct (decide (k = k')) as [<-|Hne].
  - by rewrite named_add, decide_True, named_drop, decide_True, named_insert, decide_True by done.
  - by rewrite named_add, decide_False, named_drop, decide_False, named_insert, decide_False by done.
Qed.

(** The number a call of [assignIDs] goes on from. *)
Definition starts_at (ns suffix : string) (idStart : Z) (forceReset : bool) (m : IRModule) (last : Z) : Prop :=
  if forceReset then last = idStart
  else ∃ e, getNextUnassignedID ns suffix m = Ok e m ∧ last = if e =? 0 then idStart else e.


Lemma assignIDs_run els ns suffix idStart forceReset m last :
  starts_at ns suffix idStart forceReset m last →
  let r := number ns (omap (target_inst (shape m)) els) last m in
  assignIDs els ns suffix idStart forceReset m = Ok (fst r) (save_last (ns +:+ suffix) (fst r) (snd r)).
Proof.
  intros Hs r. unfold assignIDs.
  assert (∃ e, (if forceReset then mret 0 else getNextUnassignedID ns suffix) m = Ok e m
    ∧ last = if e =? 0 then idStart else e) as (e & He & ->).
  { destruct forceReset; [by exists 0|exact Hs]. }
  rewrite (bind_Ok _ _ _ _ _ He). cbn zeta.
  rewrite (bind_Ok _ _ m (fst r) (snd r)).
  2: { cbn beta. rewrite assign_loop_number. unfold r. by destruct (number _ _ _ _). }
  rewrite !bind_modify. done.
Qed.

Lemma next_unassigned_saved ns suffix z m :
  getNextUnassignedID ns suffix (save_last (ns +:+ suffix) z m) =
  Ok (u64 z) (save_last (ns +:+ suffix) z m).
Proof. unfold getNextUnassignedID. rewrite bind_gets, save_last_named. by rewrite decide_True. Qed.

Lemma next_unassigned_pure ns suffix m e m' : getNextUnassignedID ns suffix m = Ok e m' → m' = m.
Proof.
  unfold getNextUnassignedID, first_operand. rewrite bind_gets.
  destruct (getNamedMetadata _ _) as [[|[|[|] ?] ?]|]; intros [=]; done.
Qed.

Lemma assignIDs_inv els ns suffix idStart forceReset m z m' :
  assignIDs els ns suffix idStart forceReset m = Ok z m' →
  ∃ last, starts_at ns suffix idStart forceReset m last ∧
    let r := number ns (omap (target_inst (shape m)) els) last m in
    z = fst r ∧ m' = save_last (ns +:+ suffix) (fst r) (snd r).
Proof.
  intros E. assert (∃ last, starts_at ns suffix idStart forceReset m last) as [last Hs].
  { unfold assignIDs in E. apply bind_inv_Ok in E as (e & m0 & E0 & _).
    destruct forceReset; [by eexists|]. pose proof E0 as E1. apply next_unassigned_pure in E1 as ->. cbn. eauto. }
  exists last. split; [done|]. rewrite (assignIDs_run _ _ _ _ _ _ _ Hs) in E. cbn zeta. by simplify_eq.
Qed.

Lemma assignIDs_shape els ns suffix idStart forceReset m z m' :
  assignIDs els ns suffix idStart forceReset m = Ok z m' → shape m' = shape m.
Proof. intros (last & _ & _ & ->)%assignIDs_inv. rewrite save_last_shape. apply number_shape. Qed.

(** Elements with instructions of their own get consecutive numbers after the one to go on from;
    the result is the last of them, and other metadata is as it was. *)
Theorem assignIDs_spec els ns suffix idStart forceReset m last :
  let ts := omap (target_inst (shape m)) els in
  starts_at ns suffix idStart forceReset m last → NoDup ts →
  0 <= last → last + zlen ts < 2 ^ 64 →
  ∃ m', assignIDs els ns suffix idStart forceReset m = Ok (last + zlen ts) m'
  ∧ (∀ k i, ts !! k = Some i → getMetadata m' i ns = Some [Some (last + 1 + Z.of_nat k)])
  ∧ (∀ v ns', ns' ≠ ns ∨ v ∉ ts → getMetadata m' v ns' = getMetadata m v ns')
  ∧ shape m' = shape m ∧ getNextUnassignedID ns suffix m' = Ok (last + zlen ts) m'.
Proof.
  intros ts Hs Hn Hl Hb. rewrite (assignIDs_run _ _ _ _ _ _ _ Hs). fold ts.
  rewrite (number_last ns ts) by done. eexists. split; [done|]. split_and!.
  - intros k i Hk. rewrite save_last_get. by apply number_at.
  - intros v ns' Hv. rewrite save_last_get. by apply number_other.
  - rewrite save_last_shape. apply number_shape.
  - rewrite next_unassigned_saved. rewrite u64_small by lia. done.
Qed.

(** ** Reading back *)

Lemma getAssignedID_inst i ns m z : isa_inst i = true → getMetadata m i ns = Some [Some z] →
  getAssignedID i ns m = Ok z m.
Proof.
  intros Hi Hm. unfold getAssignedID. rewrite bind_gets.
  by rewrite (inst_not_function i), (inst_not_block i), Hi, Hm by done.
Qed.

(** The number of a block, when no other of its instructions has one. *)
Lemma getAssignedID_block b ns m i z : isa_block b = true → i ∈ block_insts (shape m) b →
  (∀ j, j ∈ block_insts (shape m) b → j ≠ i → getMetadata m j ns = None) →
  getMetadata m i ns = Some [Some z] → getAssignedID b ns m = Ok z m.
Proof.
  intros Hb Hi Hj Hm. unfold getAssignedID. rewrite bind_gets.
  rewrite (block_not_function b), Hb by done. cbn [andb].
  assert (first_node m ns (block_insts (shape m) b) = Some [Some z]) as ->; [|done].
  unfold first_node. revert Hi Hj. generalize (block_insts (shape m) b) as l.
  induction l as [|j l IH]; intros Hi Hj; [set_solver|]. cbn.
  destruct (decide (j = i)) as [->|Hne]; [by rewrite Hm|].
  rewrite Hj by set_solver. apply IH; set_solver.
Qed.

(** ** Numbering in turn *)

Lemma number_ext ns l last m1 m2 : (∀ v ns', getMetadata m1 v ns' = getMetadata m2 v ns') →
  fst (number ns l last m1) = fst (number ns l last m2)
  ∧ ∀ v ns', getMetadata (snd (number ns l last m1)) v ns' = getMetadata (snd (number ns l last m2)) v ns'.
Proof.
  revert last m1 m2. induction l as [|i l IH]; intros last m1 m2 Hm; cbn; [done|].
  apply IH. intros v ns'. destruct (decide ((i, ns) = (v, ns'))) as [[= -> ->]|Hne].
  - by rewrite !get_set_same.
  - by rewrite !get_set_other by done.
Qed.

(** [assignIDs] on each list, without a reset. *)
Fixpoint assign_turns (ns suffix : string) (ls : list (list Value)) : prog IRModule Z :=
  match ls with
  | [] => getNextUnassignedID ns suffix
  | l :: ls' => assignIDs l ns suffix 0 false ;; assign_turns ns suffix ls'
  end.

(** The numbers are those the concatenation of the lists would have got. *)
Theorem assign_in_turn ns suffix ls m e :
  let ts := omap (target_inst (shape m)) (concat ls) in
  getNextUnassignedID ns suffix m = Ok e m → 0 <= e → e + zlen ts < 2 ^ 64 →
  ∃ m', assign_turns ns suffix ls m = Ok (e + zlen ts) m' ∧ shape m' = shape m
  ∧ ∀ v ns', getMetadata m' v ns' = getMetadata (snd (number ns ts e m)) v ns'.
Proof.
  revert m e. induction ls as [|l ls IH]; intros m e ts He Hpos Hb; cbn [assign_turns].
  { exists m. cbn. rewrite He. split_and!; [f_equal; lia|done|done]. }
  assert (starts_at ns suffix 0 false m e) as Hs.
  { exists e. split; [done|]. destruct (Z.eqb_spec e 0); lia. }
  set (t1 := omap (target_inst (shape m)) l) in *.
  assert (ts = t1 ++ omap (target_inst (shape m)) (concat ls)) as Ets.
  { unfold ts, t1. cbn. by rewrite omap_app. }
  rewrite (bind_Ok _ _ _ _ _ (assignIDs_run _ _ _ _ _ _ _ Hs)). fold t1.
  rewrite Ets, length_app, Nat2Z.inj_add in Hb. pose proof (number_last ns t1 e m Hpos ltac:(lia)) as El.
  rewrite El. set (m1 := save_last (ns +:+ suffix) (e + zlen t1) (snd (number ns t1 e m))).
  assert (shape m1 = shape m) as Esh by (unfold m1; rewrite save_last_shape; apply number_shape).
  destruct (IH m1 (e + zlen t1)) as (m' & Em & Eshape & Hget).
  - unfold m1. rewrite next_unassigned_saved. by rewrite u64_small by lia.
  - lia.
  - rewrite Esh. lia.
  - rewrite Esh in Em, Hget. exists m'. rewrite Em, Eshape, Esh. split_and!; [|done|].
    + f_equal. rewrite Ets, length_app. lia.
    + intros v ns'. rewrite Hget, Ets, number_app.
      destruct (number ns t1 e m) as [z m2] eqn:E. cbn [fst snd] in *. subst z.
      apply number_ext. intros. unfold m1. by rewrite save_last_get.
Qed.

(** The marks on the blocks of some functions, one function after the other. *)
Fixpoint mark_functions (fs : list Value) : prog IRModule () :=
  match fs with [] => skip | f :: fs' => markBasicBlocks f ;; mark_functions fs' end.

Lemma mark_functions_turns fs m e m' :
  assign_turns HYBPREP_NAMESPACE_BBS LAST_ID_HOLDER (fun_blocks (shape m) <$> fs) m = Ok e m' →
  mark_functions fs m = Ok () m'.
Proof.
  revert m. induction fs as [|f fs IH]; intros m E; cbn [mark_functions assign_turns fmap list_fmap] in *.
  { by apply next_unassigned_pure in E as ->. }
  apply bind_inv_Ok in E as (z & m1 & E1 & E).
  unfold markBasicBlocks. rewrite bind_assoc, bind_gets. rewrite (bind_Ok _ _ _ _ _ E1).
  apply IH. enough (shape m1 = shape m) as -> by done.
  exact (assignIDs_shape _ _ _ _ _ _ _ _ E1).
Qed.

(** Every block of the functions has a number of its own. *)
Theorem blocks_numbered fs m :
  let bs := concat (fun_blocks (shape m) <$> fs) in
  getNamedMetadata m (HYBPREP_NAMESPACE_BBS +:+ LAST_ID_HOLDER) = None →
  (∀ v, getMetadata m v HYBPREP_NAMESPACE_BBS = None) →
  Forall (λ b, isa_block b = true ∧ is_Some (getFirstNonPHI (shape m) b)) bs →
  NoDup (concat (block_insts (shape m) <$> bs)) → zlen bs < 2 ^ 64 →
  ∃ m', mark_functions fs m = Ok () m'
  ∧ ∀ k b, bs !! k = Some b → getAssignedID b HYBPREP_NAMESPACE_BBS m' = Ok (1 + Z.of_nat k) m'.
Proof.
  intros bs Hnone Hfresh Hbs Hnd Hlen.
  set (ts := omap (target_inst (shape m)) bs).
  assert (Forall2 (λ b i, i ∈ block_insts (shape m) b) bs ts) as H2.
  { unfold ts. clear Hnd Hlen. induction Hbs as [|b l [Hb [i Hi]] Hl IH]; cbn; [constructor|].
    assert (target_inst (shape m) b = Some i) as ->.
    { unfold target_inst. by rewrite (block_not_function b), Hb, Hi by done. }
    constructor; [by apply first_in_block|done]. }
  assert (NoDup ts) as Hts.
  { clear -H2 Hnd. clearbody ts bs. induction H2 as [|b i bs ts Hi H2 IH]; [constructor|].
    cbn in Hnd. apply NoDup_app in Hnd as (_ & Hd & Hnd). constructor; [|by apply IH].
    intros Hin. apply (Hd i Hi). apply list_elem_of_lookup_1 in Hin as [k Hk].
    destruct (Forall2_lookup_r _ _ _ _ _ H2 Hk) as (b' & Hb' & Hi').
    apply elem_of_concat_fmap. exists b'. split; [by eapply list_elem_of_lookup_2|done]. }
  destruct (assign_in_turn HYBPREP_NAMESPACE_BBS LAST_ID_HOLDER (fun_blocks (shape m) <$> fs) m 0)
    as (m' & Em & Esh & Hget).
  { unfold getNextUnassignedID. by rewrite bind_gets, Hnone. }
  { done. }
  { fold bs ts. rewrite <- (Forall2_length _ _ _ H2). lia. }
  fold bs ts in Em, Hget. exists m'. split; [by eapply mark_functions_turns|].
  intros k b Hk. destruct (Forall2_lookup_l _ _ _ _ _ H2 Hk) as (i & Hik & Hi).
  pose proof (proj1 (Forall_lookup _ _) Hbs _ _ Hk) as [Hb _].
  apply (getAssignedID_block b _ _ i); [done|by rewrite Esh| |].
  - intros j Hj Hne. rewrite Hget, number_other; [done|]. right. rewrite Esh in Hj.
    intros Hjt. apply list_elem_of_lookup_1 in Hjt as [k' Hk'].
    destruct (Forall2_lookup_r _ _ _ _ _ H2 Hk') as (b' & Hb' & Hj').
    assert (k = k') as <- by (by eapply concat_fmap_position). naive_solver.
  - rewrite Hget. rewrite (number_at _ _ _ _ k); [done|done|lia| |done].
    rewrite <- (Forall2_length _ _ _ H2). lia.
Qed.

(** ** Numbers of windows *)

Lemma set_site_args_run ns argNum calls m : Forall (λ ci, isa_inst ci = true) calls →
  Forall (λ ci, ∃ z, getMetadata m ci ns = Some [Some z]) calls →
  ∃ m', set_site_args ns argNum calls m = Ok () m'
  ∧ ∀ v ns', getMetadata m' v ns' = getMetadata m v ns'.
Proof.
  intros Hi. revert m. induction Hi as [|ci calls Hci Hi IH]; intros m Hz; cbn; [by exists m|].
  apply Forall_cons in Hz as [[z Hz] Hzs]. rewrite (bind_Ok _ _ _ _ _ (getAssignedID_inst _ _ _ _ Hci Hz)).
  rewrite bind_modify. destruct (IH (setArgOperand ci argNum (CONSTANT_INT z) m)) as (m' & E & Hm).
  { eapply Forall_impl; [exact Hzs|]. intros c [z' Hz']. exists z'. by rewrite get_arg. }
  exists m'. split; [done|]. intros v ns'. by rewrite Hm, get_arg.
Qed.

(** The windows are numbered from the one after [startId]: the numbers from [startId] on, which is
    what the caller passes one more than the last number for, leave one out. *)
Theorem profiling_numbers hook ns startId argNum m :
  let calls := filter (λ u, isa_call u = true) (users (shape m) hook) in
  NoDup calls → 0 < startId → startId + zlen calls < 2 ^ 64 →
  ∃ m', initializeWindowProfiling hook ns startId argNum m = Ok (startId + zlen calls) m'
  ∧ ∀ k ci, calls !! k = Some ci → getAssignedID ci ns m' = Ok (startId + 1 + Z.of_nat k) m'.
Proof.
  intros calls Hn Hs Hb. unfold initializeWindowProfiling. rewrite bind_gets. fold calls.
  assert (Forall (λ ci, isa_inst ci = true) calls) as Hi.
  { apply Forall_forall. intros ci [Hc _]%list_elem_of_filter. by apply call_is_inst. }
  pose proof (targets_of_insts (shape m) calls Hi) as Et.
  destruct (assignIDs_spec calls ns LAST_ID_HOLDER startId true m startId) as (m1 & E & Hk & _);
    [done|by rewrite Et|lia|by rewrite Et|]. rewrite Et in E, Hk.
  rewrite (bind_Ok _ _ _ _ _ E). rewrite bind_assert by (destruct (Z.eqb_spec (startId + zlen calls) 0); [lia|done]).
  destruct (set_site_args_run ns argNum calls m1 Hi) as (m' & E' & Hget).
  { apply Forall_lookup. intros k ci Hci. eexists. by apply Hk. }
  rewrite (bind_Ok _ _ _ _ _ E'). exists m'. split; [done|]. intros k ci Hci.
  apply getAssignedID_inst; [exact (Forall_lookup_1 _ _ k ci Hi Hci)|]. rewrite Hget. by apply Hk.
Qed.

(** ** The numbers of library calls *)

(** The saved number, if any, can be read. *)
Definition holder_ok (ns suffix : string) (m : IRModule) : Prop :=
  ∃ e, getNextUnassignedID ns suffix m = Ok e m.

Lemma holder_ok_named ns suffix m m' :
  getNamedMetadata m' (ns +:+ suffix) = getNamedMetadata m (ns +:+ suffix) →
  holder_ok ns suffix m → holder_ok ns suffix m'.
Proof.
  unfold holder_ok, getNextUnassignedID, first_operand. intros E [e He]. rewrite bind_gets in *. rewrite E.
  destruct (getNamedMetadata m _) as [[|[|[|] ?] ?]|]; cbn in *; by eauto.
Qed.

Lemma assignIDs_ok els ns suffix idStart forceReset m : forceReset = true ∨ holder_ok ns suffix m →
  ∃ z m', assignIDs els ns suffix idStart forceReset m = Ok z m' ∧ shape m' = shape m
  ∧ ∀ ns' suffix', holder_ok ns' suffix' m → holder_ok ns' suffix' m'.
Proof.
  intros Hr. assert (∃ last, starts_at ns suffix idStart forceReset m last) as [last Hs].
  { destruct forceReset; [by eexists|]. destruct Hr as [|[e He]]; [done|]. cbn. eauto. }
  do 2 eexists. split; [by apply assignIDs_run|]. rewrite save_last_shape, number_shape. split; [done|].
  intros ns' suffix' Hok. destruct (decide (ns +:+ suffix = ns' +:+ suffix')) as [E|E].
  - unfold holder_ok, getNextUnassignedID. eexists. rewrite bind_gets, save_last_named.
    by rewrite decide_True.
  - eapply holder_ok_named; [|exact Hok]. rewrite save_last_named, decide_False by done. apply number_named.
Qed.

(** The functions the pass works on. *)
Definition processed (o : hybprep_opts) (f : Value) : bool :=
  negb (isIntrinsic f || isDeclaration f) && negb (isInAnyOfSections f (skipSectionsOpt o)).

Ltac assign_step z m' E Sh K :=
  match goal with |- context [(assignIDs ?els ?ns ?suf ?st ?r ≫= _) ?m] =>
    destruct (assignIDs_ok els ns suf st r m) as (z & m' & E & Sh & K);
    [by auto 9|rewrite (bind_Ok _ _ _ _ _ E)] end.

Lemma prep_function_run o f m : removeCkptHooksSectionOpt o = "" →
  holder_ok HYBPREP_NAMESPACE_BBS LAST_ID_HOLDER m →
  ∃ m', prep_function o f m = Ok (if processed o f then libcalls_of (shape m') f else []) m'
  ∧ holder_ok HYBPREP_NAMESPACE_BBS LAST_ID_HOLDER m'
  ∧ shape m' = if processed o f then shape (unifyExitNodes f m) else shape m.
Proof.
  intros Ho Hok. unfold prep_function, processed. rewrite Ho. rewrite bool_decide_true by done.
  destruct (isIntrinsic f || isDeclaration f); cbn [negb andb]; [by exists m|].
  rewrite bind_when_false by done.
  destruct (isInAnyOfSections f (skipSectionsOpt o)); cbn [negb]; [by exists m|].
  rewrite bind_modify. set (m0 := unifyExitNodes f m).
  assert (holder_ok HYBPREP_NAMESPACE_BBS LAST_ID_HOLDER m0) as H0k.
  { eapply holder_ok_named; [|exact Hok]. apply named_unify. }
  unfold markLibCalls. rewrite bind_assoc, bind_gets, bind_assoc.
  assign_step z1 m1 E1 S1 K1. rewrite bind_ret.
  unfold markCallInsts. rewrite bind_assoc, bind_gets. assign_step z2 m2 E2 S2 K2.
  unfold markLocals. rewrite bind_assoc, bind_gets. assign_step z3 m3 E3 S3 K3.
  assert (∃ m4, when (markBasicBlocksOpt o) (markBasicBlocks f ;; skip) m3 = Ok () m4 ∧ shape m4 = shape m3
    ∧ holder_ok HYBPREP_NAMESPACE_BBS LAST_ID_HOLDER m4) as (m4 & E4 & S4 & K4).
  { destruct (markBasicBlocksOpt o); cbn [when]; [|by exists m3; auto 9].
    unfold markBasicBlocks. rewrite bind_assoc, bind_gets. assign_step z4 m4 E4 S4 K4.
    exists m4. auto 9. }
  rewrite (bind_Ok _ _ _ _ _ E4). unfold markInstructions. rewrite bind_assoc, bind_gets.
  assign_step z5 m5 E5 S5 K5. exists m5. rewrite S5, S4, S3, S2, S1. auto 9.
Qed.

(** What the pass leaves of the shape of a function it does not work on. *)
Definition same_fun (sh sh' : Shape) (f : Value) : Prop := fun_insts sh' f = fun_insts sh f.

Lemma libcalls_of_ext sh sh' f : same_fun sh sh' f →
  (∀ g, fun_blocks sh' g = [] ↔ fun_blocks sh g = []) → libcalls_of sh' f = libcalls_of sh f.
Proof.
  intros E Hb. unfold libcalls_of. rewrite E. apply list_filter_iff. intros i. unfold isLibCallInst.
  destruct (getCalledFunction i) as [g|]; [|done].
  by rewrite (bool_decide_ext _ _ (Hb g)).
Qed.

Lemma prep_functions_run o fs m : removeCkptHooksSectionOpt o = "" → NoDup fs →
  holder_ok HYBPREP_NAMESPACE_BBS LAST_ID_HOLDER m →
  ∃ m', prep_functions o fs m
    = Ok (concat (libcalls_of (shape m') <$> filter (λ f, processed o f = true) fs)) m'
  ∧ (∀ f, f ∉ fs → same_fun (shape m) (shape m') f)
  ∧ (∀ g, fun_blocks (shape m') g = [] ↔ fun_blocks (shape m) g = []).
Proof.
  intros Ho Hn. revert m. induction Hn as [|f fs Hf Hn IH]; intros m Hok; cbn [prep_functions].
  { exists m. done. }
  destruct (prep_function_run o f m Ho Hok) as (m1 & E1 & K1 & S1). rewrite (bind_Ok _ _ _ _ _ E1).
  destruct (IH m1 K1) as (m2 & E2 & F2 & B2). rewrite (bind_Ok _ _ _ _ _ E2).
  assert (∀ g, f ≠ g → same_fun (shape m) (shape m1) g) as F1.
  { intros g Hg. unfold same_fun. rewrite S1. destruct (processed o f); [|done]. by apply insts_unify. }
  assert (∀ g, fun_blocks (shape m1) g = [] ↔ fun_blocks (shape m) g = []) as B1.
  { intros g. rewrite S1. destruct (processed o f); [|done]. apply blocks_unify. }
  exists m2. split_and!.
  - rewrite filter_cons. destruct (processed o f) eqn:Ep.
    + rewrite decide_True by done. cbn. by rewrite (libcalls_of_ext (shape m1) (shape m2) f) by auto.
    + by rewrite decide_False by done.
  - intros g Hg. unfold same_fun. rewrite (F2 g) by set_solver. apply F1. set_solver.
  - intros g. by rewrite B2, B1.
Qed.

(** C28: after [hybprep] has run, the library calls of the functions it works on are numbered from 1
    on, in the order of the program: each has a number of its own. *)
Theorem libcalls_numbered o m : removeCkptHooksSectionOpt o = "" → NoDup (functions (shape m)) →
  holder_ok HYBPREP_NAMESPACE_BBS LAST_ID_HOLDER m →
  ∃ all m', hybprep_runOnModule o 0 m = Ok (true, all) m'
  ∧ all = concat (libcalls_of (shape m') <$> filter (λ f, processed o f = true) (functions (shape m)))
  ∧ NoDup all
  ∧ (zlen all < 2 ^ 64 → ∀ k i, all !! k = Some i →
      getAssignedID i HYBPREP_NAMESPACE_ALL_LIBCALLS m' = Ok (1 + Z.of_nat k) m').
Proof.
  intros Ho Hn Hok. unfold hybprep_runOnModule. cbn [negb Z.eqb]. rewrite bind_gets.
  destruct (prep_functions_run o _ m Ho Hn Hok) as (m1 & E1 & _). rewrite (bind_Ok _ _ _ _ _ E1).
  set (all := concat _).
  assert (Forall (λ i, isa_inst i = true) all) as Hi.
  { apply Forall_forall. intros i (f & _ & [_ Hf]%list_elem_of_filter)%elem_of_concat_fmap.
    by eapply insts_are_insts. }
  assert (NoDup all) as Hall.
  { apply NoDup_concat_fmap; [by apply NoDup_filter|intros f; apply NoDup_filter, insts_nodup|].
    intros f f' i [_ Hf]%list_elem_of_filter [_ Hf']%list_elem_of_filter. by eapply insts_disjoint. }
  pose proof (targets_of_insts (shape m1) all Hi) as Et.
  pose proof (assignIDs_run all HYBPREP_NAMESPACE_ALL_LIBCALLS LAST_ID_HOLDER 0 true m1 0 eq_refl) as Er.
  rewrite Et in Er. rewrite (bind_Ok _ _ _ _ _ Er).
  exists all. eexists. split; [done|]. rewrite save_last_shape, number_shape. split_and!; [done..|].
  intros Hb k i Hk. apply getAssignedID_inst; [exact (Forall_lookup_1 _ _ k i Hi Hk)|].
  rewrite save_last_get. rewrite (number_at _ all 0 _ k); done.
Qed.

(** ** Suicide triggers *)

(** The module with a call of the hook right after each of the calls, with the number of the call
    and the flag [once]. *)
Definition with_triggers (once : Z) (site : Value → Z) (calls : list Value) (m : IRModule) : IRModule :=
  foldl (λ m ci,
    match nextInst (shape m) ci with
    | Some next => insertCallBefore LTCKPT_FI_SUICIDE_HOOK_NAME [CONSTANT_INT (site ci); once] next m
    | None => m
    end) m calls.

Lemma insert_triggers_run once site calls m : Forall (λ ci, isa_call ci = true) calls →
  Forall (λ ci, site ci ≠ 0 ∧ getMetadata m ci LTCKPT_NAMESPACE_FI = Some [Some (site ci)]) calls →
  let m' := with_triggers once site calls m in
  insert_triggers once calls m = Ok () m'
  ∧ (∀ v ns, getMetadata m' v ns = getMetadata m v ns) ∧ ∀ k, initializer m' k = initializer m k.
Proof.
  intros Hi. revert m. induction Hi as [|ci calls Hci Hi IH]; intros m Hz; cbn [insert_triggers with_triggers foldl].
  { done. }
  apply Forall_cons in Hz as [[Hz0 Hz] Hzs]. rewrite bind_gets.
  destruct (call_has_next m ci Hci) as [next ->].
  rewrite (bind_Ok _ _ _ _ _ (getAssignedID_inst _ _ _ _ (call_is_inst _ Hci) Hz)).
  rewrite bind_assert by (by destruct (Z.eqb_spec (site ci) 0)). rewrite bind_modify.
  set (m1 := insertCallBefore _ _ next m).
  destruct (IH m1) as (E & Hm & Hinit).
  { eapply Forall_impl; [exact Hzs|]. intros c [Hz' Hc]. unfold m1. by rewrite get_call. }
  fold (with_triggers once site calls m1). split_and!; [done| |].
  - intros v ns. unfold m1 in *. by rewrite Hm, get_call.
  - intros k. unfold m1 in *. by rewrite Hinit, init_call.
Qed.

Lemma suicide_calls_calls sh names after m r m' : suicide_calls sh names after m = Ok r m' →
  Forall (λ ci, isa_call ci = true) (fst r).
Proof.
  revert after r m'. induction names as [|n names IH]; intros after r m' E; cbn in E.
  { injection E as <- <-. constructor. }
  destruct (getFunction sh n) as [f|].
  - apply bind_inv_Ok in E as (r1 & m1 & E1 & E). injection E as <- <-. apply Forall_app. split; [|by eapply IH].
    apply Forall_forall. by intros ci [Hc _]%list_elem_of_filter.
  - destruct (negb after && _); [by eapply IH|done].
Qed.

Lemma all_libcalls_calls sh : Forall (λ ci, isa_call ci = true) (getAllLibCallInsts sh).
Proof.
  apply Forall_forall. intros ci (f & _ & Hf)%elem_of_concat_fmap.
  destruct (_ || _); [set_solver|]. apply list_elem_of_filter in Hf as [Hf _].
  unfold extern_call in Hf. by destruct (isa_call ci).
Qed.

(** The calls the suicide pass works on. *)
Definition suicide_sites (sh : Shape) (r : list Value * bool) : list Value :=
  if r.2 then r.1 ++ getAllLibCallInsts sh else r.1.

(** C29: when the functions named are there and there are not too many calls of them, the pass goes
    through.  Right after each of the calls it inserts a call of the hook with the number of the
    call and the option to fire only once ([with_triggers]).  The number of every call is within the
    table the pass defines.  When the program runs with that table and suicide is enabled, an
    inserted trigger crashes the process the first time it is reached; reached again, it does not
    fire if the option was given, and crashes the process again if not. *)
Theorem suicide_site_fires names (once : bool) m r :
  suicide_calls (shape m) names false m = Ok r m →
  is_Some (getFunction (shape m) LTCKPT_FI_SUICIDE_HOOK_NAME) →
  let calls := suicide_sites (shape m) r in
  0 < zlen calls < LTCKPT_FI_MAX_SUICIDE_SITES →
  let flag := if once then 1 else 0 in
  ∃ mb m' site last, fi_runOnModule names once m = Ok calls m'
  ∧ m' = with_triggers flag site calls mb
  ∧ initializer m' LTCKPT_FI_SUICIDEBOARD_SIZE_VARNAME = Some [last]
  ∧ initializer m' LTCKPT_FI_SUICIDE_BOARD = Some (replicate 4096 1)
  ∧ ∀ ci, ci ∈ calls → getAssignedID ci LTCKPT_NAMESPACE_FI m' = Ok (site ci) m'
    ∧ 0 < site ci <= last ∧ CONSTANT_INT (site ci) = site ci
    ∧ ∀ s : lc, ltckpt_suicide_enabled s ≠ 0 → ltckpt_suicide_last_site_id s = last →
      (∀ i, 0 <= i < 4096 → ltckpt_suicide_board s i = 1) →
      let s' := if once then set_suicide_board (upd (ltckpt_suicide_board s) (site ci) 0) s else s in
      ltckpt_fi_suicide_per_site (site ci) flag s = Stop Sigsegv s'
      ∧ ltckpt_fi_suicide_per_site (site ci) flag s' = if once then Ok 0 s' else Stop Sigsegv s'.
Proof.
  intros Er [hook Hhook] calls [Hpos Hmax]. unfold LTCKPT_FI_MAX_SUICIDE_SITES in Hmax.
  assert (Forall (λ ci, isa_call ci = true) calls) as Hc.
  { pose proof (suicide_calls_calls _ _ _ _ _ _ Er). unfold calls, suicide_sites.
    destruct (r.2); [|done]. apply Forall_app. split; [done|apply all_libcalls_calls]. }
  assert (omap (target_inst (shape m)) calls = calls) as Et.
  { apply targets_of_insts. eapply Forall_impl; [exact Hc|]. apply call_is_inst. }
  unfold fi_runOnModule. rewrite bind_gets, (bind_Ok _ _ _ _ _ Er).
  change (if snd r : bool then fst r ++ getAllLibCallInsts (shape m) else fst r) with calls.
  rewrite bind_assert by (rewrite bool_decide_false by (intros E; rewrite E in Hpos; cbn in Hpos; lia); done).
  rewrite bind_assert by (by rewrite Hhook).
  pose proof (assignIDs_run calls LTCKPT_NAMESPACE_FI LAST_ID_HOLDER 0 true m 0 eq_refl) as Ea.
  cbv zeta in Ea. rewrite Et, number_last in Ea by lia. rewrite (bind_Ok _ _ _ _ _ Ea). cbv zeta.
  rewrite Z.add_0_l, (u32_small (zlen calls)) by lia.
  rewrite bind_assert by (apply negb_true_iff, Z.eqb_neq; lia).
  rewrite bind_assert by (apply Z.ltb_lt; unfold LTCKPT_FI_MAX_SUICIDE_SITES; lia).
  rewrite !bind_modify. change (CONSTANT_INT (zlen calls)) with (u32 (zlen calls)).
  rewrite (u32_small (zlen calls)) by lia.
  set (m1 := setInitializer _ _ _).
  assert (∀ ci, ci ∈ calls → ∃ z, 0 < z <= zlen calls
    ∧ getMetadata m1 ci LTCKPT_NAMESPACE_FI = Some [Some z]) as Hz.
  { intros ci Hci. destruct (number_in LTCKPT_NAMESPACE_FI calls 0 m ci) as (z & Hz & E); [lia|lia|done|].
    exists z. split; [lia|]. unfold m1. by rewrite !get_init, save_last_get. }
  set (site := λ ci, match getMetadata m1 ci LTCKPT_NAMESPACE_FI with Some [Some z] => z | _ => 0 end).
  assert (∀ ci, ci ∈ calls → 0 < site ci <= zlen calls
    ∧ getMetadata m1 ci LTCKPT_NAMESPACE_FI = Some [Some (site ci)]) as Hsite.
  { intros ci Hci. destruct (Hz ci Hci) as (z & Hz0 & Hzm). unfold site. by rewrite Hzm. }
  assert ((if once then CONSTANT_INT 1 else CONSTANT_INT 0) = if once then 1 else 0) as Eflag by (by destruct once).
  rewrite Eflag. set (flag := if once then 1 else 0).
  destruct (insert_triggers_run flag site calls m1 Hc) as (E' & Hget & Hinit).
  { apply Forall_forall. intros ci Hci. destruct (Hsite ci Hci). split; [lia|done]. }
  rewrite (bind_Ok _ _ _ _ _ E'). exists m1, (with_triggers flag site calls m1), site, (zlen calls).
  split_and!; [done|done| | |].
  - rewrite Hinit. unfold m1. by rewrite !init_init, decide_False, decide_True by done.
  - rewrite Hinit. unfold m1. by rewrite init_init, decide_True by done.
  - intros ci Hci. destruct (Hsite ci Hci) as [Hr Hm]. split; [|split; [done|split]].
    + apply getAssignedID_inst; [|by rewrite Hget]. apply call_is_inst. by eapply Forall_forall in Hc.
    + apply u32_small. lia.
    + intros s He Hl Hb.
      set (s' := if once then set_suicide_board (upd (ltckpt_suicide_board s) (site ci) 0) s else s).
      assert (site ci < LTCKPT_MAX_SUICIDE_SITES) by (unfold LTCKPT_MAX_SUICIDE_SITES; lia).
      rewrite !suicide_run; [|unfold s'; by destruct once|unfold s'; destruct once; cbn; lia|done|done|lia|done].
      rewrite (Hb (site ci)) by lia. change (truthy 1) with true. unfold s', flag.
      destruct once; cbn [truthy negb Z.eqb]; (split; [done|]).
      * cbn [ltckpt_suicide_board set_suicide_board]. by rewrite upd_eq.
      * by rewrite (Hb (site ci)) by lia.
Qed.

End Laws.

(** ** A program *)

Module Sample.

(** [main] (1) with the blocks 10 and 20, the hook of the suicide pass (3) with the block 30, and
    the library functions [puts] (2) and [read] (4); 11 and 22 call these. *)
Definition blocks (f : Z) : list Z :=
  if decide (f = 1) then [10; 20] else if decide (f = 3) then [30] else [].
Definition insts (b : Z) : list Z :=
  if decide (b = 10) then [11; 12] else if decide (b = 20) then [21; 22; 23]
  else if decide (b = 30) then [31] else [].
Definition first (b : Z) : option Z :=
  if decide (b = 10) then Some 11 else if decide (b = 20) then Some 22
  else if decide (b = 30) then Some 31 else None.
Definition name (f : Z) : string :=
  if decide (f = 1) then "main" else if decide (f = 2) then "puts"
  else if decide (f = 3) then LTCKPT_FI_SUICIDE_HOOK_NAME else "read".
Definition callee (i : Z) : option Z :=
  if decide (i = 11) then Some 2 else if decide (i = 22) then Some 4 else None.
Definition named_function (n : string) : option Z :=
  if decide (n = "puts") then Some 2 else if decide (n = LTCKPT_FI_SUICIDE_HOOK_NAME) then Some 3
  else if decide (n = "read") then Some 4 else None.
Definition users_of (f : Z) : list Z :=
  if decide (f = 2) then [11] else if decide (f = 4) then [22] else [].

Record module := mk_module {
  md : gmap (Z * string) MDNode;
  named : gmap string (list MDNode);
  args : gmap (Z * nat) Z;
  calls : list (string * list Z * Z);
  inits : gmap string (list Z);
}.

#[global] Instance sample_llvm : LLVM := {|
  Value := Z;
  IRModule := module;
  Shape := ();
  shape _ := ();
  isa_function v := bool_decide (v ∈ [1; 2; 3; 4]);
  isa_block v := bool_decide (v ∈ [10; 20; 30]);
  isa_inst v := bool_decide (v ∈ [11; 12; 21; 22; 23; 31]);
  isa_call v := bool_decide (v ∈ [11; 22]);
  functions _ := [1; 2; 3; 4];
  getFunction _ := named_function;
  fun_blocks _ := blocks;
  block_insts _ := insts;
  getFirstNonPHI _ := first;
  nextInst _ i := Some (i + 1);
  users _ := users_of;
  num_operands _ _ := 0%nat;
  dominates_use _ _ _ _ := true;
  getName := name;
  getSection _ := "";
  isIntrinsic _ := false;
  isDeclaration f := bool_decide (f ∈ [2; 4]);
  getCalledFunction := callee;
  getMetadata m v ns := md m !! (v, ns);
  setMetadata v ns n m := mk_module (<[(v, ns) := n]> (md m)) (named m) (args m) (calls m) (inits m);
  getNamedMetadata m k := named m !! k;
  getOrInsertNamedMetadata k m :=
    mk_module (md m) (<[k := default [] (named m !! k)]> (named m)) (args m) (calls m) (inits m);
  dropAllReferences k m :=
    mk_module (md m) (alter (λ _, []) k (named m)) (args m) (calls m) (inits m);
  addOperand k n m :=
    mk_module (md m) (alter (λ l, l ++ [n]) k (named m)) (args m) (calls m) (inits m);
  eraseFromParent _ m := m;
  unifyExitNodes _ m := m;
  setArgOperand v a z m := mk_module (md m) (named m) (<[(v, a) := z]> (args m)) (calls m) (inits m);
  insertCallBefore h a v m := mk_module (md m) (named m) (args m) (calls m ++ [(h, a, v)]) (inits m);
  setInitializer k l m := mk_module (md m) (named m) (args m) (calls m) (<[k := l]> (inits m));
  initializer m k := inits m !! k;
|}.

Lemma sample_insts f : fun_insts () f =
  if decide (f = 1) then [11; 12; 21; 22; 23] else if decide (f = 3) then [31] else [].
Proof. unfold fun_insts. cbn. unfold blocks. repeat case_decide; done. Qed.

Lemma sample_kinds v : bool_decide (v ∈ [11; 12; 21; 22; 23; 31]) = true →
  bool_decide (v ∈ [1; 2; 3; 4]) = false ∧ bool_decide (v ∈ [10; 20; 30]) = false.
Proof. rewrite bool_decide_eq_true, !bool_decide_eq_false. set_solver by lia. Qed.

#[global] Instance sample_laws : LLVMLaws.
Proof.
  split; intros; try done.
  - apply lookup_insert_eq.
  - by apply lookup_insert_ne.
  - cbn. destruct (decide (k = k')) as [<-|]; [apply lookup_insert_eq|by apply lookup_insert_ne].
  - cbn. destruct (decide (k = k')) as [<-|]; [apply lookup_alter_eq|by apply lookup_alter_ne].
  - cbn. destruct (decide (k = k')) as [<-|]; [apply lookup_alter_eq|by apply lookup_alter_ne].
  - by apply sample_kinds.
  - by apply sample_kinds.
  - cbn in *. rewrite bool_decide_eq_true in *. rewrite bool_decide_eq_false. set_solver by lia.
  - cbn in *. rewrite bool_decide_eq_true in *. set_solver.
  - cbn in *. unfold first, insts in *. repeat case_decide; simplify_eq; set_solver.
  - destruct sh. rewrite sample_insts in *. apply bool_decide_eq_true. repeat case_decide; set_solver.
  - destruct sh. rewrite sample_insts. repeat case_decide; apply (bool_decide_unpack _); vm_compute; done.
  - destruct sh. rewrite !sample_insts in *. repeat case_decide; set_solver by lia.
  - cbn. destruct (decide (k = k')) as [<-|]; [apply lookup_insert_eq|by apply lookup_insert_ne].
Qed.

Definition empty_module : IRModule := mk_module ∅ ∅ ∅ [] ∅.
Definition opts : hybprep_opts := mk_hybprep_opts [] "ltckpt_" "" true.

Lemma libcalls_numbered_witness :
  ∃ m', hybprep_runOnModule opts 0 empty_module = Ok (true, [11; 22]) m'
  ∧ getAssignedID 11 HYBPREP_NAMESPACE_ALL_LIBCALLS m' = Ok 1 m'
  ∧ getAssignedID 22 HYBPREP_NAMESPACE_ALL_LIBCALLS m' = Ok 2 m'.
Proof.
  destruct (libcalls_numbered opts empty_module) as (all & m' & E & Eall & _ & Hk).
  - reflexivity.
  - apply (bool_decide_unpack _). vm_compute. done.
  - exists 0. reflexivity.
  - assert (all = [11; 22]) as -> by (rewrite Eall; vm_compute; reflexivity).
    exists m'. split; [exact E|]. split.
    + apply (Hk ltac:(vm_compute; reflexivity) 0%nat). reflexivity.
    + apply (Hk ltac:(vm_compute; reflexivity) 1%nat). reflexivity.
Defined.

Lemma suicide_site_fires_witness :
  ∃ m' site last, fi_runOnModule ["read"; "libcalls"] true empty_module = Ok [22; 11; 22] m'
  ∧ initializer m' LTCKPT_FI_SUICIDEBOARD_SIZE_VARNAME = Some [last]
  ∧ getAssignedID 11 LTCKPT_NAMESPACE_FI m' = Ok (site 11) m' ∧ 0 < site 11 <= last.
Proof.
  destruct (suicide_site_fires ["read"; "libcalls"] true empty_module ([22], true))
    as (mb & m' & site & last & E & _ & Hl & _ & Hs).
  - reflexivity.
  - eexists. reflexivity.
  - vm_compute. split; reflexivity.
  - exists m', site, last. split; [exact E|]. split; [exact Hl|].
    destruct (Hs 11) as (Hsite & Hr & _); [|by split].
    apply (bool_decide_unpack _). vm_compute. done.
Defined.

End Sample.
