(* ===== verification/WindowPass.v ===== *)
(** * The boundaries of windows

    The passes that put the hooks of windows around library calls: [ltCkptPassTsx.cpp] for
    hardware transactions and [instrumentLibCallCkpts] of [ltCkptPass.cpp] for the other
    mechanisms.  A block is a list of instructions, those of the program and the hooks inserted
    so far; what the passes ask of an instruction is the class [PassIR].

    [ckpt_loop] goes over a block while it inserts into it; it ends, and the result is the block
    with every library call whose result is used between the end of a window and the start of the
    next one ([ckpt_block_expands]).  The hooks for transactions are at the instructions marked,
    once each ([tsx_hooks_placed]), and the program is otherwise the same. *)
From stdpp Require Import base numbers list gmap strings.
From Stdlib Require Import ZArith Lia.
From S2P Require Import Prelude SiteIds.

(** A function that is called. *)
Record fdecl := mk_fdecl { fd_name : string; fd_intrinsic : bool; fd_declaration : bool }.

Class PassIR := {
  val : Type;
  #[global] val_eq :: EqDecision val;
  is_call : val → bool;
  is_phi : val → bool;
  callee : val → option fdecl;
  returns_void : val → bool;
  num_users : val → nat;
  (* metadata: [getAssignedID] in the namespaces of transactions, and two nodes *)
  tx_type : val → Z;
  ltckpt_tx_type : val → Z;
  txwindow_size : val → option MDNode;
  txwindow_end : val → option MDNode;
}.

(** [tx_type_t]. *)
Definition TX_TYPE_INVALID : Z := 0.
Definition TX_TYPE_LTCKPT : Z := 1.
Definition TX_TYPE_TSX : Z := 2.
Definition TX_TYPE_HYBRID : Z := 3.

(** [TxUtil::isNonFaultableLibCall]. *)
Definition NonFaultableLibCalls : list string :=
  ["__ctype_b_loc"; "__errno_location"; "__h_errno_location"; "__libc_start_main"; "__mulsc3";
   "__isnan"; "__isinf"; "atoi"; "abs"; "bsearch"; "exit"; "freeaddrinfo"; "getegid"; "geteuid";
   "getpagesize"; "getpid"; "getppid"; "getopt"; "gettimeofday"; "getuid"; "gmtime"; "htons";
   "htonl"; "iswxdigit"; "localtime"; "localtime_r"; "log"; "memchr"; "memcmp"; "memcpy";
   "memmove"; "memset"; "modf"; "nl_langinfo"; "ntohs"; "ntohl"; "pow"; "printf"; "random";
   "realloc"; "setbuf"; "sprintf"; "srandom"; "strcasecmp"; "strcat"; "strchr"; "strcmp"; "strcpy";
   "strcspn"; "strdup"; "strerror"; "strftime"; "strlen"; "strncat"; "strncasecmp"; "strncmp";
   "strpbrk"; "strrchr"; "strspn"; "strstr"; "strtol"; "strtold"; "strtof"; "strtoul";
   "_ZNSi5tellgEv"; "tolower"; "toupper"; "truncate"; "time"; "ungetc"; "vsnprintf"; "acos";
   "acosh"; "asin"; "asinh"; "atan"; "atan2"; "atanh"; "atof"; "cbrt"; "clearerr"; "copysign";
   "cos"; "cosh"; "crc32"; "ctime"; "difftime"; "erand48"; "erfc"; "exp"; "fabs"; "fabsf"; "fileno";
   "floor"; "fmod"; "frexp"; "fscanf"; "fgets"; "gcvt"; "int_vasprintf"; "isalnum"; "isalpha";
   "isatty"; "islower"; "isspace"; "isxdigit"; "ldexp"; "log10"; "logb"; "modf"; "pcre_exec";
   "qsort"; "rand"; "rint"; "_ZdaPv"; "_ZdlPv"; "_Znam"; "_Znwm"; "sin"; "sinh"; "sqrt"; "sqrtf";
   "sscanf"; "strtok"; "tan"; "tanh"; "vsprintf"; "_ZSt9terminatev"; "__cxa_begin_catch"; "ceil";
   "gmtime_r"; "_ZStlsISt11char_traitsIcEERSt13basic_ostreamIcT_ES5_PKc";
   "_ZNKSt9basic_iosIcSt11char_traitsIcEEcvPvEv"; "_ZNSt6vectorIjSaIjEE6resizeEmj";
   "backtrace_symbols"; "strtod"; "lua_tonumber"].

Definition isNonFaultableLibCall (f : fdecl) : bool :=
  bool_decide (fd_name f ∈ NonFaultableLibCalls).

Section WindowPass.
Context `{PassIR}.

(** The calls of hooks that the passes insert.  [RetAddr] is the call of the store hook for the
    slot of the return address, [FrameAddrs] the recording of the last two frames; [StoreHook],
    [MemHook] and [RangeHook] come from the pass over stores. *)
Inductive hook :=
  | ConfSetup
  | TsxStart | TsxEnd
  | EndOfWindow | TopOfLoop (txType : Z) | SaveRegs | RetAddr | FrameAddrs
  | StoreHook (i : val) | MemHook (i : val) | RangeHook (ptr : val) (from size : Z).

#[export] Instance hook_eq_dec : EqDecision hook.
Proof. solve_decision. Defined.

(** An instruction of the program or a hook before or after one. *)
Inductive instr := Orig (i : val) | Hook (h : hook).

#[export] Instance instr_eq_dec : EqDecision instr.
Proof. solve_decision. Defined.

Definition block : Type := list instr.

Record func := mk_func {
  f_name : string;
  f_section : string;
  f_declaration : bool;
  f_vararg : bool;
  f_blocks : list block;
}.

Definition set_f_blocks (bs : list block) (f : func) : func :=
  mk_func (f_name f) (f_section f) (f_declaration f) (f_vararg f) bs.

(** A call to a function that is only declared. *)
Definition LTCKPT_IS_EXTERN (f : fdecl) : bool := negb (fd_intrinsic f) && fd_declaration f.

Definition extern_callee (i : val) : option fdecl :=
  if is_call i then
    match callee i with
    | Some f => if LTCKPT_IS_EXTERN f then Some f else None
    | None => None
    end
  else None.

(** [callHasNoUsers] on a call of the program. *)
Definition no_users (i : val) : bool := if returns_void i then true else (num_users i =? 0)%nat.

(** [isInLtckptSection], [isInSection]. *)
Definition in_ltckpt_section (f : func) : bool :=
  bool_decide (f_section f = "ltckpt_functions") || bool_decide (f_section f = "rcvry_functions").
Definition in_section (f : func) (s : string) : bool := bool_decide (f_section f = s).

(** ** Hardware transactions *)

(** The options of the pass. *)
Record tsx_opts := mk_tsx_opts {
  ltckptTsxThreshold : Z;
  ltckptAllTOLs : bool;
  ltckptTSXInstrumentSectionName : string;
  excludeVariadicFuncsOpt : bool;
  excludeFuncsOpt : list string;
}.

(** The two sets of the pass. *)
Record marks := mk_marks { txWindowStarts : list val; txWindowEnds : list val }.
Definition mark_window_start (i : val) (s : marks) : marks :=
  mk_marks (touch (txWindowStarts s) i) (txWindowEnds s).
Definition mark_window_end (i : val) (s : marks) : marks :=
  mk_marks (txWindowStarts s) (touch (txWindowEnds s) i).

Abbreviation P := (prog marks).

Definition skipInstrumentation (o : tsx_opts) (f : func) : bool :=
  if in_ltckpt_section f then true else
  if negb (bool_decide (ltckptTSXInstrumentSectionName o = "")) &&
     negb (in_section f (ltckptTSXInstrumentSectionName o)) then true else
  skipped_name (f_name f).

(** The constant of a node with operands; a null pointer is followed when it is none. *)
Definition md_const (n : option MDNode) : P (option Z) :=
  match n with
  | Some (Some z :: _) => mret (Some z)
  | Some (None :: _) => halt Sigsegv
  | _ => mret None
  end.

Fixpoint mark_by_size (o : tsx_opts) (b : block) : P () :=
  match b with
  | [] => skip
  | Hook _ :: b' => mark_by_size o b'
  | Orig i :: b' =>
      size ← md_const (txwindow_size i);
      when (match size with Some z => (0 <? z) && (z <? ltckptTsxThreshold o) | None => false end)
        (modify (mark_window_start i)) ;;
      flag ← md_const (txwindow_end i);
      when (match flag with Some z => truthy z | None => false end) (modify (mark_window_end i)) ;;
      mark_by_size o b'
  end.

Definition markTxWindowSizeBasedBoundaries (o : tsx_opts) (f : func) : P () :=
  mark_by_size o (concat (f_blocks f)).

Definition is_interval_boundary (i : val) : bool :=
  match extern_callee i with
  | Some f => negb (no_users i) && negb (isNonFaultableLibCall f)
  | None => false
  end.

Fixpoint mark_by_libcall (b : block) : P () :=
  match b with
  | [] => skip
  | Orig i :: b' =>
      when (is_interval_boundary i) (modify (mark_window_start i) ;; modify (mark_window_end i)) ;;
      mark_by_libcall b'
  | Hook _ :: b' => mark_by_libcall b'
  end.

Definition markLibCallIntervalBasedBoundaries (f : func) : P () :=
  mark_by_libcall (concat (f_blocks f)).

(** [getFirstNonPHI] of the entry block. *)
Definition entry_first (f : func) : option val :=
  match f_blocks f with
  | b :: _ =>
      head (omap (λ x, match x with Orig i => if is_phi i then None else Some i | Hook _ => None end) b)
  | [] => None
  end.

Definition tsx_excluded (o : tsx_opts) (f : func) : bool :=
  negb (f_declaration f) && negb (bool_decide (f_blocks f = [])) &&
  ((f_vararg f && excludeVariadicFuncsOpt o) || bool_decide (f_name f ∈ excludeFuncsOpt o)).

Definition tsx_mark_function (o : tsx_opts) (f : func) : P () :=
  if tsx_excluded o f
  then match entry_first f with Some i => modify (mark_window_end i) | None => skip end
  else if skipInstrumentation o f then skip
  else if ltckptAllTOLs o then markLibCallIntervalBasedBoundaries f
  else markTxWindowSizeBasedBoundaries o f.

Fixpoint tsx_mark (o : tsx_opts) (fs : list func) : P () :=
  match fs with [] => skip | f :: fs' => tsx_mark_function o f ;; tsx_mark o fs' end.

(** Insertion of a call before or after an instruction. *)
Definition insert_after_in (i : val) (h : hook) (b : block) : block :=
  b ≫= λ x, if decide (x = Orig i) then [x; Hook h] else [x].
Definition insert_before_in (i : val) (h : hook) (b : block) : block :=
  b ≫= λ x, if decide (x = Orig i) then [Hook h; x] else [x].
Definition map_blocks (g : block → block) (fs : list func) : list func :=
  (λ f, set_f_blocks (g <$> f_blocks f) f) <$> fs.

Definition insertTSXBoundaryHooks (s : marks) (fs : list func) : list func :=
  let fs := foldl (λ fs i, map_blocks (insert_after_in i TsxStart) fs) fs (txWindowStarts s) in
  foldl (λ fs i, map_blocks (insert_before_in i TsxEnd) fs) fs (txWindowEnds s).

(** [LtCkptPassTsx::runOnModule]; an excluded function has to exist. *)
Definition tsx_runOnModule (o : tsx_opts) (fs : list func) : result marks (list func) :=
  (assert (forallb (λ n, bool_decide (n ∈ (f_name <$> fs))) (excludeFuncsOpt o)) ;;
   tsx_mark o fs ;;
   gets (λ s, insertTSXBoundaryHooks s fs)) (mk_marks [] []).

(** ** Library calls *)

(** The options: [ltckpt-save-registers] other than [none], and [ltckpt-enable-stkchklog]. *)
Record ckpt_opts := mk_ckpt_opts { opt_save_regs : bool; opt_stkchklog : bool }.

(** Whether an instruction is a library call that gets a window of this pass: the switch on its
    [TX_TYPE]. *)
Definition ckpt_type (x : instr) : option Z :=
  match x with
  | Hook _ => None
  | Orig i =>
      match extern_callee i with
      | None => None
      | Some _ =>
          if no_users i then None else
          let txType := tx_type i in
          if (txType =? TX_TYPE_TSX) || (txType =? TX_TYPE_HYBRID) then None
          else if txType =? TX_TYPE_INVALID then Some TX_TYPE_LTCKPT
          else Some txType
      end
  end.

(** The loop over a block: [before] has been visited, the head of [after] is next.  A call
    inserted before the current instruction goes to the end of [before]; one inserted after it is
    visited in its turn. *)
Fixpoint ckpt_loop (fuel : nat) (o : ckpt_opts) (before after : block) : option block :=
  match after with
  | [] => Some before
  | x :: rest =>
      match fuel with
      | O => None
      | S fuel' =>
          match ckpt_type x with
          | None => ckpt_loop fuel' o (before ++ [x]) rest
          | Some txType =>
              let rest := if opt_save_regs o then Hook SaveRegs :: rest else rest in
              (* the top of the loop goes before the instruction after the call *)
              let tol := Hook (TopOfLoop txType) in
              let before := before ++ [Hook EndOfWindow] in
              let fps := if opt_stkchklog o then [Hook FrameAddrs] else [] in
              ckpt_loop fuel' o (before ++ [x]) (fps ++ tol :: Hook RetAddr :: rest)
          end
      end
  end.

(** What becomes of an instruction. *)
Definition expand_call (o : ckpt_opts) (x : instr) : block :=
  match ckpt_type x with
  | None => [x]
  | Some t =>
      [Hook EndOfWindow; x] ++ (if opt_stkchklog o then [Hook FrameAddrs] else []) ++
      [Hook (TopOfLoop t); Hook RetAddr] ++ (if opt_save_regs o then [Hook SaveRegs] else [])
  end.

(** A turn for each instruction of the block, and four more for the hooks after a library call. *)
Definition instrumentLibCallCkpts (o : ckpt_opts) (b : block) : option block :=
  ckpt_loop (5 * length b) o [] b.

(** [instrumentTopOfTheLoop]: before the first instruction there is. *)
Fixpoint instrumentTopOfTheLoop (bs : list block) : list block :=
  match bs with
  | [] => []
  | [] :: bs' => [] :: instrumentTopOfTheLoop bs'
  | b :: bs' => (Hook (TopOfLoop TX_TYPE_INVALID) :: b) :: bs'
  end.

(** [instrumentConfSetup]: at the start of the function. *)
Definition instrumentConfSetup (bs : list block) : list block :=
  match bs with b :: bs' => (Hook ConfSetup :: b) :: bs' | [] => [] end.

(** ** The hooks of library calls *)

(** The instructions of the program in a block. *)
Definition program_of (b : block) : list val :=
  omap (λ x, match x with Orig i => Some i | Hook _ => None end) b.

(** The turns an instruction takes: its own and those of the hooks after it. *)
Definition turns (x : instr) : nat := match ckpt_type x with None => 1 | Some _ => 5 end.

Lemma turns_bound b : (sum_list (turns <$> b) <= 5 * length b)%nat.
Proof. induction b as [|x b IH]; cbn; [lia|]. unfold turns at 1. destruct (ckpt_type x); cbn; lia. Qed.

Lemma ckpt_loop_expands o fuel before after : (sum_list (turns <$> after) <= fuel)%nat →
  ckpt_loop fuel o before after = Some (before ++ (after ≫= expand_call o)).
Proof.
  revert before after. induction fuel as [|fuel IH]; intros before after Hf;
    destruct after as [|x after]; cbn [ckpt_loop]; try by rewrite app_nil_r.
  { cbn in Hf. unfold turns in Hf at 1. destruct (ckpt_type x); lia. }
  cbn in Hf. unfold turns in Hf at 1. rewrite bind_cons. unfold expand_call at 1.
  destruct (ckpt_type x) as [t|] eqn:Et.
  - rewrite IH.
    + destruct (opt_stkchklog o), (opt_save_regs o); cbn; by rewrite <- !app_assoc.
    + destruct (opt_stkchklog o), (opt_save_regs o); cbn; lia.
  - rewrite IH by lia. by rewrite <- app_assoc.
Qed.

(** The loop ends, and the block is the one it was with every library call that gets a window
    between the end of the last window and the start of its own. *)
Theorem ckpt_block_expands o b : instrumentLibCallCkpts o b = Some (b ≫= expand_call o).
Proof. apply (ckpt_loop_expands o _ []). pose proof (turns_bound b). lia. Qed.

(** The instructions of the program are those there were, in their order. *)
Lemma expand_keeps_program o b : program_of (b ≫= expand_call o) = program_of b.
Proof.
  unfold program_of. induction b as [|x b IH]; [done|]. rewrite bind_cons, omap_app, IH. unfold expand_call.
  destruct (ckpt_type x) as [t|] eqn:Et; [|by destruct x]. destruct x as [i|h]; [|done].
  by destruct (opt_stkchklog o), (opt_save_regs o).
Qed.

(** ** The hooks of transactions *)

(** What becomes of an instruction. *)
Definition tsx_expand (s : marks) (x : instr) : block :=
  match x with
  | Hook _ => [x]
  | Orig i =>
      (if decide (i ∈ txWindowEnds s) then [Hook TsxEnd] else []) ++ [x] ++
      (if decide (i ∈ txWindowStarts s) then [Hook TsxStart] else [])
  end.

Lemma block_bind_bind (b : block) (f g : instr → block) : (b ≫= f) ≫= g = b ≫= (λ x, f x ≫= g).
Proof. induction b as [|x b IH]; [done|]. by rewrite !bind_cons, bind_app, IH. Qed.

Lemma block_bind_ext (b : block) (f g : instr → block) : (∀ x, f x = g x) → b ≫= f = b ≫= g.
Proof. intros E. induction b as [|x b IH]; [done|]. by rewrite !bind_cons, E, IH. Qed.

Lemma block_bind_ret (b : block) : b ≫= (λ x, [x]) = b.
Proof. induction b as [|x b IH]; [done|]. by rewrite bind_cons, IH. Qed.

(** Hooks before and after each instruction of a list. *)
Definition around (pre post : list hook) (l : list val) (x : instr) : block :=
  match x with
  | Orig i => if decide (i ∈ l) then (Hook <$> pre) ++ [x] ++ (Hook <$> post) else [x]
  | Hook _ => [x]
  end.

Lemma around_hooks pre post l hs : (Hook <$> hs) ≫= around pre post l = Hook <$> hs.
Proof. induction hs as [|h hs IH]; [done|]. cbn [fmap list_fmap]. by rewrite bind_cons, IH. Qed.

Lemma around_all pre post l b : NoDup l →
  foldl (λ b i, b ≫= around pre post [i]) b l = b ≫= around pre post l.
Proof.
  intros Hn. revert b. induction Hn as [|i l Hi Hn IH]; intros b; cbn [foldl].
  { rewrite <- (block_bind_ret b) at 1. apply block_bind_ext. intros [j|h]; [|done]. cbn.
    by rewrite decide_False by set_solver. }
  rewrite IH, block_bind_bind. apply block_bind_ext. intros [j|h]; [|done]. unfold around at 2 3.
  destruct (decide (j ∈ [i])) as [->%list_elem_of_singleton|Hne].
  - rewrite decide_True by set_solver. rewrite !bind_app, !around_hooks. cbn.
    by rewrite decide_False by done.
  - cbn. rewrite app_nil_r. by rewrite (decide_ext (j ∈ i :: l) (j ∈ l)) by set_solver.
Qed.

Lemma insert_after_around i h b : insert_after_in i h b = b ≫= around [] [h] [i].
Proof.
  apply block_bind_ext. intros [j|h']; cbn; [|done].
  by rewrite (decide_ext (j ∈ [i]) (Orig j = Orig i)) by (rewrite list_elem_of_singleton; naive_solver).
Qed.

Lemma insert_before_around i h b : insert_before_in i h b = b ≫= around [h] [] [i].
Proof.
  apply block_bind_ext. intros [j|h']; cbn; [|done].
  by rewrite (decide_ext (j ∈ [i]) (Orig j = Orig i)) by (rewrite list_elem_of_singleton; naive_solver).
Qed.

Lemma map_blocks_ext g h fs : (∀ b, g b = h b) → map_blocks g fs = map_blocks h fs.
Proof.
  intros E. unfold map_blocks. apply list_fmap_ext. intros _ f _. f_equal. by apply list_fmap_ext.
Qed.

Lemma map_blocks_compose g h fs : map_blocks g (map_blocks h fs) = map_blocks (g ∘ h) fs.
Proof.
  unfold map_blocks. rewrite <- list_fmap_compose. apply list_fmap_ext. intros _ f _. cbn.
  unfold set_f_blocks. cbn. by rewrite <- list_fmap_compose.
Qed.

Lemma map_blocks_id fs : map_blocks id fs = fs.
Proof.
  unfold map_blocks. rewrite <- (list_fmap_id fs) at 2. apply list_fmap_ext. intros _ [] _. cbn.
  unfold set_f_blocks. cbn. by rewrite list_fmap_id.
Qed.

Lemma map_blocks_foldl (g : val → block → block) l fs :
  foldl (λ fs i, map_blocks (g i) fs) fs l = map_blocks (λ b, foldl (λ b i, g i b) b l) fs.
Proof.
  revert fs. induction l as [|i l IH]; intros fs; cbn [foldl]; [by rewrite map_blocks_id|].
  by rewrite IH, map_blocks_compose.
Qed.

Lemma foldl_step_ext {A B} (f g : A → B → A) a l : (∀ a b, f a b = g a b) → foldl f a l = foldl g a l.
Proof. intros E. revert a. induction l as [|b l IH]; intros a; cbn; [done|]. by rewrite E, IH. Qed.

Lemma insertTSX_expands s fs : NoDup (txWindowStarts s) → NoDup (txWindowEnds s) →
  insertTSXBoundaryHooks s fs = map_blocks (λ b, b ≫= tsx_expand s) fs.
Proof.
  intros Hs He. unfold insertTSXBoundaryHooks.
  rewrite (map_blocks_foldl (λ i, insert_after_in i TsxStart)).
  rewrite (map_blocks_foldl (λ i, insert_before_in i TsxEnd)), map_blocks_compose.
  apply map_blocks_ext. intros b. unfold compose.
  rewrite (foldl_step_ext _ (λ b i, b ≫= around [] [TsxStart] [i]) b) by (intros; apply insert_after_around).
  rewrite around_all by done.
  rewrite (foldl_step_ext _ (λ b i, b ≫= around [TsxEnd] [] [i])) by (intros; apply insert_before_around).
  rewrite around_all by done.
  rewrite block_bind_bind. apply block_bind_ext. intros [i|h]; [|done]. cbn.
  by repeat (case_decide; cbn).
Qed.

(** [marked S E s s']: the elements of [S] and [E] have been added to the sets. *)
Definition marked (S E : val → Prop) (s s' : marks) : Prop :=
  (NoDup (txWindowStarts s) → NoDup (txWindowStarts s'))
  ∧ (NoDup (txWindowEnds s) → NoDup (txWindowEnds s'))
  ∧ (∀ i, i ∈ txWindowStarts s' ↔ i ∈ txWindowStarts s ∨ S i)
  ∧ (∀ i, i ∈ txWindowEnds s' ↔ i ∈ txWindowEnds s ∨ E i).

Lemma marked_none s : marked (λ _, False) (λ _, False) s s.
Proof. unfold marked. naive_solver. Qed.

Lemma marked_trans S1 E1 S2 E2 s1 s2 s3 : marked S1 E1 s1 s2 → marked S2 E2 s2 s3 →
  marked (λ i, S1 i ∨ S2 i) (λ i, E1 i ∨ E2 i) s1 s3.
Proof.
  intros (N1 & M1 & A1 & B1) (N2 & M2 & A2 & B2). split_and!; [auto..| |].
  - intros i. rewrite A2, A1. tauto.
  - intros i. rewrite B2, B1. tauto.
Qed.

Lemma marked_iff S E S' E' s s' : (∀ i, S i ↔ S' i) → (∀ i, E i ↔ E' i) →
  marked S E s s' → marked S' E' s s'.
Proof.
  intros HS HE (N & M & A & B). split_and!; [done..| |].
  - intros i. by rewrite A, HS.
  - intros i. by rewrite B, HE.
Qed.

Lemma elem_of_touch (l : list val) x i : i ∈ touch l x ↔ i ∈ l ∨ i = x.
Proof. unfold touch. case_decide; set_solver. Qed.

Lemma touch_NoDup (l : list val) x : NoDup l → NoDup (touch l x).
Proof. intros Hl. by apply (touches_NoDup l [x]). Qed.

Lemma mark_start_marked j s : marked (λ i, i = j) (λ _, False) s (mark_window_start j s).
Proof. split_and!; cbn; auto using touch_NoDup; intros i; rewrite ?elem_of_touch; tauto. Qed.

Lemma mark_end_marked j s : marked (λ _, False) (λ i, i = j) s (mark_window_end j s).
Proof. split_and!; cbn; auto using touch_NoDup; intros i; rewrite ?elem_of_touch; tauto. Qed.

Lemma mark_by_libcall_marked b s :
  let B i := Orig i ∈ b ∧ is_interval_boundary i = true in
  ∃ s', mark_by_libcall b s = Ok () s' ∧ marked B B s s'.
Proof.
  revert s. induction b as [|[j|h] b IH]; intros s; cbn [mark_by_libcall].
  - exists s. split; [done|]. eapply marked_iff; [..|apply marked_none]; set_solver.
  - destruct (is_interval_boundary j) eqn:Ej; cbn [when].
    + rewrite bind_assoc, !bind_modify. destruct (IH (mark_window_end j (mark_window_start j s))) as (s' & E & Hm).
      exists s'. split; [done|].
      pose proof (marked_trans _ _ _ _ _ _ _ (mark_start_marked j s) (mark_end_marked j (mark_window_start j s))) as H1.
      eapply marked_iff; [..|exact (marked_trans _ _ _ _ _ _ _ H1 Hm)];
        intros i; cbn; rewrite elem_of_cons; naive_solver.
    + destruct (IH s) as (s' & E & Hm). exists s'. split; [done|].
      eapply marked_iff; [..|exact Hm]; intros i; cbn; rewrite elem_of_cons;
        (split; [intros [? ?]; auto|intros [[[= ->]|?] ?]; [congruence|auto]]).
  - destruct (IH s) as (s' & E & Hm). exists s'. split; [done|].
    eapply marked_iff; [..|exact Hm]; intros i; cbn; rewrite elem_of_cons; naive_solver.
Qed.

(** The calls a transaction starts after, and the first instructions of functions in which none is
    to run. *)
Definition starts_in (o : tsx_opts) (f : func) (i : val) : Prop :=
  tsx_excluded o f = false ∧ skipInstrumentation o f = false
  ∧ Orig i ∈ concat (f_blocks f) ∧ is_interval_boundary i = true.
Definition ends_in (o : tsx_opts) (f : func) (i : val) : Prop :=
  starts_in o f i ∨ (tsx_excluded o f = true ∧ entry_first f = Some i).

Lemma tsx_mark_function_marked o f s : ltckptAllTOLs o = true →
  ∃ s', tsx_mark_function o f s = Ok () s' ∧ marked (starts_in o f) (ends_in o f) s s'.
Proof.
  intros Ho. unfold tsx_mark_function. rewrite Ho. unfold starts_in, ends_in, starts_in.
  destruct (tsx_excluded o f).
  - destruct (entry_first f) as [j|].
    + exists (mark_window_end j s). split; [done|]. eapply marked_iff; [..|apply mark_end_marked]; naive_solver.
    + exists s. split; [done|]. eapply marked_iff; [..|apply marked_none]; naive_solver.
  - destruct (skipInstrumentation o f).
    + exists s. split; [done|]. eapply marked_iff; [..|apply marked_none]; naive_solver.
    + destruct (mark_by_libcall_marked (concat (f_blocks f)) s) as (s' & E & Hm). exists s'. split; [done|].
      eapply marked_iff; [..|exact Hm]; cbn; intros i; tauto || (split; [auto|intros [?|[? ?]]]; [tauto|done]).
Qed.

Lemma tsx_mark_marked o fs s : ltckptAllTOLs o = true →
  ∃ s', tsx_mark o fs s = Ok () s'
  ∧ marked (λ i, ∃ f, f ∈ fs ∧ starts_in o f i) (λ i, ∃ f, f ∈ fs ∧ ends_in o f i) s s'.
Proof.
  intros Ho. revert s. induction fs as [|f fs IH]; intros s; cbn [tsx_mark].
  { exists s. split; [done|]. eapply marked_iff; [..|apply marked_none]; set_solver. }
  destruct (tsx_mark_function_marked o f s Ho) as (s1 & E1 & M1). rewrite (bind_Ok _ _ _ _ _ E1).
  destruct (IH s1) as (s2 & E2 & M2). exists s2. split; [done|].
  eapply marked_iff; [..|exact (marked_trans _ _ _ _ _ _ _ M1 M2)]; intros i; cbn; set_solver.
Qed.

(** With a transaction for every interval between library calls, the pass goes through when the
    functions to exclude are there; the program is the one it was with a transaction ended before
    and started after exactly the library calls that can fail and whose result is used, and ended
    on entry of the functions excluded. *)
Theorem tsx_hooks_placed o fs : ltckptAllTOLs o = true →
  Forall (λ n, n ∈ (f_name <$> fs)) (excludeFuncsOpt o) →
  ∃ s, tsx_runOnModule o fs = Ok (map_blocks (λ b, b ≫= tsx_expand s) fs) s
  ∧ (∀ i, i ∈ txWindowStarts s ↔ ∃ f, f ∈ fs ∧ starts_in o f i)
  ∧ (∀ i, i ∈ txWindowEnds s ↔ ∃ f, f ∈ fs ∧ ends_in o f i).
Proof.
  intros Ho Hex. unfold tsx_runOnModule. rewrite bind_assert.
  2: { apply Is_true_eq_true, forallb_True. eapply Forall_impl; [exact Hex|]. intros n. apply bool_decide_pack. }
  destruct (tsx_mark_marked o fs (mk_marks [] []) Ho) as (s & E & N1 & N2 & A & B).
  rewrite (bind_Ok _ _ _ _ _ E). exists s. split_and!.
  - unfold gets. by rewrite insertTSX_expands by (apply N1 || apply N2; constructor).
  - intros i. rewrite A. set_solver.
  - intros i. rewrite B. set_solver.
Qed.

End WindowPass.
