(* ===== verification/StorePass.v ===== *)
(** * The hooks of stores

    [passes/ltckpt/ltCkptPassBasic.cpp]: the pass that puts a hook before the stores a window has
    to undo.  Modelled are the choice of stores ([storeToBeInstrumented], with the walk over phi
    nodes, and [memIntrinsicToBeInstrumented]), the loop over the blocks of a function, the
    elimination of stores that another one makes redundant, the aggregation of stores to an
    object, and [onFunction].  The stores of a block are those of [WindowPass]; what the pass asks
    of a value is the class [StoreIR].

    A store is left out only when what it writes to is on the stack ([store_skipped_iff]); the walk
    over phi nodes ends and finds every value ([phi_values_spec]).  The selection of instructions
    and their instrumentation, made in two passes over the function, come to one in which every
    chosen store has its hook before it ([stores_hooked]).  An eliminated store is dominated by one
    that is kept ([kept_store_dominates]); an aggregated one by the hook of its object, whose range
    does not reach the last store of the object ([aggregated_dominated]). *)
From stdpp Require Import base numbers list gmap strings relations.
From Stdlib Require Import ZArith Lia Ascii.
From S2P Require Import Prelude SiteIds WindowPass.

(** What the pass distinguishes of a value. *)
Inductive vkind (V : Type) :=
  | KGep (ptr : V) | KGlobal | KCall | KPhi (incoming : list V) | KLoad | KAlloca | KOther.
#[global] Arguments KGep {V} ptr.
#[global] Arguments KGlobal {V}.
#[global] Arguments KCall {V}.
#[global] Arguments KPhi {V} incoming.
#[global] Arguments KLoad {V}.
#[global] Arguments KAlloca {V}.
#[global] Arguments KOther {V}.

(** What the aggregation looks through: an address computation within bounds by a constant, another
    address computation, a cast, an alias. *)
Inductive look (V : Type) := LGep (off : Z) (ptr : V) | LGepOther | LCast (v : V) | LAlias (v : V) | LNone.
#[global] Arguments LGep {V} off ptr.
#[global] Arguments LGepOther {V}.
#[global] Arguments LCast {V} v.
#[global] Arguments LAlias {V} v.
#[global] Arguments LNone {V}.

(** A node of the data-structure analysis. *)
Record dsnode := mk_dsnode { ds_global : bool; ds_unknown : bool; ds_external : bool; ds_complete : bool }.

Class StoreIR `{PassIR} := {
  vkind_of : val → vkind val;
  look_of : val → look val;
  stripInBoundsOffsets : val → val;
  stripPointerCasts : val → val;
  is_store : val → bool;
  is_mem : val → bool;
  pointer_operand : val → val;
  mem_dest : val → val;
  vusers : val → list val;
  is_cast : val → bool;
  dominates : val → val → bool;
  ds_node : val → option dsnode;
}.

(** The options of the pass and of its build. *)
Record store_opts := mk_store_opts {
  tolNames : string;
  ltckptOptSkipAllocas : bool;
  ltckptOptAggrStrStr : bool;
  ltckptInstrumentSectionName : string;
  ltckptOptNoTOLs : bool;
  ltckptOptNoStoreHooks : bool;
  skipStoreHooksOnFunctions : list string;
  has_dsa : bool;
  ckpt_options : ckpt_opts;
}.

Lemma filter_length_mono {A} (P Q : A → Prop) `{!∀ x, Decision (P x), !∀ x, Decision (Q x)} l :
  (∀ x, P x → Q x) → (length (filter P l) <= length (filter Q l))%nat.
Proof.
  intros HPQ. induction l as [|x l IH]; [done|]. rewrite !filter_cons.
  case_decide; case_decide; cbn; [lia|naive_solver|lia|lia].
Qed.

Lemma filter_length_lt {A} (P Q : A → Prop) `{!∀ x, Decision (P x), !∀ x, Decision (Q x)} l x :
  (∀ y, P y → Q y) → x ∈ l → Q x → ¬ P x → (length (filter P l) < length (filter Q l))%nat.
Proof.
  intros HPQ Hx Hq Hp. induction l as [|y l IH]; [set_solver|]. rewrite !filter_cons.
  pose proof (filter_length_mono P Q l HPQ) as Hm.
  apply elem_of_cons in Hx as [<-|Hx].
  - rewrite decide_False, decide_True by done. cbn. lia.
  - specialize (IH Hx). case_decide; case_decide; cbn; [lia|naive_solver|lia|lia].
Qed.

Section StorePass.
Context `{StoreIR}.
Variable o : store_opts.
(** A bound on the walks over values. *)
Variable fuel : nat.

(** ** The choice *)

(** The loop that strips offsets. *)
Fixpoint strip_loop (n : nat) (v : val) : option val :=
  match n with
  | O => None
  | S n' =>
      let v := stripInBoundsOffsets v in
      match vkind_of v with
      | KGep p => strip_loop n' p
      | _ => Some v
      end
  end.

(** The loop over the incoming values of a phi node; [rec] is the call for another node. *)
Fixpoint incoming_loop (rec : val → list val * list val → option (list val * list val))
    (l : list val) (acc : list val * list val) : option (list val * list val) :=
  match l with
  | [] => Some acc
  | x :: l' =>
      let v := stripInBoundsOffsets x in
      match vkind_of v with
      | KPhi _ => acc ← rec v acc; incoming_loop rec l' acc
      | _ => incoming_loop rec l' (acc.1, touch acc.2 v)
      end
  end.

(** [getValuesForPhiNode]: the nodes visited and the values found. *)
Fixpoint getValuesForPhiNode (n : nat) (p : val) (acc : list val * list val)
    : option (list val * list val) :=
  match n with
  | O => None
  | S n' =>
      if decide (p ∈ acc.1) then Some acc else
      match vkind_of p with
      | KPhi l => incoming_loop (getValuesForPhiNode n') l (touch acc.1 p, acc.2)
      | _ => Some acc
      end
  end.

Definition is_alloca (v : val) : bool := match vkind_of v with KAlloca => true | _ => false end.

Definition non_escaping (v : val) : bool :=
  match ds_node v with
  | Some n => negb (ds_global n) && negb (ds_unknown n) && negb (ds_external n) && ds_complete n
  | None => false
  end.

Definition storeToBeInstrumented (i : val) : option bool :=
  if negb (is_store i) then Some true else
  v ← strip_loop fuel (pointer_operand i);
  all_alloca ← match vkind_of v with
               | KPhi _ =>
                   acc ← getValuesForPhiNode fuel v ([], []);
                   Some (forallb is_alloca acc.2)
               | _ => Some false
               end;
  if all_alloca && ltckptOptSkipAllocas o then Some false else
  if ltckptOptSkipAllocas o && is_alloca v then Some false else
  if has_dsa o && non_escaping v then Some false else
  Some true.

Definition memIntrinsicToBeInstrumented (i : val) : option bool :=
  if negb (is_mem i) then Some true else
  v ← strip_loop fuel (mem_dest i);
  if ltckptOptSkipAllocas o && is_alloca v then Some false else Some true.

(** ** The blocks of a function *)

(** The type of the window an instruction starts. *)
Definition boundary_type (x : instr) : Z :=
  match x with
  | Hook TsxStart => TX_TYPE_TSX
  | Hook (TopOfLoop t) => t
  | Hook _ => TX_TYPE_INVALID
  | Orig i => if is_call i then ltckpt_tx_type i else TX_TYPE_INVALID
  end.

(** [instrumentStores] after an instruction. *)
Definition instrumentStores_after (x : instr) (on : bool) : bool :=
  let txType := boundary_type x in
  if txType =? TX_TYPE_INVALID then on else negb (txType =? TX_TYPE_TSX).

(** Whether an instruction is put into the set. *)
Definition referencing (x : instr) : option bool :=
  match x with
  | Hook _ => Some false
  | Orig i =>
      s ← (if is_store i then storeToBeInstrumented i else Some false);
      t ← (if is_mem i then memIntrinsicToBeInstrumented i else Some false);
      Some (s || t)
  end.

Fixpoint select_block (on : bool) (b : block) (il : list val) : option (list val) :=
  match b with
  | [] => Some il
  | x :: b' =>
      let on := instrumentStores_after x on in
      r ← (if on then referencing x else Some false);
      select_block on b' (match x with Orig i => if r : bool then touch il i else il | Hook _ => il end)
  end.

Fixpoint select_blocks (bs : list block) (il : list val) : option (list val) :=
  match bs with
  | [] => Some il
  | b :: bs' => il ← select_block true b il; select_blocks bs' il
  end.

(** ** Double stores *)

Fixpoint recusercheck (n : nat) (s v : val) : option (list val) :=
  match n with
  | O => None
  | S n' =>
      foldr (λ u r,
        r ← r;
        if is_store u then
          if dominates s u && bool_decide (stripPointerCasts v = stripPointerCasts (pointer_operand u))
          then Some (u :: r) else Some r
        else if is_cast u then (λ l, l ++ r) <$> recusercheck n' s u
        else Some r) (Some []) (vusers v)
  end.

Fixpoint double_stores (il : list val) : option (list val) :=
  match il with
  | [] => Some []
  | s :: il' =>
      ds ← double_stores il';
      if is_store s then (λ l, l ++ ds) <$> recusercheck fuel s (stripPointerCasts (pointer_operand s))
      else Some ds
  end.

Definition eliminateDoubleStores (il : list val) : option (list val) :=
  if negb (has_dsa o) then Some il else
  ds ← double_stores il;
  Some (filter (λ i, i ∉ ds) il).

(** ** Aggregation *)

(** The object of a store and the offset in it, a pointer-sized integer. *)
Fixpoint object_of (n : nat) (visited : list val) (v : val) (off : Z) : option (val * Z) :=
  match n with
  | O => None
  | S n' =>
      let continue v off :=
        if decide (v ∈ visited) then Some (v, off) else object_of n' (v :: visited) v off in
      match look_of v with
      | LGep c p => continue p (swrap 64 (off + c))
      | LGepOther => Some (v, off)
      | LCast w | LAlias w => continue w off
      | LNone => Some (v, off)
      end
  end.

(** [ObjectStoreDomationMap]: the chains of an object; a chain is its stores with their offsets. *)
Definition chain : Type := list (val * Z).
Definition dmap : Type := list (val * list chain).

(** The loop over the chains of an object. *)
Fixpoint add_to_chains (dcl : list chain) (i : val) (off : Z) : list chain :=
  match dcl with
  | [] => [[(i, off)]]
  | dc :: dcl' =>
      match dc with
      | (leader, _) :: _ =>
          if dominates leader i then (dc ++ [(i, off)]) :: dcl'
          else if dominates i leader then ((i, off) :: dc) :: dcl'
          else dc :: add_to_chains dcl' i off
      | [] => dc :: add_to_chains dcl' i off
      end
  end.

Fixpoint addStore (m : dmap) (v i : val) (off : Z) : dmap :=
  match m with
  | [] => [(v, [[(i, off)]])]
  | (w, dcl) :: m' =>
      if decide (w = v) then (w, add_to_chains dcl i off) :: m' else (w, dcl) :: addStore m' v i off
  end.

Fixpoint add_stores (il : list val) (m : dmap) : option dmap :=
  match il with
  | [] => Some m
  | s :: il' =>
      if is_store s then
        '(v, off) ← object_of fuel [pointer_operand s] (pointer_operand s) 0;
        add_stores il' (addStore m v s off)
      else add_stores il' m
  end.

(** A call of [instrumentRange]: before which instruction, on what. *)
Record range := mk_range { rg_at : val; rg_ptr : val; rg_from : Z; rg_size : Z }.

Definition chain_min (dc : chain) : Z := foldr (λ e z, Z.min e.2 z) (default 0 (snd <$> head dc)) dc.
Definition chain_max (dc : chain) : Z := foldr (λ e z, Z.max e.2 z) (default 0 (snd <$> head dc)) dc.

(** [dump] on one chain: the second argument of [instrumentRange] is the smallest offset, the
    third the largest. *)
Definition dump_chain (v : val) (dc : chain) : list val * list range :=
  match dc with
  | (leader, _) :: _ :: _ => (fst <$> dc, [mk_range leader v (chain_min dc) (chain_max dc)])
  | _ => ([], [])
  end.

Definition dump_map (m : dmap) : list val * list range :=
  let all := m ≫= λ e, dump_chain e.1 <$> e.2 in
  (concat (fst <$> all), concat (snd <$> all)).

Definition aggregateStores (il : list val) : option (list val * list range) :=
  m ← add_stores il [];
  let '(toDel, ranges) := dump_map m in
  Some (filter (λ i, i ∉ toDel) il, ranges).

(** ** [onFunction] *)

(** [std::getline] with the separator of the option. *)
Fixpoint getlines (s item : string) : list string :=
  match s with
  | EmptyString => if decide (item = EmptyString) then [] else [item]
  | String c s' =>
      if decide (c = ":"%char) then item :: getlines s' EmptyString
      else getlines s' (item +:+ String c EmptyString)
  end.

Definition tol_functions : list string := getlines (tolNames o) "".

(** The start of a window for each name: after library calls, or in the function itself. *)
Fixpoint place_tols (names : list string) (name : string) (bs : list block) : option (list block) :=
  match names with
  | [] => Some bs
  | n :: names' =>
      bs ← (if decide (n = "lib_calls") then mapM (instrumentLibCallCkpts (ckpt_options o)) bs
            else if decide (name = n) then Some (instrumentTopOfTheLoop bs) else Some bs);
      place_tols names' name bs
  end.

Definition hook_of (i : val) : hook := if is_mem i then MemHook i else StoreHook i.

(** The hooks of stores, of which [il] is the set. *)
Definition instrument_all (il : list val) (bs : list block) : list block :=
  foldl (λ bs i, insert_before_in i (hook_of i) <$> bs) bs il.
Definition instrument_ranges (rs : list range) (bs : list block) : list block :=
  foldl (λ bs r, insert_before_in (rg_at r) (RangeHook (rg_ptr r) (rg_from r) (rg_size r)) <$> bs) bs rs.

Definition in_skipped_section (f : func) : bool :=
  in_ltckpt_section f ||
  (negb (bool_decide (ltckptInstrumentSectionName o = "")) && negb (in_section f (ltckptInstrumentSectionName o))) ||
  skipped_name (f_name f).

Definition onFunction (confSetupInitHook : string) (f : func) : option (bool * func) :=
  let bs := f_blocks f in
  let bs := if decide (f_name f = confSetupInitHook) then instrumentConfSetup bs else bs in
  if in_skipped_section f then Some (false, set_f_blocks bs f) else
  bs ← (if ltckptOptNoTOLs o then Some bs else place_tols tol_functions (f_name f) bs);
  if ltckptOptNoStoreHooks o then Some (true, set_f_blocks bs f) else
  if decide (f_name f ∈ skipStoreHooksOnFunctions o) then Some (true, set_f_blocks bs f) else
  il ← select_blocks bs [];
  il ← (if f_declaration f then Some il else eliminateDoubleStores il);
  '(il, rs) ← (if ltckptOptAggrStrStr o && negb (f_declaration f) then aggregateStores il
               else Some (il, []));
  Some (true, set_f_blocks (instrument_all il (instrument_ranges rs bs)) f).

(** ** Phi nodes *)

Definition is_phi_node (v : val) : bool := match vkind_of v with KPhi _ => true | _ => false end.

(** A value a phi node may stand for. *)
Definition phi_edge (p v : val) : Prop :=
  ∃ l x, vkind_of p = KPhi l ∧ x ∈ l ∧ v = stripInBoundsOffsets x.

Lemma phi_edge_phi p v : phi_edge p v → is_phi_node p = true.
Proof. intros (l & x & E & _). unfold is_phi_node. by rewrite E. Qed.

(** The value is among those visited or found. *)
Definition seen (acc : list val * list val) (v : val) : Prop :=
  if is_phi_node v then v ∈ acc.1 else v ∈ acc.2.

(** What a call for [p] (or for several nodes) does: it keeps what there was, the values in [R] are
    seen, the nodes it adds have all their values seen, and what it adds can be reached. *)
Record visits (R : val → Prop) (acc acc' : list val * list val) : Prop := {
  visits_nodes : acc.1 ⊆ acc'.1;
  visits_values : acc.2 ⊆ acc'.2;
  visits_seen v : R v → seen acc' v;
  visits_closed q v : q ∈ acc'.1 → q ∉ acc.1 → phi_edge q v → seen acc' v;
  visits_sound1 q : q ∈ acc'.1 → q ∈ acc.1 ∨ ∃ r, R r ∧ rtc phi_edge r q;
  visits_sound2 v : v ∈ acc'.2 → v ∈ acc.2 ∨ ∃ r, R r ∧ rtc phi_edge r v ∧ is_phi_node v = false;
}.

Lemma seen_mono acc acc' v : acc.1 ⊆ acc'.1 → acc.2 ⊆ acc'.2 → seen acc v → seen acc' v.
Proof. unfold seen. destruct (is_phi_node v); set_solver. Qed.

Lemma visits_nil acc : visits (λ _, False) acc acc.
Proof. by split; try naive_solver. Qed.

Lemma visits_app R1 R2 acc1 acc2 acc3 : visits R1 acc1 acc2 → visits R2 acc2 acc3 →
  visits (λ v, R1 v ∨ R2 v) acc1 acc3.
Proof.
  intros [N1 V1 S1 C1 A1 B1] [N2 V2 S2 C2 A2 B2]. split.
  - set_solver.
  - set_solver.
  - intros v [Hv|Hv]; [|by auto]. eapply seen_mono; [done..|by auto].
  - intros q v Hq Hn He. destruct (decide (q ∈ acc2.1)) as [Hq2|Hq2]; [|by eauto].
    eapply seen_mono; [done..|by eauto].
  - intros q Hq. destruct (A2 q Hq) as [Hq2|(r & Hr & Hp)]; [|by eauto].
    destruct (A1 q Hq2) as [|(r & Hr & Hp)]; eauto.
  - intros q Hq. destruct (B2 q Hq) as [Hq2|(r & Hr & Hp)]; [|by eauto].
    destruct (B1 q Hq2) as [|(r & Hr & Hp)]; eauto.
Qed.

Lemma visits_iff R R' acc acc' : (∀ v, R v ↔ R' v) → visits R acc acc' → visits R' acc acc'.
Proof.
  intros HR [N V S C A B]. split; [done|done| |done| |].
  - intros v Hv. apply S. by apply HR.
  - intros q Hq. destruct (A q Hq) as [|(r & Hr & ?)]; [by left|]. right. exists r. by rewrite <- HR.
  - intros q Hq. destruct (B q Hq) as [|(r & Hr & ?)]; [by left|]. right. exists r. by rewrite <- HR.
Qed.

(** A value that is no phi node is found. *)
Lemma visits_value v acc : is_phi_node v = false → visits (λ w, w = v) acc (acc.1, touch acc.2 v).
Proof.
  intros Hv. assert (∀ w, w ∈ touch acc.2 v ↔ w ∈ acc.2 ∨ w = v) as Ht by apply elem_of_touch.
  split; cbn; [done| | |naive_solver..|].
  - intros w Hw. apply Ht. by left.
  - intros w ->. unfold seen. rewrite Hv. cbn. apply Ht. by right.
  - intros w [Hw| ->]%Ht; [by left|]. right. exists v. split_and!; [done|apply rtc_refl|done].
Qed.

(** The incoming values of a node, when the calls for the nodes among them are as they should. *)
Lemma incoming_visits n rec (U : list val) l acc :
  (∀ v acc, v ∈ U → acc.1 ⊆ U → is_phi_node v = true → length (filter (λ q, q ∉ acc.1) U) < n →
     ∃ acc', rec v acc = Some acc' ∧ visits (λ w, w = v) acc acc' ∧ acc'.1 ⊆ U)%nat →
  (∀ x, x ∈ l → is_phi_node (stripInBoundsOffsets x) = true → stripInBoundsOffsets x ∈ U) →
  acc.1 ⊆ U → (length (filter (λ q, q ∉ acc.1) U) < n)%nat →
  ∃ acc', incoming_loop rec l acc = Some acc'
  ∧ visits (λ v, ∃ x, x ∈ l ∧ v = stripInBoundsOffsets x) acc acc' ∧ acc'.1 ⊆ U.
Proof.
  intros Hrec. revert acc. induction l as [|x l IH]; intros acc Hl HU Hf; cbn [incoming_loop].
  { exists acc. split_and!; [done| |done]. eapply visits_iff; [|apply visits_nil]. set_solver. }
  set (v := stripInBoundsOffsets x).
  assert (∃ acc1, (if is_phi_node v then rec v acc else Some (acc.1, touch acc.2 v)) = Some acc1
    ∧ visits (λ w, w = v) acc acc1 ∧ acc1.1 ⊆ U) as (acc1 & E1 & Hv & HU1).
  { destruct (is_phi_node v) eqn:Ep.
    - apply Hrec; [apply Hl; [set_solver|done]|done..].
    - eexists. split_and!; [done|by apply visits_value|done]. }
  destruct (IH acc1) as (acc2 & E2 & Hv2 & HU2).
  { set_solver. } { done. }
  { assert (length (filter (λ q, q ∉ acc1.1) U) <= length (filter (λ q, q ∉ acc.1) U))%nat; [|lia].
    apply filter_length_mono. destruct Hv. set_solver. }
  exists acc2. split_and!; [|eapply visits_iff; [|exact (visits_app _ _ _ _ _ Hv Hv2)]; set_solver|done].
  unfold is_phi_node in E1. destruct (vkind_of v); simplify_eq; try done. by rewrite E1.
Qed.

(** The nodes [U] are all there are to visit. *)
Definition phi_closed (U : list val) : Prop :=
  ∀ p v, p ∈ U → phi_edge p v → is_phi_node v = true → v ∈ U.

Lemma getValues_visits n U p acc : phi_closed U → p ∈ U → acc.1 ⊆ U → is_phi_node p = true →
  (length (filter (λ q, q ∉ acc.1) U) < n)%nat →
  ∃ acc', getValuesForPhiNode n p acc = Some acc' ∧ visits (λ w, w = p) acc acc' ∧ acc'.1 ⊆ U.
Proof.
  intros HU. revert p acc. induction n as [|n IH]; intros p acc Hp Ha Hphi Hn; [lia|].
  cbn [getValuesForPhiNode]. destruct (decide (p ∈ acc.1)) as [Hin|Hin].
  { exists acc. split_and!; [done| |done]. split; [done|done| |naive_solver..].
    intros v ->. unfold seen. by rewrite Hphi. }
  destruct (vkind_of p) as [| | |l| | |] eqn:Ek; try (unfold is_phi_node in Hphi; by rewrite Ek in Hphi).
  assert (∀ w, w ∈ touch acc.1 p ↔ w ∈ acc.1 ∨ w = p) as Ht by apply elem_of_touch.
  destruct (incoming_visits n (getValuesForPhiNode n) U l (touch acc.1 p, acc.2)) as (acc' & E & Hv & HU').
  - intros v a Hv Ha' Hvp Hn'. by apply IH.
  - intros x Hx Hxp. apply (HU p); [done| |done]. by exists l, x.
  - cbn. intros w [Hw| ->]%Ht; [by apply Ha|done].
  - cbn. assert (length (filter (λ q, q ∉ touch acc.1 p) U) < length (filter (λ q, q ∉ acc.1) U))%nat; [|lia].
    apply (filter_length_lt _ _ _ p); [|done|done|]; intros; rewrite Ht in *; naive_solver.
  - exists acc'. split_and!; [done| |done]. destruct Hv as [N V S C A B]. cbn in *.
    assert (p ∈ acc'.1) as Hp' by (apply N, Ht; by right).
    assert (∀ v, phi_edge p v → seen acc' v) as Hedge.
    { intros v (l' & x & El & Hx & ->). rewrite Ek in El. injection El as <-. apply S. by exists x. }
    assert (∀ r v, (∃ x, x ∈ l ∧ r = stripInBoundsOffsets x) → rtc phi_edge r v → rtc phi_edge p v) as Hstep.
    { intros r v (x & Hx & ->) Hr. eapply rtc_l; [|exact Hr]. by exists l, x. }
    split.
    + intros w Hw. apply N, Ht. by left.
    + done.
    + intros v ->. unfold seen. by rewrite Hphi.
    + intros q v Hq Hqn Hqv. destruct (decide (q = p)) as [->|Hne]; [by auto|].
      apply (C q); [done| |done]. rewrite Ht. naive_solver.
    + intros q Hq. destruct (A q Hq) as [[Hw| ->]%Ht|(r & Hr & Hrq)]; [by left| |right; eauto].
      right. exists p. split; [done|apply rtc_refl].
    + intros q Hq. destruct (B q Hq) as [|(r & Hr & Hrq & Hnp)]; [by left|right; eauto].
Qed.

(** The walk over the phi nodes ends, and the values it finds are those the node can stand for. *)
Theorem phi_values_spec U p : phi_closed U → p ∈ U → is_phi_node p = true → (length U < fuel)%nat →
  ∃ nodes values, getValuesForPhiNode fuel p ([], []) = Some (nodes, values)
  ∧ ∀ v, v ∈ values ↔ rtc phi_edge p v ∧ is_phi_node v = false.
Proof.
  intros HU Hp Hphi Hf.
  destruct (getValues_visits fuel U p ([], [])) as ([nodes values] & E & [N V S C A B] & _);
    [done|done|set_solver|done| |].
  { eapply Nat.le_lt_trans; [apply length_filter|done]. }
  cbn in *. exists nodes, values. split; [done|]. intros v. split.
  - intros Hv. destruct (B v Hv) as [|(r & -> & Hr & Hn)]; [set_solver|done].
  - intros [Hr Hn]. assert (seen (nodes, values) v) as Hs; [|by unfold seen in Hs; rewrite Hn in Hs].
    assert (seen (nodes, values) p) as Hs by (by apply S). clear Hn Hp Hphi E S A B. revert Hs.
    induction Hr as [|q q' w He Hr IH]; [done|]. intros Hs. apply IH.
    unfold seen in Hs. rewrite (phi_edge_phi _ _ He) in Hs. eapply (C q); [done|set_solver|done].
Qed.

(** ** Stores that are left out *)

(** A measure of values: address computations are not circular. *)
Definition address_measure (depth : val → nat) : Prop :=
  (∀ v, depth (stripInBoundsOffsets v) <= depth v)%nat ∧
  (∀ v p, vkind_of v = KGep p → depth p < depth v)%nat.

Lemma strip_loop_total depth n v : address_measure depth → (depth v < n)%nat →
  ∃ w, strip_loop n v = Some w.
Proof.
  intros [Hs Hg]. revert v. induction n as [|n IH]; intros v Hn; [lia|]. cbn.
  destruct (vkind_of (stripInBoundsOffsets v)) as [p| | | | | |] eqn:Ek; eauto.
  apply IH. pose proof (Hs v). pose proof (Hg _ _ Ek). lia.
Qed.

(** The base of an address is on the stack: it is a local variable, or a phi node that stands for
    nothing else. *)
Definition on_stack (v : val) : Prop :=
  is_alloca v = true ∨
  (is_phi_node v = true ∧ ∀ w, rtc phi_edge v w → is_phi_node w = false → is_alloca w = true).

(** Without the data-structure analysis, the choice ends, and a store is left out exactly when
    local variables are to be skipped and the base of its address is on the stack. *)
Theorem store_skipped_iff depth U i : address_measure depth →
  has_dsa o = false → is_store i = true → (depth (pointer_operand i) < fuel)%nat →
  (∀ v, is_phi_node v = true → v ∈ U) → (length U < fuel)%nat →
  ∃ v b, strip_loop fuel (pointer_operand i) = Some v ∧ storeToBeInstrumented i = Some b
  ∧ (b = false ↔ ltckptOptSkipAllocas o = true ∧ on_stack v).
Proof.
  intros Hm Hdsa Hst Hd HinU Hf. assert (phi_closed U) as HU by (intros ? ? _ _; apply HinU).
  destruct (strip_loop_total depth fuel (pointer_operand i) Hm Hd) as [v Ev].
  unfold storeToBeInstrumented. rewrite Hst, Ev, Hdsa. cbn [negb mbind option_bind andb].
  destruct (is_phi_node v) eqn:Ep.
  - destruct (phi_values_spec U v) as (nodes & values & E & Hv); [by auto..|].
    assert (∃ l, vkind_of v = KPhi l) as [l El].
    { unfold is_phi_node in Ep. destruct (vkind_of v); eauto; done. }
    assert (is_alloca v = false) as Ea by (unfold is_alloca; by rewrite El).
    rewrite El, E, Ea. cbn [mbind option_bind snd]. rewrite andb_false_r.
    exists v, (negb (forallb is_alloca values && ltckptOptSkipAllocas o)).
    split_and!; [done|by destruct (_ && _)|].
    rewrite negb_false_iff, andb_true_iff, forallb_forall. unfold on_stack. rewrite Ea, Ep.
    setoid_rewrite <- list_elem_of_In. setoid_rewrite Hv. naive_solver.
  - exists v, (negb (ltckptOptSkipAllocas o && is_alloca v)). split_and!; [done| |].
    + unfold is_phi_node in Ep. destruct (vkind_of v) eqn:Ek; try done; cbn; by destruct (_ && _).
    + rewrite negb_false_iff, andb_true_iff. unfold on_stack. rewrite Ep. naive_solver.
Qed.

(** ** Hooks before the chosen stores *)

(** The instructions of the program are not changed by the starts of windows. *)
Lemma place_tols_ok names name bs :
  ∃ bs', place_tols names name bs = Some bs' ∧ program_of <$> bs' = program_of <$> bs.
Proof.
  revert bs. induction names as [|n names IH]; intros bs; cbn [place_tols]; [by eauto|].
  assert (∃ b1, (if decide (n = "lib_calls") then mapM (instrumentLibCallCkpts (ckpt_options o)) bs
            else if decide (name = n) then Some (instrumentTopOfTheLoop bs) else Some bs) = Some b1
    ∧ program_of <$> b1 = program_of <$> bs) as (b1 & E1 & Hp).
  { case_decide; [|case_decide; [|by eauto]].
    - exists ((λ b, b ≫= expand_call (ckpt_options o)) <$> bs). split.
      + apply mapM_Some, Forall2_fmap_r, Forall_Forall2_diag, Forall_true. intros b. apply ckpt_block_expands.
      + rewrite <- list_fmap_compose. apply list_fmap_ext. intros _ b _. apply expand_keeps_program.
    - eexists. split; [done|]. induction bs as [|[|x b] bs IHb]; cbn; [done| |done]. by rewrite IHb. }
  rewrite E1. cbn. destruct (IH b1) as (b2 & E2 & H2). exists b2. split; [done|]. congruence.
Qed.

Section Chosen.
Variable chosen : val → bool.
Hypothesis chosen_spec : ∀ i, referencing (Orig i) = Some (chosen i).

Definition chosen_instr (x : instr) : bool := match x with Orig i => chosen i | Hook _ => false end.

(** One pass over a block: a hook before every chosen instruction, except in a hardware
    transaction. *)
Fixpoint hooked_block (on : bool) (b : block) : block :=
  match b with
  | [] => []
  | x :: b' =>
      let on := instrumentStores_after x on in
      match x with
      | Orig i => if on && chosen i then [Hook (hook_of i)] else []
      | Hook _ => []
      end ++ x :: hooked_block on b'
  end.

(** The instructions chosen in a block. *)
Fixpoint chosen_in (on : bool) (b : block) : list val :=
  match b with
  | [] => []
  | x :: b' =>
      let on := instrumentStores_after x on in
      match x with Orig i => if on && chosen i then [i] else [] | Hook _ => [] end ++ chosen_in on b'
  end.

Lemma select_block_chosen on b il :
  select_block on b il = Some (foldl touch il (chosen_in on b)).
Proof.
  revert on il. induction b as [|x b IH]; intros on il; cbn [select_block chosen_in]; [done|].
  set (on' := instrumentStores_after x on). destruct on'; cbn [mbind option_bind andb].
  - destruct x as [i|h]; [|cbn; by rewrite IH]. rewrite chosen_spec. cbn [mbind option_bind].
    rewrite IH. by destruct (chosen i).
  - destruct x; by rewrite IH.
Qed.

Lemma select_blocks_chosen bs il :
  select_blocks bs il = Some (foldl touch il (bs ≫= chosen_in true)).
Proof.
  revert il. induction bs as [|b bs IH]; intros il; cbn [select_blocks]; [done|].
  rewrite select_block_chosen. cbn [mbind option_bind]. by rewrite IH, bind_cons, foldl_app.
Qed.

Lemma chosen_in_program on b i : i ∈ chosen_in on b → i ∈ program_of b.
Proof.
  revert on. induction b as [|[j|h] b IH]; intros on; cbn; [set_solver| |by apply IH].
  rewrite elem_of_app. intros [Hi|Hi]; [|right; by eapply IH].
  destruct (_ && _); [|set_solver]. apply list_elem_of_singleton in Hi as ->. left.
Qed.

(** A hook before each instruction of a set. *)
Definition hook_set (l : list val) (x : instr) : block :=
  match x with
  | Orig i => if decide (i ∈ l) then [Hook (hook_of i); x] else [x]
  | Hook _ => [x]
  end.

Lemma insert_hook_set l b : NoDup l →
  foldl (λ b i, insert_before_in i (hook_of i) b) b l = b ≫= hook_set l.
Proof.
  intros Hn. revert b. induction Hn as [|i l Hi Hn IH]; intros b; cbn [foldl].
  { rewrite <- (block_bind_ret b) at 1. apply block_bind_ext. intros [j|h]; [|done]. cbn.
    by rewrite decide_False by set_solver. }
  rewrite IH. unfold insert_before_in. rewrite block_bind_bind. apply block_bind_ext.
  intros [j|h]; cbn; [|done]. destruct (decide (Orig j = Orig i)) as [[= ->]|Hne]; cbn.
  - by rewrite decide_False, decide_True by set_solver.
  - rewrite app_nil_r. by rewrite (decide_ext (j ∈ i :: l) (j ∈ l)) by set_solver.
Qed.

Lemma instrument_all_hook_set l bs : NoDup l →
  instrument_all l bs = (λ b, b ≫= hook_set l) <$> bs.
Proof.
  intros Hn. transitivity ((λ b, foldl (λ b i, insert_before_in i (hook_of i) b) b l) <$> bs).
  - unfold instrument_all. clear Hn. revert bs. induction l as [|i l IH]; intros bs; cbn [foldl].
    + by rewrite list_fmap_id.
    + by rewrite IH, <- list_fmap_compose.
  - apply list_fmap_ext. intros _ b _. by apply insert_hook_set.
Qed.

(** In a block whose instructions occur once, the set and the pass agree. *)
Lemma hook_set_hooked on b l : NoDup (program_of b) →
  (∀ i, i ∈ program_of b → i ∈ l ↔ i ∈ chosen_in on b) → b ≫= hook_set l = hooked_block on b.
Proof.
  revert on. induction b as [|[i|h] b IH]; intros on Hn Hl; [done| |].
  - cbn in Hn. apply NoDup_cons in Hn as [Hi Hn]. rewrite bind_cons. cbn [hooked_block].
    set (on' := instrumentStores_after (Orig i) on). rewrite (IH on' Hn).
    + cbn. assert (i ∈ l ↔ on' && chosen i = true) as Hil.
      { rewrite Hl by (cbn; left). cbn. fold on'. rewrite elem_of_app.
        destruct (on' && chosen i); split; try done; [set_solver|intros [?|?%chosen_in_program]; set_solver]. }
      destruct (decide (i ∈ l)) as [Hd|Hd]; rewrite Hil in Hd; [by rewrite Hd|].
      by destruct (on' && chosen i).
    + intros j Hj. rewrite Hl by (cbn; by right). cbn. fold on'. rewrite elem_of_app.
      destruct (on' && chosen i); set_solver.
  - rewrite bind_cons. cbn. f_equal. by apply IH.
Qed.

Lemma blocks_hooked bs : NoDup (concat (program_of <$> bs)) →
  instrument_all (foldl touch [] (bs ≫= chosen_in true)) bs = hooked_block true <$> bs.
Proof.
  intros Hn. rewrite instrument_all_hook_set by (apply touches_NoDup, NoDup_nil_2).
  apply list_fmap_ext. intros k b Hb. apply hook_set_hooked.
  { apply list_lookup_fmap_Some_2 with (f := program_of) in Hb as Hp. clear Hb.
    revert k Hp Hn. generalize (program_of <$> bs). intros ps. induction ps as [|q ps IH]; intros [|k] Hk Hn; cbn in *;
      simplify_eq; apply NoDup_app in Hn as (Hq & _ & Hps); [done|by eapply IH]. }
  intros i Hi. rewrite elem_of_touches, elem_of_nil, list_elem_of_bind. split.
  - intros [[]|(b' & Hi' & [k' Hb']%list_elem_of_lookup_1)].
    assert (k = k') as Ek by (by eapply (concat_fmap_position program_of); eauto using chosen_in_program).
    subst k'. pose proof (eq_trans (eq_sym Hb) Hb') as [= <-]. exact Hi'.
  - intros Hc. right. exists b. split; [done|]. by eapply list_elem_of_lookup_2.
Qed.

Lemma conf_setup_program bs : program_of <$> instrumentConfSetup bs = program_of <$> bs.
Proof. by destruct bs. Qed.

(** In a function that is not left out, the starts of windows are placed, and every store the pass
    chooses and that is not in a hardware transaction has its hook directly before it; nothing
    else is changed. *)
Theorem stores_hooked conf f :
  has_dsa o = false → ltckptOptAggrStrStr o = false → ltckptOptNoTOLs o = false →
  in_skipped_section f = false → ltckptOptNoStoreHooks o = false →
  f_name f ∉ skipStoreHooksOnFunctions o → NoDup (concat (program_of <$> f_blocks f)) →
  ∃ bs, onFunction conf f = Some (true, set_f_blocks (hooked_block true <$> bs) f)
  ∧ place_tols tol_functions (f_name f)
      (if decide (f_name f = conf) then instrumentConfSetup (f_blocks f) else f_blocks f) = Some bs
  ∧ program_of <$> bs = program_of <$> f_blocks f.
Proof.
  intros Hdsa Hag Ht Hsec Hns Hsk Hn. unfold onFunction. rewrite Hsec, Ht, Hns.
  set (bs0 := if decide (f_name f = conf) then _ else _).
  assert (program_of <$> bs0 = program_of <$> f_blocks f) as E0.
  { unfold bs0. case_decide; [apply conf_setup_program|done]. }
  destruct (place_tols_ok tol_functions (f_name f) bs0) as (bs & E & Hp). rewrite E0 in Hp.
  exists bs. split_and!; [|done|done]. rewrite E. cbn [mbind option_bind]. rewrite decide_False by done.
  rewrite select_blocks_chosen. cbn [mbind option_bind].
  assert (eliminateDoubleStores = Some) as -> by (unfold eliminateDoubleStores; by rewrite Hdsa).
  replace (if f_declaration f then _ else _) with (Some (foldl touch [] (bs ≫= chosen_in true)))
    by (by destruct (f_declaration f)).
  cbn [mbind option_bind]. rewrite Hag. cbn. do 3 f_equal. apply blocks_hooked. by rewrite Hp.
Qed.

(** The last start of a window in a block, of those that have a type. *)
Definition last_boundary (b : block) : option Z :=
  last (filter (λ t, t ≠ TX_TYPE_INVALID) (boundary_type <$> b)).

Definition state_after (on : bool) (b : block) : bool := foldl (λ on x, instrumentStores_after x on) on b.

Lemma state_after_last b : state_after true b = match last_boundary b with
  | Some t => negb (t =? TX_TYPE_TSX) | None => true end.
Proof.
  unfold state_after, last_boundary. induction b as [|x b IH] using rev_ind; [done|].
  rewrite foldl_app, fmap_app, filter_app. cbn [foldl fmap list_fmap]. rewrite IH, filter_cons, filter_nil.
  unfold instrumentStores_after at 1. destruct (Z.eqb_spec (boundary_type x) TX_TYPE_INVALID) as [E|E].
  - rewrite decide_False by naive_solver. by rewrite app_nil_r.
  - rewrite decide_True by done. by rewrite last_snoc.
Qed.

Lemma hooked_app on b1 b2 : hooked_block on (b1 ++ b2) = hooked_block on b1 ++ hooked_block (state_after on b1) b2.
Proof.
  revert on. induction b1 as [|x b1 IH]; intros on; cbn; [done|]. rewrite IH. by rewrite <- app_assoc.
Qed.

(** What is before an instruction of the program: the hook, unless the last window that starts
    before it in the block is a hardware transaction. *)
Theorem hooked_position b1 i b2 : boundary_type (Orig i) = TX_TYPE_INVALID →
  hooked_block true (b1 ++ Orig i :: b2) =
  hooked_block true b1 ++
  (if chosen i && bool_decide (last_boundary b1 ≠ Some TX_TYPE_TSX) then [Hook (hook_of i)] else []) ++
  Orig i :: hooked_block (state_after true b1) b2.
Proof.
  intros Hb. rewrite hooked_app. cbn [hooked_block].
  assert (instrumentStores_after (Orig i) (state_after true b1) = state_after true b1) as ->.
  { unfold instrumentStores_after. by rewrite Hb. }
  f_equal. f_equal. rewrite andb_comm. rewrite state_after_last.
  destruct (last_boundary b1) as [t|]; [|by rewrite bool_decide_true].
  destruct (Z.eqb_spec t TX_TYPE_TSX) as [->|Hne]; cbn [negb].
  - rewrite bool_decide_false by naive_solver. by destruct (chosen i).
  - by rewrite bool_decide_true by naive_solver.
Qed.

End Chosen.

(** ** Double stores *)

Definition cast_edge (v u : val) : Prop := u ∈ vusers v ∧ is_cast u = true.

(** [s] makes [u] redundant: it comes first on every path, and writes through a value the address
    of [u] is a cast of. *)
Definition covers (s u : val) : Prop :=
  dominates s u = true ∧ is_store u = true ∧
  ∃ w, rtc cast_edge (stripPointerCasts (pointer_operand s)) w
    ∧ stripPointerCasts w = stripPointerCasts (pointer_operand u).

Lemma recusercheck_sound n s v l : recusercheck n s v = Some l → ∀ u, u ∈ l →
  dominates s u = true ∧ is_store u = true ∧
  ∃ w, rtc cast_edge v w ∧ stripPointerCasts w = stripPointerCasts (pointer_operand u).
Proof.
  revert v l. induction n as [|n IH]; intros v l E u Hu; cbn [recusercheck] in E; [done|].
  assert (∀ us l, (∀ x, x ∈ us → x ∈ vusers v) →
    foldr (λ u r, r ← r;
        if is_store u then
          if dominates s u && bool_decide (stripPointerCasts v = stripPointerCasts (pointer_operand u))
          then Some (u :: r) else Some r
        else if is_cast u then (λ l, l ++ r) <$> recusercheck n s u else Some r) (Some []) us = Some l →
    u ∈ l → dominates s u = true ∧ is_store u = true ∧
    ∃ w, rtc cast_edge v w ∧ stripPointerCasts w = stripPointerCasts (pointer_operand u)) as Hus.
  { clear E Hu l. induction us as [|x us IHus]; intros l Hsub E Hu; cbn [foldr] in E; [set_solver|].
    apply bind_Some in E as (r & Er & E).
    assert (u ∈ r → dominates s u = true ∧ is_store u = true ∧
      ∃ w, rtc cast_edge v w ∧ stripPointerCasts w = stripPointerCasts (pointer_operand u)) as Hr.
    { intros Hur. eapply IHus; [|done..]. set_solver. }
    destruct (is_store x) eqn:Es.
    - destruct (dominates s x) eqn:Ed; cbn [andb] in E; [|by simplify_eq; auto].
      case_bool_decide as Ep; simplify_eq; [|by auto]. apply elem_of_cons in Hu as [->|Hu]; [|by auto].
      split_and!; [done..|]. exists v. split; [apply rtc_refl|done].
    - destruct (is_cast x) eqn:Ec; [|by simplify_eq; auto].
      apply fmap_Some in E as (l' & El & ->). apply elem_of_app in Hu as [Hu|Hu]; [|by auto].
      destruct (IH x l' El u Hu) as (? & ? & w & Hw & Es'). split_and!; [done..|].
      exists w. split; [|done]. eapply rtc_l; [|exact Hw]. split; [apply Hsub; left|done]. }
  by apply (Hus (vusers v) l).
Qed.

Lemma double_stores_sound il ds u : double_stores il = Some ds → u ∈ ds →
  ∃ s, s ∈ il ∧ is_store s = true ∧ covers s u.
Proof.
  revert ds. induction il as [|s il IH]; intros ds E Hu; cbn [double_stores] in E; [by simplify_eq; set_solver|].
  apply bind_Some in E as (ds' & E' & E).
  assert (u ∈ ds' → ∃ s', s' ∈ s :: il ∧ is_store s' = true ∧ covers s' u) as Hds.
  { intros Hu'. destruct (IH ds' E' Hu') as (s' & ? & ?). exists s'. set_solver. }
  destruct (is_store s) eqn:Es; [|by simplify_eq; auto].
  apply fmap_Some in E as (l & El & ->). apply elem_of_app in Hu as [Hu|Hu]; [|by auto].
  exists s. split_and!; [left|done|]. exact (recusercheck_sound fuel s _ l El u Hu).
Qed.

(** A measure of casts: they are not circular. *)
Lemma recusercheck_total (depth : val → nat) n s v :
  (∀ v u, cast_edge v u → depth u < depth v)%nat → (depth v < n)%nat → is_Some (recusercheck n s v).
Proof.
  intros Hd. revert v. induction n as [|n IH]; intros v Hn; [lia|]. cbn [recusercheck].
  assert (∀ u, u ∈ vusers v → is_cast u = true → is_Some (recusercheck n s u)) as Hu.
  { intros u Hu Hc. apply IH. pose proof (Hd v u). unfold cast_edge in *. naive_solver lia. }
  clear IH Hn. induction (vusers v) as [|x us IHus]; cbn [foldr]; [by eexists|].
  destruct IHus as [r ->]; [set_solver|]. cbn [mbind option_bind].
  destruct (is_store x); [by destruct (_ && _)|]. destruct (is_cast x) eqn:Ec; [|by eexists].
  destruct (Hu x) as [l ->]; [left|done|]. by eexists.
Qed.

(** C27: the elimination ends, and a store that was in the set is still there, or one that is comes
    before it on every path and has made it redundant, at once or through others. *)
Theorem kept_store_dominates (depth : val → nat) il :
  (∀ v u, cast_edge v u → depth u < depth v)%nat →
  (∀ s, s ∈ il → depth (stripPointerCasts (pointer_operand s)) < fuel)%nat →
  (∀ s, dominates s s = false) →
  (∀ s t u, dominates s t = true → dominates t u = true → dominates s u = true) →
  ∃ il', eliminateDoubleStores il = Some il' ∧ il' ⊆ il
  ∧ ∀ s, s ∈ il → ∃ t, t ∈ il' ∧ rtc covers t s ∧ (t = s ∨ dominates t s = true).
Proof.
  intros Hd Hf Hirr Htr. unfold eliminateDoubleStores. destruct (has_dsa o); cbn [negb].
  2: { exists il. split_and!; [done..|]. intros s Hs. exists s. split_and!; [done|apply rtc_refl|by left]. }
  assert (is_Some (double_stores il)) as [ds Eds].
  { clear -Hd Hf. induction il as [|s il IH]; cbn [double_stores]; [by eexists|].
    destruct IH as [ds ->]; [set_solver|]. cbn [mbind option_bind]. destruct (is_store s); [|by eexists].
    destruct (recusercheck_total depth fuel s (stripPointerCasts (pointer_operand s)) Hd) as [l ->];
      [apply Hf; left|by eexists]. }
  rewrite Eds. cbn [mbind option_bind]. eexists. split_and!; [done| |].
  { intros s [_ ?]%list_elem_of_filter. done. }
  intros s. remember (length (filter (λ t, dominates t s = true) il)) as n eqn:En. revert s En.
  induction (lt_wf n) as [n _ IH]. intros s En Hs. destruct (decide (s ∈ ds)) as [Hds|Hds].
  - destruct (double_stores_sound _ _ _ Eds Hds) as (t & Ht & Hst & Hc). pose proof Hc as (Hdom & _).
    destruct (IH (length (filter (λ u, dominates u t = true) il))) with (s := t) as (u & Hu & Hr & Hut); [|done|done|].
    + rewrite En. apply (filter_length_lt _ _ _ t); [|done|done|].
      * intros y Hy. by eapply Htr.
      * by rewrite Hirr.
    + exists u. split_and!; [done|by eapply rtc_r|]. right. destruct Hut as [->|Hut]; [done|by eapply Htr].
  - exists s. split_and!; [|apply rtc_refl|by left]. by apply list_elem_of_filter.
Qed.

(** ** Aggregated stores *)

Definition object (s : val) : option (val * Z) :=
  object_of fuel [pointer_operand s] (pointer_operand s) 0.

(** What a value is looked through to. *)
Definition look_edge (v w : val) : Prop :=
  match look_of v with LGep _ p => w = p | LCast x | LAlias x => w = x | _ => False end.

Lemma object_of_total (U : list val) n visited v off : (∀ v w, v ∈ U → look_edge v w → w ∈ U) → v ∈ U →
  (length (filter (λ x, x ∉ visited) U) < n)%nat → is_Some (object_of n visited v off).
Proof.
  intros HU. revert visited v off. induction n as [|n IH]; intros visited v off Hv Hn; [lia|].
  assert (∀ w off', w ∈ U → is_Some (if decide (w ∈ visited) then Some (w, off')
    else object_of n (w :: visited) w off')) as Hc.
  { intros w off' Hw. case_decide as Hd; [by eexists|]. apply IH; [done|].
    assert (length (filter (λ x, x ∉ w :: visited) U) < length (filter (λ x, x ∉ visited) U))%nat; [|lia].
    apply (filter_length_lt _ _ _ w); set_solver. }
  cbn [object_of]. pose proof (HU v) as Hl. unfold look_edge in Hl.
  destruct (look_of v); try (by eexists); apply Hc; by apply Hl.
Qed.

(** A chain has a first store, which comes before the others on every path. *)
Definition chain_ok (dc : chain) : Prop :=
  match dc with
  | [] => False
  | (leader, _) :: rest => Forall (λ e, dominates leader e.1 = true) rest
  end.

Hypothesis dominates_trans :
  ∀ s t u, dominates s t = true → dominates t u = true → dominates s u = true.

Lemma add_to_chains_ok dcl i off : Forall chain_ok dcl → Forall chain_ok (add_to_chains dcl i off).
Proof.
  induction 1 as [|dc dcl Hdc Hdcl IH]; cbn [add_to_chains].
  { constructor; [|constructor]. constructor. }
  destruct dc as [|[leader lo] rest]; [done|]. cbn in Hdc.
  destruct (dominates leader i) eqn:E1; [|destruct (dominates i leader) eqn:E2].
  - constructor; [|done]. cbn. apply Forall_app. split; [done|]. by constructor.
  - constructor; [|done]. cbn. constructor; [done|]. eapply Forall_impl; [exact Hdc|].
    intros e He. by eapply dominates_trans.
  - by constructor.
Qed.

Lemma add_to_chains_members dcl i off e : e ∈ concat (add_to_chains dcl i off) ↔ e = (i, off) ∨ e ∈ concat dcl.
Proof.
  induction dcl as [|dc dcl IH]; cbn [add_to_chains concat]; [set_solver|].
  destruct dc as [|[leader lo] rest]; [set_solver|].
  destruct (dominates leader i); [cbn; set_solver|]. destruct (dominates i leader); cbn; set_solver.
Qed.

(** The entries of the map are stores of the set with their objects. *)
Definition dmap_ok (il : list val) (m : dmap) : Prop :=
  Forall (λ e, Forall chain_ok e.2 ∧
    Forall (λ x, x.1 ∈ il ∧ object x.1 = Some (e.1, x.2)) (concat e.2)) m.

Definition dmap_has (m : dmap) (v s : val) (off : Z) : Prop :=
  ∃ dcl, (v, dcl) ∈ m ∧ (s, off) ∈ concat dcl.

Lemma addStore_ok il m v s off : s ∈ il → object s = Some (v, off) → dmap_ok il m →
  dmap_ok il (addStore m v s off) ∧ dmap_has (addStore m v s off) v s off
  ∧ ∀ v' s' off', dmap_has m v' s' off' → dmap_has (addStore m v s off) v' s' off'.
Proof.
  intros Hs Ho. unfold dmap_ok, dmap_has. induction 1 as [|[w dcl] m [Hc Hm] Hrest IH]; cbn [addStore].
  { split_and!; [|exists [[(s, off)]]; set_solver|set_solver].
    constructor; [|constructor]. cbn. split; [|by constructor]. constructor; [|constructor]. constructor. }
  destruct (decide (w = v)) as [->|Hne].
  - split_and!.
    + constructor; [|done]. cbn in *. split; [by apply add_to_chains_ok|]. apply Forall_forall.
      intros x [->|Hx]%add_to_chains_members; [done|]. by eapply Forall_forall in Hm.
    + eexists. split; [left|]. apply add_to_chains_members. by left.
    + intros v' s' off' (dcl' & [[= -> ->]|Hin]%elem_of_cons & Hx).
      * eexists. split; [left|]. apply add_to_chains_members. by right.
      * exists dcl'. split; [by right|done].
  - destruct IH as (H1 & (dcl1 & H2 & H2') & H3). split_and!.
    + by constructor.
    + exists dcl1. split; [by right|done].
    + intros v' s' off' (dcl' & [[= -> ->]|Hin]%elem_of_cons & Hx).
      * eexists. split; [left|done].
      * destruct (H3 v' s' off') as (dcl2 & ? & ?); [by eauto|]. exists dcl2. split; [by right|done].
Qed.

Lemma add_stores_ok il il0 m : il ⊆ il0 → (∀ s, s ∈ il → is_store s = true → is_Some (object s)) → dmap_ok il0 m →
  ∃ m', add_stores il m = Some m' ∧ dmap_ok il0 m'
  ∧ (∀ v s off, dmap_has m v s off → dmap_has m' v s off).
Proof.
  revert m. induction il as [|s il IH]; intros m Hsub Hob Hm; cbn [add_stores]; [by eauto|].
  destruct (is_store s) eqn:Es.
  - destruct (Hob s) as [[v off] E]; [left|done|]. unfold object in E. rewrite E. cbn [mbind option_bind].
    destruct (addStore_ok il0 m v s off) as (H1 & _ & H3); [set_solver|done|done|].
    destruct (IH (addStore m v s off)) as (m' & E' & Hm' & Hk); [set_solver|set_solver|done|].
    exists m'. split_and!; [done|done|]. eauto.
  - apply IH; [set_solver|set_solver|done].
Qed.

Lemma chain_bounds dc s off : (s, off) ∈ dc → chain_min dc <= off <= chain_max dc.
Proof.
  unfold chain_min, chain_max. generalize (default 0 (snd <$> head dc)) as z. intros z.
  induction dc as [|e dc IH]; [set_solver|]. intros [<-|Hin]%elem_of_cons; cbn [foldr]; [cbn; lia|].
  specialize (IH Hin). lia.
Qed.

Lemma chain_max_attained dc : dc ≠ [] → ∃ s, (s, chain_max dc) ∈ dc.
Proof.
  destruct dc as [|[s0 z0] dc]; [done|]. intros _.
  change (chain_max ((s0, z0) :: dc)) with (Z.max z0 (foldr (λ e z, Z.max e.2 z) z0 dc)).
  assert (∀ l : chain, foldr (λ e z, Z.max e.2 z) z0 l = z0 ∨ ∃ s, (s, foldr (λ e z, Z.max e.2 z) z0 l) ∈ l) as Hl.
  { induction l as [|[s z] l IH]; cbn [foldr snd]; [by left|].
    destruct (Z.max_spec z (foldr (λ e z, Z.max e.2 z) z0 l)) as [[_ ->]|[_ ->]].
    - destruct IH as [IH|[s' IH]]; [by left|]. right. exists s'. by right.
    - right. exists s. left. }
  destruct (Hl dc) as [E|[s E]].
  - rewrite E, Z.max_id. exists s0. left.
  - destruct (Z.max_spec z0 (foldr (λ e z, Z.max e.2 z) z0 dc)) as [[_ ->]|[_ ->]].
    + exists s. by right.
    + exists s0. left.
Qed.

(** What [dump] makes of a chain. *)
Lemma dump_chain_spec v dc s off : chain_ok dc → (s, off) ∈ dc → s ∈ (dump_chain v dc).1 →
  ∃ leader, (dump_chain v dc).2 = [mk_range leader v (chain_min dc) (chain_max dc)]
  ∧ (leader = s ∨ dominates leader s = true).
Proof.
  intros Hok Hin Hdel. destruct dc as [|[leader lo] [|e rest]]; cbn in Hdel; [set_solver..|].
  exists leader. split; [done|]. apply elem_of_cons in Hin as [[= <- <-]|Hin]; [by left|].
  right. exact (proj1 (Forall_forall _ _) Hok _ Hin).
Qed.

Lemma elem_of_dump (m : dmap) p :
  p ∈ (m ≫= λ e, dump_chain e.1 <$> e.2) ↔ ∃ v dcl dc, (v, dcl) ∈ m ∧ dc ∈ dcl ∧ p = dump_chain v dc.
Proof.
  rewrite list_elem_of_bind. setoid_rewrite list_elem_of_fmap. split.
  - intros ([v dcl] & (dc & -> & Hdc) & Hin). by exists v, dcl, dc.
  - intros (v & dcl & dc & Hin & Hdc & ->). exists (v, dcl). split; [by exists dc|done].
Qed.

Lemma dmap_chain il m v dcl dc : dmap_ok il m → (v, dcl) ∈ m → dc ∈ dcl →
  chain_ok dc ∧ ∀ s off, (s, off) ∈ dc → s ∈ il ∧ object s = Some (v, off).
Proof.
  intros Hm Hin Hdc. destruct (proj1 (Forall_forall _ _) Hm _ Hin) as [Hok Hmem]. cbn in *. split.
  - by eapply Forall_forall in Hok.
  - intros s off Hs. apply (proj1 (Forall_forall _ _) Hmem (s, off)).
    clear -Hdc Hs. induction dcl; cbn; set_solver.
Qed.

(** The aggregation ends.  A store that was in the set is still there, or the hook for a range of
    its object is before it on every path, with its offset between the two arguments. *)
Theorem aggregated_dominated il : (∀ s, s ∈ il → is_store s = true → is_Some (object s)) →
  ∃ il' rs, aggregateStores il = Some (il', rs) ∧ il' ⊆ il ∧
  (∀ s, s ∈ il → s ∈ il' ∨ ∃ r off, r ∈ rs ∧ object s = Some (rg_ptr r, off)
    ∧ rg_from r <= off <= rg_size r ∧ (rg_at r = s ∨ dominates (rg_at r) s = true)) ∧
  (∀ r, r ∈ rs → rg_from r <= 0 → ∃ s, s ∈ il ∧ s ∉ il'
    ∧ ∃ off, object s = Some (rg_ptr r, off) ∧ rg_from r + rg_size r <= off).
Proof.
  intros Hob. destruct (add_stores_ok il il []) as (m & E & Hm & _); [done|done|constructor|].
  unfold aggregateStores. rewrite E. cbn [mbind option_bind]. unfold dump_map.
  set (all := m ≫= λ e, dump_chain e.1 <$> e.2). do 2 eexists. split; [done|]. split_and!.
  - by intros s [_ ?]%list_elem_of_filter.
  - intros s Hs. destruct (decide (s ∈ concat (fst <$> all))) as [Hd|Hd].
    2: { left. by apply list_elem_of_filter. }
    right. apply elem_of_concat_fmap in Hd as (p & (v & dcl & dc & Hin & Hdc & ->)%elem_of_dump & Hsp).
    destruct (dmap_chain il m v dcl dc Hm Hin Hdc) as [Hok Hmem].
    assert (∃ off, (s, off) ∈ dc) as [off Hoff].
    { destruct dc as [|[l lo] [|e rest]]; [set_solver..|]. unfold dump_chain in Hsp. cbn [fst] in Hsp.
      apply list_elem_of_fmap in Hsp as ([s' off] & -> & Hin'). by exists off. }
    destruct (dump_chain_spec v dc s off Hok Hoff Hsp) as (leader & Er & Hl).
    exists (mk_range leader v (chain_min dc) (chain_max dc)), off. cbn. split_and!.
    + apply elem_of_concat_fmap. exists (dump_chain v dc). split; [|rewrite Er; left].
      apply elem_of_dump. by exists v, dcl, dc.
    + by apply Hmem.
    + by eapply chain_bounds.
    + by eapply chain_bounds.
    + done.
  - intros r Hr Hneg.
    apply elem_of_concat_fmap in Hr as (p & Hp & Hrp). pose proof Hp as (v & dcl & dc & Hin & Hdc & ->)%elem_of_dump.
    destruct (dmap_chain il m v dcl dc Hm Hin Hdc) as [Hok Hmem].
    destruct dc as [|[l lo] [|e rest]] eqn:Edc; [set_solver..|]. rewrite <- Edc in *.
    assert (r = mk_range l v (chain_min dc) (chain_max dc) ∧ (dump_chain v dc).1 = fst <$> dc) as [-> Edel].
    { rewrite Edc in *. cbn in Hrp. apply list_elem_of_singleton in Hrp. by split. }
    destruct (chain_max_attained dc) as [s Hs]; [by rewrite Edc|]. destruct (Hmem s _ Hs) as [Hil Hobj].
    exists s. cbn in *. split_and!; [done| |exists (chain_max dc); split; [done|lia]].
    intros [Hn _]%list_elem_of_filter. apply Hn, elem_of_concat_fmap. exists (dump_chain v dc).
    split; [done|]. rewrite Edel. apply list_elem_of_fmap. by exists (s, chain_max dc).
Qed.

End StorePass.

(** ** A function *)

Module StoreSample.

(** A store to a global variable (1), a call of [read] (2) whose result is used, a store to a local
    variable (3) and one through a phi node (4) that is one of two local variables, another store
    to the global (5), and a store to the first field of the object at 200 (6) and to the one at
    offset 8 (7), of which the former comes first. *)
Definition kind (v : Z) : vkind Z :=
  if decide (v = 100) then KGlobal else if decide (v ∈ [101; 103]) then KAlloca
  else if decide (v = 102) then KPhi [101; 103; 102] else KOther.

#[global] Instance sample_pass : PassIR := {|
  val := Z;
  is_call v := bool_decide (v = 2);
  is_phi _ := false;
  callee v := if decide (v = 2) then Some (mk_fdecl "read" false true) else None;
  returns_void _ := false;
  num_users _ := 1%nat;
  tx_type _ := TX_TYPE_INVALID;
  ltckpt_tx_type _ := TX_TYPE_INVALID;
  txwindow_size _ := None;
  txwindow_end _ := None;
|}.

#[global] Instance sample_store : StoreIR := {|
  vkind_of := kind;
  look_of v := if decide (v = 208) then LGep 8 200 else LNone;
  stripInBoundsOffsets v := v;
  stripPointerCasts v := v;
  is_store v := bool_decide (v ∈ [1; 3; 4; 5; 6; 7]);
  is_mem _ := false;
  pointer_operand v :=
    if decide (v ∈ [1; 5]) then 100 else if decide (v = 3) then 101 else if decide (v = 4) then 102
    else if decide (v = 6) then 200 else 208;
  mem_dest v := v;
  vusers v := if decide (v = 100) then [1; 5] else [];
  is_cast _ := false;
  dominates s t := bool_decide (s < t);
  ds_node _ := None;
|}.

Definition opts (dsa : bool) : store_opts :=
  mk_store_opts "lib_calls" true false "" false false [] dsa (mk_ckpt_opts true false).

Definition sample_func : func := mk_func "serve" "" false false [[Orig 1; Orig 2; Orig 3; Orig 4]; [Orig 5]].

Definition sample_chosen (v : val) : bool := bool_decide ((v : Z) ∈ [1; 5; 6; 7]).

Lemma sample_referencing v : referencing (opts false) 10 (Orig v) = Some (sample_chosen v).
Proof.
  unfold sample_chosen. unfold referencing.
  destruct (is_store v) eqn:E; cbn in E.
  - apply bool_decide_eq_true in E.
    repeat (apply elem_of_cons in E as [->|E]; [vm_compute; reflexivity|]). set_solver.
  - apply bool_decide_eq_false in E. cbn. rewrite bool_decide_false; [done|]. set_solver.
Qed.

Lemma stores_hooked_sample :
  onFunction (opts false) 10 "ltckpt_conf_setup" sample_func =
  Some (true, set_f_blocks
    [[Hook (StoreHook (1 : val)); Orig (1 : val); Hook EndOfWindow; Orig (2 : val);
      Hook (TopOfLoop TX_TYPE_LTCKPT); Hook RetAddr; Hook SaveRegs; Orig (3 : val); Orig (4 : val)];
     [Hook (StoreHook (5 : val)); Orig (5 : val)]] sample_func).
Proof.
  destruct (stores_hooked (opts false) 10 sample_chosen sample_referencing "ltckpt_conf_setup" sample_func)
    as (bs & -> & Ebs & _).
  - reflexivity.
  - reflexivity.
  - reflexivity.
  - vm_compute. reflexivity.
  - reflexivity.
  - set_solver.
  - apply (bool_decide_unpack _). vm_compute. done.
  - vm_compute in Ebs. injection Ebs as <-. vm_compute. reflexivity.
Defined.

Definition sample_il : list (@val sample_pass) := [1; 5].

Lemma kept_store_dominates_witness :
  eliminateDoubleStores (opts true) 10 sample_il = Some [1 : val]
  ∧ ∃ t, t ∈ [1 : val] ∧ rtc covers t (5 : val).
Proof.
  assert (eliminateDoubleStores (opts true) 10 sample_il = Some [1 : val]) as E
    by (vm_compute; reflexivity).
  split; [exact E|].
  destruct (kept_store_dominates (opts true) 10 (λ _, 0%nat) sample_il)
    as (il' & E' & _ & Hk).
  - intros v u [_ Hc]. discriminate.
  - intros s _. lia.
  - intros s. cbn. apply bool_decide_eq_false. lia.
  - intros s t u Hs Ht. cbn in *. rewrite bool_decide_eq_true in *. lia.
  - rewrite E in E'. injection E' as <-. destruct (Hk 5%Z) as (t & Ht & Hr & _); [unfold sample_il; set_solver|].
    exists t. split; [exact Ht|exact Hr].
Defined.

(** The store at offset 8 is dropped, and the range the hook covers is the eight bytes before it. *)
Lemma aggregation_example :
  aggregateStores 10 [6 : val; 7 : val] = Some ([], [mk_range (6 : val) (200 : val) 0 8]).
Proof. vm_compute. reflexivity. Qed.

End StoreSample.
