(* ===== verification/PassRun.v ===== *)
(** * What the instrumentation is for

    The hooks placed by the pass over stores ([StorePass]) meet the undo log ([UndoWindow]): the part
    of an instrumented block between the start of a window and its end is run on the state of the
    checkpointing library, and a restart gives back the memory there was, but for the local
    variables the pass leaves out ([instrumented_window_recovers]).

    What an instruction does to memory is LLVM's: it is a parameter of the run ([effect]), of which
    two things are used ([memory_laws]): a store or a copy writes its bytes to its destination, and
    an instruction that may not write to memory does not.  A window is taken up to a call or any
    other instruction that may write otherwise.  That the stores whose base is a local variable go
    to the addresses [stack] is what makes the choice of the pass right. *)
From stdpp Require Import base numbers list gmap strings relations.
From Stdlib Require Import ZArith Lia.
From S2P Require Import Prelude Memory CString Ctx Profiling Writelog UndoWindow.
From S2P Require Import SiteIds WindowPass StorePass.

Section PassRun.
Context `{StoreIR} `{cfg : Config} (awd awp datamax : Z).
Variable o : store_opts.
Variable fuel : nat.

(** The run: the destination and the bytes of a store or a copy, the slot of the return address,
    the addresses of local variables and of the memory where the hooks save registers and frames,
    and what instructions and those hooks do to memory. *)
Variable dest : val → Z.
Variable bytes : val → list Z.
Variable ret_slot : Z.
Variable stack : Z → Prop.
Variable effect : val → mem → mem.
Variable hook_effect : hook → mem → mem.

(** [Instruction::mayWriteToMemory]. *)
Variable mayWriteToMemory : val → bool.

Definition writes_memory (i : val) : bool := is_store i || is_mem i.

(** What is used of the semantics of LLVM and of the hooks that save registers. *)
Record memory_laws : Prop := {
  ml_store i m : writes_memory i = true → effect i m = store_bytes m (dest i) (bytes i);
  ml_quiet i m : mayWriteToMemory i = false → effect i m = m;
  ml_hook h m x : ¬ stack x → hook_effect h m x = m x;
}.

(** An instruction of a block, with its hooks. *)
Definition exec_instr (x : instr) : prog ckpt () :=
  match x with
  | Hook (StoreHook i) => modify (ltckpt_store_hook (dest i))
  | Hook (MemHook i) => ltckpt_memcpy_hook (dest i) (zlen (bytes i))
  | Hook RetAddr => modify (ltckpt_store_hook ret_slot)
  | Hook h => modify (λ s, set_cmem (hook_effect h (cmem s)) s)
  | Orig i => modify (λ s, set_cmem (effect i (cmem s)) s)
  end.

Fixpoint exec (b : block) : prog ckpt () :=
  match b with
  | [] => skip
  | x :: b' => exec_instr x ;; exec b'
  end.

(** The part of a block after the start of a window and before its end, or before an instruction
    other than a store or a copy that may write to memory. *)
Definition in_window (x : instr) : bool :=
  match x with
  | Orig i => (boundary_type (Orig i) =? TX_TYPE_INVALID) && (writes_memory i || negb (mayWriteToMemory i))
  | Hook RetAddr | Hook SaveRegs | Hook FrameAddrs => true
  | Hook _ => false
  end.

(** The operation of a store with its hook. *)
Definition op_of (i : val) : app_op := if is_mem i then AMemcpy (dest i) (bytes i) else AStore (dest i) (bytes i).

Section Chosen.
Variable chosen : val → bool.
Hypothesis chosen_writes : ∀ i, chosen i = true → writes_memory i = true.
Hypothesis laws : memory_laws.

(** The operations of a block, by what is in the log afterwards. *)
Definition ops_of (x : instr) : list app_op :=
  match x with
  | Orig i => if chosen i then [op_of i] else []
  | Hook RetAddr => [AStore ret_slot []]
  | Hook _ => []
  end.

(** Since the top of the loop with memory [m0]: the window is in order for a memory that is [m0] but
    for the stack. *)
Definition window_but_stack (m0 : mem) (base : Z) (s : ckpt) (es : list entry) : Prop :=
  ∃ m1, window_inv awd awp datamax m1 base s es ∧ mem_agree (λ x, not_in_log s x ∧ ¬ stack x) m1 m0.

Lemma not_in_log_data s s' x : wl_data s' = wl_data s → not_in_log s' x ↔ not_in_log s x.
Proof. unfold not_in_log, in_log. by intros ->. Qed.

(** An operation with its hook. *)
Lemma hooked_step m0 base s es op : hooks_enabled → window_but_stack m0 base s es →
  op_ok awd awp datamax s op → entry_size * (zlen es + zlen (op_regs op)) <= WRITELOG_BYTES →
  ∃ s' es', app_step op s = Ok () s' ∧ window_but_stack m0 base s' (es ++ es')
  ∧ zlen es' = zlen (op_regs op) ∧ wl_data s' = wl_data s.
Proof.
  intros Hen (m1 & Hi & Hm) Hop Hroom.
  destruct (app_step_inv awd awp datamax m1 base s es op) as (s' & es' & E & Hi' & Hl); [done..|].
  assert (wl_data s' = wl_data s) as Hd by (by rewrite (wi_data _ _ _ _ _ _ _ Hi'), (wi_data _ _ _ _ _ _ _ Hi)).
  exists s', es'. split_and!; [done| | |done].
  - exists m1. split; [done|]. intros x [Hx Hk]. apply Hm. split; [|done]. by rewrite <- (not_in_log_data s s').
  - apply (f_equal length) in Hl. rewrite !length_fmap in Hl. by unfold entry in *; rewrite Hl.
Qed.

(** A change of the stack alone, without a hook. *)
Lemma bare_step m0 base s es m : window_but_stack m0 base s es →
  mem_agree (λ x, ¬ stack x) m (cmem s) → (∀ x, stack x → not_in_log s x) →
  window_but_stack m0 base (set_cmem m s) es.
Proof.
  intros (m1 & [Hd Hr Hw Hc Hu] & Hm) Hb Hs. exists (undo es m). split.
  - split; [done| |done|done|done]. apply log_repr_agree; [|done].
    intros x Hx. symmetry. apply Hb. intros Hin.
    apply (Hs x Hin). destruct Hr as (_ & ? & _). log_lia.
  - etransitivity; [|exact Hm]. intros x [Hx Hk]. rewrite <- (Hu x Hx).
    apply (undo_agree (λ x, ¬ stack x)); [|done]. intros y [Hy _]. by apply Hb.
Qed.

(** What the block asks for: chosen operations within what their hooks cover, others on the stack. *)
Record block_ok (b : block) (s : ckpt) : Prop := {
  bk_window : Forall (λ x, in_window x = true) b;
  bk_ops : Forall (op_ok awd awp datamax s) (b ≫= ops_of);
  bk_rest i x : Orig i ∈ b → writes_memory i = true → chosen i = false →
    in_block (dest i) (zlen (bytes i)) x → stack x;
  bk_stack x : stack x → not_in_log s x;
}.

Lemma in_window_on x : in_window x = true → instrumentStores_after x true = true.
Proof.
  destruct x as [i|[]]; try done. cbn [in_window]. intros [E _]%andb_true_iff.
  unfold instrumentStores_after. by rewrite E.
Qed.

Lemma exec_retaddr s : exec_instr (Hook RetAddr) s = app_step (AStore ret_slot []) s.
Proof.
  unfold exec_instr, app_step. unfold mbind, prog_bind, modify. f_equal.
  unfold app_write. cbn. by destruct (ltckpt_store_hook ret_slot s).
Qed.

Lemma exec_chosen i (k : prog ckpt ()) s : writes_memory i = true →
  (exec_instr (Hook (hook_of i)) ;; exec_instr (Orig i) ;; k) s = (app_step (op_of i) ;; k) s.
Proof.
  intros Hw.
  assert (∀ s, exec_instr (Orig i) s = modify (app_write (dest i) (bytes i)) s) as Ho.
  { intros s'. unfold exec_instr, modify, app_write. by rewrite (ml_store laws). }
  transitivity ((exec_instr (Hook (hook_of i)) ;; modify (app_write (dest i) (bytes i)) ;; k) s).
  { apply bind_ext. intros _ s'. unfold mbind, prog_bind. by rewrite Ho. }
  unfold hook_of, op_of, app_step, exec_instr.
  destruct (is_mem i); by rewrite bind_assoc.
Qed.

Lemma block_ok_tail x b s s' : wl_data s' = wl_data s → block_ok (x :: b) s → block_ok b s'.
Proof.
  intros Hd [W O R K]. split.
  - by inversion W.
  - rewrite bind_cons in O. apply Forall_app in O as [_ O]. eapply Forall_impl; [exact O|].
    intros op. by apply op_ok_data.
  - intros i y Hi. apply R. by right.
  - intros y Hy. rewrite (not_in_log_data s s') by done. by apply K.
Qed.

Lemma ops_entries_app l1 l2 : ops_entries (l1 ++ l2) = ops_entries l1 + ops_entries l2.
Proof. unfold ops_entries. induction l1 as [|op l1 IH]; cbn; [lia|]. rewrite IH. lia. Qed.

Lemma exec_hooked m0 base b s es : hooks_enabled → window_but_stack m0 base s es → block_ok b s →
  entry_size * (zlen es + ops_entries (b ≫= ops_of)) <= WRITELOG_BYTES →
  ∃ s' es', exec (hooked_block chosen true b) s = Ok () s' ∧ window_but_stack m0 base s' (es ++ es')
  ∧ wl_data s' = wl_data s.
Proof.
  intros Hen. revert s es. induction b as [|x b IH]; intros s es Hw Hb Hroom.
  { exists s, []. by rewrite app_nil_r. }
  pose proof Hb as [W O R K]. inversion W as [|?? Wx Wb]; subst.
  rewrite bind_cons in O, Hroom. cbn [hooked_block]. rewrite (in_window_on x Wx). cbn [andb].
  (* a step that leaves the log to [es ++ es1], then the rest *)
  assert (∀ (p : prog ckpt ()) s1 es1, p s = Ok () s1 → window_but_stack m0 base s1 (es ++ es1) →
    wl_data s1 = wl_data s → zlen es1 = ops_entries (ops_of x) →
    ∃ s' es', (p ;; exec (hooked_block chosen true b)) s = Ok () s'
      ∧ window_but_stack m0 base s' (es ++ es') ∧ wl_data s' = wl_data s) as Hstep.
  { intros p s1 es1 Ep Hw1 Hd Hl. destruct (IH s1 (es ++ es1)) as (s2 & es2 & E2 & Hw2 & Hd2); [done| | |].
    - by eapply block_ok_tail.
    - rewrite length_app, Nat2Z.inj_add, Hl. rewrite ops_entries_app in Hroom. lia.
    - exists s2, (es1 ++ es2). rewrite app_assoc. split_and!; [|done|congruence].
      by rewrite (bind_Ok _ _ _ _ _ Ep). }
  rewrite ops_entries_app in Hroom. pose proof (ops_entries_nonneg (b ≫= ops_of)) as Hnn.
  assert (∀ op, ops_of x = [op] → ∃ s' es', app_step op s = Ok () s' ∧ window_but_stack m0 base s' (es ++ es')
    ∧ zlen es' = ops_entries (ops_of x) ∧ wl_data s' = wl_data s) as Hop.
  { intros op Eop. rewrite Eop in *. apply Forall_app in O as [O _]. apply Forall_cons in O as [O _].
    cbn in Hroom. destruct (hooked_step m0 base s es op) as (s' & es' & E & Hw' & Hl & Hd); [exact Hen|exact Hw|exact O|log_lia|].
    exists s', es'. split_and!; [done|done|cbn; lia|done]. }
  destruct x as [i|h]; cbn [ops_of] in *.
  - destruct (chosen i) eqn:Ec; cbn [app exec].
    + destruct (Hop _ eq_refl) as (s1 & es1 & E1 & Hw1 & Hl & Hd).
      rewrite exec_chosen by auto. by eapply Hstep.
    + assert (∃ s1, exec_instr (Orig i) s = Ok () s1 ∧ window_but_stack m0 base s1 (es ++ [])
        ∧ wl_data s1 = wl_data s) as (s1 & E1 & Hw1 & Hd); [|by eapply (Hstep _ s1 [])].
      rewrite app_nil_r. eexists. split_and!; [done| |done]. apply bare_step; [done| |done].
      intros y Hy. destruct (writes_memory i) eqn:Ew.
      * rewrite (ml_store laws) by done. apply store_bytes_out. intros Hin. apply Hy.
        eapply (R i); [left|done..].
      * cbn [in_window] in Wx. rewrite Ew, andb_true_iff in Wx. destruct Wx as [_ Wq].
        rewrite (ml_quiet laws); [done|]. by apply negb_true_iff.
  - cbn [app exec].
    assert (∀ h', exec_instr (Hook h) = modify (λ s, set_cmem (hook_effect h' (cmem s)) s) → ops_of (Hook h) = [] →
      ∃ s' es', (exec_instr (Hook h) ;; exec (hooked_block chosen true b)) s = Ok () s'
        ∧ window_but_stack m0 base s' (es ++ es') ∧ wl_data s' = wl_data s) as Hquiet.
    { intros h' Eh Eo. rewrite Eh. eapply (Hstep _ _ []); [reflexivity| |done|by cbn [ops_of] in *; rewrite Eo].
      rewrite app_nil_r. apply bare_step; [done| |done]. intros y Hy. by apply (ml_hook laws). }
    destruct h; try done; try (by eapply Hquiet).
    destruct (Hop _ eq_refl) as (s1 & es1 & E1 & Hw1 & Hl & Hd). eapply Hstep; [|done..]. by rewrite exec_retaddr.
Qed.


End Chosen.
(** ** Windows of instrumented blocks *)

(** The value the address of a store or a copy is computed from. *)
Definition base_value (i : val) : option val :=
  strip_loop fuel (if is_mem i then mem_dest i else pointer_operand i).

Lemma chosen_true_writes i : referencing o fuel (Orig i) = Some true → writes_memory i = true.
Proof. unfold referencing, writes_memory. destruct (is_store i), (is_mem i); try done. Qed.

(** The walks of the pass over values end within their bound: [depth] is a measure of addresses, [U]
    has the phi nodes of the program. *)
Record walks_end (depth : val → nat) (U : list val) : Prop := {
  we_measure : address_measure depth;
  we_depth j : (depth (pointer_operand j) < fuel)%nat;
  we_phis v : is_phi_node v = true → v ∈ U;
  we_bound : (length U < fuel)%nat;
}.

Lemma chosen_false_stack depth U i : walks_end depth U → has_dsa o = false →
  referencing o fuel (Orig i) = Some false → writes_memory i = true →
  ∃ v, base_value i = Some v ∧ on_stack v.
Proof.
  intros [Hm Hd HinU Hf] Hdsa Hr Hw. unfold referencing in Hr. unfold base_value.
  apply bind_Some in Hr as (bs & Es & Hr). apply bind_Some in Hr as (bm & Em & [= Hb]).
  apply orb_false_iff in Hb as [-> ->]. destruct (is_mem i) eqn:Ei.
  - unfold memIntrinsicToBeInstrumented in Em. rewrite Ei in Em. cbn [negb] in Em.
    apply bind_Some in Em as (v & Ev & Em). exists v. split; [done|]. left.
    destruct (ltckptOptSkipAllocas o), (is_alloca v); by cbn in Em.
  - unfold writes_memory in Hw. rewrite Ei, orb_false_r in Hw. rewrite Hw in Es.
    destruct (store_skipped_iff o fuel depth U i) as (v & b & Ev & Eb & Hb); [done..|].
    rewrite Es in Eb. injection Eb as <-. exists v. split; [done|]. by apply Hb.
Qed.

(** The run of a window: its log is empty at the start, what the pass finds to be on the stack is
    there, the stores that have hooks are within what the hooks cover, the log has room, and no
    instruction but a store or a copy may write to memory. *)
Record window_run (chosen : val → bool) (b : block) (s : ckpt) : Prop := {
  wr_hooks : hooks_enabled;
  wr_laws : memory_laws;
  wr_empty : wl_position s = 0;
  wr_part : Forall (λ x, in_window x = true) b;
  wr_local i v x : base_value i = Some v → on_stack v → in_block (dest i) (zlen (bytes i)) x → stack x;
  wr_stack x : stack x → not_in_log s x;
  wr_covered : Forall (op_ok awd awp datamax s) (b ≫= ops_of chosen);
  wr_room : entry_size * ops_entries (b ≫= ops_of chosen) <= WRITELOG_BYTES;
}.

Lemma hooked_window_recovers depth U chosen b s : has_dsa o = false → walks_end depth U →
  (∀ i, referencing o fuel (Orig i) = Some (chosen i)) → window_run chosen b s →
  ∃ s1 s2, exec (hooked_block chosen true b) s = Ok () s1 ∧ ltckpt_restart awd awp datamax s1 = Ok 0 s2
  ∧ wl_position s2 = 0 ∧ mem_agree (λ x, not_in_log s x ∧ ¬ stack x) (cmem s2) (cmem s).
Proof.
  intros Hdsa Hwe Hc [Hen Hlaws Hp Hwin Hst Hlog Hops Hroom].
  destruct (exec_hooked chosen) with (m0 := cmem s) (base := wl_data s) (b := b) (s := s) (es := [] : list entry)
    as (s1 & es & E1 & (m1 & Hi & Hagree) & Hdata).
  - intros i Hi. apply chosen_true_writes. by rewrite Hc, Hi.
  - done.
  - done.
  - exists (cmem s). split; [|done]. split; [done| |constructor|constructor|done].
    split_and!; [by rewrite Hp|by rewrite Hp|]. intros i e Hi. by rewrite lookup_nil in Hi.
  - split; [done|done| |done]. intros i x _ Hw Hci Hx.
    destruct (chosen_false_stack depth U i) as (v & Ev & Hv); [done..|by rewrite Hc, Hci|done|]. by eapply Hst.
  - done.
  - destruct (restart_inv awd awp datamax _ _ _ _ Hi) as (s2 & E2 & Hpos & Hm2).
    exists s1, s2. split_and!; [done..|]. intros x [Hx Hk].
    rewrite (Hm2 x) by (by rewrite (not_in_log_data s s1)). apply Hagree.
    split; [by rewrite (not_in_log_data s s1)|done].
Qed.

Lemma hooked_program chosen on b : program_of (hooked_block chosen on b) = program_of b.
Proof.
  revert on. induction b as [|[i|h] b IH]; intros on; cbn [hooked_block]; [done|..].
  - destruct (_ && _); cbn; unfold program_of in *; by rewrite IH.
  - cbn. apply IH.
Qed.

(** A function the pass instruments in the default build, without the options that leave out hooks. *)
Record instruments (f : func) : Prop := {
  in_dsa : has_dsa o = false;
  in_aggr : ltckptOptAggrStrStr o = false;
  in_tols : ltckptOptNoTOLs o = false;
  in_stores : ltckptOptNoStoreHooks o = false;
  in_sections : in_skipped_section o f = false;
  in_names : f_name f ∉ skipStoreHooksOnFunctions o;
  in_once : NoDup (concat (program_of <$> f_blocks f));
}.

(** C3: windows of instrumented code.  The pass, without data structure analysis, without the
    aggregation of stores and without the options that leave out hooks ([instruments]), goes through
    a function and leaves its instructions as they are.  Take, of any block, a part after the start
    of a window that is no hardware transaction, up to the next call or other instruction that may
    write to memory and is neither a store nor a memory intrinsic ([in_window]).  Let the semantics of
    instructions be any that agrees with LLVM on two points ([memory_laws]): a store or a copy writes
    its bytes to its destination, and an instruction that may not write to memory does not.  Let
    finally the stores whose base the pass takes for a local variable go to the stack, each other
    store lie in the regions its hook saves, and the log have room for them ([window_run]).  With
    the hooks the pass has placed, that part runs, and a restart gives every byte outside the log
    and the stack the value it had at the start of the window. *)
Theorem instrumented_window_recovers depth U chosen conf f bs k b1 b s :
  instruments f → walks_end depth U → (∀ i, referencing o fuel (Orig i) = Some (chosen i)) →
  place_tols o (tol_functions o) (f_name f)
    (if decide (f_name f = conf) then instrumentConfSetup (f_blocks f) else f_blocks f) = Some bs →
  bs !! k = Some (b1 ++ b) → last_boundary b1 ≠ Some TX_TYPE_TSX → window_run chosen b s →
  ∃ f' hb1 hb, onFunction o fuel conf f = Some (true, f')
  ∧ program_of <$> f_blocks f' = program_of <$> f_blocks f
  ∧ f_blocks f' !! k = Some (hb1 ++ hb) ∧ program_of hb = program_of b
  ∧ ∃ s1 s2, exec hb s = Ok () s1 ∧ ltckpt_restart awd awp datamax s1 = Ok 0 s2
    ∧ wl_position s2 = 0 ∧ mem_agree (λ x, not_in_log s x ∧ ¬ stack x) (cmem s2) (cmem s).
Proof.
  intros [Hdsa Hag Ht Hns Hsec Hsk Hn] Hwe Hc Hbs Hk Hlast Hrun.
  destruct (stores_hooked o fuel chosen Hc conf f) as (bs' & Ef & Hbs' & Hp); [done..|].
  rewrite Hbs in Hbs'. injection Hbs' as <-.
  exists (set_f_blocks (hooked_block chosen true <$> bs) f), (hooked_block chosen true b1), (hooked_block chosen true b).
  split_and!; [done| | |apply hooked_program|by eapply hooked_window_recovers].
  - cbn. rewrite <- Hp, <- list_fmap_compose. apply list_fmap_ext. intros _ b' _. apply hooked_program.
  - cbn. rewrite list_lookup_fmap. transitivity (hooked_block chosen true <$> Some (b1 ++ b)); [f_equal; exact Hk|].
    cbn. rewrite hooked_app, state_after_last. do 2 f_equal.
    destruct (last_boundary b1) as [t|]; [|done]. destruct (Z.eqb_spec t TX_TYPE_TSX); naive_solver.
Qed.

End PassRun.

(** ** A window *)

Module RunSample.
Import StoreSample.

Definition run_dest (i : @val sample_pass) : Z := if decide (i ∈ [3; 4]) then 4096 else if decide (i = 1) then 103 else 32.
Definition run_bytes (i : @val sample_pass) : list Z := [0].
Definition run_stack (x : Z) : Prop := 4096 <= x < 8192.
(** Stores write, the hooks that save registers write to the stack, and a call might write. *)
Definition run_effect (i : @val sample_pass) (m : mem) : mem :=
  if @writes_memory sample_pass sample_store i then store_bytes m (run_dest i) (run_bytes i) else m.
Definition run_hook (h : @hook sample_pass) (m : mem) : mem := store_bytes m 8000 [7].
Definition run_may_write (i : @val sample_pass) : bool := true.

Lemma run_laws : @memory_laws sample_pass sample_store run_dest run_bytes run_stack run_effect run_hook run_may_write.
Proof.
  split.
  - intros i m Hi. unfold run_effect. by rewrite Hi.
  - intros i m Hi. discriminate Hi.
  - intros h m x Hx. apply store_bytes_out. unfold run_stack, in_block in *. cbn. lia.
Qed.

(** A call of [read] and three stores, one of them to a local variable; the hooks of the call. *)
Definition run_func : @func sample_pass := mk_func "serve" "" false false [[Orig 2; Orig 1; Orig 3; Orig 5]].
Definition run_head : @block sample_pass := [Hook EndOfWindow; Orig 2; Hook (TopOfLoop TX_TYPE_LTCKPT)].
Definition run_part : @block sample_pass := [Hook RetAddr; Hook SaveRegs; Orig 1; Orig 3; Orig 5].

(** The only phi node is 102, and addresses are not computed. *)
Lemma sample_phi v : @is_phi_node sample_pass sample_store v = true → v = 102.
Proof. unfold is_phi_node. cbn. unfold kind. repeat case_decide; done. Qed.

Lemma sample_strip n v : @strip_loop sample_pass sample_store (S n) v = Some v.
Proof. cbn. unfold kind. repeat case_decide; done. Qed.

Lemma sample_on_stack v : @on_stack sample_pass sample_store v → v ∈ [101; 103; 102].
Proof.
  intros [Ha|[Hp _]].
  - unfold is_alloca in Ha. cbn in Ha. unfold kind in Ha. repeat case_decide; try done. set_solver.
  - rewrite (sample_phi v Hp). set_solver.
Qed.

Lemma sample_stack_stores i x : @on_stack sample_pass sample_store (pointer_operand i) →
  in_block (run_dest i) 1 x → run_stack x.
Proof.
  intros Hs%sample_on_stack. cbn in Hs. unfold run_dest, run_stack, in_block.
  destruct (decide (i ∈ [3; 4])) as [Hi|Hi]; [lia|]. exfalso. revert Hs.
  repeat case_decide; subst; rewrite !elem_of_cons, elem_of_nil in *; first [lia|intuition discriminate].
Qed.

Lemma sample_instruments : @instruments sample_pass (opts false) run_func.
Proof.
  split; try reflexivity.
  - set_solver.
  - apply (bool_decide_unpack _). vm_compute. done.
Qed.

Lemma sample_walks : @walks_end sample_pass sample_store 10 (λ _, 0%nat) [102].
Proof.
  split.
  - split; [intros v; reflexivity|]. intros v p. cbn. unfold kind. repeat case_decide; done.
  - intros j. lia.
  - intros v Hv. rewrite (sample_phi v Hv). left.
  - cbn. lia.
Qed.

Lemma sample_run : @window_run sample_pass sample_store config_autoadapt 16 24 140737488355328 10
  run_dest run_bytes 8192 run_stack run_effect run_hook run_may_write sample_chosen run_part empty_log.
Proof.
  split.
  - reflexivity.
  - exact run_laws.
  - reflexivity.
  - repeat constructor.
  - intros i v x Hb Hs Hx. unfold base_value in Hb. rewrite sample_strip in Hb. injection Hb as <-.
    by apply (sample_stack_stores i).
  - intros x Hx. unfold run_stack in Hx. unfold not_in_log, in_log, in_block. cbn. lia.
  - match goal with |- Forall _ ?l => replace l with [AStore 8192 []; AStore 103 [0]; AStore 32 [0]]
      by (vm_compute; reflexivity) end.
    constructor; [|constructor; [|constructor; [|constructor]]];
      (split; [|vm_compute; discriminate]); (constructor; [|constructor]); (split; [lia|vm_compute; reflexivity]).
  - vm_compute. discriminate.
Qed.

Lemma instrumented_window_recovers_witness :
  ∃ f' hb1 hb s1 s2, onFunction (opts false) 10 "ltckpt_conf_setup" run_func = Some (true, f')
  ∧ f_blocks f' !! 0%nat = Some (hb1 ++ hb)
  ∧ @exec sample_pass config_autoadapt run_dest run_bytes 8192 run_effect run_hook hb empty_log = Ok () s1
  ∧ @ltckpt_restart config_autoadapt 16 24 140737488355328 s1 = Ok 0 s2 ∧ cmem s2 103 = 103.
Proof.
  destruct (@instrumented_window_recovers sample_pass sample_store config_autoadapt 16 24 140737488355328
    (opts false) 10 run_dest run_bytes 8192 run_stack run_effect run_hook run_may_write (λ _, 0%nat) [102] sample_chosen "ltckpt_conf_setup"
    run_func [run_head ++ run_part] 0%nat run_head run_part empty_log
    sample_instruments sample_walks sample_referencing)
    as (f' & hb1 & hb & Ef & _ & Hk & _ & s1 & s2 & Hrun & Hres & _ & Hm).
  - vm_compute. reflexivity.
  - reflexivity.
  - vm_compute. discriminate.
  - exact sample_run.
  - exists f', hb1, hb, s1, s2. split; [exact Ef|]. split; [exact Hk|]. split; [exact Hrun|].
    split; [exact Hres|]. rewrite (Hm 103); [reflexivity|].
    unfold run_stack, not_in_log, in_log, in_block. cbn. lia.
Defined.

End RunSample.
