(* ===== verification/CondVar.v ===== *)
(** * The condition variable

    [include/common/util/cond_var.h]: a value with a mutex and a condition, for threads or
    processes that wait until the value is a given one.  The threads are a step relation in which
    each call of the pthread library is one step: a mutex that one thread holds, and a set of
    threads asleep on the condition, which a signal wakes at least one of, a broadcast wakes all
    of, and which may also wake for no reason, as POSIX allows.

    A wait returns only when the value is the one waited for ([waiter_leaves_at_value]).  When
    the value is set by broadcasts no thread sleeps through it ([no_lost_broadcast]), and each
    waiter can return ([broadcast_waiter_returns]); a signal may wake a thread that waits for
    another value, and the one it was for then sleeps on ([signal_wakes_wrong_waiter]). *)
From stdpp Require Import base numbers list functions relations.
From Stdlib Require Import ZArith Lia.
From S2P Require Import Prelude.

Definition ETIMEDOUT : Z := 110.

(** [util_cond_var_wait] and [util_cond_var_timedwait]. *)
Inductive wait_kind := Untimed | Timed.

(** Where a thread is in a call; the argument of a wait is the value waited for, of the other
    calls the value to set. *)
Inductive pc :=
  | Idle
  | WaitLock (k : wait_kind) (v : Z)
  | WaitTest (k : wait_kind) (v : Z) (ret : Z)
  | Asleep (k : wait_kind) (v : Z)
  | Woken (k : wait_kind) (v : Z) (ret : Z)
  | WaitUnlock (k : wait_kind) (v : Z) (ret : Z)
  | Returned (k : wait_kind) (v : Z) (ret : Z)
  | SetLock (bcast : bool) (v : Z)
  | SetVar (bcast : bool) (v : Z)
  | Notify (bcast : bool)
  | SetUnlock.

(** [util_cond_var_t] and the threads. *)
Record cv := mk_cv { cv_owner : option nat; cv_var : Z; cv_pc : nat → pc }.

Definition goto (t : nat) (p : pc) (s : cv) : cv := mk_cv (cv_owner s) (cv_var s) (<[t := p]> (cv_pc s)).
Definition set_owner (o : option nat) (s : cv) : cv := mk_cv o (cv_var s) (cv_pc s).
Definition set_var (v : Z) (s : cv) : cv := mk_cv (cv_owner s) v (cv_pc s).

(** The threads in [W] wake up. *)
Definition wake (W : nat → bool) (s : cv) : cv :=
  mk_cv (cv_owner s) (cv_var s) (λ t,
    match cv_pc s t with
    | Asleep k v => if W t then Woken k v 0 else Asleep k v
    | p => p
    end).

Definition asleep (s : cv) (t : nat) : Prop := match cv_pc s t with Asleep _ _ => True | _ => False end.

(** The set of calls a program makes: whether it uses [util_cond_var_signal]. *)
Inductive cv_step (signals : bool) (t : nat) (s : cv) : cv → Prop :=
  (* the calls *)
  | st_wait k v : cv_pc s t = Idle → cv_step signals t s (goto t (WaitLock k v) s)
  | st_set b v : cv_pc s t = Idle → (b = false → signals = true) → cv_step signals t s (goto t (SetLock b v) s)
  (* util_cond_var_wait, util_cond_var_timedwait *)
  | st_lock k v : cv_pc s t = WaitLock k v → cv_owner s = None →
      cv_step signals t s (goto t (WaitTest k v 0) (set_owner (Some t) s))
  | st_equal k v r : cv_pc s t = WaitTest k v r → cv_var s = v → cv_step signals t s (goto t (WaitUnlock k v r) s)
  | st_sleep k v r : cv_pc s t = WaitTest k v r → cv_var s ≠ v →
      cv_step signals t s (goto t (Asleep k v) (set_owner None s))
  | st_spurious k v : cv_pc s t = Asleep k v → cv_step signals t s (goto t (Woken k v 0) s)
  | st_timeout v : cv_pc s t = Asleep Timed v → cv_step signals t s (goto t (Woken Timed v ETIMEDOUT) s)
  | st_relock k v r : cv_pc s t = Woken k v r → cv_owner s = None →
      cv_step signals t s (goto t (if bool_decide (r = ETIMEDOUT) then WaitUnlock k v r else WaitTest k v r) (set_owner (Some t) s))
  | st_unlock k v r : cv_pc s t = WaitUnlock k v r → cv_step signals t s (goto t (Returned k v r) (set_owner None s))
  | st_return k v r : cv_pc s t = Returned k v r → cv_step signals t s (goto t Idle s)
  (* util_cond_var_signal, util_cond_var_broadcast *)
  | st_set_lock b v : cv_pc s t = SetLock b v → cv_owner s = None →
      cv_step signals t s (goto t (SetVar b v) (set_owner (Some t) s))
  | st_set_var b v : cv_pc s t = SetVar b v → cv_step signals t s (goto t (Notify b) (set_var v s))
  | st_signal W : cv_pc s t = Notify false → (∀ u, W u = true → asleep s u) →
      ((∃ u, asleep s u) → ∃ u, W u = true) → cv_step signals t s (goto t SetUnlock (wake W s))
  | st_broadcast : cv_pc s t = Notify true → cv_step signals t s (goto t SetUnlock (wake (λ _, true) s))
  | st_set_unlock : cv_pc s t = SetUnlock → cv_step signals t s (goto t Idle (set_owner None s)).

(** After [util_cond_var_init]. *)
Definition cond_var_init (value : Z) : cv := mk_cv None value (λ _, Idle).

(** The calls of the pthread library that set up and destroy the mutex and the condition. *)
Inductive pthread_op :=
  | MutexattrInit | MutexattrSetpshared | MutexInit | MutexattrDestroy
  | CondattrInit | CondattrSetpshared | CondInit | CondattrDestroy
  | MutexDestroy | CondDestroy.

Section Setup.
Context {os : Type} (pthread : pthread_op → os → Z * os).

Abbreviation P := (prog (Z * os)).

Definition call (op : pthread_op) : P Z := λ '(v, o), let '(r, o) := pthread op o in Ok r (v, o).
Definition call_ok (op : pthread_op) : P () := ret ← call op; assert (ret =? 0).

(** The state is the value of the variable and that of the library. *)
Definition util_cond_var_init (value is_pshared : Z) : P () :=
  call_ok MutexattrInit ;;
  when (truthy is_pshared) (call_ok MutexattrSetpshared) ;;
  call_ok MutexInit ;;
  call_ok MutexattrDestroy ;;
  call_ok CondattrInit ;;
  when (truthy is_pshared) (call_ok CondattrSetpshared) ;;
  call_ok CondInit ;;
  call_ok CondattrDestroy ;;
  modify (λ s, (value, s.2)).

Definition util_cond_var_destroy : P () :=
  call MutexDestroy ;; call CondDestroy ;; modify (λ s, (0, s.2)).

Lemma call_run op v o : call op (v, o) = Ok (pthread op o).1 (v, (pthread op o).2).
Proof. unfold call. by destruct (pthread op o). Qed.

Lemma call_ok_run op v o : (pthread op o).1 = 0 → call_ok op (v, o) = Ok () (v, (pthread op o).2).
Proof. intros H. unfold call_ok. rewrite (bind_Ok _ _ _ _ _ (call_run op v o)). by rewrite H. Qed.

(** The variable is set when every call succeeds. *)
Lemma cond_var_init_sets value is_pshared v o :
  (∀ op o, (pthread op o).1 = 0) → ∃ o', util_cond_var_init value is_pshared (v, o) = Ok () (value, o').
Proof.
  intros H. assert (E : ∀ op o, call_ok op (v, o) = Ok () (v, (pthread op o).2)) by (intros; by apply call_ok_run).
  assert (Ew : ∀ b op o, ∃ o', when b (call_ok op) (v, o) = Ok () (v, o')) by (intros [] op o0; cbn [when]; [rewrite E|]; by eexists).
  unfold util_cond_var_init. rewrite (bind_Ok _ _ _ _ _ (E _ _)).
  destruct (Ew (truthy is_pshared) MutexattrSetpshared (pthread MutexattrInit o).2) as (o1 & E1). rewrite (bind_Ok _ _ _ _ _ E1).
  do 3 rewrite (bind_Ok _ _ _ _ _ (E _ _)).
  destruct (Ew (truthy is_pshared) CondattrSetpshared (pthread CondattrInit (pthread MutexattrDestroy (pthread MutexInit o1).2).2).2) as (o2 & E2).
  rewrite (bind_Ok _ _ _ _ _ E2). do 2 rewrite (bind_Ok _ _ _ _ _ (E _ _)). eexists. reflexivity.
Qed.

(** When a call fails the program stops there and the variable is as it was. *)
Lemma cond_var_init_stops value is_pshared v o :
  (pthread MutexInit (if truthy is_pshared then (pthread MutexattrSetpshared (pthread MutexattrInit o).2).2 else (pthread MutexattrInit o).2)).1 ≠ 0 →
  (∀ op o, op ≠ MutexInit → (pthread op o).1 = 0) →
  ∃ o', util_cond_var_init value is_pshared (v, o) = Stop AssertFail (v, o').
Proof.
  intros Hf H. unfold util_cond_var_init. rewrite (bind_Ok _ _ _ _ _ (call_ok_run _ _ _ (H MutexattrInit o ltac:(done)))).
  assert (when (truthy is_pshared) (call_ok MutexattrSetpshared) (v, (pthread MutexattrInit o).2)
    = Ok () (v, if truthy is_pshared then (pthread MutexattrSetpshared (pthread MutexattrInit o).2).2 else (pthread MutexattrInit o).2)) as E.
  { destruct (truthy is_pshared); [|done]. by apply call_ok_run, H. }
  rewrite (bind_Ok _ _ _ _ _ E). set (o1 := if truthy is_pshared then _ else _) in *. eexists.
  erewrite bind_Stop; [reflexivity|]. unfold call_ok. rewrite (bind_Ok _ _ _ _ _ (call_run MutexInit v o1)).
  by rewrite (proj2 (Z.eqb_neq _ 0)).
Qed.

End Setup.

Definition step (signals : bool) : relation cv := λ s s', ∃ t, cv_step signals t s s'.
Definition cv_reachable (signals : bool) (value : Z) (s : cv) : Prop := rtc (step signals) (cond_var_init value) s.

(** ** Invariants *)

(** The places of a call at which the thread holds the mutex. *)
Definition holds (p : pc) : bool :=
  match p with
  | WaitTest _ _ _ | WaitUnlock _ _ _ | SetVar _ _ | Notify _ | SetUnlock => true
  | _ => false
  end.

(** What a wait may return: a time-out only when it has one. *)
Definition ret_ok (p : pc) : Prop :=
  match p with
  | WaitTest _ _ r | Woken Untimed _ r | WaitUnlock Untimed _ r | Returned Untimed _ r => r = 0
  | Woken Timed _ r | WaitUnlock Timed _ r | Returned Timed _ r => r = 0 ∨ r = ETIMEDOUT
  | _ => True
  end.

(** The thread that holds the mutex is the one inside; a wait that did not time out leaves with the
    value it waited for. *)
Record cv_inv (s : cv) : Prop := {
  ci_owner : ∀ t, holds (cv_pc s t) = true ↔ cv_owner s = Some t;
  ci_value : ∀ t k v r, cv_pc s t = WaitUnlock k v r → r ≠ ETIMEDOUT → cv_var s = v;
  ci_ret : ∀ t, ret_ok (cv_pc s t);
}.

Lemma goto_eq t p s : cv_pc (goto t p s) t = p.
Proof. apply fn_lookup_insert. Qed.
Lemma goto_ne t u p s : u ≠ t → cv_pc (goto t p s) u = cv_pc s u.
Proof. intros H. by apply fn_lookup_insert_ne. Qed.

Lemma wake_pc W s t :
  cv_pc (wake W s) t = cv_pc s t ∨ ∃ k v, cv_pc s t = Asleep k v ∧ W t = true ∧ cv_pc (wake W s) t = Woken k v 0.
Proof. cbn. destruct (cv_pc s t) as [|k v|k v r|k v|k v r|k v r|k v r|b v|b v|b|]; auto. destruct (W t); [right; eauto|by left]. Qed.

(** Another thread has the mutex, or nobody. *)
Lemma not_holding s t u : cv_inv s → holds (cv_pc s t) = true → u ≠ t → holds (cv_pc s u) = false.
Proof.
  intros Hi Ht Hne. apply not_true_iff_false. rewrite (ci_owner s Hi). apply (ci_owner s Hi) in Ht. congruence.
Qed.

Lemma free_holding s t : cv_inv s → cv_owner s = None → holds (cv_pc s t) = false.
Proof. intros Hi Ho. apply not_true_iff_false. rewrite (ci_owner s Hi). congruence. Qed.

(** A step of thread [t] that takes, keeps or gives back the mutex as its new place says. *)
Lemma owner_step s t p o v :
  cv_inv s →
  (o = Some t ∧ holds p = true ∧ (cv_owner s = None ∨ holds (cv_pc s t) = true)) ∨
  (o = None ∧ holds p = false ∧ holds (cv_pc s t) = true) ∨
  (o = cv_owner s ∧ holds p = holds (cv_pc s t)) →
  ∀ u, holds (cv_pc (goto t p (mk_cv o v (cv_pc s))) u) = true ↔ o = Some u.
Proof.
  intros Hi H u. destruct (decide (u = t)) as [->|Hne].
  - rewrite goto_eq. destruct H as [(-> & -> & _)|[(-> & -> & _)|(-> & ->)]]; [done|done|apply (ci_owner s Hi)].
  - rewrite goto_ne by done. cbn [cv_pc]. destruct H as [(-> & _ & [H|H])|[(-> & _ & H)|(-> & _)]].
    + rewrite (free_holding s u Hi H). split; [done|congruence].
    + rewrite (not_holding s t u Hi H Hne). split; [done|congruence].
    + rewrite (not_holding s t u Hi H Hne). done.
    + apply (ci_owner s Hi).
Qed.

(** A step that does not change the value. *)
Lemma cv_inv_goto s t p o :
  cv_inv s →
  (o = Some t ∧ holds p = true ∧ (cv_owner s = None ∨ holds (cv_pc s t) = true)) ∨
  (o = None ∧ holds p = false ∧ holds (cv_pc s t) = true) ∨
  (o = cv_owner s ∧ holds p = holds (cv_pc s t)) →
  (∀ k v r, p = WaitUnlock k v r → r ≠ ETIMEDOUT → cv_var s = v) →
  ret_ok p →
  cv_inv (goto t p (set_owner o s)).
Proof.
  intros Hi Ho Hv Hr. split.
  - by apply owner_step.
  - intros u k v r. destruct (decide (u = t)) as [->|Hne]; [rewrite goto_eq; apply Hv|rewrite goto_ne by done; apply (ci_value s Hi)].
  - intros u. destruct (decide (u = t)) as [->|Hne]; [by rewrite goto_eq|rewrite goto_ne by done; apply (ci_ret s Hi)].
Qed.

Lemma set_owner_same s : set_owner (cv_owner s) s = s.
Proof. by destruct s. Qed.

Lemma cv_inv_move s t p :
  cv_inv s → holds p = holds (cv_pc s t) →
  (∀ k v r, p = WaitUnlock k v r → r ≠ ETIMEDOUT → cv_var s = v) →
  ret_ok p →
  cv_inv (goto t p s).
Proof.
  intros Hi Hh Hv Hr. pose proof (cv_inv_goto s t p (cv_owner s)) as H. rewrite set_owner_same in H. apply H; auto.
Qed.

(** Waking threads changes no place at which the mutex is held. *)
Lemma cv_inv_wake W s : cv_inv s → cv_inv (wake W s).
Proof.
  intros [Ho Hv Hr]. split.
  - intros t. destruct (wake_pc W s t) as [->|(k & v & E & _ & ->)]; [apply Ho|]. cbn [holds]. rewrite <- Ho, E. done.
  - intros t k' v r. destruct (wake_pc W s t) as [->|(k & v' & E & _ & ->)]; [apply Hv|done].
  - intros t. destruct (wake_pc W s t) as [->|(k & v' & E & _ & ->)]; [apply Hr|]. destruct k; cbn; auto.
Qed.

Lemma cv_inv_step signals t s s' : cv_inv s → cv_step signals t s s' → cv_inv s'.
Proof.
  intros Hi Hs. pose proof (ci_ret s Hi t) as Hr. pose proof (ci_owner s Hi t) as Ho. destruct Hs; rewrite H in Hr, Ho.
  - apply cv_inv_move; rewrite ?H; done.
  - apply cv_inv_move; rewrite ?H; done.
  - apply cv_inv_goto; rewrite ?H; try done. left. auto.
  - apply cv_inv_move; rewrite ?H; [done|done|by intros k' v' r' [= -> -> ->]|].
    cbn in Hr |- *. destruct k; auto.
  - apply cv_inv_goto; rewrite ?H; try done. auto.
  - apply cv_inv_move; rewrite ?H; try done. destruct k; cbn; auto.
  - apply cv_inv_move; rewrite ?H; try done. cbn. auto.
  - apply cv_inv_goto; rewrite ?H; [done|left; case_bool_decide; auto| |].
    + case_bool_decide; [|done]. by intros k' v' r' [= _ _ <-].
    + case_bool_decide; destruct k; cbn in Hr |- *; [done|by right|done|by destruct Hr].
  - apply cv_inv_goto; rewrite ?H; try done. auto.
  - apply cv_inv_move; rewrite ?H; done.
  - apply cv_inv_goto; rewrite ?H; try done. left. auto.
  - pose proof (proj1 (Ho) eq_refl) as Hown. split.
    + apply owner_step; [done|]. rewrite H. auto.
    + intros u k' v' r. destruct (decide (u = t)) as [->|Hne]; [by rewrite goto_eq|rewrite goto_ne by done]. cbn. intros E.
      pose proof (not_holding s t u Hi) as Hn. rewrite H, E in Hn. specialize (Hn eq_refl Hne). done.
    + intros u. destruct (decide (u = t)) as [->|Hne]; [by rewrite goto_eq|rewrite goto_ne by done]. apply (ci_ret s Hi).
  - apply cv_inv_move; [by apply cv_inv_wake|cbn; by rewrite H|done|done].
  - apply cv_inv_move; [by apply cv_inv_wake|cbn; by rewrite H|done|done].
  - apply cv_inv_goto; rewrite ?H; try done. auto.
Qed.

(** An invariant of the steps holds in every reachable state. *)
Lemma cv_reachable_ind signals value (I : cv → Prop) s :
  I (cond_var_init value) → (∀ t s1 s2, I s1 → cv_step signals t s1 s2 → I s2) → cv_reachable signals value s → I s.
Proof.
  intros H0 Hs Hr. revert H0. unfold cv_reachable in Hr. induction Hr as [|s1 s2 s3 (t & Ht) _ IH]; intros H0; [done|]. eauto.
Qed.

Lemma cv_reachable_inv signals value s : cv_reachable signals value s → cv_inv s.
Proof. apply cv_reachable_ind; [by split|]. intros t s1 s2. apply cv_inv_step. Qed.

(** ** Waiting *)

(** A wait returns with the mutex held when the value is the one it waited for, or, with a
    time-out, when that has passed; one thread at a time holds the mutex. *)
Lemma waiter_leaves_at_value signals value s t k v r :
  cv_reachable signals value s → cv_pc s t = WaitUnlock k v r →
  cv_owner s = Some t ∧ (∀ u, holds (cv_pc s u) = true → u = t) ∧
  ((r = 0 ∧ cv_var s = v) ∨ (k = Timed ∧ r = ETIMEDOUT)).
Proof.
  intros Hr Hp. pose proof (cv_reachable_inv _ _ _ Hr) as Hi.
  assert (cv_owner s = Some t) as Ho by (apply (ci_owner s Hi); by rewrite Hp). split; [done|]. split.
  - intros u Hu%(ci_owner s Hi). congruence.
  - pose proof (ci_ret s Hi t) as Hret. rewrite Hp in Hret. pose proof (ci_value s Hi t k v r Hp) as Hv.
    destruct k; cbn in Hret; [left; subst; split; [done|by apply Hv]|].
    destruct Hret as [-> | ->]; [left; split; [done|by apply Hv]|by right].
Qed.

(** With broadcasts only: no thread is in a signal, and a sleeper whose value is there is about
    to be woken. *)
Definition bcast_inv (s : cv) : Prop :=
  (∀ t, match cv_pc s t with SetLock false _ | SetVar false _ | Notify false => False | _ => True end) ∧
  (∀ t k v, cv_pc s t = Asleep k v → cv_var s = v → ∃ u, cv_pc s u = Notify true).

(** A step of [t] that neither wakes nor puts a thread to sleep for the value that is there. *)
Lemma bcast_goto s t p o :
  bcast_inv s → cv_pc s t ≠ Notify true →
  match p with SetLock false _ | SetVar false _ | Notify false => False | Asleep _ v => cv_var s ≠ v | _ => True end →
  bcast_inv (goto t p (mk_cv o (cv_var s) (cv_pc s))).
Proof.
  intros [Hn Hb] Ht Hp. split.
  - intros u. destruct (decide (u = t)) as [->|Hne]; [rewrite goto_eq; by destruct p|rewrite goto_ne by done; apply Hn].
  - intros u k v Hu Hv. assert (∃ w, cv_pc s w = Notify true) as (w & Hw).
    { destruct (decide (u = t)) as [->|Hne]; [|rewrite goto_ne in Hu by done; by apply (Hb u k v)].
      rewrite goto_eq in Hu. subst p. done. }
    exists w. rewrite goto_ne; [done|]. intros ->. done.
Qed.

Lemma bcast_inv_step t s s' : bcast_inv s → cv_step false t s s' → bcast_inv s'.
Proof.
  intros Hi Hs. pose proof (proj1 Hi t) as Hn.
  assert (∀ p, cv_pc s t ≠ Notify true →
    match p with SetLock false _ | SetVar false _ | Notify false => False | Asleep _ v => cv_var s ≠ v | _ => True end →
    bcast_inv (goto t p s)) as Hmove by (intros p H1 H2; exact (bcast_goto s t p (cv_owner s) Hi H1 H2)).
  destruct Hs; rewrite H in Hn; try done;
    try (by apply Hmove; rewrite ?H); try (by apply bcast_goto; rewrite ?H).
  - destruct b; [by apply Hmove; rewrite ?H|]. by specialize (H0 eq_refl).
  - apply bcast_goto; rewrite ?H; [done|done|]. by case_bool_decide.
  - destruct b; [|done]. split.
    + intros u. destruct (decide (u = t)) as [->|Hne]; [by rewrite goto_eq|rewrite goto_ne by done; apply Hi].
    + intros u k w _ _. exists t. apply goto_eq.
  - split.
    + intros u. destruct (decide (u = t)) as [->|Hne]; [by rewrite goto_eq|rewrite goto_ne by done].
      destruct (wake_pc (λ _, true) s u) as [->|(k & v & _ & _ & ->)]; [apply Hi|done].
    + intros u k v Hu. destruct (decide (u = t)) as [->|Hne]; [by rewrite goto_eq in Hu|rewrite goto_ne in Hu by done].
      cbn in Hu. by destruct (cv_pc s u).
Qed.

(** When the value is only set by broadcasts, no thread sleeps while the value it waits for is
    there, unless the broadcast that set it has not been made yet. *)
Lemma no_lost_broadcast value s t k v :
  cv_reachable false value s → cv_pc s t = Asleep k v → cv_var s = v → ∃ u, cv_pc s u = Notify true ∧ cv_owner s = Some u.
Proof.
  intros Hr Ht Hv. assert (bcast_inv s) as Hb.
  { revert Hr. apply cv_reachable_ind; [by split|]. intros u s1 s2. apply bcast_inv_step. }
  destruct (proj2 Hb t k v Ht Hv) as (u & Hu). exists u. split; [done|].
  apply (ci_owner s (cv_reachable_inv _ _ _ Hr)). by rewrite Hu.
Qed.

(** A waiter whose value has been broadcast can return. *)
Lemma broadcast_waiter_returns value s t k v :
  cv_reachable false value s → cv_pc s t = Asleep k v → cv_var s = v →
  ∃ s', rtc (step false) s s' ∧ cv_pc s' t = Returned k v 0.
Proof.
  intros Hr Ht Hv. destruct (no_lost_broadcast value s t k v Hr Ht Hv) as (u & Hu & _).
  assert (u ≠ t) as Hne by congruence.
  set (s1 := goto u SetUnlock (wake (λ _, true) s)). set (s2 := goto u Idle (set_owner None s1)).
  set (s3 := goto t (WaitTest k v 0) (set_owner (Some t) s2)). set (s4 := goto t (WaitUnlock k v 0) s3).
  assert (H2 : cv_pc s2 t = Woken k v 0).
  { subst s2. rewrite goto_ne by done. change (cv_pc s1 t = Woken k v 0). subst s1. rewrite goto_ne by done. cbn. by rewrite Ht. }
  exists (goto t (Returned k v 0) (set_owner None s4)). split; [|apply goto_eq].
  eapply rtc_l; [exists u; by apply st_broadcast|]. fold s1.
  eapply rtc_l; [exists u; apply st_set_unlock; apply goto_eq|]. fold s2.
  eapply rtc_l; [exists t; exact (st_relock false t s2 k v 0 H2 eq_refl)|]. rewrite bool_decide_false by done. fold s3.
  eapply rtc_l; [exists t; apply (st_equal false t s3 k v 0); [apply goto_eq|exact Hv]|]. fold s4.
  eapply rtc_l; [exists t; apply (st_unlock false t s4 k v 0); apply goto_eq|]. done.
Qed.

(** With a signal, a thread that waits for another value may be the one that is woken: thread 0
    waits for 1, thread 1 for 2, and the value is set to 2 by a signal.  It wakes thread 0, which
    sleeps again; thread 1 sleeps although the value it waits for is there, and nobody is in a
    call that would wake it. *)
Lemma signal_wakes_wrong_waiter :
  ∃ s, cv_reachable true 0 s ∧ cv_var s = 2 ∧ cv_owner s = None ∧
    cv_pc s 0%nat = Asleep Untimed 1 ∧ cv_pc s 1%nat = Asleep Untimed 2 ∧
    ∀ t, (1 < t)%nat → cv_pc s t = Idle.
Proof.
  eexists. split.
  { eapply rtc_l; [exists 0%nat; apply (st_wait _ _ _ Untimed 1); reflexivity|].
    eapply rtc_l; [exists 0%nat; apply (st_lock _ _ _ Untimed 1); reflexivity|].
    eapply rtc_l; [exists 0%nat; apply (st_sleep _ _ _ Untimed 1 0); [reflexivity|discriminate]|].
    eapply rtc_l; [exists 1%nat; apply (st_wait _ _ _ Untimed 2); reflexivity|].
    eapply rtc_l; [exists 1%nat; apply (st_lock _ _ _ Untimed 2); reflexivity|].
    eapply rtc_l; [exists 1%nat; apply (st_sleep _ _ _ Untimed 2 0); [reflexivity|discriminate]|].
    eapply rtc_l; [exists 2%nat; apply (st_set _ _ _ false 2); reflexivity|].
    eapply rtc_l; [exists 2%nat; apply (st_set_lock _ _ _ false 2); reflexivity|].
    eapply rtc_l; [exists 2%nat; apply (st_set_var _ _ _ false 2); reflexivity|].
    eapply rtc_l; [exists 2%nat; apply (st_signal _ _ _ (λ u, bool_decide (u = 0%nat))); [reflexivity| |]|].
    { intros u ->%bool_decide_eq_true. exact I. }
    { intros _. by exists 0%nat. }
    eapply rtc_l; [exists 2%nat; apply st_set_unlock; reflexivity|].
    eapply rtc_l; [exists 0%nat; apply (st_relock _ _ _ Untimed 1 0); reflexivity|].
    eapply rtc_l; [exists 0%nat; apply (st_sleep _ _ _ Untimed 1 0); [reflexivity|discriminate]|].
    apply rtc_refl. }
  split_and!; try reflexivity.
  intros t Ht. cbn. repeat (rewrite fn_lookup_insert_ne by lia).
  destruct (decide (t = 2%nat)) as [->|Hne]; [by rewrite fn_lookup_insert|]. repeat (rewrite fn_lookup_insert_ne by lia). done.
Qed.
