(* ===== verification/CmdSvr.v ===== *)
(** * The command server

    [include/common/util/cmdsvr.h]: a thread that takes commands from a socket and hands them to
    a callback.  Modelled are the reading of a request, a turn of the server, the setting up of
    its socket, its start (which waits until a number of requests were served), and its end.

    A command is a word of a table at the start of the request ([parse_finds_command]); a turn
    closes the connection it took and counts it, whatever comes over it, and calls the callback
    when the request is well formed ([turn_serves]); the start returns after the requests it is
    to wait for ([startup_served]). *)
From stdpp Require Import base numbers list strings.
From Stdlib Require Import ZArith Lia Ascii.
From S2P Require Import Prelude CString Ctx Output.

Definition INT_MAX : Z := 2147483647.
Definition CMDSVR_DEFAULT_FILE : cstr := lit "app.cmd".
Definition CMDSVR_DEFAULT_DIR : cstr := lit "/tmp".
Definition UNIX_PATH_MAX : nat := 108.

(** [util_cmdsvr_cb_ret_t]. *)
Inductive cb_ret := CB_RET_OK | CB_RET_ACK.
#[export] Instance cb_ret_eq_dec : EqDecision cb_ret.
Proof. solve_decision. Defined.

(** [util_cmdsvr_conf_t] with its [util_cmdsvr_req_t].  The buffer has [max_size] characters and
    a NUL after them. *)
Record cmdsvr := mk_cmdsvr {
  cs_limit_threads : Z;
  cs_max_threads_allowed : Z;
  cs_num_startup_requests : Z;
  cs_cmd_strs : option (list cstr);
  cs_min_size : Z;
  cs_max_size : Z;
  cs_cmd : Z;
  cs_buff : option (list ascii);
  cs_size : Z;
  cs_dir : option cstr;
  cs_file : option cstr;
  cs_id : Z;
  cs_sun_path : cstr;
  cs_num_threads : Z;
  cs_listen_fd : Z;
  cs_conn_fd : Z;
}.

Definition set_cs_limit_threads (v : Z) (s : cmdsvr) : cmdsvr :=
  mk_cmdsvr v (cs_max_threads_allowed s) (cs_num_startup_requests s) (cs_cmd_strs s) (cs_min_size s)
    (cs_max_size s) (cs_cmd s) (cs_buff s) (cs_size s) (cs_dir s) (cs_file s) (cs_id s)
    (cs_sun_path s) (cs_num_threads s) (cs_listen_fd s) (cs_conn_fd s).
Definition set_cs_max_threads_allowed (v : Z) (s : cmdsvr) : cmdsvr :=
  mk_cmdsvr (cs_limit_threads s) v (cs_num_startup_requests s) (cs_cmd_strs s) (cs_min_size s)
    (cs_max_size s) (cs_cmd s) (cs_buff s) (cs_size s) (cs_dir s) (cs_file s) (cs_id s)
    (cs_sun_path s) (cs_num_threads s) (cs_listen_fd s) (cs_conn_fd s).
Definition set_cs_num_startup_requests (v : Z) (s : cmdsvr) : cmdsvr :=
  mk_cmdsvr (cs_limit_threads s) (cs_max_threads_allowed s) v (cs_cmd_strs s) (cs_min_size s)
    (cs_max_size s) (cs_cmd s) (cs_buff s) (cs_size s) (cs_dir s) (cs_file s) (cs_id s)
    (cs_sun_path s) (cs_num_threads s) (cs_listen_fd s) (cs_conn_fd s).
Definition set_cs_min_size (v : Z) (s : cmdsvr) : cmdsvr :=
  mk_cmdsvr (cs_limit_threads s) (cs_max_threads_allowed s) (cs_num_startup_requests s)
    (cs_cmd_strs s) v (cs_max_size s) (cs_cmd s) (cs_buff s) (cs_size s) (cs_dir s) (cs_file s)
    (cs_id s) (cs_sun_path s) (cs_num_threads s) (cs_listen_fd s) (cs_conn_fd s).
Definition set_cs_cmd (v : Z) (s : cmdsvr) : cmdsvr :=
  mk_cmdsvr (cs_limit_threads s) (cs_max_threads_allowed s) (cs_num_startup_requests s)
    (cs_cmd_strs s) (cs_min_size s) (cs_max_size s) v (cs_buff s) (cs_size s) (cs_dir s) (cs_file s)
    (cs_id s) (cs_sun_path s) (cs_num_threads s) (cs_listen_fd s) (cs_conn_fd s).
Definition set_cs_buff (v : option (list ascii)) (s : cmdsvr) : cmdsvr :=
  mk_cmdsvr (cs_limit_threads s) (cs_max_threads_allowed s) (cs_num_startup_requests s)
    (cs_cmd_strs s) (cs_min_size s) (cs_max_size s) (cs_cmd s) v (cs_size s) (cs_dir s) (cs_file s)
    (cs_id s) (cs_sun_path s) (cs_num_threads s) (cs_listen_fd s) (cs_conn_fd s).
Definition set_cs_size (v : Z) (s : cmdsvr) : cmdsvr :=
  mk_cmdsvr (cs_limit_threads s) (cs_max_threads_allowed s) (cs_num_startup_requests s)
    (cs_cmd_strs s) (cs_min_size s) (cs_max_size s) (cs_cmd s) (cs_buff s) v (cs_dir s) (cs_file s)
    (cs_id s) (cs_sun_path s) (cs_num_threads s) (cs_listen_fd s) (cs_conn_fd s).
Definition set_cs_dir (v : option cstr) (s : cmdsvr) : cmdsvr :=
  mk_cmdsvr (cs_limit_threads s) (cs_max_threads_allowed s) (cs_num_startup_requests s)
    (cs_cmd_strs s) (cs_min_size s) (cs_max_size s) (cs_cmd s) (cs_buff s) (cs_size s) v (cs_file s)
    (cs_id s) (cs_sun_path s) (cs_num_threads s) (cs_listen_fd s) (cs_conn_fd s).
Definition set_cs_file (v : option cstr) (s : cmdsvr) : cmdsvr :=
  mk_cmdsvr (cs_limit_threads s) (cs_max_threads_allowed s) (cs_num_startup_requests s)
    (cs_cmd_strs s) (cs_min_size s) (cs_max_size s) (cs_cmd s) (cs_buff s) (cs_size s) (cs_dir s) v
    (cs_id s) (cs_sun_path s) (cs_num_threads s) (cs_listen_fd s) (cs_conn_fd s).
Definition set_cs_sun_path (v : cstr) (s : cmdsvr) : cmdsvr :=
  mk_cmdsvr (cs_limit_threads s) (cs_max_threads_allowed s) (cs_num_startup_requests s)
    (cs_cmd_strs s) (cs_min_size s) (cs_max_size s) (cs_cmd s) (cs_buff s) (cs_size s) (cs_dir s)
    (cs_file s) (cs_id s) v (cs_num_threads s) (cs_listen_fd s) (cs_conn_fd s).
Definition set_cs_num_threads (v : Z) (s : cmdsvr) : cmdsvr :=
  mk_cmdsvr (cs_limit_threads s) (cs_max_threads_allowed s) (cs_num_startup_requests s)
    (cs_cmd_strs s) (cs_min_size s) (cs_max_size s) (cs_cmd s) (cs_buff s) (cs_size s) (cs_dir s)
    (cs_file s) (cs_id s) (cs_sun_path s) v (cs_listen_fd s) (cs_conn_fd s).
Definition set_cs_listen_fd (v : Z) (s : cmdsvr) : cmdsvr :=
  mk_cmdsvr (cs_limit_threads s) (cs_max_threads_allowed s) (cs_num_startup_requests s)
    (cs_cmd_strs s) (cs_min_size s) (cs_max_size s) (cs_cmd s) (cs_buff s) (cs_size s) (cs_dir s)
    (cs_file s) (cs_id s) (cs_sun_path s) (cs_num_threads s) v (cs_conn_fd s).
Definition set_cs_conn_fd (v : Z) (s : cmdsvr) : cmdsvr :=
  mk_cmdsvr (cs_limit_threads s) (cs_max_threads_allowed s) (cs_num_startup_requests s)
    (cs_cmd_strs s) (cs_min_size s) (cs_max_size s) (cs_cmd s) (cs_buff s) (cs_size s) (cs_dir s)
    (cs_file s) (cs_id s) (cs_sun_path s) (cs_num_threads s) (cs_listen_fd s) v.

(** [util_cmdsvr_from_env]. *)
Definition util_cmdsvr_from_env (getenv : string → option cstr) (c : cmdsvr) : cmdsvr :=
  let dir := default CMDSVR_DEFAULT_DIR (cs_dir c) in
  let file := default CMDSVR_DEFAULT_FILE (cs_file c) in
  let c := set_cs_dir (Some (util_env_parse_str getenv "CMDDIR" dir)) c in
  let c := set_cs_file (Some (util_env_parse_str getenv "CMDFILE" file)) c in
  let max_threads_allowed := util_env_parse_int getenv "CMD_MAX_THREADS" (-1) in
  let c := if max_threads_allowed =? -1 then c
           else set_cs_limit_threads 1 (set_cs_max_threads_allowed max_threads_allowed c) in
  set_cs_num_startup_requests (util_env_parse_int getenv "CMD_STARTUP_REQS" (cs_num_startup_requests c)) c.

(** ** Requests *)

Definition nul : ascii := ascii_of_N 0.

(** The string in a buffer. *)
Fixpoint until_nul (b : list ascii) : cstr :=
  match b with
  | [] => []
  | c :: b' => if Ascii.eqb c nul then [] else c :: until_nul b'
  end.

(** What ends a command: the end of the string, a newline, a space or a tab. *)
Definition ends_command (rest : cstr) : bool :=
  match rest with
  | [] => true
  | c :: _ => (code c =? 10) || (code c =? 32) || (code c =? 9)
  end.

(** The loop over the commands. *)
Fixpoint find_cmd (strs : list cstr) (i : Z) (s : cstr) : option Z :=
  match strs with
  | [] => None
  | str :: strs' =>
      if starts_with str s && ends_command (drop (length str) s) then Some i else find_cmd strs' (i + 1) s
  end.

(** [util_cmdsvr_parse_req]: what it returns and the command it sets. *)
Definition util_cmdsvr_parse_req (strs : option (list cstr)) (buff : list ascii) : Z * Z :=
  match strs with
  | None => (0, INT_MAX)
  | Some strs =>
      match find_cmd strs 0 (until_nul buff) with
      | Some i => (0, i)
      | None => (-1, INT_MAX)
      end
  end.

(** ** The server *)

Class CmdOs (os : Type) := {
  cmd_malloc : Z → os → bool * os;
  cmd_free : os → os;
  cmd_socket : os → Z * os;
  cmd_bind : Z → cstr → os → Z * os;
  cmd_listen : Z → os → Z * os;
  cmd_sigmask : os → Z * os;
  cmd_accept : Z → os → Z * os;
  cmd_recv : Z → Z → os → Z * list ascii * os;  (** what it returns, and what it received *)
  cmd_send : Z → list ascii → os → Z * os;
  cmd_close : Z → os → os;
  cmd_create : os → Z * os;
  cmd_cancel : os → Z * os;
  cmd_join : os → Z * os;
  cmd_unlink : cstr → os → os;
  cmd_usleep : Z → os → os;
}.

Section CmdSvr.
Context {os : Type} `{cmd_os : CmdOs os}.
Context (cb : cmdsvr → os → cb_ret * (cmdsvr * os)).

Abbreviation P := (prog (cmdsvr * os)).

Definition put (f : cmdsvr → cmdsvr) : P () := modify (λ s, (f s.1, s.2)).
Definition act (f : os → os) : P () := modify (λ s, (s.1, f s.2)).
Definition sys {A} (f : os → A * os) : P A := λ '(c, o), let '(a, o) := f o in Ok a (c, o).

(** The part of [util_cmdsvr_func] before its loop.  The buffer is written before it is
    checked. *)
Definition cmdsvr_setup : P () :=
  max ← gets (λ s, cs_max_size s.1);
  ok ← sys (cmd_malloc (max + 1));
  if negb ok then halt Sigsegv else
  put (set_cs_buff (Some (replicate (Z.to_nat (max + 1)) nul))) ;;
  fd ← sys cmd_socket;
  put (set_cs_listen_fd fd) ;;
  assert (negb (fd =? -1)) ;;
  put (λ c, set_cs_sun_path (take (UNIX_PATH_MAX - 1)
    (default [] (cs_dir c) ++ lit "/" ++ default [] (cs_file c) ++ lit "." ++ dec (cs_id c))) c) ;;
  path ← gets (λ s, cs_sun_path s.1);
  ret ← sys (cmd_bind fd path);
  assert (negb (ret =? -1)) ;;
  ret ← sys (cmd_listen fd);
  assert (negb (ret =? -1)) ;;
  ret ← sys cmd_sigmask;
  assert (ret =? 0).

(** The buffer after [bzero] and a [recv] of [bs]. *)
Definition filled (max : Z) (bs : list ascii) : list ascii :=
  take (Z.to_nat max) (bs ++ replicate (Z.to_nat max) nul) ++ [nul].

(** From the request to the end of the turn, with the connection [fd]. *)
Definition serve (fd : Z) : P () :=
  max ← gets (λ s, cs_max_size s.1);
  '(ret, bs) ← sys (cmd_recv fd max);
  if ret <? 0 then skip else
  put (λ c, set_cs_size ret (set_cs_buff (Some (filled max bs)) c)) ;;
  c ← gets fst;
  if (cs_max_size c <? cs_size c) || (cs_size c <? cs_min_size c) then skip else
  let '(r, cmd) := util_cmdsvr_parse_req (cs_cmd_strs c) (filled max bs) in
  put (set_cs_cmd cmd) ;;
  if r <? 0 then skip else
  cb_ret ← (λ '(c, o), let '(r, s) := cb c o in Ok r s);
  if decide (cb_ret = CB_RET_ACK) then
    c ← gets fst;
    _ ← sys (cmd_send (cs_conn_fd c) (take (Z.to_nat (cs_size c)) (default [] (cs_buff c)))); skip
  else skip.

(** A turn of the loop; it says whether a connection was taken. *)
Definition cmdsvr_turn : P bool :=
  put (λ c, set_cs_buff (Some (replicate (Z.to_nat (cs_max_size c)) nul ++ [nul])) c) ;;
  lfd ← gets (λ s, cs_listen_fd s.1);
  fd ← sys (cmd_accept lfd);
  put (set_cs_conn_fd fd) ;;
  if fd <? 0 then mret false else
  serve fd ;;
  fd ← gets (λ s, cs_conn_fd s.1);
  put (set_cs_conn_fd 0) ;;
  act (cmd_close fd) ;;
  put (λ c, if 0 <? cs_num_startup_requests c
            then set_cs_num_startup_requests (cs_num_startup_requests c - 1) c else c) ;;
  mret true.

(** [n] turns, with the number of connections taken. *)
Fixpoint cmdsvr_turns (n : nat) : P Z :=
  match n with
  | O => mret 0
  | S n' => took ← cmdsvr_turn; k ← cmdsvr_turns n'; mret (k + if (took : bool) then 1 else 0)
  end.

(** [util_cmdsvr_close_child]. *)
Definition util_cmdsvr_close_child : P () :=
  c ← gets fst;
  when (truthy (cs_conn_fd c)) (act (cmd_close (cs_conn_fd c))) ;;
  when (truthy (cs_listen_fd c)) (act (cmd_close (cs_listen_fd c))) ;;
  when (bool_decide (is_Some (cs_buff c))) (act cmd_free).

(** [util_cmdsvr_close]. *)
Definition util_cmdsvr_close : P () :=
  ret ← sys cmd_cancel; assert (ret =? 0) ;;
  ret ← sys cmd_join; assert (ret =? 0) ;;
  util_cmdsvr_close_child ;;
  path ← gets (λ s, cs_sun_path s.1);
  when (bool_decide (path ≠ [])) (act (cmd_unlink path)).

(** Whether there are as many threads as are allowed. *)
Definition max_threads_reached (c : cmdsvr) : bool :=
  truthy (cs_limit_threads c) && (cs_max_threads_allowed c <=? cs_num_threads c).

(** [util_cmdsvr_init] up to the wait: whether the thread was started.  [has_cb] says that the
    configuration has a callback. *)
Definition cmdsvr_start (has_cb : bool) : P bool :=
  c ← gets fst;
  if (cs_num_startup_requests c =? 0) && max_threads_reached c then mret false else
  assert has_cb ;;
  assert (0 <? cs_max_size c) ;;
  put (λ c, if cs_min_size c =? 0 then set_cs_min_size 1 c else c) ;;
  ret ← sys cmd_create;
  assert (ret =? 0) ;;
  put (λ c, set_cs_num_threads (s32 (cs_num_threads c + 1)) c) ;;
  when (cs_num_startup_requests c =? 0) (act (cmd_usleep 2000)) ;;
  mret true.

(** The wait of [util_cmdsvr_init] for the requests at the start.  [sched] says how many turns
    the server makes while the waiting thread sleeps; the result is the number of connections
    taken, or [None] while it still waits. *)
Fixpoint cmdsvr_wait (sched : list nat) : P (option Z) :=
  n ← gets (λ s, cs_num_startup_requests s.1);
  if 0 <? n then
    match sched with
    | [] => mret None
    | turns :: sched' =>
        act (cmd_usleep 100000) ;;
        k ← cmdsvr_turns turns;
        r ← cmdsvr_wait sched';
        mret ((λ k', k + k') <$> r)
    end
  else mret (Some 0).

(** [util_cmdsvr_init]. *)
Definition util_cmdsvr_init (has_cb : bool) (sched : list nat) : P (option Z) :=
  reached ← gets (λ s, max_threads_reached s.1);
  started ← cmdsvr_start has_cb;
  if negb started then mret (Some 0) else
  r ← cmdsvr_wait sched;
  match r with
  | None => mret None
  | Some k => when reached util_cmdsvr_close ;; mret (Some k)
  end.

End CmdSvr.

(** ** Commands *)

Definition plain_char (c : ascii) : Prop := c ≠ nul ∧ (code c =? 10) || (code c =? 32) || (code c =? 9) = false.

Lemma until_nul_app s b : Forall (λ c, c ≠ nul) s → until_nul (s ++ b) = s ++ until_nul b.
Proof.
  induction 1 as [|c s Hc _ IH]; [done|]. cbn [until_nul app]. rewrite (proj2 (Ascii.eqb_neq c nul)) by done. by rewrite IH.
Qed.

Lemma starts_with_app p s : starts_with p (p ++ s) = true.
Proof. induction p as [|c p IH]; cbn; [done|]. by destruct (ascii_dec c c). Qed.

Lemma starts_with_prefix p s : starts_with p s = true → ∃ t, s = p ++ t.
Proof.
  revert s. induction p as [|c p IH]; intros s; [by exists s|]. destruct s as [|d s]; cbn; [done|].
  destruct (ascii_dec c d) as [<-|]; [|done]. intros H. destruct (IH s H) as (t & ->). by exists t.
Qed.

(** Two words that both begin a string, each ended by a character that is in neither, are the
    same. *)
Lemma words_equal w1 w2 r1 r2 :
  Forall plain_char w1 → Forall plain_char w2 → ends_command r1 = true → ends_command r2 = true →
  w1 ++ r1 = w2 ++ r2 → w1 = w2.
Proof.
  revert w2. induction w1 as [|c w1 IH]; intros [|d w2] H1 H2 E1 E2; cbn; [done| | |].
  - intros ->. cbn in E1. apply Forall_cons in H2 as [[_ Hd] _]. congruence.
  - intros <-. cbn in E2. apply Forall_cons in H1 as [[_ Hd] _]. congruence.
  - intros [= <- E]. apply Forall_cons in H1 as [_ H1], H2 as [_ H2]. f_equal. by apply IH.
Qed.

Lemma find_cmd_first strs i k str rest :
  Forall (Forall plain_char) strs → strs !! k = Some str → NoDup strs → ends_command rest = true →
  find_cmd strs i (str ++ rest) = Some (i + Z.of_nat k).
Proof.
  intros Hp. revert i k. induction Hp as [|w strs Hw Hp IH]; intros i k Hk Hn Hr; [done|]. cbn [find_cmd].
  apply NoDup_cons in Hn as [Hnot Hn]. destruct k as [|k]; cbn in Hk.
  - injection Hk as ->. rewrite starts_with_app, drop_app_length, Hr. cbn. f_equal. lia.
  - destruct (starts_with w (str ++ rest) && ends_command (drop (length w) (str ++ rest))) eqn:E.
    + apply andb_true_iff in E as [Es Ee]. apply starts_with_prefix in Es as (t & Et). rewrite Et, drop_app_length in Ee.
      apply list_elem_of_lookup_2 in Hk as Hin. rewrite Forall_forall in Hp.
      destruct Hnot. rewrite (words_equal w str t rest); auto.
    + rewrite (IH (i + 1) k) by done. f_equal. lia.
Qed.

(** A request that begins with command [k] of the table, with its end or a separator after it, is
    command [k], whatever follows. *)
Lemma parse_finds_command strs k str rest b :
  Forall (Forall plain_char) strs → NoDup strs → strs !! k = Some str →
  Forall (λ c, c ≠ nul) rest → ends_command rest = true →
  util_cmdsvr_parse_req (Some strs) (str ++ rest ++ nul :: b) = (0, Z.of_nat k).
Proof.
  intros Hp Hn Hk Hr He. unfold util_cmdsvr_parse_req.
  assert (Forall (λ c, c ≠ nul) str) as Hs.
  { apply list_elem_of_lookup_2 in Hk. rewrite Forall_forall in Hp. eapply Forall_impl; [by apply Hp|]. by intros c []. }
  rewrite until_nul_app, until_nul_app by done. change (until_nul (nul :: b)) with (@nil ascii). rewrite app_nil_r.
  by rewrite (find_cmd_first strs 0 k str rest).
Qed.

(** A request whose first word is not in the table is refused. *)
Lemma parse_refuses strs w rest b :
  Forall (Forall plain_char) strs → Forall plain_char w → w ∉ strs →
  Forall (λ c, c ≠ nul) rest → ends_command rest = true →
  util_cmdsvr_parse_req (Some strs) (w ++ rest ++ nul :: b) = (-1, INT_MAX).
Proof.
  intros Hp Hw Hn Hr He. unfold util_cmdsvr_parse_req.
  assert (Forall (λ c, c ≠ nul) w) as Hw' by (eapply Forall_impl; [exact Hw|]; by intros c []).
  rewrite until_nul_app, until_nul_app by done. change (until_nul (nul :: b)) with (@nil ascii). rewrite app_nil_r.
  assert (find_cmd strs 0 (w ++ rest) = None) as ->; [|done]. generalize 0. induction Hp as [|x strs Hx Hp IH]; intros i; [done|].
  cbn [find_cmd]. apply not_elem_of_cons in Hn as [Hne Hn].
  destruct (starts_with x (w ++ rest) && ends_command (drop (length x) (w ++ rest))) eqn:E; [|by apply IH].
  apply andb_true_iff in E as [Es Ee]. apply starts_with_prefix in Es as (t & Et). rewrite Et, drop_app_length in Ee.
  destruct Hne. by apply (words_equal w x rest t).
Qed.

(** ** Turns *)

Section Turns.
Context {os : Type} `{cmd_os : CmdOs os}.
Context (cb : cmdsvr → os → cb_ret * (cmdsvr * os)).

(** The callback leaves the connection and the number of requests to wait for alone. *)
Definition same_conn (c c' : cmdsvr) : Prop :=
  cs_num_startup_requests c' = cs_num_startup_requests c ∧ cs_conn_fd c' = cs_conn_fd c ∧
  cs_listen_fd c' = cs_listen_fd c.
Context (cb_keeps : ∀ c o, same_conn c (cb c o).2.1).

#[local] Instance same_conn_pre : PreOrder same_conn.
Proof. split; [by split|]. intros c1 c2 c3 (? & ? & ?) (? & ? & ?). unfold same_conn. split_and!; congruence. Qed.

Lemma cmd_sys_run {A} (f : os → A * os) c o : sys f (c, o) = Ok (f o).1 (c, (f o).2).
Proof. unfold sys. by destruct (f o). Qed.

(** The request is served whatever comes over the connection; the callback is called if and only
    if the request has a size in the range and its command is in the table. *)
Lemma serve_run fd c o :
  let '(ret, bs, o1) := cmd_recv fd (cs_max_size c) o in
  let buff := filled (cs_max_size c) bs in
  let c1 := set_cs_size ret (set_cs_buff (Some buff) c) in
  let '(r, cmd) := util_cmdsvr_parse_req (cs_cmd_strs c) buff in
  ∃ c' o', serve cb fd (c, o) = Ok () (c', o') ∧ same_conn c c' ∧
    (if (ret <? 0) || (cs_max_size c <? ret) || (ret <? cs_min_size c) || (r <? 0) then
       o' = o1 ∧ (ret < 0 → c' = c)
     else
       let '(a, (c2, o2)) := cb (set_cs_cmd cmd c1) o1 in
       c' = c2 ∧ (a = CB_RET_OK → o' = o2) ∧
       (a = CB_RET_ACK → o' = (cmd_send (cs_conn_fd c2) (take (Z.to_nat (cs_size c2)) (default [] (cs_buff c2))) o2).2)).
Proof.
  unfold serve. rewrite bind_gets. cbn [fst]. rewrite (bind_Ok _ _ _ _ _ (cmd_sys_run _ c o)).
  destruct (cmd_recv fd (cs_max_size c) o) as [[ret bs] o1]. cbn [fst snd].
  destruct (util_cmdsvr_parse_req (cs_cmd_strs c) (filled (cs_max_size c) bs)) as [r cmd] eqn:Ep.
  destruct (Z.ltb_spec ret 0) as [Hneg|Hpos]; cbn [orb]; [by exists c, o1|].
  unfold put. rewrite bind_modify. cbn [fst snd]. rewrite bind_gets.
  cbn [fst cs_max_size cs_size cs_min_size set_cs_size set_cs_buff cs_cmd_strs]. rewrite Ep.
  destruct ((cs_max_size c <? ret) || (ret <? cs_min_size c)) eqn:Esz; cbn [orb].
  - eexists _, o1. split; [reflexivity|]. split; [by split|]. split; [done|lia].
  - rewrite bind_modify. cbn [fst snd]. destruct (r <? 0).
    + eexists _, o1. split; [reflexivity|]. split; [by split|]. split; [done|lia].
    + set (c1 := set_cs_cmd cmd _). pose proof (cb_keeps c1 o1) as Hk. destruct (cb c1 o1) as [a [c2 o2]] eqn:Ecb.
      rewrite (bind_Ok _ _ _ a (c2, o2)) by (cbn; by rewrite Ecb). cbn [fst snd] in Hk.
      assert (same_conn c c2) by (destruct Hk as (? & ? & ?); by split).
      destruct a; cbn [decide]; destruct (decide _) as [Hd|Hd]; try done.
      * exists c2, o2. by split_and!.
      * rewrite bind_gets. cbn [fst]. rewrite (bind_Ok _ _ _ _ _ (cmd_sys_run _ c2 o2)). eexists c2, _. by split_and!.
Qed.

Lemma serve_keeps fd c o : ∃ c' o', serve cb fd (c, o) = Ok () (c', o') ∧ same_conn c c'.
Proof.
  pose proof (serve_run fd c o) as H. destruct (cmd_recv fd (cs_max_size c) o) as [[ret bs] o1].
  cbv zeta in H. destruct (util_cmdsvr_parse_req (cs_cmd_strs c) (filled (cs_max_size c) bs)) as [r cmd]. destruct H as (c' & o' & E & Hk & _). by exists c', o'.
Qed.

(** A turn: when no connection comes nothing is counted; otherwise the connection is closed at
    the end, and counted, whatever came over it. *)
Lemma turn_serves c o :
  let '(fd, o1) := cmd_accept (cs_listen_fd c) o in
  if fd <? 0 then ∃ c', cmdsvr_turn cb (c, o) = Ok false (c', o1) ∧ cs_num_startup_requests c' = cs_num_startup_requests c
  else ∃ c' o', cmdsvr_turn cb (c, o) = Ok true (c', cmd_close fd o') ∧ cs_conn_fd c' = 0 ∧
    cs_listen_fd c' = cs_listen_fd c ∧
    cs_num_startup_requests c' = if 0 <? cs_num_startup_requests c then cs_num_startup_requests c - 1 else cs_num_startup_requests c.
Proof.
  unfold cmdsvr_turn, put, act. rewrite bind_modify, bind_gets. cbn [fst snd cs_listen_fd set_cs_buff].
  rewrite (bind_Ok _ _ _ _ _ (cmd_sys_run _ _ o)). destruct (cmd_accept (cs_listen_fd c) o) as [fd o1]. cbn [fst snd].
  rewrite bind_modify. cbn [fst snd]. destruct (fd <? 0).
  - eexists. split; [reflexivity|done].
  - set (c1 := set_cs_conn_fd fd _). destruct (serve_keeps fd c1 o1) as (c2 & o2 & E & Hn & Hc & Hl).
    rewrite (bind_Ok _ _ _ _ _ E), bind_gets. cbn [fst]. rewrite Hc. rewrite !bind_modify. cbn [fst snd].
    eexists _, o2. split; [reflexivity|]. cbn [cs_num_startup_requests set_cs_conn_fd]. rewrite Hn.
    change (cs_num_startup_requests c1) with (cs_num_startup_requests c). by destruct (0 <? _).
Qed.

(** Over any number of turns the requests to wait for go down by the connections taken. *)
Lemma turns_count n : ∀ c o,
  ∃ k c' o', cmdsvr_turns cb n (c, o) = Ok k (c', o') ∧ 0 <= k ∧
    (0 <= cs_num_startup_requests c → cs_num_startup_requests c' = Z.max 0 (cs_num_startup_requests c - k)).
Proof.
  induction n as [|n IH]; intros c o.
  - exists 0, c, o. split; [done|]. lia.
  - cbn [cmdsvr_turns]. pose proof (turn_serves c o) as Ht. destruct (cmd_accept (cs_listen_fd c) o) as [fd o1].
    assert (∃ took c1 o1, cmdsvr_turn cb (c, o) = Ok took (c1, o1) ∧
      (0 <= cs_num_startup_requests c → cs_num_startup_requests c1 = Z.max 0 (cs_num_startup_requests c - if (took : bool) then 1 else 0)))
      as (took & c1 & o2 & E & Hn).
    { destruct (fd <? 0).
      - destruct Ht as (c1 & E & Hn). exists false, c1, o1. split; [done|]. lia.
      - destruct Ht as (c1 & o2 & E & _ & _ & Hn). eexists true, c1, _. split; [exact E|]. destruct (Z.ltb_spec 0 (cs_num_startup_requests c)); lia. }
    rewrite (bind_Ok _ _ _ _ _ E). destruct (IH c1 o2) as (k & c' & o' & E' & Hk & Hn'). rewrite (bind_Ok _ _ _ _ _ E').
    eexists _, c', o'. split; [reflexivity|]. destruct took; lia.
Qed.

(** The wait at the start ends when as many connections were taken as there are requests to
    wait for, and not before. *)
Lemma startup_served sched c o :
  0 <= cs_num_startup_requests c →
  ∃ r c' o', cmdsvr_wait cb sched (c, o) = Ok r (c', o') ∧
    match r with
    | Some k => cs_num_startup_requests c <= k ∧ cs_num_startup_requests c' = 0
    | None => 0 < cs_num_startup_requests c'
    end.
Proof.
  revert c o. induction sched as [|turns sched IH]; intros c o Hc; cbn [cmdsvr_wait]; rewrite bind_gets; cbn [fst];
    destruct (Z.ltb_spec 0 (cs_num_startup_requests c)).
  - by exists None, c, o.
  - exists (Some 0), c, o. split; [done|]. lia.
  - unfold act. rewrite bind_modify. cbn [fst snd]. destruct (turns_count turns c (cmd_usleep 100000 o)) as (k & c1 & o1 & E & Hk & Hn).
    rewrite (bind_Ok _ _ _ _ _ E). destruct (IH c1 o1) as (r & c' & o' & E' & Hr); [lia|]. rewrite (bind_Ok _ _ _ _ _ E').
    eexists _, c', o'. split; [reflexivity|]. destruct r as [k'|]; cbn; [lia|done].
  - exists (Some 0), c, o. split; [done|]. lia.
Qed.

End Turns.
