(* ===== verification/UtilStr.v ===== *)
(** * Names, flags and stack hashes

    [include/common/util/stdlib.h], [string.h] and the hash of [stacktrace.h]: the table of
    library functions with the way they block, texts for flags and for the status of a process,
    a hash of strings, and a hash of the stack that is to be the same from run to run although
    addresses are not.

    [stack_hash_ignores_addresses] shows that it is; [stack_hash_is_strhash] what it is a hash
    of.  What the printing functions of [stacktrace.h] print is output only. *)
From stdpp Require Import base numbers list strings.
From Stdlib Require Import ZArith Lia Ascii.
From S2P Require Import Prelude CString.

(** ** The table of library functions *)

Definition STLIB_BLOCK_EXT : Z := 0.
Definition STLIB_BLOCK_INT : Z := 1.
Definition UTIL_STLIB_FLAG (f : Z) : Z := Z.shiftl 1 f.

(** [util_stdlib_t]. *)
Record util_stdlib := mk_stdlib { sl_id : Z; sl_name : cstr; sl_flags : Z }.

Definition EXT : Z := UTIL_STLIB_FLAG STLIB_BLOCK_EXT.
Definition INT : Z := UTIL_STLIB_FLAG STLIB_BLOCK_INT.

(** [_UTIL_STDLIBS_INITIALIZER]: the identifiers are the places. *)
Definition UTIL_STDLIBS : list util_stdlib :=
  imap (λ i '(n, f), mk_stdlib (Z.of_nat i) (lit n) f)
  [ ("accept", EXT); ("accept4", EXT); ("bind", 0); ("brk", 0); ("calloc", 0); ("epoll_create", 0);
    ("epoll_create1", 0); ("epoll_wait", EXT); ("free", 0); ("getsockopt", 0); ("kill", 0); ("listen", 0);
    ("malloc", 0); ("memalign", 0); ("mmap", 0); ("mmap64", 0); ("munmap", 0); ("poll", EXT);
    ("posix_memalign", 0); ("ppoll", EXT); ("pthread_cond_wait", INT); ("pthread_cond_timedwait", INT);
    ("pthread_join", INT); ("read", EXT); ("realloc", 0); ("recv", EXT); ("recvfrom", EXT); ("recvsmg", EXT);
    ("sbrk", 0); ("select", EXT); ("semop", INT); ("semtimedop", INT); ("setsockopt", 0); ("shmat", 0);
    ("shmdt", 0); ("sigsuspend", INT); ("sigtimedwait", INT); ("sigwaitinfo", INT); ("sleep", EXT);
    ("socket", 0); ("usleep", EXT); ("valloc", 0); ("waitpid", INT) ]%string.

Definition NUM_STDLIBS_IDS : nat := 43.

(** [util_stdlib_lookup_by_name]; [None] is NULL. *)
Fixpoint lookup_loop (name : cstr) (arr : list util_stdlib) : option util_stdlib :=
  match arr with
  | [] => None
  | e :: arr' => if bool_decide (name = sl_name e) then Some e else lookup_loop name arr'
  end.
Definition util_stdlib_lookup_by_name (name : cstr) (arr : list util_stdlib) : option util_stdlib :=
  lookup_loop name (take NUM_STDLIBS_IDS arr).

(** ** Texts *)

(** [util_strflags]; the string has at most 31 characters, for the shift of an [int]. *)
Definition dash : ascii := "-"%char.
Definition util_strflags (flags : Z) (str : cstr) : cstr :=
  imap (λ i c, if truthy (Z.land flags (Z.shiftl 1 (Z.of_nat i))) then c else dash) str.

(** [util_stdlib_flags_to_str]. *)
Definition UTIL_STLIB_FLAGS_STR : cstr := lit "ei".
Definition UTIL_STLIB_FLAG_C (F E : Z) : ascii :=
  if truthy (Z.land F (UTIL_STLIB_FLAG E)) then nth (Z.to_nat E) UTIL_STLIB_FLAGS_STR dash else dash.
Definition util_stdlib_flags_to_str (flags : Z) : cstr := UTIL_STLIB_FLAG_C flags <$> [0; 1].

(** The macros of [sys/wait.h] on Linux. *)
Definition WTERMSIG (s : Z) : Z := Z.land s 0x7f.
Definition WEXITSTATUS (s : Z) : Z := Z.shiftr (Z.land s 0xff00) 8.
Definition WIFEXITED (s : Z) : bool := WTERMSIG s =? 0.
Definition WIFSIGNALED (s : Z) : bool := 0 <? Z.shiftr (swrap 8 (Z.land s 0x7f + 1)) 1.
Definition WIFSTOPPED (s : Z) : bool := Z.land s 0xff =? 0x7f.
Definition WSTOPSIG : Z → Z := WEXITSTATUS.
Definition WIFCONTINUED (s : Z) : bool := s =? 0xffff.

(** [util_strwait_status]; the buffer is as it was in no case. *)
Definition util_strwait_status (status : Z) (buff : cstr) : cstr :=
  if WIFEXITED status then lit "exited, status=" ++ dec (WEXITSTATUS status)
  else if WIFSIGNALED status then lit "killed by signal " ++ dec (WTERMSIG status)
  else if WIFSTOPPED status then lit "stopped by signal " ++ dec (WSTOPSIG status)
  else if WIFCONTINUED status then lit "continued"
  else buff.

(** [util_strsigset]: the names of the signals in a set. *)
Definition NSIG : Z := 65.
Definition SIGSET_BUFF : Z := 20 * NSIG.
Section Sigset.
Context (strsignal : Z → cstr) (sigismember : Z → bool).
Definition sigset_step (acc : bool * cstr) (i : Z) : bool * cstr :=
  let '(first, buffer) := acc in
  if sigismember i then (false, (if first then buffer else buffer ++ lit "|") ++ strsignal i) else acc.
Definition util_strsigset : cstr := (foldl sigset_step (true, []) (seqZ 1 (NSIG - 1))).2.
End Sigset.

(** ** Hashes *)

(** A [char] of x86. *)
Definition char_val (c : ascii) : Z := swrap 8 (code c).

(** [util_strhash]: [hash = *s + 31 * hash] in [unsigned long]. *)
Fixpoint util_strhash (hash : Z) (s : cstr) : Z :=
  match s with
  | [] => hash
  | c :: s' => util_strhash (u64 (char_val c + 31 * hash)) s'
  end.

Definition space : ascii := " "%char.

(** [while ((offset >= 0) && (s[offset] != ' ')) offset--;] from [n - 1] on. *)
Fixpoint back_to_space (s : cstr) (n : nat) : Z :=
  match n with
  | O => -1
  | S n' => if bool_decide (nth n' s space = space) then Z.of_nat n' else back_to_space s n'
  end.

(** What is hashed of a frame: the string is cut at its last space, and starts after the space
    before that. *)
Definition frame_text (s : cstr) : cstr :=
  let offset := back_to_space s (length s) in
  if offset <? 0 then s
  else
    let s := take (Z.to_nat offset) s in
    let offset := back_to_space s (length s) in
    if offset <=? 0 then s else drop (Z.to_nat (offset + 1)) s.

(** The frames up to the last one from [i] on that has the name to skip. *)
Fixpoint skip_frames (name : cstr) (frames : list cstr) (i skipped : nat) : nat :=
  match frames with
  | [] => skipped
  | f :: fs => skip_frames name fs (S i) (if contains_str name f then S i else skipped)
  end.

(** [util_stacktrace_hash_gen] for the symbols of the frames. *)
Definition util_stacktrace_hash_gen (strings : option (list cstr)) (skipped_frames : nat) (skip_function_name : option cstr) : Z :=
  match strings with
  | None => 0
  | Some frames =>
      let skipped := match skip_function_name with
                     | None => skipped_frames
                     | Some name => skip_frames name (drop skipped_frames frames) skipped_frames skipped_frames
                     end in
      foldl (λ hash f, util_strhash hash (frame_text f)) 0 (drop skipped frames)
  end.

Definition util_stacktrace_hash (strings : option (list cstr)) : Z := util_stacktrace_hash_gen strings 0 None.
Definition util_stacktrace_hash_skip (strings : option (list cstr)) (name : cstr) : Z :=
  util_stacktrace_hash_gen strings 0 (Some name).

(** ** The table *)

Lemma stdlibs_length : length UTIL_STDLIBS = NUM_STDLIBS_IDS.
Proof. reflexivity. Qed.

(** Each name is found with its own entry, so no name is there twice, and identifiers are places. *)
Lemma stdlib_lookup_finds i e :
  UTIL_STDLIBS !! i = Some e → util_stdlib_lookup_by_name (sl_name e) UTIL_STDLIBS = Some e ∧ sl_id e = Z.of_nat i.
Proof.
  intros H. assert (Forall (λ '(i, e), util_stdlib_lookup_by_name (sl_name e) UTIL_STDLIBS = Some e ∧ sl_id e = Z.of_nat i)
    (imap pair UTIL_STDLIBS)) as Hall by (vm_compute; repeat constructor).
  rewrite Forall_lookup in Hall. apply (Hall i (i, e)). etransitivity; [apply list_lookup_imap|]. by rewrite H.
Qed.

(** The entry of [recvmsg] is not found under its name. *)
Lemma recvmsg_not_found :
  util_stdlib_lookup_by_name (lit "recvmsg") UTIL_STDLIBS = None ∧
  ∃ e, util_stdlib_lookup_by_name (lit "recvsmg") UTIL_STDLIBS = Some e ∧ sl_id e = 27.
Proof. split; [reflexivity|]. eexists. split; reflexivity. Qed.

Lemma flags_to_str_strflags flags : util_stdlib_flags_to_str flags = util_strflags flags UTIL_STLIB_FLAGS_STR.
Proof. reflexivity. Qed.

(** The text of flags shows each of them. *)
Lemma strflags_at flags (str : list ascii) i c :
  0 <= flags → str !! i = Some c → (util_strflags flags str : list ascii) !! i = Some (if Z.testbit flags (Z.of_nat i) then c else dash).
Proof.
  intros Hf Hi. unfold util_strflags. etransitivity; [apply list_lookup_imap|]. rewrite Hi. cbn. f_equal.
  assert (truthy (Z.land flags (Z.shiftl 1 (Z.of_nat i))) = Z.testbit flags (Z.of_nat i)) as ->; [|done].
  rewrite Z.shiftl_1_l. destruct (Z.testbit flags (Z.of_nat i)) eqn:E.
  - apply truthy_true. intros Hz. apply (f_equal (λ z, Z.testbit z (Z.of_nat i))) in Hz.
    rewrite Z.land_spec, E, Z.pow2_bits_true, Z.bits_0 in Hz by lia. done.
  - apply truthy_false. apply Z.bits_inj'. intros j Hj. rewrite Z.land_spec, Z.bits_0, Z.pow2_bits_eqb by lia.
    destruct (Z.eqb_spec (Z.of_nat i) j) as [<-|]; [by rewrite E|apply andb_false_r].
Qed.

Lemma WTERMSIG_mod s : WTERMSIG s = s mod 128.
Proof. unfold WTERMSIG. change 0x7f with (Z.ones 7). by rewrite Z.land_ones. Qed.

Lemma WEXITSTATUS_mod s : WEXITSTATUS s = s / 256 mod 256.
Proof.
  unfold WEXITSTATUS. rewrite Z.shiftr_land. change (Z.shiftr 0xff00 8) with (Z.ones 8).
  rewrite Z.land_ones, Z.shiftr_div_pow2 by lia. done.
Qed.

Lemma WIFSTOPPED_mod s : WIFSTOPPED s = (s mod 256 =? 127).
Proof. unfold WIFSTOPPED. change 0xff with (Z.ones 8). by rewrite Z.land_ones. Qed.

Lemma WIFSIGNALED_mod s : WIFSIGNALED s = (0 <? s mod 128) && (s mod 128 <? 127).
Proof.
  unfold WIFSIGNALED. change (Z.land s 0x7f) with (WTERMSIG s). rewrite WTERMSIG_mod, Z.shiftr_div_pow2 by lia.
  pose proof (Z.mod_pos_bound s 128 ltac:(lia)). change (2 ^ 1) with 2. unfold swrap. change (2 ^ (8 - 1)) with 128. change (2 ^ 8) with 256.
  apply eq_true_iff_eq. rewrite andb_true_iff, !Z.ltb_lt. Z.to_euclidean_division_equations. lia.
Qed.

(** The ways a process can change its state have their own texts: it exits, is killed by a signal
    (with or without a core dump), is stopped, or goes on. *)
Lemma wait_status_texts n buff :
  (0 <= n < 256 → util_strwait_status (256 * n) buff = lit "exited, status=" ++ dec n) ∧
  (0 < n < 127 → util_strwait_status n buff = lit "killed by signal " ++ dec n) ∧
  (0 < n < 127 → util_strwait_status (n + 128) buff = lit "killed by signal " ++ dec n) ∧
  (0 < n < 127 → util_strwait_status (256 * n + 127) buff = lit "stopped by signal " ++ dec n) ∧
  util_strwait_status 0xffff buff = lit "continued".
Proof.
  unfold util_strwait_status, WIFEXITED, WSTOPSIG. rewrite !WTERMSIG_mod, !WEXITSTATUS_mod, !WIFSIGNALED_mod, !WIFSTOPPED_mod.
  split_and!; [intros Hn..|done].
  - replace (256 * n mod 128) with 0 by (Z.to_euclidean_division_equations; lia).
    by replace (256 * n / 256 mod 256) with n by (Z.to_euclidean_division_equations; lia).
  - replace (n mod 128) with n by (Z.to_euclidean_division_equations; lia). rewrite (proj2 (Z.eqb_neq n 0)) by lia.
    by rewrite (proj2 (Z.ltb_lt 0 n)), (proj2 (Z.ltb_lt n 127)) by lia.
  - replace ((n + 128) mod 128) with n by (Z.to_euclidean_division_equations; lia). rewrite (proj2 (Z.eqb_neq n 0)) by lia.
    by rewrite (proj2 (Z.ltb_lt 0 n)), (proj2 (Z.ltb_lt n 127)) by lia.
  - replace ((256 * n + 127) mod 128) with 127 by (Z.to_euclidean_division_equations; lia).
    replace ((256 * n + 127) mod 256) with 127 by (Z.to_euclidean_division_equations; lia). cbn -[dec].
    by replace ((256 * n + 127) / 256 mod 256) with n by (Z.to_euclidean_division_equations; lia).
Qed.

(** ** The hash *)

(** The hash of a string is a polynomial in 31 of its characters. *)
Fixpoint poly31 (h : Z) (s : cstr) : Z :=
  match s with
  | [] => h
  | c :: s' => poly31 (char_val c + 31 * h) s'
  end.

Lemma poly31_mod h h' s : h mod 2 ^ 64 = h' mod 2 ^ 64 → poly31 h s mod 2 ^ 64 = poly31 h' s mod 2 ^ 64.
Proof.
  revert h h'. induction s as [|c s IH]; intros h h' H; cbn [poly31]; [done|]. apply IH.
  rewrite (Z.add_mod (char_val c)), (Z.mul_mod 31) by done. rewrite H. by rewrite <- Z.mul_mod, <- Z.add_mod by done.
Qed.

Lemma strhash_poly h s : 0 <= h < 2 ^ 64 → util_strhash h s = poly31 h s mod 2 ^ 64.
Proof.
  revert h. induction s as [|c s IH]; intros h Hh; cbn [util_strhash poly31]; [by rewrite Z.mod_small|].
  rewrite IH by (apply u64_range). apply poly31_mod. unfold u64, uwrap. by rewrite Z.mod_mod.
Qed.

Lemma strhash_app h s t : util_strhash h (s ++ t) = util_strhash (util_strhash h s) t.
Proof. revert h. induction s as [|c s IH]; intros h; cbn; [done|apply IH]. Qed.

(** *** Frames *)

Lemma back_to_space_app p q :
  space ∉ q → back_to_space (p ++ space :: q) (length (p ++ space :: q)) = Z.of_nat (length p).
Proof.
  intros Hq. rewrite length_app. cbn [length]. assert (∀ k, (k <= length q)%nat →
    back_to_space (p ++ space :: q) (length p + S k) = Z.of_nat (length p)) as H; [|by apply H].
  induction k as [|k IH]; intros Hk; rewrite Nat.add_succ_r; cbn [back_to_space].
  - rewrite Nat.add_0_r, nth_middle. done.
  - rewrite bool_decide_false; [apply IH; lia|]. rewrite app_nth2 by lia.
    replace (length p + S k - length p)%nat with (S k) by lia. cbn [nth]. intros E. apply Hq. rewrite <- E. apply list_elem_of_In, nth_In. lia.
Qed.

Lemma back_to_space_none s : space ∉ s → back_to_space s (length s) = -1.
Proof.
  intros Hs. assert (∀ n, (n <= length s)%nat → back_to_space s n = -1) as H; [|by apply H].
  induction n as [|n IH]; intros Hn; cbn [back_to_space]; [done|]. rewrite bool_decide_false; [apply IH; lia|].
  intros E. apply Hs. rewrite <- E. apply list_elem_of_In, nth_In. lia.
Qed.

(** The text of a frame is the word before its last space: the address that follows does not
    matter. *)
Lemma frame_text_word p w a :
  space ∉ w → space ∉ a → p ≠ [] → frame_text (p ++ space :: w ++ space :: a) = w.
Proof.
  intros Hw Ha Hp. unfold frame_text.
  assert (p ++ space :: w ++ space :: a = (p ++ space :: w) ++ space :: a) as -> by (by rewrite <- app_assoc).
  rewrite back_to_space_app by done. rewrite (proj2 (Z.ltb_ge _ _)) by lia. rewrite Nat2Z.id, take_app_length.
  rewrite back_to_space_app by done. rewrite (proj2 (Z.leb_gt _ _)) by (destruct p; [done|cbn; lia]).
  replace (Z.to_nat (Z.of_nat (length p) + 1)) with (length (p ++ [space])) by (rewrite length_app; cbn; lia).
  replace (p ++ space :: w) with ((p ++ [space]) ++ w) by (by rewrite <- app_assoc). apply drop_app_length.
Qed.

Lemma frame_text_first w a : space ∉ w → space ∉ a → frame_text (w ++ space :: a) = w.
Proof.
  intros Hw Ha. unfold frame_text. rewrite back_to_space_app by done. rewrite (proj2 (Z.ltb_ge _ _)) by lia.
  rewrite Nat2Z.id, take_app_length. by rewrite back_to_space_none.
Qed.

Lemma frame_text_cut s a b : space ∉ a → space ∉ b → frame_text (s ++ space :: a) = frame_text (s ++ space :: b).
Proof.
  intros Ha Hb. unfold frame_text. rewrite !back_to_space_app by done. rewrite (proj2 (Z.ltb_ge _ _)) by lia.
  by rewrite !Nat2Z.id, !take_app_length.
Qed.

(** Two frames that differ in what follows their last space, the return address. *)
Definition same_but_address (f g : cstr) : Prop :=
  ∃ s a b, f = s ++ space :: a ∧ g = s ++ space :: b ∧ space ∉ a ∧ space ∉ b.

(** The hash of the stack is the same for stacks whose frames differ in their addresses only. *)
Lemma stack_hash_ignores_addresses fs gs skipped :
  Forall2 same_but_address fs gs →
  util_stacktrace_hash_gen (Some fs) skipped None = util_stacktrace_hash_gen (Some gs) skipped None.
Proof.
  intros H. cbn. apply (Forall2_drop _ _ _ skipped) in H. generalize 0 as h.
  induction H as [|f g fs' gs' (s & a & b & -> & -> & Ha & Hb) _ IH]; intros h; cbn [foldl]; [done|].
  rewrite (frame_text_cut s a b) by done. apply IH.
Qed.

(** It is the hash of the texts one after the other: where one frame ends and the next begins
    does not count. *)
Lemma stack_hash_is_strhash fs :
  util_stacktrace_hash (Some fs) = util_strhash 0 (concat (frame_text <$> fs)).
Proof.
  unfold util_stacktrace_hash, util_stacktrace_hash_gen. change (drop 0 fs) with fs. generalize 0 as h.
  induction fs as [|f fs IH]; intros h; cbn; [done|]. by rewrite strhash_app, <- IH.
Qed.

(** The hash that skips a function starts after the last frame with its name. *)
Lemma skip_frames_spec name frames i skipped :
  (∀ k f, frames !! k = Some f → contains_str name f = false) ∧ skip_frames name frames i skipped = skipped ∨
  ∃ k f, frames !! k = Some f ∧ contains_str name f = true ∧ skip_frames name frames i skipped = (i + k + 1)%nat ∧
    ∀ k' f', (k < k')%nat → frames !! k' = Some f' → contains_str name f' = false.
Proof.
  revert i skipped. induction frames as [|f frames IH]; intros i skipped; [by left|]. cbn [skip_frames].
  destruct (IH (S i) (if contains_str name f then S i else skipped)) as [[Hn ->]|(k & f' & Hk & Hc & -> & Hl)].
  - destruct (contains_str name f) eqn:E.
    + right. exists 0%nat, f. split_and!; [done|done|lia|]. intros [|k'] f' Hlt Hf'; [lia|by apply (Hn k')].
    + left. split; [|done]. intros [|k] f' Hf'; [by injection Hf' as <-|by apply (Hn k)].
  - right. exists (S k), f'. split_and!; [done|done|lia|]. intros [|k''] f'' Hlt Hf''; [lia|]. apply (Hl k'' f''); [lia|done].
Qed.

(** ** Sets of signals *)

(** With names of at most 19 characters the text and its NUL fit the buffer. *)
Lemma strsigset_fits strsignal sigismember :
  (∀ i, zlen (strsignal i) <= 19) → zlen (util_strsigset strsignal sigismember) + 1 <= SIGSET_BUFF.
Proof.
  intros Hn. unfold util_strsigset, SIGSET_BUFF, NSIG.
  assert (∀ l acc, zlen (foldl (sigset_step strsignal sigismember) acc l).2 <= zlen acc.2 + 20 * zlen l) as H.
  { induction l as [|i l IH]; intros acc; cbn [foldl]; [cbn; lia|]. specialize (IH (sigset_step strsignal sigismember acc i)).
    specialize (Hn i). assert (zlen (sigset_step strsignal sigismember acc i).2 <= zlen acc.2 + 20).
    { unfold sigset_step. destruct acc as [first buffer]. destruct (sigismember i); cbn [snd]; [|lia].
      rewrite length_app. destruct first; rewrite ?length_app; cbn [length lit]; lia. }
    cbn [length]. lia. }
  specialize (H (seqZ 1 (65 - 1)) (true, [])). rewrite length_seqZ in H. cbn [snd length] in H. lia.
Qed.
