(* ===== verification/Shmem.v ===== *)
(** * Shared memory segments

    [include/common/util/shmem.h]: segments of shared memory, made with [shm_open] and [mmap] or
    with the calls of System V, and [util_shmem_share], which moves a range of the memory of the
    process to a new segment.  The memory is that of the process with the objects mapped into it,
    so that an address of a mapping is a place of the object; whether a call succeeds, and where
    the kernel puts a mapping, are the class [ShmOs].

    [share_keeps_data] shows that a range that is shared in place reads as before and is backed
    by the segment; [svipc_error_missed] that a failure of [shmget] goes unnoticed.  The
    identities of [fakeid.h] are at the end. *)
From stdpp Require Import base numbers list.
From Stdlib Require Import ZArith Lia.
From S2P Require Import Prelude Memory CString.

(** The private memory, the contents of the objects, and where objects are mapped: object and
    offset of an address. *)
Record vm := mk_vm { vm_priv : mem; vm_obj : Z → mem; vm_map : Z → option (Z * Z) }.

Definition vm_load (s : vm) (x : Z) : Z :=
  match vm_map s x with Some (id, off) => vm_obj s id off | None => vm_priv s x end.
Definition vm_store (s : vm) (x b : Z) : vm :=
  match vm_map s x with
  | Some (id, off) => mk_vm (vm_priv s) (upd (vm_obj s) id (upd (vm_obj s id) off b)) (vm_map s)
  | None => mk_vm (upd (vm_priv s) x b) (vm_obj s) (vm_map s)
  end.

(** [memcpy] of [n] bytes, one after the other. *)
Fixpoint vm_memcpy (n : nat) (dst src : Z) (s : vm) : vm :=
  match n with
  | O => s
  | S n' => vm_memcpy n' (dst + 1) (src + 1) (vm_store s dst (vm_load s src))
  end.

Definition map_range (a n : Z) (id : Z) (s : vm) : vm :=
  mk_vm (vm_priv s) (vm_obj s) (λ x, if (a <=? x) && (x <? a + n) then Some (id, x - a) else vm_map s x).
Definition unmap_range (a n : Z) (s : vm) : vm :=
  mk_vm (vm_priv s) (vm_obj s) (λ x, if (a <=? x) && (x <? a + n) then None else vm_map s x).

(** [util_shmem_seg_t]. *)
Record shmem_seg := mk_seg { sg_name : cstr; sg_addr : Z; sg_size : Z; sg_id : Z }.
Definition set_sg_addr (v : Z) (g : shmem_seg) : shmem_seg := mk_seg (sg_name g) v (sg_size g) (sg_id g).
Definition set_sg_id (v : Z) (g : shmem_seg) : shmem_seg := mk_seg (sg_name g) (sg_addr g) (sg_size g) v.

Definition MAP_FAILED : Z := -1.
Definition ENOMEM : Z := 12.

(** What the calls return.  [mmap] and [shmat] get the address asked for, or [None]. *)
Class ShmOs (os : Type) := {
  sh_shm_open : cstr → os → Z * os;
  sh_ftruncate : Z → Z → os → Z * os;
  sh_shm_unlink : cstr → os → Z * os;
  sh_mmap : option Z → Z → os → Z * os;
  sh_munmap : Z → Z → os → Z * os;
  sh_shmget : Z → os → Z * os;
  sh_shmat : Z → option Z → os → Z * os;
  sh_shmdt : Z → os → Z * os;
  sh_rmid : Z → os → Z * os;
}.

(** The state: the segment, [errno], the memory and the system. *)
Record shw (os : Type) := mk_shw { sw_seg : shmem_seg; sw_errno : Z; sw_vm : vm; sw_os : os }.
#[global] Arguments mk_shw {os}.
#[global] Arguments sw_seg {os}.
#[global] Arguments sw_errno {os}.
#[global] Arguments sw_vm {os}.
#[global] Arguments sw_os {os}.

Section Shmem.
Context {os : Type} `{shm_os : ShmOs os}.
Context (UTIL_SHMEM_USE_SHM_OPEN : bool).

Abbreviation P := (prog (shw os)).

Definition sys (f : os → Z * os) : P Z := λ s,
  let '(r, o) := f (sw_os s) in Ok r (mk_shw (sw_seg s) (sw_errno s) (sw_vm s) o).
Definition put_seg (f : shmem_seg → shmem_seg) : P () :=
  modify (λ s, mk_shw (f (sw_seg s)) (sw_errno s) (sw_vm s) (sw_os s)).
Definition put_vm (f : vm → vm) : P () :=
  modify (λ s, mk_shw (sw_seg s) (sw_errno s) (f (sw_vm s)) (sw_os s)).
Definition put_errno (e : Z) : P () :=
  modify (λ s, mk_shw (sw_seg s) e (sw_vm s) (sw_os s)).

Definition util_shmem_open_new : P Z :=
  g ← gets sw_seg;
  shmfd ← sys (sh_shm_open (sg_name g));
  if shmfd =? -1 then mret (-1) else
  ret ← sys (sh_ftruncate shmfd (sg_size g));
  if ret =? -1 then _ ← sys (sh_shm_unlink (sg_name g)); mret (-1) else
  put_seg (set_sg_id shmfd) ;; mret 0.

(** The mapping is made in the memory when the call succeeds. *)
Definition util_shmem_open_attach (fixed : Z) : P Z :=
  g ← gets sw_seg;
  addr ← sys (sh_mmap (if truthy fixed then Some (sg_addr g) else None) (sg_size g));
  if addr =? MAP_FAILED then mret (-1) else
  put_vm (map_range addr (sg_size g) (sg_id g)) ;;
  put_seg (set_sg_addr addr) ;; mret 0.

Definition util_shmem_open_detach : P Z :=
  g ← gets sw_seg;
  ret ← sys (sh_munmap (sg_addr g) (sg_size g));
  when (ret =? 0) (put_vm (unmap_range (sg_addr g) (sg_size g))) ;; mret ret.

Definition util_shmem_open_del : P Z :=
  g ← gets sw_seg; sys (sh_shm_unlink (sg_name g)).

(** The comparison is with 1, not with -1. *)
Definition util_shmem_svipc_new : P Z :=
  g ← gets sw_seg;
  shmid ← sys (sh_shmget (sg_size g));
  if shmid =? 1 then mret (-1) else
  put_seg (set_sg_id shmid) ;; mret 0.

Definition util_shmem_svipc_attach (fixed : Z) : P Z :=
  g ← gets sw_seg;
  addr ← sys (sh_shmat (sg_id g) (if truthy fixed then Some (sg_addr g) else None));
  if addr =? -1 then mret (-1) else
  put_vm (map_range addr (sg_size g) (sg_id g)) ;;
  put_seg (set_sg_addr addr) ;; mret 0.

Definition util_shmem_svipc_detach : P Z :=
  g ← gets sw_seg;
  ret ← sys (sh_shmdt (sg_addr g));
  when (ret =? 0) (put_vm (unmap_range (sg_addr g) (sg_size g))) ;; mret ret.

Definition util_shmem_svipc_del : P Z :=
  g ← gets sw_seg; sys (sh_rmid (sg_id g)).

(** The memory is saved in a private mapping, replaced by the segment, and copied back.  The
    result of [mmap] is not looked at. *)
Definition util_shmem_svipc_share (fixed : Z) : P Z :=
  g ← gets sw_seg;
  buff ← sys (sh_mmap None (sg_size g));
  if buff =? MAP_FAILED then halt Sigsegv else
  put_vm (vm_memcpy (Z.to_nat (sg_size g)) buff (sg_addr g)) ;;
  shmid ← sys (sh_shmget (sg_size g));
  if shmid =? 1 then _ ← sys (sh_munmap buff (sg_size g)); mret (-1) else
  addr ← sys (sh_shmat shmid (Some (sg_addr g)));
  if negb (addr =? sg_addr g) then _ ← sys (sh_munmap buff (sg_size g)); mret (-1) else
  put_vm (map_range addr (sg_size g) shmid) ;;
  put_vm (vm_memcpy (Z.to_nat (sg_size g)) addr buff) ;;
  _ ← sys (sh_munmap buff (sg_size g));
  put_seg (λ g, set_sg_id shmid (set_sg_addr addr g)) ;; mret 0.

Definition util_shmem_svipc_unshare : P Z :=
  g ← gets sw_seg; sys (sh_shmdt (sg_addr g)).

(** The interface. *)
Definition util_shmem_new : P Z := if UTIL_SHMEM_USE_SHM_OPEN then util_shmem_open_new else util_shmem_svipc_new.
Definition util_shmem_attach (fixed : Z) : P Z :=
  if UTIL_SHMEM_USE_SHM_OPEN then util_shmem_open_attach fixed else util_shmem_svipc_attach fixed.
Definition util_shmem_detach : P Z := if UTIL_SHMEM_USE_SHM_OPEN then util_shmem_open_detach else util_shmem_svipc_detach.
Definition util_shmem_del : P Z := if UTIL_SHMEM_USE_SHM_OPEN then util_shmem_open_del else util_shmem_svipc_del.

Definition util_shmem_share (attach fixed : Z) : P Z :=
  addr ← gets (λ s, sg_addr (sw_seg s));
  ret ← util_shmem_new;
  if truthy ret then mret ret else
  ret ← util_shmem_attach 0;
  if truthy ret then _ ← util_shmem_del; put_errno ENOMEM ;; mret (-1) else
  g ← gets sw_seg;
  put_vm (vm_memcpy (Z.to_nat (sg_size g)) (sg_addr g) addr) ;;
  if negb (truthy attach) then _ ← util_shmem_detach; mret 0 else
  if truthy fixed then
    _ ← util_shmem_detach;
    put_seg (set_sg_addr addr) ;;
    ret ← util_shmem_attach 1;
    if truthy ret then _ ← util_shmem_del; put_errno ENOMEM ;; mret (-1) else mret 0
  else mret 0.

End Shmem.

(** ** Copies *)

Lemma vm_store_map s x b : vm_map (vm_store s x b) = vm_map s.
Proof. unfold vm_store. by destruct (vm_map s x) as [[]|]. Qed.

(** A copy from memory that is not mapped to a mapping: the object holds the bytes, the source is
    as it was. *)
Lemma vm_memcpy_to n id : ∀ k dst src s,
  (∀ i, 0 <= i < Z.of_nat n → vm_map s (dst + i) = Some (id, k + i)) →
  (∀ i, 0 <= i < Z.of_nat n → vm_map s (src + i) = None) →
  let s' := vm_memcpy n dst src s in
  vm_map s' = vm_map s ∧ vm_priv s' = vm_priv s ∧ (∀ id', id' ≠ id → vm_obj s' id' = vm_obj s id') ∧
  ∀ off, vm_obj s' id off = if (k <=? off) && (off <? k + Z.of_nat n) then vm_priv s (src + (off - k)) else vm_obj s id off.
Proof.
  induction n as [|n IH]; intros k dst src s Hd Hs; cbn [vm_memcpy].
  - split_and!; try done. intros off. by destruct (Z.leb_spec k off), (Z.ltb_spec off (k + Z.of_nat 0)); try lia.
  - pose proof (Hd 0 ltac:(lia)) as Hd0. pose proof (Hs 0 ltac:(lia)) as Hs0. rewrite Z.add_0_r in Hd0, Hs0.
    set (s1 := vm_store s dst (vm_load s src)).
    assert (vm_map s1 = vm_map s) as Em by apply vm_store_map.
    destruct (IH (k + 1) (dst + 1) (src + 1) s1) as (E1 & E2 & E3 & E4).
    { intros i Hi. rewrite Em. replace (dst + 1 + i) with (dst + (1 + i)) by lia. rewrite Hd by lia. do 2 f_equal. lia. }
    { intros i Hi. rewrite Em. replace (src + 1 + i) with (src + (1 + i)) by lia. apply Hs. lia. }
    assert (vm_priv s1 = vm_priv s ∧ vm_obj s1 = upd (vm_obj s) id (upd (vm_obj s id) k (vm_priv s src))) as [Ep Eo].
    { subst s1. unfold vm_store, vm_load. rewrite Hd0, Hs0. rewrite Z.add_0_r. done. }
    split_and!; [by rewrite E1|by rewrite E2| |].
    + intros id' Hne. rewrite E3, Eo by done. by apply upd_ne.
    + intros off. rewrite E4, Eo, Ep, upd_eq. destruct (Z.eqb_spec off k) as [->|Hne].
      * rewrite upd_eq. replace (src + (k - k)) with src by lia.
        by destruct (Z.leb_spec (k + 1) k), (Z.leb_spec k k), (Z.ltb_spec k (k + Z.of_nat (S n))); try lia.
      * rewrite upd_ne by done. replace (src + 1 + (off - (k + 1))) with (src + (off - k)) by lia.
        destruct (Z.leb_spec (k + 1) off), (Z.ltb_spec off (k + 1 + Z.of_nat n)), (Z.leb_spec k off),
          (Z.ltb_spec off (k + Z.of_nat (S n))); try lia; done.
Qed.

(** A copy between ranges that are not mapped and do not overlap. *)
Lemma vm_memcpy_priv n : ∀ dst src s,
  (∀ i, 0 <= i < Z.of_nat n → vm_map s (dst + i) = None ∧ vm_map s (src + i) = None ∧ ¬ in_block dst (Z.of_nat n) (src + i)) →
  let s' := vm_memcpy n dst src s in
  vm_map s' = vm_map s ∧ vm_obj s' = vm_obj s ∧
  ∀ x, vm_priv s' x = if bool_decide (in_block dst (Z.of_nat n) x) then vm_priv s (src + (x - dst)) else vm_priv s x.
Proof.
  induction n as [|n IH]; intros dst src s H; cbn [vm_memcpy].
  - split_and!; try done. intros x. rewrite bool_decide_false; [done|]. unfold in_block. lia.
  - destruct (H 0 ltac:(lia)) as (Hd0 & Hs0 & Hb0). rewrite Z.add_0_r in Hd0, Hs0, Hb0.
    set (s1 := vm_store s dst (vm_load s src)).
    assert (s1 = mk_vm (upd (vm_priv s) dst (vm_priv s src)) (vm_obj s) (vm_map s)) as E1.
    { subst s1. unfold vm_store, vm_load. by rewrite Hd0, Hs0. }
    destruct (IH (dst + 1) (src + 1) s1) as (Em & Eo & Ep).
    { intros i Hi. destruct (H (1 + i) ltac:(lia)) as (Hd & Hs & Hb). rewrite E1. cbn [vm_map].
      replace (dst + 1 + i) with (dst + (1 + i)) by lia. replace (src + 1 + i) with (src + (1 + i)) by lia.
      split_and!; [done|done|]. unfold in_block in *. lia. }
    rewrite E1 in Em, Eo, Ep. cbn [vm_map vm_obj vm_priv] in Em, Eo, Ep. rewrite E1. split_and!; [done|done|].
    intros x. rewrite Ep. case_bool_decide as Hx.
    + rewrite bool_decide_true by (unfold in_block in *; lia). rewrite upd_ne.
      * f_equal. lia.
      * intros E. destruct (H (x - dst) ltac:(unfold in_block in Hx; lia)) as (_ & _ & Hb). apply Hb. unfold in_block in *. lia.
    + destruct (decide (x = dst)) as [->|Hne].
      * rewrite upd_eq, bool_decide_true by (unfold in_block in *; lia). f_equal. lia.
      * rewrite upd_ne by done. rewrite bool_decide_false by (unfold in_block in *; lia). done.
Qed.

(** ** Sharing *)

Section Share.
Context {os : Type} `{shm_os : ShmOs os}.

Lemma sys_run (f : os → Z * os) g e v o : sys f (mk_shw g e v o) = Ok (f o).1 (mk_shw g e v (f o).2).
Proof. unfold sys. cbn. by destruct (f o). Qed.

(** The calls succeed: the segment gets the descriptor [id], is mapped at [t] where no address
    is asked for, and where it is asked for otherwise. *)
Context (id t : Z).
Context (open_ok : ∀ n (o : os), (sh_shm_open n o).1 = id) (id_ok : id ≠ -1).
Context (ftruncate_ok : ∀ d n (o : os), (sh_ftruncate d n o).1 = 0).
Context (mmap_ok : ∀ a n (o : os), (sh_mmap a n o).1 = default t a) (t_ok : t ≠ -1).
Context (munmap_ok : ∀ a n (o : os), (sh_munmap a n o).1 = 0).

Lemma open_new_run g e v o :
  ∃ o', util_shmem_open_new (mk_shw g e v o) = Ok 0 (mk_shw (set_sg_id id g) e v o').
Proof.
  unfold util_shmem_open_new. rewrite bind_gets. cbn [sw_seg]. rewrite (bind_Ok _ _ _ _ _ (sys_run _ g e v o)), open_ok.
  rewrite (proj2 (Z.eqb_neq id (-1))) by done. rewrite (bind_Ok _ _ _ _ _ (sys_run _ g e v _)), ftruncate_ok. cbn -[sh_ftruncate].
  eexists. reflexivity.
Qed.

Lemma open_attach_run fixed g e v o :
  let a := if truthy fixed then sg_addr g else t in
  a ≠ -1 →
  ∃ o', util_shmem_open_attach fixed (mk_shw g e v o)
        = Ok 0 (mk_shw (set_sg_addr a g) e (map_range a (sg_size g) (sg_id g) v) o').
Proof.
  intros a Ha. unfold util_shmem_open_attach. rewrite bind_gets. cbn [sw_seg].
  rewrite (bind_Ok _ _ _ _ _ (sys_run _ g e v o)), mmap_ok.
  assert (default t (if truthy fixed then Some (sg_addr g) else None) = a) as -> by (subst a; by destruct (truthy fixed)).
  rewrite (proj2 (Z.eqb_neq a MAP_FAILED)) by done. unfold put_vm, put_seg. rewrite !bind_modify. eexists. reflexivity.
Qed.

Lemma open_detach_run g e v o :
  ∃ o', util_shmem_open_detach (mk_shw g e v o) = Ok 0 (mk_shw g e (unmap_range (sg_addr g) (sg_size g) v) o').
Proof.
  unfold util_shmem_open_detach. rewrite bind_gets. cbn [sw_seg]. rewrite (bind_Ok _ _ _ _ _ (sys_run _ g e v o)), munmap_ok.
  eexists. reflexivity.
Qed.

(** A range that is not mapped, away from where the kernel puts the segment. *)
Definition private_range (g : shmem_seg) (v : vm) : Prop :=
  0 <= sg_size g ∧ sg_addr g ≠ -1 ∧
  (∀ i, 0 <= i < sg_size g → vm_map v (sg_addr g + i) = None ∧ ¬ in_block t (sg_size g) (sg_addr g + i)).

(** The memory after the copy of the range to the segment mapped at [t]. *)
Lemma copy_to_segment g v :
  private_range g v →
  let v' := vm_memcpy (Z.to_nat (sg_size g)) t (sg_addr g) (map_range t (sg_size g) id v) in
  vm_map v' = vm_map (map_range t (sg_size g) id v) ∧ vm_priv v' = vm_priv v ∧
  ∀ i, 0 <= i < sg_size g → vm_obj v' id i = vm_load v (sg_addr g + i).
Proof.
  intros (Hn & _ & Hp). cbv zeta. set (v1 := map_range t (sg_size g) id v).
  destruct (vm_memcpy_to (Z.to_nat (sg_size g)) id 0 t (sg_addr g) v1) as (E1 & E2 & _ & E4).
  - intros i Hi. subst v1. cbn. rewrite (proj2 (Z.leb_le _ _)), (proj2 (Z.ltb_lt _ _)) by lia. cbn. do 2 f_equal. lia.
  - intros i Hi. destruct (Hp i ltac:(lia)) as [Hm Hd]. subst v1. cbn. unfold in_block in Hd.
    destruct (Z.leb_spec t (sg_addr g + i)), (Z.ltb_spec (sg_addr g + i) (t + sg_size g)); cbn; done || lia.
  - split_and!; [done|done|]. intros i Hi. rewrite E4. rewrite (proj2 (Z.leb_le _ _)), (proj2 (Z.ltb_lt _ _)) by lia. cbn.
    unfold vm_load. destruct (Hp i Hi) as [-> _]. f_equal. lia.
Qed.

(** Sharing a range in place: it returns 0, the segment is at the same address, each byte reads
    as before, and each is now backed by the segment. *)
Lemma share_keeps_data g e v o :
  private_range g v →
  ∃ s', util_shmem_share true 1 1 (mk_shw g e v o) = Ok 0 s' ∧ sg_addr (sw_seg s') = sg_addr g ∧ sg_id (sw_seg s') = id ∧
    ∀ i, 0 <= i < sg_size g →
      vm_load (sw_vm s') (sg_addr g + i) = vm_load v (sg_addr g + i) ∧
      vm_map (sw_vm s') (sg_addr g + i) = Some (id, i) ∧ vm_obj (sw_vm s') id i = vm_load v (sg_addr g + i).
Proof.
  intros Hp. pose proof (copy_to_segment g v Hp) as (_ & _ & Ho). pose proof Hp as (Hn & Ha & _).
  unfold util_shmem_share, util_shmem_new, util_shmem_attach, util_shmem_detach. rewrite bind_gets. cbn [sw_seg].
  destruct (open_new_run g e v o) as (o1 & E1). rewrite (bind_Ok _ _ _ _ _ E1). cbn [truthy Z.eqb negb].
  destruct (open_attach_run 0 (set_sg_id id g) e v o1 t_ok) as (o2 & E2). rewrite (bind_Ok _ _ _ _ _ E2).
  cbn [truthy Z.eqb negb sg_size sg_id set_sg_id]. rewrite bind_gets. cbn [sw_seg sg_size sg_addr set_sg_addr set_sg_id].
  unfold put_vm at 1. rewrite bind_modify. cbn [sw_seg sw_errno sw_vm sw_os].
  set (v2 := vm_memcpy _ _ _ _) in *.
  edestruct (open_detach_run (set_sg_addr t (set_sg_id id g)) e v2 o2) as (o3 & E3). rewrite (bind_Ok _ _ _ _ _ E3).
  cbn [sg_addr sg_size set_sg_addr set_sg_id]. unfold put_seg at 1. rewrite bind_modify. cbn [sw_seg sw_errno sw_vm sw_os].
  edestruct (open_attach_run 1 (set_sg_addr (sg_addr g) (set_sg_addr t (set_sg_id id g))) e (unmap_range t (sg_size g) v2) o3 Ha) as (o4 & E4).
  rewrite (bind_Ok _ _ _ _ _ E4). eexists. split; [reflexivity|]. split; [done|]. split; [done|]. intros i Hi.
  cbn [sw_vm truthy Z.eqb negb sg_addr sg_size sg_id set_sg_addr set_sg_id]. unfold vm_load at 1. cbn [vm_map map_range vm_obj].
  rewrite (proj2 (Z.leb_le _ _)), (proj2 (Z.ltb_lt _ _)) by lia. cbn [andb].
  replace (sg_addr g + i - sg_addr g) with i by lia. cbn [unmap_range vm_obj]. by rewrite Ho.
Qed.

(** Without attaching, the segment has the data and the memory of the process is as before. *)
Lemma share_copies g e v o :
  private_range g v → (∀ i, 0 <= i < sg_size g → vm_map v (t + i) = None) →
  ∃ s', util_shmem_share true 0 0 (mk_shw g e v o) = Ok 0 s' ∧ sg_id (sw_seg s') = id ∧
    vm_priv (sw_vm s') = vm_priv v ∧ (∀ x, vm_map (sw_vm s') x = vm_map v x) ∧
    ∀ i, 0 <= i < sg_size g → vm_obj (sw_vm s') id i = vm_load v (sg_addr g + i).
Proof.
  intros Hp Ht. pose proof (copy_to_segment g v Hp) as (Hm & Hpr & Ho). pose proof Hp as (Hn & Ha & _).
  unfold util_shmem_share, util_shmem_new, util_shmem_attach, util_shmem_detach. rewrite bind_gets. cbn [sw_seg].
  destruct (open_new_run g e v o) as (o1 & E1). rewrite (bind_Ok _ _ _ _ _ E1). cbn [truthy Z.eqb negb].
  destruct (open_attach_run 0 (set_sg_id id g) e v o1 t_ok) as (o2 & E2). rewrite (bind_Ok _ _ _ _ _ E2).
  cbn [truthy Z.eqb negb sg_size sg_id set_sg_id]. rewrite bind_gets. cbn [sw_seg sg_size sg_addr set_sg_addr set_sg_id].
  unfold put_vm at 1. rewrite bind_modify. cbn [sw_seg sw_errno sw_vm sw_os].
  set (v2 := vm_memcpy _ _ _ _) in *.
  edestruct (open_detach_run (set_sg_addr t (set_sg_id id g)) e v2 o2) as (o3 & E3). rewrite (bind_Ok _ _ _ _ _ E3).
  eexists. split; [reflexivity|]. split; [done|]. cbn [sw_vm]. split; [done|]. split; [|done].
  intros x. cbn [unmap_range vm_map sg_addr sg_size set_sg_addr set_sg_id]. rewrite Hm. cbn [map_range vm_map].
  destruct ((t <=? x) && (x <? t + sg_size g)) eqn:E; [|done]. apply andb_true_iff in E as [E1'%Z.leb_le E2'%Z.ltb_lt].
  replace x with (t + (x - t)) by lia. symmetry. apply Ht. lia.
Qed.

End Share.

(** Sharing in place with the calls of System V: each byte reads as before and is backed by the
    segment. *)
Lemma svipc_share_keeps_data {os} `{ShmOs os} (t id : Z) (g : shmem_seg) fixed e v (o : os) :
  (∀ n (o : os), (sh_mmap None n o).1 = t) → t ≠ -1 → (∀ n (o : os), (sh_shmget n o).1 = id) → id ≠ 1 →
  (∀ d a (o : os), (sh_shmat d (Some a) o).1 = a) →
  private_range t g v → (∀ i, 0 <= i < sg_size g → vm_map v (t + i) = None) →
  ∃ s', util_shmem_svipc_share fixed (mk_shw g e v o) = Ok 0 s' ∧ sg_id (sw_seg s') = id ∧
    ∀ i, 0 <= i < sg_size g →
      vm_load (sw_vm s') (sg_addr g + i) = vm_load v (sg_addr g + i) ∧ vm_map (sw_vm s') (sg_addr g + i) = Some (id, i).
Proof.
  intros Ht Htok Hid Hidok Hat (Hn & Ha & Hp) Hb. unfold util_shmem_svipc_share. rewrite bind_gets. cbn [sw_seg].
  rewrite (bind_Ok _ _ _ _ _ (sys_run _ g e v o)), Ht, (proj2 (Z.eqb_neq t MAP_FAILED)) by done.
  unfold put_vm, put_seg. rewrite bind_modify. cbn [sw_seg sw_errno sw_vm sw_os].
  rewrite (bind_Ok _ _ _ _ _ (sys_run _ g e _ _)), Hid, (proj2 (Z.eqb_neq id 1)) by done.
  rewrite (bind_Ok _ _ _ _ _ (sys_run _ g e _ _)), Hat, Z.eqb_refl. cbn [negb]. rewrite !bind_modify. cbn [sw_seg sw_errno sw_vm sw_os].
  rewrite (bind_Ok _ _ _ _ _ (sys_run _ g e _ _)), bind_modify. cbn [sw_seg sw_errno sw_vm sw_os].
  eexists. split; [reflexivity|]. split; [done|]. cbn [sw_vm]. set (n := Z.to_nat (sg_size g)).
  destruct (vm_memcpy_priv n t (sg_addr g) v) as (Em & Eo & Ep).
  { intros i Hi. destruct (Hp i ltac:(lia)) as [H1 H2]. split_and!; [apply Hb; lia|done|]. subst n. rewrite Z2Nat.id by lia. done. }
  set (v1 := vm_memcpy n t (sg_addr g) v) in *. set (v2 := map_range (sg_addr g) (sg_size g) id v1).
  destruct (vm_memcpy_to n id 0 (sg_addr g) t v2) as (Em' & _ & _ & Eo').
  { intros i Hi. subst v2. cbn. rewrite (proj2 (Z.leb_le _ _)), (proj2 (Z.ltb_lt _ _)) by lia. cbn. do 2 f_equal. lia. }
  { intros i Hi. subst v2. cbn. destruct (Z.leb_spec (sg_addr g) (t + i)), (Z.ltb_spec (t + i) (sg_addr g + sg_size g)); cbn;
      try (rewrite Em; apply Hb; lia).
    destruct (Hp (t + i - sg_addr g) ltac:(lia)) as [_ Hd]. destruct Hd. unfold in_block. lia. }
  intros i Hi. assert (vm_map (vm_memcpy n (sg_addr g) t v2) (sg_addr g + i) = Some (id, i)) as Hmap.
  { rewrite Em'. subst v2. cbn. rewrite (proj2 (Z.leb_le _ _)), (proj2 (Z.ltb_lt _ _)) by lia. cbn. do 2 f_equal. lia. }
  split; [|done]. unfold vm_load at 1. rewrite Hmap, Eo'. subst n.
  rewrite (proj2 (Z.leb_le _ _)), (proj2 (Z.ltb_lt _ _)) by lia. cbn [andb]. change (vm_priv v2) with (vm_priv v1).
  rewrite Ep, bool_decide_true by (unfold in_block; lia). unfold vm_load. destruct (Hp i Hi) as [-> _]. f_equal. lia.
Qed.

(** A failure of [shmget] is not seen: the segment gets the identifier -1 and the call returns 0;
    and the identifier 1 counts as a failure. *)
Lemma svipc_error_missed {os} `{ShmOs os} (g : shmem_seg) e v (o : os) :
  ((sh_shmget (sg_size g) o).1 = -1 → ∃ s', util_shmem_svipc_new (mk_shw g e v o) = Ok 0 s' ∧ sg_id (sw_seg s') = -1) ∧
  ((sh_shmget (sg_size g) o).1 = 1 → ∃ s', util_shmem_svipc_new (mk_shw g e v o) = Ok (-1) s').
Proof.
  unfold util_shmem_svipc_new. rewrite bind_gets. cbn [sw_seg]. rewrite (bind_Ok _ _ _ _ _ (sys_run _ g e v o)).
  split; intros ->; eexists; [split|]; reflexivity.
Qed.

(** ** Identities of [fakeid.h] *)

(** The four variables, which start at 0. *)
Record fakeid := mk_fakeid { fk_gid : Z; fk_egid : Z; fk_uid : Z; fk_euid : Z }.
Definition fakeid0 : fakeid := mk_fakeid 0 0 0 0.

(** The getters return the variables. *)
Definition fakeid_setuid (v : Z) : prog fakeid Z := modify (λ f, mk_fakeid (fk_gid f) (fk_egid f) v (fk_euid f)) ;; mret 0.
Definition fakeid_seteuid (v : Z) : prog fakeid Z := modify (λ f, mk_fakeid (fk_gid f) (fk_egid f) (fk_uid f) v) ;; mret 0.
Definition fakeid_setgid (v : Z) : prog fakeid Z := modify (λ f, mk_fakeid v (fk_egid f) (fk_uid f) (fk_euid f)) ;; mret 0.
Definition fakeid_setegid (v : Z) : prog fakeid Z := modify (λ f, mk_fakeid (fk_gid f) v (fk_uid f) (fk_euid f)) ;; mret 0.
