(* ===== verification/Mprotect.v ===== *)
(** * Checkpointing with page protection

    [ltckpt/mechanisms/mprotect]: at a checkpoint the pages of the process are write
    protected; the first store to a page faults, and the handler saves the page before it
    makes it writable again ([ltckpt_mprotect.c]).  Also the wrappers that touch the
    buffers of system calls beforehand, since the kernel does not fault into the handler
    ([mprotect_overrides.c]).

    The kernel is the class [VMem] of [Common] with the observation [page_writable], the
    process map of [ProcMaps], and the class [SignalCalls]. *)
From stdpp Require Import base numbers list sets strings.
From Stdlib Require Import ZArith Lia.
From S2P Require Import Prelude Memory CString Ctx Profiling Writelog Common ProcMaps.

(** ** State *)

Definition MPROTECT_MAX_PAGES : Z := 1000.

(** [mpr_page_t]: the page and the place of its copy. *)
Record mpr_page := mk_page { pg_addr : Z; pg_mem : Z }.

(** The statics of the mechanism: [mpr], the fields of the [mpr_t] it points to, the
    context in it, and the memory of the process, where the array [mem] of [mpr_t] is. *)
Record mprs := mk_mprs {
  mp_mem : mem;
  mpr : Z;
  mp_pages : Z → mpr_page;
  num_pages : Z;
  iter_pages : Z → mpr_page;
  num_iter_pages : Z;
  num_mem_pages : Z;
  proc_maps : list map_entry;
  mp_ctx : ltckpt_ctx;
}.

Definition set_mp_mem (v : mem) (s : mprs) : mprs :=
  mk_mprs v (mpr s) (mp_pages s) (num_pages s) (iter_pages s) (num_iter_pages s)
    (num_mem_pages s) (proc_maps s) (mp_ctx s).
Definition set_mp_pages (v : Z → mpr_page) (s : mprs) : mprs :=
  mk_mprs (mp_mem s) (mpr s) v (num_pages s) (iter_pages s) (num_iter_pages s)
    (num_mem_pages s) (proc_maps s) (mp_ctx s).
Definition set_num_pages (v : Z) (s : mprs) : mprs :=
  mk_mprs (mp_mem s) (mpr s) (mp_pages s) v (iter_pages s) (num_iter_pages s)
    (num_mem_pages s) (proc_maps s) (mp_ctx s).
Definition set_iter_pages (v : Z → mpr_page) (s : mprs) : mprs :=
  mk_mprs (mp_mem s) (mpr s) (mp_pages s) (num_pages s) v (num_iter_pages s)
    (num_mem_pages s) (proc_maps s) (mp_ctx s).
Definition set_num_iter_pages (v : Z) (s : mprs) : mprs :=
  mk_mprs (mp_mem s) (mpr s) (mp_pages s) (num_pages s) (iter_pages s) v
    (num_mem_pages s) (proc_maps s) (mp_ctx s).
Definition set_num_mem_pages (v : Z) (s : mprs) : mprs :=
  mk_mprs (mp_mem s) (mpr s) (mp_pages s) (num_pages s) (iter_pages s) (num_iter_pages s)
    v (proc_maps s) (mp_ctx s).
Definition set_proc_maps (v : list map_entry) (s : mprs) : mprs :=
  mk_mprs (mp_mem s) (mpr s) (mp_pages s) (num_pages s) (iter_pages s) (num_iter_pages s)
    (num_mem_pages s) v (mp_ctx s).
Definition set_mp_ctx (v : ltckpt_ctx) (s : mprs) : mprs :=
  mk_mprs (mp_mem s) (mpr s) (mp_pages s) (num_pages s) (iter_pages s) (num_iter_pages s)
    (num_mem_pages s) (proc_maps s) v.

(** The layout of [mpr_t] on x86-64: two arrays of 1000 pairs of pointers, each with an
    [unsigned long] counter, come before [mem]; after it a counter, the process map (16
    bytes) and the context (144 bytes). *)
Definition mpr_mem_offset : Z := 2 * (MPROTECT_MAX_PAGES * 16 + 8).
Definition sizeof_mpr : Z := mpr_mem_offset + MPROTECT_MAX_PAGES * PAGE_SIZE + 8 + 16 + 144.

(** The address of [mpr->mem]. *)
Definition mem_array (s : mprs) : Z := mpr s + mpr_mem_offset.

(** A fresh [mpr_t] at [base]: anonymous memory is zeroed. *)
Definition fresh_mpr (base : Z) (s : mprs) : mprs :=
  mk_mprs (mp_mem s) base (λ _, mk_page 0 0) 0 (λ _, mk_page 0 0) 0 0 [] (mp_ctx s).

(** The signal calls. *)
Class SignalCalls (os : Type) := {
  pthread_sigmask_segv : os → Z * os;
  sigaction_segv : os → Z * os;
}.

Section Mprotect.
Context {os : Type} `{vmem : VMem os} `{procfs : ProcFs os} `{sigcalls : SignalCalls os}.

(** The addresses [ltcpt_is_checkpointed_vma] compares with. *)
Context (tls_addr heap_addr data_addr : Z).

(** Whether the processor lets the program write to a page (given by its number). *)
Context (page_writable : os → Z → bool).

Local Abbreviation P := (prog (mprs * os)).

Definition getm {A} (f : mprs → A) : P A := gets (λ s, f s.1).
Definition putm (f : mprs → mprs) : P () := modify (λ s, (f s.1, s.2)).
Definition sysm {A} (f : os → A * os) : P A := λ s, let '(r, o) := f s.2 in Ok r (s.1, o).

(** ** The list of saved pages *)

Definition ltckpt_mem_flush : P () := putm (set_num_mem_pages 0).

(** [ltckpt_page_list_add]; the page is given by its address. *)
Definition ltckpt_page_list_add (addr : Z) : P () :=
  n ← getm num_pages;
  assert (n <? MPROTECT_MAX_PAGES) ;;
  putm (set_num_pages (u64 (n + 1))) ;;
  putm (λ s, set_mp_pages (upd (mp_pages s) n (mk_page addr (pg_mem (mp_pages s n)))) s) ;;
  k ← getm num_mem_pages;
  assert (k <? MPROTECT_MAX_PAGES) ;;
  putm (λ s, set_mp_pages (upd (mp_pages s) n (mk_page addr (mem_array s + k * PAGE_SIZE))) s) ;;
  putm (λ s, set_mp_mem (store_bytes (mp_mem s) (mem_array s + k * PAGE_SIZE)
                           (load_bytes (mp_mem s) addr (Z.to_nat PAGE_SIZE))) s) ;;
  putm (set_num_mem_pages (u64 (k + 1))).

(** The pages are moved to the iteration list; the iterator starts at its first entry. *)
Definition ltckpt_page_list_clear_and_iter : P Z :=
  putm (λ s, set_num_iter_pages (num_pages s) s) ;;
  putm (λ s, set_iter_pages (λ i, if (0 <=? i) && (i <? num_iter_pages s)
                                  then mp_pages s i else iter_pages s i) s) ;;
  putm (set_num_pages 0) ;;
  mret 0.

(** The entry at the iterator, an index, and the next iterator. *)
Definition ltckpt_page_list_iter_next (iter : Z) : P (option (mpr_page * Z)) :=
  n ← getm num_iter_pages;
  if n <=? iter then mret None else
  page ← getm (λ s, iter_pages s iter);
  mret (Some (page, iter + 1)).

(** ** Protection *)

Definition ltckpt_mprotect_mem (addr len writable : Z) : P Z :=
  let prot := if truthy writable then Z.lor PROT_READ PROT_WRITE else PROT_READ in
  ret ← sysm (mprotect addr len prot);
  if truthy ret then halt Panic else mret ret.

(** [ltckpt_mprotect_vma]: the entry with its mark afterwards. *)
Definition ltckpt_mprotect_vma (entry : map_entry) (writable : Z) : P map_entry :=
  if negb (truthy (e_s entry)) then mret entry else
  let addr := vm_start (e_vma entry) in
  let len := vm_end (e_vma entry) - vm_start (e_vma entry) in
  ret ← ltckpt_mprotect_mem addr len writable;
  mret (if truthy ret then mk_entry (e_vma entry) 0 else entry).

Fixpoint mprotect_vmas_loop (fuel i : nat) (writable : Z) : P () :=
  e ← getm (λ s, proc_maps s !! i);
  match e, fuel with
  | None, _ => skip
  | Some _, O => halt Diverge
  | Some entry, S fuel' =>
      entry' ← ltckpt_mprotect_vma entry writable;
      putm (λ s, set_proc_maps (<[i := entry']> (proc_maps s)) s) ;;
      mprotect_vmas_loop fuel' (S i) writable
  end.

Definition ltckpt_mprotect_vmas (writable : Z) : P () :=
  n ← getm (λ s, length (proc_maps s));
  mprotect_vmas_loop n 0 writable.

(** ** Faults and checkpoints *)

Definition upd_ctx (f : ltckpt_ctx → ltckpt_ctx) : P () := putm (λ s, set_mp_ctx (f (mp_ctx s)) s).

(** [ltckpt_sighandler] on a fault at [si_addr]. *)
Definition ltckpt_sighandler (si_addr : Z) : P () :=
  upd_ctx (λ c, set_pgfault_nesting_level (s32 (pgfault_nesting_level c + 1)) c) ;;
  let addr := si_addr - si_addr mod PAGE_SIZE in
  ltckpt_page_list_add addr ;;
  upd_ctx (CTX_INC num_cows set_num_cows) ;;
  ltckpt_mprotect_mem addr PAGE_SIZE 1 ;;
  upd_ctx (λ c, set_pgfault_nesting_level (s32 (pgfault_nesting_level c - 1)) c).

Fixpoint checkpoint_loop (fuel : nat) (iter : Z) : P () :=
  r ← ltckpt_page_list_iter_next iter;
  match r, fuel with
  | None, _ => skip
  | Some _, O => halt Diverge
  | Some (page, iter'), S fuel' =>
      ltckpt_mprotect_mem (pg_addr page) PAGE_SIZE 0 ;;
      checkpoint_loop fuel' iter'
  end.

(** [ltckpt_checkpoint]: one iteration per saved page. *)
Definition ltckpt_checkpoint : P () :=
  iter ← ltckpt_page_list_clear_and_iter;
  n ← getm num_iter_pages;
  checkpoint_loop (Z.to_nat n) iter ;;
  ltckpt_mem_flush.

(** ** Initialisation *)

Definition ltckpt_init_mpr_cb (mpr : Z) (c : ltckpt_ctx) (entry : map_entry) : parse_ret :=
  init_cb tls_addr heap_addr data_addr mpr c entry.

(** [ltckpt_init_mpr]; [ltckpt_ctx_set] copies the context to the new place, a NULL
    buffer included. *)
Definition ltckpt_init_mpr : P () :=
  buff ← sysm (ltkcpt_ctx_get_buff MIN_MMAP_ADDR sizeof_mpr);
  if buff =? 0 then halt Sigsegv else
  putm (fresh_mpr buff) ;;
  upd_ctx (set_initialized 1) ;;
  c ← getm mp_ctx;
  r ← util_proc_maps_parse_filter (ltckpt_init_mpr_cb buff c);
  putm (set_proc_maps r.2) ;;
  when (truthy r.1) (halt Panic) ;;
  ret ← sysm pthread_sigmask_segv;
  when (truthy ret) (halt Panic) ;;
  ret ← sysm sigaction_segv;
  when (truthy ret) (halt Panic) ;;
  ltckpt_mprotect_vmas 0.

Definition mprotect_late_init_hook : P () :=
  c ← getm mp_ctx;
  when (negb (truthy (lazy_init c)) && truthy (checkpoint_interval c)) ltckpt_init_mpr.

Definition mprotect_top_of_the_loop : P () :=
  go ← getm (λ s, fst (CTX_NEW_TOL_OR_RETURN (mp_ctx s)));
  upd_ctx (λ c, snd (CTX_NEW_TOL_OR_RETURN c)) ;;
  if negb go then skip else
  c ← getm mp_ctx;
  when (negb (truthy (initialized c))) ltckpt_init_mpr ;;
  ltckpt_checkpoint ;;
  upd_ctx CTX_NEW_CHECKPOINT.

(** The print hook with [LTCKPT_MPROTECT_SAFE]; what it prints does not matter here. *)
Definition mprotect_ctx_print_hook : P () :=
  init ← getm (λ s, initialized (mp_ctx s));
  when (truthy init) (ltckpt_mprotect_vmas 1) ;;
  when (truthy init) (ltckpt_mprotect_vmas 0).

(** ** The program *)

(** A store of a byte: on a page that is not writable the processor faults, the handler
    runs, and the store is tried again. *)
Definition cpu_store (a b : Z) : P () :=
  w ← gets (λ s, page_writable s.2 (page_of a));
  (if w : bool then skip else ltckpt_sighandler a) ;;
  w ← gets (λ s, page_writable s.2 (page_of a));
  if w : bool then putm (λ s, set_mp_mem (upd (mp_mem s) a b) s) else halt Diverge.

Fixpoint cpu_stores (l : list (Z * Z)) : P () :=
  match l with
  | [] => skip
  | (a, b) :: l' => cpu_store a b ;; cpu_stores l'
  end.

(** ** System-call wrappers *)

Definition LTCKPT_CHECK_WRITE (b : Z) : P () :=
  if truthy b then
    sink ← getm (λ s, mp_mem s b);
    cpu_store b sink
  else skip.

(** The loop of [LTCKPT_CHECK_BUFF] from index [i]; [fuel] bounds its iterations. *)
Fixpoint check_buff_loop (fuel : nat) (buf size i : Z) : P () :=
  if i <? size then
    match fuel with
    | O => halt Diverge
    | S fuel' => LTCKPT_CHECK_WRITE (buf + i) ;; check_buff_loop fuel' buf size (i + PAGE_SIZE)
    end
  else skip.

(** [LTCKPT_CHECK_BUFF] for sizes below [2^31], where the index does not overflow. *)
Definition LTCKPT_CHECK_BUFF (buf size : Z) : P () :=
  if truthy buf && (0 <? size) then
    check_buff_loop (Z.to_nat (size / PAGE_SIZE + 1)) buf size 0 ;;
    LTCKPT_CHECK_WRITE (buf + (size - 1))
  else skip.

(** The wrapped calls, with the arguments their wrappers look at. *)
Inductive wrapped_call :=
  | W_epoll_wait (events : Z)
  | W_poll (fds : Z)
  | W_select (readfds writefds exceptfds : Z)
  | W_read (buf count : Z)
  | W_accept (addr addrlen : Z)
  | W_accept4 (addr addrlen : Z)
  | W_recv (buf len : Z)
  | W_recvfrom (buf len src_addr addrlen : Z)
  | W_recvmsg (msg msg_control msg_controllen : Z) (msg_iov : list (Z * Z))
  | W_semop (sops : Z)
  | W_stat (buf : Z)
  | W_xstat (buf : Z).

Fixpoint check_iov (iov : list (Z * Z)) : P () :=
  match iov with
  | [] => skip
  | (iov_base, iov_len) :: iov' => LTCKPT_CHECK_BUFF iov_base iov_len ;; check_iov iov'
  end.

(** What a wrapper does before the call ([stat], [fstat] and [lstat] check the buffer and
    then call the wrapped function of the version, which checks it again). *)
Definition mprotect_wrapper (c : wrapped_call) : P () :=
  match c with
  | W_epoll_wait events => LTCKPT_CHECK_WRITE events
  | W_poll fds => LTCKPT_CHECK_WRITE fds
  | W_select r w e => LTCKPT_CHECK_WRITE r ;; LTCKPT_CHECK_WRITE w ;; LTCKPT_CHECK_WRITE e
  | W_read buf count => LTCKPT_CHECK_BUFF buf count
  | W_accept addr addrlen => LTCKPT_CHECK_WRITE addr ;; LTCKPT_CHECK_WRITE addrlen
  | W_accept4 addr addrlen => LTCKPT_CHECK_WRITE addr ;; LTCKPT_CHECK_WRITE addrlen
  | W_recv buf len => LTCKPT_CHECK_BUFF buf len
  | W_recvfrom buf len src_addr addrlen =>
      LTCKPT_CHECK_BUFF buf len ;; LTCKPT_CHECK_WRITE src_addr ;; LTCKPT_CHECK_WRITE addrlen
  | W_recvmsg msg control controllen iov =>
      if truthy msg then
        LTCKPT_CHECK_BUFF control controllen ;; check_iov iov ;; LTCKPT_CHECK_WRITE msg
      else skip
  | W_semop sops => LTCKPT_CHECK_WRITE sops
  | W_stat buf => LTCKPT_CHECK_WRITE buf ;; LTCKPT_CHECK_WRITE buf
  | W_xstat buf => LTCKPT_CHECK_WRITE buf
  end.

End Mprotect.

(** ** What the pages hold *)

(** What [mprotect] does when it succeeds: the pages of the range get the protection, the
    others keep theirs. *)
Class MprotectLaws (os : Type) `{VMem os} (page_writable : os → Z → bool) := {
  mprotect_sets a n prot o o' p :
    a mod PAGE_SIZE = 0 → 0 <= n → mprotect a n prot o = (0, o') →
    page_writable o' p =
      if (a / PAGE_SIZE <=? p) && (p <? (a + n + PAGE_SIZE - 1) / PAGE_SIZE)
      then Z.testbit prot 1 else page_writable o p;
}.

(** A page of a mapping in the process map that is not marked to be skipped. *)
Definition entry_has (p : Z) (e : map_entry) : Prop :=
  e_s e ≠ 0 ∧ vm_start (e_vma e) / PAGE_SIZE <= p < vm_end (e_vma e) / PAGE_SIZE.
#[export] Instance entry_has_dec p e : Decision (entry_has p e).
Proof. unfold entry_has. apply _. Defined.
Definition tracked_in (l : list map_entry) (p : Z) : Prop := Exists (entry_has p) l.
Abbreviation tracked s := (tracked_in (proc_maps s)).

(** The copies are kept outside the tracked pages. *)
Definition apart (s : mprs) : Prop :=
  ∀ x, tracked s (page_of x) → ¬ in_block (mem_array s) (MPROTECT_MAX_PAGES * PAGE_SIZE) x.

Definition same_maps (s s' : mprs) : Prop := mpr s' = mpr s ∧ proc_maps s' = proc_maps s.

Section Pages.
Context {os : Type} `{vmem : VMem os} (page_writable : os → Z → bool).

(** In the state the pages [ps] have been saved, in this order, since a checkpoint of the
    memory [m0]: they are the writable ones, their copies hold what they had in [m0], and
    the other pages are as in [m0]. *)
Record saves (m0 : mem) (ps : list Z) (s : mprs) (o : os) : Prop := {
  sv_num : num_pages s = zlen ps;
  sv_mem : num_mem_pages s = zlen ps;
  sv_room : zlen ps <= MPROTECT_MAX_PAGES;
  sv_nodup : NoDup ps;
  sv_tracked : Forall (tracked s) ps;
  sv_page i p : ps !! i = Some p →
    mp_pages s (Z.of_nat i) = mk_page (p * PAGE_SIZE) (mem_array s + Z.of_nat i * PAGE_SIZE);
  sv_writable p : tracked s p → page_writable o p = bool_decide (p ∈ ps);
  sv_copy i x : ps !! i = Some (page_of x) →
    mp_mem s (mem_array s + Z.of_nat i * PAGE_SIZE + x mod PAGE_SIZE) = m0 x;
  sv_rest x : tracked s (page_of x) → page_of x ∉ ps → mp_mem s x = m0 x;
}.

(** The memory with the saved pages copied back. *)
Definition copied_back (s : mprs) : mem :=
  foldr (λ i m, store_bytes m (pg_addr (mp_pages s i))
           (load_bytes (mp_mem s) (pg_mem (mp_pages s i)) (Z.to_nat PAGE_SIZE)))
    (mp_mem s) (seqZ 0 (num_pages s)).

End Pages.

(** Arithmetic on blocks. *)
Ltac blk_lia := unfold in_block, PAGE_SIZE, MPROTECT_MAX_PAGES in *; lia.
Lemma bind_putm {os A} f (k : () → prog (mprs * os) A) s o : (putm f ≫= k) (s, o) = k () (f s, o).
Proof. done. Qed.

Lemma bind_getm {os A B} (f : mprs → B) (k : B → prog (mprs * os) A) s o :
  (getm f ≫= k) (s, o) = k (f s) (s, o).
Proof. done. Qed.

Lemma bind_sysm {os A B} (f : os → B * os) (k : B → prog (mprs * os) A) s o r o' :
  f o = (r, o') → (sysm f ≫= k) (s, o) = k r (s, o').
Proof. intros H. unfold sysm, mbind, prog_bind. cbn [fst snd]. by rewrite H. Qed.

Section Run.
Context {os : Type} `{vmem : VMem os} (page_writable : os → Z → bool)
  `{!MprotectLaws os page_writable}.

(** The kernel grants changes of protection. *)
Context (grants : ∀ a n prot (o : os), fst (mprotect a n prot o) = 0).

Local Abbreviation saves := (saves page_writable).

Lemma protect_run a n w s (o : os) :
  a mod PAGE_SIZE = 0 → 0 <= n →
  ∃ o', ltckpt_mprotect_mem a n w (s, o) = Ok 0 (s, o') ∧
    ∀ p, page_writable o' p =
      if (a / PAGE_SIZE <=? p) && (p <? (a + n + PAGE_SIZE - 1) / PAGE_SIZE)
      then truthy w else page_writable o p.
Proof.
  intros Ha Hn. unfold ltckpt_mprotect_mem, sysm, mbind, prog_bind. cbn [snd fst].
  set (prot := if truthy w then _ else _). pose proof (grants a n prot o) as G.
  destruct (mprotect a n prot o) as [r o'] eqn:E. cbn in G. subst r.
  exists o'. split; [done|]. intros p. rewrite (mprotect_sets a n prot o o' p Ha Hn E).
  unfold prot. by destruct (truthy w).
Qed.

Lemma protect_page p w s (o : os) :
  ∃ o', ltckpt_mprotect_mem (p * PAGE_SIZE) PAGE_SIZE w (s, o) = Ok 0 (s, o') ∧
    ∀ q, page_writable o' q = if q =? p then truthy w else page_writable o q.
Proof.
  destruct (protect_run (p * PAGE_SIZE) PAGE_SIZE w s o) as (o' & H & Hw);
    [by rewrite Z.mod_mul|done|].
  exists o'. split; [done|]. intros q. rewrite Hw. rewrite Z.div_mul by done.
  replace ((p * PAGE_SIZE + PAGE_SIZE + PAGE_SIZE - 1) / PAGE_SIZE) with (p + 1) by page_lia.
  destruct (Z.eqb_spec q p), (Z.leb_spec p q), (Z.ltb_spec q (p + 1)); try done; lia.
Qed.

(** The state after a page has been added to the list. *)
Definition with_page (p : Z) (s : mprs) : mprs :=
  let n := num_pages s in
  let k := mem_array s + n * PAGE_SIZE in
  mk_mprs (store_bytes (mp_mem s) k (load_bytes (mp_mem s) (p * PAGE_SIZE) (Z.to_nat PAGE_SIZE)))
    (mpr s) (λ j, if j =? n then mk_page (p * PAGE_SIZE) k else mp_pages s j) (n + 1)
    (iter_pages s) (num_iter_pages s) (n + 1) (proc_maps s) (mp_ctx s).

(** Saving one more page. *)
Lemma saves_snoc m0 ps s o o' p :
  apart s → saves m0 ps s o → tracked s p → p ∉ ps → zlen ps < MPROTECT_MAX_PAGES →
  (∀ q, page_writable o' q = if q =? p then true else page_writable o q) →
  saves m0 (ps ++ [p]) (with_page p s) o' ∧
  mem_agree (λ x, tracked s (page_of x)) (mp_mem (with_page p s)) (mp_mem s).
Proof.
  intros Hap [Hn Hm Hroom Hnd Htr Hpg Hw Hc Hr] Ht Hp Hlt Hw'.
  assert (∀ x, ¬ in_block (mem_array s + num_pages s * PAGE_SIZE) PAGE_SIZE x →
    mp_mem (with_page p s) x = mp_mem s x) as Hout.
  { intros x Hx. unfold with_page. cbn [mp_mem]. apply store_bytes_out.
    by rewrite length_load_bytes. }
  assert (mem_agree (λ x, tracked s (page_of x)) (mp_mem (with_page p s)) (mp_mem s)) as Hag.
  { intros x Hx. apply Hout. intros Hb. apply (Hap x Hx). rewrite Hn in Hb. blk_lia. }
  split; [|done]. split; cbn -[load_bytes store_bytes] in *.
  - rewrite length_app. cbn. lia.
  - rewrite length_app. cbn. lia.
  - rewrite length_app. cbn. lia.
  - apply NoDup_app. split_and!; [done| |apply NoDup_singleton].
    intros q Hq ->%list_elem_of_singleton. done.
  - apply Forall_app. auto.
  - intros i q Hi. change (mem_array (with_page p s)) with (mem_array s).
    apply lookup_app_Some in Hi as [Hi|[Hge Hi]].
    + pose proof (lookup_lt_Some _ _ _ Hi). rewrite (proj2 (Z.eqb_neq _ _)) by lia. by apply Hpg.
    + apply list_lookup_singleton_Some in Hi as [Hi <-].
      replace (Z.of_nat i) with (num_pages s) by lia. by rewrite Z.eqb_refl.
  - intros q Hq. rewrite Hw'. rewrite (Hw q Hq). destruct (Z.eqb_spec q p) as [->|Hne].
    + symmetry. apply bool_decide_eq_true, elem_of_app. right. by apply list_elem_of_singleton.
    + apply bool_decide_ext. rewrite elem_of_app, list_elem_of_singleton. tauto.
  - intros i x Hi. change (mem_array (with_page p s)) with (mem_array s).
    pose proof (Z.mod_pos_bound x PAGE_SIZE ltac:(done)) as Hmod.
    apply lookup_app_Some in Hi as [Hi|[Hge Hi]].
    + rewrite Hout; [by apply Hc|]. pose proof (lookup_lt_Some _ _ _ Hi). rewrite Hn. blk_lia.
    + apply list_lookup_singleton_Some in Hi as [Hi Hpx].
      replace (Z.of_nat i) with (num_pages s) by lia. unfold with_page. cbn [mp_mem].
      rewrite store_bytes_in by (rewrite length_load_bytes; blk_lia).
      rewrite nth_load_bytes by blk_lia. rewrite <- (Hr x).
      * f_equal. rewrite Hpx. clear. page_lia.
      * by rewrite <- Hpx.
      * by rewrite <- Hpx.
  - intros x Hx Hnx. rewrite Hag by done. apply Hr; [done|]. intros ?. apply Hnx, elem_of_app. by left.
Qed.

Lemma saves_ext m0 ps s s' o :
  num_pages s' = num_pages s → num_mem_pages s' = num_mem_pages s → same_maps s s' →
  mp_mem s' = mp_mem s → (∀ j, mp_pages s' j = mp_pages s j) →
  saves m0 ps s o → saves m0 ps s' o.
Proof.
  intros En Em [E1 E2] Emem Ep [A1 A2 A3 A4 A5 A6 A7 A8 A9]. unfold mem_array in *.
  split; unfold mem_array; rewrite ?En, ?Em, ?E1, ?E2, ?Emem; try done.
  intros i p Hi. rewrite Ep. by apply A6.
Qed.

(** The handler saves the page of the fault and makes it writable. *)
Lemma handler_run m0 ps s o a :
  apart s → saves m0 ps s o → tracked s (page_of a) → page_of a ∉ ps →
  zlen ps < MPROTECT_MAX_PAGES →
  ∃ s' o', ltckpt_sighandler a (s, o) = Ok () (s', o') ∧
    saves m0 (ps ++ [page_of a]) s' o' ∧ same_maps s s' ∧
    mem_agree (λ x, tracked s (page_of x)) (mp_mem s') (mp_mem s) ∧
    num_cows (mp_ctx s') = u64 (num_cows (mp_ctx s) + 1).
Proof.
  intros Hap Hsv Ht Hp Hlt. pose proof (sv_num _ _ _ _ _ Hsv) as Hn.
  pose proof (sv_mem _ _ _ _ _ Hsv) as Hm.
  set (s0 := set_mp_ctx (set_pgfault_nesting_level (s32 (pgfault_nesting_level (mp_ctx s) + 1))
               (mp_ctx s)) s).
  assert (∃ s1, ltckpt_page_list_add (page_of a * PAGE_SIZE) (s0, o) = Ok () (s1, o) ∧
    num_pages s1 = zlen ps + 1 ∧ num_mem_pages s1 = zlen ps + 1 ∧ same_maps s s1 ∧
    mp_ctx s1 = mp_ctx s0 ∧ mp_mem s1 = mp_mem (with_page (page_of a) s) ∧
    ∀ j, mp_pages s1 j = mp_pages (with_page (page_of a) s) j)
    as (s1 & H1 & N1 & M1 & Hsm & C1 & Hmem & Hpg).
  { unfold ltckpt_page_list_add, getm, putm, mbind, prog_bind, gets, modify, assert.
    cbn [fst snd num_pages num_mem_pages set_num_pages set_mp_pages s0 set_mp_ctx].
    rewrite (proj2 (Z.ltb_lt _ _)) by lia. unfold skip.
    cbn [fst snd num_pages num_mem_pages set_num_pages set_mp_pages s0 set_mp_ctx].
    rewrite (proj2 (Z.ltb_lt _ _)) by lia. eexists. split; [reflexivity|].
    cbn -[store_bytes load_bytes]. rewrite Hn, Hm. rewrite !u64_small by blk_lia.
    split_and!; try done.
    intros j. unfold upd, mem_array. cbn. by destruct (j =? _). }
  unfold ltckpt_sighandler, upd_ctx. rewrite bind_putm. fold s0.
  rewrite page_base, (bind_Ok _ _ _ _ _ H1), bind_putm. set (s2 := set_mp_ctx _ s1).
  destruct (protect_page (page_of a) 1 s2 o) as (o' & H2 & Hw).
  rewrite (bind_Ok _ _ _ _ _ H2). eexists _, o'. split; [reflexivity|].
  destruct (saves_snoc m0 ps s o o' (page_of a) Hap Hsv Ht Hp Hlt Hw) as [Hs' Hag].
  split; [|split_and!].
  - apply (saves_ext _ _ (with_page (page_of a) s)); [| |done|done|done|done].
    + change (num_pages s1 = num_pages s + 1). lia.
    + change (num_mem_pages s1 = num_pages s + 1). lia.
  - done.
  - change (mem_agree (λ x, tracked s (page_of x)) (mp_mem s1) (mp_mem s)). by rewrite Hmem.
  - cbn. by rewrite C1.
Qed.

(** A store to a tracked page: the page is saved first if it has not been yet. *)
Lemma store_run m0 ps s o a b :
  apart s → saves m0 ps s o → tracked s (page_of a) →
  zlen (touch ps (page_of a)) <= MPROTECT_MAX_PAGES →
  ∃ s' o', cpu_store page_writable a b (s, o) = Ok () (s', o') ∧
    saves m0 (touch ps (page_of a)) s' o' ∧ same_maps s s' ∧
    mem_agree (λ x, tracked s (page_of x)) (mp_mem s') (upd (mp_mem s) a b).
Proof.
  intros Hap Hsv Ht Hroom.
  assert (∃ s1 o1, (if page_writable o (page_of a) then skip else ltckpt_sighandler a) (s, o)
      = Ok () (s1, o1) ∧ saves m0 (touch ps (page_of a)) s1 o1 ∧ same_maps s s1 ∧
      mem_agree (λ x, tracked s (page_of x)) (mp_mem s1) (mp_mem s))
    as (s1 & o1 & H1 & Hsv1 & [Em Ep] & Hag).
  { unfold touch in *. rewrite (sv_writable _ _ _ _ _ Hsv _ Ht).
    destruct (decide (page_of a ∈ ps)) as [Hin|Hin].
    - rewrite bool_decide_true by done. exists s, o. by split_and!.
    - rewrite bool_decide_false by done. rewrite length_app in Hroom. cbn in Hroom.
      destruct (handler_run m0 ps s o a Hap Hsv Ht Hin) as (s1 & o1 & H & Hs & Hm & Ha & _); [lia|].
      by exists s1, o1. }
  unfold cpu_store. rewrite bind_gets. cbn [snd]. rewrite (bind_Ok _ _ _ _ _ H1), bind_gets.
  cbn [snd].
  assert (tracked s1 (page_of a)) as Ht1 by by rewrite Ep.
  assert (page_of a ∈ touch ps (page_of a)) as Hin.
  { unfold touch. case_decide; [done|]. apply elem_of_app. right. by apply list_elem_of_singleton. }
  rewrite (sv_writable _ _ _ _ _ Hsv1 _ Ht1), bool_decide_true by done.
  eexists _, o1. split; [reflexivity|]. unfold putm. cbn [fst snd].
  assert (apart s1) as Hap1 by (intros x; unfold mem_array; rewrite Em, Ep; apply Hap).
  split; [|split; [done|]].
  - destruct Hsv1 as [A1 A2 A3 A4 A5 A6 A7 A8 A9]. split; try done.
    + intros i x Hi. cbn. rewrite upd_ne; [by apply A8|]. intros Heq.
      pose proof (lookup_lt_Some _ _ _ Hi). pose proof (Z.mod_pos_bound x PAGE_SIZE ltac:(done)).
      apply (Hap1 a Ht1). unfold mem_array in *. cbn in Heq. blk_lia.
    + intros x Hx Hnx. cbn. rewrite upd_ne; [by apply A9|]. intros ->. done.
  - intros x Hx. cbn. unfold upd. destruct (x =? a); [done|by apply Hag].
Qed.

(** *** Sequences of stores *)

Lemma same_maps_trans s1 s2 s3 : same_maps s1 s2 → same_maps s2 s3 → same_maps s1 s3.
Proof. intros [] []. split; congruence. Qed.

Lemma apart_same s s' : same_maps s s' → apart s → apart s'.
Proof. intros [E1 E2] H x. unfold mem_array. rewrite E1, E2. apply H. Qed.

Lemma stores_run m0 l ps s o :
  apart s → saves m0 ps s o → Forall (λ ab, tracked s (page_of ab.1)) l →
  zlen (foldl touch ps (page_of ∘ fst <$> l)) <= MPROTECT_MAX_PAGES →
  ∃ s' o', cpu_stores page_writable l (s, o) = Ok () (s', o') ∧
    saves m0 (foldl touch ps (page_of ∘ fst <$> l)) s' o' ∧ same_maps s s' ∧
    mem_agree (λ x, tracked s (page_of x)) (mp_mem s') (plain_stores l (mp_mem s)).
Proof.
  revert ps s o. induction l as [|[a b] l IH]; intros ps s o Hap Hsv Ht Hroom.
  { exists s, o. by split_and!. }
  inversion_clear Ht as [|?? Ht1 Ht2]. cbn [fmap list_fmap foldl] in *. cbn in Ht1.
  change ((page_of ∘ fst) (a, b)) with (page_of a) in *.
  pose proof (touches_length (touch ps (page_of a)) (page_of ∘ fst <$> l)).
  destruct (store_run m0 ps s o a b Hap Hsv Ht1) as (s1 & o1 & H1 & Hsv1 & Hsm1 & Hag1); [lia|].
  destruct (IH (touch ps (page_of a)) s1 o1) as (s2 & o2 & H2 & Hsv2 & Hsm2 & Hag2).
  { by eapply apart_same. }
  { done. }
  { destruct Hsm1 as [_ ->]. done. }
  { done. }
  exists s2, o2. split; [|split; [|split]].
  - cbn [cpu_stores]. by rewrite (bind_Ok _ _ _ _ _ H1).
  - done.
  - apply (same_maps_trans s s1); done.
  - destruct Hsm1 as [_ E]. rewrite E in Hag2. intros x Hx. rewrite Hag2 by done.
    exact (plain_stores_agree (λ x, tracked s (page_of x)) l _ _ Hag1 x Hx).
Qed.

(** *** Copying the saved pages back *)

Lemma copied_back_agree m0 ps s o :
  saves m0 ps s o → mem_agree (λ x, tracked s (page_of x)) (copied_back s) m0.
Proof.
  intros Hsv x Hx. unfold copied_back. rewrite (sv_num _ _ _ _ _ Hsv).
  set (F := λ i m, store_bytes m (pg_addr (mp_pages s i)) _).
  assert (∀ L, Forall (λ i, 0 <= i < zlen ps) L →
    foldr F (mp_mem s) L x = m0 x ∨
    (foldr F (mp_mem s) L x = mp_mem s x ∧
     ∀ i, i ∈ L → ps !! Z.to_nat i ≠ Some (page_of x))) as HL.
  { induction L as [|i L IH]; intros HL; [right; split; [done|]; intros i Hi; by apply elem_of_nil in Hi|].
    apply Forall_cons in HL as [Hi HL]. specialize (IH HL). cbn [foldr]. unfold F at 1 3.
    destruct (lookup_lt_is_Some_2 ps (Z.to_nat i)) as [p Hp]; [lia|].
    pose proof (sv_page _ _ _ _ _ Hsv _ _ Hp) as Hpg. rewrite Z2Nat.id in Hpg by lia.
    rewrite Hpg. cbn [pg_addr pg_mem].
    destruct (decide (page_of x = p)) as [Hpx|Hpx].
    - left. assert (p * PAGE_SIZE + x mod PAGE_SIZE = x) as Hx0 by (subst p; clear; page_lia).
      pose proof (Z.mod_pos_bound x PAGE_SIZE ltac:(done)).
      rewrite store_bytes_in by (rewrite length_load_bytes; blk_lia).
      rewrite nth_load_bytes by blk_lia. rewrite <- Hpx in Hp.
      rewrite <- (sv_copy _ _ _ _ _ Hsv _ _ Hp). f_equal. rewrite !Z2Nat.id by lia. lia.
    - rewrite store_bytes_out.
      2:{ rewrite length_load_bytes. unfold in_block. intros Hb. apply Hpx.
          change (Z.of_nat (Z.to_nat PAGE_SIZE)) with PAGE_SIZE in Hb. clear -Hb. page_lia. }
      destruct IH as [IH|[IH IHi]]; [by left|]. right. split; [done|].
      intros j [->|Hj]%elem_of_cons; [rewrite Hp; congruence|by apply IHi]. }
  destruct (HL (seqZ 0 (zlen ps))) as [?|[-> Hno]]; [|done|].
  { apply Forall_forall. intros i Hi%elem_of_seqZ. lia. }
  apply (sv_rest _ _ _ _ _ Hsv); [done|]. intros [i Hi]%list_elem_of_lookup.
  pose proof (lookup_lt_Some _ _ _ Hi). apply (Hno (Z.of_nat i)); [apply elem_of_seqZ; lia|].
  by rewrite Nat2Z.id.
Qed.

(** *** Checkpoints *)

(** The loop of a checkpoint protects the pages on the iteration list from [k] on. *)
Lemma checkpoint_loop_run ps s :
  num_iter_pages s = zlen ps →
  (∀ i p, ps !! i = Some p → pg_addr (iter_pages s (Z.of_nat i)) = p * PAGE_SIZE) →
  ∀ fuel k o, (k + fuel = length ps)%nat →
  ∃ o', checkpoint_loop fuel (Z.of_nat k) (s, o) = Ok () (s, o') ∧
    ∀ q, page_writable o' q = page_writable o q && negb (bool_decide (q ∈ drop k ps)).
Proof.
  intros Hn Hp. induction fuel as [|fuel IH]; intros k o Hk;
    cbn [checkpoint_loop]; unfold ltckpt_page_list_iter_next; rewrite bind_assoc, bind_getm, Hn.
  - rewrite (proj2 (Z.leb_le _ _)) by lia. exists o. split; [done|]. intros q.
    rewrite drop_ge by lia. by rewrite andb_true_r.
  - rewrite (proj2 (Z.leb_gt _ _)) by lia. rewrite bind_assoc, bind_getm, bind_ret.
    destruct (lookup_lt_is_Some_2 ps k) as [p Hkp]; [lia|]. rewrite (Hp _ _ Hkp).
    destruct (protect_page p 0 s o) as (o1 & H1 & Hw1). rewrite (bind_Ok _ _ _ _ _ H1).
    replace (Z.of_nat k + 1) with (Z.of_nat (S k)) by lia.
    destruct (IH (S k) o1) as (o2 & H2 & Hw2); [lia|]. exists o2. split; [done|]. intros q.
    rewrite Hw2, Hw1, (drop_S _ _ _ Hkp). destruct (Z.eqb_spec q p) as [->|Hne].
    + rewrite (bool_decide_true (p ∈ p :: _)) by (by constructor). by rewrite andb_false_r.
    + f_equal. f_equal. apply bool_decide_ext. rewrite elem_of_cons. tauto.
Qed.

Lemma checkpoint_run m0 ps s o :
  saves m0 ps s o →
  ∃ s' o', ltckpt_checkpoint (s, o) = Ok () (s', o') ∧ saves (mp_mem s) [] s' o' ∧
    same_maps s s' ∧ mp_mem s' = mp_mem s ∧ mp_ctx s' = mp_ctx s.
Proof.
  intros Hsv. pose proof (sv_num _ _ _ _ _ Hsv) as Hn.
  unfold ltckpt_checkpoint, ltckpt_page_list_clear_and_iter.
  rewrite bind_assoc, bind_putm, bind_assoc, bind_putm, bind_assoc, bind_putm, bind_ret, bind_getm.
  cbn [num_iter_pages set_num_iter_pages set_iter_pages set_num_pages]. rewrite Hn, Nat2Z.id.
  set (s1 := set_num_pages 0 _).
  destruct (checkpoint_loop_run ps s1) with (fuel := length ps) (k := 0%nat) (o := o)
    as (o' & H1 & Hw); [done| |lia|].
  { intros i p Hi. pose proof (lookup_lt_Some _ _ _ Hi). cbn.
    rewrite (proj2 (Z.leb_le _ _)), (proj2 (Z.ltb_lt _ _)) by lia. cbn [andb].
    by rewrite (sv_page _ _ _ _ _ Hsv _ _ Hi). }
  rewrite (bind_Ok _ _ _ _ _ H1). eexists _, o'. split; [reflexivity|].
  split; [|done]. split; cbn; try done.
  - constructor.
  - intros q Hq. rewrite Hw, (sv_writable _ _ _ _ _ Hsv q Hq), drop_0.
    destruct (bool_decide_reflect (q ∈ ps)); [done|].
    symmetry. apply bool_decide_false. apply not_elem_of_nil.
Qed.

(** The pages in some state of a window. *)
Definition mpr_inv (s : mprs) (o : os) : Prop := apart s ∧ ∃ m0 ps, saves m0 ps s o.

(** C13: A checkpoint by page protection is recoverable.  Between two tops of the loop, let
    the program store to any tracked addresses on at most 1000 distinct pages.  The top of
    the loop returns, every store takes effect (after a fault where the page was
    protected), exactly the distinct pages stored to have been saved, once each, and
    copying them back gives every tracked byte the value it had at the top of the loop;
    the pages are then in order for the next checkpoint. *)
Theorem mprotect_checkpoint_recoverable (tls_addr heap_addr data_addr : Z) `{procfs : ProcFs os}
    `{sigcalls : SignalCalls os}
    (l : list (Z * Z)) (s : mprs) (o : os) :
  mpr_inv s o → initialized (mp_ctx s) ≠ 0 → tol_returns (mp_ctx s) = false →
  Forall (λ ab, tracked s (page_of ab.1)) l →
  let touched := remove_dups (page_of ∘ fst <$> l) in
  zlen touched <= MPROTECT_MAX_PAGES →
  ∃ s1 o1 s2 o2, mprotect_top_of_the_loop tls_addr heap_addr data_addr (s, o) = Ok () (s1, o1) ∧
    cpu_stores page_writable l (s1, o1) = Ok () (s2, o2) ∧
    mem_agree (λ x, tracked s (page_of x)) (mp_mem s2) (plain_stores l (mp_mem s)) ∧
    mem_agree (λ x, tracked s (page_of x)) (copied_back s2) (mp_mem s) ∧
    num_pages s2 = zlen touched ∧ mpr_inv s2 o2.
Proof.
  intros (Hap & m0 & ps & Hsv) Hi Ht Hl touched Hroom.
  set (s0 := set_mp_ctx (CTX_NEW_TOL_OR_RETURN (mp_ctx s)).2 s).
  assert (saves m0 ps s0 o) as Hsv0 by (by apply (saves_ext _ _ s)).
  destruct (checkpoint_run m0 ps s0 o Hsv0) as (s1 & o1 & H1 & Hsv1 & Hsm1 & Hmem1 & Hc1).
  set (s1' := set_mp_ctx (CTX_NEW_CHECKPOINT (mp_ctx s1)) s1).
  assert (saves (mp_mem s) [] s1' o1) as Hsv1' by (by apply (saves_ext _ _ s1)).
  assert (same_maps s s1') as Hsm by exact Hsm1.
  destruct (stores_run (mp_mem s) l [] s1' o1) as (s2 & o2 & H2 & Hsv2 & Hsm2 & Hag2).
  { by apply (apart_same s). }
  { done. }
  { destruct Hsm as [_ ->]. done. }
  { rewrite touches_distinct. done. }
  exists s1', o1, s2, o2. destruct Hsm as [Em Ep]. rewrite Ep in Hag2.
  split; [|split; [done|]]; [|split; [|split; [|split]]].
  - unfold mprotect_top_of_the_loop, upd_ctx. rewrite bind_getm, bind_putm. fold s0.
    unfold CTX_NEW_TOL_OR_RETURN at 1. rewrite Ht. cbn [negb fst]. rewrite bind_getm.
    replace (truthy (initialized (mp_ctx s0))) with true.
    2:{ symmetry. apply truthy_true. cbn. unfold CTX_NEW_TOL_OR_RETURN. by rewrite Ht. }
    cbn [negb when]. rewrite (bind_Ok skip _ _ () (s0, o)) by done.
    by rewrite (bind_Ok _ _ _ _ _ H1).
  - intros x Hx. rewrite Hag2 by done. change (mp_mem s1') with (mp_mem s1). by rewrite Hmem1.
  - pose proof (copied_back_agree _ _ _ _ Hsv2) as Hcb. destruct Hsm2 as [_ E2].
    rewrite E2, Ep in Hcb. done.
  - rewrite (sv_num _ _ _ _ _ Hsv2). by rewrite touches_distinct.
  - split; [|by eexists _, _]. apply (apart_same s); [|done].
    by apply (same_maps_trans s s1').
Qed.

(** *** Initialisation *)

(** The signal calls succeed. *)
Class SignalLaws `{sigcalls : SignalCalls os} := {
  sigmask_succeeds (o : os) : pthread_sigmask_segv o = (0, o);
  sigaction_succeeds (o : os) : sigaction_segv o = (0, o);
}.

Lemma set_proc_maps_id s : set_proc_maps (proc_maps s) s = s.
Proof. by destruct s. Qed.

Lemma vma_run e w s (o : os) :
  entry_aligned e →
  ∃ o', ltckpt_mprotect_vma e w (s, o) = Ok e (s, o') ∧
    (∀ q, entry_has q e → page_writable o' q = truthy w) ∧
    (∀ q, ¬ entry_has q e → page_writable o' q = page_writable o q).
Proof.
  intros (Ha1 & Ha2 & Hle). unfold ltckpt_mprotect_vma, entry_has.
  destruct (Z.eqb_spec (e_s e) 0) as [Hs|Hs].
  { rewrite (proj2 (truthy_false _) Hs). exists o. split; [done|]. split; [tauto|done]. }
  rewrite (proj2 (truthy_true _) Hs). cbn [negb].
  destruct (protect_run (vm_start (e_vma e)) (vm_end (e_vma e) - vm_start (e_vma e)) w s o)
    as (o' & H & Hw); [done|lia|].
  rewrite (bind_Ok _ _ _ _ _ H). exists o'. split; [by destruct e|].
  replace (vm_start (e_vma e) + (vm_end (e_vma e) - vm_start (e_vma e)) + PAGE_SIZE - 1)
    with (vm_end (e_vma e) + (PAGE_SIZE - 1)) in Hw by lia.
  assert ((vm_end (e_vma e) + (PAGE_SIZE - 1)) / PAGE_SIZE = vm_end (e_vma e) / PAGE_SIZE) as E
    by (clear -Ha2; page_lia).
  rewrite E in Hw. split; intros q Hq; rewrite Hw.
  - by rewrite (proj2 (Z.leb_le _ _)), (proj2 (Z.ltb_lt _ _)) by tauto.
  - destruct (Z.leb_spec (vm_start (e_vma e) / PAGE_SIZE) q),
      (Z.ltb_spec q (vm_end (e_vma e) / PAGE_SIZE)); try done. tauto.
Qed.

Lemma vmas_run w s (o : os) :
  Forall entry_aligned (proc_maps s) →
  ∃ o', ltckpt_mprotect_vmas w (s, o) = Ok () (s, o') ∧
    (∀ q, tracked s q → page_writable o' q = truthy w) ∧
    (∀ q, ¬ tracked s q → page_writable o' q = page_writable o q).
Proof.
  intros Hal. unfold ltckpt_mprotect_vmas. rewrite bind_getm.
  assert (∀ fuel i o, (i + fuel = length (proc_maps s))%nat →
    ∃ o', mprotect_vmas_loop fuel i w (s, o) = Ok () (s, o') ∧
      (∀ q, tracked_in (drop i (proc_maps s)) q → page_writable o' q = truthy w) ∧
      (∀ q, ¬ tracked_in (drop i (proc_maps s)) q → page_writable o' q = page_writable o q)) as Hl.
  { induction fuel as [|fuel IH]; intros i o0 Hi; cbn [mprotect_vmas_loop]; rewrite bind_getm.
    - rewrite lookup_ge_None_2 by lia. exists o0. rewrite drop_ge by lia.
      split; [done|]. split; [|done]. intros q Hq. by inversion Hq.
    - destruct (lookup_lt_is_Some_2 (proc_maps s) i) as [e He]; [lia|]. rewrite He.
      destruct (vma_run e w s o0) as (o1 & H1 & Hw1 & Hn1);
        [by eapply (Forall_lookup_1 _ _ _ _ Hal He)|].
      rewrite (bind_Ok _ _ _ _ _ H1), bind_putm, list_insert_id, set_proc_maps_id by done.
      destruct (IH (S i) o1) as (o2 & H2 & Hw2 & Hn2); [lia|]. exists o2. split; [done|].
      rewrite (drop_S _ _ _ He). unfold tracked_in in *. split; intros q Hq.
      + destruct (decide (Exists (entry_has q) (drop (S i) (proc_maps s)))) as [Hd|Hd];
          [by apply Hw2|]. rewrite Hn2 by done. apply Hw1. by apply Exists_cons in Hq as [?|?].
      + rewrite Exists_cons in Hq. rewrite Hn2, Hn1 by tauto. done. }
  destruct (Hl (length (proc_maps s)) 0%nat o) as (o' & H & Hw); [lia|].
  rewrite drop_0 in Hw. eauto.
Qed.

Section Init.
Context `{procfs : ProcFs os} `{!ProcFsLaws os} `{sigcalls : SignalCalls os} `{!SignalLaws}.
Context (tls_addr heap_addr data_addr : Z).

Local Abbreviation kept_entries := (kept_entries tls_addr heap_addr data_addr).
Local Abbreviation kept_vma := (kept_vma tls_addr heap_addr data_addr).

Lemma init_run s (o : os) b o1 :
  ltkcpt_ctx_get_buff MIN_MMAP_ADDR sizeof_mpr o = (b, o1) → b ≠ 0 →
  ∃ s' o' l, ltckpt_init_mpr tls_addr heap_addr data_addr (s, o) = Ok () (s', o') ∧
    maps_lines o1 = Some (Some <$> l) ∧
    proc_maps s' = kept_entries b (mp_ctx s) o1 l ∧
    mpr s' = b ∧ num_pages s' = 0 ∧ num_mem_pages s' = 0 ∧
    mp_mem s' = mp_mem s ∧ mp_ctx s' = set_initialized 1 (mp_ctx s) ∧
    Forall entry_aligned (proc_maps s') ∧ ∀ q, tracked s' q → page_writable o' q = false.
Proof.
  intros Hb Hne. destruct (maps_readable o1) as (l & Hl & Hal).
  set (c := set_initialized 1 (mp_ctx s)).
  set (L := kept_entries b (mp_ctx s) o1 l).
  set (s2 := set_proc_maps L (set_mp_ctx c (fresh_mpr b s))).
  assert (Forall entry_aligned (proc_maps s2)) as Hal2 by (by apply kept_entries_aligned).
  destruct (vmas_run 0 s2 o1 Hal2) as (o2 & H2 & Hw & _).
  exists s2, o2, l. split; [|by split_and!].
  unfold ltckpt_init_mpr. rewrite (bind_sysm _ _ _ _ _ _ Hb).
  rewrite (proj2 (Z.eqb_neq b 0)) by done. rewrite bind_putm.
  unfold upd_ctx. rewrite bind_putm, bind_getm.
  change (mp_ctx (fresh_mpr b s)) with (mp_ctx s).
  change (mp_ctx (set_mp_ctx (set_initialized 1 (mp_ctx s)) (fresh_mpr b s))) with c.
  rewrite (bind_Ok _ _ _ _ _ (parse_filter_run _ _ _ b c _ _ _ Hl)), bind_putm.
  cbn [fst snd]. change (truthy 0) with false. cbn [when].
  rewrite (bind_Ok skip _ _ () _) by done.
  rewrite (bind_sysm _ _ _ _ _ _ (sigmask_succeeds _)).
  change (truthy 0) with false. cbn [when]. rewrite (bind_Ok skip _ _ () _) by done.
  rewrite (bind_sysm _ _ _ _ _ _ (sigaction_succeeds _)).
  change (truthy 0) with false. cbn [when]. rewrite (bind_Ok skip _ _ () _) by done.
  exact H2.
Qed.


End Init.

(** *** System-call buffers *)

(** Touching a byte makes its page writable and changes nothing. *)
Lemma check_write_run m0 ps s o a :
  apart s → saves m0 ps s o → a ≠ 0 → tracked s (page_of a) → zlen ps < MPROTECT_MAX_PAGES →
  ∃ s' o', LTCKPT_CHECK_WRITE page_writable a (s, o) = Ok () (s', o') ∧
    saves m0 (touch ps (page_of a)) s' o' ∧ same_maps s s' ∧
    mem_agree (λ x, tracked s (page_of x)) (mp_mem s') (mp_mem s).
Proof.
  intros Hap Hsv Ha Ht Hroom. unfold LTCKPT_CHECK_WRITE.
  rewrite (proj2 (truthy_true _) Ha), bind_getm.
  destruct (store_run m0 ps s o a (mp_mem s a) Hap Hsv Ht) as (s' & o' & H & Hsv' & Hsm & Hag).
  { unfold touch. case_decide; [lia|]. rewrite length_app. cbn. lia. }
  exists s', o'. split; [done|]. split; [done|]. split; [done|].
  intros x Hx. rewrite Hag by done. unfold upd. by destruct (Z.eqb_spec x a) as [->|].
Qed.

(** Stepping through a buffer by pages meets every page but perhaps the last. *)
Lemma page_step buf size i j :
  i <= j < size → j < i + PAGE_SIZE →
  page_of (buf + j) = page_of (buf + i) ∨
  (i + PAGE_SIZE < size ∧ page_of (buf + j) = page_of (buf + (i + PAGE_SIZE))) ∨
  page_of (buf + j) = page_of (buf + (size - 1)).
Proof. page_lia. Qed.

Lemma check_buff_loop_run m0 buf size fuel :
  0 < buf → ∀ i ps s o, 0 <= i → size <= i + PAGE_SIZE * Z.of_nat fuel →
  apart s → saves m0 ps s o → (∀ x, in_block buf size x → tracked s (page_of x)) →
  zlen ps + Z.of_nat fuel <= MPROTECT_MAX_PAGES →
  ∃ s' o' ps', check_buff_loop page_writable fuel buf size i (s, o) = Ok () (s', o') ∧
    saves m0 ps' s' o' ∧ same_maps s s' ∧ zlen ps' <= zlen ps + Z.of_nat fuel ∧
    (∀ p, p ∈ ps → p ∈ ps') ∧
    (∀ j, i <= j < size → page_of (buf + j) ∈ ps' ∨ page_of (buf + j) = page_of (buf + (size - 1))) ∧
    mem_agree (λ x, tracked s (page_of x)) (mp_mem s') (mp_mem s).
Proof.
  intros Hbuf. induction fuel as [|fuel IH]; intros i ps s o Hi Hf Hap Hsv Ht Hroom;
    cbn [check_buff_loop]; destruct (Z.ltb_spec i size) as [Hlt|Hge]; [exfalso; lia| | |].
  1, 3: exists s, o, ps; split_and!; try done; [lia|intros; lia].
  destruct (check_write_run m0 ps s o (buf + i) Hap Hsv) as (s1 & o1 & H1 & Hsv1 & Hsm1 & Hag1).
  { lia. }
  { apply Ht. unfold in_block. lia. }
  { lia. }
  rewrite (bind_Ok _ _ _ _ _ H1).
  assert (zlen (touch ps (page_of (buf + i))) <= zlen ps + 1) as Hlen.
  { unfold touch. case_decide; [lia|]. rewrite length_app. cbn. lia. }
  destruct (IH (i + PAGE_SIZE) (touch ps (page_of (buf + i))) s1 o1)
    as (s2 & o2 & ps2 & H2 & Hsv2 & Hsm2 & Hl2 & Hin2 & Hj2 & Hag2).
  { blk_lia. }
  { lia. }
  { by eapply apart_same. }
  { done. }
  { by destruct Hsm1 as [_ ->]. }
  { lia. }
  assert (∀ p, p ∈ touch ps (page_of (buf + i)) ↔ p ∈ ps ∨ p = page_of (buf + i)) as Htch.
  { intros p. change (touch ps (page_of (buf + i))) with (foldl touch ps [page_of (buf + i)]).
    by rewrite elem_of_touches, list_elem_of_singleton. }
  exists s2, o2, ps2. split; [done|]. split; [done|].
  split; [by apply (same_maps_trans s s1)|]. split; [lia|].
  split; [intros p Hp; apply Hin2, Htch; by left|]. split.
  - intros j Hj. destruct (decide (i + PAGE_SIZE <= j)) as [?|?]; [apply Hj2; lia|].
    destruct (page_step buf size i j) as [E|[[Hs E]|E]]; [lia|lia| | |by right]; rewrite E.
    + left. apply Hin2, Htch. by right.
    + apply (Hj2 (i + PAGE_SIZE)). lia.
  - destruct Hsm1 as [_ E]. rewrite E in Hag2. by etrans.
Qed.


End Run.

(** ** A kernel *)

(** A kernel whose state is the set of writable pages: it maps up to 8 MB at low addresses
    and its process has a heap of eight pages at 16 MB. *)
Definition kernel : Type := Z → bool.

Definition heap_start : Z := 16777216.
Definition heap_entry : map_entry :=
  mk_entry (mk_vma heap_start (heap_start + 8 * PAGE_SIZE) char_w (lit "[heap]"%string)) 112.

#[local] Instance kernel_vmem : VMem kernel := {
  mmap a n _ _ o := (if (a <=? MIN_MMAP_ADDR + PAGE_SIZE) && (n <=? 8388608) then a else MAP_FAILED, o);
  munmap _ _ o := (0, o);
  mprotect a n prot o :=
    (0, λ p, if (a / PAGE_SIZE <=? p) && (p <? (a + n + PAGE_SIZE - 1) / PAGE_SIZE)
             then Z.testbit prot 1 else o p);
}.

Definition kernel_writable (o : kernel) (p : Z) : bool := o p.

#[local] Instance kernel_mprotect_laws : MprotectLaws kernel kernel_writable.
Proof. split. intros a n prot o o' p _ _ [= <-]. done. Qed.

Lemma kernel_grants a n prot (o : kernel) : fst (mprotect a n prot o) = 0.
Proof. done. Qed.

#[local] Instance kernel_procfs : ProcFs kernel := {
  maps_lines _ := Some [Some heap_entry];
  mincore_errno _ _ := EFAULT;
}.

#[local] Instance kernel_sigcalls : SignalCalls kernel := {
  pthread_sigmask_segv o := (0, o);
  sigaction_segv o := (0, o);
}.

Lemma get_buff_low a n (o : kernel) b o' :
  ltkcpt_ctx_get_buff a n o = (b, o') → b ≠ 0 →
  b <= MIN_MMAP_ADDR + 2 * PAGE_SIZE ∧ n <= 8388608.
Proof.
  unfold ltkcpt_ctx_get_buff. cbn -[Z.mul Z.add]. set (len := if truthy _ then _ else _).
  assert (n <= len) as Hlen.
  { unfold len. case_match; [|lia]. pose proof (Z.mod_pos_bound n PAGE_SIZE ltac:(done)). lia. }
  destruct (Z.leb_spec a (MIN_MMAP_ADDR + PAGE_SIZE)) as [Ha|Ha]; cbn [andb].
  2:{ rewrite Z.eqb_refl. by intros [= <- <-]. }
  destruct (Z.leb_spec (len + 2 * PAGE_SIZE) 8388608) as [Hn|Hn].
  2:{ rewrite Z.eqb_refl. by intros [= <- <-]. }
  case_match; intros [= <- <-]; [done|]. intros _. unfold PAGE_SIZE in *. lia.
Qed.

#[local] Instance kernel_procfs_laws : ProcFsLaws kernel.
Proof.
  split.
  - intros o. exists [heap_entry]. split; [done|]. repeat constructor; vm_compute; congruence.
  - intros a n o b o' l e x Hb Hne Hl He _ Hx. destruct (get_buff_low a n o b o' Hb Hne) as [H1 H2].
    cbn in Hl. injection Hl as Hl. destruct l as [|e0 [|e1 l]]; try done. injection Hl as <-.
    apply list_elem_of_singleton in He as ->. cbn. unfold in_block, heap_start in *.
    change (MIN_MMAP_ADDR + 2 * PAGE_SIZE) with 417792 in H1. lia.
  - intros a o. by right.
Qed.

#[local] Instance kernel_signal_laws : SignalLaws.
Proof. by split. Qed.

Definition demo_ctx : ltckpt_ctx := set_skip_mmap 1 (set_checkpoint_interval 1 ctx0).


(** A heap of which no page is saved yet. *)
Definition demo_mprs : mprs :=
  mk_mprs (λ x, x mod 251) 413696 (λ _, mk_page 0 0) 0 (λ _, mk_page 0 0) 0 0 [heap_entry]
    (set_initialized 1 demo_ctx).

Lemma demo_tracked p : 4096 <= p < 4104 → tracked demo_mprs p.
Proof. intros Hp. left. split; [done|]. cbn. change (16777216 / PAGE_SIZE) with 4096.
  change ((heap_start + 8 * PAGE_SIZE) / PAGE_SIZE) with 4104. exact Hp. Qed.

Lemma demo_mpr_inv : mpr_inv kernel_writable demo_mprs (λ _, false).
Proof.
  split.
  - intros x Hx Hin. apply Exists_exists in Hx as (e & ->%list_elem_of_singleton & _ & Hpg).
    cbn in Hpg. change (heap_start / PAGE_SIZE) with 4096 in Hpg.
    change (mem_array demo_mprs) with 445712 in Hin. unfold in_block in Hin.
    change (MPROTECT_MAX_PAGES * PAGE_SIZE) with 4096000 in Hin. clear -Hpg Hin. page_lia.
  - exists (mp_mem demo_mprs), []. split; cbn; try done. constructor.
Qed.

Lemma mprotect_checkpoint_recoverable_witness :
  ∃ s1 o1 s2 o2, mprotect_top_of_the_loop 0 0 0 (demo_mprs, (λ _, false) : kernel) = Ok () (s1, o1) ∧
    cpu_stores kernel_writable [(16777216, 7); (16777217, 8); (16785000, 9)] (s1, o1)
      = Ok () (s2, o2) ∧
    num_pages s2 = 2 ∧ mp_mem s2 16785000 = 9 ∧ copied_back s2 16785000 = 16785000 mod 251.
Proof.
  destruct (mprotect_checkpoint_recoverable kernel_writable kernel_grants 0 0 0
    [(16777216, 7); (16777217, 8); (16785000, 9)] demo_mprs (λ _, false))
    as (s1 & o1 & s2 & o2 & H1 & H2 & Hm & Hc & Hn & _).
  - apply demo_mpr_inv.
  - discriminate.
  - reflexivity.
  - do 3 (apply Forall_cons; split; [apply demo_tracked; split; vm_compute; congruence|]).
    apply Forall_nil. exact I.
  - vm_compute. congruence.
  - exists s1, o1, s2, o2. split; [exact H1|]. split; [exact H2|]. split; [exact Hn|].
    assert (tracked demo_mprs (page_of 16785000)) as Ht
      by (apply demo_tracked; split; vm_compute; congruence).
    split; [exact (Hm _ Ht)|exact (Hc _ Ht)].
Defined.


(** The print hook protects all tracked pages again, also those already saved in the window:
    a page stored to before and after it is saved twice, the second time with a value of
    the window. *)
Lemma print_saves_page_twice :
  let r := (cpu_store kernel_writable 16777216 7 ;; mprotect_ctx_print_hook ;;
            cpu_store kernel_writable 16777216 8) (demo_mprs, (λ _, false) : kernel) in
  let s := (final r).1 in
  returned r = Some () ∧ num_pages s = 2 ∧
  pg_addr (mp_pages s 0) = 16777216 ∧ pg_addr (mp_pages s 1) = 16777216 ∧
  mp_mem s (pg_mem (mp_pages s 0)) = 16777216 mod 251 ∧ mp_mem s (pg_mem (mp_pages s 1)) = 7.
Proof. vm_compute. done. Qed.
