(* ===== verification/Softdirty.v ===== *)
(** * Checkpointing with soft-dirty bits

    [ltckpt/mechanisms/ltckpt_softdirty.c] and [include/common/util/pagemap.h]: the kernel
    marks the pages a process writes to; at a checkpoint the mechanism walks the page map of
    the tracked mappings, copies the marked pages and clears the marks.

    The kernel is the class [VMem] of [Common], the process map of [ProcMaps] and the class
    [PageMap] of the two files the mechanism uses.  The state of the mechanism lives in its
    own buffer, which is not tracked, so the marks of its pages are left out. *)
From stdpp Require Import base numbers list sets strings.
From Stdlib Require Import ZArith Lia.
From S2P Require Import Prelude Memory CString Ctx Profiling Writelog Common ProcMaps.

(** ** State *)

Definition SOFTDIRTY_MAX_PAGES : Z := 1000.
Definition PAGE_STAT_SIZE : Z := 50000.
Definition PAGE_NUM_HIST_SIZE : Z := 200000.
Definition UTIL_PAGEMMAP_DEFAULT_BUFF_SIZE : Z := PAGE_SIZE * 10.
Definition PME_SOFT_DIRTY : Z := 2 ^ 55.
Definition EINTR : Z := 4.

(** [util_pagemap_t]: the buffer and its length, and the two descriptors. *)
Record util_pagemap := mk_pagemap { pm_map : list Z; pm_buff_len : Z; pm_fd : Z; pm_cr_fd : Z }.

(** [pagestat_t] without the handle of the hash table. *)
Record pagestat := mk_pagestat { ps_addr : Z; ps_count : Z }.

(** The static [softdirty] and the fields of the [softdirty_t] it points to, with the
    memory of the process, where the array [mem] is.  The used entries of
    [page_statistics_mem] are a list, [pagestat_pos] is its length. *)
Record sdirty := mk_sdirty {
  sd_mem : mem;
  softdirty : Z;
  sd_num_mem_pages : Z;
  sd_proc_maps : list map_entry;
  sd_pagemap : util_pagemap;
  page_statistics : list pagestat;
  page_num_hist : Z → Z;
  page_num_hist_len : Z;
  stats_enabled : Z;
  sd_ctx : ltckpt_ctx;
}.

Definition set_sd_mem (v : mem) (s : sdirty) : sdirty :=
  mk_sdirty v (softdirty s) (sd_num_mem_pages s) (sd_proc_maps s) (sd_pagemap s)
    (page_statistics s) (page_num_hist s) (page_num_hist_len s) (stats_enabled s) (sd_ctx s).
Definition set_softdirty (v : Z) (s : sdirty) : sdirty :=
  mk_sdirty (sd_mem s) v (sd_num_mem_pages s) (sd_proc_maps s) (sd_pagemap s)
    (page_statistics s) (page_num_hist s) (page_num_hist_len s) (stats_enabled s) (sd_ctx s).
Definition set_sd_num_mem_pages (v : Z) (s : sdirty) : sdirty :=
  mk_sdirty (sd_mem s) (softdirty s) v (sd_proc_maps s) (sd_pagemap s)
    (page_statistics s) (page_num_hist s) (page_num_hist_len s) (stats_enabled s) (sd_ctx s).
Definition set_sd_proc_maps (v : list map_entry) (s : sdirty) : sdirty :=
  mk_sdirty (sd_mem s) (softdirty s) (sd_num_mem_pages s) v (sd_pagemap s)
    (page_statistics s) (page_num_hist s) (page_num_hist_len s) (stats_enabled s) (sd_ctx s).
Definition set_sd_pagemap (v : util_pagemap) (s : sdirty) : sdirty :=
  mk_sdirty (sd_mem s) (softdirty s) (sd_num_mem_pages s) (sd_proc_maps s) v
    (page_statistics s) (page_num_hist s) (page_num_hist_len s) (stats_enabled s) (sd_ctx s).
Definition set_page_statistics (v : list pagestat) (s : sdirty) : sdirty :=
  mk_sdirty (sd_mem s) (softdirty s) (sd_num_mem_pages s) (sd_proc_maps s) (sd_pagemap s)
    v (page_num_hist s) (page_num_hist_len s) (stats_enabled s) (sd_ctx s).
Definition set_page_num_hist (h : Z → Z) (n : Z) (s : sdirty) : sdirty :=
  mk_sdirty (sd_mem s) (softdirty s) (sd_num_mem_pages s) (sd_proc_maps s) (sd_pagemap s)
    (page_statistics s) h n (stats_enabled s) (sd_ctx s).
Definition set_stats_enabled (v : Z) (s : sdirty) : sdirty :=
  mk_sdirty (sd_mem s) (softdirty s) (sd_num_mem_pages s) (sd_proc_maps s) (sd_pagemap s)
    (page_statistics s) (page_num_hist s) (page_num_hist_len s) v (sd_ctx s).
Definition set_sd_ctx (v : ltckpt_ctx) (s : sdirty) : sdirty :=
  mk_sdirty (sd_mem s) (softdirty s) (sd_num_mem_pages s) (sd_proc_maps s) (sd_pagemap s)
    (page_statistics s) (page_num_hist s) (page_num_hist_len s) (stats_enabled s) v.

(** The layout of [softdirty_t] on x86-64: [mem] comes first; then the counter, the process
    map (16 bytes) and the page map (32 bytes), the statistics (72 bytes each) with their
    counter and table, the histogram with its counter, a flag, and the context (144 bytes). *)
Definition sizeof_softdirty : Z :=
  SOFTDIRTY_MAX_PAGES * PAGE_SIZE + 8 + 16 + 32 + PAGE_STAT_SIZE * 72 + 8 + 8
  + PAGE_NUM_HIST_SIZE * 8 + 8 + 8 + 144.

(** [/proc/self/pagemap] and [/proc/self/clear_refs] as the code meets them.  The calls
    return the result, the error number, and for [pread] the entries read. *)
Class PageMap (os : Type) := {
  open_pagemap : os → Z * os;
  open_clear_refs : os → Z * os;
  close_fd : Z → os → os;
  pread_pagemap : Z → Z → os → Z * Z * list Z * os;  (** size, offset *)
  pwrite_clear_refs : Z → os → Z * Z * list Z * os;  (** size *)
  cpu_marks : Z → os → os;  (** the processor marks a page it writes to *)
}.

Section Softdirty.
Context {os : Type} `{vmem : VMem os} `{procfs : ProcFs os} `{pagemap : PageMap os}.

(** The addresses [ltcpt_is_checkpointed_vma] compares with. *)
Context (tls_addr heap_addr data_addr : Z).

(** A bound on the attempts at a system call; the loops of the code have none. *)
Context (attempts : nat).

Local Abbreviation P := (prog (sdirty * os)).

Definition getd {A} (f : sdirty → A) : P A := gets (λ s, f s.1).
Definition putd (f : sdirty → sdirty) : P () := modify (λ s, (f s.1, s.2)).
Definition sysd {A} (f : os → A * os) : P A := λ s, let '(r, o) := f s.2 in Ok r (s.1, o).
Definition upd_sctx (f : ltckpt_ctx → ltckpt_ctx) : P () := putd (λ s, set_sd_ctx (f (sd_ctx s)) s).

(** ** The page map *)

Definition util_pagemap_init (map_buff_len : Z) : P Z :=
  fd ← sysd open_pagemap;
  putd (λ s, set_sd_pagemap (mk_pagemap (pm_map (sd_pagemap s)) (pm_buff_len (sd_pagemap s)) fd
               (pm_cr_fd (sd_pagemap s))) s) ;;
  if fd <? 0 then mret fd else
  cr_fd ← sysd open_clear_refs;
  putd (λ s, set_sd_pagemap (mk_pagemap (pm_map (sd_pagemap s)) (pm_buff_len (sd_pagemap s)) fd
               cr_fd) s) ;;
  if cr_fd <? 0 then modify (λ s, (s.1, close_fd fd s.2)) ;; mret cr_fd else
  putd (λ s, set_sd_pagemap (mk_pagemap [] map_buff_len fd cr_fd) s) ;;
  assert (truthy map_buff_len) ;;
  mret 0.

(** [while (((ret = call) >= 0 && ret != size) || (ret < 0 && errno == EINTR));] *)
Fixpoint retry (fuel : nat) (size : Z) (call : os → Z * Z * list Z * os) : P (Z * list Z) :=
  match fuel with
  | O => halt Diverge
  | S fuel' =>
      r ← sysd (λ o, let '(ret, errno, data, o') := call o in ((ret, errno, data), o'));
      let '(ret, errno, data) := r in
      if ((0 <=? ret) && negb (ret =? size)) || ((ret <? 0) && (errno =? EINTR))
      then retry fuel' size call
      else mret (ret, data)
  end.

Definition util_pagemap_get (addr len : Z) : P Z :=
  let size := len / PAGE_SIZE * 8 in
  let offset := addr / PAGE_SIZE * 8 in
  bl ← getd (λ s, pm_buff_len (sd_pagemap s));
  assert (size <=? bl) ;;
  r ← retry attempts size (pread_pagemap size offset);
  putd (λ s, set_sd_pagemap (mk_pagemap r.2 (pm_buff_len (sd_pagemap s)) (pm_fd (sd_pagemap s))
               (pm_cr_fd (sd_pagemap s))) s) ;;
  mret r.1.

Definition util_pagemap_clear_refs : P Z :=
  r ← retry attempts 2 (pwrite_clear_refs 2); mret r.1.

(** The loop over the entries of the buffer from [addr] on: a negative status ends it. *)
Fixpoint walk_entries (flags : Z) (cb : Z → Z → P Z) (entries : list Z) (addr ret : Z) : P Z :=
  match entries with
  | [] => mret ret
  | entry :: entries' =>
      if negb (truthy flags) || truthy (Z.land entry flags) then
        ret ← cb entry addr;
        if ret <? 0 then mret ret else walk_entries flags cb entries' (addr + PAGE_SIZE) ret
      else walk_entries flags cb entries' (addr + PAGE_SIZE) ret
  end.

(** The loop of [util_pagemap_walk], one iteration per buffer of the page map. *)
Fixpoint walk_loop (fuel : nat) (flags : Z) (cb : Z → Z → P Z) (addr len ret : Z) : P Z :=
  if len =? 0 then mret ret else
  match fuel with
  | O => halt Diverge
  | S fuel' =>
      let size := Z.min UTIL_PAGEMMAP_DEFAULT_BUFF_SIZE len in
      ret ← util_pagemap_get addr size;
      if ret <? 0 then mret ret else
      let num_entries := size / PAGE_SIZE in
      entries ← getd (λ s, take (Z.to_nat num_entries) (pm_map (sd_pagemap s)));
      ret ← walk_entries flags cb entries addr ret;
      if ret <? 0 then mret ret else
      walk_loop fuel' flags cb (addr + num_entries * PAGE_SIZE) (len - size) ret
  end.

Definition util_pagemap_walk (addr len flags : Z) (cb : Z → Z → P Z) : P Z :=
  assert (len mod PAGE_SIZE =? 0) ;;
  walk_loop (Z.to_nat (len / PAGE_SIZE)) flags cb addr len 0.

Fixpoint util_pagemap_proc_walk (maps : list map_entry) (flags : Z) (cb : Z → Z → P Z) : P Z :=
  match maps with
  | [] => mret 0
  | e :: maps' =>
      ret ← util_pagemap_walk (vm_start (e_vma e)) (vm_end (e_vma e) - vm_start (e_vma e)) flags cb;
      if ret <? 0 then mret ret else util_pagemap_proc_walk maps' flags cb
  end.

(** ** Checkpoints *)

(** [ltckpt_top_of_the_loop_cb]: save a page. *)
Definition ltckpt_top_of_the_loop_cb (entry addr : Z) : P Z :=
  n ← getd sd_num_mem_pages;
  assert (n <? SOFTDIRTY_MAX_PAGES) ;;
  putd (λ s, set_sd_mem (store_bytes (sd_mem s) (softdirty s + n * PAGE_SIZE)
               (load_bytes (sd_mem s) addr (Z.to_nat PAGE_SIZE))) s) ;;
  putd (set_sd_num_mem_pages (u64 (n + 1))) ;;
  upd_sctx (CTX_INC num_cows set_num_cows) ;;
  mret 0.

(** [HASH_FIND_PTR]: the index of the statistics of a page. *)
Fixpoint find_stat (addr : Z) (l : list pagestat) : option nat :=
  match l with
  | [] => None
  | st :: l' => if ps_addr st =? addr then Some O else S <$> find_stat addr l'
  end.

(** [ltckpt_top_of_the_loop_stat_cb]. *)
Definition ltckpt_top_of_the_loop_stat_cb (entry addr : Z) : P Z :=
  found ← getd (λ s, find_stat addr (page_statistics s));
  i ← match found with
      | Some i => mret i
      | None =>
          pos ← getd (λ s, length (page_statistics s));
          if PAGE_STAT_SIZE <=? Z.of_nat pos then halt Panic else
          putd (λ s, set_page_statistics (page_statistics s ++ [mk_pagestat addr 0]) s) ;;
          mret pos
      end;
  putd (λ s, set_page_statistics
               (alter (λ st, mk_pagestat (ps_addr st) (u32 (ps_count st + 1))) i (page_statistics s)) s) ;;
  ltckpt_top_of_the_loop_cb entry addr.

Definition ltckpt_init_softdirty_cb (own : Z) (c : ltckpt_ctx) (entry : map_entry) : parse_ret :=
  init_cb tls_addr heap_addr data_addr own c entry.

(** [ltckpt_init_softdirty]; anonymous memory is zeroed, and [ltckpt_ctx_set] copies the
    context to a NULL buffer too. *)
Definition ltckpt_init_softdirty : P () :=
  buff ← sysd (ltkcpt_ctx_get_buff MIN_MMAP_ADDR (sizeof_softdirty + UTIL_PAGEMMAP_DEFAULT_BUFF_SIZE));
  if buff =? 0 then halt Sigsegv else
  putd (λ s, mk_sdirty (sd_mem s) buff 0 [] (mk_pagemap [] 0 0 0) [] (λ _, 0) 0 0 (sd_ctx s)) ;;
  upd_sctx (set_initialized 1) ;;
  putd (λ s, set_stats_enabled (page_statistic_enabled (sd_ctx s)) s) ;;
  putd (set_page_statistics []) ;;
  putd (λ s, set_page_num_hist (page_num_hist s) 0 s) ;;
  c ← getd sd_ctx;
  r ← util_proc_maps_parse_filter (ltckpt_init_softdirty_cb buff c);
  putd (set_sd_proc_maps r.2) ;;
  when (truthy r.1) (halt Panic) ;;
  ret ← util_pagemap_init UTIL_PAGEMMAP_DEFAULT_BUFF_SIZE;
  when (truthy ret) (halt Panic) ;;
  ret ← util_pagemap_clear_refs;
  when (ret <? 0) (halt Panic).

(** The histogram of saved pages, a ring. *)
Definition record_num_pages (s : sdirty) : sdirty :=
  let n := page_num_hist_len s + 1 in
  set_page_num_hist (upd (page_num_hist s) (page_num_hist_len s) (sd_num_mem_pages s))
    (if PAGE_NUM_HIST_SIZE <=? n then 0 else n) s.

Definition softdirty_top_of_the_loop : P () :=
  go ← getd (λ s, fst (CTX_NEW_TOL_OR_RETURN (sd_ctx s)));
  upd_sctx (λ c, snd (CTX_NEW_TOL_OR_RETURN c)) ;;
  if negb go then skip else
  c ← getd sd_ctx;
  when (negb (truthy (initialized c))) ltckpt_init_softdirty ;;
  stats ← getd stats_enabled;
  when (truthy stats) (putd record_num_pages) ;;
  putd (set_sd_num_mem_pages 0) ;;
  maps ← getd sd_proc_maps;
  ret ← util_pagemap_proc_walk maps PME_SOFT_DIRTY
          (if truthy stats then ltckpt_top_of_the_loop_stat_cb else ltckpt_top_of_the_loop_cb);
  when (ret <? 0) (halt Panic) ;;
  ret ← util_pagemap_clear_refs;
  when (ret <? 0) (halt Panic) ;;
  upd_sctx CTX_NEW_CHECKPOINT.

Definition softdirty_late_init_hook : P () :=
  c ← getd sd_ctx;
  when (negb (truthy (lazy_init c)) && truthy (checkpoint_interval c)) ltckpt_init_softdirty.

(** ** The program *)

(** A store of a byte, for which the processor marks the page. *)
Definition dirty_store (a b : Z) : P () :=
  modify (λ s, (set_sd_mem (upd (sd_mem s.1) a b) s.1, cpu_marks (page_of a) s.2)).

Fixpoint dirty_stores (l : list (Z * Z)) : P () :=
  match l with
  | [] => skip
  | (a, b) :: l' => dirty_store a b ;; dirty_stores l'
  end.

(** Windows of the program, each closed by a top of the loop. *)
Fixpoint sd_windows (ls : list (list (Z * Z))) : P () :=
  match ls with
  | [] => skip
  | l :: ls' => dirty_stores l ;; softdirty_top_of_the_loop ;; sd_windows ls'
  end.

End Softdirty.

(** ** The kernel *)

(** A system call that is tried again until it transfers [size] bytes: it does so within
    [n] attempts, all earlier ones being short or interrupted. *)
Inductive completes {os} (size : Z) (call : os → Z * Z * list Z * os)
    : nat → os → list Z → os → Prop :=
  | completes_now n o errno data o' :
      call o = (size, errno, data, o') → completes size call (S n) o data o'
  | completes_later n o ret errno data1 o1 data o' :
      call o = (ret, errno, data1, o1) →
      (0 <= ret ∧ ret ≠ size) ∨ (ret < 0 ∧ errno = EINTR) →
      completes size call n o1 data o' → completes size call (S n) o data o'.

(** What the mechanism relies on: reads of the page map and the request to clear the marks
    complete; the bit [PME_SOFT_DIRTY] of an entry is the mark of its page ([soft_dirty]),
    which a store sets and the request clears. *)
Class SoftDirtyLaws (os : Type) `{pagemap : PageMap os} (soft_dirty : os → Z → bool)
    (attempts : nat) := {
  reads_complete n p (o : os) : 0 <= n → ∃ data o',
    completes (n * 8) (pread_pagemap (n * 8) (p * 8)) attempts o data o' ∧
    zlen data = n ∧
    (∀ i e, data !! i = Some e → truthy (Z.land e PME_SOFT_DIRTY) = soft_dirty o (p + Z.of_nat i)) ∧
    (∀ q, soft_dirty o' q = soft_dirty o q);
  clears_complete (o : os) : ∃ data o',
    completes 2 (pwrite_clear_refs 2) attempts o data o' ∧ ∀ q, soft_dirty o' q = false;
  stores_mark p (o : os) q : soft_dirty (cpu_marks p o) q = (q =? p) || soft_dirty o q;
  opens_pagemap (o : os) : 0 <= fst (open_pagemap o);
  opens_clear_refs (o : os) : 0 <= fst (open_clear_refs o);
}.

(** ** What a checkpoint saves *)

(** The pages of the tracked mappings, in the order of the walk. *)
Definition entry_pages (e : map_entry) : list Z :=
  seqZ (page_of (vm_start (e_vma e))) ((vm_end (e_vma e) - vm_start (e_vma e)) / PAGE_SIZE).
Definition tracked_pages (maps : list map_entry) : list Z := maps ≫= entry_pages.

(** The effect of the callbacks on the state, where they succeed. *)
Definition save_page (p : Z) (s : sdirty) : sdirty :=
  set_sd_ctx (CTX_INC num_cows set_num_cows (sd_ctx s))
    (set_sd_num_mem_pages (u64 (sd_num_mem_pages s + 1))
      (set_sd_mem (store_bytes (sd_mem s) (softdirty s + sd_num_mem_pages s * PAGE_SIZE)
                     (load_bytes (sd_mem s) (p * PAGE_SIZE) (Z.to_nat PAGE_SIZE))) s)).

Definition bump_stat (st : pagestat) : pagestat := mk_pagestat (ps_addr st) (u32 (ps_count st + 1)).

Definition count_stat (addr : Z) (l : list pagestat) : list pagestat :=
  match find_stat addr l with
  | Some i => alter bump_stat i l
  | None => l ++ [bump_stat (mk_pagestat addr 0)]
  end.

Definition save_page_stat (p : Z) (s : sdirty) : sdirty :=
  save_page p (set_page_statistics (count_stat (p * PAGE_SIZE) (page_statistics s)) s).

Definition save_of (stats : bool) : Z → sdirty → sdirty := if stats then save_page_stat else save_page.
Definition saved_all (stats : bool) (ps : list Z) (s : sdirty) : sdirty :=
  foldl (λ s p, save_of stats p s) s ps.

(** Room for [ps] more pages, and for their statistics if these are enabled. *)
Definition room (stats : bool) (ps : list Z) (s : sdirty) : Prop :=
  0 <= sd_num_mem_pages s ∧ sd_num_mem_pages s + zlen ps <= SOFTDIRTY_MAX_PAGES ∧
  (stats = true → zlen (page_statistics s) + zlen ps <= PAGE_STAT_SIZE).

Section Run.
Context {os : Type} `{vmem : VMem os} `{procfs : ProcFs os} `{pagemap : PageMap os}.
Context (soft_dirty : os → Z → bool) (attempts : nat) `{!SoftDirtyLaws os soft_dirty attempts}.

Lemma bind_getd {A B} (f : sdirty → B) (k : B → prog (sdirty * os) A) s o :
  (getd f ≫= k) (s, o) = k (f s) (s, o).
Proof. done. Qed.

Lemma bind_putd {A} f (k : () → prog (sdirty * os) A) s o : (putd f ≫= k) (s, o) = k () (f s, o).
Proof. done. Qed.

Lemma bind_sysd {A B} (f : os → B * os) (k : B → prog (sdirty * os) A) s o r o' :
  f o = (r, o') → (sysd f ≫= k) (s, o) = k r (s, o').
Proof. intros H. unfold sysd, mbind, prog_bind. cbn [fst snd]. by rewrite H. Qed.

Lemma retry_run size (call : os → Z * Z * list Z * os) n o data o' s :
  0 <= size → completes size call n o data o' → retry n size call (s, o) = Ok (size, data) (s, o').
Proof.
  intros Hs. induction 1 as [n o errno data o' E|n o ret errno data1 o1 data o' E Hr _ IH]; cbn [retry].
  - erewrite bind_sysd by (rewrite E; reflexivity). cbv beta iota.
    rewrite Z.eqb_refl, andb_false_r, (proj2 (Z.ltb_ge _ _)) by done. done.
  - erewrite bind_sysd by (rewrite E; reflexivity). cbv beta iota.
    destruct Hr as [[H1 H2]|[H1 ->]].
    + by rewrite (proj2 (Z.leb_le _ _)), (proj2 (Z.eqb_neq _ _)) by done.
    + rewrite (proj2 (Z.ltb_lt _ _)), Z.eqb_refl, orb_true_r by done. done.
Qed.

Lemma room_pagemap stats ps s pm : room stats ps s → room stats ps (set_sd_pagemap pm s).
Proof. done. Qed.

Lemma saved_all_cons stats p ps s :
  saved_all stats (p :: ps) s = saved_all stats ps (save_of stats p s).
Proof. done. Qed.

Lemma saved_all_pagemap stats ps s pm :
  saved_all stats ps (set_sd_pagemap pm s) = set_sd_pagemap pm (saved_all stats ps s).
Proof.
  revert s. induction ps as [|p ps IH]; intros s; [done|]. rewrite !saved_all_cons, <- IH.
  f_equal. unfold save_of, save_page_stat, save_page.
  destruct stats; unfold set_sd_ctx, set_sd_num_mem_pages, set_sd_mem, set_page_statistics, set_sd_pagemap;
    cbn [sd_mem softdirty sd_num_mem_pages sd_proc_maps sd_pagemap page_statistics page_num_hist
         page_num_hist_len stats_enabled sd_ctx]; reflexivity.
Qed.

Lemma length_count_stat a l : zlen (count_stat a l) <= zlen l + 1.
Proof.
  unfold count_stat. destruct (find_stat a l).
  - rewrite length_alter. lia.
  - rewrite length_app. cbn. lia.
Qed.

Lemma room_step stats p ps s :
  room stats (p :: ps) s → room stats ps (save_of stats p s).
Proof.
  intros (H0 & H1 & H2). unfold room in *. cbn [length] in *.
  assert (u64 (sd_num_mem_pages s + 1) = sd_num_mem_pages s + 1) as E.
  { apply u64_small. unfold SOFTDIRTY_MAX_PAGES in *. lia. }
  assert (sd_num_mem_pages (save_of stats p s) = sd_num_mem_pages s + 1) as ->
    by (rewrite <- E; by destruct stats).
  split; [lia|]. split; [lia|]. destruct stats; [|done]. intros _. specialize (H2 eq_refl).
  pose proof (length_count_stat (p * PAGE_SIZE) (page_statistics s)).
  change (page_statistics (save_of true p s)) with (count_stat (p * PAGE_SIZE) (page_statistics s)).
  lia.
Qed.

Definition cb_of (stats : bool) : Z → Z → prog (sdirty * os) Z :=
  if stats then ltckpt_top_of_the_loop_stat_cb else ltckpt_top_of_the_loop_cb.

Lemma find_stat_lt a l i : find_stat a l = Some i → (i < length l)%nat.
Proof.
  revert i. induction l as [|st l IH]; intros i; cbn; [done|].
  destruct (_ =? _); [intros [= <-]; lia|].
  destruct (find_stat a l) as [j|]; cbn; [|done]. intros [= <-]. specialize (IH j eq_refl). lia.
Qed.

Lemma cb_plain_run e p s (o : os) :
  sd_num_mem_pages s < SOFTDIRTY_MAX_PAGES →
  ltckpt_top_of_the_loop_cb e (p * PAGE_SIZE) (s, o) = Ok 0 (save_page p s, o).
Proof.
  intros H. unfold ltckpt_top_of_the_loop_cb. rewrite bind_getd, bind_assert by lia. done.
Qed.

Lemma cb_run stats e p ps s (o : os) :
  room stats (p :: ps) s →
  cb_of stats e (p * PAGE_SIZE) (s, o) = Ok 0 (save_of stats p s, o).
Proof.
  intros (H0 & H1 & H2). cbn [length] in *. destruct stats; [|apply cb_plain_run; lia].
  specialize (H2 eq_refl). cbn [cb_of save_of]. unfold ltckpt_top_of_the_loop_stat_cb.
  rewrite bind_getd. unfold save_page_stat, count_stat.
  destruct (find_stat (p * PAGE_SIZE) (page_statistics s)) as [i|] eqn:E.
  - rewrite bind_ret, bind_putd. rewrite cb_plain_run by (cbn; lia). done.
  - rewrite bind_assoc, bind_getd. rewrite (proj2 (Z.leb_gt _ _)) by lia.
    rewrite bind_assoc, bind_putd, bind_ret, bind_putd, cb_plain_run by (cbn; lia).
    cbn [page_statistics set_page_statistics]. do 2 f_equal. unfold save_page. cbn.
    f_equal. rewrite alter_app_r_alt by lia. by rewrite Nat.sub_diag.
Qed.

(** *** The walk *)

(** The pages from [p] on, [n] of them, that are marked. *)
Definition dirty_pages (dirty : Z → bool) (p n : Z) : list Z :=
  filter (λ q, dirty q = true) (seqZ p n).

Lemma walk_entries_run stats (dirty : Z → bool) es p r s (o : os) :
  0 <= r → (∀ i e, es !! i = Some e → truthy (Z.land e PME_SOFT_DIRTY) = dirty (p + Z.of_nat i)) →
  room stats (dirty_pages dirty p (zlen es)) s →
  ∃ r', 0 <= r' ∧ walk_entries PME_SOFT_DIRTY (cb_of stats) es (p * PAGE_SIZE) r (s, o)
    = Ok r' (saved_all stats (dirty_pages dirty p (zlen es)) s, o).
Proof.
  revert p r s. induction es as [|e es IH]; intros p r s Hr Hd Hroom; [by exists r|].
  pose proof (Hd O e eq_refl) as He. rewrite Z.add_0_r in He.
  assert (∀ i e, es !! i = Some e →
    truthy (Z.land e PME_SOFT_DIRTY) = dirty (p + 1 + Z.of_nat i)) as Hd'.
  { intros i e' Hi. rewrite (Hd (S i) e' Hi). f_equal. lia. }
  assert (dirty_pages dirty p (zlen (e :: es))
    = (if dirty p then [p] else []) ++ dirty_pages dirty (p + 1) (zlen es)) as Eps.
  { unfold dirty_pages. rewrite (seqZ_cons p) by (cbn; lia). rewrite filter_cons.
    replace (Z.pred (zlen (e :: es))) with (zlen es) by (cbn [length]; lia).
    destruct (dirty p); [by rewrite decide_True|by rewrite decide_False]. }
  rewrite Eps in *. cbn [walk_entries]. change (negb (truthy PME_SOFT_DIRTY)) with false.
  cbn [orb]. rewrite He. replace (p * PAGE_SIZE + PAGE_SIZE) with ((p + 1) * PAGE_SIZE) by lia.
  destruct (dirty p); cbn [app] in *; [|by apply IH].
  rewrite (bind_Ok _ _ _ _ _ (cb_run stats e p _ s o Hroom)). change (0 <? 0) with false.
  cbv iota. apply IH; [done|done|]. by apply room_step.
Qed.

(** The page map is read a buffer at a time; only the buffer of the state changes. *)
Definition with_buffer (s s' : sdirty) : Prop :=
  ∃ pm, s' = set_sd_pagemap pm s ∧ pm_buff_len pm = pm_buff_len (sd_pagemap s).

Lemma get_run p n s (o : os) :
  0 <= n → n * 8 <= pm_buff_len (sd_pagemap s) →
  ∃ data o' s', util_pagemap_get attempts (p * PAGE_SIZE) (n * PAGE_SIZE) (s, o) = Ok (n * 8) (s', o') ∧
    with_buffer s s' ∧ pm_map (sd_pagemap s') = data ∧ zlen data = n ∧
    (∀ i e, data !! i = Some e → truthy (Z.land e PME_SOFT_DIRTY) = soft_dirty o (p + Z.of_nat i)) ∧
    (∀ q, soft_dirty o' q = soft_dirty o q).
Proof.
  intros Hn Hl. destruct (reads_complete n p o Hn) as (data & o' & Hc & Hlen & Hbits & Hsame).
  set (s' := set_sd_pagemap (mk_pagemap data (pm_buff_len (sd_pagemap s)) (pm_fd (sd_pagemap s))
               (pm_cr_fd (sd_pagemap s))) s).
  exists data, o', s'. split; [|by split_and!; [eexists|..]].
  unfold util_pagemap_get. rewrite !Z.div_mul by done.
  rewrite bind_getd, bind_assert by lia.
  pose proof (retry_run (n * 8) _ _ _ _ _ s ltac:(lia) Hc) as Hr.
  by rewrite (bind_Ok _ _ _ _ _ Hr).
Qed.

Lemma dirty_pages_app dirty p n k :
  0 <= n → 0 <= k → dirty_pages dirty p (n + k) = dirty_pages dirty p n ++ dirty_pages dirty (p + n) k.
Proof. intros. unfold dirty_pages. by rewrite seqZ_app, filter_app. Qed.

Lemma dirty_pages_ext d d' p n : (∀ q, d q = d' q) → dirty_pages d p n = dirty_pages d' p n.
Proof. intros H. apply list_filter_iff. intros q. by rewrite H. Qed.

Lemma room_app stats ps ps' s :
  room stats (ps ++ ps') s → room stats ps s ∧ room stats ps' (saved_all stats ps s).
Proof.
  revert s. induction ps as [|p ps IH]; intros s H.
  - split; [|done]. destruct H as (H0 & H1 & H2). cbn in *. unfold room. cbn [length].
    split_and!; [done|lia|]. intros Hs. specialize (H2 Hs). lia.
  - cbn [app] in H. destruct (IH _ (room_step _ _ _ _ H)) as [H1 H2]. split; [|done].
    destruct H as (A0 & A1 & A2). unfold room. cbn [length] in *. rewrite length_app in *.
    split_and!; [done|lia|]. intros Hs. specialize (A2 Hs). lia.
Qed.

Lemma saved_all_app stats ps ps' s :
  saved_all stats (ps ++ ps') s = saved_all stats ps' (saved_all stats ps s).
Proof. apply foldl_app. Qed.

Lemma saved_all_sd_pagemap stats ps s : sd_pagemap (saved_all stats ps s) = sd_pagemap s.
Proof.
  revert s. induction ps as [|p ps IH]; intros s; [done|]. rewrite saved_all_cons, IH.
  by destruct stats.
Qed.

Lemma with_buffer_refl s : with_buffer s s.
Proof. exists (sd_pagemap s). split; [by destruct s|done]. Qed.

Lemma with_buffer_saved stats ps s s' :
  with_buffer s s' → with_buffer (saved_all stats ps s) (saved_all stats ps s').
Proof.
  intros (pm & -> & Hl). exists pm. split; [apply saved_all_pagemap|].
  by rewrite saved_all_sd_pagemap.
Qed.

Lemma with_buffer_trans s1 s2 s3 : with_buffer s1 s2 → with_buffer s2 s3 → with_buffer s1 s3.
Proof. intros (pm & -> & H) (pm' & -> & H'). exists pm'. split; [done|]. by rewrite H', <- H. Qed.

Lemma room_with_buffer stats ps s s' : with_buffer s s' → room stats ps s → room stats ps s'.
Proof. by intros (pm & -> & _). Qed.

Lemma walk_loop_run stats dirty fuel p n r s (o : os) :
  (∀ q, soft_dirty o q = dirty q) → 0 <= r → 0 <= n <= Z.of_nat fuel →
  pm_buff_len (sd_pagemap s) = UTIL_PAGEMMAP_DEFAULT_BUFF_SIZE →
  room stats (dirty_pages dirty p n) s →
  ∃ r' s' o', walk_loop attempts fuel PME_SOFT_DIRTY (cb_of stats) (p * PAGE_SIZE) (n * PAGE_SIZE) r (s, o)
      = Ok r' (s', o') ∧ 0 <= r' ∧
    with_buffer (saved_all stats (dirty_pages dirty p n) s) s' ∧ (∀ q, soft_dirty o' q = dirty q).
Proof.
  revert p n r s o. induction fuel as [|fuel IH]; intros p n r s o Hd Hr Hn Hb Hroom.
  { replace n with 0 by lia. exists r, s, o. split_and!; try done. apply with_buffer_refl. }
  cbn [walk_loop]. destruct (Z.eqb_spec (n * PAGE_SIZE) 0) as [E|E].
  { replace n with 0 by (unfold PAGE_SIZE in *; lia). exists r, s, o. split_and!; try done.
    apply with_buffer_refl. }
  set (k := Z.min 10 n).
  assert (Z.min UTIL_PAGEMMAP_DEFAULT_BUFF_SIZE (n * PAGE_SIZE) = k * PAGE_SIZE) as ->
    by (unfold UTIL_PAGEMMAP_DEFAULT_BUFF_SIZE, PAGE_SIZE, k; lia).
  assert (0 < k <= n) as Hk by (unfold PAGE_SIZE in E; lia).
  replace n with (k + (n - k)) in Hroom |- * by lia.
  rewrite dirty_pages_app in Hroom |- * by lia.
  destruct (room_app _ _ _ _ Hroom) as [Hroom1 Hroom2].
  destruct (get_run p k s o) as (data & o1 & s1 & H1 & Hw1 & Hm1 & Hl1 & Hd1 & Hs1).
  { lia. }
  { rewrite Hb. unfold UTIL_PAGEMMAP_DEFAULT_BUFF_SIZE, PAGE_SIZE. lia. }
  rewrite (bind_Ok _ _ _ _ _ H1), (proj2 (Z.ltb_ge _ _)), bind_getd by lia.
  rewrite Z.div_mul by done. rewrite Hm1, take_ge by lia.
  assert (∀ i e, data !! i = Some e → truthy (Z.land e PME_SOFT_DIRTY) = dirty (p + Z.of_nat i)) as Hd1'.
  { intros i e Hi. rewrite <- Hd. by apply Hd1. }
  destruct (walk_entries_run stats dirty data p (k * 8) s1 o1 ltac:(lia) Hd1') as (r2 & Hr2 & H2).
  { rewrite Hl1. by apply (room_with_buffer _ _ s). }
  rewrite Hl1 in H2. rewrite (bind_Ok _ _ _ _ _ H2), (proj2 (Z.ltb_ge _ _)) by lia.
  replace (p * PAGE_SIZE + k * PAGE_SIZE) with ((p + k) * PAGE_SIZE) by lia.
  replace ((k + (n - k)) * PAGE_SIZE - k * PAGE_SIZE) with ((n - k) * PAGE_SIZE) by lia.
  pose proof (with_buffer_saved stats (dirty_pages dirty p k) _ _ Hw1) as Hw2.
  destruct (IH (p + k) (n - k) r2 (saved_all stats (dirty_pages dirty p k) s1) o1)
    as (r3 & s3 & o3 & H3 & Hr3 & Hw3 & Hs3).
  { intros q. by rewrite Hs1. }
  { done. }
  { lia. }
  { destruct Hw2 as (pm & -> & Hpl). cbn. by rewrite Hpl, saved_all_sd_pagemap. }
  { by apply (room_with_buffer _ _ _ _ Hw2). }
  exists r3, s3, o3. split_and!; try done. rewrite saved_all_app.
  apply (with_buffer_trans _ (saved_all stats (dirty_pages dirty (p + k) (n - k))
    (saved_all stats (dirty_pages dirty p k) s1))); [|done]. by apply with_buffer_saved.
Qed.

(** The marked pages of the tracked mappings. *)
Definition dirty_tracked (dirty : Z → bool) (maps : list map_entry) : list Z :=
  filter (λ q, dirty q = true) (tracked_pages maps).

Lemma proc_walk_run stats dirty maps s (o : os) :
  (∀ q, soft_dirty o q = dirty q) → Forall entry_aligned maps →
  pm_buff_len (sd_pagemap s) = UTIL_PAGEMMAP_DEFAULT_BUFF_SIZE →
  room stats (dirty_tracked dirty maps) s →
  ∃ s' o', util_pagemap_proc_walk attempts maps PME_SOFT_DIRTY (cb_of stats) (s, o) = Ok 0 (s', o') ∧
    with_buffer (saved_all stats (dirty_tracked dirty maps) s) s' ∧ (∀ q, soft_dirty o' q = dirty q).
Proof.
  revert s o. induction maps as [|e maps IH]; intros s o Hd Hal Hb Hroom.
  { exists s, o. split_and!; try done. apply with_buffer_refl. }
  apply Forall_cons in Hal as [(A1 & A2 & A3) Hal].
  set (p := page_of (vm_start (e_vma e))). set (n := (vm_end (e_vma e) - vm_start (e_vma e)) / PAGE_SIZE).
  assert (vm_start (e_vma e) = p * PAGE_SIZE) as Es by (clear -A1; page_lia).
  assert (vm_end (e_vma e) - vm_start (e_vma e) = n * PAGE_SIZE ∧ 0 <= n) as [En Hn]
    by (clear -A1 A2 A3; unfold n; page_lia).
  assert (dirty_tracked dirty (e :: maps) = dirty_pages dirty p n ++ dirty_tracked dirty maps) as Ed.
  { unfold dirty_tracked, tracked_pages. cbn. by rewrite filter_app. }
  rewrite Ed in *. destruct (room_app _ _ _ _ Hroom) as [Hroom1 Hroom2].
  cbn [util_pagemap_proc_walk]. unfold util_pagemap_walk. rewrite En, Es.
  rewrite Z.mod_mul, Z.div_mul, bind_assoc, bind_assert by done.
  destruct (walk_loop_run stats dirty (Z.to_nat n) p n 0 s o) as (r1 & s1 & o1 & H1 & Hr1 & Hw1 & Hd1);
    [done|done|lia|done|done|].
  rewrite (bind_Ok _ _ _ _ _ H1), (proj2 (Z.ltb_ge _ _)) by done.
  destruct (IH s1 o1) as (s2 & o2 & H2 & Hw2 & Hd2); [done|done| | |].
  { destruct Hw1 as (pm & -> & Hpl). cbn. by rewrite Hpl, saved_all_sd_pagemap. }
  { by apply (room_with_buffer _ _ _ _ Hw1). }
  exists s2, o2. split; [done|]. split; [|done]. rewrite saved_all_app.
  eapply with_buffer_trans; [|done]. by apply with_buffer_saved.
Qed.

Lemma clear_run s (o : os) :
  ∃ o', util_pagemap_clear_refs attempts (s, o) = Ok 2 (s, o') ∧ ∀ q, soft_dirty o' q = false.
Proof.
  destruct (clears_complete o) as (data & o' & Hc & Hq). exists o'. split; [|done].
  unfold util_pagemap_clear_refs.
  pose proof (retry_run 2 _ _ _ _ _ s ltac:(lia) Hc) as Hr. by rewrite (bind_Ok _ _ _ _ _ Hr).
Qed.

(** *** The copies *)

(** The tracked mappings do not meet the array of copies. *)
Definition sd_apart (s : sdirty) : Prop :=
  ∀ x, page_of x ∈ tracked_pages (sd_proc_maps s) →
  ¬ in_block (softdirty s) (SOFTDIRTY_MAX_PAGES * PAGE_SIZE) x.

(** The array of copies holds the pages [ps] as they are in [m]. *)
Definition copies (ps : list Z) (m : mem) (s : sdirty) : Prop :=
  sd_num_mem_pages s = zlen ps ∧
  ∀ i x, ps !! i = Some (page_of x) →
    sd_mem s (softdirty s + Z.of_nat i * PAGE_SIZE + x mod PAGE_SIZE) = m x.

Definition same_place (s s' : sdirty) : Prop :=
  softdirty s' = softdirty s ∧ sd_proc_maps s' = sd_proc_maps s.

Lemma save_copies stats p ps m s :
  sd_apart s → p ∈ tracked_pages (sd_proc_maps s) → zlen ps < SOFTDIRTY_MAX_PAGES →
  copies ps m s → mem_agree (λ x, page_of x ∈ tracked_pages (sd_proc_maps s)) (sd_mem s) m →
  let s' := save_of stats p s in
  copies (ps ++ [p]) m s' ∧ same_place s s' ∧
  mem_agree (λ x, page_of x ∈ tracked_pages (sd_proc_maps s)) (sd_mem s') m.
Proof.
  intros Hap Hp Hlt [Hn Hc] Hag s'.
  assert (same_place s s') as Hsp by by destruct stats.
  assert (sd_mem s' = store_bytes (sd_mem s) (softdirty s + zlen ps * PAGE_SIZE)
    (load_bytes (sd_mem s) (p * PAGE_SIZE) (Z.to_nat PAGE_SIZE))) as Em.
  { rewrite <- Hn. by destruct stats. }
  assert (∀ x, ¬ in_block (softdirty s + zlen ps * PAGE_SIZE) PAGE_SIZE x → sd_mem s' x = sd_mem s x)
    as Hout.
  { intros x Hx. rewrite Em. apply store_bytes_out. by rewrite length_load_bytes. }
  split; [|split; [done|]].
  - split.
    { rewrite length_app. cbn [length]. transitivity (u64 (sd_num_mem_pages s + 1));
        [by destruct stats|]. rewrite u64_small; unfold SOFTDIRTY_MAX_PAGES in *; lia. }
    destruct Hsp as [-> _]. intros i x Hi. pose proof (Z.mod_pos_bound x PAGE_SIZE ltac:(done)).
    apply lookup_app_Some in Hi as [Hi|[Hge Hi]].
    + pose proof (lookup_lt_Some _ _ _ Hi). rewrite Hout; [by apply Hc|].
      unfold in_block, PAGE_SIZE in *. lia.
    + apply list_lookup_singleton_Some in Hi as [Hi Hpx].
      replace (Z.of_nat i) with (zlen ps) by lia. rewrite Em.
      rewrite store_bytes_in by (rewrite length_load_bytes; unfold in_block, PAGE_SIZE in *; lia).
      rewrite nth_load_bytes by (unfold PAGE_SIZE in *; lia). rewrite <- Hag by (by rewrite <- Hpx).
      f_equal. rewrite Hpx. clear. page_lia.
  - intros x Hx. rewrite Hout; [by apply Hag|]. intros Hb. apply (Hap x Hx).
    unfold in_block, SOFTDIRTY_MAX_PAGES, PAGE_SIZE in *. lia.
Qed.

Lemma same_place_trans s1 s2 s3 : same_place s1 s2 → same_place s2 s3 → same_place s1 s3.
Proof. intros [] []. split; congruence. Qed.

Lemma sd_apart_same s s' : same_place s s' → sd_apart s → sd_apart s'.
Proof. intros [E1 E2] H x. rewrite E1, E2. apply H. Qed.

Lemma saved_all_copies stats ps' ps m s :
  sd_apart s → Forall (.∈ tracked_pages (sd_proc_maps s)) ps' →
  zlen ps + zlen ps' <= SOFTDIRTY_MAX_PAGES →
  copies ps m s → mem_agree (λ x, page_of x ∈ tracked_pages (sd_proc_maps s)) (sd_mem s) m →
  let s' := saved_all stats ps' s in
  copies (ps ++ ps') m s' ∧ same_place s s' ∧
  mem_agree (λ x, page_of x ∈ tracked_pages (sd_proc_maps s)) (sd_mem s') m.
Proof.
  revert ps s. induction ps' as [|p ps' IH]; intros ps s Hap Ht Hroom Hc Hag.
  { rewrite app_nil_r. done. }
  apply Forall_cons in Ht as [Hp Ht]. cbn [length] in Hroom.
  destruct (save_copies stats p ps m s Hap Hp ltac:(lia) Hc Hag) as (Hc1 & [E1 E2] & Hag1).
  specialize (IH (ps ++ [p]) (save_of stats p s)). rewrite E2 in IH.
  destruct IH as (Hc2 & Hsp2 & Hag2); [by apply (sd_apart_same s)|done| |done|done|].
  { rewrite length_app. cbn. lia. }
  rewrite <- app_assoc in Hc2. split; [done|]. split; [|done]. by apply (same_place_trans s (save_of stats p s)).
Qed.

(** *** Stores *)

Lemma stores_mark_run l s (o : os) :
  ∃ o', dirty_stores l (s, o) = Ok () (set_sd_mem (plain_stores l (sd_mem s)) s, o') ∧
    ∀ q, soft_dirty o' q = bool_decide (q ∈ page_of ∘ fst <$> l) || soft_dirty o q.
Proof.
  revert s o. induction l as [|[a b] l IH]; intros s o.
  { exists o. split; [by destruct s|done]. }
  destruct (IH (set_sd_mem (upd (sd_mem s) a b) s) (cpu_marks (page_of a) o)) as (o' & H & Hq).
  exists o'. split.
  - cbn [dirty_stores]. unfold dirty_store. rewrite bind_modify. exact H.
  - intros q. rewrite Hq, stores_mark, orb_assoc. f_equal.
    destruct (Z.eqb_spec q (page_of a)) as [->|Hne].
    + rewrite orb_true_r. symmetry. apply bool_decide_eq_true. by left.
    + rewrite orb_false_r. apply bool_decide_ext. change (page_of ∘ fst <$> (a, b) :: l)
        with (page_of a :: (page_of ∘ fst <$> l)). rewrite elem_of_cons. tauto.
Qed.

(** *** A window *)

(** The mechanism between a checkpoint and the stores of the next window. *)
Record sd_inv (s : sdirty) (o : os) : Prop := {
  si_apart : sd_apart s;
  si_aligned : Forall entry_aligned (sd_proc_maps s);
  si_buffer : pm_buff_len (sd_pagemap s) = UTIL_PAGEMMAP_DEFAULT_BUFF_SIZE;
  si_init : initialized (sd_ctx s) ≠ 0;
  si_clean q : q ∈ tracked_pages (sd_proc_maps s) → soft_dirty o q = false;
}.

(** The tracked pages the stores [l] touch, in the order of the walk. *)
Definition stored_pages (l : list (Z * Z)) (maps : list map_entry) : list Z :=
  filter (.∈ page_of ∘ fst <$> l) (tracked_pages maps).

(** The state before the walk of a checkpoint. *)
Definition before_walk (s : sdirty) : sdirty :=
  let s := set_sd_ctx (snd (CTX_NEW_TOL_OR_RETURN (sd_ctx s))) s in
  set_sd_num_mem_pages 0 (if truthy (stats_enabled s) then record_num_pages s else s).

Lemma before_walk_same s :
  sd_pagemap (before_walk s) = sd_pagemap s ∧ sd_proc_maps (before_walk s) = sd_proc_maps s ∧
  softdirty (before_walk s) = softdirty s ∧ sd_mem (before_walk s) = sd_mem s ∧
  page_statistics (before_walk s) = page_statistics s ∧ sd_num_mem_pages (before_walk s) = 0.
Proof. unfold before_walk. split_and!; by destruct (truthy _). Qed.

Lemma sd_tol_run (tls_addr heap_addr data_addr : Z) s (o : os) dirty :
  Forall entry_aligned (sd_proc_maps s) →
  pm_buff_len (sd_pagemap s) = UTIL_PAGEMMAP_DEFAULT_BUFF_SIZE →
  initialized (sd_ctx s) ≠ 0 → tol_returns (sd_ctx s) = false → (∀ q, soft_dirty o q = dirty q) →
  let stats := truthy (stats_enabled s) in
  let ps := dirty_tracked dirty (sd_proc_maps s) in
  room stats ps (before_walk s) →
  ∃ s1 s' o', softdirty_top_of_the_loop tls_addr heap_addr data_addr attempts (s, o) = Ok () (s', o') ∧
    with_buffer (saved_all stats ps (before_walk s)) s1 ∧
    s' = set_sd_ctx (CTX_NEW_CHECKPOINT (sd_ctx s1)) s1 ∧ ∀ q, soft_dirty o' q = false.
Proof.
  intros Hal Hb Hi Ht Hd stats ps Hroom.
  destruct (proc_walk_run stats dirty (sd_proc_maps s) (before_walk s) o) as (s1 & o1 & H1 & Hw & Hd1);
    [done|done|by rewrite (proj1 (before_walk_same s))|done|].
  destruct (clear_run s1 o1) as (o2 & H2 & Hd2).
  exists s1, (set_sd_ctx (CTX_NEW_CHECKPOINT (sd_ctx s1)) s1), o2. split; [|done].
  unfold softdirty_top_of_the_loop, upd_sctx. rewrite bind_getd, bind_putd.
  unfold CTX_NEW_TOL_OR_RETURN at 1. rewrite Ht. cbn [negb fst]. rewrite bind_getd.
  set (s0 := set_sd_ctx _ s).
  replace (truthy (initialized (sd_ctx s0))) with true.
  2:{ symmetry. apply truthy_true. cbn. unfold CTX_NEW_TOL_OR_RETURN. by rewrite Ht. }
  cbn [negb when]. rewrite (bind_Ok skip _ _ () (s0, o)), bind_getd by done.
  change (stats_enabled s0) with (stats_enabled s). fold stats.
  assert (when stats (putd record_num_pages) (s0, o)
    = Ok () (if stats then record_num_pages s0 else s0, o)) as E0 by (by destruct stats).
  rewrite (bind_Ok _ _ _ _ _ E0), bind_putd, bind_getd.
  change (set_sd_num_mem_pages 0 _) with (before_walk s). rewrite (proj1 (proj2 (before_walk_same s))).
  change (if stats then _ else _) with (cb_of stats). rewrite (bind_Ok _ _ _ _ _ H1).
  change (0 <? 0) with false. cbn [when]. rewrite (bind_Ok skip _ _ () (s1, o1)) by done.
  rewrite (bind_Ok _ _ _ _ _ H2). done.
Qed.

(** What a checkpoint leaves of the settings. *)
Definition same_settings (s s' : sdirty) : Prop :=
  same_place s s' ∧ stats_enabled s' = stats_enabled s ∧
  initialized (sd_ctx s') = initialized (sd_ctx s) ∧
  checkpoint_interval (sd_ctx s') = checkpoint_interval (sd_ctx s) ∧
  pm_buff_len (sd_pagemap s') = pm_buff_len (sd_pagemap s).

#[local] Instance same_settings_preorder : PreOrder same_settings.
Proof.
  split; [done|]. intros s1 s2 s3 ([] & ? & ? & ? & ?) ([] & ? & ? & ? & ?).
  split_and!; try congruence. split; congruence.
Qed.

Lemma saved_all_settings stats ps s : same_settings s (saved_all stats ps s).
Proof.
  revert s. induction ps as [|p ps IH]; intros s; [done|]. rewrite saved_all_cons.
  etrans; [|apply IH]. by destruct stats.
Qed.

Lemma before_walk_settings s : same_settings s (before_walk s).
Proof.
  assert (∀ c, initialized (CTX_NEW_TOL_OR_RETURN c).2 = initialized c ∧
    checkpoint_interval (CTX_NEW_TOL_OR_RETURN c).2 = checkpoint_interval c) as Hc.
  { intros c. unfold CTX_NEW_TOL_OR_RETURN. by destruct (tol_returns c). }
  destruct (Hc (sd_ctx s)) as [E1 E2].
  unfold before_walk, same_settings, same_place. split_and!; destruct (truthy _); cbn; done.
Qed.

Lemma dirty_tracked_stored l maps (o : os) :
  (∀ q, q ∈ tracked_pages maps → soft_dirty o q = false) →
  dirty_tracked (λ q, bool_decide (q ∈ page_of ∘ fst <$> l) || soft_dirty o q) maps
  = stored_pages l maps.
Proof.
  intros Hc. unfold dirty_tracked, stored_pages. revert Hc. generalize (tracked_pages maps).
  intros ps. induction ps as [|p ps IH]; intros Hc; [done|]. rewrite !filter_cons, IH.
  2:{ intros q Hq. apply Hc. by right. }
  rewrite (Hc p) by (by left). rewrite orb_false_r.
  destruct (decide (p ∈ page_of ∘ fst <$> l)).
  - by rewrite decide_True by (by apply bool_decide_eq_true).
  - by rewrite decide_False by (by rewrite bool_decide_eq_true).
Qed.

(** Stores followed by a top of the loop. *)
Lemma window_run (tls_addr heap_addr data_addr : Z) l s (o : os) :
  sd_inv s o → tol_returns (sd_ctx s) = false →
  let maps := sd_proc_maps s in
  let stats := truthy (stats_enabled s) in
  let ps := stored_pages l maps in
  let m := plain_stores l (sd_mem s) in
  zlen ps <= SOFTDIRTY_MAX_PAGES →
  (stats = true → zlen (page_statistics s) + zlen ps <= PAGE_STAT_SIZE) →
  ∃ o1 s' o', dirty_stores l (s, o) = Ok () (set_sd_mem m s, o1) ∧
    softdirty_top_of_the_loop tls_addr heap_addr data_addr attempts (set_sd_mem m s, o1)
      = Ok () (s', o') ∧
    copies ps m s' ∧ mem_agree (λ x, page_of x ∈ tracked_pages maps) (sd_mem s') m ∧
    same_settings s s' ∧ sd_inv s' o' ∧
    page_statistics s' = page_statistics (saved_all stats ps s).
Proof.
  intros [Hap Hal Hb Hi Hcl] Ht maps stats ps m Hps Hst.
  destruct (stores_mark_run l s o) as (o1 & H1 & Hd1). fold m in H1.
  set (s1 := set_sd_mem m s) in *.
  assert (dirty_tracked (λ q, bool_decide (q ∈ page_of ∘ fst <$> l) || soft_dirty o q) maps = ps)
    as Eps by (by apply dirty_tracked_stored).
  destruct (before_walk_same s1) as (B1 & B2 & B3 & B4 & B5 & B6).
  destruct (sd_tol_run tls_addr heap_addr data_addr s1 o1 _ Hal Hb Hi Ht Hd1) as (s2 & s' & o' & H2 & Hw & Hs' & Hd2).
  { change (sd_proc_maps s1) with maps. rewrite Eps. change (stats_enabled s1) with (stats_enabled s).
    split; [by rewrite B6|]. rewrite B6, B5. split; [lia|]. exact Hst. }
  change (sd_proc_maps s1) with maps in Hw. rewrite Eps in Hw.
  change (stats_enabled s1) with (stats_enabled s) in Hw. fold stats in Hw.
  destruct (saved_all_copies stats ps [] m (before_walk s1)) as (Hc & _ & Hag).
  { intros x. rewrite B2, B3. apply Hap. }
  { rewrite B2. apply Forall_forall. intros p Hp. by apply list_elem_of_filter in Hp as [_ Hp]. }
  { done. }
  { split; [by rewrite B6|]. intros i x Hx. by rewrite lookup_nil in Hx. }
  { by rewrite B4. }
  rewrite B2 in Hag. destruct Hw as (pm & -> & Hpm).
  assert (same_settings s s') as Hss.
  { transitivity (before_walk s1); [exact (before_walk_settings s1)|].
    transitivity (saved_all stats ps (before_walk s1)); [apply saved_all_settings|]. by rewrite Hs'. }
  exists o1, s', o'. split; [done|]. split; [done|]. rewrite app_nil_l in Hc.
  assert (page_statistics s' = page_statistics (saved_all stats ps s)) as Est.
  { rewrite Hs'. cbn. clear -B5. change (page_statistics s1) with (page_statistics s) in B5.
    revert B5. generalize (before_walk s1) s. induction ps as [|p ps IH]; intros t t' E; [done|].
    rewrite !saved_all_cons. apply IH. destruct stats; cbn; by rewrite ?E. }
  split; [by rewrite Hs'|]. split; [by rewrite Hs'|]. split; [done|]. split; [|done].
  destruct Hss as ([E1 E2] & _ & E3 & _ & E4).
  split; [by apply (sd_apart_same s)| | | |by intros q _]; congruence.
Qed.

(** C16: A soft-dirty checkpoint is complete.  After a checkpoint, let the program make any
    stores, and let the next top of the loop take a checkpoint.  If the stores touch at most
    1000 tracked pages (and there is room for statistics, where these are on), the top of
    the loop returns; the array of copies then holds exactly the tracked pages that were
    stored to, in the order of the process map, with their current content; a tracked byte
    on any other page is as it was at the previous checkpoint; the program's memory is
    untouched, and the mechanism is ready for the next window. *)
Theorem softdirty_checkpoint_complete (tls_addr heap_addr data_addr : Z) (l : list (Z * Z))
    (s : sdirty) (o : os) :
  sd_inv s o → tol_returns (sd_ctx s) = false →
  let ps := stored_pages l (sd_proc_maps s) in
  let m := plain_stores l (sd_mem s) in
  zlen ps <= SOFTDIRTY_MAX_PAGES →
  (stats_enabled s ≠ 0 → zlen (page_statistics s) + zlen ps <= PAGE_STAT_SIZE) →
  ∃ s1 o1 s' o', dirty_stores l (s, o) = Ok () (s1, o1) ∧
    softdirty_top_of_the_loop tls_addr heap_addr data_addr attempts (s1, o1) = Ok () (s', o') ∧
    sd_num_mem_pages s' = zlen ps ∧
    (∀ x, page_of x ∈ tracked_pages (sd_proc_maps s) →
       sd_mem s' x = m x ∧
       ((∃ i, ps !! i = Some (page_of x) ∧
           sd_mem s' (softdirty s' + Z.of_nat i * PAGE_SIZE + x mod PAGE_SIZE) = m x) ∨
        (page_of x ∉ ps ∧ m x = sd_mem s x))) ∧
    sd_inv s' o'.
Proof.
  intros Hinv Ht ps m Hps Hst.
  destruct (window_run tls_addr heap_addr data_addr l s o Hinv Ht Hps) as
    (o1 & s' & o' & H1 & H2 & [Hn Hc] & Hag & _ & Hinv' & _).
  { rewrite truthy_true. exact Hst. }
  exists (set_sd_mem m s), o1, s', o'. split; [done|]. split; [done|]. split; [done|].
  split; [|done]. intros x Hx. split; [by apply Hag|].
  destruct (decide (page_of x ∈ ps)) as [Hin|Hin].
  - left. apply list_elem_of_lookup in Hin as [i Hi]. exists i. split; [done|]. by apply Hc.
  - right. split; [done|]. unfold ps, stored_pages in Hin. rewrite list_elem_of_filter in Hin.
    assert (page_of x ∉ page_of ∘ fst <$> l) as Hl by tauto. clear -Hl. unfold m.
    revert Hl. generalize (sd_mem s). induction l as [|[a b] l IH]; intros m0 Hl; [done|].
    change (page_of ∘ fst <$> (a, b) :: l) with (page_of a :: (page_of ∘ fst <$> l)) in Hl.
    apply not_elem_of_cons in Hl as [Hne Hl].
    change (plain_stores ((a, b) :: l) m0) with (plain_stores l (upd m0 a b)).
    rewrite IH by done. apply upd_ne. congruence.
Qed.

(** *** Statistics *)

(** The count of a page. *)
Definition stat_count (addr : Z) (l : list pagestat) : Z :=
  match find_stat addr l with
  | Some i => default 0 (ps_count <$> l !! i)
  | None => 0
  end.

Lemma stat_count_cons a st l :
  stat_count a (st :: l) = if ps_addr st =? a then ps_count st else stat_count a l.
Proof. unfold stat_count. cbn. destruct (_ =? _); [done|]. by destruct (find_stat a l). Qed.

Lemma count_stat_cons a st l :
  count_stat a (st :: l)
  = if ps_addr st =? a then bump_stat st :: l else st :: count_stat a l.
Proof. unfold count_stat. cbn. destruct (_ =? _); [done|]. by destruct (find_stat a l). Qed.

Lemma stat_count_bump a b l :
  stat_count a (count_stat b l) = if a =? b then u32 (stat_count b l + 1) else stat_count a l.
Proof.
  induction l as [|st l IH].
  { unfold count_stat. cbn [find_stat app]. rewrite stat_count_cons. cbn.
    rewrite Z.eqb_sym. by destruct (a =? b). }
  rewrite count_stat_cons, !stat_count_cons. destruct (Z.eqb_spec (ps_addr st) b) as [Eb|Eb].
  - rewrite stat_count_cons. cbn [bump_stat ps_addr ps_count].
    destruct (Z.eqb_spec (ps_addr st) a), (Z.eqb_spec a b); try done; congruence.
  - rewrite stat_count_cons, IH.
    destruct (Z.eqb_spec (ps_addr st) a), (Z.eqb_spec a b); try done; congruence.
Qed.

(** The pages of which statistics are kept. *)
Definition stat_pages (l : list pagestat) : list Z := ps_addr <$> l.

Lemma count_stat_pages a l : stat_pages (count_stat a l) = touch (stat_pages l) a.
Proof.
  induction l as [|st l IH].
  { unfold touch. by rewrite decide_False by apply not_elem_of_nil. }
  rewrite count_stat_cons. change (stat_pages (st :: l)) with (ps_addr st :: stat_pages l).
  unfold touch in *. destruct (Z.eqb_spec (ps_addr st) a) as [E|E].
  - rewrite decide_True by (rewrite E; apply elem_of_cons; by left). done.
  - change (stat_pages (st :: count_stat a l)) with (ps_addr st :: stat_pages (count_stat a l)).
    rewrite IH. destruct (decide (a ∈ stat_pages l)).
    + by rewrite decide_True by (by right).
    + rewrite decide_False; [done|]. rewrite elem_of_cons. intros [?|?]; congruence.
Qed.

Lemma saved_all_stats ps s :
  page_statistics (saved_all true ps s)
  = foldl (λ l p, count_stat (p * PAGE_SIZE) l) (page_statistics s) ps.
Proof. revert s. induction ps as [|p ps IH]; intros s; [done|]. rewrite saved_all_cons, IH. done. Qed.

Lemma counted_pages ps l :
  stat_pages (foldl (λ l p, count_stat (p * PAGE_SIZE) l) l ps)
  = foldl touch (stat_pages l) ((λ p, p * PAGE_SIZE) <$> ps).
Proof.
  revert l. induction ps as [|p ps IH]; intros l; [done|]. cbn [foldl fmap list_fmap].
  by rewrite IH, count_stat_pages.
Qed.

Lemma counted_count p ps l :
  NoDup ps →
  stat_count (p * PAGE_SIZE) (foldl (λ l p, count_stat (p * PAGE_SIZE) l) l ps)
  = if decide (p ∈ ps) then u32 (stat_count (p * PAGE_SIZE) l + 1) else stat_count (p * PAGE_SIZE) l.
Proof.
  revert l. induction ps as [|q ps IH]; intros l Hnd; [done|].
  apply NoDup_cons in Hnd as [Hq Hnd]. cbn [foldl]. rewrite IH by done.
  rewrite stat_count_bump. destruct (Z.eqb_spec (p * PAGE_SIZE) (q * PAGE_SIZE)) as [E|E].
  - assert (p = q) as -> by (unfold PAGE_SIZE in E; lia).
    by rewrite decide_False, decide_True by (done || left).
  - assert (p ≠ q) as Hne by congruence. apply decide_ext. rewrite elem_of_cons. tauto.
Qed.

(** The statistics are of distinct tracked pages. *)
Definition stats_ok (s : sdirty) : Prop :=
  NoDup (stat_pages (page_statistics s)) ∧
  stat_pages (page_statistics s) ⊆ (λ p, p * PAGE_SIZE) <$> tracked_pages (sd_proc_maps s).

Lemma stats_ok_length s : stats_ok s → zlen (page_statistics s) <= zlen (tracked_pages (sd_proc_maps s)).
Proof.
  intros [Hnd Hsub]. apply inj_le.
  pose proof (NoDup_submseteq _ _ Hnd Hsub) as Hl%submseteq_length.
  unfold stat_pages in Hl. by rewrite !length_fmap in Hl.
Qed.

(** The windows among [ls] in which a page was stored to. *)
Definition windows_storing (p : Z) (ls : list (list (Z * Z))) : list (list (Z * Z)) :=
  filter (λ l, p ∈ page_of ∘ fst <$> l) ls.

Lemma windows_run (tls_addr heap_addr data_addr : Z) ls k s (o : os) :
  sd_inv s o → stats_ok s → stats_enabled s ≠ 0 → checkpoint_interval (sd_ctx s) = 1 →
  let tp := tracked_pages (sd_proc_maps s) in
  NoDup tp → zlen tp + SOFTDIRTY_MAX_PAGES <= PAGE_STAT_SIZE →
  Forall (λ l, zlen (stored_pages l (sd_proc_maps s)) <= SOFTDIRTY_MAX_PAGES) ls →
  (∀ p, 0 <= stat_count (p * PAGE_SIZE) (page_statistics s) <= k) → k + zlen ls < 4294967296 →
  ∃ s' o', sd_windows tls_addr heap_addr data_addr attempts ls (s, o) = Ok () (s', o') ∧
    ∀ p, p ∈ tp → stat_count (p * PAGE_SIZE) (page_statistics s')
      = stat_count (p * PAGE_SIZE) (page_statistics s) + zlen (windows_storing p ls).
Proof.
  revert k s o. induction ls as [|l ls IH]; intros k s o Hinv Hok Hst Hci tp Hnd Hroom Hls Hk Hlen.
  { exists s, o. split; [done|]. intros p _. cbn. lia. }
  apply Forall_cons in Hls as [Hl Hls]. pose proof (stats_ok_length s Hok) as Hlok.
  destruct (window_run tls_addr heap_addr data_addr l s o Hinv) as
    (o1 & s1 & o2 & H1 & H2 & _ & _ & Hss & Hinv1 & Est); [|done|fold tp in Hlok; lia|].
  { unfold tol_returns. rewrite Hci. change (u64 1) with 1. by rewrite Z.mod_1_r. }
  rewrite (proj2 (truthy_true _) Hst), saved_all_stats in Est.
  destruct Hss as ([E1 E2] & E3 & _ & E5 & _).
  assert (∀ p, stat_count (p * PAGE_SIZE) (page_statistics s1)
    = if decide (p ∈ stored_pages l (sd_proc_maps s)) then u32 (stat_count (p * PAGE_SIZE) (page_statistics s) + 1)
      else stat_count (p * PAGE_SIZE) (page_statistics s)) as Hcnt.
  { intros p. rewrite Est. apply counted_count. by apply NoDup_filter. }
  cbn [length] in Hlen.
  destruct (IH (k + 1) s1 o2) as (s' & o' & H3 & Hc3); rewrite ?E2; try done; try congruence; try lia.
  { destruct Hok as [Hn Hsub]. unfold stats_ok. rewrite E2, Est, counted_pages. split.
    - by apply touches_NoDup.
    - intros a [Ha|Ha]%elem_of_touches; [by apply Hsub|].
      apply list_elem_of_fmap in Ha as (q & -> & Hq). apply list_elem_of_fmap.
      exists q. split; [done|]. by apply list_elem_of_filter in Hq as [_ Hq]. }
  { intros p. rewrite Hcnt. specialize (Hk p). case_decide; [rewrite u32_small|]; lia. }
  exists s', o'. split.
  - cbn [sd_windows]. by rewrite (bind_Ok _ _ _ _ _ H1), (bind_Ok _ _ _ _ _ H2).
  - intros p Hp. rewrite Hc3 by (by rewrite E2). rewrite Hcnt. specialize (Hk p).
    unfold windows_storing at 2. rewrite filter_cons. fold (windows_storing p ls).
    destruct (decide (p ∈ page_of ∘ fst <$> l)) as [Hpl|Hpl].
    + rewrite decide_True by (by apply list_elem_of_filter). cbn [length]. rewrite u32_small; lia.
    + by rewrite decide_False by (unfold stored_pages; rewrite list_elem_of_filter; tauto).
Qed.

(** The page statistics are exact.  From empty statistics, over any sequence of windows
    each of which stores to at most 1000 tracked pages, every top of the loop returns, and
    afterwards the count of every tracked page is the number of windows in which the
    program stored to it. *)
Theorem softdirty_statistics_exact (tls_addr heap_addr data_addr : Z) (ls : list (list (Z * Z)))
    (s : sdirty) (o : os) :
  sd_inv s o → page_statistics s = [] → stats_enabled s ≠ 0 → checkpoint_interval (sd_ctx s) = 1 →
  NoDup (tracked_pages (sd_proc_maps s)) →
  zlen (tracked_pages (sd_proc_maps s)) + SOFTDIRTY_MAX_PAGES <= PAGE_STAT_SIZE →
  Forall (λ l, zlen (stored_pages l (sd_proc_maps s)) <= SOFTDIRTY_MAX_PAGES) ls →
  zlen ls < 4294967296 →
  ∃ s' o', sd_windows tls_addr heap_addr data_addr attempts ls (s, o) = Ok () (s', o') ∧
    ∀ p, p ∈ tracked_pages (sd_proc_maps s) →
      stat_count (p * PAGE_SIZE) (page_statistics s') = zlen (windows_storing p ls).
Proof.
  intros Hinv He Hst Hci Hnd Hroom Hls Hlen.
  destruct (windows_run tls_addr heap_addr data_addr ls 0 s o) as (s' & o' & H & Hc); try done.
  { unfold stats_ok. rewrite He. split; [constructor|]. by intros a Ha%elem_of_nil. }
  { intros p. by rewrite He. }
  exists s', o'. split; [done|]. intros p Hp. by rewrite (Hc p Hp), He.
Qed.

(** *** Initialisation *)

Section Init.
Context `{!ProcFsLaws os} (tls_addr heap_addr data_addr : Z).

Lemma pagemap_init_run len s (o : os) :
  len ≠ 0 → ∃ s' o', util_pagemap_init len (s, o) = Ok 0 (s', o') ∧
    ∃ pm, s' = set_sd_pagemap pm s ∧ pm_buff_len pm = len.
Proof.
  intros Hl. unfold util_pagemap_init.
  destruct (open_pagemap o) as [fd o1] eqn:E1. pose proof (opens_pagemap o) as H1. rewrite E1 in H1.
  rewrite (bind_sysd _ _ _ _ _ _ E1), bind_putd, (proj2 (Z.ltb_ge _ _)) by done.
  destruct (open_clear_refs o1) as [cr o2] eqn:E2. pose proof (opens_clear_refs o1) as H2. rewrite E2 in H2.
  rewrite (bind_sysd _ _ _ _ _ _ E2), bind_putd, (proj2 (Z.ltb_ge _ _)), bind_putd by done.
  rewrite bind_assert by (by apply truthy_true). eexists _, o2. split; [reflexivity|]. by eexists.
Qed.

(** Initialisation of the soft-dirty mechanism.  If its buffer can be mapped,
    initialisation returns with the mechanism ready for the first window: the tracked
    mappings are exactly the mapped ones of the process map that are checkpointed, other
    than the buffer itself, no tracked page is marked, the copies will be kept outside the
    tracked pages, statistics are on as the context asks, and memory is as it was. *)
Theorem softdirty_init_establishes (s : sdirty) (o : os) (b : Z) (o1 : os) :
  ltkcpt_ctx_get_buff MIN_MMAP_ADDR (sizeof_softdirty + UTIL_PAGEMMAP_DEFAULT_BUFF_SIZE) o = (b, o1) →
  b ≠ 0 →
  ∃ s' o' l, ltckpt_init_softdirty tls_addr heap_addr data_addr attempts (s, o) = Ok () (s', o') ∧
    maps_lines o1 = Some (Some <$> l) ∧
    (∀ e, e ∈ sd_proc_maps s' ↔ e ∈ l ∧ kept_vma tls_addr heap_addr data_addr b (sd_ctx s) e ∧
       mincore_errno (vm_start (e_vma e)) o1 = EFAULT) ∧
    sd_inv s' o' ∧ page_statistics s' = [] ∧
    stats_enabled s' = page_statistic_enabled (sd_ctx s) ∧ sd_mem s' = sd_mem s.
Proof.
  intros Hb Hne. destruct (maps_readable o1) as (l & Hl & Hal).
  set (c := set_initialized 1 (sd_ctx s)).
  set (L := kept_entries tls_addr heap_addr data_addr b (sd_ctx s) o1 l).
  set (s1 := mk_sdirty (sd_mem s) b 0 L (mk_pagemap [] 0 0 0) [] (λ _, 0) 0
               (page_statistic_enabled (sd_ctx s)) c).
  destruct (pagemap_init_run UTIL_PAGEMMAP_DEFAULT_BUFF_SIZE s1 o1 ltac:(done))
    as (s2 & o2 & H2 & pm & -> & Hpm).
  destruct (clear_run (set_sd_pagemap pm s1) o2) as (o3 & H3 & Hcl).
  exists (set_sd_pagemap pm s1), o3, l. split; [|split; [done|]].
  - unfold ltckpt_init_softdirty, upd_sctx. rewrite (bind_sysd _ _ _ _ _ _ Hb).
    rewrite (proj2 (Z.eqb_neq b 0)) by done. rewrite !bind_putd, bind_getd. cbv beta.
    rewrite (bind_Ok _ _ _ _ _ (parse_filter_run _ _ _ b c _ _ _ Hl)), bind_putd.
    change (truthy (fst (0, _))) with false. cbn [when]. rewrite (bind_Ok skip _ _ () (s1, o1)) by done.
    rewrite (bind_Ok _ _ _ _ _ H2). change (truthy 0) with false. cbn [when].
    rewrite (bind_Ok skip _ _ () (set_sd_pagemap pm s1, o2)) by done.
    by rewrite (bind_Ok _ _ _ _ _ H3).
  - split; [intros e; apply elem_of_kept_entries|]. split; [|done].
    assert (Forall entry_aligned L) as HalL by (by apply kept_entries_aligned).
    split; try done. intros x (e & Hx & He)%list_elem_of_bind Hin. cbn in Hin, He.
    pose proof (proj1 (Forall_forall _ _) HalL e He) as (A1 & A2 & A3).
    apply elem_of_seqZ in Hx. refine (kept_entries_apart _ _ _ _ _ _ _ _ _ _ _ x Hb Hne Hl He _ _).
    + unfold sizeof_softdirty, UTIL_PAGEMMAP_DEFAULT_BUFF_SIZE, PAGE_STAT_SIZE, PAGE_NUM_HIST_SIZE in *.
      unfold in_block, SOFTDIRTY_MAX_PAGES, PAGE_SIZE in *. clear -Hin. lia.
    + clear -Hx A1 A2 A3. page_lia.
Qed.

End Init.

End Run.

(** ** A kernel *)

(** A kernel that marks pages and interrupts every other call.  Its process has a heap of
    four pages at 16 MB. *)
Record sdkernel := mk_sdkernel { k_marks : Z → bool; k_interrupt : bool }.

Definition sd_heap : map_entry :=
  mk_entry (mk_vma 16777216 (16777216 + 4 * PAGE_SIZE) char_w (lit "[heap]"%string)) 112.

#[local] Instance sdkernel_vmem : VMem sdkernel := {
  mmap a n _ _ o := (if (a <=? MIN_MMAP_ADDR + PAGE_SIZE) && (n <=? 12582912) then a else MAP_FAILED, o);
  munmap _ _ o := (0, o);
  mprotect _ _ _ o := (0, o);
}.

#[local] Instance sdkernel_procfs : ProcFs sdkernel := {
  maps_lines _ := Some [Some sd_heap];
  mincore_errno _ _ := EFAULT;
}.

#[local] Instance sdkernel_pagemap : PageMap sdkernel := {
  open_pagemap o := (3, o);
  open_clear_refs o := (4, o);
  close_fd _ o := o;
  pread_pagemap size offset o :=
    if k_interrupt o then (-1, EINTR, [], mk_sdkernel (k_marks o) false)
    else (size, 0, (λ p, if k_marks o p then PME_SOFT_DIRTY else 0) <$> seqZ (offset / 8) (size / 8),
          mk_sdkernel (k_marks o) true);
  pwrite_clear_refs size o :=
    if k_interrupt o then (-1, EINTR, [], mk_sdkernel (k_marks o) false)
    else (size, 0, [], mk_sdkernel (λ _, false) true);
  cpu_marks p o := mk_sdkernel (λ q, (q =? p) || k_marks o q) (k_interrupt o);
}.

#[local] Instance sdkernel_laws : SoftDirtyLaws sdkernel k_marks 2.
Proof.
  split; try done.
  - intros n p o Hn. exists ((λ p, if k_marks o p then PME_SOFT_DIRTY else 0) <$> seqZ p n),
      (mk_sdkernel (k_marks o) true).
    split; [|split; [|split]].
    + assert (∀ b, pread_pagemap (n * 8) (p * 8) (mk_sdkernel (k_marks o) b)
        = if b then (-1, EINTR, [], mk_sdkernel (k_marks o) false)
          else (n * 8, 0, (λ p, if k_marks o p then PME_SOFT_DIRTY else 0) <$> seqZ p n,
                mk_sdkernel (k_marks o) true)) as Hr.
      { intros b. cbn. by rewrite !Z.div_mul. }
      destruct o as [m [|]].
      * eapply completes_later; [apply (Hr true)|by right|]. apply completes_now with 0. apply (Hr false).
      * apply completes_now with 0. apply (Hr false).
    + rewrite length_fmap, length_seqZ. lia.
    + intros i e Hi. apply list_lookup_fmap_Some in Hi as (q & -> & Hq).
      apply lookup_seqZ in Hq as [-> _]. by destruct (k_marks o _).
    + done.
  - intros o. eexists [], (mk_sdkernel (λ _, false) true). split; [|done].
    destruct o as [m [|]].
    + eapply completes_later; [reflexivity|by right|]. by apply completes_now with 0.
    + by apply completes_now with 0.
Qed.

(** The heap is tracked, the statistics are on. *)
Definition demo_sd : sdirty :=
  mk_sdirty (λ x, x mod 251) 413696 0 [sd_heap]
    (mk_pagemap [] UTIL_PAGEMMAP_DEFAULT_BUFF_SIZE 3 4) [] (λ _, 0) 0 1
    (set_initialized 1 (set_checkpoint_interval 1 ctx0)).

Definition demo_kernel : sdkernel := mk_sdkernel (λ _, false) true.

Lemma demo_tracked_pages : tracked_pages (sd_proc_maps demo_sd) = [4096; 4097; 4098; 4099].
Proof. vm_compute. reflexivity. Qed.

Lemma demo_sd_inv : sd_inv k_marks demo_sd demo_kernel.
Proof.
  split; try done.
  - intros x Hx. rewrite demo_tracked_pages in Hx. rewrite !elem_of_cons, elem_of_nil in Hx.
    change (softdirty demo_sd) with 413696.
    unfold in_block, page_of, PAGE_SIZE, SOFTDIRTY_MAX_PAGES in *.
    Z.to_euclidean_division_equations. lia.
  - repeat constructor; vm_compute; congruence.
Qed.

(** Two stores to the third page of the heap. *)
Definition demo_window : list (Z * Z) := [(16785408, 1); (16785500, 2)].

Lemma softdirty_checkpoint_complete_witness :
  ∃ s1 o1 s' o', dirty_stores demo_window (demo_sd, demo_kernel) = Ok () (s1, o1) ∧
    softdirty_top_of_the_loop 0 0 0 2 (s1, o1) = Ok () (s', o') ∧ sd_num_mem_pages s' = 1.
Proof.
  destruct (softdirty_checkpoint_complete k_marks 2 0 0 0 demo_window demo_sd demo_kernel)
    as (s1 & o1 & s' & o' & H1 & H2 & H3 & _).
  - apply demo_sd_inv.
  - reflexivity.
  - vm_compute. congruence.
  - intros _. vm_compute. congruence.
  - exists s1, o1, s', o'. split; [exact H1|]. split; [exact H2|]. rewrite H3. vm_compute. reflexivity.
Defined.

Definition demo_windows : list (list (Z * Z)) := [demo_window; []; demo_window].

Lemma demo_windows_ok :
  NoDup (tracked_pages (sd_proc_maps demo_sd)) ∧
  Forall (λ l, zlen (stored_pages l (sd_proc_maps demo_sd)) <= SOFTDIRTY_MAX_PAGES) demo_windows.
Proof.
  split.
  - rewrite demo_tracked_pages. repeat (apply NoDup_cons; split; [rewrite ?elem_of_cons, elem_of_nil; lia|]). apply NoDup_nil_2.
  - repeat (apply Forall_cons; split; [vm_compute; congruence|]). apply Forall_nil. exact I.
Qed.

Lemma demo_windows_count : zlen (windows_storing 4098 demo_windows) = 2.
Proof. vm_compute. reflexivity. Qed.

Lemma softdirty_statistics_exact_witness :
  ∃ s' o', sd_windows 0 0 0 2 demo_windows (demo_sd, demo_kernel) = Ok () (s', o') ∧
    stat_count (4098 * PAGE_SIZE) (page_statistics s') = 2.
Proof.
  destruct (softdirty_statistics_exact k_marks 2 0 0 0 demo_windows demo_sd demo_kernel)
    as (s' & o' & H1 & H2).
  - apply demo_sd_inv.
  - reflexivity.
  - discriminate.
  - reflexivity.
  - apply demo_windows_ok.
  - rewrite demo_tracked_pages. cbn. unfold SOFTDIRTY_MAX_PAGES, PAGE_STAT_SIZE. lia.
  - apply demo_windows_ok.
  - cbn. lia.
  - exists s', o'. split; [exact H1|]. rewrite <- demo_windows_count. apply H2.
    rewrite demo_tracked_pages. right. right. left.
Defined.

Lemma sd_get_buff_low a n (o : sdkernel) b o' :
  ltkcpt_ctx_get_buff a n o = (b, o') → b ≠ 0 →
  b <= MIN_MMAP_ADDR + 2 * PAGE_SIZE ∧ n <= 12582912.
Proof.
  unfold ltkcpt_ctx_get_buff. cbn -[Z.mul Z.add]. set (len := if truthy _ then _ else _).
  assert (n <= len) as Hlen.
  { unfold len. case_match; [|lia]. pose proof (Z.mod_pos_bound n PAGE_SIZE ltac:(done)). lia. }
  destruct (Z.leb_spec a (MIN_MMAP_ADDR + PAGE_SIZE)) as [Ha|Ha]; cbn [andb].
  2:{ rewrite Z.eqb_refl. by intros [= <- <-]. }
  destruct (Z.leb_spec (len + 2 * PAGE_SIZE) 12582912) as [Hn|Hn].
  2:{ rewrite Z.eqb_refl. by intros [= <- <-]. }
  case_match; intros [= <- <-]; [done|]. intros _. unfold PAGE_SIZE in *. lia.
Qed.

#[local] Instance sdkernel_procfs_laws : ProcFsLaws sdkernel.
Proof.
  split.
  - intros o. exists [sd_heap]. split; [done|]. repeat constructor; vm_compute; congruence.
  - intros a n o b o' l e x Hb Hne Hl He _ Hx. destruct (sd_get_buff_low a n o b o' Hb Hne) as [H1 H2].
    cbn in Hl. injection Hl as Hl. destruct l as [|e0 [|e1 l]]; try done. injection Hl as <-.
    apply list_elem_of_singleton in He as ->. cbn. unfold in_block in *.
    change (MIN_MMAP_ADDR + 2 * PAGE_SIZE) with 417792 in H1. lia.
  - intros a o. by right.
Qed.

Lemma softdirty_init_establishes_witness :
  ∃ s' o', ltckpt_init_softdirty 0 (16777216 + 16) 0 2
      (set_sd_ctx (set_skip_mmap 1 ctx0) demo_sd, demo_kernel) = Ok () (s', o') ∧
    sd_heap ∈ sd_proc_maps s' ∧ sd_inv k_marks s' o'.
Proof.
  destruct (softdirty_init_establishes k_marks 2 0 (16777216 + 16) 0
    (set_sd_ctx (set_skip_mmap 1 ctx0) demo_sd) demo_kernel 413696 demo_kernel)
    as (s' & o' & l & H1 & Hl & He & Hi & _).
  - vm_compute. reflexivity.
  - discriminate.
  - exists s', o'. split; [exact H1|]. split; [|exact Hi]. apply He.
    cbn in Hl. injection Hl as Hl. destruct l as [|e0 [|e1 l]]; try discriminate Hl.
    injection Hl as <-. split; [apply list_elem_of_singleton; reflexivity|].
    split; [split|]; vm_compute; congruence.
Defined.
