(* ===== verification/Aop.v ===== *)
(** * Profiling of recovery windows by aspects

    [ltckpt/ltckpt_aop.c] and [ltckpt_aop.h]: hooks at the entry of functions and basic
    blocks that account the instructions a server executes to being inside or outside the
    window, under three policies of when a window closes, globally and for every call
    context; and the signals that switch the accounting on and off. *)
From stdpp Require Import base numbers list sets strings.
From Stdlib Require Import ZArith Lia Ascii.
From S2P Require Import Prelude CString Ctx Policy.

(** ** Counters *)

(** The fields of [wprof_pol_t], [unsigned long long] counters. *)
Inductive wfield := bb_tcb | bb_in | bb_out | w_end | end_k | end_s | end_n | ended_cumulative.

(** The policies in [wprof_set_t]. *)
Inductive wpolicy := pes | dfa | opt | rwindow.

#[export] Instance wfield_eq_dec : EqDecision wfield.
Proof. solve_decision. Defined.
#[export] Instance wpolicy_eq_dec : EqDecision wpolicy.
Proof. solve_decision. Defined.

(** [wprof_set_t]. *)
Record wprof_set := mk_set { pol : wpolicy → wfield → Z; summary : cstr }.

Definition zero_set : wprof_set := mk_set (λ _ _, 0) [].

Definition MAXFUNCS : Z := 8000.
Definition FUNCNAME : Z := 100.
Definition SUMMARY : Z := 200.

(** [st->p.f += n]. *)
Definition add_to (p : wpolicy) (f : wfield) (n : Z) (st : wprof_set) : wprof_set :=
  mk_set (λ p' f', if decide (p' = p ∧ f' = f) then u64 (pol st p f + n) else pol st p' f')
    (summary st).

(** An entry of [wprof_t.funcs]: its name and counters. *)
Record wprof_scope := mk_scope { funcname : cstr; stats : wprof_set }.

(** The globals of the file, with those of [ltckpt_recover.c] it shares, among them the
    members [bb_in] and [end] of [wprof.glo.rwindow].  [pes_closer] and [opt_closer] point
    to the [pes] and [opt] counters of an entry, given by its index. *)
Record aop := mk_aop {
  win : rwin;
  glo : wprof_set;  (** [wprof.glo] *)
  funcs : Z → wprof_scope;  (** [wprof.funcs] *)
  wprof_next_free : Z;
  wprof_init : Z;
  wprof_enable : Z;
  last_have_handled_message : Z;
  pes_have_handled_message : Z;
  dfa_have_handled_message : Z;
  pes_closer : option Z;
  dfa_closer : option Z;
  opt_closer : option Z;
}.

Definition set_win (v : rwin) (s : aop) : aop :=
  mk_aop v (glo s) (funcs s) (wprof_next_free s) (wprof_init s) (wprof_enable s)
    (last_have_handled_message s) (pes_have_handled_message s) (dfa_have_handled_message s)
    (pes_closer s) (dfa_closer s) (opt_closer s).
Definition set_glo (v : wprof_set) (s : aop) : aop :=
  mk_aop (win s) v (funcs s) (wprof_next_free s) (wprof_init s) (wprof_enable s)
    (last_have_handled_message s) (pes_have_handled_message s) (dfa_have_handled_message s)
    (pes_closer s) (dfa_closer s) (opt_closer s).
Definition set_funcs (v : Z → wprof_scope) (s : aop) : aop :=
  mk_aop (win s) (glo s) v (wprof_next_free s) (wprof_init s) (wprof_enable s)
    (last_have_handled_message s) (pes_have_handled_message s) (dfa_have_handled_message s)
    (pes_closer s) (dfa_closer s) (opt_closer s).
Definition set_next_free (v : Z) (s : aop) : aop :=
  mk_aop (win s) (glo s) (funcs s) v (wprof_init s) (wprof_enable s)
    (last_have_handled_message s) (pes_have_handled_message s) (dfa_have_handled_message s)
    (pes_closer s) (dfa_closer s) (opt_closer s).
Definition set_wprof_init (v : Z) (s : aop) : aop :=
  mk_aop (win s) (glo s) (funcs s) (wprof_next_free s) v (wprof_enable s)
    (last_have_handled_message s) (pes_have_handled_message s) (dfa_have_handled_message s)
    (pes_closer s) (dfa_closer s) (opt_closer s).
Definition set_handled (last p d : Z) (s : aop) : aop :=
  mk_aop (win s) (glo s) (funcs s) (wprof_next_free s) (wprof_init s) (wprof_enable s)
    last p d (pes_closer s) (dfa_closer s) (opt_closer s).
Definition set_closers (p d o : option Z) (s : aop) : aop :=
  mk_aop (win s) (glo s) (funcs s) (wprof_next_free s) (wprof_init s) (wprof_enable s)
    (last_have_handled_message s) (pes_have_handled_message s) (dfa_have_handled_message s)
    p d o.

(** [memset(&wprof, 0, sizeof(wprof))]. *)
Definition clear_wprof (s : aop) : aop :=
  set_win (set_rwindow_end 0 (set_rwindow_bb_in 0 (win s)))
    (set_next_free 0 (set_funcs (λ _, mk_scope [] zero_set) (set_glo zero_set s))).

Definition bump_glo (p : wpolicy) (f : wfield) (n : Z) (s : aop) : aop :=
  set_glo (add_to p f n (glo s)) s.

Definition bump_func (i : Z) (p : wpolicy) (f : wfield) (n : Z) (s : aop) : aop :=
  set_funcs (upd (funcs s) i (mk_scope (funcname (funcs s i)) (add_to p f n (stats (funcs s i))))) s.

(** ** Numbers as text *)

(** [lt_n2d]: at most 19 digits fit its buffer. *)
Definition lt_n2d (n : Z) : cstr := num_digits 10 19 n [].

Definition hex_char (r : Z) : ascii :=
  ascii_of_N (Z.to_N (if r <? 10 then 48 + r else 97 + r - 10)).

Fixpoint hex_digits (fuel : nat) (n : Z) (acc : cstr) : cstr :=
  match fuel with
  | O => acc
  | S fuel' =>
      let acc := hex_char (n mod 16) :: acc in
      if n <? 16 then acc else hex_digits fuel' (n / 16) acc
  end.

Definition lt_n2h (n : Z) : cstr := hex_digits 19 n [].

(** The line [resummarize] builds. *)
Definition summary_text (name : cstr) (st : wprof_set) : cstr :=
  name ++ lit "," ++ lt_n2d (pol st pes bb_in) ++ lit "," ++ lt_n2d (pol st pes bb_out)
    ++ lit "," ++ lt_n2d (pol st dfa bb_in) ++ lit "," ++ lt_n2d (pol st dfa bb_out)
    ++ lit "," ++ lt_n2d (pol st opt bb_in) ++ lit "," ++ lt_n2d (pol st opt bb_out)
    ++ [ascii_of_nat 10].

(** The name of a call context. *)
Definition func_key (caller2 caller1 caller0 : Z) (name : cstr) : cstr :=
  lit "0x" ++ lt_n2h caller2 ++ lit ",0x" ++ lt_n2h caller1 ++ lit ",0x" ++ lt_n2h caller0
    ++ lit "," ++ name.

Section Aop.
Context {os : Type} `{minix : Minix os} `{opts : Options}.

Local Abbreviation A := (prog (aop * os)).

Definition geta {B} (f : aop → B) : A B := gets (λ s, f s.1).
Definition puta (f : aop → aop) : A () := modify (λ s, (f s.1, s.2)).

(** Code of [ltckpt_recover.c] on the globals they share. *)
Definition lift_win {B} (p : prog (rwin * os) B) : A B := λ s,
  match p (win s.1, s.2) with
  | Ok b (w, o) => Ok b (set_win w s.1, o)
  | Stop y (w, o) => Stop y (set_win w s.1, o)
  end.

(** [resummarize]; [strcat] past the end of the summary is undefined. *)
Definition resummarize_func (name : cstr) (i : Z) : A () :=
  t ← geta (λ s, summary_text name (stats (funcs s i)));
  if SUMMARY <=? zlen t then halt Undefined else
  puta (λ s, set_funcs (upd (funcs s) i (mk_scope (funcname (funcs s i))
               (mk_set (pol (stats (funcs s i))) t))) s).

Definition resummarize_glo (name : cstr) : A () :=
  t ← geta (λ s, summary_text name (glo s));
  if SUMMARY <=? zlen t then halt Undefined else
  puta (λ s, set_glo (mk_set (pol (glo s)) t) s).

(** [HASH_FIND_STR]: the entry in use with a name. *)
Definition hash_find (key : cstr) (s : aop) : option Z :=
  head (filter (λ i, funcname (funcs s i) = key) (seqZ 0 (wprof_next_free s))).

(** [lt_wprof_func_stats]: the index of the entry whose counters it returns.  The flag
    [recursive], which both returns switch off, is off at every call, and the entry taken
    is clear, since entries are taken in order: the assertions on them hold. *)
Definition lt_wprof_func_stats (caller2 caller1 caller0 : Z) (func_name_final : cstr) : A Z :=
  let key := func_key caller2 caller1 caller0 func_name_final in
  if FUNCNAME <=? zlen key then halt Undefined else
  found ← geta (hash_find key);
  match found with
  | Some i => mret i
  | None =>
      i ← geta wprof_next_free;
      puta (λ s, set_next_free (s32 (wprof_next_free s + 1)) s) ;;
      assert (i <? MAXFUNCS) ;;
      puta (λ s, set_funcs (upd (funcs s) i (mk_scope key (stats (funcs s i)))) s) ;;
      mret i
  end.

(** Crash when the window closes, if a test asked for it. *)
Definition suicide_if_armed : A () :=
  a ← geta (λ s, suicide_on_window_close (win s));
  when (truthy a)
    (puta (λ s, set_win (set_suicide_on_window_close 0 (win s)) s) ;;
     lift_win ltckpt_do_suicide).

(** ** The hook of window profiling *)

Definition names : list cstr := [lit "_ipc_send"; lit "_ipc_notify"; lit "_do_kernel_call"].

(** The loop over [names], at index [i]. *)
Fixpoint leave_on_names (func_name : cstr) (funcprof : option Z) (i : Z) (l : list cstr) : A () :=
  match l with
  | [] => skip
  | name :: l' =>
      open ← geta pes_have_handled_message;
      if negb (truthy open) then skip else
      (if starts_with name func_name then
         puta (λ s, set_handled (last_have_handled_message s) 0 (dfa_have_handled_message s) s) ;;
         match funcprof with
         | Some j => puta (λ s, set_closers (Some j) (dfa_closer s) (opt_closer s) s)
         | None => skip
         end ;;
         stats_on ← geta (λ s, wprof_enable_stats (win s));
         (if truthy stats_on then
            puta (bump_glo pes w_end 1) ;;
            (if i =? 0 then puta (bump_glo pes end_s 1)
             else if i =? 1 then puta (bump_glo pes end_n 1)
             else if i =? 2 then puta (bump_glo pes end_k 1) else skip) ;;
            match funcprof with
            | Some j => puta (bump_func j opt w_end 1)
            | None => halt Sigsegv
            end
          else skip) ;;
         suicide_if_armed
       else skip) ;;
      leave_on_names func_name funcprof (i + 1) l'
  end.

(** The window is entered or left. *)
Definition window_change (funcprof : option Z) : A () :=
  have ← geta (λ s, truthy (have_handled_message (win s)));
  last ← geta (λ s, truthy (last_have_handled_message s));
  if have && negb last then
    puta (λ s, set_handled (last_have_handled_message s) 1 1 s) ;;
    puta (set_closers None None None)
  else if negb have && last then
    puta (λ s, set_win (set_sa_window__is_open 0 (win s))
                 (set_handled (last_have_handled_message s) 0 0 s)) ;;
    stats_on ← geta (λ s, wprof_enable_stats (win s));
    (if truthy stats_on then
       puta (bump_glo opt w_end 1) ;;
       puta (bump_glo opt end_k 1) ;;
       match funcprof with
       | Some j => puta (bump_func j opt w_end 1) ;;
                   puta (λ s, set_closers (pes_closer s) (dfa_closer s) (Some j) s)
       | None => halt Sigsegv
       end
     else skip) ;;
    suicide_if_armed
  else skip.

(** The instructions of a block counted for a policy. *)
Definition count_block (p : wpolicy) (inside : Z) (n i : Z) (s : aop) : aop :=
  let f := if truthy inside then bb_in else bb_out in
  bump_func i p f n (bump_glo p f n s).

(** Basic block accounting. *)
Definition account (n i : Z) (s : aop) : aop :=
  let s := count_block opt (have_handled_message (win s)) n i s in
  let s := count_block pes (pes_have_handled_message s) n i s in
  let s := count_block dfa (dfa_have_handled_message s) n i s in
  if truthy (sa_window__is_open (win s))
  then set_win (set_rwindow_bb_in (u64 (rwindow_bb_in (win s) + n)) (win s)) s
  else bump_glo rwindow bb_out n s.

(** The entry a closer points to is blamed for the instructions outside the window. *)
Definition blame (c : option Z) (p : wpolicy) (n : Z) : A () :=
  match c with
  | Some j => puta (bump_func j p ended_cumulative n)
  | None => skip
  end.

(** [ltckpt_aop_hook_wprof] with the instruction count and the function name in [argv], and
    the return addresses of the three frames above, 0 where there is none. *)
Definition ltckpt_aop_hook_wprof (hook_type arg0 : Z) (func_name : cstr) (c0 c1 c2 : Z) : A Z :=
  init ← geta wprof_init;
  when (negb (truthy init)) (puta (λ s, set_wprof_init 1 (clear_wprof s))) ;;
  enable ← geta wprof_enable;
  if negb (truthy enable) then
    puta (λ s, set_handled (have_handled_message (win s)) (pes_have_handled_message s)
                 (dfa_have_handled_message s) s) ;;
    mret 0
  else
  stats_on ← geta (λ s, wprof_enable_stats (win s));
  funcprof ← (if truthy stats_on
              then (i ← lt_wprof_func_stats c2 c1 c0 func_name; mret (Some i)) else mret None);
  when (hook_type =? 0) (leave_on_names func_name funcprof 0 names) ;;
  window_change funcprof ;;
  match funcprof with
  | Some i =>
      let num_insts := s32 arg0 in
      puta (account num_insts i) ;;
      when (hook_type =? 0) (resummarize_func func_name i ;; resummarize_glo (lit "GLOBAL$")) ;;
      o ← geta opt_closer;
      blame o opt num_insts ;;
      p ← geta pes_closer;
      blame p pes num_insts
  | None => skip
  end ;;
  puta (λ s, set_handled (have_handled_message (win s)) (pes_have_handled_message s)
               (dfa_have_handled_message s) s) ;;
  mret 0.

(** [ltckpt_aop_hook_rwindowprof]. *)
Definition ltckpt_aop_hook_rwindowprof (argc arg0 : Z) : A Z :=
  enable ← geta wprof_enable;
  if negb (truthy enable) then mret 0 else
  init ← geta wprof_init;
  when (negb (truthy init)) (puta (λ s, set_wprof_init 1 (clear_wprof s))) ;;
  stats_on ← geta (λ s, wprof_enable_stats (win s));
  (if truthy stats_on then
     assert (argc =? 2) ;;
     let num_insts := s32 arg0 in
     tcb ← geta (λ s, inside_trusted_compute_base (win s));
     open ← geta (λ s, sa_window__is_open (win s));
     if truthy tcb then puta (bump_glo rwindow bb_tcb num_insts)
     else if truthy open then
       puta (λ s, set_win (set_rwindow_bb_in (u64 (rwindow_bb_in (win s) + num_insts)) (win s)) s) ;;
       puta (λ s, set_win (set_wprof_currwindow_bb_in
                             (u64 (wprof_currwindow_bb_in (win s) + num_insts)) (win s)) s)
     else
       puta (bump_glo rwindow bb_out num_insts) ;;
       suicide_if_armed
   else skip) ;;
  mret 0.

(** The signals of interest. *)
Inductive signum := SIGUSR1 | SIGUSR2 | SIGTERM | other_signal.

(** [sef_signal_handle_default_hook] without what it prints. *)
Definition sef_signal_handle_default_hook (sig : signum) : A () :=
  match sig with
  | SIGUSR2 => puta clear_wprof
  | SIGTERM => puta (λ s, set_win (set_suicide_on_window_close 1 (win s)) s)
  | SIGUSR1 =>
      puta (λ s, set_win (set_wprof_enable_stats
                            (if truthy (wprof_enable_stats (win s)) then 0 else 1) (win s)) s)
  | other_signal => skip
  end.

End Aop.

(** The hooks that count functions and tops of the loop in the context. *)
Definition ltckpt_aop_hook_func (c : ltckpt_ctx) : Z * ltckpt_ctx :=
  (0, CTX_INC num_aop_funcs set_num_aop_funcs c).
Definition ltckpt_aop_hook_tol (c : ltckpt_ctx) : Z * ltckpt_ctx :=
  (0, CTX_INC num_aop_tols set_num_aop_tols c).

(** ** What the counters hold *)

Section Accounting.
Context {os : Type} `{minix : Minix os} `{opts : Options}.

Lemma returns_geta {B C} (f : aop → B) (k : B → prog (aop * os) C) s o Q :
  returns (k (f s)) (s, o) Q → returns (geta f ≫= k) (s, o) Q.
Proof. done. Qed.

Lemma returns_puta {C} f (k : () → prog (aop * os) C) s o Q :
  returns (k ()) (f s, o) Q → returns (puta f ≫= k) (s, o) Q.
Proof. done. Qed.

(** The counters of instructions. *)
Definition inout (f : wfield) : Prop := f = bb_in ∨ f = bb_out.

(** A part of the hook that counts no instructions. *)
Record same_acct (s s' : aop) : Prop := {
  sa_glo p f : inout f → pol (glo s') p f = pol (glo s) p f;
  sa_funcs i p f : inout f → pol (stats (funcs s' i)) p f = pol (stats (funcs s i)) p f;
  sa_names i : funcname (funcs s' i) = funcname (funcs s i);
  sa_next : wprof_next_free s' = wprof_next_free s;
  sa_rwin : rwindow_bb_in (win s') = rwindow_bb_in (win s);
  sa_init : wprof_init s' = wprof_init s;
  sa_enable : wprof_enable s' = wprof_enable s;
  sa_stats : wprof_enable_stats (win s') = wprof_enable_stats (win s);
  sa_suicide : suicide_on_window_close (win s') = suicide_on_window_close (win s);
}.

#[local] Instance same_acct_preorder : PreOrder same_acct.
Proof.
  split; [by intros s; split|].
  intros s1 s2 s3 H1 H2. split; intros.
  - rewrite (sa_glo _ _ H2) by done. by apply H1.
  - rewrite (sa_funcs _ _ H2) by done. by apply H1.
  - rewrite (sa_names _ _ H2). apply H1.
  - rewrite (sa_next _ _ H2). apply H1.
  - rewrite (sa_rwin _ _ H2). apply H1.
  - rewrite (sa_init _ _ H2). apply H1.
  - rewrite (sa_enable _ _ H2). apply H1.
  - rewrite (sa_stats _ _ H2). apply H1.
  - rewrite (sa_suicide _ _ H2). apply H1.
Qed.

Lemma add_to_other p f n st p' f' : f ≠ f' → pol (add_to p f n st) p' f' = pol st p' f'.
Proof. intros H. cbn. by rewrite decide_False by naive_solver. Qed.

Lemma bump_glo_same p f n s : ¬ inout f → same_acct s (bump_glo p f n s).
Proof.
  intros Hf. split; try done. intros p' f' Hf'. apply add_to_other. naive_solver.
Qed.

Lemma bump_func_same j p f n s : ¬ inout f → same_acct s (bump_func j p f n s).
Proof.
  intros Hf. split; try done; intros i; cbn; unfold upd.
  - intros p' f' Hf'. destruct (Z.eqb_spec i j) as [->|]; [|done].
    apply add_to_other. naive_solver.
  - by destruct (Z.eqb_spec i j) as [->|].
Qed.

(** Such a part may also close the pessimistic window. *)
Definition quiet (s s' : aop) : Prop :=
  same_acct s s' ∧ have_handled_message (win s') = have_handled_message (win s) ∧
  last_have_handled_message s' = last_have_handled_message s ∧
  dfa_have_handled_message s' = dfa_have_handled_message s ∧
  (pes_have_handled_message s' = pes_have_handled_message s ∨ pes_have_handled_message s' = 0).

#[local] Instance quiet_preorder : PreOrder quiet.
Proof.
  split.
  - intros s. split_and!; auto; done.
  - intros s1 s2 s3 (A1 & B1 & C1 & D1 & E1) (A2 & B2 & C2 & D2 & E2).
    split; [by etrans|]. split_and!; try congruence. destruct E2 as [->| ->]; auto.
Qed.

Lemma quiet_glo p f n s : ¬ inout f → quiet s (bump_glo p f n s).
Proof. intros Hf. split; [by apply bump_glo_same|]. split_and!; auto. Qed.

Lemma quiet_func j p f n s : ¬ inout f → quiet s (bump_func j p f n s).
Proof. intros Hf. split; [by apply bump_func_same|]. split_and!; auto. Qed.

Lemma suicide_off s o (Q : () → aop * os → Prop) :
  suicide_on_window_close (win s) = 0 → Q () (s, o) → returns suicide_if_armed (s, o) Q.
Proof.
  intros H0 HQ. unfold suicide_if_armed. apply returns_geta. rewrite H0. done.
Qed.

(** The last line of a part that is quiet so far. *)
Lemma quiet_suicide s0 s (o : os) :
  quiet s0 s → suicide_on_window_close (win s0) = 0 →
  returns suicide_if_armed (s, o) (λ _ so, quiet s0 so.1 ∧ so.2 = o).
Proof.
  intros Hq H0. apply suicide_off; [|by split].
  destruct Hq as [Hs _]. by rewrite (sa_suicide _ _ Hs).
Qed.

Lemma leave_on_names_run nm j l : ∀ i s (o : os),
  suicide_on_window_close (win s) = 0 →
  returns (leave_on_names nm (Some j) i l) (s, o) (λ _ so, quiet s so.1 ∧ so.2 = o).
Proof.
  induction l as [|name l IH]; intros i s o H0; [by split|]. cbn [leave_on_names].
  apply returns_geta. destruct (truthy _); [|by split]. cbn [negb].
  assert (∀ (p : prog (aop * os) ()), returns p (s, o) (λ _ so, quiet s so.1 ∧ so.2 = o) →
    returns (p ;; leave_on_names nm (Some j) (i + 1) l) (s, o) (λ _ so, quiet s so.1 ∧ so.2 = o))
    as Hrest.
  { intros p Hp. apply returns_bind. eapply returns_mono; [exact Hp|].
    intros _ [s1 o1] [Hq Ho]. cbn in Hq, Ho. subst o1. eapply returns_mono.
    - apply IH. destruct Hq as [Hs _]. by rewrite (sa_suicide _ _ Hs).
    - intros _ so [Hq' Ho']. split; [by etrans|done]. }
  apply Hrest. destruct (starts_with name nm); [|by split].
  apply returns_puta. apply returns_bind. unfold returns at 1, puta at 1, modify at 1.
  cbn [fst snd]. apply returns_geta.
  set (s1 := set_closers _ _ _ _).
  assert (quiet s s1) as Hq1.
  { split; [by split|]. split_and!; auto. }
  apply returns_bind. destruct (truthy _).
  2:{ unfold returns, skip. by apply quiet_suicide. }
  apply returns_puta. apply returns_bind.
  set (p := if i =? 0 then _ else _).
  assert (∃ s2, p (bump_glo pes w_end 1 s1, o) = Ok () (s2, o) ∧ quiet (bump_glo pes w_end 1 s1) s2)
    as (s2 & Hp & Hq2).
  { unfold p. destruct (i =? 0); [|destruct (i =? 1); [|destruct (i =? 2)]];
      (eexists; split; [reflexivity|]); try apply quiet_glo; try done; unfold inout; naive_solver. }
  unfold returns at 1. rewrite Hp. unfold returns at 1, puta, modify. cbn [fst snd].
  apply quiet_suicide; [|done].
  transitivity s1; [done|]. transitivity (bump_glo pes w_end 1 s1).
  { apply quiet_glo. unfold inout. naive_solver. }
  transitivity s2; [done|]. apply quiet_func. unfold inout. naive_solver.
Qed.

(** The windows of the policies follow the window [h] of the server: the data-flow one
    exactly, the pessimistic one at most. *)
Definition in_step (h : Z) (s : aop) : Prop :=
  (dfa_have_handled_message s ≠ 0 ↔ h ≠ 0) ∧ (pes_have_handled_message s ≠ 0 → h ≠ 0).

Lemma quiet_in_step h s s' : quiet s s' → in_step h s → in_step h s'.
Proof.
  intros (_ & _ & _ & Hd & Hp) [H1 H2]. split; [by rewrite Hd|]. by destruct Hp as [->| ->].
Qed.

Lemma window_change_run j s (o : os) :
  suicide_on_window_close (win s) = 0 → in_step (last_have_handled_message s) s →
  returns (window_change (Some j)) (s, o) (λ _ so,
    same_acct s so.1 ∧ have_handled_message (win so.1) = have_handled_message (win s) ∧
    in_step (have_handled_message (win s)) so.1 ∧ so.2 = o).
Proof.
  intros H0 [Hd Hp]. unfold window_change. do 2 apply returns_geta.
  destruct (truthy (have_handled_message (win s))) eqn:Eh,
    (truthy (last_have_handled_message s)) eqn:El; cbn [andb negb];
    rewrite ?truthy_true, ?truthy_false in *.
  - split_and!; [done|done| |done]. split; [|done]. tauto.
  - apply returns_puta. unfold returns, puta, modify. cbn [fst snd].
    split; [by split|]. split_and!; [done| |done]. split; cbn; [|done].
    split; [done|]. intros _. lia.
  - apply returns_puta, returns_geta. cbn [win wprof_enable_stats set_win].
    set (s1 := set_win _ _).
    assert (same_acct s s1) as Hs1 by (by split).
    apply returns_bind.
    match goal with |- returns ?p _ _ => set (q := p) end.
    assert (∃ s2, q (s1, o) = Ok () (s2, o) ∧ same_acct s1 s2 ∧
      have_handled_message (win s2) = have_handled_message (win s1) ∧
      dfa_have_handled_message s2 = 0 ∧ pes_have_handled_message s2 = 0)
      as (s2 & Hq & Hs2 & Hh & Hd2 & Hp2).
    { unfold q. destruct (truthy _); [|by exists s1]. eexists. split; [reflexivity|].
      split_and!; try done. transitivity (bump_glo opt w_end 1 s1).
      { apply bump_glo_same. unfold inout. naive_solver. }
      transitivity (bump_glo opt end_k 1 (bump_glo opt w_end 1 s1)).
      { apply bump_glo_same. unfold inout. naive_solver. }
      set (s3 := bump_glo opt end_k 1 _).
      assert (same_acct s3 (bump_func j opt w_end 1 s3)) as [].
      { apply bump_func_same. unfold inout. naive_solver. }
      by split. }
    unfold returns at 1. rewrite Hq. apply suicide_off.
    { rewrite (sa_suicide _ _ Hs2). done. }
    split; [by etrans|]. split_and!; [done| |done]. split; cbn; rewrite ?Hd2, ?Hp2; [|done]. lia.
  - split_and!; [done|done| |done]. split; [by rewrite Hd, El, Eh|]. intros H. by destruct (Hp H).
Qed.

(** The invariant of the counters after [T] instructions in the call contexts [ks]. *)
Record acct (T : Z) (ks : list cstr) (s : aop) : Prop := {
  ac_total p : p ≠ rwindow → pol (glo s) p bb_in + pol (glo s) p bb_out = T;
  ac_rwin : rwindow_bb_in (win s) + pol (glo s) rwindow bb_out = T;
  ac_rpos : 0 <= rwindow_bb_in (win s) ∧ 0 <= pol (glo s) rwindow bb_out;
  ac_sum p f : p ≠ rwindow → inout f →
    pol (glo s) p f = zsum (λ i, pol (stats (funcs s i)) p f) (wprof_next_free s);
  ac_pos i p f : inout f → 0 <= pol (stats (funcs s i)) p f;
  ac_fresh i p f : inout f → wprof_next_free s <= i → pol (stats (funcs s i)) p f = 0;
  ac_neg i p f : inout f → i < 0 → pol (stats (funcs s i)) p f = 0;
  ac_dfa : pol (glo s) dfa bb_in = pol (glo s) opt bb_in;
  ac_pes : pol (glo s) pes bb_in <= pol (glo s) opt bb_in;
  ac_next : wprof_next_free s = zlen ks;
  ac_nodup : NoDup ks;
  ac_names i k : ks !! i = Some k → funcname (funcs s (Z.of_nat i)) = k;
  ac_init : wprof_init s ≠ 0;
  ac_enable : wprof_enable s ≠ 0;
  ac_stats : wprof_enable_stats (win s) ≠ 0;
  ac_suicide : suicide_on_window_close (win s) = 0;
}.

Lemma acct_same T ks s s' : same_acct s s' → acct T ks s → acct T ks s'.
Proof.
  intros H [A1 A2 A3 A4 A5 A6 A7 A8 A9 A10 A11 A12 A13 A14 A15 A16].
  assert (inout bb_in ∧ inout bb_out) as [Hi Ho] by (unfold inout; auto).
  split; rewrite ?(sa_glo _ _ H), ?(sa_rwin _ _ H), ?(sa_next _ _ H), ?(sa_init _ _ H),
    ?(sa_enable _ _ H), ?(sa_stats _ _ H), ?(sa_suicide _ _ H) by done; try done.
  - intros p Hp. rewrite !(sa_glo _ _ H) by done. by apply A1.
  - intros p f Hp Hf. rewrite (sa_glo _ _ H) by done. rewrite A4 by done. apply zsum_ext.
    intros i _. by rewrite (sa_funcs _ _ H).
  - intros i p f Hf. rewrite (sa_funcs _ _ H) by done. by apply A5.
  - intros i p f Hf Hi'. rewrite (sa_funcs _ _ H) by done. by apply A6.
  - intros i p f Hf Hi'. rewrite (sa_funcs _ _ H) by done. by apply A7.
  - intros i k Hk. rewrite (sa_names _ _ H). by apply A12.
Qed.

(** The counter a block adds to under a policy. *)
Definition side (s : aop) (p : wpolicy) : wfield :=
  let w := match p with
           | pes => pes_have_handled_message s
           | dfa => dfa_have_handled_message s
           | opt => have_handled_message (win s)
           | rwindow => sa_window__is_open (win s)
           end in
  if truthy w then bb_in else bb_out.

Definition side_of (w : Z) : wfield := if truthy w then bb_in else bb_out.

Lemma count_block_glo p x n i s p' f :
  pol (glo (count_block p x n i s)) p' f
  = if decide (p' = p ∧ f = side_of x) then u64 (pol (glo s) p' f + n) else pol (glo s) p' f.
Proof. unfold side_of. cbn -[u64 decide]. repeat case_decide; naive_solver. Qed.

Lemma count_block_funcs p x n i s j p' f :
  pol (stats (funcs (count_block p x n i s) j)) p' f
  = if decide (j = i ∧ p' = p ∧ f = side_of x) then u64 (pol (stats (funcs s j)) p' f + n)
    else pol (stats (funcs s j)) p' f.
Proof.
  unfold side_of. cbn -[u64 decide]. unfold upd. destruct (Z.eqb_spec j i) as [->|Hne].
  - cbn -[u64 decide]. repeat case_decide; naive_solver.
  - by rewrite decide_False by naive_solver.
Qed.

Lemma count_block_name p x n i s j :
  funcname (funcs (count_block p x n i s) j) = funcname (funcs s j).
Proof. cbn. unfold upd. by destruct (Z.eqb_spec j i) as [->|]. Qed.

(** The three policies counted, before the recovery window. *)
Definition account3 (n i : Z) (s : aop) : aop :=
  count_block dfa (dfa_have_handled_message s) n i
    (count_block pes (pes_have_handled_message s) n i
      (count_block opt (have_handled_message (win s)) n i s)).

Lemma account_eq n i s :
  account n i s =
  if truthy (sa_window__is_open (win s))
  then set_win (set_rwindow_bb_in (u64 (rwindow_bb_in (win s) + n)) (win s)) (account3 n i s)
  else bump_glo rwindow bb_out n (account3 n i s).
Proof. done. Qed.

Lemma account_glo n i s p f :
  p ≠ rwindow →
  pol (glo (account n i s)) p f
  = if decide (f = side s p) then u64 (pol (glo s) p f + n) else pol (glo s) p f.
Proof.
  intros Hp. rewrite account_eq. transitivity (pol (glo (account3 n i s)) p f).
  { destruct (truthy _); [done|]. cbn -[account3 decide]. by rewrite decide_False by naive_solver. }
  unfold account3. rewrite !count_block_glo.
  destruct p; [| | |done]; repeat case_decide; unfold side in *; naive_solver.
Qed.

Lemma account_funcs n i s j p f :
  p ≠ rwindow →
  pol (stats (funcs (account n i s) j)) p f
  = if decide (j = i ∧ f = side s p) then u64 (pol (stats (funcs s j)) p f + n)
    else pol (stats (funcs s j)) p f.
Proof.
  intros Hp. rewrite account_eq. transitivity (pol (stats (funcs (account3 n i s) j)) p f).
  { by destruct (truthy _). }
  unfold account3. rewrite !count_block_funcs.
  destruct p; [| | |done]; repeat case_decide; unfold side in *; naive_solver.
Qed.

Lemma account_funcs_rwindow n i s j f :
  pol (stats (funcs (account n i s) j)) rwindow f = pol (stats (funcs s j)) rwindow f.
Proof.
  rewrite account_eq. transitivity (pol (stats (funcs (account3 n i s) j)) rwindow f).
  { by destruct (truthy _). }
  unfold account3. rewrite !count_block_funcs. by rewrite !decide_False by naive_solver.
Qed.

Lemma account_rwindow n i s :
  (rwindow_bb_in (win (account n i s)) = u64 (rwindow_bb_in (win s) + n) ∧
   pol (glo (account n i s)) rwindow bb_out = pol (glo s) rwindow bb_out) ∨
  (rwindow_bb_in (win (account n i s)) = rwindow_bb_in (win s) ∧
   pol (glo (account n i s)) rwindow bb_out = u64 (pol (glo s) rwindow bb_out + n)).
Proof.
  rewrite account_eq.
  assert (pol (glo (account3 n i s)) rwindow bb_out = pol (glo s) rwindow bb_out) as E.
  { unfold account3. rewrite !count_block_glo. by rewrite !decide_False by naive_solver. }
  destruct (truthy _); [left; by rewrite <- E|right]. split; [done|].
  cbn -[account3 decide u64]. rewrite decide_True by done. by rewrite E.
Qed.

Lemma account_rest n i s :
  (∀ j, funcname (funcs (account n i s) j) = funcname (funcs s j)) ∧
  wprof_next_free (account n i s) = wprof_next_free s ∧
  wprof_init (account n i s) = wprof_init s ∧ wprof_enable (account n i s) = wprof_enable s ∧
  wprof_enable_stats (win (account n i s)) = wprof_enable_stats (win s) ∧
  suicide_on_window_close (win (account n i s)) = suicide_on_window_close (win s).
Proof.
  rewrite account_eq. split; [|by destruct (truthy _)]. intros j.
  transitivity (funcname (funcs (account3 n i s) j)); [by destruct (truthy _)|].
  unfold account3. by rewrite !count_block_name.
Qed.

(** Bounds on the counters of a state that satisfies the invariant. *)
Lemma acct_bounds T ks s p f :
  acct T ks s → p ≠ rwindow → inout f →
  0 <= pol (glo s) p f <= T ∧ ∀ j, pol (stats (funcs s j)) p f <= T.
Proof.
  intros H Hp Hf. pose proof (ac_total _ _ _ H p Hp) as Ht.
  assert (∀ f, inout f → 0 <= pol (glo s) p f) as Hpos.
  { intros f' Hf'. rewrite (ac_sum _ _ _ H) by done. apply zsum_nonneg.
    intros j. by apply (ac_pos _ _ _ H). }
  assert (0 <= pol (glo s) p f <= T) as Hb.
  { pose proof (Hpos bb_in ltac:(by left)). pose proof (Hpos bb_out ltac:(by right)).
    destruct Hf as [-> | ->]; lia. }
  split; [done|]. intros j. destruct (decide (0 <= j < wprof_next_free s)) as [Hj|Hj].
  - etrans; [|apply Hb]. rewrite (ac_sum _ _ _ H) by done.
    apply (zsum_bound (λ j, pol (stats (funcs s j)) p f)); [|done].
    intros i. by apply (ac_pos _ _ _ H).
  - destruct (decide (wprof_next_free s <= j)); [rewrite (ac_fresh _ _ _ H) by done; lia|].
    rewrite (ac_neg _ _ _ H) by (done || lia). lia.
Qed.

(** Without a wrap-around, a block adds its instructions to one side of every policy. *)
Lemma account_glo_adds T ks s n i p f :
  acct T ks s → 0 <= n → T + n < 18446744073709551616 → p ≠ rwindow → inout f →
  pol (glo (account n i s)) p f = pol (glo s) p f + (if decide (f = side s p) then n else 0).
Proof.
  intros H Hn HT Hpr Hf. rewrite account_glo by done. pose proof (acct_bounds _ _ _ p f H Hpr Hf).
  case_decide; [apply u64_small|]; lia.
Qed.

Lemma account_funcs_adds T ks s n i j p f :
  acct T ks s → 0 <= n → T + n < 18446744073709551616 → inout f →
  pol (stats (funcs (account n i s) j)) p f
  = pol (stats (funcs s j)) p f + (if decide (j = i ∧ p ≠ rwindow ∧ f = side s p) then n else 0).
Proof.
  intros H Hn HT Hf. destruct (decide (p = rwindow)) as [->|Hpr].
  { rewrite account_funcs_rwindow, decide_False by naive_solver. lia. }
  rewrite account_funcs by done. destruct (acct_bounds _ _ _ p f H Hpr Hf) as [_ Hb].
  specialize (Hb j). pose proof (ac_pos _ _ _ H j p f Hf).
  repeat case_decide; try naive_solver; [apply u64_small|]; lia.
Qed.

Lemma side_inout s p : inout (side s p).
Proof. unfold side, inout. destruct (truthy _); auto. Qed.

Lemma acct_account T ks s n i :
  acct T ks s → 0 <= i < wprof_next_free s → 0 <= n → T + n < 18446744073709551616 →
  in_step (have_handled_message (win s)) s → acct (T + n) ks (account n i s).
Proof.
  intros H Hi Hn HT [Hd Hp].
  destruct (account_rest n i s) as (Hnm & Hnx & E1 & E2 & E3 & E4).
  pose proof (λ p f, account_glo_adds T ks s n i p f H Hn HT) as Hg.
  pose proof (λ f Hf j p, account_funcs_adds T ks s n i j p f H Hn HT Hf) as Hf'.
  assert (inout bb_in ∧ inout bb_out) as [Hbi Hbo] by (unfold inout; auto).
  split; rewrite ?Hnx, ?E1, ?E2, ?E3, ?E4; try (by apply H).
  - intros p Hpr. rewrite !Hg by done. pose proof (ac_total _ _ _ H p Hpr).
    destruct (side_inout s p) as [->| ->]; repeat case_decide; try done; lia.
  - pose proof (ac_rwin _ _ _ H). pose proof (ac_rpos _ _ _ H).
    destruct (account_rwindow n i s) as [[-> ->]|[-> ->]]; rewrite u64_small; lia.
  - pose proof (ac_rwin _ _ _ H). pose proof (ac_rpos _ _ _ H).
    destruct (account_rwindow n i s) as [[-> ->]|[-> ->]]; rewrite u64_small; lia.
  - intros p f Hpr Hfo. rewrite Hg, (ac_sum _ _ _ H) by done. case_decide as Hs.
    + symmetry. apply (zsum_add _ _ _ i); [done| |].
      * intros j Hj. rewrite Hf' by done. rewrite decide_False by naive_solver. lia.
      * rewrite Hf' by done. by rewrite decide_True by done.
    + rewrite Z.add_0_r. apply zsum_ext. intros j _. rewrite Hf' by done.
      rewrite decide_False by naive_solver. lia.
  - intros j p f Hfo. rewrite Hf' by done. pose proof (ac_pos _ _ _ H j p f Hfo).
    case_decide; lia.
  - intros j p f Hfo Hj. rewrite Hf', (ac_fresh _ _ _ H) by done.
    rewrite decide_False by (intros [-> _]; lia). done.
  - intros j p f Hfo Hj. rewrite Hf', (ac_neg _ _ _ H) by done.
    rewrite decide_False by (intros [-> _]; lia). done.
  - rewrite !Hg, (ac_dfa _ _ _ H) by done. f_equal. unfold side.
    destruct (truthy (dfa_have_handled_message s)) eqn:Ed,
      (truthy (have_handled_message (win s))) eqn:Eh; try done;
      rewrite ?truthy_true, ?truthy_false in *; tauto.
  - rewrite !Hg by done. pose proof (ac_pes _ _ _ H). unfold side.
    destruct (truthy (pes_have_handled_message s)) eqn:Ed,
      (truthy (have_handled_message (win s))) eqn:Eh; repeat case_decide; try done; try lia.
    apply truthy_true in Ed. apply truthy_false in Eh. by destruct (Hp Ed).
  - intros j k Hk. rewrite Hnm. by apply (ac_names _ _ _ H).
Qed.

(** The flags the window depends on. *)
Definition same_flags (s s' : aop) : Prop :=
  have_handled_message (win s') = have_handled_message (win s) ∧
  last_have_handled_message s' = last_have_handled_message s ∧
  dfa_have_handled_message s' = dfa_have_handled_message s ∧
  pes_have_handled_message s' = pes_have_handled_message s.

Lemma hash_find_spec T ks s key :
  acct T ks s →
  match hash_find key s with
  | Some i => 0 <= i < wprof_next_free s ∧ ks !! Z.to_nat i = Some key
  | None => key ∉ ks
  end.
Proof.
  intros H. unfold hash_find. pose proof (ac_next _ _ _ H) as Hn.
  assert (∀ i, 0 <= i < zlen ks → ks !! Z.to_nat i = Some (funcname (funcs s i))) as Hnm.
  { intros i Hi. destruct (lookup_lt_is_Some_2 ks (Z.to_nat i)) as [k Hk]; [lia|].
    rewrite Hk. pose proof (ac_names _ _ _ H _ _ Hk) as E. rewrite Z2Nat.id in E by lia.
    by rewrite E. }
  destruct (filter _ _) as [|i l] eqn:E; cbn.
  - intros [i Hi]%list_elem_of_lookup. pose proof (lookup_lt_Some _ _ _ Hi).
    assert (Z.of_nat i ∈ @nil Z) as Hin; [|by apply elem_of_nil in Hin].
    rewrite <- E. apply list_elem_of_filter. split; [by apply (ac_names _ _ _ H)|].
    apply elem_of_seqZ. lia.
  - assert (i ∈ i :: l) as Hin by (by left). rewrite <- E in Hin.
    apply list_elem_of_filter in Hin as [Hk Hi%elem_of_seqZ].
    split; [lia|]. rewrite Hnm by lia. by rewrite Hk.
Qed.

(** A new entry for a context that has none. *)
Lemma acct_new T ks s key :
  acct T ks s → key ∉ ks → zlen ks < MAXFUNCS →
  acct T (ks ++ [key])
    (set_funcs (upd (funcs s) (zlen ks) (mk_scope key (stats (funcs s (zlen ks)))))
      (set_next_free (zlen ks + 1) s)).
Proof.
  intros H Hk Hlt. pose proof (ac_next _ _ _ H) as Hn. set (s' := set_funcs _ _).
  assert (∀ j, stats (funcs s' j) = stats (funcs s j)) as Hst.
  { intros j. cbn. unfold upd. by destruct (Z.eqb_spec j (zlen ks)) as [->|]. }
  split; try (by apply H).
  - intros p f Hp Hf. change (wprof_next_free s') with (zlen ks + 1).
    rewrite zsum_succ by lia. change (glo s') with (glo s). rewrite (ac_sum _ _ _ H), Hn by done.
    rewrite Hst, (ac_fresh _ _ _ H) by (done || lia). rewrite Z.add_0_r.
    apply zsum_ext. intros i _. by rewrite Hst.
  - intros i p f Hf. rewrite Hst. by apply (ac_pos _ _ _ H).
  - intros i p f Hf Hi. change (wprof_next_free s') with (zlen ks + 1) in Hi. rewrite Hst.
    apply (ac_fresh _ _ _ H); [done|lia].
  - intros i p f Hf Hi. rewrite Hst. by apply (ac_neg _ _ _ H).
  - cbn. rewrite length_app. cbn. lia.
  - apply NoDup_app. split_and!; [apply H| |apply NoDup_singleton].
    intros k Hk' ->%list_elem_of_singleton. done.
  - intros i k [Hi|[Hge Hi]]%lookup_app_Some; cbn; unfold upd.
    + pose proof (lookup_lt_Some _ _ _ Hi). rewrite (proj2 (Z.eqb_neq _ _)) by lia.
      by apply (ac_names _ _ _ H).
    + apply list_lookup_singleton_Some in Hi as [Hi <-].
      rewrite (proj2 (Z.eqb_eq _ _)) by lia. done.
Qed.

Lemma func_stats_run T ks s (o : os) c2 c1 c0 name :
  let key := func_key c2 c1 c0 name in
  acct T ks s → zlen key < FUNCNAME → zlen (touch ks key) <= MAXFUNCS →
  returns (lt_wprof_func_stats c2 c1 c0 name) (s, o) (λ i so,
    acct T (touch ks key) so.1 ∧ 0 <= i < wprof_next_free so.1 ∧
    touch ks key !! Z.to_nat i = Some key ∧ same_flags s so.1 ∧ so.2 = o).
Proof.
  intros key H Hlen Hroom. unfold lt_wprof_func_stats. fold key.
  rewrite (proj2 (Z.leb_gt _ _)) by done. apply returns_geta.
  pose proof (hash_find_spec T ks s key H) as Hf. unfold touch in *.
  destruct (hash_find key s) as [i|].
  - destruct Hf as [Hi Hk]. rewrite decide_True by (by eapply list_elem_of_lookup_2).
    unfold returns, mret, prog_ret. cbn [fst snd].
    split; [done|]. split; [done|]. split; [done|]. by split.
  - rewrite decide_False in * by done. rewrite length_app in Hroom. cbn in Hroom.
    pose proof (ac_next _ _ _ H) as Hn. apply returns_geta. rewrite Hn.
    apply returns_puta, returns_bind. rewrite Hn.
    apply returns_assert; [apply Z.ltb_lt; unfold MAXFUNCS in *; lia|].
    apply returns_puta. unfold returns, mret, prog_ret. cbn [fst snd].
    rewrite s32_small by (unfold MAXFUNCS in *; lia).
    split; [refine (acct_new T ks s key H Hf _); lia|]. split; [cbn; lia|].
    split; [|done]. rewrite Nat2Z.id. by apply list_lookup_middle.
Qed.

(** *** The hook *)

Lemma quiet_blame c p n s (o : os) :
  returns (blame c p n) (s, o) (λ _ so, same_acct s so.1 ∧ same_flags s so.1 ∧ so.2 = o).
Proof.
  destruct c as [j|]; [|by split]. unfold returns, blame, puta, modify. cbn [fst snd].
  split; [|by split]. apply bump_func_same. unfold inout. naive_solver.
Qed.

Lemma length_hex_digits fuel k n acc :
  0 <= n < 16 ^ Z.of_nat k → (0 < k)%nat →
  (length (hex_digits fuel n acc) <= k + length acc)%nat.
Proof.
  revert k n acc. induction fuel as [|fuel IH]; intros k n acc Hn Hk; cbn [hex_digits]; [lia|].
  destruct (Z.ltb_spec n 16); [cbn; lia|]. destruct k as [|[|k]]; [lia|cbn in Hn; lia|].
  etrans; [apply (IH (S k))|cbn; lia]; [|lia].
  rewrite (Nat2Z.inj_succ (S k)), Z.pow_succ_r in Hn by lia. split.
  - apply Z.div_pos; lia.
  - apply Z.div_lt_upper_bound; lia.
Qed.

(** Return addresses, and names short enough for the key of a context. *)
Definition is_addr (c : Z) : Prop := 0 <= c < 18446744073709551616.
Definition short_name (name : cstr) : Prop := zlen name <= 42.

Lemma func_key_fits c2 c1 c0 name :
  is_addr c2 → is_addr c1 → is_addr c0 → short_name name →
  zlen (func_key c2 c1 c0 name) < FUNCNAME.
Proof.
  unfold is_addr, short_name. intros H2 H1 H0 Hn.
  assert (∀ c, 0 <= c < 18446744073709551616 → (length (lt_n2h c) <= 16)%nat) as Hh.
  { intros c Hc. etrans; [apply (length_hex_digits 19 16)|cbn; lia]; [exact Hc|lia]. }
  pose proof (Hh c2 H2). pose proof (Hh c1 H1). pose proof (Hh c0 H0).
  unfold func_key, FUNCNAME. rewrite !length_app. cbn [length lit]. lia.
Qed.

Lemma summary_fits name st : short_name name → zlen (summary_text name st) < SUMMARY.
Proof.
  unfold short_name. intros Hn.
  assert (∀ n, (length (lt_n2d n) <= 19)%nat) as Hd.
  { intros n. etrans; [apply (length_num_digits 10)|cbn; lia]. }
  pose proof (Hd (pol st pes bb_in)). pose proof (Hd (pol st pes bb_out)).
  pose proof (Hd (pol st dfa bb_in)). pose proof (Hd (pol st dfa bb_out)).
  pose proof (Hd (pol st opt bb_in)). pose proof (Hd (pol st opt bb_out)).
  unfold summary_text, SUMMARY. rewrite !length_app. cbn [length lit]. lia.
Qed.

Lemma resummarize_run name i s (o : os) :
  short_name name →
  returns (resummarize_func name i ;; resummarize_glo (lit "GLOBAL$")) (s, o)
    (λ _ so, same_acct s so.1 ∧ same_flags s so.1 ∧ so.2 = o).
Proof.
  intros Hn. apply returns_bind. unfold resummarize_func. apply returns_geta.
  rewrite (proj2 (Z.leb_gt _ _)) by (by apply summary_fits).
  unfold returns at 1, puta, modify. cbn [fst snd]. unfold resummarize_glo. apply returns_geta.
  rewrite (proj2 (Z.leb_gt _ _)) by (apply summary_fits; done).
  unfold returns, puta, modify. cbn [fst snd]. split; [|by split].
  split; try done; intros j; cbn; unfold upd; by destruct (Z.eqb_spec j i) as [->|].
Qed.

Lemma account_flags n i s : same_flags s (account n i s).
Proof. rewrite account_eq. by destruct (truthy _). Qed.

Lemma same_flags_trans s1 s2 s3 : same_flags s1 s2 → same_flags s2 s3 → same_flags s1 s3.
Proof. intros (?&?&?&?) (?&?&?&?). split_and!; congruence. Qed.

Lemma in_step_flags h s s' : same_flags s s' → in_step h s → in_step h s'.
Proof. intros (_ & _ & Hd & Hp) H. unfold in_step. by rewrite Hd, Hp. Qed.

(** The part of the hook after the accounting. *)
Lemma after_account_run ht name i n s (o : os) :
  short_name name →
  returns (when (ht =? 0) (resummarize_func name i ;; resummarize_glo (lit "GLOBAL$")) ;;
           o ← geta opt_closer; blame o opt n ;; p ← geta pes_closer; blame p pes n) (s, o)
    (λ _ so, same_acct s so.1 ∧ same_flags s so.1 ∧ so.2 = o).
Proof.
  intros Hn. apply returns_bind.
  assert (returns (when (ht =? 0) (resummarize_func name i ;; resummarize_glo (lit "GLOBAL$"))) (s, o)
    (λ _ so, same_acct s so.1 ∧ same_flags s so.1 ∧ so.2 = o)) as H1.
  { destruct (ht =? 0); [by apply resummarize_run|]. by split. }
  eapply returns_mono; [exact H1|]. intros _ [s1 o1] (A1 & F1 & O1). cbn in A1, F1, O1. subst o1.
  apply returns_geta, returns_bind. eapply returns_mono; [apply quiet_blame|].
  intros _ [s2 o2] (A2 & F2 & O2). cbn in A2, F2, O2. subst o2.
  apply returns_geta. eapply returns_mono; [apply quiet_blame|].
  intros _ [s3 o3] (A3 & F3 & O3). cbn in *. subst o3.
  split; [by do 2 (etrans; [done|])|]. split; [|done].
  apply (same_flags_trans _ s1); [done|]. by apply (same_flags_trans _ s2).
Qed.

Lemma hook_run T ks s (o : os) ht n name c0 c1 c2 :
  let key := func_key c2 c1 c0 name in
  acct T ks s → in_step (last_have_handled_message s) s →
  0 <= n < 2147483648 → T + n < 18446744073709551616 → short_name name →
  is_addr c0 → is_addr c1 → is_addr c2 → zlen (touch ks key) <= MAXFUNCS →
  returns (ltckpt_aop_hook_wprof ht n name c0 c1 c2) (s, o) (λ r so,
    r = 0 ∧ acct (T + n) (touch ks key) so.1 ∧
    in_step (last_have_handled_message so.1) so.1 ∧ so.2 = o).
Proof.
  intros key H Hst Hn HT Hnm H0 H1 H2 Hroom. unfold ltckpt_aop_hook_wprof.
  apply returns_geta. rewrite (proj2 (truthy_true _) (ac_init _ _ _ H)). cbn [negb when].
  apply returns_bind. unfold returns at 1, skip at 1.
  apply returns_geta. rewrite (proj2 (truthy_true _) (ac_enable _ _ _ H)). cbn [negb].
  apply returns_geta. rewrite (proj2 (truthy_true _) (ac_stats _ _ _ H)).
  do 2 apply returns_bind. eapply returns_mono.
  { apply (func_stats_run T ks s o c2 c1 c0 name H); [|done]. by apply func_key_fits. }
  intros i [s1 o1] (A1 & Hi & _ & F1 & O1). cbn in A1, Hi, F1, O1. subst o1. fold key in A1.
  unfold returns at 1, mret at 1, prog_ret at 1.
  assert (in_step (last_have_handled_message s1) s1) as S1.
  { pose proof F1 as (_ & -> & _). by apply (in_step_flags _ s). }
  apply returns_bind.
  assert (returns (when (ht =? 0) (leave_on_names name (Some i) 0 names)) (s1, o)
    (λ _ so, quiet s1 so.1 ∧ so.2 = o)) as Hl.
  { destruct (ht =? 0); [|by split]. apply leave_on_names_run, (ac_suicide _ _ _ A1). }
  eapply returns_mono; [exact Hl|]. intros _ [s2 o2] (Q2 & O2). cbn in Q2, O2. subst o2.
  pose proof Q2 as (A2 & Hv2 & L2 & _ & _).
  pose proof (acct_same _ _ _ _ A2 A1) as B2.
  apply returns_bind. eapply returns_mono.
  { apply (window_change_run i s2 o (ac_suicide _ _ _ B2)). rewrite L2.
    by apply (quiet_in_step _ s1). }
  intros _ [s3 o3] (A3 & Hv3 & S3 & O3). cbn in A3, Hv3, S3, O3. subst o3.
  pose proof (acct_same _ _ _ _ A3 B2) as B3. rewrite s32_small by lia.
  apply returns_bind, returns_puta.
  assert (acct (T + n) (touch ks key) (account n i s3)) as B4.
  { apply acct_account; [done| |lia|done|by rewrite Hv3].
    rewrite (sa_next _ _ A3), (sa_next _ _ A2). done. }
  eapply returns_mono; [by apply after_account_run|].
  intros _ [s5 o5] (A5 & F5 & O5). cbn in A5, F5, O5. subst o5.
  apply returns_puta. unfold returns, mret, prog_ret. cbn [fst snd].
  split; [done|]. split; [|split; [|done]].
  - apply (acct_same _ _ s5); [by split|]. by apply (acct_same _ _ (account n i s3)).
  - pose proof (same_flags_trans _ _ _ (account_flags n i s3) F5) as F.
    pose proof F as (Hh & _). cbn. rewrite Hh, Hv3. exact (in_step_flags _ s3 s5 F S3).
Qed.

(** *** Runs of a server *)

(** The server sets its flags, or runs a block of instrumented code. *)
Inductive aop_event :=
  | EvFlags (have open : Z)
  | EvBlock (hook_type num_insts : Z) (name : cstr) (c0 c1 c2 : Z).

Definition aop_step (e : aop_event) : prog (aop * os) () :=
  match e with
  | EvFlags have open =>
      puta (λ s, set_win (set_have_handled_message have (set_sa_window__is_open open (win s))) s)
  | EvBlock ht n name c0 c1 c2 => ltckpt_aop_hook_wprof ht n name c0 c1 c2 ;; skip
  end.

Fixpoint aop_run (es : list aop_event) : prog (aop * os) () :=
  match es with
  | [] => skip
  | e :: es' => aop_step e ;; aop_run es'
  end.

Definition event_ok (e : aop_event) : Prop :=
  match e with
  | EvFlags _ _ => True
  | EvBlock _ n name c0 c1 c2 =>
      0 <= n < 2147483648 ∧ short_name name ∧ is_addr c0 ∧ is_addr c1 ∧ is_addr c2
  end.

Definition event_insts (e : aop_event) : Z := match e with EvBlock _ n _ _ _ _ => n | _ => 0 end.
Definition total_insts (es : list aop_event) : Z := foldr (λ e t, event_insts e + t) 0 es.

Definition event_contexts (e : aop_event) : list cstr :=
  match e with EvBlock _ _ name c0 c1 c2 => [func_key c2 c1 c0 name] | _ => [] end.
Definition contexts (es : list aop_event) : list cstr := es ≫= event_contexts.

Lemma total_insts_nonneg es : Forall event_ok es → 0 <= total_insts es.
Proof.
  induction 1 as [|e es He _ IH]; [done|].
  change (0 <= event_insts e + total_insts es).
  destruct e; cbn [event_insts event_ok] in *; [lia|]. destruct He as [? _]. lia.
Qed.

Lemma aop_run_acct es T ks s (o : os) :
  Forall event_ok es → acct T ks s → in_step (last_have_handled_message s) s →
  T + total_insts es < 18446744073709551616 →
  zlen (foldl touch ks (contexts es)) <= MAXFUNCS →
  returns (aop_run es) (s, o) (λ _ so,
    acct (T + total_insts es) (foldl touch ks (contexts es)) so.1 ∧ so.2 = o).
Proof.
  intros Hok. revert T ks s. induction Hok as [|e es He Hes IH]; intros T ks s Ha Hst HT Hroom.
  { split; [|done]. cbn. by rewrite Z.add_0_r. }
  cbn [aop_run]. apply returns_bind. unfold contexts in *. cbn [mbind list_bind] in *.
  rewrite foldl_app in *. pose proof (total_insts_nonneg es Hes).
  destruct e as [have open|ht n name c0 c1 c2]; cbn [total_insts foldr event_insts event_contexts foldl] in *.
  - unfold returns at 1, aop_step, puta, modify. cbn [fst snd]. apply IH; [|done|done|done].
    apply (acct_same _ _ s); [by split|done].
  - destruct He as (Hn & Hnm & Hc0 & Hc1 & Hc2). unfold aop_step. apply returns_bind.
    set (key := func_key c2 c1 c0 name) in *. fold (total_insts es) in *.
    pose proof (touches_length (touch ks key) (contexts es)). unfold contexts in *.
    eapply returns_mono; [apply (hook_run T ks s o ht n name c0 c1 c2); try done; fold key; lia|].
    intros r [s1 o1] (_ & A1 & S1 & O1). cbn in A1, S1, O1. subst o1.
    unfold returns at 1, skip. eapply returns_mono.
    { apply (IH (T + n) (touch ks key)); [done|done|lia|done]. }
    intros _ so [A2 O2]. split; [|done]. by rewrite Z.add_assoc.
Qed.

(** Profiling switched on with clear counters, outside a window. *)
Record profiling_starts (s : aop) : Prop := {
  ps_glo : glo s = zero_set;
  ps_funcs : funcs s = λ _, mk_scope [] zero_set;
  ps_next : wprof_next_free s = 0;
  ps_rwin : rwindow_bb_in (win s) = 0;
  ps_flags : last_have_handled_message s = 0 ∧ pes_have_handled_message s = 0 ∧
             dfa_have_handled_message s = 0;
  ps_on : wprof_init s ≠ 0 ∧ wprof_enable s ≠ 0 ∧ wprof_enable_stats (win s) ≠ 0;
  ps_suicide : suicide_on_window_close (win s) = 0;
}.

Lemma starts_acct s : profiling_starts s → acct 0 [] s ∧ in_step (last_have_handled_message s) s.
Proof.
  intros [Hg Hf Hn Hr (Hl & Hp & Hd) (H1 & H2 & H3) Hs]. split.
  - split; rewrite ?Hg, ?Hr, ?Hn, ?Hf; try done. constructor.
  - unfold in_step. by rewrite Hl, Hp, Hd.
Qed.

(** C32: The window profile is exact. From clear counters, with the suicide of a window off, let a
    server run its blocks in contexts of at most [MAXFUNCS] (8000) different names, each made of
    function names of at most 42 characters, so that it fits the buffer it is put together in
    ([event_ok]; longer ones may overflow it), with its flags set in any way in between and fewer
    than 2^64 instructions in all. The run returns; then under each policy the instructions inside
    and outside the window add up to all instructions executed, the global counters are the sums
    of those of the call contexts, of which there is one entry each, the data-flow policy has
    counted the same as the optimistic one, and the pessimistic one has counted no more inside the
    window. *)
Theorem window_profile_exact (es : list aop_event) (s : aop) (o : os) :
  profiling_starts s → Forall event_ok es → total_insts es < 18446744073709551616 →
  zlen (remove_dups (contexts es)) <= MAXFUNCS →
  ∃ s', aop_run es (s, o) = Ok () (s', o) ∧
    (∀ p, p ≠ rwindow → pol (glo s') p bb_in + pol (glo s') p bb_out = total_insts es) ∧
    rwindow_bb_in (win s') + pol (glo s') rwindow bb_out = total_insts es ∧
    (∀ p f, p ≠ rwindow → f = bb_in ∨ f = bb_out →
       pol (glo s') p f = zsum (λ i, pol (stats (funcs s' i)) p f) (wprof_next_free s')) ∧
    wprof_next_free s' = zlen (remove_dups (contexts es)) ∧
    pol (glo s') dfa bb_in = pol (glo s') opt bb_in ∧
    pol (glo s') pes bb_in <= pol (glo s') opt bb_in.
Proof.
  intros [Ha Hst]%starts_acct Hok HT Hroom.
  pose proof (aop_run_acct es 0 [] s o Hok Ha Hst) as Hrun.
  rewrite touches_distinct in Hrun. rewrite Z.add_0_l in Hrun.
  apply returns_elim in Hrun as ([] & [s' o'] & Hrun & Hs' & Ho); [|done|done].
  cbn in Hs', Ho. subst o'. exists s'. split; [done|]. split_and!.
  - apply Hs'.
  - apply Hs'.
  - apply Hs'.
  - rewrite (ac_next _ _ _ Hs'). by rewrite touches_distinct.
  - apply Hs'.
  - apply Hs'.
Qed.

(** *** Call contexts *)

Lemma digit_in_16 d : 0 <= d < 16 → digit_in 16 (hex_char d) = Some d ∧ hex_char d ≠ comma.
Proof.
  intros H. assert (d ∈ [0;1;2;3;4;5;6;7;8;9;10;11;12;13;14;15]) as Hd.
  { rewrite !elem_of_cons, elem_of_nil. lia. }
  rewrite !elem_of_cons, elem_of_nil in Hd.
  destruct_or! Hd; subst; try done; by vm_compute.
Qed.

Lemma scan_hex fuel n rest :
  0 <= n < 16 ^ Z.of_nat fuel → (0 < fuel)%nat →
  scan_digits 16 0 (hex_digits fuel n rest) = scan_digits 16 n rest.
Proof.
  revert n rest. induction fuel as [|fuel IH]; intros n rest Hn Hf; [lia|].
  pose proof (Z.mod_pos_bound n 16) as Hm. cbn [hex_digits].
  destruct (Z.ltb_spec n 16) as [Hlt|Hge].
  - rewrite Z.mod_small in * by lia. cbn [scan_digits]. by rewrite (proj1 (digit_in_16 n ltac:(lia))).
  - rewrite Nat2Z.inj_succ, Z.pow_succ_r in Hn by lia.
    assert (0 <= n / 16 < 16 ^ Z.of_nat fuel) as Hq.
    { split; [apply Z.div_pos; lia|apply Z.div_lt_upper_bound; lia]. }
    rewrite IH; [|done|].
    + cbn [scan_digits]. rewrite (proj1 (digit_in_16 (n mod 16) ltac:(lia))). f_equal.
      pose proof (Z.div_mod n 16). lia.
    + destruct fuel; [|lia]. cbn in Hq. assert (0 < n / 16) by (apply Z.div_str_pos; lia). lia.
Qed.

Lemma hex_sep fuel n acc : comma ∉ acc → comma ∉ hex_digits fuel n acc.
Proof.
  revert n acc. induction fuel as [|fuel IH]; intros n acc Ha; [done|]. cbn [hex_digits].
  assert (comma ∉ hex_char (n mod 16) :: acc) as Hc.
  { apply not_elem_of_cons. split; [|done].
    apply not_eq_sym, digit_in_16. apply Z.mod_pos_bound. lia. }
  destruct (n <? 16); [done|]. by apply IH.
Qed.

Lemma lt_n2h_inj c c' : is_addr c → is_addr c' → lt_n2h c = lt_n2h c' → c = c'.
Proof.
  unfold is_addr. intros H H' E.
  pose proof (scan_hex 19 c [] ltac:(cbn; lia) ltac:(lia)) as S.
  pose proof (scan_hex 19 c' [] ltac:(cbn; lia) ltac:(lia)) as S'.
  unfold lt_n2h in E. rewrite E, S' in S. by injection S.
Qed.

(** The first address of a key, and the rest. *)
Lemma key_field_inj c c' r r' :
  is_addr c → is_addr c' →
  lit "0x" ++ lt_n2h c ++ comma :: r = lit "0x" ++ lt_n2h c' ++ comma :: r' → c = c' ∧ r = r'.
Proof.
  intros H H' E. assert (∀ c r, strsep_field comma (lit "0x" ++ lt_n2h c ++ comma :: r)
    = (lit "0x" ++ lt_n2h c, Some r)) as Hs.
  { intros c0 r0. rewrite app_assoc. apply strsep_field_app. apply not_elem_of_app.
    split; [by vm_compute; set_solver|]. apply hex_sep, not_elem_of_nil. }
  pose proof (Hs c r) as E1. rewrite E, Hs in E1. injection E1 as E1 E2.
  split; [|done]. symmetry. by apply lt_n2h_inj.
Qed.

Lemma func_key_inj c2 c1 c0 name c2' c1' c0' name' :
  is_addr c2 → is_addr c1 → is_addr c0 → is_addr c2' → is_addr c1' → is_addr c0' →
  func_key c2 c1 c0 name = func_key c2' c1' c0' name' →
  c2 = c2' ∧ c1 = c1' ∧ c0 = c0' ∧ name = name'.
Proof.
  intros H2 H1 H0 H2' H1' H0' E. unfold func_key in E.
  change (lit ",0x") with (comma :: lit "0x") in E. change (lit ",") with [comma] in E.
  cbn [app] in E.
  apply (key_field_inj c2 c2') in E as [-> E]; [|done|done].
  apply (key_field_inj c1 c1') in E as [-> E]; [|done|done].
  apply (key_field_inj c0 c0') in E as [-> E]; [|done|done]. done.
Qed.

(** A call context: three return addresses and the name of the function. *)
Definition ctx_ok (c : Z * Z * Z * cstr) : Prop :=
  let '(c2, c1, c0, name) := c in is_addr c2 ∧ is_addr c1 ∧ is_addr c0 ∧ short_name name.
Definition ctx_stats (c : Z * Z * Z * cstr) : prog (aop * os) Z :=
  let '(c2, c1, c0, name) := c in lt_wprof_func_stats c2 c1 c0 name.

(** Every call context has an entry of its own: with room for two more entries, looking
    up two contexts returns the same entry exactly when the return addresses and the
    names of the functions are the same, and the counters stay in order. *)
Theorem contexts_get_own_entries (T : Z) (ks : list cstr) (s : aop) (o : os)
    (x y : Z * Z * Z * cstr) :
  acct T ks s → ctx_ok x → ctx_ok y → zlen ks + 2 <= MAXFUNCS →
  ∃ i j s', (i ← ctx_stats x; j ← ctx_stats y; mret (i, j)) (s, o) = Ok (i, j) (s', o) ∧
    (i = j ↔ x = y) ∧ ∃ ks', acct T ks' s'.
Proof.
  destruct x as [[[a2 a1] a0] n], y as [[[b2 b1] b0] n'].
  intros Ha (X2 & X1 & X0 & Xn) (Y2 & Y1 & Y0 & Yn) Hroom. unfold ctx_stats.
  assert (∀ l k, zlen (touch (A := cstr) l k) <= zlen l + 1) as Ht.
  { intros l k. unfold touch. case_decide; [lia|]. rewrite length_app. cbn. lia. }
  set (k1 := func_key a2 a1 a0 n). set (k2 := func_key b2 b1 b0 n').
  pose proof (Ht ks k1). pose proof (Ht (touch ks k1) k2).
  assert (returns (i ← lt_wprof_func_stats a2 a1 a0 n; j ← lt_wprof_func_stats b2 b1 b0 n';
      mret (i, j)) (s, o) (λ r so, so.2 = o ∧ acct T (touch (touch ks k1) k2) so.1 ∧
      0 <= r.1 ∧ 0 <= r.2 ∧ touch (touch ks k1) k2 !! Z.to_nat r.1 = Some k1 ∧
      touch (touch ks k1) k2 !! Z.to_nat r.2 = Some k2)) as Hr.
  { apply returns_bind. eapply returns_mono.
    { apply (func_stats_run T ks s o a2 a1 a0 n Ha); [by apply func_key_fits|etrans; [apply Ht|lia]]. }
    intros i [s1 o1] (A1 & Hi & Hk & _ & O1). cbn [fst snd] in A1, Hi, Hk, O1. subst o1.
    apply returns_bind. eapply returns_mono.
    { apply (func_stats_run T _ s1 o b2 b1 b0 n' A1); [by apply func_key_fits|].
      etrans; [apply Ht|]. pose proof (Ht ks (func_key a2 a1 a0 n)). lia. }
    intros j [s2 o2] (A2 & Hj & Hk2 & _ & O2). cbn [fst snd] in A2, Hj, Hk2, O2. subst o2.
    unfold returns, mret, prog_ret. cbn [fst snd].
    split; [done|]. split; [done|]. split; [lia|]. split; [lia|]. split; [|done].
    fold k1 k2. unfold touch at 1. case_decide; [done|]. by apply lookup_app_l_Some. }
  apply returns_elim in Hr as ([i j] & [s' o'] & Hr & Ho & A & Hi & Hj & Hk1 & Hk2).
  cbn [fst snd] in Ho, A, Hi, Hj, Hk1, Hk2. subst o'.
  exists i, j, s'. split; [done|]. split; [|by eexists]. split.
  - intros ->. rewrite Hk1 in Hk2. assert (k1 = k2) as E by (by apply (inj Some)).
    by apply func_key_inj in E as (-> & -> & -> & ->).
  - intros [= -> -> -> ->]. fold k2 in k1. subst k1.
    pose proof (NoDup_lookup _ _ _ _ (ac_nodup _ _ _ A) Hk1 Hk2). lia.
Qed.

End Accounting.

(** ** A server *)

#[local] Instance profiled_build : Options := {
  LTRC_SUICIDE_ONLY_ONCE := true;
  LTRC_SUICIDE_WHEN_RECOVERABLE := false;
  LTRC_NO_RECOVERY_ON_SVC_FI := false;
  LTRC_REHANDLE_REQUEST := false;
}.

(** Clear counters, with profiling on. *)
Definition demo_aop : aop :=
  mk_aop (set_wprof_enable_stats 1 rwin0)
    zero_set (λ _, mk_scope [] zero_set) 0 1 1 0 0 0 None None None.

Definition send_name : cstr := lit "_ipc_send".

(** The server takes a message, computes, sends (which closes the pessimistic window), and
    goes on until it is done with the message. *)
Definition demo_events : list aop_event :=
  [EvFlags 1 1; EvBlock 0 10 (lit "main") 4096 0 0; EvBlock 0 3 send_name 4200 4096 0;
   EvBlock 1 20 (lit "main") 4096 0 0; EvFlags 0 0; EvBlock 1 5 (lit "main") 4096 0 0].

Lemma demo_starts : profiling_starts demo_aop.
Proof. split; try reflexivity; try (split_and!; reflexivity); split_and!; discriminate. Qed.

Lemma window_profile_exact_witness :
  ∃ s', aop_run demo_events (demo_aop, ()) = Ok () (s', ()) ∧
    pol (glo s') opt bb_in + pol (glo s') opt bb_out = 38 ∧ wprof_next_free s' = 2.
Proof.
  destruct (window_profile_exact demo_events demo_aop ()) as (s' & H & Ht & _ & _ & Hn & _).
  - apply demo_starts.
  - repeat (apply Forall_cons; split; [cbn; unfold short_name, is_addr; split_and?; cbn; lia|]).
    apply Forall_nil. exact I.
  - vm_compute. reflexivity.
  - vm_compute. congruence.
  - exists s'. split; [exact H|]. split; [apply (Ht opt); discriminate|].
    rewrite Hn. vm_compute. reflexivity.
Defined.

Lemma contexts_get_own_entries_witness :
  ∃ i j s', (i ← ctx_stats (0, 4096, 4200, send_name); j ← ctx_stats (0, 4096, 4208, send_name);
      mret (i, j)) (demo_aop, ()) = Ok (i, j) (s', ()) ∧ i ≠ j.
Proof.
  destruct (contexts_get_own_entries 0 [] demo_aop () (0, 4096, 4200, send_name)
    (0, 4096, 4208, send_name)) as (i & j & s' & H & [Hij _] & _).
  - apply starts_acct, demo_starts.
  - unfold ctx_ok, is_addr, short_name. split_and!; cbn; lia.
  - unfold ctx_ok, is_addr, short_name. split_and!; cbn; lia.
  - cbn. unfold MAXFUNCS. lia.
  - exists i, j, s'. split; [exact H|]. intros E. apply Hij in E. congruence.
Defined.
